(* ===== verification/_CoqProject ===== *)
-Q . S2P
Prelude.v
Bitmap.v
Exec.v
KString.v
XfsFormat.v
XfsCrc.v
Block.v
BlockSpec.v
Cache.v
CacheSpec.v
Journal.v
JournalSpec.v
XfsCore.v
XfsSpec.v
AllocSpec.v
XfsDir.v
DirSpec.v
XfsOps.v
FileSpec.v
Fs.v
FsSpec.v
XfsCheck.v
Scenario.v
StorageWitness.v
FsScenario.v
Mem.v
Pmm.v
PmmSpec.v
Frames.v
Vmm.v
VmmWalk.v
VmmSpec.v
VmmMap.v
VmmUser.v
VmmLoad.v
VmmView.v
VmmClone.v
VmmAlloc.v
VmmWitness.v
Sched.v
SchedSpec.v
SchedTask.v
SchedInv.v
SchedFair.v
CoreWitness.v
Shell.v
Config.v
Keyboard.v
KeyboardSpec.v
NetBytes.v
Net.v
NetUdp.v
NetHttp.v
NetApi.v
NetFrames.v
NetSafe.v
NetRun.v
NetTcp.v
NetArp.v
NetWitness.v
Elf.v
ElfStack.v
ElfLoad.v
ElfRun.v
ElfWitness.v
Users.v
UsersSpec.v
UsersRun.v
UsersSession.v
UsersDb.v
Proc.v
ProcInv.v
PipeRun.v
ProcLife.v
ProcScenario.v
Svc.v
SvcSpec.v
SvcMsg.v
SvcCore.v
SvcScenario.v
