(* ===== verification/Prelude.v ===== *)
(** * K64: a verification development for the K64 kernel

    K64 is a small 64-bit kernel in C with its own file system.  This library
    models its storage stack, its memory managers, its program loader, its
    scheduler, its network stack, its users, its processes and services with the
    system call gate, and some of its input handling, and proves the theorems that
    make them correct.

    ** How code becomes definitions

    A C function that can fail or changes state is a computation of the monad
    [M] of [Exec.v] over the state it can reach: returned true, returned false
    with every store so far kept, or undefined behaviour (an array access out of
    bounds).  Integers are [Z] with the wrap-around written out ([u8] to [u64] of
    this file); buffers and strings are lists of bytes; structures are records;
    what the kernel reads and writes at physical addresses is the byte memory of
    [Mem.v].  Definitions have the names of the C functions; a part of a function
    that has a name of its own (a loop body, a loop, a guard) is described where
    it is defined.  All definitions are executable.  Terminal and log output is
    left out.

    ** Parts and files

    - Shared: [Prelude.v] (this file: integers, buffers, little-endian words, the
      list lemmas, hints and tactics), [Bitmap.v] (bit arrays), [Exec.v] (the
      monad, its weakest preconditions and loop rules), [Mem.v].
    - [k64_string.c]: [KString.v].
    - [k64_block.c]: [Block.v] models the device registry, bounds-checked access
      and MBR partitions; [BlockSpec.v] proves them.  A device driver is an
      argument; the class [BlockDriver] of [Block.v] states what the block layer
      expects of one; a disk in memory of
      [BlockSpec.v] is an instance.
    - [k64_xfs_format.c]: [XfsFormat.v] (packed structures, their encoders and
      decoders), [XfsCrc.v] (what the checksum detects).
    - [k64_xfs_cache.c]: [Cache.v]; [CacheSpec.v] proves that it refines a plain
      store of blocks.
    - [k64_xfs_journal.c]: [Journal.v]; [JournalSpec.v] proves durability of
      committed transactions over a crash, that recovery ignores what has no
      commit record, and that it ends on any content.
    - [k64_xfs.c]: [XfsCore.v] (blocks, inodes, allocators), [XfsDir.v]
      (directories, paths), [XfsOps.v] (the public operations), [XfsCheck.v] (the
      checker); [XfsSpec.v] (blocks and inodes), [AllocSpec.v], [DirSpec.v] and
      [FileSpec.v] prove them from the block layer up; [Scenario.v] runs whole
      sequences of operations on a memory disk, among them the ones that show
      defects; [StorageWitness.v] applies the theorems.
    - [k64_fs.c]: [Fs.v], paths over the operations of [XfsOps.v]; [FsSpec.v]
      (normalization, writing parts of files); [FsScenario.v] runs it on the memory
      disk and applies the theorems.
    - [k64_pmm.c]: [Pmm.v]; [PmmSpec.v] (allocation and release, and the memory
      map of the boot loader).  [Frames.v] is the interface
      [FrameAllocator] through which the scheduler and the virtual memory manager
      use it, with the manager as its instance.
    - [k64_vmm.c]: [Vmm.v]; [VmmWalk.v] (entries and page-table walks), [VmmSpec.v] (taking frames), [VmmMap.v] (mapping a page, splitting
      large ones), [VmmUser.v] (copies to and from user memory), [VmmLoad.v]
      (loading an image), [VmmView.v] (the bytes a space holds, as a partial map
      that mapping and writing update), [VmmClone.v] (releasing, the root of a new
      space), [VmmAlloc.v] (new spaces); [VmmWitness.v] applies the
      theorems.
    - [k64_elf.c]: [Elf.v], a client of [Vmm.v]; [ElfStack.v] (arguments, the
      initial stack), [ElfLoad.v] (header checks and the two
      loaders), [ElfRun.v] (whole executions); [ElfWitness.v] applies the theorems
      and shows what happens to segments that share a page.
    - [k64_net.c]: [NetBytes.v] (network byte order, checksums), [Net.v] (state,
      tables, Ethernet, ARP, IPv4, TCP segments), [NetUdp.v] (DNS and DHCP),
      [NetHttp.v] (the TCP receiver of the HTTP client), [NetApi.v] (received
      frames and the calls of other parts); [NetFrames.v] (the frames that are
      built), [NetSafe.v] (every handler; the class [DeviceInv] states what is
      known of a network card), [NetRun.v] (runs of the whole stack), [NetTcp.v]
      (reassembly), [NetArp.v] (addresses as text, two machines);
      [NetWitness.v] applies the theorems and shows an overflow.
    - [k64_sched.c], tick counter of [k64_pit.c]: [Sched.v]; [SchedSpec.v] (ring,
      timer, selection), [SchedTask.v] (creation), [SchedInv.v] (runs as a step
      relation and their invariant), [SchedFair.v] (no starvation);
      [CoreWitness.v] applies the theorems on frames and tasks.
    - [k64_user.c]: [Users.v]; [UsersSpec.v] (the invariant of the tables),
      [UsersRun.v] (every command keeps it, and sequences of commands),
      [UsersSession.v] (what a session can do, access decisions, passwords),
      [UsersDb.v] (the databases and a restart; the class [FileLaws] states what
      is expected of the file system; the theorems are applied on a file system in
      memory).
    - [k64_usermode.c], processes: [Proc.v] (process table, credentials,
      descriptors, pipes and the calls of the service io; spawning, waiting, ending,
      faults, nested execution); [ProcInv.v] (the ring buffer of a pipe is a queue,
      the invariant of the tables), [PipeRun.v] (runs of many processes as a step relation), [ProcLife.v] (a child from spawn
      to wait); [ProcScenario.v] applies the theorems and runs the sequences that
      show defects.
    - [k64_system.c] and the gate of [k64_usermode.c]: [Svc.v] (the registry, start
      and stop, the dispatcher, messages, the gate), [SvcCore.v] (the core services,
      the calls of kernel and fs, which handler of [Proc.v] and [Svc.v] each call
      has, and what file calls may change; the record [files] is the interface to the
      file system);
      [SvcSpec.v] (the table of calls, rights at the gate), [SvcMsg.v] (messages to
      the program of a service, with [demosvc.c] of the user land); [SvcScenario.v] runs system calls from user memory to the programs of
      services and back, and applies the theorems.
    - [k64_shell_cmd.c]: [Shell.v].  [k64_config.c]: [Config.v].
      [k64_keyboard.c]: [Keyboard.v], [KeyboardSpec.v].

    ** What the theorems show

    - Storage: the cache answers like a store for every sequence of operations
      and device errors, refuses only for a device error on the block asked for or
      on one that waits to be written back, and evicts the least recently used
      block; a committed transaction survives a crash as long as no later one has
      overwritten the journal, and an uncommitted one leaves no trace, whatever
      transactions of other numbers are behind it; formats and inodes are read
      back as written; allocators are first-fit, mark
      exactly what they return, and freeing undoes allocation; path resolution is
      the walk through the directories; reading a file returns what writing it
      stored and leaves other files alone, and writing fails only when the data does
      not fit with the old blocks given back; writes stay in their partition; a path
      of at most 255 characters, absolute or behind the current directory, is
      normalized to the components it names as long as no [..] follows a name behind
      another [..], and appending to a file by path adds the bytes at its end, up
      to 16 MiB.
    - Storage defects, shown by executed runs: a transaction that never committed
      replayed, a committed directory lost, blocks shared by two files after a
      failed overwrite, a file lost by a rename.
    - Memory: frames are never given out twice; after boot every frame that the
      memory map offers as a whole is free unless something needed lies in it, and
      no frame is free of which it offers nothing, but one that it offers in part
      may be; mapping a page changes the translation of that page only, and opens
      it to the user only where the tables above it are open; loading an image gives the user
      program the bytes of the file; a new space sees the kernel's translations
      and its own stack; allocating and releasing a space leaks nothing; copies
      to and from user memory touch only what the user may access.
    - Programs: for every file, name and argument line the loader does nothing
      undefined and gives back all it took; a program starts only in a space that
      holds its segments, each with its whole pages, laid down in order, and a
      stack with its arguments, environment and auxiliary vector; the two loaders
      agree on programs whose segments share no page, and differ on others.  A
      program with an interpreter is never run: both files share one buffer, and
      the interpreter is loaded twice.
    - Network: no sequence of frames and calls makes the stack leave its arrays
      (tables, packets, the request and the text fields), and every frame it sends
      is well formed with correct checksums, unless a received length wraps around,
      which overflows a buffer for every such echo request; the TCP receiver
      delivers a prefix of a stream of less than 16 MiB whatever order data segments
      arrive in, while no FIN, RST or wrap of the sequence numbers occurs; an ARP
      exchange makes two machines know each other; addresses survive printing and
      parsing.
    - Scheduling: the tasks form one ring with at most one running; the task with
      the highest score is chosen; a ready task runs within a bounded number of
      ticks that arrive while no user program is active (the others do not schedule).
    - Users: the tables stay well formed under every sequence of commands, with
      unique account names as long as accounts are created with names that fit; a
      session without privileges gets none, changes no role, no group and no
      privileged account, and reads no file that is closed to it, unless it knows a
      password; a password that was set is the one that logs in; accounts
      without colons in their fields survive a restart.
    - Processes: over any run of any number of processes the tables stay well
      formed and pipes are first-in-first-out queues of bytes; a spawned child gets
      the rights of its parent, and waiting for it runs it and returns its exit
      code.  Shown defects: a length that wraps makes bytes of other processes
      readable, a failed call for a pipe leaves an end of it open, pipes and table
      entries of ended programs are lost, opening a file replaces the content of
      others.
    - Services: the table of calls is a finite map; no system call depends on the
      handlers of calls that are closed to users; a message to the program of a
      service is answered with what the program gives for exactly the request, and
      leaves no trace; file calls change only what the user may change, but make
      the writer of a file its owner.
    - Input: the keyboard driver is a bounded queue of events; the command-line
      and shell parsers agree with their word-by-word specifications.

    ** Bounds and fuel

    Loops over a counter are [for_loop] and [find_loop], which are structural.
    The others have fuel that the theorems show to be enough: the memory map
    (one round per entry header), path resolution (the length of the path), the
    scheduler's ring (the number of tasks), the slots of the service area (256
    rounds), copies of user memory (a round per page), the command line (a byte
    per round), the key buffer (128 events), arguments of a program (a byte per
    round), the carries of a checksum (2 rounds), names, options and header lines
    of received packets (a byte per round), the lines of the user databases (a
    byte per round), the components of a path (a byte per round).  Running out of fuel is undefined
    behaviour or [None], which the theorems exclude.

    ** Hypotheses

    Drivers obey [BlockDriver]; volumes have at most 32768 blocks (the bitmap has
    one block); page tables are a tree of busy frames ([tables_ok]), no 1 GiB
    page lies at or above 2^48 ([low_giants]), and the kernel has no tables in the
    area of the services where a user space is built ([area_clear]) nor where
    programs are loaded ([low_clear]).  A network card accepts the frames that
    [DeviceInv] describes; received frames have at most 1514 bytes, and the
    result buffer of [k64_net_http_get] at most 1025.  The start of a
    program keeps what its context holds ([starts_user]).  The file system fills its
    buffer within its size ([world_ok]); process identifiers and identifiers of
    messages do not wrap around ([um_ok], [msgs_ok]).  Function pointers of services
    are numbers, and what they do is a parameter.  Every theorem with hypotheses has a witness that meets them.

    ** Not modelled

    Assembly, interrupt and port I/O, drivers ([k64_ata.c], [k64_pci.c],
    [k64_pic.c], [k64_serial.c], network cards), the terminal and the log, hot
    reload, the start-up sequence: their effects are on hardware.  Of
    [k64_usermode.c] the Linux system calls, the terminal and framebuffer calls and
    the switch to Ring 3; of [k64_system.c] the loading of services from boot
    modules and the root file system, background tasks of services and printing
    commands; of [k64_fs.c] the choice of the device to mount and the installation.
    Not modelled yet: packages ([k64_kpm.c]), the built-in services
    ([k64s_builtin.c]) and the shell loop. *)
From Stdlib Require Import ZArith Lia.
From Stdlib Require String Ascii.
From stdpp Require Import base list numbers.

Export String.StringSyntax.
#[global] Open Scope Z_scope.

(** Abbreviations of the C integer conversions: an unsigned [w]-bit value is a
    [Z] in [0 .. 2^w), and every place where the C code converts or may wrap
    writes the wrap-around out with one of these. *)
Definition u8 (z : Z) : Z := z mod 256.
Definition u16 (z : Z) : Z := z mod 65536.
Definition u32 (z : Z) : Z := z mod 4294967296.
Definition u64 (z : Z) : Z := z mod 18446744073709551616.

Definition UINT32_MAX : Z := 4294967295.
Definition UINT64_MAX : Z := 18446744073709551615.

(** The value of a [uint32_t]/[uint64_t] bit pattern converted to [int]. *)
Definition int32 (z : Z) : Z :=
  let r := z mod 4294967296 in if r <? 2147483648 then r else r - 4294967296.

(** ** Bytes and buffers

    A byte is a [Z] in [0 .. 256); a buffer (an array of [uint8_t] or [char])
    is the list of its bytes. *)
Definition byte_ok (b : Z) : Prop := 0 <= b < 256.
Abbreviation bytes_ok := (Forall byte_ok).

#[global] Instance byte_ok_dec b : Decision (byte_ok b).
Proof. unfold byte_ok. apply _. Defined.

(** Reading element [i] of an array; [None] when [i] is out of range. *)
Definition getZ {A} (l : list A) (i : Z) : option A :=
  if decide (0 <= i) then l !! Z.to_nat i else None.

(** Writing element [i] of an array; [None] when [i] is out of range. *)
Definition setZ {A} (l : list A) (i : Z) (x : A) : option (list A) :=
  if decide (0 <= i < Z.of_nat (length l)) then Some (<[Z.to_nat i := x]> l) else None.

(** [memcpy(dst + off, src, len src)] for a range that fits in [dst]. *)
Definition splice {A} (dst : list A) (off : nat) (src : list A) : list A :=
  take off dst ++ src ++ drop (off + length src) dst.

(** The [n] elements of [l] from [off] on. *)
Definition slice {A} (l : list A) (off n : nat) : list A := take n (drop off l).

(** The [n] bytes at [off] of a buffer, if they are inside of it. *)
Definition take_bytes (p : list Z) (off n : Z) : option (list Z) :=
  if decide (0 <= off /\ 0 <= n /\ off + n <= Z.of_nat (length p))
  then Some (slice p (Z.to_nat off) (Z.to_nat n)) else None.

(** [memset(p, 0, n)] *)
Definition zeros (n : nat) : list Z := replicate n 0.

(** The bytes of a string literal of the source. *)
Definition str (s : String.string) : list Z :=
  map (fun a => Z.of_N (Ascii.N_of_ascii a)) (String.list_ascii_of_string s).
Arguments str s%_string_scope.

(** *** Little-endian integers: how a C integer lies in a packed struct *)
Fixpoint le_value (l : list Z) : Z :=
  match l with
  | [] => 0
  | b :: t => b + 256 * le_value t
  end.

Fixpoint le_bytes (n : nat) (v : Z) : list Z :=
  match n with
  | O => []
  | S n => v mod 256 :: le_bytes n (v / 256)
  end.

(** Cursors over a packed struct: the next [n]-byte integer, the next [n] raw
    bytes. *)
Definition get_le (n : nat) (bs : list Z) : Z * list Z := (le_value (take n bs), drop n bs).
Definition get_raw (n : nat) (bs : list Z) : list Z * list Z := (take n bs, drop n bs).

Create HintDb k64 discriminated.
Create Rewrite HintDb k64len.

(** *** Lemmas on integers *)
Lemma u8_range z : 0 <= u8 z < 256.
Proof. apply Z.mod_pos_bound. lia. Qed.
Lemma u16_range z : 0 <= u16 z < 65536.
Proof. apply Z.mod_pos_bound. lia. Qed.
Lemma u32_range z : 0 <= u32 z < 4294967296.
Proof. apply Z.mod_pos_bound. lia. Qed.
Lemma u64_range z : 0 <= u64 z < 18446744073709551616.
Proof. apply Z.mod_pos_bound. lia. Qed.
Lemma u8_small z : 0 <= z < 256 -> u8 z = z.
Proof. unfold u8. intros. now rewrite Z.mod_small. Qed.
Lemma u16_small z : 0 <= z < 65536 -> u16 z = z.
Proof. unfold u16. intros. now rewrite Z.mod_small. Qed.
Lemma u32_small z : 0 <= z < 4294967296 -> u32 z = z.
Proof. unfold u32. intros. now rewrite Z.mod_small. Qed.
Lemma u64_small z : 0 <= z < 18446744073709551616 -> u64 z = z.
Proof. unfold u64. intros. now rewrite Z.mod_small. Qed.

#[export] Hint Resolve u8_range u16_range u32_range u64_range : k64.

(** *** Lemmas on arrays *)
Section arrays.
Context {A : Type}.
Implicit Types (l : list A) (x : A) (i j : Z).

Lemma getZ_Some l i x :
  getZ l i = Some x <-> 0 <= i /\ l !! Z.to_nat i = Some x.
Proof. unfold getZ. case_decide; split; [auto|tauto|done|tauto]. Qed.

Lemma getZ_lt l i x : getZ l i = Some x -> 0 <= i < Z.of_nat (length l).
Proof. intros [? ?%lookup_lt_Some]%getZ_Some. lia. Qed.

Lemma getZ_is_Some l i : 0 <= i < Z.of_nat (length l) -> exists x, getZ l i = Some x.
Proof.
  intros. destruct (lookup_lt_is_Some_2 l (Z.to_nat i)) as [x Hx]; [lia|].
  exists x. apply getZ_Some. split; [lia|done].
Qed.

Lemma getZ_None l i : getZ l i = None <-> i < 0 \/ Z.of_nat (length l) <= i.
Proof.
  unfold getZ. case_decide.
  - rewrite lookup_ge_None. lia.
  - split; [lia|done].
Qed.

Lemma setZ_Some l i x l' :
  setZ l i x = Some l' <-> 0 <= i < Z.of_nat (length l) /\ l' = <[Z.to_nat i := x]> l.
Proof. unfold setZ. case_decide; split; try tauto; [|intros [_ ->]; done|done]. intros [=]; auto. Qed.

Lemma setZ_is_Some l i x : 0 <= i < Z.of_nat (length l) ->
  setZ l i x = Some (<[Z.to_nat i := x]> l).
Proof. intros. unfold setZ. by rewrite decide_True. Qed.

Lemma setZ_length l i x l' : setZ l i x = Some l' -> length l' = length l.
Proof. intros [_ ->]%setZ_Some. apply length_insert. Qed.

Lemma getZ_setZ_eq l i x l' : setZ l i x = Some l' -> getZ l' i = Some x.
Proof.
  intros [? ->]%setZ_Some. apply getZ_Some. split; [lia|].
  apply list_lookup_insert_eq. lia.
Qed.

Lemma getZ_setZ_ne l i j x l' : setZ l i x = Some l' -> j <> i -> getZ l' j = getZ l j.
Proof.
  intros [? ->]%setZ_Some ?. unfold getZ. case_decide; [|done].
  apply list_lookup_insert_ne. lia.
Qed.

Lemma splice_length l off s :
  (off + length s <= length l)%nat -> length (splice l off s) = length l.
Proof.
  intros. unfold splice. rewrite !length_app, length_take, length_drop. lia.
Qed.

Lemma slice_length l off n :
  (off + n <= length l)%nat -> length (slice l off n) = n.
Proof. intros. unfold slice. rewrite length_take, length_drop. lia. Qed.

Lemma slice_splice_eq l off s n :
  n = length s -> (off + length s <= length l)%nat -> slice (splice l off s) off n = s.
Proof.
  intros -> ?. unfold slice, splice.
  rewrite drop_app_length' by (rewrite length_take; lia).
  by rewrite take_app_length.
Qed.

Lemma slice_lookup l off n k :
  (k < n)%nat -> slice l off n !! k = l !! (off + k)%nat.
Proof. intros. unfold slice. rewrite lookup_take_lt by done. apply lookup_drop. Qed.

Lemma splice_lookup_out l off s k :
  (off + length s <= length l)%nat -> (k < off \/ off + length s <= k)%nat ->
  splice l off s !! k = l !! k.
Proof.
  intros Hl Hk. unfold splice. destruct (decide (k < off)%nat).
  - rewrite lookup_app_l by (rewrite length_take; lia). by rewrite lookup_take_lt.
  - rewrite lookup_app_r by (rewrite length_take; lia).
    rewrite length_take, Nat.min_l by lia.
    rewrite lookup_app_r by lia. rewrite lookup_drop. f_equal. lia.
Qed.

Lemma splice_lookup_in l off s k :
  (off + length s <= length l)%nat -> (k < length s)%nat ->
  splice l off s !! (off + k)%nat = s !! k.
Proof.
  intros Hl Hk. unfold splice.
  rewrite lookup_app_r by (rewrite length_take; lia).
  rewrite length_take, Nat.min_l by lia.
  rewrite lookup_app_l by lia. f_equal. lia.
Qed.

Lemma splice_lookup_in' l off s k :
  (off + length s <= length l)%nat -> (off <= k < off + length s)%nat ->
  splice l off s !! k = s !! (k - off)%nat.
Proof.
  intros. replace k with (off + (k - off))%nat at 1 by lia.
  apply splice_lookup_in; lia.
Qed.

(** Two ranges that do not overlap: a [memcpy] into one leaves the other. *)
Lemma slice_splice_ne l off s off' n :
  (off + length s <= length l)%nat -> (off' + n <= length l)%nat ->
  (off' + n <= off \/ off + length s <= off')%nat ->
  slice (splice l off s) off' n = slice l off' n.
Proof.
  intros. apply list_eq_same_length with n.
  - by apply slice_length.
  - by apply slice_length; rewrite splice_length.
  - intros k x y Hk. rewrite !slice_lookup by done.
    rewrite splice_lookup_out by lia. congruence.
Qed.
End arrays.

Lemma take_bytes_Some p off n : 0 <= off -> 0 <= n -> off + n <= Z.of_nat (length p) ->
  take_bytes p off n = Some (slice p (Z.to_nat off) (Z.to_nat n)).
Proof. intros. unfold take_bytes. by rewrite decide_True. Qed.

Lemma take_bytes_inv p off n bs : take_bytes p off n = Some bs ->
  0 <= off /\ 0 <= n /\ off + n <= Z.of_nat (length p) /\ bs = slice p (Z.to_nat off) (Z.to_nat n) /\ Z.of_nat (length bs) = n.
Proof.
  unfold take_bytes. case_decide as H; [|done]. intros [= <-]. split_and!; try tauto. rewrite slice_length; lia.
Qed.

Lemma take_all p : take_bytes p 0 (Z.of_nat (length p)) = Some p.
Proof. rewrite take_bytes_Some by lia. unfold slice. by rewrite drop_0, Nat2Z.id, take_ge by lia. Qed.

#[export] Hint Rewrite @length_app @length_take @length_drop @length_replicate
  @length_insert : k64len.

Lemma zeros_length n : length (zeros n) = n.
Proof. apply length_replicate. Qed.
#[export] Hint Rewrite zeros_length : k64len.

(** [lia] for goals with division and modulo. *)
Ltac dmlia := Z.div_mod_to_equations; lia.

(** Closes a goal about the length of buffers. *)
Ltac len := autorewrite with k64len in *; try lia.

Lemma take_zeros m n : take m (zeros n) = zeros (Nat.min m n).
Proof. apply take_replicate. Qed.
Lemma drop_zeros m n : drop m (zeros n) = zeros (n - m).
Proof. apply drop_replicate. Qed.

Lemma zeros_lookup n i x : zeros n !! i = Some x -> x = 0.
Proof. intros H. by apply lookup_replicate in H as [-> _]. Qed.

Lemma zeros_bytes_ok n : bytes_ok (zeros n).
Proof. apply Forall_replicate. unfold byte_ok. lia. Qed.

Lemma bytes_ok_splice l off s : bytes_ok l -> bytes_ok s -> bytes_ok (splice l off s).
Proof. intros. unfold splice. repeat apply Forall_app_2; auto using Forall_take, Forall_drop. Qed.

Lemma bytes_ok_slice l off n : bytes_ok l -> bytes_ok (slice l off n).
Proof. intros. unfold slice. auto using Forall_take, Forall_drop. Qed.

#[export] Hint Resolve zeros_bytes_ok bytes_ok_splice bytes_ok_slice : k64.

(** *** Lemmas on little-endian integers *)
Lemma le_bytes_length n v : length (le_bytes n v) = n.
Proof. revert v. induction n; intros; simpl; [done|by rewrite IHn]. Qed.
#[export] Hint Rewrite le_bytes_length : k64len.

Lemma le_bytes_ok n v : bytes_ok (le_bytes n v).
Proof.
  revert v. induction n; intros; simpl; constructor; auto. apply u8_range.
Qed.
#[export] Hint Resolve le_bytes_ok : k64.

Lemma le_value_range l : bytes_ok l -> 0 <= le_value l < 256 ^ Z.of_nat (length l).
Proof.
  induction 1 as [|b l Hb _ IH]; [simpl; lia|].
  cbn [le_value length]. rewrite Nat2Z.inj_succ, Z.pow_succ_r by lia.
  unfold byte_ok in Hb. nia.
Qed.

Lemma le_value_bytes n v : 0 <= v < 256 ^ Z.of_nat n -> le_value (le_bytes n v) = v.
Proof.
  revert v. induction n as [|n IH]; intros v Hv.
  - simpl in *. lia.
  - cbn [le_bytes le_value]. rewrite Nat2Z.inj_succ, Z.pow_succ_r in Hv by lia.
    rewrite IH; [pose proof (Z.div_mod v 256); lia|].
    split; [apply Z.div_pos; lia|]. apply Z.div_lt_upper_bound; lia.
Qed.

Lemma le_bytes_value l : bytes_ok l -> le_bytes (length l) (le_value l) = l.
Proof.
  induction 1 as [|b l Hb _ IH]; [done|]. cbn [length le_bytes le_value].
  unfold byte_ok in Hb. f_equal.
  - rewrite Z.mul_comm, Z.mod_add by lia. by apply Z.mod_small.
  - replace ((b + 256 * le_value l) / 256) with (le_value l) by dmlia. done.
Qed.

Lemma le_bytes_value' n l : length l = n -> bytes_ok l -> le_bytes n (le_value l) = l.
Proof. intros <- ?. by apply le_bytes_value. Qed.

Lemma get_le_app n v rest : 0 <= v < 256 ^ Z.of_nat n ->
  get_le n (le_bytes n v ++ rest) = (v, rest).
Proof.
  intros. unfold get_le. rewrite take_app_length' by len. rewrite drop_app_length' by len.
  by rewrite le_value_bytes.
Qed.

Lemma get_raw_app n l rest : length l = n -> get_raw n (l ++ rest) = (l, rest).
Proof.
  intros <-. unfold get_raw. by rewrite take_app_length, drop_app_length.
Qed.

#[global] Opaque le_bytes le_value zeros.
