(* ===== verification/Bitmap.v ===== *)
(** * Bitmaps in arrays of bytes

    The kernel keeps one bit per page frame ([k64_pmm.c]) and one per inode and
    per block ([k64_xfs.c]), each in an array of bytes that it reads and writes
    with masks.  The array seen as a function of the bit number, and what a
    masked store does to that function. *)
From Stdlib Require Import ZArith Lia.
From stdpp Require Import base list.
From S2P Require Import Prelude.

Lemma bit_mask_pow i : u8 (Z.shiftl 1 (i mod 8)) = 2 ^ (i mod 8).
Proof.
  pose proof (Z.mod_pos_bound i 8 ltac:(lia)). rewrite Z.shiftl_1_l. apply u8_small.
  split; [apply Z.pow_nonneg; lia|]. apply (Z.pow_lt_mono_r 2 (i mod 8) 8); lia.
Qed.

Lemma land_pow2_testbit x n : 0 <= n -> negb (Z.land x (2 ^ n) =? 0) = Z.testbit x n.
Proof.
  intros Hn. destruct (Z.testbit x n) eqn:Ht.
  - apply negb_true_iff, Z.eqb_neq. intros H.
    assert (H0 : Z.testbit (Z.land x (2 ^ n)) n = false) by (by rewrite H, Z.bits_0).
    rewrite Z.land_spec, Ht, Z.pow2_bits_true in H0; [done|lia].
  - apply negb_false_iff, Z.eqb_eq, Z.bits_inj'. intros m Hm.
    rewrite Z.land_spec, Z.bits_0, Z.pow2_bits_eqb by lia.
    destruct (Z.eqb_spec n m) as [->|]; [by rewrite Ht|apply andb_false_r].
Qed.

Definition set_bit (x k : Z) (v : bool) : Z :=
  if v then Z.lor x (2 ^ k) else Z.land x (u8 (Z.lnot (2 ^ k))).

Lemma set_bit_spec x k j (v : bool) : 0 <= k < 8 -> 0 <= j < 8 -> byte_ok x ->
  byte_ok (set_bit x k v) /\
  Z.testbit (set_bit x k v) j = (if k =? j then v else Z.testbit x j).
Proof.
  intros Hk Hj Hx.
  assert (Hall : forallb (fun x => forallb (fun k => forallb (fun j => forallb (fun v : bool =>
    (0 <=? set_bit x k v) && (set_bit x k v <? 256) &&
    Bool.eqb (Z.testbit (set_bit x k v) j) (if k =? j then v else Z.testbit x j))
    [true; false]) (map Z.of_nat (seq 0 8))) (map Z.of_nat (seq 0 8))) (map Z.of_nat (seq 0 256)) = true)
    by (vm_compute; reflexivity).
  assert (Hin : forall n z, 0 <= z < Z.of_nat n -> In z (map Z.of_nat (seq 0 n))).
  { intros n z Hz. apply in_map_iff. exists (Z.to_nat z). rewrite in_seq. lia. }
  rewrite forallb_forall in Hall. specialize (Hall x (Hin 256%nat x Hx)).
  rewrite forallb_forall in Hall. specialize (Hall k (Hin 8%nat k Hk)).
  rewrite forallb_forall in Hall. specialize (Hall j (Hin 8%nat j Hj)).
  rewrite forallb_forall in Hall. specialize (Hall v).
  rewrite !andb_true_iff in Hall.
  destruct Hall as [[? ?] ?%eqb_prop]; [destruct v; cbn; tauto|]. split; [unfold byte_ok; lia|done].
Qed.

(** Bit [i] of the array, and the array with bit [i] written; [None] is an
    access past the array. *)
Definition bit_at (bm : list Z) (i : Z) : option bool :=
  x ← getZ bm (i / 8); Some (Z.testbit x (i mod 8)).
Definition bit_put (bm : list Z) (i : Z) (v : bool) : option (list Z) :=
  x ← getZ bm (i / 8); setZ bm (i / 8) (set_bit x (i mod 8) v).

Lemma bit_at_Some bm i : 0 <= i < 8 * Z.of_nat (length bm) ->
  exists x, getZ bm (i / 8) = Some x /\ bit_at bm i = Some (Z.testbit x (i mod 8)).
Proof.
  intros Hi. destruct (getZ_is_Some bm (i / 8)) as [x Hx]; [dmlia|]. exists x.
  unfold bit_at. by rewrite Hx.
Qed.

Lemma bit_at_is_Some bm i : 0 <= i < 8 * Z.of_nat (length bm) -> exists v, bit_at bm i = Some v.
Proof. intros (x & _ & Hx)%bit_at_Some. by eexists. Qed.

(** An access is undefined behaviour exactly when the bit lies past the array. *)
Lemma bit_at_None bm i : 0 <= i -> bit_at bm i = None <-> 8 * Z.of_nat (length bm) <= i.
Proof.
  intros Hi. split; intros H.
  - destruct (decide (i < 8 * Z.of_nat (length bm))); [|lia].
    destruct (bit_at_is_Some bm i) as [v Hv]; [lia|congruence].
  - unfold bit_at. replace (getZ bm (i / 8)) with (@None Z); [done|].
    symmetry. apply getZ_None. right. dmlia.
Qed.

Lemma bit_put_spec bm i (v : bool) : 0 <= i < 8 * Z.of_nat (length bm) -> bytes_ok bm ->
  exists bm', bit_put bm i v = Some bm' /\ length bm' = length bm /\ bytes_ok bm' /\
    forall j, 0 <= j -> bit_at bm' j = if i =? j then Some v else bit_at bm j.
Proof.
  intros Hi Hb. destruct (bit_at_Some bm i Hi) as (x & Hx & _).
  unfold bit_put. rewrite Hx. cbn [mbind option_bind]. pose proof (Z.mod_pos_bound i 8 ltac:(lia)) as Hm.
  assert (Hxb : byte_ok x).
  { apply getZ_Some in Hx as [_ Hx]. rewrite Forall_lookup in Hb. by eapply Hb. }
  rewrite setZ_is_Some by dmlia. eexists. split; [done|]. rewrite length_insert. split_and!; [done| |].
  { apply Forall_insert; [done|]. by apply (set_bit_spec x (i mod 8) 0 v). }
  intros j Hj. destruct (decide (j < 8 * Z.of_nat (length bm))) as [Hlt|Hge].
  2: { destruct (Z.eqb_spec i j); [lia|].
    etrans; [|symmetry]; apply bit_at_None; rewrite ?length_insert; lia. }
  destruct (bit_at_Some (<[Z.to_nat (i / 8):=set_bit x (i mod 8) v]> bm) j)
    as (y & Hy & ->); [rewrite length_insert; lia|].
  destruct (bit_at_Some bm j) as (z & Hz & ->); [lia|].
  apply getZ_Some in Hy as [? Hy]. apply getZ_Some in Hz as [_ Hz]. apply getZ_Some in Hx as [_ Hx].
  destruct (decide (i / 8 = j / 8)) as [Heq|Hne].
  - rewrite <- Heq in Hy, Hz. rewrite list_lookup_insert_eq in Hy by dmlia. simplify_eq.
    destruct (set_bit_spec x (i mod 8) (j mod 8) v) as [_ Ht]; [done|apply Z.mod_pos_bound; lia|done|].
    rewrite Ht. destruct (Z.eqb_spec (i mod 8) (j mod 8)), (Z.eqb_spec i j); try done; dmlia.
  - destruct (Z.eqb_spec i j) as [->|]; [done|].
    rewrite list_lookup_insert_ne in Hy by dmlia. by simplify_eq.
Qed.
