(* ===== verification/Exec.v ===== *)
(** * Executing C code: a state monad with failure and undefined behaviour

    A C function that returns [bool] and works through pointers becomes a
    computation [M S A] over the state [S] it can reach.  [Ret a s] is
    "returned true, with [a] in its out parameters"; [Err s] is
    "returned false", with every store the function did before returning kept
    in [s]; [Ub] is undefined behaviour (an array access out of its bounds).
    The monadic bind is the idiom [if (!f(...)) return false;]. *)
From Stdlib Require Import ZArith Lia.
From stdpp Require Import base list.
From S2P Require Import Prelude.

Inductive outcome (S A : Type) : Type :=
  | Ret (a : A) (s : S)
  | Err (s : S)
  | Ub.
Arguments Ret {S A} a s.
Arguments Err {S A} s.
Arguments Ub {S A}.

Definition M (S A : Type) : Type := S -> outcome S A.

#[global] Instance M_ret S : MRet (M S) := fun A a s => Ret a s.
#[global] Instance M_bind S : MBind (M S) := fun A B k m s =>
  match m s with
  | Ret a s' => k a s'
  | Err s' => Err s'
  | Ub => Ub
  end.

(** The call returned false. *)
Definition absent {A} (o : option A) : bool := match o with Some _ => false | None => true end.

Section combinators.
Context {S : Type}.
Implicit Types s : S.

(** [return false;] *)
Definition fail {A} : M S A := fun s => Err s.
(** undefined behaviour *)
Definition ub {A} : M S A := fun _ => Ub.
(** [if (!b) return false;] *)
Definition check (b : bool) : M S unit := if b then mret tt else fail.
(** the result of a call whose failure the caller handles itself *)
Definition try {A} (m : M S A) : M S (option A) := fun s =>
  match m s with
  | Ret a s' => Ret (Some a) s'
  | Err s' => Ret None s'
  | Ub => Ub
  end.
Definition gets {A} (f : S -> A) : M S A := fun s => Ret (f s) s.
Definition modify (f : S -> S) : M S unit := fun s => Ret tt (f s).
(** an access that is undefined behaviour when out of range *)
Definition deref {A} (o : option A) : M S A :=
  match o with Some a => mret a | None => ub end.

(** [for (i = i0; i < i0 + n; ++i) body(i);] *)
Fixpoint for_loop (n : nat) (i : Z) (body : Z -> M S unit) : M S unit :=
  match n with
  | O => mret tt
  | Datatypes.S n => body i ;; for_loop n (i + 1) body
  end.

(** The same loop with a [return] inside: the body's [Some] leaves it. *)
Fixpoint find_loop {A} (n : nat) (i : Z) (body : Z -> M S (option A)) : M S (option A) :=
  match n with
  | O => mret None
  | Datatypes.S n =>
      r ← body i;
      match r with
      | Some a => mret (Some a)
      | None => find_loop n (i + 1) body
      end
  end.

(** ** Weakest preconditions: [m] has no undefined behaviour from [s], ends
    in [Q] when it returns true and in [E] when it returns false. *)
Definition wp {A} (m : M S A) (Q : A -> S -> Prop) (E : S -> Prop) (s : S) : Prop :=
  match m s with
  | Ret a s' => Q a s'
  | Err s' => E s'
  | Ub => False
  end.

Lemma wp_ret {A} (a : A) Q E s : Q a s -> wp (mret a) Q E s.
Proof. done. Qed.
Lemma wp_fail {A} (Q : A -> S -> Prop) E s : E s -> wp fail Q E s.
Proof. done. Qed.
Lemma wp_bind {A B} (m : M S A) (k : A -> M S B) Q E s :
  wp m (fun a => wp (k a) Q E) E s -> wp (m ≫= k) Q E s.
Proof. unfold wp, mbind, M_bind. by destruct (m s). Qed.
Lemma wp_bind_inv {A B} (m : M S A) (k : A -> M S B) Q E s :
  wp (m ≫= k) Q E s -> wp m (fun a => wp (k a) Q E) E s.
Proof. unfold wp, mbind, M_bind. by destruct (m s). Qed.
Lemma wp_and {A} (m : M S A) (Q Q' : A -> S -> Prop) (E E' : S -> Prop) s :
  wp m Q E s -> wp m Q' E' s -> wp m (fun a s' => Q a s' /\ Q' a s') (fun s' => E s' /\ E' s') s.
Proof. unfold wp. by destruct (m s). Qed.

Lemma wp_mono {A} (m : M S A) (Q Q' : A -> S -> Prop) (E E' : S -> Prop) s :
  wp m Q E s -> (forall a s', Q a s' -> Q' a s') -> (forall s', E s' -> E' s') ->
  wp m Q' E' s.
Proof. unfold wp. destruct (m s); eauto. Qed.
Lemma wp_check (b : bool) Q (E : S -> Prop) s :
  (b = true -> Q tt s) -> (b = false -> E s) -> wp (check b) Q E s.
Proof. intros. destruct b; [apply wp_ret|apply wp_fail]; auto. Qed.
Lemma wp_gets {A} (f : S -> A) Q E s : Q (f s) s -> wp (gets f) Q E s.
Proof. done. Qed.
Lemma wp_modify (f : S -> S) Q E s : Q tt (f s) -> wp (modify f) Q E s.
Proof. done. Qed.
Lemma wp_deref {A} (o : option A) a Q E s : o = Some a -> Q a s -> wp (deref o) Q E s.
Proof. by intros ->. Qed.
Lemma wp_try {A} (m : M S A) Q E s :
  wp m (fun a => Q (Some a)) (Q None) s -> wp (try m) Q E s.
Proof. unfold wp, try. by destruct (m s). Qed.

(** From a specification to the branch a concrete run took. *)
Lemma wp_Ret {A} (m : M S A) Q E s a s' : wp m Q E s -> m s = Ret a s' -> Q a s'.
Proof. unfold wp. by intros H Hm; rewrite Hm in H. Qed.
Lemma wp_Err {A} (m : M S A) Q E s s' : wp m Q E s -> m s = Err s' -> E s'.
Proof. unfold wp. by intros H Hm; rewrite Hm in H. Qed.
Lemma wp_no_ub {A} (m : M S A) Q E s : wp m Q E s -> m s <> Ub.
Proof. unfold wp. by intros H Hu; rewrite Hu in H. Qed.

(** In the failing branch, the failing call itself. *)
Lemma wp_Err_eq {A} (m : M S A) Q (E : S -> Prop) s :
  wp m Q E s -> wp m Q (fun s' => E s' /\ m s = Err s') s.
Proof. unfold wp. by destruct (m s). Qed.

(** Loop rules: the invariant is indexed by the loop variable. *)
Lemma wp_for_loop (I : Z -> S -> Prop) n i0 body Q (E : S -> Prop) s :
  I i0 s ->
  (forall i s, i0 <= i < i0 + Z.of_nat n -> I i s ->
     wp (body i) (fun _ => I (i + 1)) E s) ->
  (forall s, I (i0 + Z.of_nat n) s -> Q tt s) ->
  wp (for_loop n i0 body) Q E s.
Proof.
  revert i0 s. induction n as [|n IH]; intros i0 s Hi Hb HQ.
  - apply wp_ret, HQ. by rewrite Z.add_0_r.
  - cbn [for_loop]. apply wp_bind.
    eapply wp_mono; [apply Hb; [lia|done]| |done].
    intros [] s' Hi'. apply IH; [done| |].
    + intros i s'' ? ?. apply Hb; [lia|done].
    + intros s'' Hs. apply HQ. by replace (i0 + Z.of_nat (Datatypes.S n)) with (i0 + 1 + Z.of_nat n) by lia.
Qed.

Lemma wp_find_loop {A} (I : Z -> S -> Prop) n i0 (body : Z -> M S (option A)) Q (E : S -> Prop) s :
  I i0 s ->
  (forall i s, i0 <= i < i0 + Z.of_nat n -> I i s ->
     wp (body i) (fun r s => match r with Some a => Q (Some a) s | None => I (i + 1) s end) E s) ->
  (forall s, I (i0 + Z.of_nat n) s -> Q None s) ->
  wp (find_loop n i0 body) Q E s.
Proof.
  revert i0 s. induction n as [|n IH]; intros i0 s Hi Hb HQ.
  - apply wp_ret, HQ. by rewrite Z.add_0_r.
  - cbn [find_loop]. apply wp_bind.
    eapply wp_mono; [apply Hb; [lia|done]| |done].
    intros [a|] s' Hi'; [by apply wp_ret|]. apply IH; [done| |].
    + intros i s'' ? ?. apply Hb; [lia|done].
    + intros s'' Hs. apply HQ. by replace (i0 + Z.of_nat (Datatypes.S n)) with (i0 + 1 + Z.of_nat n) by lia.
Qed.

(** A loop is the sequence of its iterations. *)
Lemma for_loop_app n m i body s :
  for_loop (n + m) i body s = (for_loop n i body ;; for_loop m (i + Z.of_nat n) body) s.
Proof.
  revert i s. induction n as [|n IH]; intros i s.
  - cbn [for_loop Nat.add]. unfold mbind, M_bind, mret, M_ret. by rewrite Z.add_0_r.
  - cbn [for_loop Nat.add]. unfold mbind, M_bind. destruct (body i s); [|done..].
    rewrite IH. unfold mbind, M_bind.
    by replace (i + 1 + Z.of_nat n) with (i + Z.of_nat (Datatypes.S n)) by lia.
Qed.
End combinators.

(** One step of a weakest-precondition proof, for the structural cases. *)
Ltac wp_step :=
  lazymatch goal with
  | |- wp (_ ≫= _) _ _ _ => apply wp_bind
  | |- wp (mret _) _ _ _ => apply wp_ret
  | |- wp fail _ _ _ => apply wp_fail
  | |- wp (gets _) _ _ _ => apply wp_gets
  | |- wp (modify _) _ _ _ => apply wp_modify
  | |- wp (try _) _ _ _ => apply wp_try
  | |- wp (check _) _ _ _ => apply wp_check; intros ?
  | |- wp (if ?b then _ else _) _ _ _ => let E := fresh "Hif" in destruct b eqn:E
  end.
Ltac wp_steps := repeat (wp_step; cbv beta).

(** Running a computation on a part of the state: the caller passes a pointer
    to the part. *)
Definition zoom {S T A} (get : T -> S) (set : S -> T -> T) (m : M S A) : M T A := fun t =>
  match m (get t) with
  | Ret a s => Ret a (set s t)
  | Err s => Err (set s t)
  | Ub => Ub
  end.

Lemma wp_zoom {S T A} (get : T -> S) (set : S -> T -> T) (m : M S A) Q E t :
  wp m (fun a s => Q a (set s t)) (fun s => E (set s t)) (get t) ->
  wp (zoom get set m) Q E t.
Proof. unfold wp, zoom. by destruct (m (get t)). Qed.
