(* ===== verification/KString.v ===== *)
(** * Freestanding string and memory helpers ([k64_string.c])

    A [const char*] is the memory from the pointer on, a list of bytes ([None]
    for NULL); a result of [None] is a read past the end of that memory.  A C
    string [s] (bytes without NUL) lies in memory as [cstr s].  [memcpy],
    [memset] and [memmove] work on one memory in which source and destination
    may overlap. *)
From Stdlib Require Import ZArith Lia.
From stdpp Require Import base list.
From S2P Require Import Prelude.

(** ** Definitions *)

Fixpoint strlen_from (m : list Z) (n : Z) : option Z :=
  match m with
  | [] => None
  | c :: t => if c =? 0 then Some n else strlen_from t (n + 1)
  end.

Definition k64_strlen (s : option (list Z)) : option Z :=
  match s with
  | None => Some 0
  | Some m => strlen_from m 0
  end.

(** The code after the loop of [k64_strncmp]; [n] is the loop counter after
    its last decrement, a [size_t] that is converted to [int]. *)
Definition strncmp_end (a b : list Z) (n : Z) : option Z :=
  if 0 <=? int32 n then
    match a, b with
    | x :: _, y :: _ => Some (if negb (x =? 0) || negb (y =? 0) then x - y else 0)
    | _, _ => None
    end
  else Some 0.

Fixpoint k64_strncmp (a b : list Z) (n : Z) : option Z :=
  if n =? 0 then strncmp_end a b (u64 (n - 1)) else
  match a with
  | [] => None
  | x :: a' =>
      if x =? 0 then strncmp_end a b (n - 1) else
      match b with
      | [] => None
      | y :: b' =>
          if y =? 0 then strncmp_end a b (n - 1)
          else if x =? y then k64_strncmp a' b' (n - 1)
          else Some (x - y)
      end
  end.

Definition or_empty (s : option (list Z)) : list Z := default [0] s.

Definition k64_strcmp (a b : option (list Z)) : option Z :=
  max_len ← k64_strlen a;
  b_len ← k64_strlen b;
  let max_len := if max_len <? b_len then b_len else max_len in
  k64_strncmp (or_empty a) (or_empty b) (u64 (max_len + 1)).

Definition k64_streq (a b : option (list Z)) : option bool :=
  r ← k64_strcmp a b; Some (r =? 0).

(** [d[i] = s[i]] for [i], [i+1], ... in increasing order. *)
Fixpoint copy_up (m : list Z) (d s : Z) (n : nat) : option (list Z) :=
  match n with
  | O => Some m
  | S n =>
      x ← getZ m s;
      m' ← setZ m d x;
      copy_up m' (d + 1) (s + 1) n
  end.

(** [d[i - 1] = s[i - 1]] for [i = n], [n - 1], ..., [1]. *)
Fixpoint copy_down (m : list Z) (d s : Z) (n : nat) : option (list Z) :=
  match n with
  | O => Some m
  | S n =>
      x ← getZ m (s + Z.of_nat n);
      m' ← setZ m (d + Z.of_nat n) x;
      copy_down m' d s n
  end.

Definition memcpy (m : list Z) (dst src : Z) (n : Z) : option (list Z) :=
  copy_up m dst src (Z.to_nat n).

Fixpoint fill_up (m : list Z) (d : Z) (v : Z) (n : nat) : option (list Z) :=
  match n with
  | O => Some m
  | S n => m' ← setZ m d v; fill_up m' (d + 1) v n
  end.

Definition memset (m : list Z) (dst value n : Z) : option (list Z) :=
  fill_up m dst (u8 value) (Z.to_nat n).

Definition memmove (m : list Z) (dst src : Z) (n : Z) : option (list Z) :=
  if (dst =? src) || (n =? 0) then Some m
  else if dst <? src then copy_up m dst src (Z.to_nat n)
  else copy_down m dst src (Z.to_nat n).

(** A C string in memory, and bytes that contain no terminator. *)
Definition cstr (s : list Z) : list Z := s ++ [0].
Definition no_nul (s : list Z) : Prop := Forall (fun c => 1 <= c < 256) s.

#[global] Instance no_nul_dec s : Decision (no_nul s).
Proof. unfold no_nul. apply _. Defined.

(** The order [k64_strcmp] decides: byte-wise, a proper prefix first. *)
Fixpoint lex_compare (s t : list Z) : comparison :=
  match s, t with
  | [], [] => Eq
  | [], _ => Lt
  | _, [] => Gt
  | x :: s, y :: t => match x ?= y with Eq => lex_compare s t | c => c end
  end.

(** The bounded string copy every file of the kernel has as a static helper
    ([copy_string], [xfs_copy], ...): [while (src[i] && i + 1 < dst_size)
    dst[i++] = ...; dst[i] = 0;] on the string values; NULL copies as the empty
    string. *)
Fixpoint copy_chars (room : nat) (src : list Z) : list Z :=
  match src, room with
  | c :: src, S room => c :: copy_chars room src
  | _, _ => []
  end.
Definition bounded_copy (dst_size : Z) (src : option (list Z)) : list Z :=
  match src with
  | None => []
  | Some s => copy_chars (Z.to_nat (dst_size - 1)) s
  end.

(** [k64_streq] on two non-NULL C strings. *)
Definition streq (s t : list Z) : bool :=
  default false (k64_streq (Some (cstr s)) (Some (cstr t))).

(** ** Theorems *)

Lemma copy_chars_take n s : copy_chars n s = take n s.
Proof. revert n. induction s as [|c s IH]; intros [|n]; simpl; [done..|]. by rewrite IH. Qed.

Lemma bounded_copy_Some n s : bounded_copy n (Some s) = take (Z.to_nat (n - 1)) s.
Proof. apply copy_chars_take. Qed.

Lemma no_nul_bytes s : no_nul s -> bytes_ok s.
Proof. intros H. eapply Forall_impl; [exact H|]. unfold byte_ok. simpl. lia. Qed.

Lemma int32_small n : 0 <= n < 2147483648 -> int32 n = n.
Proof. intros. unfold int32. rewrite Z.mod_small by lia. case_match; lia. Qed.

Lemma int32_max : int32 (u64 (0 - 1)) = -1.
Proof. reflexivity. Qed.

Lemma strlen_from_cstr s rest n :
  no_nul s -> strlen_from (s ++ 0 :: rest) n = Some (n + Z.of_nat (length s)).
Proof.
  revert n. induction s as [|c s IH]; intros n Hs; simpl.
  - f_equal. lia.
  - apply Forall_cons in Hs as [Hc Hs]. destruct (Z.eqb_spec c 0); [lia|].
    rewrite IH by done. f_equal. lia.
Qed.

Lemma k64_strlen_cstr s rest :
  no_nul s -> k64_strlen (Some (s ++ 0 :: rest)) = Some (Z.of_nat (length s)).
Proof. intros. simpl. by rewrite strlen_from_cstr. Qed.

(** [k64_strncmp] on two C strings, for every bound below [2^31]: zero exactly
    when the strings agree on their first [n] bytes. *)
Lemma strncmp_zero_iff s t ra rb n :
  no_nul s -> no_nul t -> 0 <= n <= 2147483648 ->
  exists r, k64_strncmp (s ++ 0 :: ra) (t ++ 0 :: rb) n = Some r /\
    (r = 0 <-> take (Z.to_nat n) s = take (Z.to_nat n) t).
Proof.
  intros Hs. revert t n. induction Hs as [|x s Hx Hs IH]; intros t n Ht Hn.
  - simpl. destruct (Z.eqb_spec n 0) as [->|].
    { exists 0. split; [done|]. by rewrite !take_0. }
    unfold strncmp_end. rewrite int32_small by lia.
    destruct (Z.leb_spec 0 (n - 1)); [|lia].
    destruct t as [|y t]; simpl.
    + exists 0. split; [done|]. by rewrite take_nil.
    + apply Forall_cons in Ht as [Hy _]. destruct (Z.eqb_spec y 0); [lia|].
      eexists. split; [done|]. rewrite take_nil.
      destruct (Z.to_nat n) eqn:E; [lia|]. simpl. split; [lia|done].
  - simpl. destruct (Z.eqb_spec n 0) as [->|].
    { exists 0. split; [done|]. by rewrite !take_0. }
    destruct (Z.eqb_spec x 0); [lia|].
    destruct t as [|y t]; simpl.
    + unfold strncmp_end. rewrite int32_small by lia.
      destruct (Z.leb_spec 0 (n - 1)); [|lia].
      destruct (Z.eqb_spec x 0); [lia|]. simpl.
      eexists. split; [done|]. rewrite take_nil.
      destruct (Z.to_nat n) eqn:E; [lia|]. simpl. split; [lia|done].
    + apply Forall_cons in Ht as [Hy Ht]. destruct (Z.eqb_spec y 0); [lia|].
      destruct (Z.to_nat n) as [|k] eqn:E; [lia|].
      assert (Z.to_nat (n - 1) = k) as Hk by lia.
      destruct (Z.eqb_spec x y) as [->|].
      * destruct (IH t (n - 1) Ht ltac:(lia)) as (r & Hr & Hz).
        exists r. split; [done|]. rewrite Hz, Hk. simpl. split; congruence.
      * eexists. split; [done|]. simpl. split; [lia|congruence].
Qed.

(** The sign of [k64_strncmp] over the whole strings is the lexicographic order. *)
Lemma strncmp_lex s t ra rb n :
  no_nul s -> no_nul t ->
  Z.of_nat (length s) < n -> Z.of_nat (length t) < n -> n <= 2147483648 ->
  exists r, k64_strncmp (s ++ 0 :: ra) (t ++ 0 :: rb) n = Some r /\
    (r ?= 0) = lex_compare s t.
Proof.
  intros Hs. revert t n. induction Hs as [|x s Hx Hs IH]; intros t n Ht Hls Hlt Hn.
  - simpl in *. destruct (Z.eqb_spec n 0); [lia|].
    unfold strncmp_end. rewrite int32_small by lia.
    destruct (Z.leb_spec 0 (n - 1)); [|lia].
    destruct t as [|y t]; simpl; [by exists 0|].
    apply Forall_cons in Ht as [Hy _]. destruct (Z.eqb_spec y 0); [lia|].
    eexists. split; [done|]. destruct y; [lia|done|lia].
  - simpl in *. destruct (Z.eqb_spec n 0); [lia|]. destruct (Z.eqb_spec x 0); [lia|].
    destruct t as [|y t]; simpl in *.
    + unfold strncmp_end. rewrite int32_small by lia.
      destruct (Z.leb_spec 0 (n - 1)); [|lia]. destruct (Z.eqb_spec x 0); [lia|]. simpl.
      eexists. split; [done|]. apply Z.compare_gt_iff. lia.
    + apply Forall_cons in Ht as [Hy Ht]. destruct (Z.eqb_spec y 0); [lia|].
      destruct (Z.eqb_spec x y) as [->|].
      * rewrite Z.compare_refl. apply IH; [done|lia..].
      * eexists. split; [done|]. rewrite (Z.compare_sub x y).
        destruct (Z.compare_spec (x - y) 0); [lia|done..].
Qed.

Lemma lex_compare_eq s t : lex_compare s t = Eq <-> s = t.
Proof.
  revert t. induction s as [|x s IH]; intros [|y t]; simpl; try done.
  destruct (x ?= y) eqn:E.
  - apply Z.compare_eq_iff in E as ->. rewrite IH. split; congruence.
  - split; [done|]. intros [= -> ->]. by rewrite Z.compare_refl in E.
  - split; [done|]. intros [= -> ->]. by rewrite Z.compare_refl in E.
Qed.

Lemma k64_strcmp_lex s t ra rb :
  no_nul s -> no_nul t ->
  Z.of_nat (length s) < 2147483648 -> Z.of_nat (length t) < 2147483648 ->
  exists r, k64_strcmp (Some (s ++ 0 :: ra)) (Some (t ++ 0 :: rb)) = Some r /\
    (r ?= 0) = lex_compare s t.
Proof.
  intros. unfold k64_strcmp. rewrite !k64_strlen_cstr by done. simpl.
  rewrite u64_small by (case_match; lia).
  apply strncmp_lex; try done; case_match; lia.
Qed.

Lemma k64_streq_cstr s t ra rb :
  no_nul s -> no_nul t ->
  Z.of_nat (length s) < 2147483648 -> Z.of_nat (length t) < 2147483648 ->
  k64_streq (Some (s ++ 0 :: ra)) (Some (t ++ 0 :: rb)) = Some (bool_decide (s = t)).
Proof.
  intros. unfold k64_streq.
  destruct (k64_strcmp_lex s t ra rb) as (r & -> & Hr); [done..|]. simpl. f_equal.
  destruct (Z.eqb_spec r 0) as [->|].
  - rewrite bool_decide_eq_true_2; [done|]. by apply lex_compare_eq.
  - rewrite bool_decide_eq_false_2; [done|]. intros ->.
    rewrite (proj2 (lex_compare_eq t t) eq_refl) in Hr. by apply Z.compare_eq_iff in Hr.
Qed.

Lemma streq_eq s t : no_nul s -> no_nul t ->
  Z.of_nat (length s) < 2147483648 -> Z.of_nat (length t) < 2147483648 ->
  streq s t = bool_decide (s = t).
Proof. intros. unfold streq, cstr. by rewrite k64_streq_cstr. Qed.

(** *** Copies within one memory *)

(** [copied m m' d s n]: [m'] is [m] with the [n] bytes from [s], as they were
    in [m], at [d]. *)
Definition copied (m m' : list Z) (d s : Z) (n : nat) : Prop :=
  length m' = length m /\
  forall k, getZ m' k = if decide (d <= k < d + Z.of_nat n) then getZ m (s + (k - d)) else getZ m k.

Lemma copy_up_spec n m d s :
  0 <= d -> 0 <= s -> d + Z.of_nat n <= Z.of_nat (length m) ->
  s + Z.of_nat n <= Z.of_nat (length m) ->
  d <= s \/ s + Z.of_nat n <= d ->
  exists m', copy_up m d s n = Some m' /\ copied m m' d s n.
Proof.
  revert m d s. induction n as [|n IH]; intros m d s Hd Hs Hdl Hsl Hov.
  - exists m. split; [done|]. split; [done|]. intros k. by rewrite decide_False by lia.
  - cbn [copy_up]. destruct (getZ_is_Some m s) as [x Hx]; [lia|]. rewrite Hx. simpl.
    destruct (setZ m d x) as [m1|] eqn:Hm1.
    2: { rewrite setZ_is_Some in Hm1 by lia. done. }
    simpl. pose proof (setZ_length _ _ _ _ Hm1) as Hlen.
    destruct (IH m1 (d + 1) (s + 1)) as (m' & -> & Hl & Hk); [lia..|].
    exists m'. split; [done|]. split; [congruence|]. intros k. rewrite Hk.
    destruct (decide (k = d)) as [->|Hne].
    + rewrite decide_False by lia. rewrite decide_True by lia.
      rewrite (getZ_setZ_eq _ _ _ _ Hm1), <- Hx. f_equal. lia.
    + case_decide; case_decide; try lia.
      * rewrite (getZ_setZ_ne _ _ _ _ _ Hm1) by lia. f_equal. lia.
      * by rewrite (getZ_setZ_ne _ _ _ _ _ Hm1) by lia.
Qed.

Lemma copy_down_spec n m d s :
  0 <= s -> s <= d -> d + Z.of_nat n <= Z.of_nat (length m) ->
  exists m', copy_down m d s n = Some m' /\ copied m m' d s n.
Proof.
  revert m. induction n as [|n IH]; intros m Hs Hd Hdl.
  - exists m. split; [done|]. split; [done|]. intros k. by rewrite decide_False by lia.
  - cbn [copy_down]. destruct (getZ_is_Some m (s + Z.of_nat n)) as [x Hx]; [lia|].
    rewrite Hx. simpl.
    destruct (setZ m (d + Z.of_nat n) x) as [m1|] eqn:Hm1.
    2: { rewrite setZ_is_Some in Hm1 by lia. done. }
    simpl. pose proof (setZ_length _ _ _ _ Hm1) as Hlen.
    destruct (IH m1) as (m' & -> & Hl & Hk); [lia..|].
    exists m'. split; [done|]. split; [congruence|]. intros k. rewrite Hk.
    destruct (decide (k = d + Z.of_nat n)) as [->|Hne].
    + rewrite decide_False by lia. rewrite decide_True by lia.
      rewrite (getZ_setZ_eq _ _ _ _ Hm1), <- Hx. f_equal. lia.
    + case_decide; case_decide; try lia.
      * rewrite (getZ_setZ_ne _ _ _ _ _ Hm1) by lia. done.
      * by rewrite (getZ_setZ_ne _ _ _ _ _ Hm1) by lia.
Qed.

Lemma copied_splice m m' d s n :
  0 <= d -> 0 <= s -> d + Z.of_nat n <= Z.of_nat (length m) ->
  s + Z.of_nat n <= Z.of_nat (length m) ->
  copied m m' d s n -> m' = splice m (Z.to_nat d) (slice m (Z.to_nat s) n).
Proof.
  intros Hd Hs Hdl Hsl [Hlen Hk]. apply list_eq. intros k.
  assert (length (slice m (Z.to_nat s) n) = n) as Hsn by (apply slice_length; lia).
  specialize (Hk (Z.of_nat k)). unfold getZ in Hk. rewrite decide_True, Nat2Z.id in Hk by lia.
  rewrite Hk. case_decide as Hin.
  - rewrite splice_lookup_in' by lia. rewrite slice_lookup by lia.
    rewrite decide_True by lia. f_equal. lia.
  - rewrite splice_lookup_out by lia. by rewrite decide_True by lia.
Qed.

(** [memmove] is the copy of the bytes as they were before the call, whether
    the ranges overlap or not. *)
Theorem memmove_spec m d s n :
  0 <= d -> 0 <= s -> 0 <= n ->
  d + n <= Z.of_nat (length m) -> s + n <= Z.of_nat (length m) ->
  memmove m d s n = Some (splice m (Z.to_nat d) (slice m (Z.to_nat s) (Z.to_nat n))).
Proof.
  intros Hd Hs Hn Hdl Hsl. unfold memmove.
  destruct (Z.eqb_spec d s) as [->|]; [|destruct (Z.eqb_spec n 0) as [->|]]; simpl.
  - f_equal. apply copied_splice with (n := Z.to_nat n); [lia..|]. split; [done|].
    intros k. case_decide; f_equal; lia.
  - f_equal. apply copied_splice; [lia..|]. split; [done|].
    intros k. by rewrite decide_False by lia.
  - destruct (Z.ltb_spec d s).
    + destruct (copy_up_spec (Z.to_nat n) m d s) as (m' & -> & ?); [lia..|].
      f_equal. apply copied_splice; [lia..|done].
    + destruct (copy_down_spec (Z.to_nat n) m d s) as (m' & -> & ?); [lia..|].
      f_equal. apply copied_splice; [lia..|done].
Qed.

(** [memcpy] copies upwards, so it is that copy too unless the destination
    starts inside the source range. *)
Lemma memcpy_spec m d s n :
  0 <= d -> 0 <= s -> 0 <= n ->
  d + n <= Z.of_nat (length m) -> s + n <= Z.of_nat (length m) ->
  d <= s \/ s + n <= d ->
  memcpy m d s n = Some (splice m (Z.to_nat d) (slice m (Z.to_nat s) (Z.to_nat n))).
Proof.
  intros. unfold memcpy.
  destruct (copy_up_spec (Z.to_nat n) m d s) as (m' & -> & ?); [lia..|].
  f_equal. apply copied_splice; [lia..|done].
Qed.

Lemma fill_up_spec k m d b :
  0 <= d -> d + Z.of_nat k <= Z.of_nat (length m) ->
  fill_up m d b k = Some (splice m (Z.to_nat d) (replicate k b)).
Proof.
  revert m d. induction k as [|k IH]; intros m d Hd Hl.
  - simpl. f_equal. unfold splice. simpl. by rewrite Nat.add_0_r, take_drop.
  - cbn [fill_up]. rewrite setZ_is_Some by lia. cbn [mbind option_bind].
    rewrite IH by (rewrite ?length_insert; lia). f_equal. apply list_eq. intros i.
    assert (length (replicate (S k) b) = S k) as Hr by apply length_replicate.
    assert (length (replicate k b) = k) as Hr' by apply length_replicate.
    destruct (decide (i = Z.to_nat d)) as [->|Hne];
      [|destruct (decide (Z.to_nat d < i < Z.to_nat d + S k)%nat)].
    + rewrite splice_lookup_out, list_lookup_insert_eq by (rewrite ?length_insert; lia).
      rewrite splice_lookup_in' by lia. by rewrite Nat.sub_diag.
    + rewrite !splice_lookup_in' by (rewrite ?length_insert; lia).
      by rewrite !lookup_replicate_2 by lia.
    + rewrite !splice_lookup_out by (rewrite ?length_insert; lia).
      by rewrite list_lookup_insert_ne by lia.
Qed.

Lemma memset_spec m d v n :
  0 <= d -> 0 <= n -> d + n <= Z.of_nat (length m) ->
  memset m d v n = Some (splice m (Z.to_nat d) (replicate (Z.to_nat n) (u8 v))).
Proof. intros. apply fill_up_spec; lia. Qed.

(** The comparison functions of [k64_string.c] are the lexicographic order on
    the bytes of the two strings, and equality. *)
Theorem strcmp_streq s t ra rb : no_nul s -> no_nul t ->
  Z.of_nat (length s) < 2147483648 -> Z.of_nat (length t) < 2147483648 ->
  (exists r, k64_strcmp (Some (s ++ 0 :: ra)) (Some (t ++ 0 :: rb)) = Some r /\ (r ?= 0) = lex_compare s t) /\
  k64_streq (Some (s ++ 0 :: ra)) (Some (t ++ 0 :: rb)) = Some (bool_decide (s = t)).
Proof. intros. split; [by apply k64_strcmp_lex|by apply k64_streq_cstr]. Qed.

Lemma memmove_spec_witness : memmove [1; 2; 3; 4; 5] 1 0 3 = Some [1; 1; 2; 3; 5].
Proof. refine (memmove_spec [1; 2; 3; 4; 5] 1 0 3 _ _ _ _ _); cbn; lia. Defined.

Lemma ab_no_nul : no_nul (str "ab") /\ no_nul (str "b").
Proof. split; apply (bool_decide_eq_true_1 _); vm_compute; reflexivity. Qed.

Lemma strcmp_streq_witness :
  (exists r, k64_strcmp (Some (str "ab" ++ [0])) (Some (str "b" ++ [0])) = Some r /\
     (r ?= 0) = lex_compare (str "ab") (str "b")) /\
  k64_streq (Some (str "ab" ++ [0])) (Some (str "b" ++ [0])) = Some (bool_decide (str "ab" = str "b")).
Proof. refine (strcmp_streq (str "ab") (str "b") [] [] (proj1 ab_no_nul) (proj2 ab_no_nul) _ _); done. Defined.
