(* ===== verification/XfsFormat.v ===== *)
(** * The K64XFS on-disk format ([k64_xfs_format.h], [k64_xfs_format.c])

    The packed on-disk structs are records whose fields are integers at the
    width of the C field ([*_ok] states the widths); [enc_*] is the byte image
    a [memcpy] of the struct produces, [dec_*] the struct a [memcpy] from bytes
    yields.  The checksums are CRC-32 over those byte images. *)
From Stdlib Require Import ZArith Lia.
From stdpp Require Import base list.
From S2P Require Import Prelude.

Definition K64_XFS_MAGIC : list Z := [75; 54; 52; 88; 70; 83; 49].  (* "K64XFS1" *)
Definition K64_XFS_MAGIC_SIZE : Z := 7.
Definition K64_XFS_VERSION_MAJOR : Z := 1.
Definition K64_XFS_VERSION_MINOR : Z := 0.
Definition K64_XFS_BLOCK_SIZE : Z := 4096.
Definition K64_XFS_LABEL_MAX : Z := 32.
Definition K64_XFS_UUID_SIZE : Z := 16.
Definition K64_XFS_MAX_INODES : Z := 512.
Definition K64_XFS_DIRECT_EXTENTS : Z := 8.
Definition K64_XFS_NAME_MAX : Z := 128.
Definition K64_XFS_JOURNAL_BLOCKS : Z := 32.

Definition K64_XFS_MOUNT_CLEAN : Z := 1.
Definition K64_XFS_MOUNT_DIRTY : Z := 2.
Definition K64_XFS_MOUNT_NEEDS_RECOVERY : Z := 3.

Definition K64_XFS_INODE_MAGIC : Z := 0x58494E4F.
Definition K64_XFS_TYPE_REGULAR : Z := 1.
Definition K64_XFS_TYPE_DIRECTORY : Z := 2.
Definition K64_XFS_TYPE_PIPE : Z := 5.

Definition K64_XFS_JOURNAL_MAGIC : Z := 0x584A4E4C.
Definition K64_XFS_JOURNAL_COMMIT : Z := 1.
Definition K64_XFS_JOURNAL_METADATA_BLOCK : Z := 2.

(** [K64_XFS_BLOCK_SIZE] as the length of a buffer. *)
Definition BLOCK : nat := Z.to_nat K64_XFS_BLOCK_SIZE.

Record k64_xfs_extent_disk_t := mk_extent {
  e_logical_block : Z;
  e_physical_block : Z;
  e_block_count : Z;
  e_flags : Z;
  e_reserved : Z
}.

Record k64_xfs_inode_disk_t := mk_inode {
  i_magic : Z;
  i_inode_id : Z;
  i_type : Z;
  i_mode : Z;
  i_uid : Z;
  i_gid : Z;
  i_size : Z;
  i_link_count : Z;
  i_flags : Z;
  i_created_tick : Z;
  i_modified_tick : Z;
  i_accessed_tick : Z;
  i_generation : Z;
  i_extent_count : Z;
  i_reserved0 : Z;
  i_direct_extents : list k64_xfs_extent_disk_t;
  i_indirect_extent_block : Z;
  i_checksum : Z;
  i_reserved1 : list Z
}.

Record k64_xfs_dirent_disk_t := mk_dirent {
  d_inode_id : Z;
  d_type : Z;
  d_name_len : Z;
  d_name : list Z;
  d_checksum : Z;
  d_reserved : list Z
}.

Record k64_xfs_superblock_disk_t := mk_super {
  s_magic : list Z;
  s_version_major : Z;
  s_version_minor : Z;
  s_block_size : Z;
  s_total_blocks : Z;
  s_free_blocks : Z;
  s_inode_table_start : Z;
  s_inode_table_blocks : Z;
  s_block_bitmap_start : Z;
  s_block_bitmap_blocks : Z;
  s_inode_bitmap_start : Z;
  s_inode_bitmap_blocks : Z;
  s_journal_start : Z;
  s_journal_blocks : Z;
  s_data_start : Z;
  s_root_inode : Z;
  s_mount_state : Z;
  s_feature_flags_compat : Z;
  s_feature_flags_ro_compat : Z;
  s_feature_flags_incompat : Z;
  s_uuid : list Z;
  s_label : list Z;
  s_generation : Z;
  s_checksum : Z;
  s_reserved : list Z
}.

Record k64_xfs_journal_entry_disk_t := mk_jentry {
  j_magic : Z;
  j_tx_id : Z;
  j_type : Z;
  j_target_block : Z;
  j_payload_size : Z;
  j_payload_checksum : Z;
  j_header_checksum : Z
}.

(** ** Byte images *)

Definition enc_extent (e : k64_xfs_extent_disk_t) : list Z :=
  le_bytes 8 (e_logical_block e) ++ le_bytes 8 (e_physical_block e) ++
  le_bytes 8 (e_block_count e) ++ le_bytes 4 (e_flags e) ++ le_bytes 4 (e_reserved e).

Definition dec_extent (bs : list Z) : k64_xfs_extent_disk_t * list Z :=
  let '(l, bs) := get_le 8 bs in
  let '(p, bs) := get_le 8 bs in
  let '(c, bs) := get_le 8 bs in
  let '(f, bs) := get_le 4 bs in
  let '(r, bs) := get_le 4 bs in
  (mk_extent l p c f r, bs).

Definition enc_extents (es : list k64_xfs_extent_disk_t) : list Z := concat (enc_extent <$> es).

Fixpoint dec_extents (n : nat) (bs : list Z) : list k64_xfs_extent_disk_t * list Z :=
  match n with
  | O => ([], bs)
  | S n =>
      let '(e, bs) := dec_extent bs in
      let '(es, bs) := dec_extents n bs in
      (e :: es, bs)
  end.

Definition enc_inode (i : k64_xfs_inode_disk_t) : list Z :=
  le_bytes 4 (i_magic i) ++ le_bytes 4 (i_inode_id i) ++ le_bytes 2 (i_type i) ++
  le_bytes 2 (i_mode i) ++ le_bytes 4 (i_uid i) ++ le_bytes 4 (i_gid i) ++
  le_bytes 8 (i_size i) ++ le_bytes 4 (i_link_count i) ++ le_bytes 4 (i_flags i) ++
  le_bytes 8 (i_created_tick i) ++ le_bytes 8 (i_modified_tick i) ++
  le_bytes 8 (i_accessed_tick i) ++ le_bytes 8 (i_generation i) ++
  le_bytes 4 (i_extent_count i) ++ le_bytes 4 (i_reserved0 i) ++
  enc_extents (i_direct_extents i) ++ le_bytes 8 (i_indirect_extent_block i) ++
  le_bytes 4 (i_checksum i) ++ i_reserved1 i.

Definition dec_inode (bs : list Z) : k64_xfs_inode_disk_t :=
  let '(magic, bs) := get_le 4 bs in
  let '(inode_id, bs) := get_le 4 bs in
  let '(type, bs) := get_le 2 bs in
  let '(mode, bs) := get_le 2 bs in
  let '(uid, bs) := get_le 4 bs in
  let '(gid, bs) := get_le 4 bs in
  let '(size, bs) := get_le 8 bs in
  let '(link_count, bs) := get_le 4 bs in
  let '(flags, bs) := get_le 4 bs in
  let '(created_tick, bs) := get_le 8 bs in
  let '(modified_tick, bs) := get_le 8 bs in
  let '(accessed_tick, bs) := get_le 8 bs in
  let '(generation, bs) := get_le 8 bs in
  let '(extent_count, bs) := get_le 4 bs in
  let '(reserved0, bs) := get_le 4 bs in
  let '(direct_extents, bs) := dec_extents (Z.to_nat K64_XFS_DIRECT_EXTENTS) bs in
  let '(indirect_extent_block, bs) := get_le 8 bs in
  let '(checksum, bs) := get_le 4 bs in
  let '(reserved1, _) := get_raw 28 bs in
  mk_inode magic inode_id type mode uid gid size link_count flags created_tick
    modified_tick accessed_tick generation extent_count reserved0 direct_extents
    indirect_extent_block checksum reserved1.

Definition enc_dirent (d : k64_xfs_dirent_disk_t) : list Z :=
  le_bytes 4 (d_inode_id d) ++ le_bytes 2 (d_type d) ++ le_bytes 2 (d_name_len d) ++
  d_name d ++ le_bytes 4 (d_checksum d) ++ d_reserved d.

Definition dec_dirent (bs : list Z) : k64_xfs_dirent_disk_t :=
  let '(inode_id, bs) := get_le 4 bs in
  let '(type, bs) := get_le 2 bs in
  let '(name_len, bs) := get_le 2 bs in
  let '(name, bs) := get_raw 128 bs in
  let '(checksum, bs) := get_le 4 bs in
  let '(reserved, _) := get_raw 20 bs in
  mk_dirent inode_id type name_len name checksum reserved.

Definition enc_super (s : k64_xfs_superblock_disk_t) : list Z :=
  s_magic s ++ le_bytes 2 (s_version_major s) ++ le_bytes 2 (s_version_minor s) ++
  le_bytes 4 (s_block_size s) ++ le_bytes 8 (s_total_blocks s) ++ le_bytes 8 (s_free_blocks s) ++
  le_bytes 8 (s_inode_table_start s) ++ le_bytes 8 (s_inode_table_blocks s) ++
  le_bytes 8 (s_block_bitmap_start s) ++ le_bytes 8 (s_block_bitmap_blocks s) ++
  le_bytes 8 (s_inode_bitmap_start s) ++ le_bytes 8 (s_inode_bitmap_blocks s) ++
  le_bytes 8 (s_journal_start s) ++ le_bytes 8 (s_journal_blocks s) ++
  le_bytes 8 (s_data_start s) ++ le_bytes 4 (s_root_inode s) ++ le_bytes 4 (s_mount_state s) ++
  le_bytes 8 (s_feature_flags_compat s) ++ le_bytes 8 (s_feature_flags_ro_compat s) ++
  le_bytes 8 (s_feature_flags_incompat s) ++ s_uuid s ++ s_label s ++
  le_bytes 8 (s_generation s) ++ le_bytes 4 (s_checksum s) ++ s_reserved s.

Definition dec_super (bs : list Z) : k64_xfs_superblock_disk_t :=
  let '(magic, bs) := get_raw 8 bs in
  let '(version_major, bs) := get_le 2 bs in
  let '(version_minor, bs) := get_le 2 bs in
  let '(block_size, bs) := get_le 4 bs in
  let '(total_blocks, bs) := get_le 8 bs in
  let '(free_blocks, bs) := get_le 8 bs in
  let '(inode_table_start, bs) := get_le 8 bs in
  let '(inode_table_blocks, bs) := get_le 8 bs in
  let '(block_bitmap_start, bs) := get_le 8 bs in
  let '(block_bitmap_blocks, bs) := get_le 8 bs in
  let '(inode_bitmap_start, bs) := get_le 8 bs in
  let '(inode_bitmap_blocks, bs) := get_le 8 bs in
  let '(journal_start, bs) := get_le 8 bs in
  let '(journal_blocks, bs) := get_le 8 bs in
  let '(data_start, bs) := get_le 8 bs in
  let '(root_inode, bs) := get_le 4 bs in
  let '(mount_state, bs) := get_le 4 bs in
  let '(feature_flags_compat, bs) := get_le 8 bs in
  let '(feature_flags_ro_compat, bs) := get_le 8 bs in
  let '(feature_flags_incompat, bs) := get_le 8 bs in
  let '(uuid, bs) := get_raw 16 bs in
  let '(label, bs) := get_raw 32 bs in
  let '(generation, bs) := get_le 8 bs in
  let '(checksum, bs) := get_le 4 bs in
  let '(reserved, _) := get_raw 3784 bs in
  mk_super magic version_major version_minor block_size total_blocks free_blocks
    inode_table_start inode_table_blocks block_bitmap_start block_bitmap_blocks
    inode_bitmap_start inode_bitmap_blocks journal_start journal_blocks data_start
    root_inode mount_state feature_flags_compat feature_flags_ro_compat
    feature_flags_incompat uuid label generation checksum reserved.

Definition enc_jentry (e : k64_xfs_journal_entry_disk_t) : list Z :=
  le_bytes 4 (j_magic e) ++ le_bytes 8 (j_tx_id e) ++ le_bytes 4 (j_type e) ++
  le_bytes 8 (j_target_block e) ++ le_bytes 4 (j_payload_size e) ++
  le_bytes 4 (j_payload_checksum e) ++ le_bytes 4 (j_header_checksum e).

Definition dec_jentry (bs : list Z) : k64_xfs_journal_entry_disk_t :=
  let '(magic, bs) := get_le 4 bs in
  let '(tx_id, bs) := get_le 8 bs in
  let '(type, bs) := get_le 4 bs in
  let '(target_block, bs) := get_le 8 bs in
  let '(payload_size, bs) := get_le 4 bs in
  let '(payload_checksum, bs) := get_le 4 bs in
  let '(header_checksum, _) := get_le 4 bs in
  mk_jentry magic tx_id type target_block payload_size payload_checksum header_checksum.

(** [sizeof] of the packed structs *)
Definition sizeof_inode : nat := 372.
Definition sizeof_dirent : nat := 160.
Definition sizeof_super : nat := 3980.
Definition sizeof_jentry : nat := 36.

(** ** Field updates *)

Definition super_with_checksum (s : k64_xfs_superblock_disk_t) (c : Z) :=
  mk_super (s_magic s) (s_version_major s) (s_version_minor s) (s_block_size s)
    (s_total_blocks s) (s_free_blocks s) (s_inode_table_start s) (s_inode_table_blocks s)
    (s_block_bitmap_start s) (s_block_bitmap_blocks s) (s_inode_bitmap_start s)
    (s_inode_bitmap_blocks s) (s_journal_start s) (s_journal_blocks s) (s_data_start s)
    (s_root_inode s) (s_mount_state s) (s_feature_flags_compat s)
    (s_feature_flags_ro_compat s) (s_feature_flags_incompat s) (s_uuid s) (s_label s)
    (s_generation s) c (s_reserved s).
Definition super_with_mount_state (s : k64_xfs_superblock_disk_t) (m : Z) :=
  mk_super (s_magic s) (s_version_major s) (s_version_minor s) (s_block_size s)
    (s_total_blocks s) (s_free_blocks s) (s_inode_table_start s) (s_inode_table_blocks s)
    (s_block_bitmap_start s) (s_block_bitmap_blocks s) (s_inode_bitmap_start s)
    (s_inode_bitmap_blocks s) (s_journal_start s) (s_journal_blocks s) (s_data_start s)
    (s_root_inode s) m (s_feature_flags_compat s)
    (s_feature_flags_ro_compat s) (s_feature_flags_incompat s) (s_uuid s) (s_label s)
    (s_generation s) (s_checksum s) (s_reserved s).
Definition super_with_free_blocks (s : k64_xfs_superblock_disk_t) (f : Z) :=
  mk_super (s_magic s) (s_version_major s) (s_version_minor s) (s_block_size s)
    (s_total_blocks s) f (s_inode_table_start s) (s_inode_table_blocks s)
    (s_block_bitmap_start s) (s_block_bitmap_blocks s) (s_inode_bitmap_start s)
    (s_inode_bitmap_blocks s) (s_journal_start s) (s_journal_blocks s) (s_data_start s)
    (s_root_inode s) (s_mount_state s) (s_feature_flags_compat s)
    (s_feature_flags_ro_compat s) (s_feature_flags_incompat s) (s_uuid s) (s_label s)
    (s_generation s) (s_checksum s) (s_reserved s).
Definition super_with_generation (s : k64_xfs_superblock_disk_t) (g : Z) :=
  mk_super (s_magic s) (s_version_major s) (s_version_minor s) (s_block_size s)
    (s_total_blocks s) (s_free_blocks s) (s_inode_table_start s) (s_inode_table_blocks s)
    (s_block_bitmap_start s) (s_block_bitmap_blocks s) (s_inode_bitmap_start s)
    (s_inode_bitmap_blocks s) (s_journal_start s) (s_journal_blocks s) (s_data_start s)
    (s_root_inode s) (s_mount_state s) (s_feature_flags_compat s)
    (s_feature_flags_ro_compat s) (s_feature_flags_incompat s) (s_uuid s) (s_label s)
    g (s_checksum s) (s_reserved s).

Definition inode_with_checksum (i : k64_xfs_inode_disk_t) (c : Z) :=
  mk_inode (i_magic i) (i_inode_id i) (i_type i) (i_mode i) (i_uid i) (i_gid i) (i_size i)
    (i_link_count i) (i_flags i) (i_created_tick i) (i_modified_tick i) (i_accessed_tick i)
    (i_generation i) (i_extent_count i) (i_reserved0 i) (i_direct_extents i)
    (i_indirect_extent_block i) c (i_reserved1 i).

Definition dirent_with_checksum (d : k64_xfs_dirent_disk_t) (c : Z) :=
  mk_dirent (d_inode_id d) (d_type d) (d_name_len d) (d_name d) c (d_reserved d).

Definition jentry_with_checksum (e : k64_xfs_journal_entry_disk_t) (c : Z) :=
  mk_jentry (j_magic e) (j_tx_id e) (j_type e) (j_target_block e) (j_payload_size e)
    (j_payload_checksum e) c.

(** [memset(&x, 0, sizeof(x))] *)
Definition zero_extent : k64_xfs_extent_disk_t := mk_extent 0 0 0 0 0.
Definition zero_extents : list k64_xfs_extent_disk_t :=
  replicate (Z.to_nat K64_XFS_DIRECT_EXTENTS) zero_extent.
Definition zero_inode : k64_xfs_inode_disk_t :=
  mk_inode 0 0 0 0 0 0 0 0 0 0 0 0 0 0 0 zero_extents 0 0 (zeros 28).
Definition zero_dirent : k64_xfs_dirent_disk_t := mk_dirent 0 0 0 (zeros 128) 0 (zeros 20).
Definition zero_super : k64_xfs_superblock_disk_t :=
  mk_super (zeros 8) 0 0 0 0 0 0 0 0 0 0 0 0 0 0 0 0 0 0 0 (zeros 16) (zeros 32) 0 0 (zeros 3784).
Definition zero_jentry : k64_xfs_journal_entry_disk_t := mk_jentry 0 0 0 0 0 0 0.

(** ** CRC-32 *)

(** One iteration of the inner loop: [mask = 0u - (crc & 1u);
    crc = (crc >> 1) ^ (0xEDB88320u & mask)]. *)
Definition crc_bit (crc : Z) : Z :=
  let mask := u32 (0 - Z.land crc 1) in
  Z.lxor (Z.shiftr crc 1) (Z.land 0xEDB88320 mask).

Fixpoint crc_bits (n : nat) (crc : Z) : Z :=
  match n with O => crc | S n => crc_bits n (crc_bit crc) end.

(** One iteration of the outer loop. *)
Definition crc_byte (crc b : Z) : Z := crc_bits 8 (Z.lxor crc b).

Definition k64_xfs_crc32 (data : list Z) : Z :=
  u32 (Z.lnot (fold_left crc_byte data 0xFFFFFFFF)).

Definition k64_xfs_super_checksum (sb : k64_xfs_superblock_disk_t) : Z :=
  k64_xfs_crc32 (enc_super (super_with_checksum sb 0)).
Definition k64_xfs_inode_checksum (inode : k64_xfs_inode_disk_t) : Z :=
  k64_xfs_crc32 (enc_inode (inode_with_checksum inode 0)).
Definition k64_xfs_dirent_checksum (dirent : k64_xfs_dirent_disk_t) : Z :=
  k64_xfs_crc32 (enc_dirent (dirent_with_checksum dirent 0)).

(** ** Well-formed values: every field at its C width *)

Abbreviation is_u16 := (fun z => 0 <= z < 256 ^ Z.of_nat 2).
Abbreviation is_u32 := (fun z => 0 <= z < 256 ^ Z.of_nat 4).
Abbreviation is_u64 := (fun z => 0 <= z < 256 ^ Z.of_nat 8).

Record extent_ok (e : k64_xfs_extent_disk_t) : Prop := {
  eo_logical : is_u64 (e_logical_block e);
  eo_physical : is_u64 (e_physical_block e);
  eo_count : is_u64 (e_block_count e);
  eo_flags : is_u32 (e_flags e);
  eo_reserved : is_u32 (e_reserved e)
}.

Record inode_ok (i : k64_xfs_inode_disk_t) : Prop := {
  io_magic : is_u32 (i_magic i);
  io_id : is_u32 (i_inode_id i);
  io_type : is_u16 (i_type i);
  io_mode : is_u16 (i_mode i);
  io_uid : is_u32 (i_uid i);
  io_gid : is_u32 (i_gid i);
  io_size : is_u64 (i_size i);
  io_link : is_u32 (i_link_count i);
  io_flags : is_u32 (i_flags i);
  io_ctick : is_u64 (i_created_tick i);
  io_mtick : is_u64 (i_modified_tick i);
  io_atick : is_u64 (i_accessed_tick i);
  io_gen : is_u64 (i_generation i);
  io_count : is_u32 (i_extent_count i);
  io_res0 : is_u32 (i_reserved0 i);
  io_ext_len : length (i_direct_extents i) = 8%nat;
  io_ext : Forall extent_ok (i_direct_extents i);
  io_indirect : is_u64 (i_indirect_extent_block i);
  io_checksum : is_u32 (i_checksum i);
  io_res1_len : length (i_reserved1 i) = 28%nat;
  io_res1 : bytes_ok (i_reserved1 i)
}.

Record dirent_ok (d : k64_xfs_dirent_disk_t) : Prop := {
  do_id : is_u32 (d_inode_id d);
  do_type : is_u16 (d_type d);
  do_len : is_u16 (d_name_len d);
  do_name_len : length (d_name d) = 128%nat;
  do_name : bytes_ok (d_name d);
  do_checksum : is_u32 (d_checksum d);
  do_res_len : length (d_reserved d) = 20%nat;
  do_res : bytes_ok (d_reserved d)
}.

Record super_ok (s : k64_xfs_superblock_disk_t) : Prop := {
  so_magic_len : length (s_magic s) = 8%nat;
  so_magic : bytes_ok (s_magic s);
  so_vmaj : is_u16 (s_version_major s);
  so_vmin : is_u16 (s_version_minor s);
  so_bsize : is_u32 (s_block_size s);
  so_total : is_u64 (s_total_blocks s);
  so_free : is_u64 (s_free_blocks s);
  so_itab : is_u64 (s_inode_table_start s);
  so_itabn : is_u64 (s_inode_table_blocks s);
  so_bbm : is_u64 (s_block_bitmap_start s);
  so_bbmn : is_u64 (s_block_bitmap_blocks s);
  so_ibm : is_u64 (s_inode_bitmap_start s);
  so_ibmn : is_u64 (s_inode_bitmap_blocks s);
  so_js : is_u64 (s_journal_start s);
  so_jn : is_u64 (s_journal_blocks s);
  so_data : is_u64 (s_data_start s);
  so_root : is_u32 (s_root_inode s);
  so_state : is_u32 (s_mount_state s);
  so_fc : is_u64 (s_feature_flags_compat s);
  so_fr : is_u64 (s_feature_flags_ro_compat s);
  so_fi : is_u64 (s_feature_flags_incompat s);
  so_uuid_len : length (s_uuid s) = 16%nat;
  so_uuid : bytes_ok (s_uuid s);
  so_label_len : length (s_label s) = 32%nat;
  so_label : bytes_ok (s_label s);
  so_gen : is_u64 (s_generation s);
  so_checksum : is_u32 (s_checksum s);
  so_res_len : length (s_reserved s) = 3784%nat;
  so_res : bytes_ok (s_reserved s)
}.

Record jentry_ok (e : k64_xfs_journal_entry_disk_t) : Prop := {
  jo_magic : is_u32 (j_magic e);
  jo_tx : is_u64 (j_tx_id e);
  jo_type : is_u32 (j_type e);
  jo_target : is_u64 (j_target_block e);
  jo_size : is_u32 (j_payload_size e);
  jo_pck : is_u32 (j_payload_checksum e);
  jo_hck : is_u32 (j_header_checksum e)
}.

(** ** Sizes *)

Lemma enc_extent_length e : length (enc_extent e) = 32%nat.
Proof. unfold enc_extent. by autorewrite with k64len. Qed.

Lemma enc_extents_length es : length (enc_extents es) = (32 * length es)%nat.
Proof.
  induction es as [|e es IH]; [done|]. unfold enc_extents in *. cbn [fmap list_fmap concat length].
  rewrite length_app, enc_extent_length, IH. lia.
Qed.

Lemma enc_inode_length i : inode_ok i -> length (enc_inode i) = sizeof_inode.
Proof.
  intros H. unfold enc_inode. autorewrite with k64len.
  by rewrite enc_extents_length, (io_ext_len i H), (io_res1_len i H).
Qed.

Lemma enc_dirent_length d : dirent_ok d -> length (enc_dirent d) = sizeof_dirent.
Proof.
  intros H. unfold enc_dirent. autorewrite with k64len.
  by rewrite (do_name_len d H), (do_res_len d H).
Qed.

Lemma enc_super_length s : super_ok s -> length (enc_super s) = sizeof_super.
Proof.
  intros H. unfold enc_super. autorewrite with k64len.
  by rewrite (so_magic_len s H), (so_uuid_len s H), (so_label_len s H), (so_res_len s H).
Qed.

Lemma enc_jentry_length e : length (enc_jentry e) = sizeof_jentry.
Proof. unfold enc_jentry. by autorewrite with k64len. Qed.

(** ** Round trips

    [dec_* (enc_* x ++ rest) = x]: a struct copied into a larger buffer and
    back is unchanged.  The cursor lemmas of the prelude do the work. *)

Ltac roundtrip :=
  repeat first [ rewrite <- app_assoc
               | rewrite get_le_app by assumption
               | rewrite get_raw_app by assumption ].

Lemma dec_extent_enc e rest : extent_ok e -> dec_extent (enc_extent e ++ rest) = (e, rest).
Proof. intros [????? ]. unfold dec_extent, enc_extent. roundtrip. by destruct e. Qed.

Lemma dec_extents_enc n es rest : length es = n -> Forall extent_ok es ->
  dec_extents n (enc_extents es ++ rest) = (es, rest).
Proof.
  intros <-. induction 1 as [|e es He _ IH]; [done|].
  unfold enc_extents in *. cbn [fmap list_fmap concat length dec_extents].
  rewrite <- app_assoc, dec_extent_enc by done. by rewrite IH.
Qed.

Lemma dec_inode_enc i rest : inode_ok i -> dec_inode (enc_inode i ++ rest) = i.
Proof.
  intros H. destruct H. unfold dec_inode, enc_inode. roundtrip.
  rewrite dec_extents_enc by assumption. roundtrip. by destruct i.
Qed.

Lemma dec_dirent_enc d rest : dirent_ok d -> dec_dirent (enc_dirent d ++ rest) = d.
Proof. intros H. destruct H. unfold dec_dirent, enc_dirent. roundtrip. by destruct d. Qed.

Lemma dec_super_enc s rest : super_ok s -> dec_super (enc_super s ++ rest) = s.
Proof. intros H. destruct H. unfold dec_super, enc_super. roundtrip. by destruct s. Qed.

Lemma dec_jentry_enc e rest : jentry_ok e -> dec_jentry (enc_jentry e ++ rest) = e.
Proof. intros H. destruct H. unfold dec_jentry, enc_jentry. roundtrip. by destruct e. Qed.

(** The byte images are bytes. *)
Lemma enc_extents_bytes es : bytes_ok (enc_extents es).
Proof.
  unfold enc_extents. induction es as [|e es IH]; [constructor|].
  cbn [fmap list_fmap concat]. apply Forall_app_2; [|done].
  unfold enc_extent. repeat apply Forall_app_2; apply le_bytes_ok.
Qed.

Lemma enc_inode_bytes i : inode_ok i -> bytes_ok (enc_inode i).
Proof.
  intros H. unfold enc_inode.
  repeat apply Forall_app_2; auto using le_bytes_ok, enc_extents_bytes, io_res1.
Qed.

Lemma enc_dirent_bytes d : dirent_ok d -> bytes_ok (enc_dirent d).
Proof.
  intros H. unfold enc_dirent.
  repeat apply Forall_app_2; auto using le_bytes_ok, do_name, do_res.
Qed.

Lemma enc_super_bytes s : super_ok s -> bytes_ok (enc_super s).
Proof.
  intros H. unfold enc_super.
  repeat apply Forall_app_2; auto using le_bytes_ok, so_magic, so_uuid, so_label, so_res.
Qed.

Lemma enc_jentry_bytes e : bytes_ok (enc_jentry e).
Proof. unfold enc_jentry. repeat apply Forall_app_2; apply le_bytes_ok. Qed.

(** Reading the next field of a byte image. *)
Lemma get_le_inv n bs v rest : get_le n bs = (v, rest) -> bytes_ok bs -> (n <= length bs)%nat ->
  bs = le_bytes n v ++ rest /\ 0 <= v < 256 ^ Z.of_nat n /\ bytes_ok rest /\
  length bs = (n + length rest)%nat.
Proof.
  unfold get_le. intros [= <- <-] Hb Hn.
  assert (length (take n bs) = n) as Hl by (rewrite length_take; lia).
  assert (bytes_ok (take n bs)) as Ht by by apply Forall_take.
  rewrite le_bytes_value' by done. rewrite take_drop. split_and!; [done| | | |].
  - pose proof (le_value_range _ Ht) as Hr. rewrite Hl in Hr. lia.
  - pose proof (le_value_range _ Ht) as Hr. rewrite Hl in Hr. lia.
  - by apply Forall_drop.
  - rewrite length_drop. lia.
Qed.

Lemma get_raw_inv n bs v rest : get_raw n bs = (v, rest) -> bytes_ok bs -> (n <= length bs)%nat ->
  bs = v ++ rest /\ length v = n /\ bytes_ok v /\ bytes_ok rest /\
  length bs = (n + length rest)%nat.
Proof.
  unfold get_raw. intros [= <- <-] Hb Hn. rewrite take_drop. split_and!; [done| | | |].
  - rewrite length_take; lia.
  - by apply Forall_take.
  - by apply Forall_drop.
  - rewrite length_drop. lia.
Qed.

(** Runs the cursors of a [dec_*] function over a byte image. *)
Ltac cursors :=
  repeat match goal with
  | |- context [get_le ?n ?bs] =>
      let v := fresh "v" in let r := fresh "r" in let E := fresh "E" in
      destruct (get_le n bs) as [v r] eqn:E;
      apply get_le_inv in E as (-> & ? & ? & ?); [|assumption|lia]
  | |- context [get_raw ?n ?bs] =>
      let v := fresh "v" in let r := fresh "r" in let E := fresh "E" in
      destruct (get_raw n bs) as [v r] eqn:E;
      apply get_raw_inv in E as (-> & ? & ? & ? & ?); [|assumption|lia]
  end.

(** The cursor of a struct of exactly this size ends at the end. *)
Ltac no_rest :=
  match goal with
  | H : bytes_ok ?r |- _ =>
      is_var r; assert (r = []) as -> by (apply length_zero_iff_nil; lia)
  end.

Lemma dec_extent_inv bs e rest : dec_extent bs = (e, rest) -> bytes_ok bs ->
  (32 <= length bs)%nat ->
  bs = enc_extent e ++ rest /\ extent_ok e /\ bytes_ok rest /\ length bs = (32 + length rest)%nat.
Proof.
  unfold dec_extent. intros Hd Hb Hl. revert Hd. cursors. intros [= <- <-].
  unfold enc_extent. simpl. rewrite <- !app_assoc. split_and!; try done; by constructor.
Qed.

Lemma dec_extents_inv n bs es rest : dec_extents n bs = (es, rest) -> bytes_ok bs ->
  (32 * n <= length bs)%nat ->
  bs = enc_extents es ++ rest /\ length es = n /\ Forall extent_ok es /\ bytes_ok rest /\
  length bs = (32 * n + length rest)%nat.
Proof.
  revert bs es rest. induction n as [|n IH]; intros bs es rest; cbn [dec_extents].
  { intros [= <- <-] ??. split_and!; done. }
  destruct (dec_extent bs) as [e bs1] eqn:He.
  destruct (dec_extents n bs1) as [es1 bs2] eqn:Hes. intros [= <- <-] Hb Hl.
  apply dec_extent_inv in He as (-> & ? & ? & ?); [|done|lia].
  apply IH in Hes as (-> & <- & ? & ? & ?); [|done|lia].
  unfold enc_extents in *. cbn [fmap list_fmap concat length]. rewrite <- app_assoc.
  split_and!; try done; [by constructor|lia].
Qed.

Lemma dec_inode_inv bs : bytes_ok bs -> length bs = sizeof_inode ->
  enc_inode (dec_inode bs) = bs /\ inode_ok (dec_inode bs).
Proof.
  intros Hb Hl. unfold sizeof_inode in Hl. unfold dec_inode.
  repeat (progress cursors ||
    match goal with
    | |- context [dec_extents ?n ?bs] =>
        let E := fresh "E" in destruct (dec_extents n bs) eqn:E;
        change (Z.to_nat K64_XFS_DIRECT_EXTENTS) with 8%nat in E;
        apply dec_extents_inv in E as (-> & ? & ? & ? & ?); [|assumption|lia]
    end).
  no_rest. split; [unfold enc_inode; simpl; by rewrite app_nil_r|]. by constructor.
Qed.

Lemma dec_dirent_inv bs : bytes_ok bs -> length bs = sizeof_dirent ->
  enc_dirent (dec_dirent bs) = bs /\ dirent_ok (dec_dirent bs).
Proof.
  intros Hb Hl. unfold sizeof_dirent in Hl. unfold dec_dirent. cursors. no_rest.
  split; [unfold enc_dirent; simpl; by rewrite app_nil_r|]. by constructor.
Qed.

Lemma dec_super_inv bs : bytes_ok bs -> length bs = sizeof_super ->
  enc_super (dec_super bs) = bs /\ super_ok (dec_super bs).
Proof.
  intros Hb Hl. unfold sizeof_super in Hl. unfold dec_super. cursors. no_rest.
  split; [unfold enc_super; simpl; by rewrite app_nil_r|]. by constructor.
Qed.

Lemma dec_jentry_inv bs : bytes_ok bs -> length bs = sizeof_jentry ->
  enc_jentry (dec_jentry bs) = bs /\ jentry_ok (dec_jentry bs).
Proof.
  intros Hb Hl. unfold sizeof_jentry in Hl. unfold dec_jentry. cursors. no_rest.
  split; [unfold enc_jentry; simpl; by rewrite app_nil_r|]. by constructor.
Qed.

(** The four on-disk structures are read back as they were written, whatever
    follows them in the block, and every byte image of the right size is the
    image of what is read from it: no bit of the format is lost or ignored. *)
Theorem disk_formats_roundtrip sb i d e rest bs : super_ok sb -> inode_ok i -> dirent_ok d -> jentry_ok e ->
  bytes_ok bs ->
  (dec_super (enc_super sb ++ rest) = sb /\ dec_inode (enc_inode i ++ rest) = i /\
   dec_dirent (enc_dirent d ++ rest) = d /\ dec_jentry (enc_jentry e ++ rest) = e) /\
  (length bs = sizeof_super -> enc_super (dec_super bs) = bs) /\
  (length bs = sizeof_inode -> enc_inode (dec_inode bs) = bs) /\
  (length bs = sizeof_dirent -> enc_dirent (dec_dirent bs) = bs) /\
  (length bs = sizeof_jentry -> enc_jentry (dec_jentry bs) = bs).
Proof.
  intros Hs Hi Hd He Hb. split_and!.
  - by apply dec_super_enc.
  - by apply dec_inode_enc.
  - by apply dec_dirent_enc.
  - by apply dec_jentry_enc.
  - intros Hl. by apply dec_super_inv.
  - intros Hl. by apply dec_inode_inv.
  - intros Hl. by apply dec_dirent_inv.
  - intros Hl. by apply dec_jentry_inv.
Qed.

Lemma zero_structs_ok : super_ok (dec_super (zeros sizeof_super)) /\ inode_ok (dec_inode (zeros sizeof_inode)) /\
  dirent_ok (dec_dirent (zeros sizeof_dirent)) /\ jentry_ok (dec_jentry (zeros sizeof_jentry)).
Proof.
  split_and!; [apply dec_super_inv|apply dec_inode_inv|apply dec_dirent_inv|apply dec_jentry_inv];
    (apply zeros_bytes_ok || apply zeros_length).
Qed.

Lemma disk_formats_roundtrip_witness :
  let sb := dec_super (zeros sizeof_super) in let i := dec_inode (zeros sizeof_inode) in
  let d := dec_dirent (zeros sizeof_dirent) in let e := dec_jentry (zeros sizeof_jentry) in
  (dec_super (enc_super sb ++ [7]) = sb /\ dec_inode (enc_inode i ++ [7]) = i /\
   dec_dirent (enc_dirent d ++ [7]) = d /\ dec_jentry (enc_jentry e ++ [7]) = e) /\
  (length (zeros 128) = sizeof_super -> enc_super (dec_super (zeros 128)) = zeros 128) /\
  (length (zeros 128) = sizeof_inode -> enc_inode (dec_inode (zeros 128)) = zeros 128) /\
  (length (zeros 128) = sizeof_dirent -> enc_dirent (dec_dirent (zeros 128)) = zeros 128) /\
  (length (zeros 128) = sizeof_jentry -> enc_jentry (dec_jentry (zeros 128)) = zeros 128).
Proof.
  exact (disk_formats_roundtrip _ _ _ _ [7] (zeros 128) (proj1 zero_structs_ok) (proj1 (proj2 zero_structs_ok))
    (proj1 (proj2 (proj2 zero_structs_ok))) (proj2 (proj2 (proj2 zero_structs_ok))) (zeros_bytes_ok 128)).
Defined.
