(* ===== verification/XfsCrc.v ===== *)
(** * CRC-32 of the K64XFS format: what the checksum detects

    Properties of [k64_xfs_crc32] ([k64_xfs_format.c]): its range, the standard
    check value, and that changing a single byte of the data, or the value of
    the register, always changes the result. *)
From Stdlib Require Import ZArith Lia.
From stdpp Require Import base list.
From S2P Require Import Prelude XfsFormat.

Lemma testbit_lt_pow2 x n i : 0 <= x < 2 ^ n -> 0 <= n <= i -> Z.testbit x i = false.
Proof.
  intros Hx Hi. destruct (Z.eq_dec x 0) as [->|Hne]; [apply Z.bits_0|].
  apply Z.bits_above_log2; [lia|]. apply Z.log2_lt_pow2; [lia|].
  eapply Z.lt_le_trans; [apply Hx|]. apply Z.pow_le_mono_r; lia.
Qed.

Lemma lt_pow2_bits x n : 0 <= n -> 0 <= x -> (forall i, n <= i -> Z.testbit x i = false) -> x < 2 ^ n.
Proof.
  intros Hn Hx Hb. destruct (Z.lt_ge_cases x (2 ^ n)) as [|Hge]; [done|].
  pose proof (Z.pow_pos_nonneg 2 n ltac:(lia) Hn) as Hpos.
  assert (n <= Z.log2 x) as Hlog by (rewrite <- (Z.log2_pow2 n) by lia; by apply Z.log2_le_mono).
  specialize (Hb _ Hlog). rewrite Z.bit_log2 in Hb by lia. done.
Qed.

Lemma lxor_range x y n : 0 <= n -> 0 <= x < 2 ^ n -> 0 <= y < 2 ^ n -> 0 <= Z.lxor x y < 2 ^ n.
Proof.
  intros Hn Hx Hy. assert (0 <= Z.lxor x y) by (apply Z.lxor_nonneg; lia).
  split; [done|]. apply lt_pow2_bits; [done..|]. intros i Hi.
  by rewrite Z.lxor_spec, !(testbit_lt_pow2 _ n) by lia.
Qed.

(** The inner loop's step without the mask trick. *)
Lemma crc_bit_alt c : 0 <= c ->
  crc_bit c = Z.lxor (c / 2) (if Z.odd c then 0xEDB88320 else 0).
Proof.
  intros. unfold crc_bit. rewrite Z.shiftr_div_pow2 by lia. change (2 ^ 1) with 2. f_equal.
  change 1 with (Z.ones 1). rewrite Z.land_ones by lia. change (2 ^ 1) with 2.
  rewrite Zmod_odd. by destruct (Z.odd c).
Qed.

Lemma crc_bit_range c : 0 <= c < 2 ^ 32 -> 0 <= crc_bit c < 2 ^ 32.
Proof.
  intros. rewrite crc_bit_alt by lia. apply lxor_range; [lia| |].
  - split; [apply Z.div_pos; lia|]. apply Z.div_lt_upper_bound; lia.
  - destruct (Z.odd c); lia.
Qed.

(** Bit 31 of the result is the bit that was shifted out, so a step can be
    undone. *)
Lemma crc_bit_odd c : 0 <= c < 2 ^ 32 -> Z.testbit (crc_bit c) 31 = Z.odd c.
Proof.
  intros. rewrite crc_bit_alt, Z.lxor_spec by lia.
  rewrite (testbit_lt_pow2 (c / 2) 31).
  - by destruct (Z.odd c).
  - split; [apply Z.div_pos; lia|]. apply Z.div_lt_upper_bound; lia.
  - lia.
Qed.

Lemma crc_bit_inj c d : 0 <= c < 2 ^ 32 -> 0 <= d < 2 ^ 32 -> crc_bit c = crc_bit d -> c = d.
Proof.
  intros Hc Hd Heq.
  assert (Z.odd c = Z.odd d) as Ho by (rewrite <- !crc_bit_odd by done; by rewrite Heq).
  rewrite !crc_bit_alt, Ho in Heq by lia.
  apply (f_equal (Z.lxor (if Z.odd d then 0xEDB88320 else 0))) in Heq.
  rewrite !(Z.lxor_comm (if Z.odd d then 0xEDB88320 else 0)) in Heq.
  rewrite !Z.lxor_assoc, !Z.lxor_nilpotent, !Z.lxor_0_r in Heq.
  pose proof (Zdiv2_odd_eqn c). pose proof (Zdiv2_odd_eqn d).
  rewrite !Zdiv2_div in *. rewrite Ho in *. lia.
Qed.

Lemma crc_bits_range n c : 0 <= c < 2 ^ 32 -> 0 <= crc_bits n c < 2 ^ 32.
Proof. revert c. induction n; intros; [done|]. by apply IHn, crc_bit_range. Qed.

Lemma crc_bits_inj n c d : 0 <= c < 2 ^ 32 -> 0 <= d < 2 ^ 32 ->
  crc_bits n c = crc_bits n d -> c = d.
Proof.
  revert c d. induction n as [|n IH]; intros c d Hc Hd Heq; [done|].
  apply crc_bit_inj; [done..|]. by apply IH; [apply crc_bit_range..|].
Qed.

#[global] Opaque crc_bits.

Lemma byte_lt_pow2 b : byte_ok b -> 0 <= b < 2 ^ 32.
Proof. unfold byte_ok. lia. Qed.

Lemma crc_byte_range c b : 0 <= c < 2 ^ 32 -> byte_ok b -> 0 <= crc_byte c b < 2 ^ 32.
Proof. intros. apply crc_bits_range, lxor_range; auto using byte_lt_pow2. lia. Qed.

Lemma lxor_inj_l a x y : Z.lxor a x = Z.lxor a y -> x = y.
Proof.
  intros H. apply (f_equal (Z.lxor a)) in H.
  by rewrite <- !Z.lxor_assoc, !Z.lxor_nilpotent, !Z.lxor_0_l in H.
Qed.

(** The register after a byte determines the byte, and the byte and the
    register after it determine the register before it. *)
Lemma crc_byte_inj_byte c b b' : 0 <= c < 2 ^ 32 -> byte_ok b -> byte_ok b' ->
  crc_byte c b = crc_byte c b' -> b = b'.
Proof.
  intros ? ? ? H. apply (lxor_inj_l c).
  apply crc_bits_inj in H; [done|apply lxor_range; auto using byte_lt_pow2; lia..].
Qed.

Lemma crc_byte_inj_reg c d b : 0 <= c < 2 ^ 32 -> 0 <= d < 2 ^ 32 -> byte_ok b ->
  crc_byte c b = crc_byte d b -> c = d.
Proof.
  intros ? ? ? H. apply (lxor_inj_l b). rewrite !(Z.lxor_comm b).
  apply crc_bits_inj in H; [done|apply lxor_range; auto using byte_lt_pow2; lia..].
Qed.

(** Folding a register update that is injective in the register and in the
    byte: the final register determines a single unknown byte. *)
Section register.
Variables (f : Z -> Z -> Z) (R : Z -> Prop).
Hypothesis f_range : forall c b, R c -> byte_ok b -> R (f c b).
Hypothesis f_reg : forall c d b, R c -> R d -> byte_ok b -> f c b = f d b -> c = d.
Hypothesis f_byte : forall c b b', R c -> byte_ok b -> byte_ok b' -> f c b = f c b' -> b = b'.

Lemma fold_range l c : R c -> bytes_ok l -> R (fold_left f l c).
Proof.
  intros Hc Hl. revert c Hc. induction Hl as [|b l Hb _ IH]; intros c Hc; [done|].
  cbn [fold_left]. by apply IH, f_range.
Qed.

Lemma fold_inj l c d : R c -> R d -> bytes_ok l -> fold_left f l c = fold_left f l d -> c = d.
Proof.
  intros Hc Hd Hl. revert c d Hc Hd.
  induction Hl as [|b l Hb _ IH]; intros c d Hc Hd Heq; [done|].
  cbn [fold_left] in Heq. apply IH in Heq; [|by apply f_range..]. by apply f_reg in Heq.
Qed.

Lemma fold_byte_inj xs ys b b' c : R c -> bytes_ok xs -> bytes_ok ys -> byte_ok b -> byte_ok b' ->
  fold_left f (xs ++ b :: ys) c = fold_left f (xs ++ b' :: ys) c -> b = b'.
Proof.
  intros Hc Hxs Hys Hb Hb' Heq. rewrite !fold_left_app in Heq. cbn [fold_left] in Heq.
  pose proof (fold_range xs c Hc Hxs) as Hr.
  apply fold_inj in Heq; [|by apply f_range..|done]. by apply f_byte in Heq.
Qed.
End register.

Lemma u32_lnot_inj x y : 0 <= x < 2 ^ 32 -> 0 <= y < 2 ^ 32 ->
  u32 (Z.lnot x) = u32 (Z.lnot y) -> x = y.
Proof. unfold u32, Z.lnot. intros. dmlia. Qed.

Lemma k64_xfs_crc32_range l : 0 <= k64_xfs_crc32 l < 2 ^ 32.
Proof. apply u32_range. Qed.

(** C31: A single changed byte, wherever it is, changes the checksum. *)
Theorem crc32_detects_byte xs ys b b' :
  bytes_ok xs -> bytes_ok ys -> byte_ok b -> byte_ok b' -> b <> b' ->
  k64_xfs_crc32 (xs ++ b :: ys) <> k64_xfs_crc32 (xs ++ b' :: ys).
Proof.
  intros Hxs Hys Hb Hb' Hne Heq. apply Hne. unfold k64_xfs_crc32 in Heq.
  apply u32_lnot_inj in Heq.
  2, 3: apply (fold_range crc_byte (fun c => 0 <= c < 2 ^ 32) crc_byte_range); [lia|].
  2, 3: apply Forall_app_2; by try constructor.
  apply (fold_byte_inj crc_byte (fun c => 0 <= c < 2 ^ 32) crc_byte_range crc_byte_inj_reg
    crc_byte_inj_byte xs ys b b' 0xFFFFFFFF); [lia|done..].
Qed.

(** The standard check value of CRC-32: the CRC of "123456789". *)
Example crc32_check_value :
  k64_xfs_crc32 [49; 50; 51; 52; 53; 54; 55; 56; 57] = 0xCBF43926.
Proof. vm_compute. reflexivity. Qed.

Lemma crc32_detects_byte_witness :
  k64_xfs_crc32 ([1; 2] ++ 3 :: [4]) <> k64_xfs_crc32 ([1; 2] ++ 7 :: [4]).
Proof.
  refine (crc32_detects_byte [1; 2] [4] 3 7 _ _ _ _ _); [| |by vm_compute..].
  - repeat (apply Forall_cons_2; [by vm_compute|]). apply Forall_nil_2.
  - repeat (apply Forall_cons_2; [by vm_compute|]). apply Forall_nil_2.
Defined.
