(* ===== verification/Block.v ===== *)
(** * Block devices ([k64_block.c], [k64_block.h])

    The device registry, bounds-checked sector I/O and MBR partitions.  [W] is
    the state of the hardware and of the drivers behind the [read]/[write]
    function pointers; a driver is a pair of functions over [W], and the
    [context] pointer is an opaque number handed back to it.  A pointer to a
    device is its index in [block_devices]. *)
From Stdlib Require Import ZArith Lia.
From stdpp Require Import base list.
From S2P Require Import Prelude KString.

Definition K64_MAX_BLOCK_DEVICES : Z := 32.
Definition K64_MBR_PARTITION_LBA : Z := 2048.

(** [bool read(void* ctx, uint64_t lba, uint32_t count, void* buffer)]: the
    result and what is in the buffer afterwards. *)
Definition k64_block_read_fn (W : Type) : Type := W -> Z -> Z -> Z -> list Z -> bool * list Z.
(** [bool write(void* ctx, uint64_t lba, uint32_t count, const void* buffer)] *)
Definition k64_block_write_fn (W : Type) : Type := W -> Z -> Z -> Z -> list Z -> bool * W.

Record k64_block_device_t (W : Type) := mk_dev {
  id : Z;
  name : list Z;
  source : list Z;
  block_size : Z;
  block_count : Z;
  start_lba : Z;
  partition_type : Z;
  is_partition : bool;
  writable : bool;
  online : bool;
  context : Z;
  read : option (k64_block_read_fn W);
  write : option (k64_block_write_fn W)
}.
Arguments mk_dev {W}.
Arguments id {W}.
Arguments name {W}.
Arguments source {W}.
Arguments block_size {W}.
Arguments block_count {W}.
Arguments start_lba {W}.
Arguments partition_type {W}.
Arguments is_partition {W}.
Arguments writable {W}.
Arguments online {W}.
Arguments context {W}.
Arguments read {W}.
Arguments write {W}.

Record registry (W : Type) := mk_registry {
  block_devices : list (k64_block_device_t W);
  block_device_count : nat;
  next_block_id : Z;
  hw : W
}.
Arguments mk_registry {W}.
Arguments block_devices {W}.
Arguments block_device_count {W}.
Arguments next_block_id {W}.
Arguments hw {W}.

Definition copy_string (dst_size : Z) (src : option (list Z)) : list Z := bounded_copy dst_size src.

(** Little-endian integers in the partition table. *)
Definition read_u32le (p : list Z) : Z :=
  Z.lor (Z.lor (Z.lor (nth 0 p 0) (Z.shiftl (nth 1 p 0) 8)) (Z.shiftl (nth 2 p 0) 16))
    (Z.shiftl (nth 3 p 0) 24).

Definition write_u32le (v : Z) : list Z :=
  [u8 (Z.land v 0xFF); u8 (Z.land (Z.shiftr v 8) 0xFF);
   u8 (Z.land (Z.shiftr v 16) 0xFF); u8 (Z.land (Z.shiftr v 24) 0xFF)].

Section block.
Context {W : Type}.
Abbreviation dev_t := (k64_block_device_t W).
Implicit Types (r : registry W) (d : dev_t).

Definition blank_device : dev_t :=
  mk_dev 0 [] [] 0 0 0 0 false false false 0 None None.

Definition k64_block_init (r : registry W) : registry W :=
  mk_registry (replicate (Z.to_nat K64_MAX_BLOCK_DEVICES) blank_device) 0 1 (hw r).

Definition k64_block_register_device (r : registry W) (name source : option (list Z))
    (block_size block_count : Z) (writable : bool) (context : Z)
    (read : option (k64_block_read_fn W)) (write : option (k64_block_write_fn W))
    : option nat * registry W :=
  if (K64_MAX_BLOCK_DEVICES <=? Z.of_nat (block_device_count r)) ||
     (if read is Some _ then false else true) || (block_size =? 0) || (block_count =? 0)
  then (None, r)
  else
    let i := block_device_count r in
    let dev := mk_dev (next_block_id r)
      (copy_string 32 (Some (default [98; 108; 111; 99; 107] name)))  (* "block" *)
      (copy_string 48 (Some (default [107; 54; 52; 109] source)))     (* "k64m" *)
      block_size block_count 0 0 false writable true context read write in
    (Some i, mk_registry (<[i := dev]> (block_devices r)) (S i) (u64 (next_block_id r + 1)) (hw r)).

Definition take_offline (d : dev_t) : dev_t :=
  mk_dev (id d) (Block.name d) (Block.source d) (Block.block_size d) (Block.block_count d)
    (start_lba d) (partition_type d) (is_partition d) (Block.writable d) false
    (Block.context d) None None.

(** The devices the loops visit: [block_devices[0 .. block_device_count)]. *)
Definition k64_block_unregister_device (r : registry W) (name : list Z) : registry W :=
  let n := block_device_count r in
  mk_registry
    (map (fun d => if negb (streq (Block.name d) name) then d else take_offline d)
         (take n (block_devices r)) ++ drop n (block_devices r))
    n (next_block_id r) (hw r).

Definition k64_block_device_count (r : registry W) : nat := block_device_count r.

Definition k64_block_device_at (r : registry W) (index : nat) : option nat :=
  if (block_device_count r <=? index)%nat then None else Some index.

Fixpoint find_index (P : dev_t -> bool) (l : list dev_t) (i : nat) : option nat :=
  match l with
  | [] => None
  | d :: l => if P d then Some i else find_index P l (S i)
  end.

Definition k64_block_find_device_by_name (r : registry W) (name : list Z) : option nat :=
  find_index (fun d => streq (Block.name d) name)
    (take (block_device_count r) (block_devices r)) 0.

Definition usable (d : dev_t) : bool :=
  online d && Block.writable d && (if Block.read d is Some _ then true else false) &&
  (if Block.write d is Some _ then true else false).

Definition k64_block_first_writable (r : registry W) : option nat :=
  find_index usable (take (block_device_count r) (block_devices r)) 0.

(** Sector I/O through a device.  The hardware state is the driver's. *)
Definition k64_block_read (d : dev_t) (w : W) (lba count : Z) (buffer : list Z) : bool * list Z :=
  match Block.read d with
  | None => (false, buffer)
  | Some rd =>
      if negb (online d) || (count =? 0) then (false, buffer)
      else if (Block.block_count d <=? lba) || (Block.block_count d - lba <? count)
      then (false, buffer)
      else rd w (Block.context d) (u64 (start_lba d + lba)) count buffer
  end.

Definition k64_block_write (d : dev_t) (w : W) (lba count : Z) (buffer : list Z) : bool * W :=
  match Block.write d with
  | None => (false, w)
  | Some wr =>
      if negb (online d) || (count =? 0) || negb (Block.writable d) then (false, w)
      else if (Block.block_count d <=? lba) || (Block.block_count d - lba <? count)
      then (false, w)
      else wr w (Block.context d) (u64 (start_lba d + lba)) count buffer
  end.

Definition partition_name_exists (r : registry W) (name : list Z) : bool :=
  if k64_block_find_device_by_name r name is Some _ then true else false.

Definition as_partition (d : dev_t) (start type : Z) : dev_t :=
  mk_dev (id d) (Block.name d) (Block.source d) (Block.block_size d) (Block.block_count d)
    start type true (Block.writable d) (online d) (Block.context d) (Block.read d) (Block.write d).

Definition register_partition (r : registry W) (parent : dev_t) (number type start_lba block_count : Z)
    : option nat * registry W :=
  if is_partition parent || (block_count =? 0) ||
     (K64_MAX_BLOCK_DEVICES <=? Z.of_nat (block_device_count r))
  then (None, r)
  else
    let pname := copy_chars 31 (Block.name parent) in
    let pos := Z.of_nat (length pname) in
    if 32 <=? pos + 3 then (None, r)
    else
      let pname := pname ++ [112; u8 (48 + number)] in               (* 'p', '0' + number *)
      if partition_name_exists r pname then (k64_block_find_device_by_name r pname, r)
      else
        match k64_block_register_device r (Some pname) (Some (Block.source parent))
                (Block.block_size parent) block_count (Block.writable parent)
                (Block.context parent) (Block.read parent) (Block.write parent) with
        | (None, r) => (None, r)
        | (Some i, r) =>
            match block_devices r !! i with
            | None => (None, r)
            | Some part =>
                (Some i, mk_registry (<[i := as_partition part start_lba type]> (block_devices r))
                           (block_device_count r) (next_block_id r) (hw r))
            end
        end.

(** One iteration of the loop over the four partition entries. *)
Definition scan_entry (dev : dev_t) (mbr : list Z) (r : registry W) (i : nat) : registry W :=
  let off := (446 + i * 16)%nat in
  let type := nth (off + 4) mbr 0 in
  let start := read_u32le (drop (off + 8) mbr) in
  let count := read_u32le (drop (off + 12) mbr) in
  if (type =? 0) || (count =? 0) || (start =? 0) || (Block.block_count dev <=? start) then r
  else
    let count := if Block.block_count dev - start <? count
                 then u32 (Block.block_count dev - start) else count in
    snd (register_partition r dev (u8 (Z.of_nat i + 1)) type start count).

Definition k64_block_scan_partitions (r : registry W) (dev : dev_t) : registry W :=
  if is_partition dev || negb (Block.block_size dev =? 512) || negb (online dev) ||
     (if Block.read dev is Some _ then false else true)
  then r
  else
    let '(ok, mbr) := k64_block_read dev (hw r) 0 1 (zeros 512) in
    if negb ok || negb (nth 510 mbr 0 =? 0x55) || negb (nth 511 mbr 0 =? 0xAA) then r
    else fold_left (scan_entry dev mbr) [0; 1; 2; 3]%nat r.

(** The boot sector with one active partition that [k64_block_write_k64_mbr]
    builds. *)
Definition k64_mbr (part_blocks : Z) : list Z :=
  let mbr := zeros 512 in
  let mbr := splice mbr 446 [0x80; 0x00; 0x02; 0x00; 0x83; 0xFF; 0xFF; 0xFF] in
  let mbr := splice mbr 454 (write_u32le K64_MBR_PARTITION_LBA) in
  let mbr := splice mbr 458 (write_u32le (u32 part_blocks)) in
  splice mbr 510 [0x55; 0xAA].

Definition k64_block_write_k64_mbr (r : registry W) (dev : dev_t) : bool * registry W :=
  if is_partition dev || negb (online dev) || negb (Block.writable dev) ||
     negb (Block.block_size dev =? 512) || (Block.block_count dev <=? K64_MBR_PARTITION_LBA) ||
     (0xFFFFFFFF <? Block.block_count dev)
  then (false, r)
  else
    let part_blocks := Block.block_count dev - K64_MBR_PARTITION_LBA in
    let '(ok, w) := k64_block_write dev (hw r) 0 1 (k64_mbr part_blocks) in
    let r := mk_registry (block_devices r) (block_device_count r) (next_block_id r) w in
    if negb ok then (false, r)
    else (true, k64_block_scan_partitions r dev).
End block.

(** ** What a block driver promises

    The contract the storage stack relies on: [sector w l] is the content of
    the device's sector [l] (an absolute LBA) in hardware state [w]; a read that
    returns true has filled the buffer with the sectors, a write that returns
    true has stored exactly them, and a write that fails has touched at most
    the sectors it was given. *)
Class BlockDriver {W} (d : k64_block_device_t W) := {
  sector : W -> Z -> list Z;
  sector_length w l : length (sector w l) = Z.to_nat (block_size d);
  sector_bytes w l : bytes_ok (sector w l);
  drv_read_true rd w lba n buf buf' :
    read d = Some rd -> 0 <= n -> rd w (context d) lba n buf = (true, buf') ->
    buf' = concat (map (fun k => sector w (lba + Z.of_nat k)) (seq 0 (Z.to_nat n)));
  drv_read_buffer rd w lba n buf ok buf' :
    read d = Some rd -> 0 <= n -> rd w (context d) lba n buf = (ok, buf') ->
    length buf = (Z.to_nat n * Z.to_nat (block_size d))%nat -> bytes_ok buf ->
    length buf' = length buf /\ bytes_ok buf';
  drv_write_true wr w lba n bytes w' :
    write d = Some wr -> 0 <= n -> wr w (context d) lba n bytes = (true, w') ->
    length bytes = (Z.to_nat n * Z.to_nat (block_size d))%nat -> bytes_ok bytes ->
    forall k, (k < Z.to_nat n)%nat ->
      sector w' (lba + Z.of_nat k) = slice bytes (k * Z.to_nat (block_size d)) (Z.to_nat (block_size d));
  drv_write_frame wr w lba n bytes ok w' :
    write d = Some wr -> wr w (context d) lba n bytes = (ok, w') ->
    forall l, l < lba \/ lba + n <= l -> sector w' l = sector w l
}.

(** A device whose sector numbers fit in 64 bits. *)
Record geometry_ok {W} (d : k64_block_device_t W) : Prop := {
  geo_size : 0 < block_size d;
  geo_start : 0 <= start_lba d;
  geo_count : 0 <= block_count d;
  geo_end : start_lba d + block_count d <= 18446744073709551616
}.

Section io.
Context {W : Type} (d : k64_block_device_t W) `{!BlockDriver d} (G : geometry_ok d).

Lemma k64_block_read_true w lba n buf buf' :
  k64_block_read d w lba n buf = (true, buf') -> 0 <= lba -> 0 <= n ->
  buf' = concat (map (fun k => sector w (start_lba d + lba + Z.of_nat k)) (seq 0 (Z.to_nat n))) /\
  lba + n <= block_count d.
Proof.
  intros Hr Hl Hn. revert Hr. unfold k64_block_read.
  destruct (read d) as [rd|] eqn:Hrd; [|done].
  destruct (negb (online d) || _); [done|].
  destruct (_ || _) eqn:Hb; [done|]. apply orb_false_iff in Hb as [Hb1 Hb2].
  destruct G. rewrite u64_small by lia. intros Hr.
  apply (drv_read_true rd _ _ _ _ _ Hrd Hn) in Hr. split; [done|lia].
Qed.

Lemma k64_block_read_buffer w lba n buf ok buf' :
  k64_block_read d w lba n buf = (ok, buf') -> 0 <= n ->
  length buf = (Z.to_nat n * Z.to_nat (block_size d))%nat -> bytes_ok buf ->
  length buf' = length buf /\ bytes_ok buf'.
Proof.
  intros Hr Hn. revert Hr. unfold k64_block_read.
  destruct (read d) as [rd|] eqn:Hrd; [|by intros [= <- <-]].
  destruct (negb (online d) || _); [by intros [= <- <-]|].
  destruct (_ || _); [by intros [= <- <-]|].
  intros Hr. by apply (drv_read_buffer rd _ _ _ _ _ _ Hrd Hn Hr).
Qed.

Lemma k64_block_write_true w lba n bytes w' :
  k64_block_write d w lba n bytes = (true, w') -> 0 <= lba -> 0 <= n ->
  length bytes = (Z.to_nat n * Z.to_nat (block_size d))%nat -> bytes_ok bytes ->
  lba + n <= block_count d /\
  forall k, (k < Z.to_nat n)%nat ->
    sector w' (start_lba d + lba + Z.of_nat k) =
    slice bytes (k * Z.to_nat (block_size d)) (Z.to_nat (block_size d)).
Proof.
  intros Hr Hl Hn. revert Hr. unfold k64_block_write.
  destruct (write d) as [wr|] eqn:Hwr; [|done].
  destruct (_ || _); [done|].
  destruct (_ || _) eqn:Hb; [done|]. apply orb_false_iff in Hb as [Hb1 Hb2].
  destruct G. rewrite u64_small by lia. intros Hr Hlen Hok. split; [lia|].
  by apply (drv_write_true wr _ _ _ _ _ Hwr Hn Hr).
Qed.

Lemma k64_block_write_frame w lba n bytes ok w' :
  k64_block_write d w lba n bytes = (ok, w') -> 0 <= lba ->
  forall l, l < start_lba d + lba \/ start_lba d + lba + n <= l -> sector w' l = sector w l.
Proof.
  intros Hr Hl. revert Hr. unfold k64_block_write.
  destruct (write d) as [wr|] eqn:Hwr; [|by intros [= <- <-]].
  destruct (_ || _); [by intros [= <- <-]|].
  destruct (_ || _) eqn:Hb; [by intros [= <- <-]|]. apply orb_false_iff in Hb as [Hb1 Hb2].
  destruct G. rewrite u64_small by lia. intros Hr l Hin.
  apply (drv_write_frame wr _ _ _ _ _ _ Hwr Hr). lia.
Qed.
End io.
