(* ===== verification/BlockSpec.v ===== *)
(** * The block layer is correct

    A partition is confined to its sectors; the registry keeps its shape; the
    boot sector that [k64_block_write_k64_mbr] writes is read back as the
    partition it describes.

    The driver of [tests/xfs_unit_test.c]: [sectors] sectors of [size] bytes
    in memory.  It instantiates the driver parameter of the block layer, so
    that the whole storage stack can be executed. *)
From Stdlib Require Import ZArith Lia.
From stdpp Require Import base list gmap.
From S2P Require Import Prelude KString XfsFormat Block.

Section confined.
Context {W : Type} (d : k64_block_device_t W) `{!BlockDriver d} (G : geometry_ok d).

(** C27: Whatever its arguments and its outcome, a write through a device
    leaves every sector outside the device's own range unchanged; it succeeds
    only when all sectors it was given lie in the range, and then they hold
    the data and no other sector changed. *)
Theorem block_write_confined w lba n bytes ok w' : 0 <= lba -> 0 <= n ->
  length bytes = (Z.to_nat n * Z.to_nat (block_size d))%nat -> bytes_ok bytes ->
  k64_block_write d w lba n bytes = (ok, w') ->
  (forall l, l < start_lba d \/ start_lba d + block_count d <= l -> sector w' l = sector w l) /\
  (ok = true -> lba + n <= block_count d /\
     (forall k, (k < Z.to_nat n)%nat -> sector w' (start_lba d + lba + Z.of_nat k) =
        slice bytes (k * Z.to_nat (block_size d)) (Z.to_nat (block_size d))) /\
     (forall l, l < start_lba d + lba \/ start_lba d + lba + n <= l -> sector w' l = sector w l)).
Proof.
  intros Hl Hn Hlen Hok Hw. pose proof (k64_block_write_frame d G w lba n bytes ok w' Hw Hl) as Hf. split.
  - intros l Hout. revert Hw. unfold k64_block_write.
    destruct (write d) as [wr|] eqn:Hwr; [|by intros [= <- <-]].
    destruct (_ || _); [by intros [= <- <-]|].
    destruct (_ || _) eqn:Hb; [by intros [= <- <-]|]. apply orb_false_iff in Hb as [Hb1 Hb2].
    intros _. apply Hf. lia.
  - intros ->. destruct (k64_block_write_true d G w lba n bytes w' Hw Hl Hn Hlen Hok) as [Hin Hdata]. done.
Qed.
End confined.

(** ** The registry *)
Section registry.
Context {W : Type}.
Implicit Types r : registry W.

Definition registered r : list (k64_block_device_t W) := take (block_device_count r) (block_devices r).

Record registry_ok r : Prop := {
  ro_length : length (block_devices r) = Z.to_nat K64_MAX_BLOCK_DEVICES;
  ro_count : (block_device_count r <= Z.to_nat K64_MAX_BLOCK_DEVICES)%nat;
  ro_next : 0 < next_block_id r <= 1 + Z.of_nat (block_device_count r);
  ro_ids : forall i d, registered r !! i = Some d -> 0 < id d < next_block_id r;
  ro_nodup : forall i j d e, registered r !! i = Some d -> registered r !! j = Some e -> id d = id e -> i = j
}.

Lemma k64_block_init_ok r : registry_ok (k64_block_init r).
Proof. split; cbn; [by rewrite length_replicate|lia|lia|by intros i d|by intros i j d e]. Qed.

Lemma registered_lookup r i d : registered r !! i = Some d <->
  (i < block_device_count r)%nat /\ block_devices r !! i = Some d.
Proof. unfold registered. rewrite lookup_take_Some. tauto. Qed.

(** A device appended with the next number. *)
Lemma registry_ok_append r r' d : registry_ok r -> (block_device_count r < Z.to_nat K64_MAX_BLOCK_DEVICES)%nat ->
  id d = next_block_id r -> block_devices r' = <[block_device_count r := d]> (block_devices r) ->
  block_device_count r' = S (block_device_count r) -> next_block_id r' = u64 (next_block_id r + 1) ->
  registry_ok r'.
Proof.
  intros [Hl Hc Hn Hi Hd] Hroom Hid Hds Hcnt Hnx. unfold K64_MAX_BLOCK_DEVICES in *.
  rewrite u64_small in Hnx by lia.
  assert (Hreg : forall i e, registered r' !! i = Some e ->
    (i = block_device_count r /\ e = d) \/ ((i < block_device_count r)%nat /\ registered r !! i = Some e)).
  { intros i e. rewrite registered_lookup, Hds, Hcnt. intros [Hlt He].
    destruct (decide (i = block_device_count r)) as [->|Hne].
    - left. rewrite list_lookup_insert_eq in He by lia. by injection He.
    - right. rewrite list_lookup_insert_ne in He by done. split; [lia|]. rewrite registered_lookup. split; [lia|done]. }
  split.
  - by rewrite Hds, length_insert.
  - rewrite Hcnt. unfold K64_MAX_BLOCK_DEVICES. lia.
  - rewrite Hcnt, Hnx. lia.
  - intros i e [[-> ->]|[_ He]]%Hreg; rewrite Hnx; [lia|]. specialize (Hi i e He). lia.
  - intros i j e f [[-> ->]|[Hi1 He]]%Hreg [[-> ->]|[Hj1 Hf]]%Hreg Heq; [done| | |by eapply Hd].
    + specialize (Hi j f Hf). lia.
    + specialize (Hi i e He). lia.
Qed.

(** A device that keeps its number is changed in place. *)
Lemma registry_ok_same r r' : registry_ok r -> length (block_devices r') = length (block_devices r) ->
  block_device_count r' = block_device_count r -> next_block_id r' = next_block_id r ->
  (forall i d', block_devices r' !! i = Some d' -> exists d, block_devices r !! i = Some d /\ id d' = id d) ->
  registry_ok r'.
Proof.
  intros [Hl Hc Hn Hi Hd] Hlen Hcnt Hnx Hsame. split; [by rewrite Hlen|by rewrite Hcnt|by rewrite Hnx, Hcnt| |].
  - intros i d'. rewrite registered_lookup, Hcnt, Hnx. intros [Hlt Hd'].
    destruct (Hsame i d' Hd') as (d & He & ->). apply (Hi i d). by rewrite registered_lookup.
  - intros i j d' e'. rewrite !registered_lookup, Hcnt. intros [H1 Hd'] [H2 He'] Heq.
    destruct (Hsame i d' Hd') as (d & H3 & Hi1), (Hsame j e' He') as (e & H4 & Hi2).
    apply (Hd i j d e); [by rewrite registered_lookup..|congruence].
Qed.

Lemma register_ok r name source size count wr ctx rd wt : registry_ok r ->
  let '(i, r') := k64_block_register_device r name source size count wr ctx rd wt in
  registry_ok r' /\ forall k, i = Some k -> k = block_device_count r /\
    exists d, block_devices r' !! k = Some d /\ start_lba d = 0 /\ block_count d = count /\ block_size d = size /\
      read d = rd /\ write d = wt /\ context d = ctx /\ writable d = wr /\ online d = true.
Proof.
  intros R. unfold k64_block_register_device. destruct (_ || _) eqn:Hg; [done|].
  apply orb_false_iff in Hg as [[[Hroom _]%orb_false_iff _]%orb_false_iff _]. apply Z.leb_gt in Hroom.
  split.
  - eapply registry_ok_append; [done| | |reflexivity|reflexivity|reflexivity]; [|reflexivity].
    unfold K64_MAX_BLOCK_DEVICES in *. lia.
  - intros k [= <-]. split; [done|]. eexists. cbn [block_devices]. rewrite list_lookup_insert_eq; [by split_and!|].
    rewrite (ro_length _ R). unfold K64_MAX_BLOCK_DEVICES in *. lia.
Qed.

Lemma unregister_ok r name : registry_ok r -> registry_ok (k64_block_unregister_device r name).
Proof.
  intros R. eapply registry_ok_same; [done| |done|done|]; cbn [block_devices k64_block_unregister_device].
  - rewrite length_app, length_map, <- length_app. by rewrite take_drop.
  - intros i d'. set (l1 := take _ _). set (l2 := drop _ _). intros Hd'.
    assert (Hsplit : block_devices r = l1 ++ l2) by (symmetry; apply take_drop). rewrite Hsplit.
    assert (Hcases : (exists d, l1 !! i = Some d /\ d' = if negb (streq (Block.name d) name) then d else take_offline d)
      \/ ((length l1 <= i)%nat /\ l2 !! (i - length l1)%nat = Some d')).
    { apply lookup_app_Some in Hd' as [Hd'|[Hge Hd']].
      - left. rewrite list_lookup_fmap in Hd'. destruct (l1 !! i) as [d|]; [|done].
        exists d. by injection Hd' as <-.
      - right. by rewrite length_map in *. }
    destruct Hcases as [(d & Hd & ->)|[Hge Hd]].
    + exists d. split; [by apply lookup_app_l_Some|]. by destruct (negb _).
    + exists d'. split; [|done]. by rewrite lookup_app_r.
Qed.

Lemma register_partition_ok r parent number type start count : registry_ok r ->
  registry_ok (register_partition r parent number type start count).2.
Proof.
  intros R. unfold register_partition. destruct (_ || _); [done|]. destruct (32 <=? _); [done|].
  destruct (partition_name_exists _ _); [done|].
  pose proof (register_ok r (Some (copy_chars 31 (Block.name parent) ++ [112; u8 (48 + number)]))
    (Some (Block.source parent)) (Block.block_size parent) count (Block.writable parent)
    (Block.context parent) (Block.read parent) (Block.write parent) R) as H.
  destruct (k64_block_register_device _ _ _ _ _ _ _ _ _) as [[i|] r1]; [|apply H]. destruct H as [R1 H].
  destruct (H i eq_refl) as (_ & d & Hd & _). rewrite Hd. cbn [snd].
  eapply registry_ok_same; [exact R1|apply length_insert|done|done|]. cbn [block_devices].
  intros k e He. destruct (decide (i = k)) as [<-|Hne].
  - rewrite list_lookup_insert_eq in He by (by eapply lookup_lt_Some). injection He as <-. by exists d.
  - rewrite list_lookup_insert_ne in He by done. by exists e.
Qed.

Lemma scan_ok r dev : registry_ok r -> registry_ok (k64_block_scan_partitions r dev).
Proof.
  intros R. unfold k64_block_scan_partitions. destruct (_ || _); [done|].
  destruct (k64_block_read _ _ _ _ _) as [ok mbr]. destruct (_ || _); [done|].
  generalize ([0; 1; 2; 3]%nat). intros l. revert r R. induction l as [|i l IH]; intros r R; [done|].
  cbn [fold_left]. apply IH. unfold scan_entry. destruct (_ || _); [done|]. by apply register_partition_ok.
Qed.

(** What the kernel does to the registry. *)
Inductive registry_op : Type :=
  | Register (name source : option (list Z)) (size count : Z) (wr : bool) (ctx : Z)
      (rd : option (k64_block_read_fn W)) (wt : option (k64_block_write_fn W))
  | Unregister (name : list Z)
  | Scan (dev : k64_block_device_t W)
  | WriteMbr (dev : k64_block_device_t W)
  | Hardware (w : W).

Definition registry_step r (o : registry_op) : registry W :=
  match o with
  | Register name source size count wr ctx rd wt =>
      (k64_block_register_device r name source size count wr ctx rd wt).2
  | Unregister name => k64_block_unregister_device r name
  | Scan dev => k64_block_scan_partitions r dev
  | WriteMbr dev => (k64_block_write_k64_mbr r dev).2
  | Hardware w => mk_registry (block_devices r) (block_device_count r) (next_block_id r) w
  end.

(** However devices come and go, the registry holds at most its 32
    devices, each with its own number. *)
Theorem registry_invariant r os : registry_ok (fold_left registry_step os (k64_block_init r)).
Proof.
  assert (H : forall r1, registry_ok r1 -> registry_ok (fold_left registry_step os r1));
    [|apply H, k64_block_init_ok].
  induction os as [|o os IH]; intros r1 R; [done|]. cbn [fold_left]. apply IH.
  assert (Hhw : forall w, registry_ok (mk_registry (block_devices r1) (block_device_count r1) (next_block_id r1) w))
    by (intros w; by destruct R).
  destruct o as [name source size count wr ctx rd wt|name|dev|dev|w]; cbn [registry_step].
  - pose proof (register_ok r1 name source size count wr ctx rd wt R) as H.
    destruct (k64_block_register_device _ _ _ _ _ _ _ _ _). apply H.
  - by apply unregister_ok.
  - by apply scan_ok.
  - unfold k64_block_write_k64_mbr. destruct (_ || _); [done|].
    destruct (k64_block_write _ _ _ _ _) as [[] w]; cbn [negb snd]; [|apply Hhw]. apply scan_ok, Hhw.
  - apply Hhw.
Qed.
End registry.

(** ** The boot sector *)
Lemma testbit_255 i : 0 <= i -> Z.testbit 255 i = (i <? 8).
Proof.
  intros Hi. change 255 with (Z.ones 8). destruct (Z.ltb_spec i 8); [by apply Z.ones_spec_low|].
  by apply Z.ones_spec_high.
Qed.

Lemma u8_land x : u8 (Z.land x 255) = Z.land x 255.
Proof.
  apply u8_small. change 255 with (Z.ones 8). rewrite Z.land_ones by lia. apply (Z.mod_pos_bound x (2 ^ 8)). lia.
Qed.

Lemma read_write_u32le v rest : 0 <= v < 4294967296 -> read_u32le (write_u32le v ++ rest) = v.
Proof.
  intros Hv. unfold read_u32le, write_u32le. cbn [app nth]. rewrite !u8_land. apply Z.bits_inj'. intros i Hi.
  assert (Hhigh : 32 <= i -> Z.testbit v i = false).
  { intros Hge. destruct (decide (v = 0)) as [->|]; [apply Z.bits_0|]. apply Z.bits_above_log2; [lia|].
    assert (Z.log2 v < 32); [|lia]. apply Z.log2_lt_pow2; lia. }
  rewrite !Z.lor_spec, !Z.shiftl_spec, !Z.land_spec by lia.
  assert (Hpart : forall k, 0 <= k -> Z.testbit (Z.shiftr v k) (i - k) && Z.testbit 255 (i - k) =
    (k <=? i) && (i <? k + 8) && Z.testbit v i).
  { intros k Hk. destruct (Z.leb_spec k i) as [Hle|Hgt].
    - rewrite Z.shiftr_spec, testbit_255 by lia. replace (i - k + k) with i by lia.
      destruct (Z.ltb_spec (i - k) 8), (Z.ltb_spec i (k + 8)); try lia; by rewrite ?andb_true_r, ?andb_false_r.
    - rewrite !(Z.testbit_neg_r _ (i - k)) by lia. done. }
  rewrite !Hpart by lia. rewrite testbit_255 by lia.
  destruct (Z.testbit v i) eqn:Hb.
  - assert (i < 32) by (destruct (Z.lt_ge_cases i 32) as [|Hge]; [assumption|exfalso; specialize (Hhigh Hge); congruence]).
    destruct (Z.ltb_spec i 8), (Z.leb_spec 8 i), (Z.ltb_spec i (8 + 8)), (Z.leb_spec 16 i),
      (Z.ltb_spec i (16 + 8)), (Z.leb_spec 24 i), (Z.ltb_spec i (24 + 8)); try lia; done.
  - by rewrite !andb_false_r.
Qed.

(** The boot sector with the bytes [c] as the size of its partition. *)
Definition mbr_with (c : list Z) : list Z :=
  splice (splice (splice (splice (zeros 512) 446 [0x80; 0x00; 0x02; 0x00; 0x83; 0xFF; 0xFF; 0xFF])
    454 (write_u32le K64_MBR_PARTITION_LBA)) 458 c) 510 [0x55; 0xAA].

Lemma mbr_fields a b c d : let m := mbr_with [a; b; c; d] in
  length m = 512%nat /\ nth 510 m 0 = 0x55 /\ nth 511 m 0 = 0xAA /\ nth 450 m 0 = 0x83 /\
  take 4 (drop 454 m) = write_u32le 2048 /\ take 4 (drop 458 m) = [a; b; c; d] /\
  nth 466 m 0 = 0 /\ nth 482 m 0 = 0 /\ nth 498 m 0 = 0.
Proof. intros m. unfold m. vm_compute. by split_and!. Qed.

Lemma read_u32le_take p : read_u32le p = read_u32le (take 4 p).
Proof. unfold read_u32le. by destruct p as [|? [|? [|? [|? ?]]]]. Qed.

Lemma k64_mbr_fields n : 0 <= n < 4294967296 -> let m := k64_mbr n in
  length m = 512%nat /\ bytes_ok m /\ nth 510 m 0 = 0x55 /\ nth 511 m 0 = 0xAA /\ nth 450 m 0 = 0x83 /\
  read_u32le (drop 454 m) = 2048 /\ read_u32le (drop 458 m) = n /\
  nth 466 m 0 = 0 /\ nth 482 m 0 = 0 /\ nth 498 m 0 = 0.
Proof.
  intros Hn. cbv zeta. change (k64_mbr n) with (mbr_with (write_u32le (u32 n))).
  assert (Hok : bytes_ok (mbr_with (write_u32le (u32 n)))).
  { unfold mbr_with, write_u32le. repeat apply bytes_ok_splice; try apply zeros_bytes_ok;
      repeat (apply Forall_cons_2; [apply u8_range || by vm_compute|]); apply Forall_nil_2. }
  destruct (mbr_fields (u8 (Z.land (u32 n) 0xFF)) (u8 (Z.land (Z.shiftr (u32 n) 8) 0xFF))
    (u8 (Z.land (Z.shiftr (u32 n) 16) 0xFF)) (u8 (Z.land (Z.shiftr (u32 n) 24) 0xFF)))
    as (H1 & H2 & H3 & H4 & H5 & H6 & H7 & H8 & H9).
  fold (write_u32le (u32 n)) in H1, H2, H3, H4, H5, H6, H7, H8, H9.
  split; [exact H1|]. split; [exact Hok|]. split; [exact H2|]. split; [exact H3|]. split; [exact H4|].
  split; [rewrite read_u32le_take, H5; reflexivity|]. split; [|exact (conj H7 (conj H8 H9))].
  rewrite read_u32le_take, H6. rewrite u32_small by done.
  rewrite <- (app_nil_r (write_u32le n)). by apply read_write_u32le.
Qed.

#[local] Opaque k64_mbr.

Section mbr.
Context {W : Type} (dev : k64_block_device_t W) `{!BlockDriver dev} (G : geometry_ok dev).
Implicit Types r : registry W.

Definition partition_name (i : Z) : list Z := copy_chars 31 (name dev) ++ [112; u8 (48 + i)].

(** A scan of the boot sector registers its one partition. *)
Lemma scan_mbr r n : registry_ok r -> 0 < n -> n = block_count dev - 2048 -> block_count dev <= 4294967295 ->
  (block_device_count r < Z.to_nat K64_MAX_BLOCK_DEVICES)%nat -> (length (copy_chars 31 (name dev)) < 29)%nat ->
  is_partition dev = false -> read dev <> None -> block_size dev = 512 ->
  k64_block_find_device_by_name r (partition_name 1) = None ->
  exists part, let r' := fold_left (scan_entry dev (k64_mbr n)) [0; 1; 2; 3]%nat r in
    block_devices r' !! block_device_count r = Some part /\
    block_device_count r' = S (block_device_count r) /\ is_partition part = true /\
    start_lba part = 2048 /\ block_count part = n /\
    partition_type part = 0x83 /\ block_size part = block_size dev /\
    read part = read dev /\ write part = write dev /\ context part = context dev.
Proof.
  intros R Hpos Hneq Hmax Hroom Hname Hp Hrd Hbs Hfresh.
  destruct (k64_mbr_fields n ltac:(lia)) as (_ & _ & _ & _ & Ht & Hst & Hct & H2 & H3 & H4).
  cbn [fold_left]. unfold scan_entry. cbn [Nat.add Nat.mul]. rewrite H2, H3, H4, Ht, Hst, Hct. cbn [Z.eqb orb].
  rewrite (proj2 (Z.eqb_neq n 0)), (proj2 (Z.leb_gt _ 2048)) by lia. cbn [orb].
  replace (block_count dev - 2048 <? n) with false by (symmetry; apply Z.ltb_ge; lia).
  change (u8 (Z.of_nat 0 + 1)) with 1. unfold register_partition. rewrite Hp. cbn [orb].
  rewrite (proj2 (Z.eqb_neq n 0)), (proj2 (Z.leb_gt K64_MAX_BLOCK_DEVICES _)) by lia. cbn [orb].
  rewrite (proj2 (Z.leb_gt 32 _)) by lia. fold (partition_name 1).
  unfold partition_name_exists. rewrite Hfresh.
  pose proof (register_ok r (Some (partition_name 1)) (Some (Block.source dev)) (Block.block_size dev) n
    (Block.writable dev) (Block.context dev) (Block.read dev) (Block.write dev) R) as Hreg.
  clear H2 H3 H4 Ht Hst Hct. unfold k64_block_register_device in *. rewrite (proj2 (Z.leb_gt K64_MAX_BLOCK_DEVICES _)) in * by lia.
  destruct (read dev) as [rd|]; [|done]. rewrite Hbs, (proj2 (Z.eqb_neq n 0)) in * by lia. cbn [orb Z.eqb] in *.
  destruct Hreg as [_ Hreg]. destruct (Hreg _ eq_refl) as (_ & d & Hd & Hs0 & Hc0 & Hb0 & Hr0 & Hw0 & Hx0 & _).
  rewrite Hd. cbn [snd block_devices block_device_count].
  exists (as_partition d 2048 131). rewrite list_lookup_insert_eq by (by eapply lookup_lt_Some).
  by split_and!.
Qed.

(** Partitioning a disk and scanning it are inverse: when
    [k64_block_write_k64_mbr] returns true, on a disk whose boot sector can be
    read, the registry has a new device over the same driver, the partition
    that begins at sector 2048 and ends with the disk. *)
Theorem write_mbr_then_scan r r' : registry_ok r -> start_lba dev = 0 ->
  (forall w, fst (k64_block_read dev w 0 1 (zeros 512)) = true) ->
  (block_device_count r < Z.to_nat K64_MAX_BLOCK_DEVICES)%nat -> (length (copy_chars 31 (name dev)) < 29)%nat ->
  k64_block_find_device_by_name r (partition_name 1) = None ->
  k64_block_write_k64_mbr r dev = (true, r') ->
  exists part, block_devices r' !! block_device_count r = Some part /\
    block_device_count r' = S (block_device_count r) /\ is_partition part = true /\
    start_lba part = K64_MBR_PARTITION_LBA /\ block_count part = block_count dev - K64_MBR_PARTITION_LBA /\
    partition_type part = 0x83 /\ block_size part = block_size dev /\
    read part = read dev /\ write part = write dev /\ context part = context dev.
Proof.
  intros R Hstart Hread Hroom Hname Hfresh. unfold k64_block_write_k64_mbr.
  destruct (_ || _) eqn:Hg; [done|]. rewrite !orb_false_iff in Hg.
  destruct Hg as [[[[[Hp Ho] Hwr] Hbs%negb_false_iff%Z.eqb_eq] Hlba%Z.leb_gt] Hmax%Z.ltb_ge].
  unfold K64_MBR_PARTITION_LBA in *.
  destruct (k64_block_write _ _ _ _ _) as [[] w1] eqn:Hww; cbn [negb]; [|done].
  intros [= <-]. set (n := block_count dev - 2048) in *. assert (Hn : 0 <= n < 4294967296) by lia.
  destruct (k64_mbr_fields n Hn) as (Hl & Hok & H510 & H511 & _).
  assert (Hsec : sector w1 0 = k64_mbr n).
  { destruct (k64_block_write_true dev G (hw r) 0 1 (k64_mbr n) w1 Hww) as [_ Hd]; [lia|lia| |done|].
    - rewrite Hl, Hbs. done.
    - specialize (Hd 0%nat ltac:(lia)). rewrite Hstart, Hbs in Hd. rewrite !Z.add_0_l, Nat.mul_0_l in Hd.
      change (Z.of_nat 0) with 0 in Hd. rewrite Hd. unfold slice. rewrite drop_0. apply take_ge. rewrite Hl. lia. }
  unfold k64_block_scan_partitions. rewrite Hp, Ho, Hbs, Z.eqb_refl. cbn [negb orb hw].
  specialize (Hread w1). destruct (k64_block_read dev w1 0 1 (zeros 512)) as [ok mbr] eqn:Hr.
  cbn [fst] in Hread. subst ok. destruct (k64_block_read_true dev G w1 0 1 _ _ Hr) as [Hmbr _]; [lia|lia|].
  change (seq 0 (Z.to_nat 1)) with [0%nat] in Hmbr. cbn [map concat] in Hmbr.
  rewrite Hstart in Hmbr. change (0 + 0 + Z.of_nat 0) with 0 in Hmbr. rewrite Hsec, app_nil_r in Hmbr. rewrite Hmbr, H510, H511. cbn [negb Z.eqb orb].
  assert (Hrd : read dev <> None).
  { intros Hnone. unfold k64_block_read in Hr. rewrite Hnone in Hr. discriminate Hr. }
  clear Hmbr H510 H511 Hl Hok Hsec Hr Hww.
  destruct (read dev) as [rd|] eqn:Hrd'; [|done]. cbn [orb negb Pos.eqb]. rewrite <- Hrd', <- Hbs.
  apply (scan_mbr (mk_registry (block_devices r) (block_device_count r) (next_block_id r) w1) n); try done.
  - by destruct R.
  - lia.
  - congruence.
Qed.
End mbr.

(** * A memory disk: a concrete block driver *)
(** The sectors that have been written. *)
Abbreviation ram := (gmap Z (list Z)).

Section ramdisk.
Variables (size : nat) (sectors : Z).

(** The disk is an array of bytes that starts as zeros: sectors never written
    read as zeros, and a sector always has [size] bytes. *)
Definition ram_sector (w : ram) (lba : Z) : list Z :=
  match w !! lba with
  | Some s => map u8 (take size (s ++ zeros size))
  | None => zeros size
  end.

Fixpoint ram_get (w : ram) (lba : Z) (n : nat) : list Z :=
  match n with
  | O => []
  | S n => ram_sector w lba ++ ram_get w (lba + 1) n
  end.

Fixpoint ram_put (w : ram) (lba : Z) (n : nat) (bytes : list Z) : ram :=
  match n with
  | O => w
  | S n => ram_put (<[lba := take size bytes]> w) (lba + 1) n (drop size bytes)
  end.

Definition disk_read : k64_block_read_fn ram := fun w _ lba count buf =>
  if sectors <? lba + count then (false, buf) else (true, ram_get w lba (Z.to_nat count)).

Definition disk_write : k64_block_write_fn ram := fun w _ lba count buf =>
  if sectors <? lba + count then (false, w) else (true, ram_put w lba (Z.to_nat count) buf).

(** The device registered on the disk. *)
Definition ram_device : k64_block_device_t ram :=
  mk_dev 1 (str "mem0") (str "unit") (Z.of_nat size) sectors 0 0 false true true 0
    (Some disk_read) (Some disk_write).

Lemma map_u8_id l : bytes_ok l -> map u8 l = l.
Proof. induction 1 as [|b l Hb _ IH]; simpl; [done|]. by rewrite IH, u8_small. Qed.

Lemma map_u8_ok l : bytes_ok (map u8 l).
Proof. apply Forall_map, Forall_true. intros. apply u8_range. Qed.

Lemma ram_sector_length w l : length (ram_sector w l) = size.
Proof. unfold ram_sector. destruct (w !! l); rewrite ?length_map; len. Qed.

Lemma ram_sector_bytes w l : bytes_ok (ram_sector w l).
Proof. unfold ram_sector. destruct (w !! l); [apply map_u8_ok|apply zeros_bytes_ok]. Qed.

Lemma ram_get_concat w lba n :
  ram_get w lba n = concat (map (fun k => ram_sector w (lba + Z.of_nat k)) (seq 0 n)).
Proof.
  revert lba. induction n as [|n IH]; intros lba; [done|].
  cbn [ram_get seq map concat]. rewrite Z.add_0_r. f_equal.
  rewrite IH, <- seq_shift, map_map. f_equal. apply map_ext. intros k. f_equal. lia.
Qed.

Lemma ram_get_length w lba n : length (ram_get w lba n) = (n * size)%nat.
Proof.
  revert lba. induction n as [|n IH]; intros lba; [done|].
  cbn [ram_get]. rewrite length_app, IH, ram_sector_length. lia.
Qed.

Lemma ram_get_bytes w lba n : bytes_ok (ram_get w lba n).
Proof.
  revert lba. induction n as [|n IH]; intros lba; [constructor|].
  apply Forall_app_2; [apply ram_sector_bytes|apply IH].
Qed.

Lemma ram_put_other w lba n bytes l : l < lba \/ lba + Z.of_nat n <= l ->
  ram_sector (ram_put w lba n bytes) l = ram_sector w l.
Proof.
  revert w lba bytes. induction n as [|n IH]; intros w lba bytes Hl; [done|].
  cbn [ram_put]. rewrite IH by lia. unfold ram_sector. by rewrite lookup_insert_ne by lia.
Qed.

Lemma ram_put_sector w lba n bytes k : length bytes = (n * size)%nat -> bytes_ok bytes ->
  (k < n)%nat -> ram_sector (ram_put w lba n bytes) (lba + Z.of_nat k) = slice bytes (k * size) size.
Proof.
  revert w lba bytes k. induction n as [|n IH]; intros w lba bytes k Hl Hb Hk; [lia|].
  cbn [ram_put]. simpl in Hl. destruct k as [|k].
  - rewrite Z.add_0_r, ram_put_other by lia. unfold ram_sector.
    rewrite lookup_insert_eq, take_app_le by len.
    rewrite take_take, Nat.min_id, map_u8_id by auto using Forall_take. done.
  - replace (lba + Z.of_nat (S k)) with (lba + 1 + Z.of_nat k) by lia.
    rewrite IH; [|len|by apply Forall_drop|lia]. unfold slice. by rewrite drop_drop.
Qed.

(** The memory disk keeps the contract of a block driver. *)
#[global] Program Instance ram_driver : BlockDriver ram_device := {| sector := ram_sector |}.
Next Obligation. intros. cbn. by rewrite Nat2Z.id, ram_sector_length. Qed.
Next Obligation. intros. apply ram_sector_bytes. Qed.
Next Obligation.
  intros rd w lba n buf buf' [= <-] Hn. unfold disk_read. destruct (_ <? _); [done|].
  intros [= <-]. apply ram_get_concat.
Qed.
Next Obligation.
  cbn. rewrite Nat2Z.id. intros rd w lba n buf ok buf' [= <-] Hn. unfold disk_read.
  destruct (_ <? _); intros [= <- <-] Hl Hb; [done|]. rewrite ram_get_length.
  split; [done|apply ram_get_bytes].
Qed.
Next Obligation.
  cbn. rewrite Nat2Z.id. intros wr w lba n bytes w' [= <-] Hn. unfold disk_write.
  destruct (_ <? _); [done|]. intros [= <-] Hl Hb k Hk. by apply ram_put_sector.
Qed.
Next Obligation.
  cbn. intros wr w lba n bytes ok w' [= <-]. unfold disk_write.
  destruct (_ <? _); intros [= <- <-] l Hl; [done|].
  destruct (decide (0 <= n)); [apply ram_put_other; lia|].
  by rewrite Z2Nat.nonpos by lia.
Qed.

Lemma ram_geometry : (0 < size)%nat -> 0 <= sectors <= 18446744073709551616 ->
  geometry_ok ram_device.
Proof. intros. split; cbn; lia. Qed.
End ramdisk.
