(* ===== verification/Cache.v ===== *)
(** * The K64XFS block cache ([k64_xfs_cache.c], [k64_xfs_cache.h])

    Sixty-four 4 KiB entries with dirty bits, replaced least recently used
    first.  The computations run over the cache and the hardware state behind
    the block device [dev]. *)
From Stdlib Require Import ZArith Lia.
From stdpp Require Import base list.
From S2P Require Import Prelude Exec KString XfsFormat Block.

Definition K64_XFS_CACHE_BLOCKS : Z := 64.

Record k64_xfs_cache_entry_t := mk_entry {
  valid : bool;
  dirty : bool;
  block_no : Z;
  last_used_tick : Z;
  data : list Z
}.

Record k64_xfs_cache_t := mk_cache {
  entries : list k64_xfs_cache_entry_t;
  clock : Z
}.

Definition zero_entry : k64_xfs_cache_entry_t := mk_entry false false 0 0 (zeros BLOCK).

(** the whole cache zeroed *)
Definition k64_xfs_cache_init : k64_xfs_cache_t :=
  mk_cache (replicate (Z.to_nat K64_XFS_CACHE_BLOCKS) zero_entry) 0.

(** The sectors of file-system block [fs_block], or [None] where
    [xfs_raw_read] and [xfs_raw_write] refuse. *)
Definition raw_sectors {W} (dev : k64_block_device_t W) (fs_block : Z) : option (Z * Z) :=
  if (block_size dev =? 0) || negb (K64_XFS_BLOCK_SIZE mod block_size dev =? 0) then None
  else
    let sectors := K64_XFS_BLOCK_SIZE / block_size dev in
    if UINT64_MAX / sectors <? fs_block then None
    else Some (u64 (fs_block * sectors), sectors).

Definition xfs_raw_read {W} (dev : k64_block_device_t W) (w : W) (fs_block : Z) (out : list Z)
    : bool * list Z :=
  match raw_sectors dev fs_block with
  | None => (false, out)
  | Some (lba, sectors) => k64_block_read dev w lba sectors out
  end.

Definition xfs_raw_write {W} (dev : k64_block_device_t W) (w : W) (fs_block : Z) (bytes : list Z)
    : bool * W :=
  match raw_sectors dev fs_block with
  | None => (false, w)
  | Some (lba, sectors) => k64_block_write dev w lba sectors bytes
  end.

Fixpoint find_entry (l : list k64_xfs_cache_entry_t) (i : nat) (b : Z) : option nat :=
  match l with
  | [] => None
  | e :: l => if valid e && (block_no e =? b) then Some i else find_entry l (S i) b
  end.

Definition cache_find (cache : k64_xfs_cache_t) (b : Z) : option nat :=
  find_entry (entries cache) 0 b.

(** The loop of [cache_victim]: [inl i] for an entry that is not valid, which
    is returned at once, [inr i] for the least recently used one. *)
Fixpoint victim_scan (l : list k64_xfs_cache_entry_t) (i victim : nat) (oldest : Z) : nat + nat :=
  match l with
  | [] => inr victim
  | e :: l =>
      if negb (valid e) then inl i
      else if last_used_tick e <? oldest then victim_scan l (S i) i (last_used_tick e)
      else victim_scan l (S i) victim oldest
  end.

Section cache.
Context {W : Type} (dev : k64_block_device_t W).

Record cstate := mk_cstate { c_cache : k64_xfs_cache_t; c_hw : W }.

Definition set_entry (i : nat) (e : k64_xfs_cache_entry_t) (s : cstate) : cstate :=
  mk_cstate (mk_cache (<[i := e]> (entries (c_cache s))) (clock (c_cache s))) (c_hw s).

Definition get_entry (i : nat) : M cstate k64_xfs_cache_entry_t := fun s =>
  deref (entries (c_cache s) !! i) s.

(** [++cache->clock] *)
Definition tick : M cstate Z := fun s =>
  let c := u64 (clock (c_cache s) + 1) in
  Ret c (mk_cstate (mk_cache (entries (c_cache s)) c) (c_hw s)).

Definition raw_write (b : Z) (bytes : list Z) : M cstate unit := fun s =>
  let '(ok, w) := xfs_raw_write dev (c_hw s) b bytes in
  check ok (mk_cstate (c_cache s) w).

(** Reads into [entries[i].data]; the buffer keeps what a failed read left. *)
Definition raw_read_into (i : nat) (b : Z) : M cstate unit :=
  e ← get_entry i;
  s ← gets (fun s => s);
  let '(ok, out) := xfs_raw_read dev (c_hw s) b (data e) in
  modify (set_entry i (mk_entry (valid e) (dirty e) (block_no e) (last_used_tick e) out)) ;;
  check ok.

Definition cache_victim : M cstate nat :=
  s ← gets (fun s => s);
  match victim_scan (entries (c_cache s)) 0 0 UINT64_MAX with
  | inl i => mret i
  | inr v =>
      e ← get_entry v;
      (if dirty e then raw_write (block_no e) (data e) else mret tt) ;;
      modify (set_entry v (mk_entry false false (block_no e) (last_used_tick e) (data e))) ;;
      mret v
  end.

Definition k64_xfs_cache_read (b : Z) : M cstate (list Z) :=
  s ← gets (fun s => s);
  i ← match cache_find (c_cache s) b with
      | Some i => mret i
      | None =>
          i ← cache_victim;
          raw_read_into i b ;;
          e ← get_entry i;
          modify (set_entry i (mk_entry true false b (last_used_tick e) (data e))) ;;
          mret i
      end;
  t ← tick;
  e ← get_entry i;
  modify (set_entry i (mk_entry (valid e) (dirty e) (block_no e) t (data e))) ;;
  mret (data e).

Definition k64_xfs_cache_write (b : Z) (bytes : list Z) : M cstate unit :=
  s ← gets (fun s => s);
  i ← match cache_find (c_cache s) b with
      | Some i => mret i
      | None =>
          i ← cache_victim;
          e ← get_entry i;
          modify (set_entry i (mk_entry true (dirty e) b (last_used_tick e) (data e))) ;;
          mret i
      end;
  t ← tick;
  e ← get_entry i;
  modify (set_entry i (mk_entry (valid e) true (block_no e) t bytes)).

Definition flush_entry (i : Z) : M cstate unit :=
  e ← get_entry (Z.to_nat i);
  if valid e && dirty e then
    raw_write (block_no e) (data e) ;;
    modify (set_entry (Z.to_nat i)
      (mk_entry (valid e) false (block_no e) (last_used_tick e) (data e)))
  else mret tt.

Definition k64_xfs_cache_flush : M cstate unit :=
  for_loop (Z.to_nat K64_XFS_CACHE_BLOCKS) 0 flush_entry.
End cache.
Arguments mk_cstate {W}.
Arguments c_cache {W}.
Arguments c_hw {W}.
