(* ===== verification/CacheSpec.v ===== *)
(** * The block cache refines a flat store of blocks

    The abstract store of a cache over a device is [view]: a block's cached
    data if it is cached, its content on the device otherwise.  Under the
    invariant [cache_ok], reading returns the view and keeps it, writing
    updates it at one block, flushing makes the device equal to it, and no
    operation loses data when the device reports an error. *)
From Stdlib Require Import ZArith Lia.
From stdpp Require Import base list.
From S2P Require Import Prelude Exec KString XfsFormat Block Cache.

(** A 4 KiB block. *)
Definition block_ok (l : list Z) : Prop := length l = BLOCK /\ bytes_ok l.

Lemma zeros_block_ok : block_ok (zeros BLOCK).
Proof. split; [apply zeros_length|apply zeros_bytes_ok]. Qed.
#[export] Hint Resolve zeros_block_ok : k64.

(** Cutting a buffer in pieces of [n] bytes and gluing them together. *)
Lemma concat_slices {A} (l : list A) n m : length l = (m * n)%nat ->
  concat (map (fun k => slice l (k * n) n) (seq 0 m)) = l.
Proof.
  revert l. induction m as [|m IH]; intros l Hl.
  - simpl in *. by apply length_zero_iff_nil in Hl as ->.
  - cbn [seq map concat]. rewrite <- seq_shift, map_map. simpl in Hl.
    rewrite (map_ext _ (fun k => slice (drop n l) (k * n) n)).
    + rewrite IH by (rewrite length_drop; lia). unfold slice. by rewrite drop_0, take_drop.
    + intros k. unfold slice. rewrite drop_drop. f_equal.
Qed.

Lemma concat_map_length {A} (f : nat -> list A) n l :
  (forall k, In k l -> length (f k) = n) -> length (concat (map f l)) = (length l * n)%nat.
Proof.
  induction l as [|k l IH]; intros Hf; [done|]. simpl. rewrite length_app, IH.
  - by rewrite Hf by (by left).
  - intros j Hj. apply Hf. by right.
Qed.

(** The file-system blocks of a device, for a sector size that divides 4096. *)
Section device.
Context {W : Type} (dev : k64_block_device_t W) `{!BlockDriver dev}.

Definition sectors_per_block : Z := K64_XFS_BLOCK_SIZE / block_size dev.

Definition disk_block (w : W) (b : Z) : list Z :=
  concat (map (fun k => sector w (start_lba dev + b * sectors_per_block + Z.of_nat k))
            (seq 0 (Z.to_nat sectors_per_block))).

Record device_ok : Prop := {
  dv_geometry : geometry_ok dev;
  dv_divides : K64_XFS_BLOCK_SIZE mod block_size dev = 0
}.

(** The device refuses to read or to write block [b] in some state. *)
Definition read_fails (b : Z) : Prop := exists w buf, fst (xfs_raw_read dev w b buf) = false.
Definition write_fails (b : Z) : Prop := exists w bytes, fst (xfs_raw_write dev w b bytes) = false.
(** A device error on one of the first [n] blocks. *)
Definition device_fails (n : Z) : Prop := exists b, 0 <= b < n /\ (read_fails b \/ write_fails b).

Context (D : device_ok).

Lemma spb_spec : 0 < sectors_per_block /\ sectors_per_block * block_size dev = K64_XFS_BLOCK_SIZE.
Proof.
  destruct D as [[Hs _ _ _] Hd]. unfold sectors_per_block.
  pose proof (Z.div_mod K64_XFS_BLOCK_SIZE (block_size dev) ltac:(lia)) as Hdm.
  rewrite Hd in Hdm. unfold K64_XFS_BLOCK_SIZE in *. nia.
Qed.

Lemma spb_nat :
  (Z.to_nat sectors_per_block * Z.to_nat (block_size dev))%nat = BLOCK.
Proof.
  destruct spb_spec as [Hp Hm]. destruct D as [[Hs _ _ _] _].
  unfold BLOCK. rewrite <- Hm. rewrite Z2Nat.inj_mul by lia. done.
Qed.

Lemma disk_block_ok w b : block_ok (disk_block w b).
Proof.
  split.
  - unfold disk_block. rewrite (concat_map_length _ (Z.to_nat (block_size dev))).
    + rewrite length_seq. apply spb_nat.
    + intros k _. apply sector_length.
  - unfold disk_block. apply Forall_concat, Forall_map, Forall_true. intros. apply sector_bytes.
Qed.

Lemma raw_sectors_Some b lba n : raw_sectors dev b = Some (lba, n) -> 0 <= b ->
  lba = b * sectors_per_block /\ n = sectors_per_block.
Proof.
  unfold raw_sectors. fold sectors_per_block. destruct spb_spec as [Hp _].
  destruct (_ || _); [done|]. destruct (Z.ltb_spec (UINT64_MAX / sectors_per_block) b); [done|].
  intros [= <- <-] Hb. split; [|done]. apply u64_small. unfold UINT64_MAX in *.
  assert (b * sectors_per_block <= 18446744073709551615); [|nia].
  pose proof (Z.mul_div_le 18446744073709551615 sectors_per_block Hp). nia.
Qed.

Lemma raw_read_true w b buf buf' : xfs_raw_read dev w b buf = (true, buf') -> 0 <= b ->
  buf' = disk_block w b.
Proof.
  intros Hr Hb. revert Hr. unfold xfs_raw_read.
  destruct (raw_sectors dev b) as [[lba n]|] eqn:Hs; [|done].
  apply raw_sectors_Some in Hs as [-> ->]; [|done]. destruct spb_spec as [Hp _]. intros Hr.
  apply (k64_block_read_true dev (dv_geometry D)) in Hr as [-> _]; [|nia|lia].
  done.
Qed.

Lemma raw_read_buffer w b buf ok buf' : xfs_raw_read dev w b buf = (ok, buf') -> 0 <= b ->
  block_ok buf -> block_ok buf'.
Proof.
  intros Hr Hb [Hl Ho]. unfold xfs_raw_read in Hr.
  destruct (raw_sectors dev b) as [[lba n]|] eqn:Hs; [|by simplify_eq].
  apply raw_sectors_Some in Hs as [-> ->]; [|done]. destruct spb_spec as [Hp _].
  apply (k64_block_read_buffer dev) in Hr as [Hl' ?]; [|lia|by rewrite spb_nat|done].
  split; [congruence|done].
Qed.

Lemma raw_write_true w b bytes w' : xfs_raw_write dev w b bytes = (true, w') ->
  0 <= b -> block_ok bytes -> disk_block w' b = bytes.
Proof.
  intros Hr Hb [Hl Ho]. revert Hr. unfold xfs_raw_write.
  destruct (raw_sectors dev b) as [[lba n]|] eqn:Hs; [|done].
  apply raw_sectors_Some in Hs as [-> ->]; [|done]. destruct spb_spec as [Hp _]. intros Hr.
  apply (k64_block_write_true dev (dv_geometry D)) in Hr as [_ Hk]; [|nia|lia|by rewrite spb_nat|done].
  unfold disk_block. rewrite <- (concat_slices bytes (Z.to_nat (block_size dev)) (Z.to_nat sectors_per_block))
    by (by rewrite spb_nat).
  f_equal. apply map_ext_in. intros k [_ Hlt]%in_seq. rewrite <- Hk by lia. done.
Qed.

Lemma raw_write_frame w b bytes ok w' b' : xfs_raw_write dev w b bytes = (ok, w') ->
  0 <= b -> b' <> b -> disk_block w' b' = disk_block w b'.
Proof.
  intros Hr Hb Hne. revert Hr. unfold xfs_raw_write.
  destruct (raw_sectors dev b) as [[lba n]|] eqn:Hs; [|by intros [= <- <-]].
  apply raw_sectors_Some in Hs as [-> ->]; [|done]. destruct spb_spec as [Hp _]. intros Hr.
  unfold disk_block. f_equal. apply map_ext_in. intros k [_ Hlt]%in_seq.
  apply (k64_block_write_frame dev (dv_geometry D) _ _ _ _ _ _ Hr); [nia|].
  assert (b' < b \/ b < b') as [?|?] by lia; [left|right]; nia.
Qed.
End device.

(** ** Finding entries *)

Lemma find_entry_Some l i b k : find_entry l i b = Some k ->
  (i <= k)%nat /\ exists e, l !! (k - i)%nat = Some e /\ valid e = true /\ block_no e = b.
Proof.
  revert i. induction l as [|e l IH]; intros i; simpl; [done|].
  destruct (valid e && (block_no e =? b)) eqn:Hv.
  - intros [= <-]. apply andb_true_iff in Hv as [? ?%Z.eqb_eq].
    split; [lia|]. rewrite Nat.sub_diag. by exists e.
  - intros (? & f & ? & ?)%IH. split; [lia|]. exists f.
    by replace (k - i)%nat with (S (k - S i)) by lia.
Qed.

Lemma find_entry_None l i b : find_entry l i b = None <->
  forall e, e ∈ l -> valid e = true -> block_no e <> b.
Proof.
  revert i. induction l as [|e l IH]; intros i; simpl.
  - split; [|done]. intros _ e He. by apply not_elem_of_nil in He.
  - destruct (valid e && (block_no e =? b)) eqn:Hv.
    + split; [done|]. intros H. apply andb_true_iff in Hv as [? ?%Z.eqb_eq].
      exfalso. apply (H e); [by left|done..].
    + rewrite IH. split.
      * intros H f [->|Hf]%elem_of_cons Hvf; [|by apply H].
        rewrite Hvf in Hv. by apply Z.eqb_neq in Hv.
      * intros H f Hf. apply H. by right.
Qed.

(** The victim: an entry that is not valid if there is one, else one with the
    smallest tick. *)
Lemma victim_scan_inl l i v o k : victim_scan l i v o = inl k ->
  (i <= k)%nat /\ exists e, l !! (k - i)%nat = Some e /\ valid e = false.
Proof.
  revert i v o. induction l as [|e l IH]; intros i v o; simpl; [done|].
  destruct (valid e) eqn:Hv; simpl.
  - intros H. assert ((S i <= k)%nat /\ exists f, l !! (k - S i)%nat = Some f /\ valid f = false)
      as (? & f & ? & ?) by (destruct (last_used_tick e <? o); eauto).
    split; [lia|]. exists f. by replace (k - i)%nat with (S (k - S i)) by lia.
  - intros [= <-]. split; [lia|]. rewrite Nat.sub_diag. by exists e.
Qed.

Lemma victim_scan_inr l i v o k : victim_scan l i v o = inr k ->
  (forall e, e ∈ l -> valid e = true) /\
  ((k = v /\ forall e, e ∈ l -> o <= last_used_tick e) \/
   ((i <= k)%nat /\ exists e, l !! (k - i)%nat = Some e /\ last_used_tick e < o /\
      forall f, f ∈ l -> last_used_tick e <= last_used_tick f)).
Proof.
  revert i v o. induction l as [|e l IH]; intros i v o; simpl.
  - intros [= <-]. split; [|left; split; [done|]]; intros e He; by apply not_elem_of_nil in He.
  - destruct (valid e) eqn:Hv; simpl; [|done].
    destruct (Z.ltb_spec (last_used_tick e) o); intros (Hval & Hk)%IH; (split;
      [intros f [->|Hf]%elem_of_cons; [done|by apply Hval]|]).
    + right. destruct Hk as [[-> Hle]|(Hik & f & Hf & Hfo & Hle)].
      * split; [lia|]. exists e. rewrite Nat.sub_diag. split_and!; [done|lia|].
        intros g [->|Hg]%elem_of_cons; [lia|by apply Hle].
      * split; [lia|]. exists f. replace (k - i)%nat with (S (k - S i)) by lia.
        split_and!; [done|lia|]. intros g [->|Hg]%elem_of_cons; [lia|by apply Hle].
    + destruct Hk as [[-> Hle]|(Hik & f & Hf & Hfo & Hle)]; [left|right].
      * split; [done|]. intros g [->|Hg]%elem_of_cons; [lia|by apply Hle].
      * split; [lia|]. exists f. replace (k - i)%nat with (S (k - S i)) by lia.
        split_and!; [done|lia|]. intros g [->|Hg]%elem_of_cons; [lia|by apply Hle].
Qed.

(** ** The abstract store *)
Section view.
Context {W : Type} (dev : k64_block_device_t W) `{!BlockDriver dev}.
Abbreviation cst := (@cstate W).
Implicit Types s : cst.

Definition view s (b : Z) : list Z :=
  match cache_find (c_cache s) b with
  | Some i => match entries (c_cache s) !! i with Some e => data e | None => [] end
  | None => disk_block dev (c_hw s) b
  end.

Record cache_ok s : Prop := {
  co_length : length (entries (c_cache s)) = Z.to_nat K64_XFS_CACHE_BLOCKS;
  co_data i e : entries (c_cache s) !! i = Some e -> block_ok (data e);
  co_block i e : entries (c_cache s) !! i = Some e -> valid e = true -> 0 <= block_no e;
  co_unique i j e f : entries (c_cache s) !! i = Some e -> entries (c_cache s) !! j = Some f ->
    valid e = true -> valid f = true -> block_no e = block_no f -> i = j;
  co_clean i e : entries (c_cache s) !! i = Some e -> valid e = true -> dirty e = false ->
    data e = disk_block dev (c_hw s) (block_no e)
}.

(** The same blocks seen through another cache state. *)
Definition same_view s s' : Prop := forall b, 0 <= b -> view s' b = view s b.

#[global] Instance same_view_equiv : Equivalence same_view.
Proof.
  split.
  - by intros s b _.
  - intros s s' H b Hb. by rewrite H.
  - intros s s' s'' H H' b Hb. by rewrite H', H.
Qed.

Definition cached s b : Prop := exists i e,
  entries (c_cache s) !! i = Some e /\ valid e = true /\ block_no e = b.

Lemma cache_find_Some s b i : cache_find (c_cache s) b = Some i ->
  exists e, entries (c_cache s) !! i = Some e /\ valid e = true /\ block_no e = b.
Proof. intros (_ & e & He & ?)%find_entry_Some. rewrite Nat.sub_0_r in He. eauto. Qed.

Lemma cache_find_None s b : cache_find (c_cache s) b = None <-> ~ cached s b.
Proof.
  unfold cache_find. rewrite find_entry_None. split.
  - intros H (i & e & He & ? & ?). by eapply H; [eapply list_elem_of_lookup_2|..].
  - intros H e [i He]%list_elem_of_lookup ? ?. apply H. by exists i, e.
Qed.

Lemma view_hit s i e : cache_ok s -> entries (c_cache s) !! i = Some e -> valid e = true ->
  view s (block_no e) = data e.
Proof.
  intros C He Hv. unfold view. destruct (cache_find _ _) as [j|] eqn:Hf.
  - apply cache_find_Some in Hf as (f & Hf & Hvf & Heq).
    assert (j = i) as -> by (eapply co_unique; eauto). by simplify_option_eq.
  - apply cache_find_None in Hf as []. by exists i, e.
Qed.

Lemma view_miss s b : ~ cached s b -> view s b = disk_block dev (c_hw s) b.
Proof. intros H%cache_find_None. unfold view. by rewrite H. Qed.

Lemma cached_dec s b : cached s b \/ ~ cached s b.
Proof.
  destruct (cache_find (c_cache s) b) as [i|] eqn:H.
  - left. apply cache_find_Some in H as (e & ? & ? & ?). by exists i, e.
  - right. by apply cache_find_None.
Qed.

(** Two states in which every block is in the cache with the same data, or
    on the device with the same content, have the same view. *)
Lemma view_ext s s' b : cache_ok s -> cache_ok s' ->
  (forall i e, entries (c_cache s) !! i = Some e -> valid e = true -> block_no e = b ->
     (exists j e', entries (c_cache s') !! j = Some e' /\ valid e' = true /\ block_no e' = b /\
                   data e' = data e) \/
     (~ cached s' b /\ disk_block dev (c_hw s') b = data e)) ->
  (~ cached s b ->
     (exists j e', entries (c_cache s') !! j = Some e' /\ valid e' = true /\ block_no e' = b /\
                   data e' = disk_block dev (c_hw s) b) \/
     (~ cached s' b /\ disk_block dev (c_hw s') b = disk_block dev (c_hw s) b)) ->
  view s' b = view s b.
Proof.
  intros C C' Hin Hout. destruct (cached_dec s b) as [(i & e & He & Hv & Hb)|Hn].
  - rewrite <- Hb at 2. rewrite (view_hit _ _ _ C He Hv).
    destruct (Hin i e He Hv Hb) as [(j & e' & He' & Hv' & Hb' & Hd)|[Hn Hd]].
    + rewrite <- Hb'. by rewrite (view_hit _ _ _ C' He' Hv').
    + by rewrite view_miss.
  - rewrite (view_miss s) by done.
    destruct (Hout Hn) as [(j & e' & He' & Hv' & Hb' & Hd)|[Hn' Hd]].
    + rewrite <- Hb' at 1. by rewrite (view_hit _ _ _ C' He' Hv').
    + by rewrite view_miss.
Qed.

(** Replacing entry [i] by [e'] while the device goes to [w']: the one way the
    cache operations change the state. *)
Definition replaced s (i : nat) e' (w' : W) s' : Prop :=
  entries (c_cache s') = <[i := e']> (entries (c_cache s)) /\ c_hw s' = w'.

Lemma replaced_lookup s i e' w' s' j f : replaced s i e' w' s' ->
  entries (c_cache s') !! j = Some f ->
  (j = i /\ f = e') \/ (j <> i /\ entries (c_cache s) !! j = Some f).
Proof.
  intros [-> _]. intros [(-> & -> & _)|[? ?]]%list_lookup_insert_Some; [by left|right]. by split.
Qed.

(** Entry [i] can hold block [block_no e'] on a device in state [w']. *)
Definition entry_fits s (i : nat) e' (w' : W) : Prop :=
  valid e' = true ->
    0 <= block_no e' /\
    (forall j f, j <> i -> entries (c_cache s) !! j = Some f -> valid f = true ->
       block_no f <> block_no e') /\
    (dirty e' = false -> data e' = disk_block dev w' (block_no e')).

Lemma replaced_ok s i e' w' s' : replaced s i e' w' s' -> cache_ok s ->
  block_ok (data e') -> entry_fits s i e' w' ->
  (forall j f, j <> i -> entries (c_cache s) !! j = Some f -> valid f = true ->
     disk_block dev w' (block_no f) = disk_block dev (c_hw s) (block_no f)) ->
  cache_ok s'.
Proof.
  intros R C Hd Hfit Hdisk. split.
  - destruct R as [-> _]. rewrite length_insert. apply C.
  - intros j f [[-> ->]|[? ?]]%(replaced_lookup _ _ _ _ _ _ _ R); [done|by eapply co_data].
  - intros j f [[-> ->]|[? ?]]%(replaced_lookup _ _ _ _ _ _ _ R) Hv; [by apply Hfit|].
    by eapply co_block.
  - intros j k e f [[-> ->]|[? ?]]%(replaced_lookup _ _ _ _ _ _ _ R)
      [[-> ->]|[? ?]]%(replaced_lookup _ _ _ _ _ _ _ R) ? ? Heq; [done| | |by eapply co_unique].
    + destruct Hfit as (_ & Hu & _); [done|]. by destruct (Hu k f).
    + destruct Hfit as (_ & Hu & _); [done|]. by destruct (Hu j e).
  - intros j f [[-> ->]|[? ?]]%(replaced_lookup _ _ _ _ _ _ _ R) Hv Hc.
    + destruct R as [_ ->]. by apply Hfit.
    + rewrite (co_clean s C j f) by done. destruct R as [_ ->]. symmetry. by eapply Hdisk.
Qed.

Lemma replaced_cached s i e e' w' s' b : replaced s i e' w' s' ->
  entries (c_cache s) !! i = Some e ->
  (valid e' = true -> block_no e' <> b) ->
  cached s' b -> exists j f, j <> i /\ entries (c_cache s) !! j = Some f /\
                   valid f = true /\ block_no f = b.
Proof.
  intros R He Hne (j & f & Hf & Hv & Hb).
  apply (replaced_lookup _ _ _ _ _ _ _ R) in Hf as [[-> ->]|[? ?]].
  - by destruct (Hne Hv).
  - by exists j, f.
Qed.

(** The cache holds no block it did not hold before, [b] apart. *)
Definition cached_within s (b : Z) s' : Prop := forall b', cached s' b' -> cached s b' \/ b' = b.

Lemma cached_within_trans s1 s2 s3 b :
  cached_within s1 b s2 -> cached_within s2 b s3 -> cached_within s1 b s3.
Proof. intros H1 H2 b' [H|]%H2; [by apply H1|by right]. Qed.

Lemma replaced_within s i e' w' s' b : replaced s i e' w' s' ->
  (valid e' = true -> cached s (block_no e') \/ block_no e' = b) -> cached_within s b s'.
Proof.
  intros R He' b' (j & f & Hf & Hv & <-).
  apply (replaced_lookup _ _ _ _ _ _ _ R) in Hf as [[-> ->]|[? ?]]; [by apply He'|].
  left. by exists j, f.
Qed.

Lemma replaced_holds s i e e' w' s' : replaced s i e' w' s' ->
  entries (c_cache s) !! i = Some e -> valid e' = true -> cached s' (block_no e').
Proof.
  intros [Hr _] He Hv. exists i, e'. split_and!; [|done..].
  rewrite Hr. apply list_lookup_insert_eq. by eapply lookup_lt_Some.
Qed.

Lemma replaced_view_hit s i e e' w' s' : replaced s i e' w' s' -> cache_ok s' ->
  entries (c_cache s) !! i = Some e -> valid e' = true -> view s' (block_no e') = data e'.
Proof.
  intros [Hr _] C He Hv. apply (view_hit s' i); [done| |done].
  rewrite Hr. apply list_lookup_insert_eq. by eapply lookup_lt_Some.
Qed.

(** A block that entry [i] holds neither before nor after keeps its content. *)
Lemma replaced_view_other s i e e' w' s' b : replaced s i e' w' s' -> cache_ok s -> cache_ok s' ->
  entries (c_cache s) !! i = Some e ->
  (valid e' = true -> block_no e' <> b) ->
  (valid e = true -> block_no e <> b) ->
  disk_block dev w' b = disk_block dev (c_hw s) b ->
  view s' b = view s b.
Proof.
  intros R C C' He Hne' Hne Hd. apply view_ext; [done..| |].
  - intros j f Hf Hv Hb. left. exists j, f. destruct R as [-> _].
    rewrite list_lookup_insert_ne; [done|]. intros ->. simplify_eq. by destruct (Hne Hv).
  - intros Hn. right. split; [|by destruct R as [_ ->]].
    intros (j & f & ? & ? & ? & ?)%(replaced_cached _ _ _ _ _ _ _ R He Hne').
    apply Hn. by exists j, f.
Qed.

(** Evicting entry [i] once the device holds its block. *)
Lemma replaced_view_evict s i e e' w' s' : replaced s i e' w' s' -> cache_ok s ->
  cache_ok s' ->
  entries (c_cache s) !! i = Some e -> valid e = true -> valid e' = false ->
  disk_block dev w' (block_no e) = data e -> view s' (block_no e) = view s (block_no e).
Proof.
  intros R C C' He Hv Hv' Hd. rewrite (view_hit s i e) by done.
  rewrite view_miss; [by destruct R as [_ ->]|].
  intros (j & f & Hj & Hf & Hvf & Hb)%(replaced_cached _ _ _ _ _ _ _ R He); [|congruence].
  apply Hj. eapply (co_unique s C); eauto.
Qed.

(** Changing only the tick, the dirty bit, or the device's stale copy of a
    cached block. *)
Lemma replaced_same s i e e' w' s' : replaced s i e' w' s' -> cache_ok s -> cache_ok s' ->
  entries (c_cache s) !! i = Some e ->
  valid e' = valid e -> block_no e' = block_no e -> data e' = data e ->
  (forall b, 0 <= b -> (valid e = true -> b <> block_no e) ->
     disk_block dev w' b = disk_block dev (c_hw s) b) ->
  same_view s s'.
Proof.
  intros R C C' He Hv Hb Hd Hw b H0. destruct (decide (valid e = true /\ block_no e = b)) as [[Hve <-]|Hn].
  - rewrite (view_hit s i e) by done. rewrite <- Hb, <- Hd.
    eapply replaced_view_hit; [done..|congruence].
  - eapply replaced_view_other; [done..| | |]; rewrite ?Hv, ?Hb.
    + intros ? ?. tauto.
    + intros ? ?. tauto.
    + apply Hw; [done|]. intros ? ->. tauto.
Qed.

Context (D : device_ok dev).

Lemma others_differ s i e j f : cache_ok s -> entries (c_cache s) !! i = Some e ->
  valid e = true -> j <> i -> entries (c_cache s) !! j = Some f -> valid f = true ->
  block_no f <> block_no e.
Proof. intros C He Hv Hj Hf Hvf Heq. apply Hj. by eapply (co_unique s C). Qed.

(** Dropping a valid entry whose block the device holds. *)
Lemma evict_ok s v e w' t : cache_ok s -> entries (c_cache s) !! v = Some e -> valid e = true ->
  (forall b, b <> block_no e -> disk_block dev w' b = disk_block dev (c_hw s) b) ->
  disk_block dev w' (block_no e) = data e ->
  let s' := set_entry v (mk_entry false false (block_no e) t (data e)) (mk_cstate (c_cache s) w') in
  cache_ok s' /\ same_view s s' /\
  (exists e, entries (c_cache s') !! v = Some e /\ valid e = false) /\
  (forall b, cached s' b -> cached s b).
Proof.
  intros C He Hve Hfr Hd s'. set (e' := mk_entry false false (block_no e) t (data e)) in s'.
  assert (R : replaced s v e' w' s') by done.
  assert (C' : cache_ok s').
  { eapply replaced_ok; [done|done|exact (co_data s C v e He)|done|].
    intros j f Hj Hf Hvf. apply Hfr. by eapply others_differ. }
  split_and!; [done| | |].
  - intros b _. destruct (decide (b = block_no e)) as [->|Hne].
    + by eapply replaced_view_evict.
    + eapply replaced_view_other; [done..| |by apply Hfr]. congruence.
  - exists e'. split; [|done]. apply list_lookup_insert_eq. by eapply lookup_lt_Some.
  - intros b (j & f & _ & ? & ?)%(replaced_cached _ _ _ _ _ _ _ R He); [|done].
    by exists j, f.
Qed.

(** A failed write-back leaves the block in the cache. *)
Lemma write_back_failed s v e w' : cache_ok s -> entries (c_cache s) !! v = Some e ->
  valid e = true -> dirty e = true ->
  (forall b, b <> block_no e -> disk_block dev w' b = disk_block dev (c_hw s) b) ->
  cache_ok (mk_cstate (c_cache s) w') /\ same_view s (mk_cstate (c_cache s) w') /\
  (forall b, cached (mk_cstate (c_cache s) w') b -> cached s b).
Proof.
  intros C He Hve Hdirty Hfr. set (s' := mk_cstate (c_cache s) w').
  assert (R : replaced s v e w' s') by (split; [by rewrite list_insert_id|done]).
  assert (C' : cache_ok s').
  { eapply replaced_ok; [done|done|by eapply co_data| |].
    - intros _. split_and!; [by eapply co_block| |congruence].
      intros j f Hj Hf Hvf. by eapply others_differ.
    - intros j f Hj Hf Hvf. apply Hfr. by eapply others_differ. }
  split_and!; [done| |done]. eapply replaced_same; [done..|].
  intros b _ Hb. apply Hfr. by apply Hb.
Qed.

Lemma victim_scan_entry s v : cache_ok s ->
  victim_scan (entries (c_cache s)) 0 0 UINT64_MAX = inr v ->
  exists e, entries (c_cache s) !! v = Some e /\ valid e = true.
Proof.
  intros C [Hval Hv]%victim_scan_inr.
  assert (exists e, entries (c_cache s) !! v = Some e) as [e He].
  { destruct Hv as [[-> _]|(_ & e & He & _)]; [|rewrite Nat.sub_0_r in He; by exists e].
    apply lookup_lt_is_Some_2. rewrite (co_length s C). unfold K64_XFS_CACHE_BLOCKS. lia. }
  exists e. split; [done|]. by eapply Hval, list_elem_of_lookup_2.
Qed.

Lemma cache_victim_spec s : cache_ok s ->
  wp (cache_victim dev)
    (fun i s' => cache_ok s' /\ same_view s s' /\
       (exists e, entries (c_cache s') !! i = Some e /\ valid e = false) /\
       (forall b, cached s' b -> cached s b))
    (fun s' => cache_ok s' /\ same_view s s' /\ (forall b, cached s' b -> cached s b) /\
       exists b, cached s b /\ write_fails dev b) s.
Proof.
  intros C. unfold cache_victim. wp_steps.
  destruct (victim_scan _ _ _ _) as [i|v] eqn:Hs.
  { apply victim_scan_inl in Hs as (_ & e & He & Hv). rewrite Nat.sub_0_r in He.
    wp_steps. split_and!; [done|done|by exists e|done]. }
  apply victim_scan_entry in Hs as (e & He & Hve); [|done].
  assert (Hb0 : 0 <= block_no e) by (by eapply co_block).
  wp_steps. unfold get_entry. eapply wp_deref; [exact He|]. wp_steps.
  - unfold raw_write, wp. destruct (xfs_raw_write dev _ _ _) as [[] w'] eqn:Hw.
    + apply (evict_ok s v e); [done..| |].
      * intros b Hb. by eapply raw_write_frame.
      * eapply raw_write_true; [done..|by eapply co_data].
    + assert (write_fails dev (block_no e)) by (exists (c_hw s), (data e); by rewrite Hw).
      destruct (write_back_failed s v e w') as (C' & V' & W'); [done..| |].
      { intros b Hb. by eapply raw_write_frame. }
      split_and!; [done..|]. exists (block_no e). split; [|done]. by exists v, e.
  - apply (evict_ok s v e (c_hw s)); [done..|]. symmetry. by eapply (co_clean s C).
Qed.

(** An entry may be given another tick, and a dirty entry or one whose block
    the device holds any dirty bit. *)
Lemma refresh_ok s i e e' w' s' : replaced s i e' w' s' -> cache_ok s ->
  entries (c_cache s) !! i = Some e ->
  valid e' = valid e -> block_no e' = block_no e -> data e' = data e ->
  (valid e = true -> dirty e' = false -> disk_block dev w' (block_no e) = data e) ->
  (forall b, 0 <= b -> (valid e = true -> b <> block_no e) ->
     disk_block dev w' b = disk_block dev (c_hw s) b) ->
  (valid e = false -> w' = c_hw s) ->
  cache_ok s' /\ same_view s s'.
Proof.
  intros R C He Hv Hb Hd Hclean Hfr Hinv.
  assert (C' : cache_ok s').
  { eapply replaced_ok; [done|done|rewrite Hd; by eapply co_data| |].
    - intros Hve. rewrite Hv in Hve. rewrite Hb, Hd. split_and!; [by eapply co_block| |].
      + intros j f Hj Hf Hvf. by eapply others_differ.
      + intros Hc. symmetry. by apply Hclean.
    - intros j f Hj Hf Hvf. destruct (valid e) eqn:Hve; [|by rewrite Hinv].
      apply Hfr; [by eapply co_block|]. intros _. by eapply others_differ. }
  split; [done|]. by eapply replaced_same.
Qed.

Lemma wp_tick (Q : Z -> cst -> Prop) E s :
  (forall c, Q c (mk_cstate (mk_cache (entries (c_cache s)) c) (c_hw s))) -> wp tick Q E s.
Proof. intros H. apply H. Qed.

Lemma wp_get_entry i e (Q : k64_xfs_cache_entry_t -> cst -> Prop) E s :
  entries (c_cache s) !! i = Some e -> Q e s -> wp (get_entry i) Q E s.
Proof. intros He ?. unfold get_entry, wp. by rewrite He. Qed.

Lemma touch_spec s i e : cache_ok s -> entries (c_cache s) !! i = Some e ->
  wp (t ← tick; e ← get_entry i;
      modify (set_entry i (mk_entry (valid e) (dirty e) (block_no e) t (data e))) ;;
      mret (data e))
    (fun d s' => d = data e /\ cache_ok s' /\ same_view s s' /\ forall b, cached_within s b s')
    (fun _ => False) s.
Proof.
  intros C He. wp_steps. apply wp_tick. intros t. wp_steps. eapply wp_get_entry; [exact He|].
  wp_steps. set (e' := mk_entry _ _ _ _ _). set (s' := set_entry i e' _).
  assert (R : replaced s i e' (c_hw s) s') by done.
  destruct (refresh_ok s i e e' (c_hw s) s') as [C' V]; [done..| |done|done|].
  { intros Hv Hc. symmetry. by eapply (co_clean s C). }
  split_and!; [done..|]. intros b. eapply replaced_within; [exact R|]. intros Hv. left.
  by exists i, e.
Qed.

(** Reading the content of an entry that is not valid. *)
Lemma fill_invalid s i e e' s' : replaced s i e' (c_hw s) s' -> cache_ok s ->
  entries (c_cache s) !! i = Some e -> valid e = false -> valid e' = false ->
  block_ok (data e') -> cache_ok s' /\ same_view s s'.
Proof.
  intros R C He Hv Hv' Hd.
  assert (C' : cache_ok s').
  { eapply replaced_ok; [done|done|done| |done]. intros ?. congruence. }
  split; [done|]. intros b _. eapply replaced_view_other; [done..| | |done]; congruence.
Qed.

(** Giving entry [i], not valid before, a block that no other entry holds. *)
Lemma install_ok s i e e' s' : replaced s i e' (c_hw s) s' -> cache_ok s ->
  entries (c_cache s) !! i = Some e -> valid e = false -> valid e' = true ->
  0 <= block_no e' -> ~ cached s (block_no e') -> block_ok (data e') ->
  (dirty e' = false -> data e' = disk_block dev (c_hw s) (block_no e')) ->
  cache_ok s' /\ view s' (block_no e') = data e' /\
  (forall b, b <> block_no e' -> view s' b = view s b) /\ cached_within s (block_no e') s'.
Proof.
  intros R C He Hv Hv' Hb0 Hnc Hd Hclean.
  assert (C' : cache_ok s').
  { eapply replaced_ok; [done|done|done| |done]. intros _. split_and!; [done| |done].
    intros j f _ Hf Hvf Heq. apply Hnc. by exists j, f. }
  split_and!; [done|by eapply replaced_view_hit| |].
  - intros b Hb. eapply replaced_view_other; [done..| | |done]; congruence.
  - eapply replaced_within; [exact R|]. by right.
Qed.

Lemma raw_read_into_spec s i b e : cache_ok s -> 0 <= b ->
  entries (c_cache s) !! i = Some e -> valid e = false ->
  wp (raw_read_into dev i b)
    (fun _ s' => cache_ok s' /\ same_view s s' /\ c_hw s' = c_hw s /\
       (exists e', entries (c_cache s') !! i = Some e' /\ valid e' = false /\
          data e' = disk_block dev (c_hw s) b) /\
       (forall b, cached s' b -> cached s b))
    (fun s' => cache_ok s' /\ same_view s s' /\ (forall b, cached s' b -> cached s b) /\
       read_fails dev b) s.
Proof.
  intros C Hb He Hv. unfold raw_read_into. wp_steps. eapply wp_get_entry; [exact He|]. wp_steps.
  destruct (xfs_raw_read dev _ _ _) as [ok out] eqn:Hr.
  set (e' := mk_entry _ _ _ _ out). set (s' := set_entry i e' s).
  assert (Hout : block_ok out) by (eapply raw_read_buffer; [done..|by eapply co_data]).
  assert (R : replaced s i e' (c_hw s) s') by done.
  destruct (fill_invalid s i e e' s') as [C' V]; [done..|].
  assert (Hsub : forall b, cached s' b -> cached s b).
  { intros b' (j & f & _ & ? & ?)%(replaced_cached _ _ _ _ _ _ _ R He); [by exists j, f|].
    cbn. congruence. }
  wp_steps; subst ok.
  2: { split_and!; [done..|]. exists (c_hw s), (data e). by rewrite Hr. }
  split_and!; [done|done|done| |done].
  exists e'. split_and!; [|done|by eapply raw_read_true].
  apply list_lookup_insert_eq. by eapply lookup_lt_Some.
Qed.

(** A cache read returns the content of the block and changes no block, and
    keeps the cache consistent; if the device fails, still no block changes. *)
Lemma k64_xfs_cache_read_spec s b : cache_ok s -> 0 <= b ->
  wp (k64_xfs_cache_read dev b)
    (fun d s' => d = view s b /\ cache_ok s' /\ same_view s s' /\ cached_within s b s')
    (fun s' => cache_ok s' /\ same_view s s' /\ cached_within s b s' /\ ~ cached s b /\
       (read_fails dev b \/ exists b', cached s b' /\ write_fails dev b')) s.
Proof.
  intros C Hb. unfold k64_xfs_cache_read. wp_steps.
  destruct (cache_find (c_cache s) b) as [i|] eqn:Hf; [apply wp_ret|wp_steps].
  { apply cache_find_Some in Hf as (e & He & Hv & <-).
    eapply wp_mono; [by eapply touch_spec| |done]. cbv beta.
    intros d s' (-> & ? & ? & ?). by rewrite (view_hit s i). }
  apply cache_find_None in Hf.
  eapply wp_mono; [by apply cache_victim_spec| |].
  2: { intros s1 (C1 & V1 & Hc1 & Hw). split_and!; [done..| |done|by right].
    intros b' Hb'. left. by apply Hc1. }
  intros i s1 (C1 & V1 & (e1 & He1 & Hv1) & Hc1). wp_steps.
  eapply wp_mono; [by eapply raw_read_into_spec| |].
  2: { intros s2 (C2 & V2 & Hc2 & Hr). split_and!; [done|by rewrite V1| |done|by left].
    intros b' Hb'. left. by apply Hc1, Hc2. }
  intros [] s2 (C2 & V2 & Hhw & (e2 & He2 & Hv2 & Hd2) & Hc2). wp_steps.
  eapply wp_get_entry; [exact He2|]. apply wp_bind, wp_modify, wp_ret.
  set (e3 := mk_entry true false b (last_used_tick e2) (data e2)). set (s3 := set_entry i e3 s2).
  destruct (install_ok s2 i e2 e3 s3) as (C3 & V3 & V3' & W3); [done..| | | |].
  { intros H. by apply Hf, Hc1, Hc2. }
  { exact (co_data s2 C2 i e2 He2). }
  { intros _. by rewrite Hhw. }
  change (block_no e3) with b in *. change (data e3) with (data e2) in *.
  assert (V : same_view s s3).
  { intros b' Hb'. destruct (decide (b' = b)) as [->|Hne].
    - rewrite V3, Hd2, <- (view_miss s1), (V1 b); [done..|].
      intros H. by apply Hf, Hc1.
    - by rewrite V3', (V2 b'), (V1 b'). }
  eapply wp_mono; [eapply (touch_spec s3 i e3); [done|]| |done].
  { apply list_lookup_insert_eq. by eapply lookup_lt_Some. }
  cbv beta. intros d s4 (-> & C4 & V4 & W4). split_and!; [|done|by rewrite V|].
  - rewrite <- (V b) by done. symmetry. exact V3.
  - intros b' [[H|H]%W3|H]%(W4 b); [left; by apply Hc1, Hc2|by right..].
Qed.

(** A cache write changes exactly the block it is given; if an eviction fails
    it changes none. *)
Lemma k64_xfs_cache_write_spec s b bytes : cache_ok s -> 0 <= b -> block_ok bytes ->
  wp (k64_xfs_cache_write dev b bytes)
    (fun _ s' => cache_ok s' /\ view s' b = bytes /\ cached s' b /\
       (forall b', 0 <= b' -> b' <> b -> view s' b' = view s b') /\ cached_within s b s')
    (fun s' => cache_ok s' /\ same_view s s' /\ cached_within s b s' /\
       exists b', cached s b' /\ write_fails dev b') s.
Proof.
  intros C Hb Hbytes. unfold k64_xfs_cache_write. wp_steps.
  destruct (cache_find (c_cache s) b) as [i|] eqn:Hf; wp_steps.
  - apply cache_find_Some in Hf as (e & He & Hv & <-).
    apply wp_tick. intros t. wp_steps. eapply wp_get_entry; [exact He|]. wp_steps.
    set (e' := mk_entry _ _ _ _ bytes). set (s' := set_entry i e' _).
    assert (R : replaced s i e' (c_hw s) s') by done.
    assert (C' : cache_ok s').
    { eapply replaced_ok; [done|done|done| |done]. intros _. split_and!; [done| |done].
      intros j f Hj Hf Hvf. exact (others_differ s i e j f C He Hv Hj Hf Hvf). }
    split_and!; [done|exact (replaced_view_hit s i e e' _ s' R C' He Hv)|exact (replaced_holds s i e e' _ s' R He Hv)| |].
    + intros b' _ Hne. eapply replaced_view_other; [done..| | |done]; cbn; congruence.
    + eapply replaced_within; [exact R|]. by right.
  - apply cache_find_None in Hf.
    eapply wp_mono; [by apply cache_victim_spec| |].
    2: { intros s1 (C1 & V1 & Hc1 & Hw). split_and!; [done..| |done].
      intros b' Hb'. left. by apply Hc1. }
    intros i s1 (C1 & V1 & (e1 & He1 & Hv1) & Hc1). wp_steps.
    eapply wp_get_entry; [exact He1|]. wp_steps.
    apply wp_tick. intros t. wp_steps.
    eapply wp_get_entry; [apply list_lookup_insert_eq; by eapply lookup_lt_Some|]. wp_steps.
    cbn [valid dirty block_no data].
    set (e' := mk_entry _ _ _ _ bytes). set (s' := set_entry i e' _).
    assert (R : replaced s1 i e' (c_hw s1) s').
    { split; [|done]. cbn. apply list_insert_insert_eq. }
    destruct (install_ok s1 i e1 e' s') as (C' & V' & V'' & W'); [done..| | | |].
    { intros H. by apply Hf, Hc1. }
    { done. }
    { done. }
    split_and!; [done|done|exact (replaced_holds s1 i e1 e' _ s' R He1 eq_refl)| |].
    + intros b' Hb' Hne. by rewrite V'', (V1 b').
    + intros b' [H|H]%W'; [left; by apply Hc1|by right].
Qed.

(** Every entry below [n] is clean. *)
Definition clean_below (n : Z) s : Prop := forall i e,
  Z.of_nat i < n -> entries (c_cache s) !! i = Some e -> valid e = true -> dirty e = false.

Lemma flush_entry_spec s i : cache_ok s -> 0 <= i < K64_XFS_CACHE_BLOCKS -> clean_below i s ->
  wp (flush_entry dev i)
    (fun _ s' => cache_ok s' /\ same_view s s' /\ (forall b, cached s' b -> cached s b) /\
       clean_below (i + 1) s')
    (fun s' => cache_ok s' /\ same_view s s' /\ (forall b, cached s' b -> cached s b) /\
       exists b, cached s b /\ write_fails dev b) s.
Proof.
  intros C Hi Hclean. unfold flush_entry. wp_steps.
  destruct (lookup_lt_is_Some_2 (entries (c_cache s)) (Z.to_nat i)) as [e He].
  { rewrite (co_length s C). lia. }
  eapply wp_get_entry; [exact He|]. wp_steps.
  - apply andb_true_iff in Hif as [Hv Hd].
    assert (Hb0 : 0 <= block_no e) by (by eapply co_block).
    unfold raw_write, wp. destruct (xfs_raw_write dev _ _ _) as [[] w'] eqn:Hw; cbn.
    + set (e' := mk_entry _ _ _ _ (data e)). set (s' := set_entry _ e' _).
      assert (R : replaced s (Z.to_nat i) e' w' s') by done.
      destruct (refresh_ok s (Z.to_nat i) e e' w' s') as [C' V]; [done..| | | |].
      * intros _ _. eapply raw_write_true; [done..|by eapply co_data].
      * intros b _ Hb. eapply raw_write_frame; [done..|]. by apply Hb.
      * congruence.
      * split_and!; [done|done| |].
        { intros b [H|H]%(replaced_within s _ e' w' s' (block_no e) R (fun _ => or_intror eq_refl));
            [done|]. subst b. by exists (Z.to_nat i), e. }
        intros j f Hj Hf Hvf. apply (replaced_lookup _ _ _ _ _ _ _ R) in Hf as [[-> ->]|[Hne Hf]]; [done|].
        eapply Hclean; [|done..]. lia.
    + assert (write_fails dev (block_no e)) by (exists (c_hw s), (data e); by rewrite Hw).
      destruct (write_back_failed s (Z.to_nat i) e w') as (C' & V' & W'); [done..| |].
      { intros b Hb. by eapply raw_write_frame. }
      split_and!; [done..|]. exists (block_no e). split; [|done]. by exists (Z.to_nat i), e.
  - split_and!; [done|done|done|]. intros j f Hj Hf Hvf.
    destruct (decide (Z.of_nat j = i)) as [<-|Hne].
    + rewrite Nat2Z.id in He. simplify_eq. by rewrite Hvf in Hif.
    + eapply Hclean; [|done..]. lia.
Qed.

(** Flushing writes every dirty block back: on success the device holds the
    whole store; whether or not it succeeds, no block of the store changes. *)
Lemma k64_xfs_cache_flush_spec s : cache_ok s ->
  wp (k64_xfs_cache_flush dev)
    (fun _ s' => cache_ok s' /\ same_view s s' /\ (forall b, cached s' b -> cached s b) /\
       forall b, 0 <= b -> disk_block dev (c_hw s') b = view s b)
    (fun s' => cache_ok s' /\ same_view s s' /\ (forall b, cached s' b -> cached s b) /\
       exists b, cached s b /\ write_fails dev b) s.
Proof.
  intros C. unfold k64_xfs_cache_flush.
  apply (wp_for_loop (fun i s' => cache_ok s' /\ same_view s s' /\
           (forall b, cached s' b -> cached s b) /\ clean_below i s')).
  - split_and!; [done|done|done|]. intros i e ?. lia.
  - intros i s1 Hi (C1 & V1 & W1 & Hc1).
    eapply wp_mono; [by apply flush_entry_spec| |].
    + intros [] s2 (C2 & V2 & W2 & Hc2). split_and!; [done|by rewrite V1|auto|done].
    + intros s2 (C2 & V2 & W2 & b & Hb & Hf). split_and!; [done|by rewrite V1|auto|eauto].
  - intros s1 (C1 & V1 & W1 & Hc1). split_and!; [done|done|done|]. intros b Hb.
    rewrite <- (V1 b) by done. destruct (cached_dec s1 b) as [(i & e & He & Hv & <-)|Hn].
    + rewrite (view_hit s1 i e) by done. symmetry. apply (co_clean s1 C1 i e He Hv).
      apply (Hc1 i e); [|done..]. apply lookup_lt_Some in He. rewrite (co_length s1 C1) in He. lia.
    + by rewrite view_miss.
Qed.

Lemma cache_init_ok w : cache_ok (mk_cstate k64_xfs_cache_init w).
Proof.
  assert (H : forall i e, entries k64_xfs_cache_init !! i = Some e -> e = zero_entry).
  { intros i e He. cbn [entries k64_xfs_cache_init] in He. by apply lookup_replicate in He as [-> _]. }
  split; cbn [c_cache c_hw].
  - apply length_replicate.
  - intros i e ->%H. apply zeros_block_ok.
  - by intros i e ->%H.
  - by intros i j e f ->%H _.
  - by intros i e ->%H.
Qed.

Lemma view_init w b : view (mk_cstate k64_xfs_cache_init w) b = disk_block dev w b.
Proof.
  apply view_miss. intros (i & e & He & Hv & _). cbn [c_cache entries k64_xfs_cache_init] in He.
  by apply lookup_replicate in He as [-> _].
Qed.

Lemma view_block_ok s b : cache_ok s -> block_ok (view s b).
Proof.
  intros C. destruct (cached_dec s b) as [(i & e & He & Hv & <-)|Hn].
  - rewrite (view_hit s i e) by done. by eapply co_data.
  - rewrite view_miss by done. by apply disk_block_ok.
Qed.

(** ** The cache implements a store of blocks *)

(** What a client asks of the cache. *)
Inductive request : Type :=
  | Read (b : Z)
  | Write (b : Z) (bytes : list Z)
  | Flush.

Definition request_ok (r : request) : Prop :=
  match r with
  | Read b => 0 <= b
  | Write b bytes => 0 <= b /\ block_ok bytes
  | Flush => True
  end.

(** The answer to a request and the store after it. *)
Definition store : Type := Z -> list Z.
Definition store_write (b : Z) (bytes : list Z) (f : store) : store :=
  fun b' => if b' =? b then bytes else f b'.
Definition answer (f : store) (r : request) : list Z * store :=
  match r with
  | Read b => (f b, f)
  | Write b bytes => ([], store_write b bytes f)
  | Flush => ([], f)
  end.

Definition serve (r : request) : M cst (list Z) :=
  match r with
  | Read b => k64_xfs_cache_read dev b
  | Write b bytes => k64_xfs_cache_write dev b bytes ;; mret []
  | Flush => k64_xfs_cache_flush dev ;; mret []
  end.

(** A client that goes on after a failed request. *)
Fixpoint serve_all (rs : list request) : M cst (list (option (list Z))) :=
  match rs with
  | [] => mret []
  | r :: rs =>
      a ← try (serve r);
      l ← serve_all rs;
      mret (a :: l)
  end.

(** *** Blocks that wait to be written back *)
Definition unsaved s (b : Z) : Prop := exists i e,
  entries (c_cache s) !! i = Some e /\ valid e = true /\ dirty e = true /\ block_no e = b.
Definition no_more_unsaved s s' : Prop := forall b, unsaved s' b -> unsaved s b.

Lemma unsaved_set s i e' b : unsaved (set_entry i e' s) b ->
  unsaved s b \/ (valid e' = true /\ dirty e' = true /\ block_no e' = b).
Proof.
  intros (j & f & Hf & Hv & Hd & Hb). cbn [set_entry c_cache entries] in Hf.
  apply list_lookup_insert_Some in Hf as [(<- & -> & _)|[_ Hf]]; [by right|]. left. by exists j, f.
Qed.

Lemma unsaved_drop s i e' : valid e' = false \/ dirty e' = false -> no_more_unsaved s (set_entry i e' s).
Proof. intros H b [?|(Hv & Hd & _)]%unsaved_set; [done|]. destruct H; congruence. Qed.

Lemma unsaved_same s i e e' : entries (c_cache s) !! i = Some e -> valid e' = valid e -> dirty e' = dirty e ->
  block_no e' = block_no e -> no_more_unsaved s (set_entry i e' s).
Proof. intros He Hv Hd Hb b [?|(? & ? & ?)]%unsaved_set; [done|]. exists i, e. split_and!; congruence. Qed.

(** [unsaved] looks at the entries only. *)
Lemma unsaved_entries s s' : entries (c_cache s') = entries (c_cache s) -> no_more_unsaved s s'.
Proof. intros H b (i & e & He & ?). rewrite H in He. by exists i, e. Qed.

Definition write_back_fails s : Prop := exists b, unsaved s b /\ write_fails dev b.

Lemma raw_write_unsaved s b bytes : wp (raw_write dev b bytes)
  (fun _ s' => entries (c_cache s') = entries (c_cache s)) (fun s' => entries (c_cache s') = entries (c_cache s) /\ write_fails dev b) s.
Proof.
  unfold raw_write, wp. destruct (xfs_raw_write dev _ _ _) as [[] w'] eqn:Hw; [done|]. split; [done|].
  exists (c_hw s), bytes. by rewrite Hw.
Qed.

Lemma cache_victim_unsaved s : cache_ok s ->
  wp (cache_victim dev) (fun i s' => no_more_unsaved s s' /\ exists e, entries (c_cache s') !! i = Some e /\ valid e = false)
    (fun s' => no_more_unsaved s s' /\ write_back_fails s) s.
Proof.
  intros C. unfold cache_victim. wp_steps. destruct (victim_scan _ _ _ _) as [i|v] eqn:Hs.
  { apply victim_scan_inl in Hs as (_ & e & He & Hv). rewrite Nat.sub_0_r in He. wp_steps. split; [by intros b|by exists e]. }
  apply victim_scan_entry in Hs as (e & He & Hve); [|done]. wp_steps. eapply wp_get_entry; [exact He|].
  assert (Hend : forall s1, entries (c_cache s1) = entries (c_cache s) ->
    let s2 := set_entry v (mk_entry false false (block_no e) (last_used_tick e) (data e)) s1 in
    no_more_unsaved s s2 /\ exists e, entries (c_cache s2) !! v = Some e /\ valid e = false).
  { intros s1 E1 s2. split.
    - intros b Hb. apply (unsaved_entries s s1 E1). revert Hb. apply unsaved_drop. by left.
    - eexists. split; [apply list_lookup_insert_eq; rewrite E1; by eapply lookup_lt_Some|done]. }
  wp_steps; [|by apply Hend]. eapply wp_mono; [apply raw_write_unsaved| |].
  - intros [] s1 E1. wp_steps. by apply Hend.
  - intros s1 [E1 Hf]. split; [by apply unsaved_entries|]. exists (block_no e). split; [by exists v, e|done].
Qed.

Lemma touch_unsaved s i e : entries (c_cache s) !! i = Some e ->
  wp (t ← tick; e ← get_entry i;
      modify (set_entry i (mk_entry (valid e) (dirty e) (block_no e) t (data e))) ;;
      mret (data e)) (fun _ => no_more_unsaved s) (fun _ => False) s.
Proof.
  intros He. wp_steps. apply wp_tick. intros t. wp_steps. eapply wp_get_entry; [exact He|]. wp_steps.
  exact (unsaved_same (mk_cstate (mk_cache (entries (c_cache s)) t) (c_hw s)) i e (mk_entry (valid e) (dirty e) (block_no e) t (data e)) He eq_refl eq_refl eq_refl).
Qed.

(** A read makes no block unsaved, and fails only for the device. *)
Lemma cache_read_unsaved s b : cache_ok s ->
  wp (k64_xfs_cache_read dev b) (fun _ => no_more_unsaved s)
    (fun s' => no_more_unsaved s s' /\ (read_fails dev b \/ write_back_fails s)) s.
Proof.
  intros C. unfold k64_xfs_cache_read. wp_steps. destruct (cache_find (c_cache s) b) as [i|] eqn:Hf; [apply wp_ret|wp_steps].
  { apply cache_find_Some in Hf as (e & He & _). eapply wp_mono; [by eapply touch_unsaved|done|done]. }
  eapply wp_mono; [by apply cache_victim_unsaved| |intros s1 [? ?]; by split; [|right]].
  intros i s1 (U1 & e1 & He1 & Hv1). unfold raw_read_into. wp_steps. eapply wp_get_entry; [exact He1|]. wp_steps.
  destruct (xfs_raw_read dev _ _ _) as [ok out] eqn:Hr. set (e2 := mk_entry _ _ _ _ out). set (s2 := set_entry i e2 s1).
  assert (U2 : no_more_unsaved s s2) by (intros b' H; apply U1; revert H; by apply (unsaved_same s1 i e1)).
  assert (He2 : entries (c_cache s2) !! i = Some e2) by (apply list_lookup_insert_eq; by eapply lookup_lt_Some).
  wp_steps; [|split; [exact U2|left; exists (c_hw s1), (data e1); by rewrite Hr]].
  eapply wp_get_entry; [exact He2|]. apply wp_bind, wp_modify, wp_ret. set (e3 := mk_entry true false b _ _). set (s3 := set_entry i e3 s2).
  eapply wp_mono; [apply (touch_unsaved s3 i e3), list_lookup_insert_eq; by eapply lookup_lt_Some| |done].
  intros d s4 U4 b' H'%U4. apply U2. revert H'. apply unsaved_drop. by right.
Qed.

(** A write makes its block unsaved and no other. *)
Lemma cache_write_unsaved s b bytes : cache_ok s ->
  wp (k64_xfs_cache_write dev b bytes) (fun _ s' => forall b', unsaved s' b' -> unsaved s b' \/ b' = b)
    (fun s' => no_more_unsaved s s' /\ write_back_fails s) s.
Proof.
  intros C. unfold k64_xfs_cache_write. wp_steps. destruct (cache_find (c_cache s) b) as [i|] eqn:Hf; wp_steps.
  - apply cache_find_Some in Hf as (e & He & _ & Hb). apply wp_tick. intros t. wp_steps. eapply wp_get_entry; [exact He|]. wp_steps.
    intros b' [H|(_ & _ & H)]%unsaved_set; [by left|]. right. by rewrite <- H, <- Hb.
  - eapply wp_mono; [by apply cache_victim_unsaved| |done]. intros i s1 (U1 & e1 & He1 & Hv1). wp_steps.
    eapply wp_get_entry; [exact He1|]. wp_steps. apply wp_tick. intros t. wp_steps.
    eapply wp_get_entry; [apply list_lookup_insert_eq; by eapply lookup_lt_Some|]. wp_steps.
    intros b' [H|(_ & _ & H)]%unsaved_set; [|by right]. apply (unsaved_entries (set_entry i (mk_entry true (dirty e1) b (last_used_tick e1) (data e1)) s1)) in H; [|done].
    apply unsaved_set in H as [H|(_ & _ & H)]; [left; by apply U1|by right].
Qed.

(** A flush leaves no block unsaved, and fails only for one. *)
Lemma cache_flush_unsaved s : cache_ok s ->
  wp (k64_xfs_cache_flush dev) (fun _ s' => forall b, ~ unsaved s' b) (fun s' => no_more_unsaved s s' /\ write_back_fails s) s.
Proof.
  intros C. unfold k64_xfs_cache_flush. apply (wp_for_loop (fun i s' => cache_ok s' /\ clean_below i s' /\ no_more_unsaved s s')).
  - split_and!; [done|intros i e ?; lia|by intros b].
  - intros i s1 Hi (C1 & Hc1 & U1). eapply wp_mono; [eapply (wp_and _ _ (fun _ => no_more_unsaved s) _ (fun s' => no_more_unsaved s s' /\ write_back_fails s)); [by apply flush_entry_spec|]| |].
    2: { intros [] s2 [(C2 & _ & _ & Hc2) U2]. split_and!; [exact C2|exact Hc2|exact U2]. }
    2: { intros s2 [_ H2]. exact H2. }
    unfold flush_entry. destruct (lookup_lt_is_Some_2 (entries (c_cache s1)) (Z.to_nat i)) as [e He]; [rewrite (co_length s1 C1); lia|].
    wp_steps. eapply wp_get_entry; [exact He|]. wp_steps; [|done]. apply andb_true_iff in Hif as [Hv Hd].
    eapply wp_mono; [apply raw_write_unsaved| |].
    + intros [] s2 E2. wp_steps. intros b Hb. apply U1, (unsaved_entries s1 s2 E2). revert Hb. apply unsaved_drop. by right.
    + intros s2 [E2 Hf]. split; [intros b Hb; apply U1; by apply (unsaved_entries s1 s2 E2)|].
      exists (block_no e). split; [|done]. apply U1. by exists (Z.to_nat i), e.
  - intros s1 (C1 & Hc1 & _) b (i & e & He & Hv & Hd & _). rewrite (Hc1 i e) in Hd; [done| |done|done].
    apply lookup_lt_Some in He. rewrite (co_length s1 C1) in He. lia.
Qed.

(** *** The abstract store *)

(** The blocks written since the last flush, after a request that took
    effect. *)
Definition pending (r : request) (T : list Z) : list Z :=
  match r with
  | Read _ => T
  | Write b _ => b :: T
  | Flush => []
  end.

(** Why a request may be refused: the device fails to read the very block that
    is asked for, or fails to write back one of the pending blocks. *)
Definition blame (T : list Z) (r : request) : Prop :=
  (exists b, r = Read b /\ read_fails dev b) \/ (exists b, b ∈ T /\ write_fails dev b).

(** The abstract run, with the pending blocks: a request takes effect, or it is
    refused for a reason and has no effect. *)
Inductive store_run : list Z -> store -> list request -> list (option (list Z)) -> list Z -> store -> Prop :=
  | run_nil T f : store_run T f [] [] T f
  | run_done T f r rs l T' f' :
      store_run (pending r T) (answer f r).2 rs l T' f' ->
      store_run T f (r :: rs) (Some (answer f r).1 :: l) T' f'
  | run_refused T f r rs l T' f' : blame T r ->
      store_run T f rs l T' f' -> store_run T f (r :: rs) (None :: l) T' f'.

(** The state of the cache and of the device represents the store, and only
    blocks of [T] wait to be written back. *)
Definition represents s (T : list Z) (f : store) : Prop :=
  cache_ok s /\ (forall b, 0 <= b -> view s b = f b) /\ forall b, unsaved s b -> b ∈ T.

Lemma serve_refines s T f r : represents s T f -> request_ok r ->
  wp (serve r) (fun a s' => a = (answer f r).1 /\ represents s' (pending r T) (answer f r).2)
    (fun s' => represents s' T f /\ blame T r) s.
Proof.
  intros (C & V & HT) Hr.
  assert (Hsame : forall s' : cst, same_view s s' -> forall b, 0 <= b -> view s' b = f b) by (intros s' V' b Hb; by rewrite (V' b Hb), V).
  assert (Hblame : write_back_fails s -> blame T r) by (intros (b & Hb & Hf); right; exists b; split; [by apply HT|done]).
  assert (Hno : forall s' : cst, no_more_unsaved s s' -> forall b, unsaved s' b -> b ∈ T) by (intros s' U b Hb; by apply HT, U).
  destruct r as [b|b bytes|]; cbn [serve answer pending fst snd].
  - eapply wp_mono; [apply wp_and; [by apply k64_xfs_cache_read_spec|by apply cache_read_unsaved]| |].
    + intros d s' [(-> & C' & V' & _) U]. split; [by apply V|]. split_and!; eauto.
    + intros s' [(C' & V' & _) [U Hf]]. split; [split_and!; eauto|]. destruct Hf as [Hf|Hf]; [left; eauto|by apply Hblame].
  - destruct Hr as [Hb Hok]. wp_steps.
    eapply wp_mono; [apply wp_and; [by apply k64_xfs_cache_write_spec|by apply cache_write_unsaved]| |].
    + intros [] s' [(C' & V1 & _ & V2 & _) U]. wp_steps. split; [done|]. split_and!; [done| |].
      * intros b' Hb'. unfold store_write. destruct (Z.eqb_spec b' b) as [->|Hne]; [done|]. rewrite V2 by done. by apply V.
      * intros b' [H| ->]%U; [right; by apply HT|by left].
    + intros s' [(C' & V' & _) [U Hf]]. split; [split_and!; eauto|by apply Hblame].
  - wp_steps. eapply wp_mono; [apply wp_and; [by apply k64_xfs_cache_flush_spec|by apply cache_flush_unsaved]| |].
    + intros [] s' [(C' & V' & _) U]. wp_steps. split; [done|]. split_and!; [done|eauto|]. intros b Hb. by destruct (U b).
    + intros s' [(C' & V' & _) [U Hf]]. split; [split_and!; eauto|by apply Hblame].
Qed.

(** C1: The cache refines the store: for every sequence of requests it
    answers what the store answers, before and after device errors.  It
    refuses a request only when the device fails to read the block that is
    asked for, or to write back a block that was written to the cache and not
    flushed since, and the store is then as it was. *)
Theorem cache_refines_store rs s T f : represents s T f -> Forall request_ok rs ->
  wp (serve_all rs) (fun l s' => exists T' f', store_run T f rs l T' f' /\ represents s' T' f') (fun _ => False) s.
Proof.
  intros R Hrs. revert s T f R. induction Hrs as [|r rs Hr Hrs IH]; intros s T f R; cbn [serve_all].
  - wp_steps. exists T, f. by split; [constructor|].
  - apply wp_bind, wp_try. eapply wp_mono; [by apply serve_refines| |].
    + intros a s1 [-> R1]. apply wp_bind. eapply wp_mono; [by apply IH| |done].
      intros l s2 (T' & f' & Hrun & R2). wp_steps. exists T', f'. by split; [constructor|].
    + intros s1 [R1 Hf]. apply wp_bind. eapply wp_mono; [apply (IH s1 _ f R1)| |done].
      intros l s2 (T' & f' & Hrun & R2). wp_steps. exists T', f'. by split; [constructor|].
Qed.

(** After a write and a flush that succeed, the device itself holds the
    data, and every other block is as the store had it; they fail only when the
    device refuses a block of the cache or the written one. *)
Theorem write_flush_durable s b bytes : cache_ok s -> 0 <= b -> block_ok bytes ->
  wp (k64_xfs_cache_write dev b bytes ;; k64_xfs_cache_flush dev)
    (fun _ s' => disk_block dev (c_hw s') b = bytes /\
       forall b', 0 <= b' -> b' <> b -> disk_block dev (c_hw s') b' = view s b')
    (fun _ => exists b', (cached s b' \/ b' = b) /\ write_fails dev b') s.
Proof.
  intros C Hb Hok. wp_steps. eapply wp_mono; [by apply k64_xfs_cache_write_spec| |].
  2: { intros s1 (_ & _ & _ & b' & ? & ?). exists b'. by split; [left|]. }
  intros [] s1 (C1 & V1 & _ & V2 & Hw). eapply wp_mono; [by apply k64_xfs_cache_flush_spec| |].
  2: { intros s2 (_ & _ & _ & b' & Hc & ?). exists b'. by split; [apply Hw|]. }
  intros [] s2 (_ & _ & _ & Hd). split; [by rewrite Hd|]. intros b' Hb' Hne. rewrite Hd by done. by apply V2.
Qed.
End view.

(** When every entry is in use the replaced one is the least recently
    used. *)
Theorem victim_is_lru es v e : (forall f, f ∈ es -> last_used_tick f <= UINT64_MAX) ->
  victim_scan es 0 0 UINT64_MAX = inr v -> es !! v = Some e ->
  forall f, f ∈ es -> valid f = true /\ last_used_tick e <= last_used_tick f.
Proof.
  intros Hmax [Hval Hv]%victim_scan_inr He f Hf. split; [by apply Hval|].
  destruct Hv as [[-> Hle]|(_ & e' & He' & _ & Hle)].
  - etrans; [|by apply Hle]. apply Hmax. by eapply list_elem_of_lookup_2.
  - rewrite Nat.sub_0_r in He'. simplify_eq. by apply Hle.
Qed.
