(* ===== verification/Journal.v ===== *)
(** * The K64XFS metadata journal ([k64_xfs_journal.c])

    The mount state ([k64_xfs_mount_t] of [k64_xfs.h]), the static block
    buffers of [k64_xfs_journal.c] and [k64_xfs.c], and the journal operations:
    begin, record a metadata block, commit, recover.  Journal blocks are written
    to the device directly, past the cache. *)
From Stdlib Require Import ZArith Lia.
From stdpp Require Import base list.
From S2P Require Import Prelude Exec KString XfsFormat Block Cache.

(** [dev] is a parameter of the computations: no operation assigns the field
    after the mount. *)
Record k64_xfs_mount_t := mk_mount {
  mounted : bool;
  super : k64_xfs_superblock_disk_t;
  cache : k64_xfs_cache_t;
  tx_id : Z;
  journal_records : Z;
  journal_active : bool;
  mount_path : list Z
}.

(** [memset] of a mount *)
Definition zero_mount : k64_xfs_mount_t :=
  mk_mount false zero_super k64_xfs_cache_init 0 0 false [].

(** What the file-system code can reach: the mount it is given, the hardware
    behind its device, and the static buffers. *)
Record xstate (W : Type) := mk_xstate {
  fs : k64_xfs_mount_t;
  xhw : W;
  journal_header_block : list Z;
  journal_payload_block : list Z;
  xfs_zero_block : list Z;
  xfs_tmp_block : list Z;
  xfs_tmp_block2 : list Z;
  xfs_tmp_block3 : list Z;
  xfs_check_seen_block : list Z
}.
Arguments mk_xstate {W}.
Arguments fs {W}.
Arguments xhw {W}.
Arguments journal_header_block {W}.
Arguments journal_payload_block {W}.
Arguments xfs_zero_block {W}.
Arguments xfs_tmp_block {W}.
Arguments xfs_tmp_block2 {W}.
Arguments xfs_tmp_block3 {W}.
Arguments xfs_check_seen_block {W}.

Section updates.
Context {W : Type}.
Implicit Types s : xstate W.

Definition set_fs (m : k64_xfs_mount_t) s :=
  mk_xstate m (xhw s) (journal_header_block s) (journal_payload_block s) (xfs_zero_block s)
    (xfs_tmp_block s) (xfs_tmp_block2 s) (xfs_tmp_block3 s) (xfs_check_seen_block s).
Definition set_hw (w : W) s :=
  mk_xstate (fs s) w (journal_header_block s) (journal_payload_block s) (xfs_zero_block s)
    (xfs_tmp_block s) (xfs_tmp_block2 s) (xfs_tmp_block3 s) (xfs_check_seen_block s).
Definition set_header (b : list Z) s :=
  mk_xstate (fs s) (xhw s) b (journal_payload_block s) (xfs_zero_block s)
    (xfs_tmp_block s) (xfs_tmp_block2 s) (xfs_tmp_block3 s) (xfs_check_seen_block s).
Definition set_payload (b : list Z) s :=
  mk_xstate (fs s) (xhw s) (journal_header_block s) b (xfs_zero_block s)
    (xfs_tmp_block s) (xfs_tmp_block2 s) (xfs_tmp_block3 s) (xfs_check_seen_block s).
Definition set_zero (b : list Z) s :=
  mk_xstate (fs s) (xhw s) (journal_header_block s) (journal_payload_block s) b
    (xfs_tmp_block s) (xfs_tmp_block2 s) (xfs_tmp_block3 s) (xfs_check_seen_block s).
Definition set_tmp (b : list Z) s :=
  mk_xstate (fs s) (xhw s) (journal_header_block s) (journal_payload_block s) (xfs_zero_block s)
    b (xfs_tmp_block2 s) (xfs_tmp_block3 s) (xfs_check_seen_block s).
Definition set_tmp2 (b : list Z) s :=
  mk_xstate (fs s) (xhw s) (journal_header_block s) (journal_payload_block s) (xfs_zero_block s)
    (xfs_tmp_block s) b (xfs_tmp_block3 s) (xfs_check_seen_block s).
Definition set_tmp3 (b : list Z) s :=
  mk_xstate (fs s) (xhw s) (journal_header_block s) (journal_payload_block s) (xfs_zero_block s)
    (xfs_tmp_block s) (xfs_tmp_block2 s) b (xfs_check_seen_block s).
Definition set_seen (b : list Z) s :=
  mk_xstate (fs s) (xhw s) (journal_header_block s) (journal_payload_block s) (xfs_zero_block s)
    (xfs_tmp_block s) (xfs_tmp_block2 s) (xfs_tmp_block3 s) b.

Definition with_super (sb : k64_xfs_superblock_disk_t) (m : k64_xfs_mount_t) :=
  mk_mount (mounted m) sb (cache m) (tx_id m) (journal_records m) (journal_active m) (mount_path m).
Definition with_cache (c : k64_xfs_cache_t) (m : k64_xfs_mount_t) :=
  mk_mount (mounted m) (super m) c (tx_id m) (journal_records m) (journal_active m) (mount_path m).
Definition with_mounted (b : bool) (m : k64_xfs_mount_t) :=
  mk_mount b (super m) (cache m) (tx_id m) (journal_records m) (journal_active m) (mount_path m).
Definition with_journal (tx records : Z) (active : bool) (m : k64_xfs_mount_t) :=
  mk_mount (mounted m) (super m) (cache m) tx records active (mount_path m).
Definition with_path (p : list Z) (m : k64_xfs_mount_t) :=
  mk_mount (mounted m) (super m) (cache m) (tx_id m) (journal_records m) (journal_active m) p.

(** [fs->super.<field> = ...] *)
Definition upd_super (f : k64_xfs_superblock_disk_t -> k64_xfs_superblock_disk_t) s :=
  set_fs (with_super (f (super (fs s))) (fs s)) s.
End updates.

Definition journal_header_checksum (e : k64_xfs_journal_entry_disk_t) : Z :=
  k64_xfs_crc32 (enc_jentry (jentry_with_checksum e 0)).

Section journal.
Context {W : Type} (dev : k64_block_device_t W).
Abbreviation st := (xstate W).

Definition get_fs : M st k64_xfs_mount_t := gets fs.
Definition get_super : M st k64_xfs_superblock_disk_t := gets (fun s => super (fs s)).
Definition get_header : M st (list Z) := gets journal_header_block.
Definition get_payload : M st (list Z) := gets journal_payload_block.

(** [journal_block_read]/[journal_block_write] check the geometry exactly as
    [xfs_raw_read]/[xfs_raw_write] do. *)
Definition journal_block_write (block : Z) (bytes : list Z) : M st unit := fun s =>
  match raw_sectors dev block with
  | None => Err s
  | Some (lba, sectors) =>
      let '(ok, w) := k64_block_write dev (xhw s) lba sectors bytes in
      check ok (set_hw w s)
  end.

(** Reads a block into the buffer that [get]/[set] name. *)
Definition journal_block_read (get : st -> list Z) (set : list Z -> st -> st) (block : Z)
    : M st unit := fun s =>
  match raw_sectors dev block with
  | None => Err s
  | Some (lba, sectors) =>
      let '(ok, out) := k64_block_read dev (xhw s) lba sectors (get s) in
      check ok (set out s)
  end.

Definition journal_read_entry (block : Z) : M st k64_xfs_journal_entry_disk_t :=
  journal_block_read journal_header_block set_header block ;;
  hdr ← get_header;
  let out := dec_jentry hdr in
  check ((j_magic out =? K64_XFS_JOURNAL_MAGIC) &&
         (j_header_checksum out =? journal_header_checksum out)) ;;
  mret out.

(** The scanning loop of [k64_xfs_journal_recover]; the result is [committed]
    and [records].  At most [K64_XFS_JOURNAL_BLOCKS / 2] records are kept, so
    17 iterations are enough: running out of fuel is marked as undefined
    behaviour and shown never to happen. *)
Fixpoint recover_scan (fuel : nat) (off : Z) (records : list k64_xfs_journal_entry_disk_t)
    (tx : Z) : M st (bool * list k64_xfs_journal_entry_disk_t) :=
  match fuel with
  | O => ub
  | S fuel =>
      sb ← get_super;
      if s_journal_blocks sb <=? off then mret (false, records) else
      r ← try (journal_read_entry (u64 (s_journal_start sb + off)));
      match r with
      | None => mret (false, records)
      | Some entry =>
          let tx := if tx =? 0 then j_tx_id entry else tx in
          if negb (j_tx_id entry =? tx) then mret (false, records)
          else if j_type entry =? K64_XFS_JOURNAL_COMMIT then mret (true, records)
          else if negb (j_type entry =? K64_XFS_JOURNAL_METADATA_BLOCK) ||
                  negb (j_payload_size entry =? K64_XFS_BLOCK_SIZE) ||
                  (s_journal_blocks sb <=? u64 (off + 1)) ||
                  (K64_XFS_JOURNAL_BLOCKS / 2 <=? Z.of_nat (length records))
          then mret (false, records)
          else recover_scan fuel (u64 (off + 2)) (records ++ [entry]) tx
      end
  end.

(** Replaying record [i]. *)
Definition replay_record (i : Z) (r : k64_xfs_journal_entry_disk_t) : M st unit :=
  sb ← get_super;
  let payload_block := u64 (s_journal_start sb + i * 2 + 1) in
  journal_block_read journal_payload_block set_payload payload_block ;;
  p ← get_payload;
  check (k64_xfs_crc32 p =? j_payload_checksum r) ;;
  journal_block_write (j_target_block r) p.

Fixpoint replay_records (i : Z) (l : list k64_xfs_journal_entry_disk_t) : M st unit :=
  match l with
  | [] => mret tt
  | r :: l => replay_record i r ;; replay_records (i + 1) l
  end.

(** Zeroing block [off] of the journal. *)
Definition clear_block (off : Z) : M st unit :=
  sb ← get_super;
  hdr ← get_header;
  journal_block_write (u64 (s_journal_start sb + off)) hdr.

Definition k64_xfs_journal_recover : M st unit :=
  m ← get_fs;
  check (mounted m) ;;
  '(committed, records) ← recover_scan 17 0 [] 0;
  (if (committed : bool) then replay_records 0 records else mret tt) ;;
  modify (set_header (zeros BLOCK)) ;;
  for_loop (Z.to_nat (s_journal_blocks (super m))) 0 clear_block ;;
  modify (fun s => set_fs (with_journal (tx_id (fs s)) 0 false (fs s)) s) ;;
  modify (upd_super (fun sb => super_with_mount_state sb K64_XFS_MOUNT_CLEAN)).

Definition k64_xfs_journal_begin : M st unit :=
  m ← get_fs;
  check (mounted m) ;;
  if journal_active m then mret tt
  else
    modify (set_fs (with_journal (u64 (tx_id m + 1)) 0 true m)) ;;
    modify (upd_super (fun sb => super_with_mount_state sb K64_XFS_MOUNT_DIRTY)).

(** A journal header block: the record, then zeros. *)
Definition header_image (e : k64_xfs_journal_entry_disk_t) : list Z :=
  splice (zeros BLOCK) 0 (enc_jentry e).

Definition metadata_entry (tx block_no : Z) (block : list Z) : k64_xfs_journal_entry_disk_t :=
  let entry := mk_jentry K64_XFS_JOURNAL_MAGIC tx K64_XFS_JOURNAL_METADATA_BLOCK block_no
                 K64_XFS_BLOCK_SIZE (k64_xfs_crc32 block) 0 in
  jentry_with_checksum entry (journal_header_checksum entry).

Definition commit_entry (tx : Z) : k64_xfs_journal_entry_disk_t :=
  let entry := mk_jentry K64_XFS_JOURNAL_MAGIC tx K64_XFS_JOURNAL_COMMIT 0 0 0 0 in
  jentry_with_checksum entry (journal_header_checksum entry).

Definition k64_xfs_journal_metadata (block_no : Z) (block : list Z) : M st unit :=
  m ← get_fs;
  check (mounted m && journal_active m && negb (s_total_blocks (super m) <=? block_no)) ;;
  let header_block := u64 (s_journal_start (super m) + journal_records m * 2) in
  let payload_block := u64 (header_block + 1) in
  check (negb (u64 (s_journal_start (super m) + s_journal_blocks (super m)) <=? payload_block)) ;;
  modify (set_header (header_image (metadata_entry (tx_id m) block_no block))) ;;
  hdr ← get_header;
  journal_block_write header_block hdr ;;
  journal_block_write payload_block block ;;
  modify (fun s => set_fs (with_journal (tx_id (fs s)) (u32 (journal_records (fs s) + 1))
                             (journal_active (fs s)) (fs s)) s).

Definition k64_xfs_journal_commit : M st unit :=
  m ← get_fs;
  check (mounted m) ;;
  if negb (journal_active m) then mret tt
  else
    let commit_block := u64 (s_journal_start (super m) + journal_records m * 2) in
    check (negb (u64 (s_journal_start (super m) + s_journal_blocks (super m)) <=? commit_block)) ;;
    modify (set_header (header_image (commit_entry (tx_id m)))) ;;
    hdr ← get_header;
    journal_block_write commit_block hdr ;;
    modify (upd_super (fun sb => super_with_generation sb (u64 (s_generation sb + 1)))) ;;
    modify (fun s => set_fs (with_journal (tx_id (fs s)) 0 false (fs s)) s).
End journal.
