(* ===== verification/JournalSpec.v ===== *)
(** * The journal is atomic and durable

    What [k64_xfs_journal.c] promises, over the blocks of the device: a
    transaction writes only the journal area; once it has committed, recovery
    writes every recorded block home, in order, and clears the journal; a
    transaction that has not committed leaves no trace.  Recovery that is
    interrupted can be run again. *)
From Stdlib Require Import ZArith Lia.
From stdpp Require Import base list.
From S2P Require Import Prelude Exec KString XfsFormat XfsCrc Block Cache CacheSpec Journal.

#[local] Opaque k64_xfs_crc32.

(** A recorded block: its home and its new content. *)
Abbreviation jrecord := (Z * list Z)%type.

(** The store after the records are written home, in order. *)
Definition write_home (b : Z) (d : list Z) (f : Z -> list Z) : Z -> list Z :=
  fun b' => if b' =? b then d else f b'.
Definition apply_records (recs : list jrecord) (f : Z -> list Z) : Z -> list Z :=
  fold_left (fun f r => write_home r.1 r.2 f) recs f.

Lemma write_home_ext b d f g b' : f b' = g b' -> write_home b d f b' = write_home b d g b'.
Proof. unfold write_home. by destruct (b' =? b). Qed.

Lemma apply_records_ext recs f g b : f b = g b -> apply_records recs f b = apply_records recs g b.
Proof.
  revert f g. induction recs as [|r recs IH]; intros f g H; [done|].
  cbn. apply IH. by apply write_home_ext.
Qed.

Lemma apply_records_other recs f b : (forall r, r ∈ recs -> r.1 <> b) -> apply_records recs f b = f b.
Proof.
  revert f. induction recs as [|r recs IH]; intros f H; [done|]. cbn.
  etrans; [apply IH; intros r' Hr'; apply H; by right|].
  unfold write_home. destruct (Z.eqb_spec b r.1) as [->|]; [|done].
  destruct (H r); [by left|done].
Qed.

(** The entry in a block, if [journal_read_entry] accepts it. *)
Definition entry_in (block : list Z) : option k64_xfs_journal_entry_disk_t :=
  let e := dec_jentry block in
  if (j_magic e =? K64_XFS_JOURNAL_MAGIC) && (j_header_checksum e =? journal_header_checksum e)
  then Some e else None.

Lemma entry_in_zeros : entry_in (zeros BLOCK) = None.
Proof. by vm_compute. Qed.

Lemma jentry_checksum_idem e c : journal_header_checksum (jentry_with_checksum e c) = journal_header_checksum e.
Proof. by destruct e. Qed.

Lemma entry_in_image e : jentry_ok e -> j_magic e = K64_XFS_JOURNAL_MAGIC ->
  j_header_checksum e = journal_header_checksum e -> entry_in (header_image e) = Some e.
Proof.
  intros Ho Hm Hc. unfold entry_in, header_image, splice. rewrite take_0, app_nil_l.
  rewrite dec_jentry_enc by done. by rewrite Hm, Hc, !Z.eqb_refl.
Qed.

Lemma header_image_ok e : block_ok (header_image e).
Proof.
  unfold header_image. split.
  - rewrite splice_length; rewrite zeros_length; [done|]. rewrite enc_jentry_length.
    unfold BLOCK, K64_XFS_BLOCK_SIZE, sizeof_jentry. lia.
  - apply bytes_ok_splice; [apply zeros_bytes_ok|apply enc_jentry_bytes].
Qed.

Lemma sealed_ok m tx t b n c : is_u32 m -> is_u64 tx -> is_u32 t -> is_u64 b -> is_u32 n ->
  is_u32 c -> jentry_ok (let e := mk_jentry m tx t b n c 0 in
                         jentry_with_checksum e (journal_header_checksum e)).
Proof. intros. constructor; [assumption..|apply k64_xfs_crc32_range]. Qed.

Lemma metadata_entry_in tx b d : is_u64 tx -> is_u64 b ->
  entry_in (header_image (metadata_entry tx b d)) = Some (metadata_entry tx b d).
Proof.
  intros Ht Hb. apply entry_in_image; [|done|symmetry; apply jentry_checksum_idem].
  apply sealed_ok; [by vm_compute|exact Ht|by vm_compute|exact Hb|by vm_compute|].
  apply k64_xfs_crc32_range.
Qed.

Lemma commit_entry_in tx : is_u64 tx ->
  entry_in (header_image (commit_entry tx)) = Some (commit_entry tx).
Proof.
  intros Ht. apply entry_in_image; [|done|symmetry; apply jentry_checksum_idem].
  apply sealed_ok; [by vm_compute|exact Ht|by vm_compute..].
Qed.

Section journal_spec.
Context {W : Type} (dev : k64_block_device_t W) `{!BlockDriver dev} (D : device_ok dev).
Abbreviation st := (xstate W).
Abbreviation blk := (disk_block dev).
Implicit Types (s : st) (w : W).

(** [w'] differs from [w] only at blocks that satisfy [P]. *)
Definition changed_only (P : Z -> Prop) w w' : Prop := forall b, ~ P b -> blk w' b = blk w b.

Lemma changed_only_refl P w : changed_only P w w.
Proof. by intros b _. Qed.
Lemma changed_only_trans P w1 w2 w3 :
  changed_only P w1 w2 -> changed_only P w2 w3 -> changed_only P w1 w3.
Proof. intros H1 H2 b Hb. by rewrite H2, H1. Qed.
Lemma changed_only_mono (P Q : Z -> Prop) w w' : (forall b, P b -> Q b) ->
  changed_only P w w' -> changed_only Q w w'.
Proof. intros HPQ H b Hb. apply H. intros HP. by apply Hb, HPQ. Qed.

Lemma journal_block_write_raw b bytes s : journal_block_write dev b bytes s =
  let '(ok, w) := xfs_raw_write dev (xhw s) b bytes in check ok (set_hw w s).
Proof.
  unfold journal_block_write, xfs_raw_write. destruct (raw_sectors dev b) as [[lba n]|]; [done|].
  by destruct s.
Qed.

Abbreviation write_fails := (write_fails dev).

Lemma journal_block_write_spec b bytes s : 0 <= b -> block_ok bytes ->
  wp (journal_block_write dev b bytes)
    (fun _ s' => exists w', s' = set_hw w' s /\ blk w' b = bytes /\ changed_only (eq b) (xhw s) w')
    (fun s' => exists w', s' = set_hw w' s /\ changed_only (eq b) (xhw s) w' /\ write_fails b) s.
Proof.
  intros Hb Hok. unfold wp. rewrite journal_block_write_raw.
  destruct (xfs_raw_write dev _ _ _) as [ok w'] eqn:Hw.
  assert (changed_only (eq b) (xhw s) w').
  { intros b' Hne. eapply raw_write_frame; [done..|]. by intros ->. }
  destruct ok; exists w'; split_and!; [done| |done..|].
  - by eapply raw_write_true.
  - exists (xhw s), bytes. by rewrite Hw.
Qed.

Lemma journal_block_read_spec get set b s : 0 <= b -> set (get s) s = s ->
  wp (journal_block_read dev get set b)
    (fun _ s' => s' = set (blk (xhw s) b) s)
    (fun s' => exists buf, s' = set buf s /\ fst (xfs_raw_read dev (xhw s) b (get s)) = false) s.
Proof.
  intros Hb Hset. unfold wp, journal_block_read.
  pose proof (raw_read_true dev D (xhw s) b (get s)) as Hr. unfold xfs_raw_read in *.
  destruct (raw_sectors dev b) as [[lba n]|]; [|by exists (get s)].
  destruct (k64_block_read dev _ _ _ _) as [ok out]. destruct ok; cbn.
  - by rewrite (Hr out).
  - by exists out.
Qed.

(** ** The journal area of a superblock *)
Record area_ok (sb : k64_xfs_superblock_disk_t) : Prop := {
  ja_start : 0 <= s_journal_start sb;
  ja_blocks : 0 <= s_journal_blocks sb <= UINT32_MAX;
  ja_end : s_journal_start sb + s_journal_blocks sb < UINT64_MAX;
  ja_total : s_total_blocks sb <= UINT64_MAX
}.

Definition in_journal (sb : k64_xfs_superblock_disk_t) (b : Z) : Prop :=
  s_journal_start sb <= b < s_journal_start sb + s_journal_blocks sb.

Definition header_at (sb : k64_xfs_superblock_disk_t) (k : nat) : Z :=
  s_journal_start sb + 2 * Z.of_nat k.

(** The journal on the device starts with the headers, and with the payloads,
    of [recs]. *)
Definition headers_hold w sb tx (recs : list jrecord) : Prop := forall k t d,
  recs !! k = Some (t, d) -> blk w (header_at sb k) = header_image (metadata_entry tx t d).
Definition payloads_hold w sb (recs : list jrecord) : Prop := forall k t d,
  recs !! k = Some (t, d) -> blk w (header_at sb k + 1) = d.
Definition commit_holds w sb tx (n : nat) : Prop :=
  blk w (header_at sb n) = header_image (commit_entry tx).

Definition record_ok (sb : k64_xfs_superblock_disk_t) (r : jrecord) : Prop :=
  0 <= r.1 < s_total_blocks sb /\ block_ok r.2.

(** An open transaction that has logged [recs]. *)
Record tx_open (recs : list jrecord) s : Prop := {
  tx_mounted : mounted (fs s) = true;
  tx_active : journal_active (fs s) = true;
  tx_records : journal_records (fs s) = Z.of_nat (length recs);
  tx_id_ok : is_u64 (tx_id (fs s));
  tx_area : area_ok (super (fs s));
  tx_room : 2 * Z.of_nat (length recs) <= s_journal_blocks (super (fs s));
  tx_recs : Forall (record_ok (super (fs s))) recs;
  tx_headers : headers_hold (xhw s) (super (fs s)) (tx_id (fs s)) recs;
  tx_payloads : payloads_hold (xhw s) (super (fs s)) recs
}.

Lemma k64_xfs_journal_begin_spec s : mounted (fs s) = true -> journal_active (fs s) = false ->
  area_ok (super (fs s)) ->
  wp (k64_xfs_journal_begin (W:=W))
    (fun _ s' => tx_open [] s' /\ xhw s' = xhw s /\ tx_id (fs s') = u64 (tx_id (fs s) + 1) /\
       super (fs s') = super_with_mount_state (super (fs s)) K64_XFS_MOUNT_DIRTY)
    (fun _ => False) s.
Proof.
  intros Hm Ha [? ? ? ?]. unfold k64_xfs_journal_begin, get_fs. wp_steps; [congruence| |congruence].
  split_and!; [|done..]. split; cbn; try done; try lia.
  apply u64_range.
Qed.

Lemma headers_hold_snoc w sb tx recs t d : headers_hold w sb tx recs ->
  blk w (header_at sb (length recs)) = header_image (metadata_entry tx t d) ->
  headers_hold w sb tx (recs ++ [(t, d)]).
Proof.
  intros Hold Hnew k t' d' [Hx|[Hk Hx]]%lookup_app_Some; [by apply Hold|].
  apply list_lookup_singleton_Some in Hx as [? [= <- <-]]. by replace k with (length recs) by lia.
Qed.

Lemma payloads_hold_snoc w sb recs t d : payloads_hold w sb recs ->
  blk w (header_at sb (length recs) + 1) = d ->
  payloads_hold w sb (recs ++ [(t, d)]).
Proof.
  intros Hold Hnew k t' d' [Hx|[Hk Hx]]%lookup_app_Some; [by eapply Hold|].
  apply list_lookup_singleton_Some in Hx as [? [= <- <-]]. by replace k with (length recs) by lia.
Qed.

(** Writes past the records leave them. *)
Lemma headers_hold_frame w w' sb tx recs (P : Z -> Prop) : changed_only P w w' ->
  (forall k, (k < length recs)%nat -> ~ P (header_at sb k)) ->
  headers_hold w sb tx recs -> headers_hold w' sb tx recs.
Proof. intros Hc HP H k t d Hk. rewrite Hc; [by apply H|]. apply HP. by eapply lookup_lt_Some. Qed.

Lemma payloads_hold_frame w w' sb recs (P : Z -> Prop) : changed_only P w w' ->
  (forall k, (k < length recs)%nat -> ~ P (header_at sb k + 1)) ->
  payloads_hold w sb recs -> payloads_hold w' sb recs.
Proof. intros Hc HP H k t d Hk. rewrite Hc; [by eapply H|]. apply HP. by eapply lookup_lt_Some. Qed.

(** The blocks of the slots [i] to [j] of the journal. *)
Definition slots (sb : k64_xfs_superblock_disk_t) (i j : nat) (b : Z) : Prop :=
  header_at sb i <= b < header_at sb j.

Lemma slots_mono sb i j i' j' b : (i' <= i)%nat -> (j <= j')%nat -> slots sb i j b -> slots sb i' j' b.
Proof. unfold slots, header_at. lia. Qed.

(** Logging one more record. *)
Lemma tx_open_snoc recs t d s s' w1 : tx_open recs s -> record_ok (super (fs s)) (t, d) ->
  let b := header_at (super (fs s)) (length recs) in
  b + 1 < s_journal_start (super (fs s)) + s_journal_blocks (super (fs s)) ->
  fs s' = with_journal (tx_id (fs s)) (u32 (journal_records (fs s) + 1)) true (fs s) ->
  blk w1 b = header_image (metadata_entry (tx_id (fs s)) t d) -> changed_only (eq b) (xhw s) w1 ->
  blk (xhw s') (b + 1) = d -> changed_only (eq (b + 1)) w1 (xhw s') ->
  tx_open (recs ++ [(t, d)]) s'.
Proof.
  intros [Hm Ha Hr Hi A Hroom Hrec Hh Hp] Hok b Hb Hfs Hw1 Hc1 Hw2 Hc2.
  destruct A as [A1 A2 A3 A4]. unfold UINT32_MAX, UINT64_MAX, b, header_at in *.
  split; rewrite ?Hfs, ?length_app; cbn [length with_journal super tx_id journal_records]; try done.
  - cbn. rewrite Hr, u32_small; lia.
  - cbn. lia.
  - apply Forall_app. by split; [|constructor].
  - apply headers_hold_snoc.
    + eapply headers_hold_frame, headers_hold_frame; [exact Hc2| |exact Hc1| |done];
        unfold header_at; lia.
    + rewrite Hc2; [done|]. unfold header_at. lia.
  - apply payloads_hold_snoc; [|done].
    eapply payloads_hold_frame, payloads_hold_frame; [exact Hc2| |exact Hc1| |done];
      unfold header_at; lia.
Qed.

Lemma k64_xfs_journal_metadata_spec recs t d s : tx_open recs s -> 0 <= t -> block_ok d ->
  wp (k64_xfs_journal_metadata dev t d)
    (fun _ s' => tx_open (recs ++ [(t, d)]) s' /\ super (fs s') = super (fs s) /\
       tx_id (fs s') = tx_id (fs s) /\
       changed_only (in_journal (super (fs s))) (xhw s) (xhw s') /\
       changed_only (slots (super (fs s)) (length recs) (S (length recs))) (xhw s) (xhw s'))
    (fun s' => changed_only (in_journal (super (fs s))) (xhw s) (xhw s')) s.
Proof.
  intros T Ht Hd. pose proof T as [Hm Ha Hr Hi [A1 A2 A3 A4] Hroom Hrec Hh Hp].
  unfold k64_xfs_journal_metadata, get_fs, get_header.
  unfold UINT32_MAX, UINT64_MAX in *. set (sb := super (fs s)) in *.
  assert (Hhb : u64 (s_journal_start sb + journal_records (fs s) * 2) = header_at sb (length recs)).
  { unfold header_at. rewrite Hr. rewrite u64_small; lia. }
  apply wp_bind, wp_gets. fold sb. rewrite Hhb.
  rewrite (u64_small (s_journal_start sb + s_journal_blocks sb)) by lia.
  rewrite (u64_small (_ + 1)) by (unfold header_at; lia).
  assert (Hb0 : s_journal_start sb <= header_at sb (length recs)) by (unfold header_at; lia).
  wp_steps; try apply changed_only_refl.
  apply negb_true_iff, Z.leb_gt in H0. apply andb_true_iff in H as [_ H].
  apply negb_true_iff, Z.leb_gt in H.
  eapply wp_mono; [apply journal_block_write_spec; [lia|apply header_image_ok]| |].
  2: { intros ? (w1 & -> & Hc1 & _). eapply changed_only_mono; [|exact Hc1].
    intros b <-. split; lia. }
  intros [] ? (w1 & -> & Hw1 & Hc1). wp_steps.
  assert (Hc1' : changed_only (in_journal sb) (xhw s) w1).
  { eapply changed_only_mono; [|exact Hc1]. intros b <-. split; lia. }
  eapply wp_mono; [apply journal_block_write_spec; [lia|done]| |].
  - intros [] ? (w2 & -> & Hw2 & Hc2). wp_steps. split_and!; [|done|done| |].
    + eapply (tx_open_snoc recs t d s); [done..| |exact Hw1|exact Hc1|exact Hw2|exact Hc2].
      cbn. by rewrite Ha.
    + eapply changed_only_trans; [exact Hc1'|]. eapply changed_only_mono; [|exact Hc2].
      intros b <-. split; lia.
    + eapply changed_only_trans; (eapply changed_only_mono; [|first [exact Hc1|exact Hc2]]);
        intros b <-; unfold slots, header_at; lia.
  - intros ? (w2 & -> & Hc2 & _).
    eapply changed_only_trans; [exact Hc1'|]. eapply changed_only_mono; [|exact Hc2].
    intros b <-. split; lia.
Qed.

(** Committing: the journal holds the records and their commit record; nothing
    outside the journal area has changed. *)
Lemma k64_xfs_journal_commit_spec recs s : tx_open recs s ->
  wp (k64_xfs_journal_commit dev)
    (fun _ s' => journal_active (fs s') = false /\
       headers_hold (xhw s') (super (fs s)) (tx_id (fs s)) recs /\
       payloads_hold (xhw s') (super (fs s)) recs /\
       commit_holds (xhw s') (super (fs s)) (tx_id (fs s)) (length recs) /\
       2 * Z.of_nat (length recs) < s_journal_blocks (super (fs s)) /\
       changed_only (in_journal (super (fs s))) (xhw s) (xhw s'))
    (fun s' => changed_only (in_journal (super (fs s))) (xhw s) (xhw s')) s.
Proof.
  intros T. pose proof T as [Hm Ha Hr Hi [A1 A2 A3 A4] Hroom Hrec Hh Hp].
  unfold k64_xfs_journal_commit, get_fs, get_header.
  unfold UINT32_MAX, UINT64_MAX in *. set (sb := super (fs s)) in *.
  assert (Hhb : u64 (s_journal_start sb + journal_records (fs s) * 2) = header_at sb (length recs)).
  { unfold header_at. rewrite Hr. rewrite u64_small; lia. }
  apply wp_bind, wp_gets. fold sb. rewrite Hhb, Ha, Hm. cbn [negb].
  rewrite (u64_small (s_journal_start sb + s_journal_blocks sb)) by lia.
  wp_steps; try apply changed_only_refl.
  apply negb_true_iff, Z.leb_gt in H0. assert (Hb : 0 <= header_at sb (length recs)) by (unfold header_at; lia).
  eapply wp_mono; [apply journal_block_write_spec; [done|apply header_image_ok]| |].
  - intros [] ? (w1 & -> & Hw1 & Hc1). wp_steps. cbn in Hw1, Hc1 |- *. unfold header_at in H0.
    split_and!; [done| | |done|lia|].
    + eapply headers_hold_frame; [exact Hc1|unfold header_at; lia|done].
    + eapply payloads_hold_frame; [exact Hc1|unfold header_at; lia|done].
    + eapply changed_only_mono; [|exact Hc1]. intros b <-. split; unfold header_at; lia.
  - intros ? (w1 & -> & Hc1 & _). eapply changed_only_mono; [|exact Hc1].
    intros b <-. split; unfold header_at in *; lia.
Qed.

(** A whole transaction, as the file operations run it. *)
Fixpoint log_records (recs : list jrecord) : M st unit :=
  match recs with
  | [] => mret tt
  | (t, d) :: recs => k64_xfs_journal_metadata dev t d ;; log_records recs
  end.

Definition transaction (recs : list jrecord) : M st unit :=
  k64_xfs_journal_begin ;; log_records recs ;; k64_xfs_journal_commit dev.

Lemma log_records_spec recs logged s : tx_open logged s ->
  Forall (fun r => 0 <= r.1 /\ block_ok r.2) recs ->
  wp (log_records recs)
    (fun _ s' => tx_open (logged ++ recs) s' /\ super (fs s') = super (fs s) /\
       tx_id (fs s') = tx_id (fs s) /\
       changed_only (in_journal (super (fs s))) (xhw s) (xhw s') /\
       changed_only (slots (super (fs s)) (length logged) (length (logged ++ recs))) (xhw s) (xhw s'))
    (fun s' => changed_only (in_journal (super (fs s))) (xhw s) (xhw s')) s.
Proof.
  revert logged s. induction recs as [|[t d] recs IH]; intros logged s T Hr.
  - wp_steps. rewrite app_nil_r. split_and!; [done..|apply changed_only_refl|apply changed_only_refl].
  - apply Forall_cons in Hr as [[Ht Hd] Hr]. cbn [log_records]. wp_steps.
    eapply wp_mono; [by apply (k64_xfs_journal_metadata_spec logged)| |done].
    intros [] s1 (T1 & Hs1 & Ht1 & Hc1 & Hl1).
    eapply wp_mono; [by apply (IH (logged ++ [(t, d)]))| |].
    + intros [] s2 (T2 & Hs2 & Ht2 & Hc2 & Hl2). rewrite <- app_assoc in T2. rewrite Hs1 in *.
      split_and!; [done|done|congruence|by eapply changed_only_trans|].
      eapply changed_only_trans; (eapply changed_only_mono; [|first [exact Hl1|exact Hl2]]);
        intros b; apply slots_mono; rewrite ?length_app; cbn; lia.
    + intros s2 Hc2. rewrite Hs1 in Hc2. by eapply changed_only_trans.
Qed.

(** The journal holds the committed transaction [recs]. *)
Record committed w sb tx (recs : list jrecord) : Prop := {
  cm_area : area_ok sb;
  cm_room : 2 * Z.of_nat (length recs) < s_journal_blocks sb;
  cm_tx : is_u64 tx;
  cm_recs : Forall (record_ok sb) recs;
  cm_headers : headers_hold w sb tx recs;
  cm_payloads : payloads_hold w sb recs;
  cm_commit : commit_holds w sb tx (length recs)
}.

Definition mark_dirty (sb : k64_xfs_superblock_disk_t) := super_with_mount_state sb K64_XFS_MOUNT_DIRTY.

Lemma transaction_spec recs s : mounted (fs s) = true -> journal_active (fs s) = false ->
  area_ok (super (fs s)) -> Forall (fun r => 0 <= r.1 /\ block_ok r.2) recs ->
  wp (transaction recs)
    (fun _ s' => committed (xhw s') (mark_dirty (super (fs s))) (u64 (tx_id (fs s) + 1)) recs /\
       changed_only (in_journal (super (fs s))) (xhw s) (xhw s'))
    (fun s' => changed_only (in_journal (super (fs s))) (xhw s) (xhw s')) s.
Proof.
  intros Hm Ha HA Hr. unfold transaction. wp_steps.
  eapply wp_mono; [by apply k64_xfs_journal_begin_spec| |done].
  intros [] s1 (T1 & Hw1 & Ht1 & Hs1). wp_steps.
  assert (HJ : forall b, in_journal (super (fs s1)) b <-> in_journal (super (fs s)) b) by (by rewrite Hs1).
  eapply wp_mono; [by apply (log_records_spec recs [])| |].
  2: { intros s2 Hc2. rewrite <- Hw1. eapply changed_only_mono, Hc2. apply HJ. }
  intros [] s2 (T2 & Hs2 & Ht2 & Hc2 & _). rewrite app_nil_l in T2.
  eapply wp_mono; [by apply (k64_xfs_journal_commit_spec recs)| |].
  - intros [] s3 (_ & Hh & Hp & Hc & Hroom & Hc3). rewrite Hs2, Ht2, Hs1, Ht1, ?Hw1 in *.
    split; [|by eapply changed_only_trans].
    split; try done; [by destruct HA|apply u64_range|]. destruct T2. unfold mark_dirty. by rewrite <- Hs2.
  - intros s3 Hc3. rewrite Hs2, Hs1, Hw1 in *. by eapply changed_only_trans.
Qed.

(** A transaction that has not reached its commit. *)
Record begun w sb tx (recs : list jrecord) : Prop := {
  bg_area : area_ok sb;
  bg_room : 2 * Z.of_nat (length recs) <= s_journal_blocks sb;
  bg_recs : Forall (record_ok sb) recs;
  bg_headers : headers_hold w sb tx recs
}.

Lemma log_begun recs s : mounted (fs s) = true -> journal_active (fs s) = false ->
  area_ok (super (fs s)) -> Forall (fun r => 0 <= r.1 /\ block_ok r.2) recs ->
  forall s', (k64_xfs_journal_begin ;; log_records recs) s = Ret tt s' ->
  begun (xhw s') (super (fs s)) (u64 (tx_id (fs s) + 1)) recs /\
  changed_only (slots (super (fs s)) 0 (length recs)) (xhw s) (xhw s').
Proof.
  intros Hm Ha HA Hr s' Ht. revert s' Ht. cut (wp (k64_xfs_journal_begin ;; log_records recs)
    (fun _ s' => begun (xhw s') (super (fs s)) (u64 (tx_id (fs s) + 1)) recs /\
       changed_only (slots (super (fs s)) 0 (length recs)) (xhw s) (xhw s')) (fun _ => True) s).
  { intros H s' Ht. exact (wp_Ret _ _ _ _ _ _ H Ht). }
  wp_steps. eapply wp_mono; [by apply k64_xfs_journal_begin_spec| |done].
  intros [] s1 (T1 & Hw1 & Ht1 & Hs1).
  eapply wp_mono; [by apply (log_records_spec recs [])| |done].
  intros [] s2 (T2 & Hs2 & Ht2 & _ & Hl). rewrite app_nil_l in *. rewrite Hs1, Hw1 in Hl.
  split; [|exact Hl]. destruct T2 as [_ _ _ _ _ Hroom Hrecs Hh _]. rewrite Hs2, Ht2, Hs1, Ht1 in *.
  by split.
Qed.

(** ** Recovery *)

(** Only the static buffers of the journal differ. *)
Definition same_but_buffers s s' : Prop := exists h p, s' = set_payload p (set_header h s).

Lemma same_but_buffers_refl s : same_but_buffers s s.
Proof. exists (journal_header_block s), (journal_payload_block s). by destruct s. Qed.
Lemma same_but_buffers_trans s1 s2 s3 :
  same_but_buffers s1 s2 -> same_but_buffers s2 s3 -> same_but_buffers s1 s3.
Proof. intros (h & p & ->) (h' & p' & ->). by exists h', p'. Qed.
Lemma same_but_header s h : same_but_buffers s (set_header h s).
Proof. exists h, (journal_payload_block s). by destruct s. Qed.

Lemma journal_read_entry_spec b s : 0 <= b ->
  wp (journal_read_entry dev b)
    (fun e s' => entry_in (blk (xhw s) b) = Some e /\ same_but_buffers s s')
    (fun s' => same_but_buffers s s' /\
       (entry_in (blk (xhw s) b) = None \/
        fst (xfs_raw_read dev (xhw s) b (journal_header_block s)) = false)) s.
Proof.
  intros Hb. unfold journal_read_entry, get_header. wp_steps.
  eapply wp_mono; [apply journal_block_read_spec; [done|by destruct s]| |].
  2: { intros ? (buf & -> & Hf). split; [apply same_but_header|by right]. }
  intros [] ? ->. unfold entry_in. cbv zeta. wp_steps; cbn [journal_header_block set_header] in *.
  - split; [|apply same_but_header]. by rewrite H.
  - split; [apply same_but_header|left]. by rewrite H.
Qed.

Section reliable.
Context (sb : k64_xfs_superblock_disk_t) (A : area_ok sb).
(** the journal area can be read *)
Context (Hreads : forall w b buf, in_journal sb b -> fst (xfs_raw_read dev w b buf) = true).

Lemma scan_read_entry s off : super (fs s) = sb -> 0 <= off < s_journal_blocks sb ->
  wp (try (journal_read_entry dev (u64 (s_journal_start sb + off))))
    (fun r s' => r = entry_in (blk (xhw s) (s_journal_start sb + off)) /\ same_but_buffers s s')
    (fun _ => False) s.
Proof.
  intros Hsb Hoff. destruct A as [A1 A2 A3 A4]. unfold UINT64_MAX in *.
  rewrite u64_small by lia. wp_steps.
  eapply wp_mono; [apply journal_read_entry_spec; lia| |].
  - intros e s1 [-> ?]. done.
  - intros s1 [? [->|Hf]]; [done|]. rewrite Hreads in Hf; [done|]. split; lia.
Qed.

(** How the scan stops after the records: at a commit record of the
    transaction, or at a block that holds no entry of it: none at all, or one
    that another transaction has left there. *)
Definition stops w tx (off : Z) (c : bool) : Prop :=
  if c then entry_in (blk w (s_journal_start sb + off)) = Some (commit_entry tx) /\
            off < s_journal_blocks sb
  else off < s_journal_blocks sb -> forall e,
         entry_in (blk w (s_journal_start sb + off)) = Some e -> j_tx_id e <> tx.

Definition entry_of (tx : Z) (r : jrecord) : k64_xfs_journal_entry_disk_t :=
  metadata_entry tx r.1 r.2.

(** One round of the scan, given the entry it reads. *)
Lemma recover_scan_round fuel off records tx Q E s : super (fs s) = sb ->
  0 <= off < s_journal_blocks sb ->
  (forall s', same_but_buffers s s' ->
   wp (match entry_in (blk (xhw s) (s_journal_start sb + off)) with
       | None => mret (false, records)
       | Some entry =>
           let tx := if tx =? 0 then j_tx_id entry else tx in
           if negb (j_tx_id entry =? tx) then mret (false, records)
           else if j_type entry =? K64_XFS_JOURNAL_COMMIT then mret (true, records)
           else if negb (j_type entry =? K64_XFS_JOURNAL_METADATA_BLOCK) ||
                   negb (j_payload_size entry =? K64_XFS_BLOCK_SIZE) ||
                   (s_journal_blocks sb <=? u64 (off + 1)) ||
                   (K64_XFS_JOURNAL_BLOCKS / 2 <=? Z.of_nat (length records))
           then mret (false, records)
           else recover_scan dev fuel (u64 (off + 2)) (records ++ [entry]) tx
       end) Q E s') ->
  wp (recover_scan dev (S fuel) off records tx) Q E s.
Proof.
  intros Hsb Hoff H. cbn [recover_scan]. apply wp_bind, wp_gets. rewrite Hsb.
  destruct (Z.leb_spec (s_journal_blocks sb) off); [lia|]. apply wp_bind.
  eapply wp_mono; [by apply scan_read_entry| |done]. intros r s1 [-> Hs1]. by apply H.
Qed.

Lemma tx_found tx0 tx : tx0 = 0 \/ tx0 = tx -> (if tx0 =? 0 then tx else tx0) = tx.
Proof. intros [->| ->]; [done|]. destruct (Z.eqb_spec tx 0); congruence. Qed.

Lemma recover_scan_records recs fuel off records tx0 tx s c :
  super (fs s) = sb -> tx0 = 0 \/ tx0 = tx -> (c = false -> tx <> 0 /\ (recs = [] -> tx0 = tx)) -> 0 <= off ->
  (length recs < fuel)%nat -> (length records + length recs <= 16)%nat ->
  off + 2 * Z.of_nat (length recs) <= s_journal_blocks sb ->
  (forall k r, recs !! k = Some r ->
     entry_in (blk (xhw s) (s_journal_start sb + (off + 2 * Z.of_nat k))) = Some (entry_of tx r)) ->
  stops (xhw s) tx (off + 2 * Z.of_nat (length recs)) c ->
  wp (recover_scan dev fuel off records tx0)
    (fun r s' => r = (c, records ++ map (entry_of tx) recs) /\ same_but_buffers s s')
    (fun _ => False) s.
Proof.
  revert fuel off records tx0 s. induction recs as [|r recs IH];
    intros fuel off records tx0 s Hsb Htx0 Hstart Hoff Hfuel Hlen Hroom Hrecs Hstop;
    (destruct fuel as [|fuel]; [cbn in Hfuel; lia|]).
  - cbn [map]. rewrite app_nil_r. cbn [length] in Hstop. rewrite Z.add_0_r in Hstop.
    destruct (decide (s_journal_blocks sb <= off)) as [Hend|Hin].
    { cbn [recover_scan]. apply wp_bind, wp_gets. rewrite Hsb, (proj2 (Z.leb_le _ _) Hend).
      destruct c; [destruct Hstop; lia|]. split; [done|apply same_but_buffers_refl]. }
    apply recover_scan_round; [done|lia|]. intros s1 Hs1. destruct c.
    + destruct Hstop as [-> _]. cbv zeta. change (j_tx_id (commit_entry tx)) with tx.
      rewrite tx_found, Z.eqb_refl by done. done.
    + destruct (Hstart eq_refl) as [Hnz ->]; [|done]. specialize (Hstop ltac:(lia)).
      destruct (entry_in _) as [e|]; [|done]. cbv zeta. rewrite (proj2 (Z.eqb_neq tx 0)) by done.
      rewrite (proj2 (Z.eqb_neq (j_tx_id e) tx)) by (by apply Hstop). done.
  - cbn [length] in *. apply recover_scan_round; [done|lia|]. intros s1 Hs1.
    pose proof (Hrecs 0%nat r eq_refl) as Hr. rewrite Z.add_0_r in Hr. rewrite Hr. cbv zeta.
    change (j_tx_id (entry_of tx r)) with tx. rewrite tx_found, Z.eqb_refl by done.
    destruct A as [A1 A2 A3 A4]. unfold UINT32_MAX, UINT64_MAX in *.
    rewrite !(u64_small (off + _)) by lia.
    change (K64_XFS_JOURNAL_BLOCKS / 2) with 16.
    rewrite (proj2 (Z.leb_gt _ (off + 1))), (proj2 (Z.leb_gt 16 _)) by lia.
    cbn [negb orb entry_of metadata_entry j_type j_payload_size jentry_with_checksum].
    rewrite Z.eqb_refl. cbn [negb orb].
    destruct Hs1 as (h & p & ->).
    eapply wp_mono; [eapply (IH fuel (off + 2) _ tx); [exact Hsb|..]| |done]; [by right| |lia|lia| |lia| | |].
    + intros Hc. split; [by apply Hstart|done].
    + rewrite length_app. cbn. lia.
    + intros k r' Hk. rewrite <- (Hrecs (S k) r' Hk). do 2 f_equal. cbn. f_equal. lia.
    + replace (off + 2 + 2 * Z.of_nat (length recs))
        with (off + 2 * Z.of_nat (S (length recs))) by lia. done.
    + intros r' s2 [-> Hs2]. rewrite <- app_assoc. split; [done|].
      eapply same_but_buffers_trans; [|done]. by exists h, p.
Qed.

(** *** Replaying the records *)
Definition home_of (recs : list jrecord) (b : Z) : Prop := exists r, r ∈ recs /\ r.1 = b.

Lemma replay_records_spec recs i tx s :
  super (fs s) = sb -> 0 <= i -> 2 * (i + Z.of_nat (length recs)) <= s_journal_blocks sb ->
  Forall (fun r => 0 <= r.1 /\ ~ in_journal sb r.1 /\ block_ok r.2) recs ->
  (forall k r, recs !! k = Some r -> blk (xhw s) (s_journal_start sb + 2 * (i + Z.of_nat k) + 1) = r.2) ->
  wp (replay_records dev i (map (entry_of tx) recs))
    (fun _ s' => fs s' = fs s /\
       forall b, blk (xhw s') b = apply_records recs (blk (xhw s)) b)
    (fun s' => fs s' = fs s /\
       changed_only (home_of recs) (xhw s) (xhw s') /\
       exists b, home_of recs b /\ write_fails b) s.
Proof.
  revert i s. induction recs as [|[t d] recs IH]; intros i s Hsb Hi Hroom Hok Hpay; [done|].
  apply Forall_cons in Hok as [(Ht & Hnj & Hd) Hok]. cbn [map replay_records fst snd] in *.
  cbn [length] in Hroom. unfold replay_record at 1, get_super, get_payload.
  pose proof (Hpay 0%nat _ eq_refl) as Hp0. rewrite Z.add_0_r in Hp0. cbn [snd] in Hp0.
  destruct A as [A1 A2 A3 A4]. unfold UINT32_MAX, UINT64_MAX in *.
  wp_steps. rewrite Hsb, u64_small by lia.
  replace (s_journal_start sb + i * 2 + 1) with (s_journal_start sb + 2 * i + 1) by lia.
  eapply wp_mono; [apply journal_block_read_spec; [lia|by destruct s]| |].
  2: { intros ? (buf & -> & Hf). rewrite Hreads in Hf; [done|]. split; lia. }
  intros [] ? ->. wp_steps; cbn [xhw set_payload journal_payload_block fs] in *; rewrite Hp0 in *.
  2: { cbn in H. by rewrite Z.eqb_refl in H. }
  change (j_target_block (entry_of tx (t, d))) with t.
  eapply wp_mono; [by apply journal_block_write_spec| |].
  - intros [] ? (w1 & -> & Hw1 & Hc1). cbn [xhw set_payload] in *.
    eapply wp_mono; [apply (IH (i + 1)); cbn [xhw set_hw fs set_payload]; [done|lia|lia|done|]| |].
    + intros k r Hk. rewrite Hc1.
      * rewrite <- (Hpay (S k) r Hk). f_equal. lia.
      * intros Heq. apply Hnj. apply lookup_lt_Some in Hk. split; lia.
    + intros [] s2 [Hf2 Hb2]. split; [done|]. intros b. rewrite Hb2. cbn [apply_records fold_left].
      apply apply_records_ext. cbn [xhw set_hw fst snd]. unfold write_home.
      destruct (Z.eqb_spec b t) as [->|Hne]; [done|]. rewrite Hc1; [done|]. congruence.
    + intros s2 (Hf2 & Hb2 & b & (r & Hr & <-) & Hf). cbn [xhw set_hw] in Hb2.
      split_and!; [done| |exists r.1; split; [exists r; split; [by right|done]|done]].
      eapply changed_only_trans; (eapply changed_only_mono; [|first [exact Hc1|exact Hb2]]).
      * intros b <-. exists (t, d). split; [by left|done].
      * intros b (r' & Hr' & <-). exists r'. split; [by right|done].
  - intros ? (w1 & -> & Hc1 & Hf). cbn [xhw set_hw set_payload] in *.
    assert (home_of ((t, d) :: recs) t) by (exists (t, d); split; [by left|done]).
    split_and!; [done| |by exists t].
    eapply changed_only_mono; [|exact Hc1]. by intros b <-.
Qed.

(** *** Clearing the journal *)
Definition cleared w : Prop := forall b, in_journal sb b -> blk w b = zeros BLOCK.

Lemma clear_spec s : super (fs s) = sb -> journal_header_block s = zeros BLOCK ->
  wp (for_loop (Z.to_nat (s_journal_blocks sb)) 0 (clear_block dev))
    (fun _ s' => fs s' = fs s /\ changed_only (in_journal sb) (xhw s) (xhw s') /\ cleared (xhw s'))
    (fun s' => fs s' = fs s /\ changed_only (in_journal sb) (xhw s) (xhw s') /\
       exists b, in_journal sb b /\ write_fails b) s.
Proof.
  intros Hsb Hz. destruct A as [A1 A2 A3 A4]. unfold UINT32_MAX, UINT64_MAX in *.
  apply (wp_for_loop (fun i s' => fs s' = fs s /\ journal_header_block s' = zeros BLOCK /\
    changed_only (in_journal sb) (xhw s) (xhw s') /\
    forall b, s_journal_start sb <= b < s_journal_start sb + i -> blk (xhw s') b = zeros BLOCK)).
  - split_and!; [done|done|apply changed_only_refl|lia].
  - intros i s1 Hi (Hf1 & Hz1 & Hc1 & Hb1). unfold clear_block, get_super, get_header. wp_steps.
    rewrite Hf1, Hsb, Hz1, u64_small by lia.
    eapply wp_mono; [apply journal_block_write_spec; [lia|apply zeros_block_ok]| |].
    + intros [] ? (w2 & -> & Hw2 & Hc2). cbn [fs set_hw xhw journal_header_block].
      split_and!; [done|done| |].
      * eapply changed_only_trans, changed_only_mono, Hc2; [exact Hc1|]. intros b <-. split; lia.
      * intros b Hb. destruct (decide (b = s_journal_start sb + i)) as [->|Hne]; [done|].
        rewrite Hc2 by congruence. apply Hb1. lia.
    + intros ? (w2 & -> & Hc2 & Hf). cbn [fs set_hw xhw].
      assert (in_journal sb (s_journal_start sb + i)) by (split; lia).
      split_and!; [done| |by eexists].
      eapply changed_only_trans, changed_only_mono, Hc2; [exact Hc1|]. by intros b <-.
  - intros s1 (Hf1 & _ & Hc1 & Hb1). split_and!; [done|done|].
    intros b [? ?]. apply Hb1. lia.
Qed.

Definition mark_clean := super_with_mount_state sb K64_XFS_MOUNT_CLEAN.

(** The end of recovery: zero the header buffer, clear, reset the mount. *)
Lemma recover_tail_spec (m : k64_xfs_mount_t) s : fs s = m -> super m = sb ->
  wp (modify (set_header (zeros BLOCK)) ;;
      for_loop (Z.to_nat (s_journal_blocks (super m))) 0 (clear_block dev) ;;
      modify (fun s => set_fs (with_journal (tx_id (fs s)) 0 false (fs s)) s) ;;
      modify (upd_super (fun sb => super_with_mount_state sb K64_XFS_MOUNT_CLEAN)))
    (fun _ s' => fs s' = with_super mark_clean (with_journal (tx_id m) 0 false m) /\
       changed_only (in_journal sb) (xhw s) (xhw s') /\ cleared (xhw s'))
    (fun s' => changed_only (in_journal sb) (xhw s) (xhw s') /\
       exists b, in_journal sb b /\ write_fails b) s.
Proof.
  intros Hm Hsb. wp_steps. rewrite Hsb.
  eapply wp_mono; [apply (clear_spec (set_header (zeros BLOCK) s)); [by rewrite <- Hsb, <- Hm|done]| |].
  - intros [] s1 (Hf1 & Hc1 & Hz1). wp_steps. split_and!; [|done..].
    destruct s1; cbn in *. subst. unfold mark_clean. by rewrite Hsb.
  - by intros s1 (Hf1 & Hc1 & Hz1).
Qed.

Lemma home_of_dec recs b : home_of recs b \/ (forall r, r ∈ recs -> r.1 <> b).
Proof.
  induction recs as [|[t d] recs IH].
  - right. intros r Hr. by apply not_elem_of_nil in Hr.
  - destruct (decide (t = b)) as [<-|Hne]; [left; exists (t, d); split; [by left|done]|].
    destruct IH as [(r & ? & ?)|IH]; [left; exists r; split; [by right|done]|right].
    intros r [->|Hr]%elem_of_cons; [done|by apply IH].
Qed.

(** Replaying over a partial replay gives the same store. *)
Lemma apply_records_home recs f g b : home_of recs b ->
  apply_records recs f b = apply_records recs g b.
Proof.
  revert f g. induction recs as [|[t d] recs IH]; intros f g (r & Hr & Hb).
  { by apply not_elem_of_nil in Hr. }
  cbn [apply_records fold_left]. destruct (home_of_dec recs b) as [Hh|Hn]; [by apply IH|].
  apply elem_of_cons in Hr as [->|Hr]; [|by destruct (Hn r)]. cbn [fst snd] in *.
  rewrite !apply_records_other by done. unfold write_home. by rewrite Hb, Z.eqb_refl.
Qed.

Lemma replay_idempotent recs w w' b : changed_only (home_of recs) w w' ->
  apply_records recs (blk w') b = apply_records recs (blk w) b.
Proof.
  intros Hc. destruct (home_of_dec recs b) as [Hh|Hn]; [by apply apply_records_home|].
  rewrite !apply_records_other by done. apply Hc. intros (r & Hr & Hb). by apply (Hn r).
Qed.

Lemma committed_entries w tx recs : committed w sb tx recs ->
  (forall k r, recs !! k = Some r ->
     entry_in (blk w (s_journal_start sb + (0 + 2 * Z.of_nat k))) = Some (entry_of tx r)) /\
  stops w tx (0 + 2 * Z.of_nat (length recs)) true.
Proof.
  intros [_ Hroom Htx Hrecs Hh _ Hc]. split; [|split; [|lia]].
  - intros k [t d] Hk. rewrite Z.add_0_l. fold (header_at sb k). rewrite (Hh k t d Hk).
    apply metadata_entry_in; [done|].
    eapply Forall_lookup in Hrecs as [Ht _]; [|exact Hk]. destruct A. unfold UINT64_MAX in *. cbn in *. lia.
  - rewrite Z.add_0_l. fold (header_at sb (length recs)). rewrite Hc. by apply commit_entry_in.
Qed.

(** Replaying does not touch the journal. *)
Lemma committed_frame w w' tx recs : Forall (fun r => ~ in_journal sb r.1) recs ->
  changed_only (home_of recs) w w' -> committed w sb tx recs -> committed w' sb tx recs.
Proof.
  intros Hnj Hc [? Hroom ? ? Hh Hp Hcm].
  assert (Hj : forall b, in_journal sb b -> blk w' b = blk w b).
  { intros b Hb. apply Hc. intros (r & Hr & <-). rewrite Forall_forall in Hnj. by apply (Hnj r). }
  assert (Hk : forall k, (k < length recs)%nat -> in_journal sb (header_at sb k) /\
                                            in_journal sb (header_at sb k + 1)).
  { intros k Hk. unfold in_journal, header_at. lia. }
  split; try done.
  - intros k t d Hl. rewrite Hj; [by apply Hh|]. apply Hk. by eapply lookup_lt_Some.
  - intros k t d Hl. rewrite Hj; [by eapply Hp|]. apply Hk. by eapply lookup_lt_Some.
  - unfold commit_holds. rewrite Hj; [done|]. unfold in_journal, header_at. lia.
Qed.

(** Recovery of a committed transaction writes every recorded block home and
    leaves an empty journal.  It fails only if the device refuses a write;
    then either the journal still holds the transaction and a second
    recovery gives the same store, or the store is already complete. *)
Lemma recover_committed recs tx s : mounted (fs s) = true -> super (fs s) = sb ->
  s_journal_blocks sb <= K64_XFS_JOURNAL_BLOCKS ->
  Forall (fun r => ~ in_journal sb r.1) recs -> committed (xhw s) sb tx recs ->
  wp (k64_xfs_journal_recover dev)
    (fun _ s' => super (fs s') = mark_clean /\ journal_active (fs s') = false /\
       cleared (xhw s') /\
       forall b, ~ in_journal sb b -> blk (xhw s') b = apply_records recs (blk (xhw s)) b)
    (fun s' => (exists b, (in_journal sb b \/ home_of recs b) /\ write_fails b) /\
       ((committed (xhw s') sb tx recs /\
         forall b, apply_records recs (blk (xhw s')) b = apply_records recs (blk (xhw s)) b) \/
        forall b, ~ in_journal sb b -> blk (xhw s') b = apply_records recs (blk (xhw s)) b)) s.
Proof.
  intros Hm Hsb Hjb Hnj C. pose proof C as [_ Hroom Htx Hrecs _ Hp _].
  unfold K64_XFS_JOURNAL_BLOCKS in Hjb. unfold k64_xfs_journal_recover, get_fs.
  apply wp_bind, wp_gets. rewrite Hm. apply wp_bind, wp_ret, wp_bind.
  destruct (committed_entries (xhw s) tx recs C) as [He Hstop].
  eapply wp_mono; [apply (recover_scan_records recs 17 0 [] 0 tx s true); [done|by left|done|lia|lia|cbn; lia|lia|done|done]| |done].
  intros r s1 [-> (h & p & ->)]. apply wp_bind.
  eapply wp_mono; [apply (replay_records_spec recs 0 tx); [done|lia|lia| |]| |].
  - rewrite Forall_forall in Hrecs, Hnj. apply Forall_forall. intros r Hr.
    destruct (Hrecs r Hr) as [[? _] ?]. split_and!; [done|by apply Hnj|done].
  - intros k [t d] Hk. rewrite <- (Hp k t d Hk). done.
  - intros [] s2 [Hf2 Hb2]. cbn [xhw set_payload set_header fs] in *.
    eapply wp_mono; [apply recover_tail_spec; [done|done]| |].
    + intros [] s3 (Hf3 & Hc3 & Hz3). rewrite Hf3. split_and!; [done..|].
      intros b Hb. by rewrite Hc3.
    + intros s3 (Hc3 & b & Hb & Hf). split; [by exists b; split; [left|]|right].
      intros b' Hb'. by rewrite Hc3.
  - intros s2 (Hf2 & Hc2 & b & Hb & Hf). split; [by exists b; split; [right|]|left].
    split; [by eapply committed_frame|]. intros b'. by apply replay_idempotent.
Qed.

(** Recovery of a journal that starts with the headers of a transaction and
    continues with anything but an entry of that transaction. *)
Lemma recover_no_commit recs tx s : mounted (fs s) = true -> super (fs s) = sb ->
  s_journal_blocks sb <= K64_XFS_JOURNAL_BLOCKS ->
  2 * Z.of_nat (length recs) <= s_journal_blocks sb -> recs <> [] ->
  is_u64 tx -> tx <> 0 -> Forall (record_ok sb) recs -> headers_hold (xhw s) sb tx recs ->
  stops (xhw s) tx (2 * Z.of_nat (length recs)) false ->
  wp (k64_xfs_journal_recover dev)
    (fun _ s' => super (fs s') = mark_clean /\ cleared (xhw s') /\
       forall b, ~ in_journal sb b -> blk (xhw s') b = blk (xhw s) b)
    (fun s' => (exists b, in_journal sb b /\ write_fails b) /\
       forall b, ~ in_journal sb b -> blk (xhw s') b = blk (xhw s) b) s.
Proof.
  intros Hm Hsb Hjb Hroom Hne Htx Htx0 Hrecs Hh Hend. unfold K64_XFS_JOURNAL_BLOCKS in Hjb.
  unfold k64_xfs_journal_recover, get_fs.
  apply wp_bind, wp_gets. rewrite Hm. apply wp_bind, wp_ret, wp_bind.
  eapply wp_mono; [apply (recover_scan_records recs 17 0 [] 0 tx s false); [done|by left|done|lia|lia|cbn; lia|lia| |]| |done].
  - intros k [t d] Hk. rewrite Z.add_0_l. fold (header_at sb k). rewrite (Hh k t d Hk).
    apply metadata_entry_in; [done|].
    eapply Forall_lookup in Hrecs as [Ht _]; [|exact Hk]. destruct A. unfold UINT64_MAX in *. cbn in *. lia.
  - by rewrite Z.add_0_l.
  - intros r s1 [-> (h & p & ->)]. apply wp_bind, wp_ret.
    eapply wp_mono; [apply recover_tail_spec; [done|done]| |].
    + intros [] s3 (Hf3 & Hc3 & Hz3). rewrite Hf3. by split_and!.
    + intros s3 (Hc3 & b & Hb & Hf). split; [by exists b|done].
Qed.
End reliable.

(** Recovery always ends, with a result, on any disk and any superblock. *)
Definition ends {A} (m : M st A) : Prop := forall s, wp m (fun _ _ => True) (fun _ => True) s.

Lemma ends_bind {A B} (m : M st A) (k : A -> M st B) :
  ends m -> (forall a, ends (k a)) -> ends (m ≫= k).
Proof. intros Hm Hk s. apply wp_bind. eapply wp_mono; [apply Hm| |done]. intros a s' _. apply Hk. Qed.

Lemma ends_for_loop n i body : (forall i, ends (body i)) -> ends (for_loop n i body).
Proof.
  intros Hb. revert i. induction n as [|n IH]; intros i; [done|].
  cbn [for_loop]. apply ends_bind; [apply Hb|]. intros _. apply IH.
Qed.

Lemma journal_block_write_ends b bytes : ends (journal_block_write dev b bytes).
Proof.
  intros s. unfold wp. rewrite journal_block_write_raw. by destruct (xfs_raw_write dev _ _ _) as [[] ?].
Qed.

Lemma journal_block_read_ends get set b : ends (journal_block_read dev get set b).
Proof.
  intros s. unfold wp, journal_block_read. destruct (raw_sectors dev b) as [[lba n]|]; [|done].
  by destruct (k64_block_read dev _ _ _ _) as [[] ?].
Qed.

Lemma replay_records_ends i l : ends (replay_records dev i l).
Proof.
  revert i. induction l as [|r l IH]; intros i; [done|]. cbn [replay_records].
  apply ends_bind; [|intros _; apply IH]. unfold replay_record, get_super, get_payload.
  apply ends_bind; [done|]. intros sb. apply ends_bind; [apply journal_block_read_ends|].
  intros _. apply ends_bind; [done|]. intros p. apply ends_bind; [|intros _; apply journal_block_write_ends].
  intros s. by wp_steps.
Qed.

Lemma journal_read_entry_ends b : ends (journal_read_entry dev b).
Proof.
  apply ends_bind; [apply journal_block_read_ends|]. intros _ s. unfold get_header. by wp_steps.
Qed.

(** The scan ends: at most 16 records are accepted, so 17 rounds are enough on
    any disk, whatever it holds. *)
Lemma recover_scan_ends fuel off records tx :
  (length records <= 16)%nat -> (16 < fuel + length records)%nat ->
  ends (recover_scan dev fuel off records tx).
Proof.
  revert off records tx. induction fuel as [|fuel IH]; intros off records tx Hr Hf s; [lia|].
  cbn [recover_scan]. unfold get_super. wp_steps; [done|].
  eapply wp_mono; [apply journal_read_entry_ends| |intros s1 _; by wp_steps].
  intros e s1 _. cbv zeta. wp_steps; try done.
  assert (Hl : (length records < 16)%nat).
  { revert Hif2. rewrite !orb_false_iff. intros [_ Hl%Z.leb_gt].
    change (K64_XFS_JOURNAL_BLOCKS / 2) with 16 in Hl. lia. }
  apply IH; rewrite length_app; cbn; lia.
Qed.

(** C26: Recovery ends without undefined behaviour, whatever the device and the
    mount hold. *)
Theorem recover_terminates s : k64_xfs_journal_recover dev s <> Ub.
Proof.
  apply (wp_no_ub _ (fun _ _ => True) (fun _ => True)).
  unfold k64_xfs_journal_recover, get_fs. wp_steps; [|done].
  eapply wp_mono; [apply recover_scan_ends; cbn; lia| |done].
  intros [c records] s1 _. apply ends_bind.
  - destruct c; [apply replay_records_ends|done].
  - intros _. apply ends_bind; [done|]. intros _. apply ends_bind; [|done].
    apply ends_for_loop. intros i. unfold clear_block, get_super, get_header.
    apply ends_bind; [done|]. intros sb. apply ends_bind; [done|]. intros h.
    apply journal_block_write_ends.
Qed.

(** A superblock that places the journal where [sb] does, as the next mount
    reads it. *)
Definition same_area (sb sb' : k64_xfs_superblock_disk_t) : Prop :=
  s_journal_start sb' = s_journal_start sb /\ s_journal_blocks sb' = s_journal_blocks sb /\
  s_total_blocks sb' = s_total_blocks sb.

Lemma same_area_journal sb sb' b : same_area sb sb' -> in_journal sb' b <-> in_journal sb b.
Proof. intros (H1 & H2 & _). unfold in_journal. by rewrite H1, H2. Qed.

Lemma same_area_header sb sb' k : same_area sb sb' -> header_at sb' k = header_at sb k.
Proof. intros (H1 & _). unfold header_at. by rewrite H1. Qed.

Lemma same_area_ok sb sb' : same_area sb sb' -> area_ok sb -> area_ok sb'.
Proof. intros (H1 & H2 & H3) []. split; rewrite ?H1, ?H2, ?H3; done. Qed.

Lemma same_area_records sb sb' recs : same_area sb sb' -> Forall (record_ok sb) recs ->
  Forall (record_ok sb') recs.
Proof. intros (_ & _ & H3) H. eapply Forall_impl; [exact H|]. intros r. unfold record_ok. by rewrite H3. Qed.

(** A device with the same journal blocks holds the same committed
    transaction. *)
Lemma committed_moved sb sb' w w' tx recs : same_area sb sb' ->
  (forall b, in_journal sb b -> blk w' b = blk w b) ->
  committed w sb tx recs -> committed w' sb' tx recs.
Proof.
  intros Hsa Hj [HA Hroom Htx Hrecs Hh Hp Hc]. pose proof Hsa as (Hs & Hb & _).
  assert (Hin : forall k, (k < length recs)%nat -> in_journal sb (header_at sb k) /\
                                             in_journal sb (header_at sb k + 1)).
  { intros k Hk. unfold in_journal, header_at. lia. }
  split; [by eapply same_area_ok|by rewrite Hb|done|by eapply same_area_records|..].
  - intros k t d Hk. rewrite (same_area_header sb sb'), Hj; [by apply Hh| |done].
    apply Hin. by eapply lookup_lt_Some.
  - intros k t d Hk. rewrite (same_area_header sb sb'), Hj; [by eapply Hp| |done].
    apply Hin. by eapply lookup_lt_Some.
  - unfold commit_holds. rewrite (same_area_header sb sb'), Hj; [done| |done].
    unfold in_journal, header_at. lia.
Qed.


(** C3: A crash before a transaction commits: at least one record has been
    logged, its payload and those after it may or may not have reached the
    device, and the rest of the journal holds what older transactions, with
    other numbers, have left there, whole committed ones included.  The
    recovery of the next mount [c] clears the journal and changes no other
    block. *)
Theorem recover_uncommitted recs s s' c : mounted (fs s) = true ->
  journal_active (fs s) = false -> area_ok (super (fs s)) ->
  s_journal_blocks (super (fs s)) <= K64_XFS_JOURNAL_BLOCKS ->
  (forall w b buf, in_journal (super (fs s)) b -> fst (xfs_raw_read dev w b buf) = true) ->
  Forall (fun r => 0 <= r.1 /\ block_ok r.2) recs -> recs <> [] ->
  let tx := u64 (tx_id (fs s) + 1) in
  tx <> 0 ->
  (forall k e, in_journal (super (fs s)) (header_at (super (fs s)) k) ->
     entry_in (blk (xhw s) (header_at (super (fs s)) k)) = Some e -> j_tx_id e <> tx) ->
  (k64_xfs_journal_begin ;; log_records recs) s = Ret tt s' ->
  mounted (fs c) = true -> same_area (super (fs s)) (super (fs c)) ->
  (forall k, in_journal (super (fs s)) (header_at (super (fs s)) k) ->
     blk (xhw c) (header_at (super (fs s)) k) = blk (xhw s') (header_at (super (fs s)) k)) ->
  wp (k64_xfs_journal_recover dev)
    (fun _ c' => cleared (super (fs s)) (xhw c') /\
       forall b, ~ in_journal (super (fs s)) b -> blk (xhw c') b = blk (xhw c) b)
    (fun c' => (exists b, in_journal (super (fs s)) b /\ write_fails b) /\
       forall b, ~ in_journal (super (fs s)) b -> blk (xhw c') b = blk (xhw c) b) c.
Proof.
  intros Hm Ha HA Hjb Hreads Hr Hne tx Htx Hstale Ht Hmc Hsa Hj.
  destruct (log_begun recs s Hm Ha HA Hr _ Ht) as (T & Hl).
  pose proof Hsa as (Hs & Hb & _). set (sb := super (fs s)) in *.
  assert (HJ : forall b, in_journal (super (fs c)) b <-> in_journal sb b)
    by (intros b; by apply same_area_journal).
  assert (Hh : forall k, header_at (super (fs c)) k = header_at sb k)
    by (intros k; by apply same_area_header).
  eapply wp_mono; [apply (recover_no_commit (super (fs c)) (same_area_ok _ _ Hsa HA)) with (recs := recs) (tx := tx)| |];
    [|done|done|by rewrite Hb|rewrite Hb; apply T|done|apply u64_range|done| | | | |].
  - intros w b buf Hin. by apply Hreads, HJ.
  - eapply same_area_records; [exact Hsa|apply T].
  - intros k t d Hk. rewrite Hh, Hj; [by apply T|].
    apply lookup_lt_Some in Hk. destruct T as [_ Hroom _ _]. unfold in_journal, header_at. lia.
  - intros Hoff e He. rewrite Hb in Hoff.
    change (s_journal_start (super (fs c)) + 2 * Z.of_nat (length recs))
      with (header_at (super (fs c)) (length recs)) in He. rewrite Hh in He.
    assert (Hin : in_journal sb (header_at sb (length recs))).
    { unfold in_journal, header_at. destruct HA. lia. }
    rewrite Hj, Hl in He by (done || (unfold slots; lia)). by eapply Hstale.
  - intros [] c' (_ & Hz & Hc'). split; intros b Hnj; [by apply Hz, HJ|]. apply Hc'. by rewrite HJ.
  - intros c' [(b & Hin & Hf) Hc']. split; [exists b; by rewrite <- HJ|].
    intros b' Hb'. apply Hc'. by rewrite HJ.
Qed.
End journal_spec.
