(* ===== verification/XfsCore.v ===== *)
(** * K64XFS: blocks, bitmaps, inodes and extents ([k64_xfs.c], lines 1-257)

    The block layer of the file system over the cache and the journal, the
    inode table, and the inode and block allocators.  The static buffer
    [xfs_tmp_block] is shared state, as in the code. *)
From Stdlib Require Import ZArith Lia.
From stdpp Require Import base list.
From S2P Require Import Prelude Exec KString XfsFormat Block Cache Journal.

Definition XFS_INODE_BITMAP_BLOCK : Z := 1.
Definition XFS_BLOCK_BITMAP_BLOCK : Z := 2.
Definition XFS_JOURNAL_START : Z := 3.
Definition XFS_INODE_TABLE_START : Z := XFS_JOURNAL_START + K64_XFS_JOURNAL_BLOCKS.
Definition XFS_DIRENT_PER_BLOCK : Z := K64_XFS_BLOCK_SIZE / Z.of_nat sizeof_dirent.

Definition xfs_copy (dst_size : Z) (src : option (list Z)) : list Z := bounded_copy dst_size src.

(** A char array of [n] bytes that holds the string [s]. *)
Definition char_array (n : nat) (s : list Z) : list Z := s ++ zeros (n - length s).

Definition xfs_fs_blocks {W} (dev : k64_block_device_t W) : Z :=
  if block_size dev =? 0 then 0
  else u64 (block_count dev * block_size dev) / K64_XFS_BLOCK_SIZE.

Definition xfs_dev_ok {W} (dev : k64_block_device_t W) : bool :=
  online dev && (if read dev is Some _ then true else false) && (if write dev is Some _ then true else false) &&
  writable dev && negb (block_size dev =? 0) && (K64_XFS_BLOCK_SIZE mod block_size dev =? 0) &&
  (64 <=? u64 (block_count dev * block_size dev) / K64_XFS_BLOCK_SIZE).

Definition xfs_inode_table_blocks : Z :=
  let bytes := u64 (K64_XFS_MAX_INODES * Z.of_nat sizeof_inode) in
  u64 (bytes + K64_XFS_BLOCK_SIZE - 1) / K64_XFS_BLOCK_SIZE.

Definition xfs_data_start : Z := u64 (XFS_INODE_TABLE_START + xfs_inode_table_blocks).

(** Bit [bit] of a bitmap buffer; [None] is an access past the buffer. *)
Definition xfs_bitmap_get (bitmap : list Z) (bit : Z) : option bool :=
  x ← getZ bitmap (bit / 8);
  Some (negb (Z.land x (u8 (Z.shiftl 1 (bit mod 8))) =? 0)).

Definition xfs_bitmap_set (bitmap : list Z) (bit : Z) (value : bool) : option (list Z) :=
  x ← getZ bitmap (bit / 8);
  setZ bitmap (bit / 8)
    (if value then Z.lor x (u8 (Z.shiftl 1 (bit mod 8)))
     else Z.land x (u8 (Z.lnot (u8 (Z.shiftl 1 (bit mod 8)))))).

(** The number of inodes per inode-table block, the block of an inode and its
    offset there. *)
Definition inodes_per_block : Z := K64_XFS_BLOCK_SIZE / Z.of_nat sizeof_inode.
Definition inode_block (sb : k64_xfs_superblock_disk_t) (inode_id : Z) : Z :=
  u64 (s_inode_table_start sb + (inode_id - 1) / inodes_per_block).
Definition inode_offset (inode_id : Z) : Z :=
  ((inode_id - 1) mod inodes_per_block) * Z.of_nat sizeof_inode.

(** The blocks a byte count occupies: [(size + BLOCK_SIZE - 1) / BLOCK_SIZE]. *)
Definition blocks_of (size : Z) : Z := u64 (size + K64_XFS_BLOCK_SIZE - 1) / K64_XFS_BLOCK_SIZE.

(** The physical block of logical block [logical], from the first extent that
    covers it. *)
Fixpoint extent_lookup (l : list k64_xfs_extent_disk_t) (logical : Z) : option Z :=
  match l with
  | [] => None
  | ex :: l =>
      if (e_logical_block ex <=? logical) &&
         (logical <? u64 (e_logical_block ex + e_block_count ex))
      then Some (u64 (e_physical_block ex + (logical - e_logical_block ex)))
      else extent_lookup l logical
  end.

(** The extents the loops visit: [i < extent_count && i < DIRECT_EXTENTS]. *)
Definition live_extents (inode : k64_xfs_inode_disk_t) : list k64_xfs_extent_disk_t :=
  take (Z.to_nat (Z.min (i_extent_count inode) K64_XFS_DIRECT_EXTENTS)) (i_direct_extents inode).

Section core.
Context {W : Type} (dev : k64_block_device_t W).
Abbreviation st := (xstate W).

Definition get_tmp : M st (list Z) := gets xfs_tmp_block.

(** [&fs->cache] and the device behind it. *)
Definition to_cache (s : st) : @cstate W := mk_cstate (cache (fs s)) (xhw s).
Definition of_cache (c : @cstate W) (s : st) : st :=
  set_hw (c_hw c) (set_fs (with_cache (c_cache c) (fs s)) s).

Definition xfs_block_read (block : Z) : M st (list Z) :=
  zoom to_cache of_cache (k64_xfs_cache_read dev block).

(** [xfs_block_read(fs, block, xfs_tmp_block)] *)
Definition xfs_block_read_tmp (block : Z) : M st unit :=
  b ← xfs_block_read block;
  modify (set_tmp b).

(** Whether a block write goes through the journal first. *)
Definition journaled (m : k64_xfs_mount_t) (block : Z) : bool :=
  journal_active m && (block <? s_data_start (super m)) &&
  ((block <? s_journal_start (super m)) ||
   (u64 (s_journal_start (super m) + s_journal_blocks (super m)) <=? block)).

Definition xfs_block_write (block : Z) (bytes : list Z) : M st unit :=
  m ← get_fs;
  (if journaled m block then k64_xfs_journal_metadata dev block bytes else mret tt) ;;
  zoom to_cache of_cache (k64_xfs_cache_write dev block bytes).

Definition xfs_read_inode (inode_id : Z) : M st k64_xfs_inode_disk_t :=
  check (negb (inode_id =? 0) && negb (K64_XFS_MAX_INODES <? inode_id)) ;;
  sb ← get_super;
  xfs_block_read_tmp (inode_block sb inode_id) ;;
  tmp ← get_tmp;
  let out := dec_inode (slice tmp (Z.to_nat (inode_offset inode_id)) sizeof_inode) in
  check ((i_magic out =? K64_XFS_INODE_MAGIC) && (i_inode_id out =? inode_id) &&
         (i_checksum out =? k64_xfs_inode_checksum out)) ;;
  mret out.

Definition xfs_write_inode (inode : k64_xfs_inode_disk_t) : M st unit :=
  check (negb (i_inode_id inode =? 0) && negb (K64_XFS_MAX_INODES <? i_inode_id inode)) ;;
  sb ← get_super;
  xfs_block_read_tmp (inode_block sb (i_inode_id inode)) ;;
  let tmp_inode := inode_with_checksum inode (k64_xfs_inode_checksum inode) in
  modify (fun s => set_tmp (splice (xfs_tmp_block s) (Z.to_nat (inode_offset (i_inode_id inode)))
                              (enc_inode tmp_inode)) s) ;;
  tmp ← get_tmp;
  xfs_block_write (inode_block sb (i_inode_id inode)) tmp.

Definition xfs_write_super : M st unit :=
  sb ← get_super;
  let sb := super_with_checksum sb (k64_xfs_super_checksum sb) in
  modify (fun s => set_tmp (splice (xfs_tmp_block s) 0 (enc_super sb)) s) ;;
  tmp ← get_tmp;
  xfs_block_write 0 tmp.

(** [xfs_bitmap_set(xfs_tmp_block, bit, value)] *)
Definition bitmap_set_tmp (bit : Z) (value : bool) : M st unit :=
  tmp ← get_tmp;
  tmp ← deref (xfs_bitmap_set tmp bit value);
  modify (set_tmp tmp).

Definition alloc_inode_step (i : Z) : M st (option Z) :=
  tmp ← get_tmp;
  used ← deref (xfs_bitmap_get tmp i);
  if (used : bool) then mret None
  else
    bitmap_set_tmp i true ;;
    sb ← get_super;
    tmp ← get_tmp;
    xfs_block_write (s_inode_bitmap_start sb) tmp ;;
    mret (Some (i + 1)).

Definition xfs_alloc_inode : M st Z :=
  sb ← get_super;
  xfs_block_read_tmp (s_inode_bitmap_start sb) ;;
  r ← find_loop (Z.to_nat (K64_XFS_MAX_INODES - 1)) 1 alloc_inode_step;
  match r with
  | Some i => mret i
  | None => fail
  end.

Definition xfs_free_inode (inode_id : Z) : M st unit :=
  check (negb (inode_id =? 0) && negb (K64_XFS_MAX_INODES <? inode_id)) ;;
  sb ← get_super;
  xfs_block_read_tmp (s_inode_bitmap_start sb) ;;
  bitmap_set_tmp (inode_id - 1) false ;;
  tmp ← get_tmp;
  xfs_block_write (s_inode_bitmap_start sb) tmp.

(** The scan of [xfs_alloc_extent] over the blocks [b], [b+1], ..., [n] of
    them: first fit. *)
Fixpoint alloc_extent_scan (n : nat) (b run_start run_len blocks : Z) : M st Z :=
  match n with
  | O => fail
  | S n =>
      tmp ← get_tmp;
      used ← deref (xfs_bitmap_get tmp (u32 b));
      if (used : bool) then alloc_extent_scan n (b + 1) run_start 0 blocks
      else
        let run_start := if run_len =? 0 then b else run_start in
        let run_len := u64 (run_len + 1) in
        if run_len =? blocks then
          for_loop (Z.to_nat blocks) 0 (fun x => bitmap_set_tmp (u32 (run_start + x)) true) ;;
          sb ← get_super;
          check (negb (s_free_blocks sb <? blocks)) ;;
          modify (upd_super (fun sb => super_with_free_blocks sb (s_free_blocks sb - blocks))) ;;
          tmp ← get_tmp;
          xfs_block_write (s_block_bitmap_start sb) tmp ;;
          mret run_start
        else alloc_extent_scan n (b + 1) run_start run_len blocks
  end.

Definition xfs_alloc_extent (blocks : Z) : M st Z :=
  check (negb (blocks =? 0) && negb (UINT32_MAX <? blocks)) ;;
  sb ← get_super;
  xfs_block_read_tmp (s_block_bitmap_start sb) ;;
  alloc_extent_scan (Z.to_nat (s_total_blocks sb - s_data_start sb)) (s_data_start sb) 0 0 blocks.

Definition free_extent_step (start i : Z) : M st unit :=
  tmp ← get_tmp;
  used ← deref (xfs_bitmap_get tmp (u32 (start + i)));
  if (used : bool) then
    bitmap_set_tmp (u32 (start + i)) false ;;
    modify (upd_super (fun sb => super_with_free_blocks sb (u64 (s_free_blocks sb + 1))))
  else mret tt.

Definition xfs_free_extent (start blocks : Z) : M st unit :=
  sb ← get_super;
  check (negb (blocks =? 0) && negb (start <? s_data_start sb) &&
         negb (s_total_blocks sb <? u64 (start + blocks))) ;;
  xfs_block_read_tmp (s_block_bitmap_start sb) ;;
  for_loop (Z.to_nat blocks) 0 (free_extent_step start) ;;
  tmp ← get_tmp;
  xfs_block_write (s_block_bitmap_start sb) tmp.

Definition xfs_inode_read_data_block (inode : k64_xfs_inode_disk_t) (logical : Z) : M st (list Z) :=
  match extent_lookup (live_extents inode) logical with
  | Some physical => xfs_block_read physical
  | None => mret (zeros BLOCK)
  end.

Definition xfs_inode_write_data_block (inode : k64_xfs_inode_disk_t) (logical : Z) (bytes : list Z)
    : M st unit :=
  match extent_lookup (live_extents inode) logical with
  | Some physical => xfs_block_write physical bytes
  | None => fail
  end.
End core.
