(* ===== verification/XfsSpec.v ===== *)
(** * The block layer, bitmaps, inodes and extents of K64XFS are correct

    The file system sees the blocks of its device through the cache ([fview]).
    Under the invariant [fs_ok] a block read returns the view, a block write
    changes it at one block even when it is journaled, an inode written is the
    inode read back, and the allocators hand out blocks and inodes that were
    free, mark exactly them, and keep the free count.

    Over the block view of [XfsSpec]: an inode written is the inode read back
    and no other inode changes; the inode and block allocators hand out what was
    free, mark exactly it, and keep the count of free blocks. *)
From Stdlib Require Import ZArith Lia.
From stdpp Require Import base list.
From S2P Require Import Prelude Bitmap Exec KString XfsFormat XfsCrc Block Cache CacheSpec Journal JournalSpec XfsCore.

(** ** Bitmaps *)
Lemma xfs_bitmap_get_at bm i : xfs_bitmap_get bm i = bit_at bm i.
Proof.
  unfold xfs_bitmap_get, bit_at. destruct (getZ bm (i / 8)) as [x|]; [|done]. cbn [mbind option_bind].
  rewrite bit_mask_pow, land_pow2_testbit; [done|]. apply Z.mod_pos_bound. lia.
Qed.

Lemma xfs_bitmap_set_put bm i (v : bool) : xfs_bitmap_set bm i v = bit_put bm i v.
Proof. unfold xfs_bitmap_set, bit_put. by rewrite bit_mask_pow. Qed.

Lemma xfs_bitmap_get_is_Some bm i : 0 <= i < 8 * Z.of_nat (length bm) ->
  exists v, xfs_bitmap_get bm i = Some v.
Proof. rewrite xfs_bitmap_get_at. apply bit_at_is_Some. Qed.

(** A bitmap access is undefined behaviour exactly when the bit lies past the
    buffer. *)
Lemma xfs_bitmap_get_None bm i : 0 <= i ->
  xfs_bitmap_get bm i = None <-> 8 * Z.of_nat (length bm) <= i.
Proof. rewrite xfs_bitmap_get_at. apply bit_at_None. Qed.

Lemma xfs_bitmap_set_spec bm i (v : bool) : 0 <= i < 8 * Z.of_nat (length bm) -> bytes_ok bm ->
  exists bm', xfs_bitmap_set bm i v = Some bm' /\ length bm' = length bm /\ bytes_ok bm' /\
    forall j, 0 <= j -> xfs_bitmap_get bm' j = if i =? j then Some v else xfs_bitmap_get bm j.
Proof.
  intros Hi Hb. rewrite xfs_bitmap_set_put. destruct (bit_put_spec bm i v Hi Hb) as (bm' & H).
  exists bm'. setoid_rewrite xfs_bitmap_get_at. exact H.
Qed.

Section fs.
Context {W : Type} (dev : k64_block_device_t W) `{!BlockDriver dev} (D : device_ok dev).
Abbreviation st := (xstate W).
Abbreviation blk := (disk_block dev).
Implicit Types s : st.

(** The content of the file system's blocks. *)
Definition fview s (b : Z) : list Z := view dev (to_cache s) b.

Record fs_ok s : Prop := {
  fo_mounted : mounted (fs s) = true;
  fo_cache : cache_ok dev (to_cache s);
  fo_range b : cached (to_cache s) b -> b < s_total_blocks (super (fs s));
  fo_journal b : in_journal (super (fs s)) b -> ~ cached (to_cache s) b;
  fo_area : area_ok (super (fs s));
  fo_tmp : block_ok (xfs_tmp_block s);
  fo_records : 0 <= 2 * journal_records (fs s) <= s_journal_blocks (super (fs s))
}.

(** What block I/O keeps: everything but the cache, the device and the
    journal's own state; [xfs_tmp_block] is scratch. *)
Record keeps s s' : Prop := {
  kp_super : super (fs s') = super (fs s);
  kp_active : journal_active (fs s') = journal_active (fs s);
  kp_tmp2 : xfs_tmp_block2 s' = xfs_tmp_block2 s;
  kp_tmp3 : xfs_tmp_block3 s' = xfs_tmp_block3 s
}.

#[global] Instance keeps_preorder : PreOrder keeps.
Proof.
  split; [by split|]. intros s1 s2 s3 [] []. split; congruence.
Qed.

(** The blocks outside the journal area. *)
Definition home s (b : Z) : Prop :=
  0 <= b < s_total_blocks (super (fs s)) /\ ~ in_journal (super (fs s)) b.

(** A device error on a block of the file system. *)
Definition io_error s : Prop := device_fails dev (s_total_blocks (super (fs s))).
(** The journal has no room for another record. *)
Definition journal_full s : Prop :=
  s_journal_blocks (super (fs s)) <= 2 * journal_records (fs s) + 1.

Definition same_blocks s s' : Prop := forall b, home s b -> fview s' b = fview s b.

(** What reading does to the state: no block, no journal record changes. *)
Record quiet s s' : Prop := {
  qt_ok : fs_ok s';
  qt_keeps : keeps s s';
  qt_same : same_blocks s s';
  qt_records : journal_records (fs s') = journal_records (fs s)
}.

(** Why a write of block [b] can fail. *)
Definition block_error s (b : Z) : Prop :=
  io_error s \/ journaled (fs s) b = true /\ journal_full s.

Lemma keeps_home s s' b : keeps s s' -> home s b <-> home s' b.
Proof. intros [H _ _ _]. unfold home. by rewrite H. Qed.

Lemma same_blocks_trans s1 s2 s3 : keeps s1 s2 -> same_blocks s1 s2 -> same_blocks s2 s3 ->
  same_blocks s1 s3.
Proof. intros K H1 H2 b Hb. rewrite H2; [by apply H1|]. by apply (keeps_home s1). Qed.

Lemma quiet_refl s : fs_ok s -> quiet s s.
Proof. by split. Qed.
Lemma quiet_trans s1 s2 s3 : quiet s1 s2 -> quiet s2 s3 -> quiet s1 s3.
Proof.
  intros [F1 K1 S1 R1] [F2 K2 S2 R2]. split; [done|by etrans| |congruence].
  by eapply same_blocks_trans.
Qed.
Lemma quiet_tmp s s' t : quiet s s' -> block_ok t -> quiet s (set_tmp t s').
Proof. intros [[] [] ? ?] ?. by split; [split| |..]. Qed.
Lemma quiet_error s s' b : quiet s s' -> block_error s' b -> block_error s b.
Proof.
  intros [_ [Hs Ha _ _] _ Hr]. unfold block_error, io_error, journal_full, journaled.
  by rewrite Hs, Ha, Hr.
Qed.
Lemma quiet_home s s' b : quiet s s' -> home s b -> home s' b.
Proof. intros [_ K _ _] Hb. by apply (keeps_home s). Qed.
Lemma quiet_super s s' : quiet s s' -> super (fs s') = super (fs s).
Proof. intros Q. apply Q. Qed.

Lemma cache_step_ok s b c : fs_ok s -> home s b -> cache_ok dev c ->
  cached_within (to_cache s) b c -> fs_ok (of_cache c s).
Proof.
  intros [? ? Hr Hj ? ? ?] [Hb Hnj] C Hc. destruct c as [c w]. split; try done.
  - intros b' [H| ->]%Hc; [by apply Hr|]. cbn. lia.
  - intros b' Hb' [H| ->]%Hc; [by eapply Hj|done].
Qed.

(** A cached block that cannot be written back is a device error. *)
Lemma cached_write_error s b : fs_ok s -> cached (to_cache s) b -> write_fails dev b -> io_error s.
Proof.
  intros F Hc Hw. exists b. split; [|by right]. split; [|by apply (fo_range s F)].
  destruct Hc as (i & e & He & Hv & <-). by eapply (co_block dev _ (fo_cache s F)).
Qed.

Lemma xfs_block_read_spec s b : fs_ok s -> home s b ->
  wp (xfs_block_read dev b)
    (fun d s' => d = fview s b /\ quiet s s')
    (fun s' => quiet s s' /\ ~ cached (to_cache s) b /\ io_error s) s.
Proof.
  intros F Hb. unfold xfs_block_read. apply wp_zoom.
  eapply wp_mono; [apply (k64_xfs_cache_read_spec dev D); [apply F|apply Hb]| |].
  - intros d c (-> & C & V & Hc). split; [done|]. split; [by eapply cache_step_ok|done| |done].
    intros b' [[Hb' _] _]. specialize (V b' Hb'). by destruct c.
  - intros c (C & V & Hc & Hn & Hf). split_and!; [|done|].
    + split; [by eapply cache_step_ok|done| |done].
      intros b' [[Hb' _] _]. specialize (V b' Hb'). by destruct c.
    + destruct Hf as [Hf|(b' & Hb' & Hf)]; [|by eapply cached_write_error].
      exists b. split; [apply Hb|by left].
Qed.

(** A raw write to the journal area is invisible through the cache. *)
Lemma journal_write_ok s s' : fs_ok s ->
  changed_only dev (in_journal (super (fs s))) (xhw s) (xhw s') ->
  cache (fs s') = cache (fs s) -> super (fs s') = super (fs s) -> mounted (fs s') = true ->
  xfs_tmp_block s' = xfs_tmp_block s ->
  0 <= 2 * journal_records (fs s') <= s_journal_blocks (super (fs s)) ->
  fs_ok s' /\ same_blocks s s'.
Proof.
  intros [Hm C Hrg Hj HA Ht Hr] Hc Hca Hsb Hm' Ht' Hr'.
  assert (Hd : forall i e, entries (cache (fs s)) !! i = Some e -> valid e = true ->
             blk (xhw s') (block_no e) = blk (xhw s) (block_no e)).
  { intros i e He Hv. apply Hc. intros Hin. apply (Hj _ Hin). by exists i, e. }
  assert (C' : cache_ok dev (to_cache s')).
  { unfold to_cache in *. rewrite Hca. destruct C as [? ? ? ? Hclean].
    split; cbn [c_cache c_hw] in *; try done. intros i e He Hv Hdt. rewrite (Hd i e He Hv).
    by eapply Hclean. }
  split.
  - split; rewrite ?Hsb, ?Ht'; try done; intros b; unfold to_cache; rewrite Hca; [apply Hrg|apply Hj].
  - intros b [Hb Hnj]. apply view_ext; [done..| |].
    + intros i e He Hv <-. left. exists i, e. unfold to_cache in *. rewrite Hca. done.
    + intros Hn. right. unfold to_cache, cached in *. rewrite Hca. split; [done|].
      by apply Hc.
Qed.

Lemma k64_xfs_journal_metadata_fs s b d : fs_ok s -> journal_active (fs s) = true ->
  home s b -> block_ok d -> s_journal_start (super (fs s)) + s_journal_blocks (super (fs s)) <= s_total_blocks (super (fs s)) ->
  wp (k64_xfs_journal_metadata dev b d)
    (fun _ s' => fs_ok s' /\ keeps s s' /\ same_blocks s s' /\
       journal_records (fs s') = journal_records (fs s) + 1)
    (fun s' => fs_ok s' /\ keeps s s' /\ same_blocks s s' /\ (io_error s \/ journal_full s)) s.
Proof.
  intros F Hact [Hb Hnj] Hd Hin_total. pose proof F as [Hm C Hrg Hj [A1 A2 A3 A4] Ht Hr].
  unfold k64_xfs_journal_metadata, get_fs, get_header. unfold UINT32_MAX, UINT64_MAX in *.
  set (sb := super (fs s)) in *. apply wp_bind, wp_gets. fold sb.
  set (h := s_journal_start sb + journal_records (fs s) * 2).
  assert (Hh : s_journal_start sb <= h) by lia.
  rewrite (u64_small h), (u64_small (h + 1)), (u64_small (s_journal_start sb + s_journal_blocks sb)) by lia.
  rewrite Hm, Hact, (proj2 (Z.leb_gt _ _) (proj2 Hb)). cbn [negb andb].
  apply wp_bind, wp_ret. wp_steps.
  2: { split_and!; [done..|]. right. unfold journal_full. fold sb. apply negb_false_iff, Z.leb_le in H. lia. }
  apply negb_true_iff, Z.leb_gt in H.
  assert (Hin : forall b', h <= b' <= h + 1 -> in_journal sb b') by (intros; split; lia).
  eapply wp_mono; [apply (journal_block_write_spec dev D); [lia|apply header_image_ok]| |].
  2: { intros ? (w1 & -> & Hc1 & Hf). split_and!; [|done| |left; exists h; split; [fold sb; lia|by right]];
    (eapply journal_write_ok; [done| |done..]; eapply changed_only_mono, Hc1; intros ? <-; apply Hin; lia). }
  intros [] ? (w1 & -> & _ & Hc1). cbn [xhw set_header] in Hc1. wp_steps.
  assert (Hc1' : changed_only dev (in_journal sb) (xhw s) w1).
  { eapply changed_only_mono, Hc1. intros ? <-. apply Hin. lia. }
  eapply wp_mono; [apply (journal_block_write_spec dev D); [lia|done]| |].
  - intros [] ? (w2 & -> & _ & Hc2). wp_steps. cbn [xhw set_hw set_header] in *.
    assert (Hc2' : changed_only dev (in_journal sb) (xhw s) w2).
    { eapply changed_only_trans, changed_only_mono, Hc2; [exact Hc1'|].
      intros ? <-. apply Hin. lia. }
    assert (Hrec : u32 (journal_records (fs s) + 1) = journal_records (fs s) + 1) by (rewrite u32_small; lia).
    split_and!; [|done| |exact Hrec]; (eapply journal_write_ok; [done|exact Hc2'|done..|]; cbn -[u32]; rewrite Hrec; fold sb; lia).
  - intros ? (w2 & -> & Hc2 & Hf). cbn [xhw set_hw set_header] in *.
    assert (Hc2' : changed_only dev (in_journal sb) (xhw s) w2).
    { eapply changed_only_trans, changed_only_mono, Hc2; [exact Hc1'|].
      intros ? <-. apply Hin. lia. }
    split_and!; [|done| |left; exists (h + 1); split; [fold sb; lia|by right]];
      (eapply journal_write_ok; [done|exact Hc2'|done..]).
Qed.

Lemma cache_write_fs s b d : fs_ok s -> home s b -> block_ok d ->
  wp (zoom to_cache of_cache (k64_xfs_cache_write dev b d))
    (fun _ s' => fs_ok s' /\ keeps s s' /\ journal_records (fs s') = journal_records (fs s) /\
       cached (to_cache s') b /\ fview s' b = d /\
       forall b', home s b' -> b' <> b -> fview s' b' = fview s b')
    (fun s' => fs_ok s' /\ keeps s s' /\ same_blocks s s' /\ io_error s) s.
Proof.
  intros F Hb Hd. apply wp_zoom.
  eapply wp_mono; [apply (k64_xfs_cache_write_spec dev D); [apply F|apply Hb|done]| |].
  - intros [] c (C & V & Hin & V' & Hc). split_and!; [by eapply cache_step_ok|done|done|by destruct c..|].
    intros b' [[Hb' _] _] Hne. specialize (V' b' Hb' Hne). by destruct c.
  - intros c (C & V & Hc & b' & Hb' & Hf). split_and!; [by eapply cache_step_ok|done| |].
    + intros b'' [[Hb'' _] _]. specialize (V b'' Hb''). by destruct c.
    + by eapply cached_write_error.
Qed.

(** The journal lies on the device. *)
Definition journal_inside s : Prop :=
  s_journal_start (super (fs s)) + s_journal_blocks (super (fs s)) <= s_total_blocks (super (fs s)).

(** A block write, journaled or not, changes exactly that block of the file
    system; if it fails, none.  It fails only on a device error or, when it
    is journaled, because the journal is full. *)
Lemma xfs_block_write_spec s b d : fs_ok s -> journal_inside s -> home s b -> block_ok d ->
  wp (xfs_block_write dev b d)
    (fun _ s' => fs_ok s' /\ keeps s s' /\
       journal_records (fs s') = journal_records (fs s) + (if journaled (fs s) b then 1 else 0) /\
       cached (to_cache s') b /\ fview s' b = d /\
       forall b', home s b' -> b' <> b -> fview s' b' = fview s b')
    (fun s' => fs_ok s' /\ keeps s s' /\ same_blocks s s' /\ block_error s b) s.
Proof.
  intros F J Hb Hd. unfold xfs_block_write, get_fs. wp_steps; rewrite ?Hif.
  2: { rewrite Z.add_0_r. eapply wp_mono; [by apply cache_write_fs|done|].
    intros s' (? & ? & ? & ?). split_and!; [done..|by left]. }
  assert (Hact : journal_active (fs s) = true).
  { unfold journaled in Hif. by destruct (journal_active (fs s)). }
  eapply wp_mono; [by apply k64_xfs_journal_metadata_fs| |].
  2: { intros s1 (F1 & K1 & S1 & He). split_and!; [done..|]. destruct He; [by left|right; by split]. }
  intros [] s1 (F1 & K1 & S1 & R1).
  eapply wp_mono; [apply cache_write_fs; [done|by apply (keeps_home s)|done]| |].
  - intros [] s2 (F2 & K2 & R2 & Hc2 & V2 & V2'). split_and!; [done|by etrans|congruence|done|done|].
    intros b' Hb' Hne. rewrite V2'; [by apply S1|by apply (keeps_home s)|done].
  - intros s2 (F2 & K2 & S2 & He). split_and!; [done|by etrans|by eapply same_blocks_trans|].
    left. unfold io_error in *. by rewrite (kp_super _ _ K1) in He.
Qed.
End fs.

(** * Inodes and allocation of K64XFS ([k64_xfs.c], lines 83-257) are correct *)
#[local] Opaque k64_xfs_crc32.

(** ** The layout of the metadata area *)
Record layout_ok (sb : k64_xfs_superblock_disk_t) : Prop := {
  lo_ibm : 0 < s_inode_bitmap_start sb;
  lo_bitmaps : s_inode_bitmap_start sb < s_block_bitmap_start sb;
  lo_journal : s_block_bitmap_start sb < s_journal_start sb;
  lo_jblocks : 0 <= s_journal_blocks sb;
  lo_table : s_journal_start sb + s_journal_blocks sb <= s_inode_table_start sb;
  lo_data : s_inode_table_start sb + xfs_inode_table_blocks <= s_data_start sb;
  lo_total : s_data_start sb <= s_total_blocks sb;
  (** one bitmap block covers the device *)
  lo_size : s_total_blocks sb <= 8 * K64_XFS_BLOCK_SIZE
}.

Lemma layout_area sb : layout_ok sb -> area_ok sb.
Proof. intros []. unfold K64_XFS_BLOCK_SIZE in *. split; unfold UINT32_MAX, UINT64_MAX; change xfs_inode_table_blocks with 47 in *; lia. Qed.

Lemma layout_inside {W} (s : xstate W) : layout_ok (super (fs s)) -> journal_inside s.
Proof. intros []. unfold journal_inside. change xfs_inode_table_blocks with 47 in *. lia. Qed.
#[export] Hint Resolve layout_inside : k64.

Definition inode_id_ok (id : Z) : Prop := 1 <= id <= K64_XFS_MAX_INODES.

Lemma inode_block_range sb id : layout_ok sb -> inode_id_ok id ->
  inode_block sb id = s_inode_table_start sb + (id - 1) / 11 /\
  s_inode_table_start sb <= inode_block sb id < s_data_start sb.
Proof.
  intros [] [H1 H2]. unfold K64_XFS_MAX_INODES, K64_XFS_BLOCK_SIZE in *.
  change xfs_inode_table_blocks with 47 in *.
  unfold inode_block. change inodes_per_block with 11.
  assert (0 <= (id - 1) / 11 <= 46) by dmlia. rewrite u64_small; lia.
Qed.

Lemma inode_offset_range id : inode_id_ok id ->
  inode_offset id = ((id - 1) mod 11) * 372 /\ 0 <= inode_offset id <= 3720.
Proof.
  intros _. unfold inode_offset. change inodes_per_block with 11.
  change (Z.of_nat sizeof_inode) with 372. pose proof (Z.mod_pos_bound (id - 1) 11). lia.
Qed.

Lemma inode_offset_fits id : inode_id_ok id -> (Z.to_nat (inode_offset id) + sizeof_inode <= BLOCK)%nat.
Proof.
  intros [_ H]%inode_offset_range. unfold sizeof_inode, BLOCK, K64_XFS_BLOCK_SIZE. lia.
Qed.

(** Two inodes in one block do not overlap. *)
Lemma inode_slots_disjoint sb id id' : layout_ok sb -> inode_id_ok id -> inode_id_ok id' ->
  id <> id' -> inode_block sb id = inode_block sb id' ->
  (Z.to_nat (inode_offset id') + sizeof_inode <= Z.to_nat (inode_offset id))%nat \/
  (Z.to_nat (inode_offset id) + sizeof_inode <= Z.to_nat (inode_offset id'))%nat.
Proof.
  intros L I I' Hne Hb. destruct (inode_block_range sb id L I) as [H1 _], (inode_block_range sb id' L I') as [H2 _].
  destruct (inode_offset_range id I) as [-> _], (inode_offset_range id' I') as [-> _].
  unfold sizeof_inode. assert ((id - 1) / 11 = (id' - 1) / 11) by lia.
  assert ((id - 1) mod 11 <> (id' - 1) mod 11) by dmlia.
  pose proof (Z.mod_pos_bound (id - 1) 11). pose proof (Z.mod_pos_bound (id' - 1) 11). lia.
Qed.

(** The bytes of inode [id] in the table, and the inode [xfs_read_inode] accepts. *)
Definition inode_slot (f : Z -> list Z) (sb : k64_xfs_superblock_disk_t) (id : Z) : list Z :=
  slice (f (inode_block sb id)) (Z.to_nat (inode_offset id)) sizeof_inode.
Definition inode_at (f : Z -> list Z) (sb : k64_xfs_superblock_disk_t) (id : Z)
    : option k64_xfs_inode_disk_t :=
  let out := dec_inode (inode_slot f sb id) in
  if (i_magic out =? K64_XFS_INODE_MAGIC) && (i_inode_id out =? id) &&
     (i_checksum out =? k64_xfs_inode_checksum out)
  then Some out else None.

(** The inode as [xfs_write_inode] stores it. *)
Definition sealed (i : k64_xfs_inode_disk_t) : k64_xfs_inode_disk_t :=
  inode_with_checksum i (k64_xfs_inode_checksum i).

Lemma sealed_inode_ok i : inode_ok i -> inode_ok (sealed i).
Proof. intros []. constructor; try assumption. apply k64_xfs_crc32_range. Qed.

Lemma sealed_checksum i : i_checksum (sealed i) = k64_xfs_inode_checksum (sealed i).
Proof. by destruct i. Qed.

Lemma inode_at_slot f sb id i : inode_ok i -> inode_slot f sb id = enc_inode (sealed i) ->
  i_magic i = K64_XFS_INODE_MAGIC -> i_inode_id i = id -> inode_at f sb id = Some (sealed i).
Proof.
  intros Ho Hs Hm Hid. unfold inode_at. rewrite Hs, <- (app_nil_r (enc_inode _)), dec_inode_enc
    by (by apply sealed_inode_ok).
  cbv zeta. rewrite <- sealed_checksum. change (i_magic (sealed i)) with (i_magic i).
  change (i_inode_id (sealed i)) with (i_inode_id i). by rewrite Hm, Hid, !Z.eqb_refl.
Qed.

Section inodes.
Context {W : Type} (dev : k64_block_device_t W) `{!BlockDriver dev} (D : device_ok dev).
Abbreviation st := (xstate W).
Abbreviation fview := (fview dev).
Abbreviation fs_ok := (fs_ok dev).
Abbreviation same_blocks := (same_blocks dev).
Abbreviation quiet := (quiet dev).
Abbreviation io_error := (io_error dev).
Abbreviation block_error := (block_error dev).
Implicit Types s : st.

Lemma fs_ok_tmp t s : fs_ok s -> block_ok t -> fs_ok (set_tmp t s).
Proof. by intros []. Qed.

Lemma fview_block_ok s b : fs_ok s -> block_ok (fview s b).
Proof. intros F. apply view_block_ok; [done|apply F]. Qed.

Lemma xfs_block_read_tmp_spec s b : fs_ok s -> home s b ->
  wp (xfs_block_read_tmp dev b)
    (fun _ s' => quiet s s' /\ xfs_tmp_block s' = fview s b)
    (fun s' => quiet s s' /\ ~ cached (to_cache s) b /\ io_error s) s.
Proof.
  intros F Hb. unfold xfs_block_read_tmp. wp_steps.
  eapply wp_mono; [by apply xfs_block_read_spec| |done].
  intros d s1 [-> Q1]. wp_steps. split; [apply quiet_tmp; [done|by apply fview_block_ok]|done].
Qed.

Lemma layout_home s b : layout_ok (super (fs s)) ->
  0 <= b < s_journal_start (super (fs s)) \/
  s_inode_table_start (super (fs s)) <= b < s_total_blocks (super (fs s)) -> home s b.
Proof.
  intros [] Hb. change xfs_inode_table_blocks with 47 in *. unfold home, in_journal. lia.
Qed.

Lemma inode_home s id : layout_ok (super (fs s)) -> inode_id_ok id ->
  home s (inode_block (super (fs s)) id).
Proof.
  intros L I. apply layout_home; [done|]. right.
  destruct (inode_block_range _ id L I) as [_ ?], L. lia.
Qed.

Lemma inode_id_guard id :
  negb (id =? 0) && negb (K64_XFS_MAX_INODES <? id) = true -> 0 <= id -> inode_id_ok id.
Proof. intros [? ?]%andb_true_iff Hid. unfold inode_id_ok. lia. Qed.

(** Reading an inode returns the inode of the table when it is intact, and
    fails otherwise or when the device fails. *)
Lemma xfs_read_inode_spec s id : fs_ok s -> layout_ok (super (fs s)) -> 0 <= id ->
  wp (xfs_read_inode dev id)
    (fun i s' => inode_id_ok id /\ inode_at (fview s) (super (fs s)) id = Some i /\
       quiet s s')
    (fun s' => quiet s s' /\
       (~ inode_id_ok id \/ inode_at (fview s) (super (fs s)) id = None \/
        ~ cached (to_cache s) (inode_block (super (fs s)) id) /\ io_error s)) s.
Proof.
  intros F L Hid. unfold xfs_read_inode, get_super, get_tmp. wp_steps.
  2: { split; [by apply quiet_refl|]. left. intros [? ?]. lia. }
  apply inode_id_guard in H as I; [|done].
  eapply wp_mono; [apply xfs_block_read_tmp_spec; [done|by apply inode_home]| |].
  2: { intros s1 (Q1 & Hn). split; [done|]. by right; right. }
  intros [] s1 (Q1 & Ht). unfold inode_at.
  wp_steps; rewrite Ht in *; fold (inode_slot (fview s) (super (fs s)) id) in *; cbv zeta; rewrite H0;
    split_and!; try done. by right; left.
Qed.

(** Writing an inode changes its slot of the table and nothing else. *)
Lemma xfs_write_inode_spec s i : fs_ok s -> layout_ok (super (fs s)) -> inode_ok i ->
  wp (xfs_write_inode dev i)
    (fun _ s' => inode_id_ok (i_inode_id i) /\ fs_ok s' /\ keeps s s' /\
       journal_records (fs s') <= journal_records (fs s) + 1 /\
       cached (to_cache s') (inode_block (super (fs s)) (i_inode_id i)) /\
       inode_slot (fview s') (super (fs s)) (i_inode_id i) = enc_inode (sealed i) /\
       (forall id, inode_id_ok id -> id <> i_inode_id i ->
          inode_slot (fview s') (super (fs s)) id = inode_slot (fview s) (super (fs s)) id) /\
       (forall b, home s b -> b <> inode_block (super (fs s)) (i_inode_id i) ->
          fview s' b = fview s b))
    (fun s' => fs_ok s' /\ keeps s s' /\ same_blocks s s' /\
       (~ inode_id_ok (i_inode_id i) \/
        block_error s (inode_block (super (fs s)) (i_inode_id i)))) s.
Proof.
  intros F L Ho. unfold xfs_write_inode, get_super, get_tmp. wp_steps.
  2: { split_and!; [done..|]. left. intros [? ?]. lia. }
  apply inode_id_guard in H as I; [|apply Ho]. set (sb := super (fs s)). set (id := i_inode_id i) in *.
  eapply wp_mono; [apply xfs_block_read_tmp_spec; [done|by apply inode_home]| |].
  2: { intros s1 (Q1 & _ & He). split_and!; [apply Q1..|]. by right; left. }
  intros [] s1 (Q1 & Ht). wp_steps. cbn [xfs_tmp_block set_tmp]. rewrite Ht.
  fold (sealed i). set (s1' := set_tmp _ s1). set (new := splice _ _ _).
  assert (Hok := fview_block_ok s (inode_block sb id) F).
  assert (He : length (enc_inode (sealed i)) = sizeof_inode) by (by apply enc_inode_length, sealed_inode_ok).
  pose proof (inode_offset_fits id I) as Hfit.
  assert (Hnew : block_ok new).
  { split.
    - unfold new. rewrite splice_length; [apply Hok|]. rewrite He. destruct Hok as [-> _]. done.
    - apply bytes_ok_splice; [apply Hok|]. by apply enc_inode_bytes, sealed_inode_ok. }
  assert (Q1' : quiet s s1') by (by apply quiet_tmp). pose proof Q1' as [F1 K1 S1 R1].
  eapply wp_mono; [apply (xfs_block_write_spec dev D s1'); [done| | |done]| |].
  - apply layout_inside. by rewrite (quiet_super _ _ _ Q1').
  - eapply quiet_home; [exact Q1'|]. by apply inode_home.
  - intros [] s2 (F2 & K2 & R2 & Hc2 & V2 & V2').
    assert (Hfr : forall b, home s b -> b <> inode_block sb id -> fview s2 b = fview s b).
    { intros b Hb Hne. rewrite V2'; [|by apply (keeps_home s)|done]. by apply S1. }
    destruct Hok as [Hlen _].
    split_and!; [done|done|by etrans|destruct (journaled _ _); lia|done| | |done].
    + unfold inode_slot. rewrite V2. apply slice_splice_eq; rewrite He; [done|lia].
    + intros id' I' Hne. unfold inode_slot.
      destruct (decide (inode_block sb id' = inode_block sb id)) as [Heq|Hb].
      * rewrite Heq, V2. pose proof (inode_offset_fits id' I').
        apply slice_splice_ne; rewrite ?He; [lia|lia|].
        pose proof (inode_slots_disjoint sb id id' L I I'). lia.
      * rewrite Hfr; [done| |done]. by apply inode_home.
  - intros s2 (F2 & K2 & S2 & Herr). split_and!; [done|by etrans|by eapply same_blocks_trans|].
    right. by eapply quiet_error.
Qed.

(** Inode round trip: what is written is what is read, whatever other inode
    was written. *)
Theorem write_read_inode s i s1 : fs_ok s -> layout_ok (super (fs s)) -> inode_ok i ->
  i_magic i = K64_XFS_INODE_MAGIC -> xfs_write_inode dev i s = Ret tt s1 ->
  wp (xfs_read_inode dev (i_inode_id i)) (fun i' _ => i' = sealed i) (fun _ => False) s1 /\
  (forall id, inode_id_ok id -> id <> i_inode_id i ->
     inode_at (fview s1) (super (fs s)) id = inode_at (fview s) (super (fs s)) id).
Proof.
  intros F L Ho Hm Hw.
  destruct (wp_Ret _ _ _ _ _ _ (xfs_write_inode_spec s i F L Ho) Hw) as (I & F1 & K1 & _ & Hc & Hs & Hs' & _).
  split.
  - assert (L1 : layout_ok (super (fs s1))) by (by rewrite (kp_super _ _ K1)).
    pose proof (inode_at_slot (fview s1) _ _ i Ho Hs Hm eq_refl) as Hat.
    eapply wp_mono; [apply xfs_read_inode_spec; [done|done|destruct I; lia]| |];
      rewrite (kp_super _ _ K1), Hat.
    + intros i' s2 (_ & Hi' & _). congruence.
    + intros s2 (_ & [?|[?|[? _]]]); done.
  - intros id I' Hne. unfold inode_at. by rewrite Hs'.
Qed.
End inodes.
