(* ===== verification/AllocSpec.v ===== *)
(** * The inode and block allocators of K64XFS

    First fit over a bitmap block: what is handed out was free, exactly it is
    marked, the count of free blocks follows, and a failure is a full bitmap or
    a failed block access.  Nothing is accessed past the bitmap buffer when the
    device has at most 32768 blocks ([lo_size]). *)
From Stdlib Require Import ZArith Lia.
From stdpp Require Import base list.
From S2P Require Import Prelude Exec KString XfsFormat XfsCrc Block Cache CacheSpec Journal JournalSpec XfsCore XfsSpec.

(** Bit [i] of a bitmap block is clear. *)
Definition is_free (bm : list Z) (i : Z) : Prop := xfs_bitmap_get bm i = Some false.
Definition is_used (bm : list Z) (i : Z) : Prop := xfs_bitmap_get bm i = Some true.
#[global] Instance is_free_dec bm i : Decision (is_free bm i).
Proof. unfold is_free. apply _. Defined.
Definition free_run (bm : list Z) (x n : Z) : Prop := forall y, x <= y < x + n -> is_free bm y.

(** [bm'] is [bm] with the bits of [[x, x + n)] set to [v]. *)
Definition bits_set (bm : list Z) (x n : Z) (v : bool) (bm' : list Z) : Prop :=
  length bm' = length bm /\ bytes_ok bm' /\
  forall j, 0 <= j -> xfs_bitmap_get bm' j =
    if (x <=? j) && (j <? x + n) then Some v else xfs_bitmap_get bm j.

Lemma bits_set_none bm x v : bytes_ok bm -> bits_set bm x 0 v bm.
Proof.
  intros H. split_and!; [done..|]. intros j _. destruct (Z.leb_spec x j), (Z.ltb_spec j (x + 0)); try done; lia.
Qed.

Lemma bits_set_snoc bm x n v bm1 bm2 : 0 <= x -> 0 <= n -> bits_set bm x n v bm1 ->
  length bm2 = length bm1 -> bytes_ok bm2 ->
  (forall j, 0 <= j -> xfs_bitmap_get bm2 j = if x + n =? j then Some v else xfs_bitmap_get bm1 j) ->
  bits_set bm x (n + 1) v bm2.
Proof.
  intros Hx Hn (Hl & Hb & Hg) Hl2 Hb2 Hg2. split_and!; [congruence|done|]. intros j Hj.
  rewrite Hg2, Hg by done.
  destruct (Z.eqb_spec (x + n) j), (Z.leb_spec x j), (Z.ltb_spec j (x + n)), (Z.ltb_spec j (x + (n + 1)));
    try done; lia.
Qed.

Lemma bits_set_keep bm x n v bm1 : bits_set bm x n v bm1 -> xfs_bitmap_get bm (x + n) = Some v ->
  0 <= x -> 0 <= n -> bits_set bm x (n + 1) v bm1.
Proof.
  intros (Hl & Hb & Hg) Hv Hx Hn. split_and!; [done..|]. intros j Hj. rewrite Hg by done.
  destruct (Z.leb_spec x j), (Z.ltb_spec j (x + n)), (Z.ltb_spec j (x + (n + 1))); try done; try lia.
  cbn. by replace j with (x + n) by lia.
Qed.

Section alloc.
Context {W : Type} (dev : k64_block_device_t W) `{!BlockDriver dev} (D : device_ok dev).
Abbreviation st := (xstate W).
Abbreviation fview := (fview dev).
Abbreviation fs_ok := (fs_ok dev).
Abbreviation same_blocks := (same_blocks dev).
Abbreviation quiet := (quiet dev).
Abbreviation block_error := (block_error dev).
Implicit Types s : st.

Lemma bitmap_set_tmp_spec s i v (Q : unit -> st -> Prop) E : block_ok (xfs_tmp_block s) ->
  0 <= i < 8 * K64_XFS_BLOCK_SIZE ->
  (forall bm', block_ok bm' ->
     (forall j, 0 <= j -> xfs_bitmap_get bm' j = if i =? j then Some v else xfs_bitmap_get (xfs_tmp_block s) j) ->
     Q tt (set_tmp bm' s)) ->
  wp (bitmap_set_tmp i v) Q E s.
Proof.
  intros [Hl Hb] Hi HQ. unfold bitmap_set_tmp, get_tmp. wp_steps.
  destruct (xfs_bitmap_set_spec (xfs_tmp_block s) i v) as (bm' & Hs & Hl' & Hb' & Hg).
  { rewrite Hl. unfold BLOCK. unfold K64_XFS_BLOCK_SIZE in *. lia. }
  { done. }
  eapply wp_deref; [exact Hs|]. wp_steps. apply HQ; [|done]. split; [congruence|done].
Qed.

Lemma bitmap_get_tmp s i : block_ok (xfs_tmp_block s) -> 0 <= i < 8 * K64_XFS_BLOCK_SIZE ->
  exists v, xfs_bitmap_get (xfs_tmp_block s) i = Some v.
Proof.
  intros [Hl Hb] Hi. apply xfs_bitmap_get_is_Some. rewrite Hl. unfold BLOCK, K64_XFS_BLOCK_SIZE in *. lia.
Qed.

(** ** Inodes *)
Lemma xfs_alloc_inode_spec s : fs_ok s -> layout_ok (super (fs s)) ->
  let bm := s_inode_bitmap_start (super (fs s)) in
  wp (xfs_alloc_inode dev)
    (fun id s' => 2 <= id <= K64_XFS_MAX_INODES /\ is_free (fview s bm) (id - 1) /\
       (forall j, 1 <= j < id - 1 -> is_used (fview s bm) j) /\
       bits_set (fview s bm) (id - 1) 1 true (fview s' bm) /\
       fs_ok s' /\ keeps s s' /\ journal_records (fs s') <= journal_records (fs s) + 1 /\
       forall b, home s b -> b <> bm -> fview s' b = fview s b)
    (fun s' => fs_ok s' /\ keeps s s' /\ same_blocks s s' /\
       ((forall j, 1 <= j < K64_XFS_MAX_INODES -> is_used (fview s bm) j) \/
        block_error s bm)) s.
Proof.
  intros F L bm. unfold xfs_alloc_inode, get_super. wp_steps. fold bm.
  assert (Hbm : home s bm) by (apply layout_home; [done|]; destruct L; left; unfold bm; lia).
  eapply wp_mono; [apply (xfs_block_read_tmp_spec dev D); [done|exact Hbm]| |].
  2: { intros s1 (Q1 & _ & He). split_and!; [apply Q1..|]. by right; left. }
  intros [] s1 (Q1 & Ht). pose proof Q1 as [F1 K1 S1 R1]. wp_steps.
  apply (wp_find_loop (fun i s' => s' = s1 /\ forall j, 1 <= j < i -> is_used (fview s bm) j)).
  - split; [done|lia].
  - intros i ? Hi [-> Hused]. unfold alloc_inode_step, get_tmp, get_super. wp_steps.
    destruct (bitmap_get_tmp s1 i) as [v Hv]; [rewrite Ht; by apply fview_block_ok| |].
    { unfold K64_XFS_MAX_INODES, K64_XFS_BLOCK_SIZE in *. lia. }
    eapply wp_deref; [exact Hv|]. rewrite Ht in Hv. destruct v; wp_steps.
    { split; [done|]. intros j Hj. destruct (decide (j = i)) as [->|]; [done|]. apply Hused. lia. }
    apply bitmap_set_tmp_spec; [rewrite Ht; by apply fview_block_ok| |].
    { unfold K64_XFS_MAX_INODES, K64_XFS_BLOCK_SIZE in *. lia. }
    rewrite Ht. intros bm' Hok Hg. wp_steps.
    change (super (fs (set_tmp bm' s1))) with (super (fs s1)). rewrite (kp_super _ _ K1). fold bm.
    assert (Q1' : quiet s (set_tmp bm' s1)) by (by apply quiet_tmp). pose proof (qt_keeps _ _ _ Q1') as K1'.
    eapply wp_mono; [apply (xfs_block_write_spec dev D);
      [apply Q1'|apply layout_inside; by rewrite (quiet_super _ _ _ Q1')|by apply (keeps_home s)|done]| |].
    + intros [] s2 (F2 & K2 & R2 & _ & V2 & V2'). wp_steps. cbn [xfs_tmp_block set_tmp] in V2.
      rewrite !Z.add_simpl_r. split_and!; [unfold K64_XFS_MAX_INODES in *; lia..|done|done| |done|by etrans|cbn [fs set_tmp] in R2; destruct (journaled _ _); lia|].
      * rewrite V2. rewrite <- (Z.add_0_l 1). apply (bits_set_snoc _ _ _ _ (fview s bm)); [lia|lia| | | |].
        -- apply bits_set_none. by apply fview_block_ok.
        -- destruct Hok as [-> _]. by destruct (fview_block_ok dev D s bm F) as [-> _].
        -- apply Hok.
        -- by rewrite Z.add_0_r.
      * intros b Hb Hne. rewrite V2'; [|by apply (keeps_home s)|done]. by apply S1.
    + intros s2 (F2 & K2 & S2 & He). split_and!; [done|by etrans| |].
      * intros b Hb. rewrite S2; [by apply S1|by apply (keeps_home s)].
      * right. by eapply quiet_error.
  - intros ? [-> Hused]. wp_steps. split_and!; [done..|]. left. intros j Hj. apply Hused.
    unfold K64_XFS_MAX_INODES in *. lia.
Qed.

(** ** Blocks *)
(** Marking a run in the scratch bitmap. *)
Lemma set_run_spec s x n v : block_ok (xfs_tmp_block s) -> 0 <= x -> 0 <= n ->
  x + n <= 8 * K64_XFS_BLOCK_SIZE ->
  wp (for_loop (Z.to_nat n) 0 (fun k => bitmap_set_tmp (u32 (x + k)) v))
    (fun _ s' => exists bm', s' = set_tmp bm' s /\ bits_set (xfs_tmp_block s) x n v bm')
    (fun _ => False) s.
Proof.
  intros Hok Hx Hn Hend. unfold K64_XFS_BLOCK_SIZE in *.
  apply (wp_for_loop (fun k s' => exists bm', s' = set_tmp bm' s /\ bits_set (xfs_tmp_block s) x k v bm')).
  - exists (xfs_tmp_block s). split; [by destruct s|]. by apply bits_set_none, Hok.
  - intros k ? Hk (bm1 & -> & B). rewrite u32_small by lia.
    apply bitmap_set_tmp_spec; cbn [xfs_tmp_block set_tmp].
    + destruct B as (Hl & Hb & _). split; [|done]. rewrite Hl. apply Hok.
    + unfold K64_XFS_BLOCK_SIZE. lia.
    + intros bm2 [Hl2 Hb2] Hg. exists bm2. split; [done|].
      eapply bits_set_snoc; [done|lia|exact B| |done|done].
      destruct B as (-> & _ & _). rewrite Hl2. by destruct Hok as [-> _].
  - intros ? (bm' & -> & B). exists bm'. split; [done|]. by rewrite Z.add_0_l, Z2Nat.id in B.
Qed.

Lemma fs_ok_free n s : fs_ok s -> fs_ok (upd_super (fun sb => super_with_free_blocks sb n) s).
Proof. intros [? ? ? ? [? ? ? ?] ? ?]. by split. Qed.

(** No run of [n] free blocks starts in [[a, z)] and ends by [e]. *)
Definition no_run (bm : list Z) (a z n e : Z) : Prop :=
  forall x, a <= x < z -> x + n <= e -> ~ free_run bm x n.

(** What [xfs_alloc_extent] does once it has found its run. *)
Definition allocated s x n s' : Prop :=
  let sb := super (fs s) in let bm := s_block_bitmap_start sb in
  free_run (xfs_tmp_block s) x n /\ bits_set (xfs_tmp_block s) x n true (fview s' bm) /\
  n <= s_free_blocks sb /\ fs_ok s' /\
  super (fs s') = super_with_free_blocks sb (s_free_blocks sb - n) /\
  journal_active (fs s') = journal_active (fs s) /\
  journal_records (fs s') <= journal_records (fs s) + 1 /\
  forall b, home s b -> b <> bm -> fview s' b = fview s b.

Definition alloc_failed s n s' : Prop :=
  fs_ok s' /\ same_blocks s s' /\
  (s_free_blocks (super (fs s)) < n \/ block_error s (s_block_bitmap_start (super (fs s)))).

Lemma take_run_spec s x n : fs_ok s -> layout_ok (super (fs s)) -> block_ok (xfs_tmp_block s) ->
  0 < n -> 0 <= x -> x + n <= s_total_blocks (super (fs s)) -> free_run (xfs_tmp_block s) x n ->
  wp (for_loop (Z.to_nat n) 0 (fun k => bitmap_set_tmp (u32 (x + k)) true) ;;
      sb ← get_super;
      check (negb (s_free_blocks sb <? n)) ;;
      modify (upd_super (fun sb => super_with_free_blocks sb (s_free_blocks sb - n))) ;;
      tmp ← get_tmp;
      xfs_block_write dev (s_block_bitmap_start sb) tmp ;;
      mret x)
    (fun x' s' => x' = x /\ allocated s x n s') (alloc_failed s n) s.
Proof.
  intros F L Hok Hn Hx Hend Hfree. unfold get_super, get_tmp.
  assert (Hbm : home s (s_block_bitmap_start (super (fs s))))
    by (apply layout_home; [done|]; destruct L; left; lia).
  apply wp_bind. eapply wp_mono; [apply set_run_spec; [done|lia|lia|]| |done].
  { destruct L. lia. }
  intros [] ? (bm' & -> & B).
  assert (Hok' : block_ok bm').
  { destruct B as (Hl & Hb & _). split; [|done]. rewrite Hl. apply Hok. }
  wp_steps; cbn [fs set_tmp] in *.
  2: { split_and!; [by apply fs_ok_tmp|done|left]. by apply negb_false_iff, Z.ltb_lt in H. }
  apply negb_true_iff, Z.ltb_ge in H.
  eapply wp_mono; [apply (xfs_block_write_spec dev D);
    [by apply fs_ok_free, fs_ok_tmp|by apply (layout_inside s)|exact Hbm|exact Hok']| |].
  - intros [] s2 (F2 & K2 & R2 & _ & V2 & V2'). wp_steps. cbn [xfs_tmp_block set_tmp set_fs upd_super] in V2.
    split; [done|]. split_and!; [done|by rewrite V2|done|done|by apply K2|by apply K2| |].
    { cbn [fs set_tmp upd_super set_fs with_super journal_records] in R2. destruct (journaled _ _); lia. }
    intros b Hb Hne. by apply V2'.
  - intros s2 (F2 & K2 & S2 & He). split_and!; [done|by apply S2|by right].
Qed.

(** The scan at block [b] with the current run [[b - rl, b)]. *)
Record scanning (bm : list Z) (a b rs rl n : Z) : Prop := {
  sc_len : 0 <= rl < n;
  sc_start : a <= b - rl;
  sc_run : rl = 0 \/ rs = b - rl;
  sc_free : free_run bm (b - rl) rl;
  sc_edge : b - rl = a \/ is_used bm (b - rl - 1);
  sc_none : no_run bm a b n b
}.

Lemma scanning_used bm a b rs rl n : scanning bm a b rs rl n -> is_used bm b ->
  scanning bm a (b + 1) rs 0 n.
Proof.
  intros [Hl Hs Hr Hf He Hn] Hu. split; rewrite ?Z.sub_0_r, ?Z.add_simpl_r; [lia|lia|by left| |by right|].
  - intros y Hy. lia.
  - intros x Hx Hend Hrun. destruct (decide (x + n <= b)).
    + apply (Hn x); [lia|lia|done].
    + specialize (Hrun b ltac:(lia)). unfold is_used, is_free in *. congruence.
Qed.

Lemma scanning_free bm a b rs rl n : scanning bm a b rs rl n -> is_free bm b -> rl + 1 < n ->
  scanning bm a (b + 1) (if rl =? 0 then b else rs) (rl + 1) n.
Proof.
  intros [Hl Hs Hr Hf He Hn] Hu Hlt. assert (Heq : b + 1 - (rl + 1) = b - rl) by lia.
  split; rewrite ?Heq; [lia|lia| | |done|].
  - right. destruct (Z.eqb_spec rl 0); lia.
  - intros y Hy. destruct (decide (y = b)) as [->|]; [done|]. apply Hf. lia.
  - intros x Hx Hend Hrun. destruct (decide (x + n <= b)); [apply (Hn x); [lia|lia|done]|].
    destruct He as [He|He]; [lia|]. specialize (Hrun (b - rl - 1) ltac:(lia)).
    unfold is_used, is_free in *. congruence.
Qed.

Lemma alloc_extent_scan_spec s k b rs rl n :
  let sb := super (fs s) in let bm := xfs_tmp_block s in let a := s_data_start sb in
  fs_ok s -> layout_ok sb -> block_ok bm -> 0 < n <= UINT32_MAX ->
  b + Z.of_nat k = s_total_blocks sb -> scanning bm a b rs rl n ->
  wp (alloc_extent_scan dev k b rs rl n)
    (fun x s' => a <= x /\ x + n <= s_total_blocks sb /\ allocated s x n s' /\
       no_run bm a x n (s_total_blocks sb))
    (fun s' => (s' = s /\ no_run bm a (s_total_blocks sb) n (s_total_blocks sb)) \/
               alloc_failed s n s') s.
Proof.
  intros sb bm a F L Hok Hn. revert b rs rl. unfold UINT32_MAX in *.
  induction k as [|k IH]; intros b rs rl Hend Sc; cbn [alloc_extent_scan].
  { apply wp_fail. left. split; [done|]. replace (s_total_blocks sb) with b by lia. apply Sc. }
  assert (0 <= a) by (destruct L; unfold a; change xfs_inode_table_blocks with 47 in *; lia).
  pose proof Sc as [Hl Hs Hr Hf He Hno].
  unfold get_tmp at 1. apply wp_bind, wp_gets, wp_bind.
  destruct (bitmap_get_tmp s b Hok) as [v Hv]; [destruct L; fold sb; lia|].
  assert (b < 4294967296) by (destruct L; unfold sb, K64_XFS_BLOCK_SIZE in *; lia).
  rewrite u32_small by lia. eapply wp_deref; [exact Hv|]. destruct v.
  { apply IH; [lia|]. by eapply scanning_used. }
  cbv zeta. rewrite u64_small by lia. destruct (Z.eqb_spec (rl + 1) n) as [Hn1|Hn1].
  2: { apply IH; [lia|]. eapply scanning_free; [done..|lia]. }
  assert (Hx : (if rl =? 0 then b else rs) = b - rl) by (destruct (Z.eqb_spec rl 0); lia).
  rewrite Hx. eapply wp_mono; [apply take_run_spec; [done|done|done|lia|lia|fold sb; lia|]| |by right].
  - intros y Hy. destruct (decide (y = b)) as [->|]; [done|]. apply Hf. lia.
  - intros x s' [-> HA]. split_and!; [done|lia|done|]. intros x Hx' _. apply Hno; lia.
Qed.

(** Allocating [n] blocks: the first run of [n] free blocks of the data area
    is marked used and the free count drops by [n]; nothing else changes. *)
Lemma xfs_alloc_extent_spec s n : fs_ok s -> layout_ok (super (fs s)) -> 0 <= n ->
  let sb := super (fs s) in let bm := s_block_bitmap_start sb in
  wp (xfs_alloc_extent dev n)
    (fun x s' => s_data_start sb <= x /\ x + n <= s_total_blocks sb /\
       free_run (fview s bm) x n /\ no_run (fview s bm) (s_data_start sb) x n (s_total_blocks sb) /\
       bits_set (fview s bm) x n true (fview s' bm) /\ n <= s_free_blocks sb /\
       super (fs s') = super_with_free_blocks sb (s_free_blocks sb - n) /\
       journal_active (fs s') = journal_active (fs s) /\
       journal_records (fs s') <= journal_records (fs s) + 1 /\ fs_ok s' /\
       forall b, home s b -> b <> bm -> fview s' b = fview s b)
    (fun s' => fs_ok s' /\ same_blocks s s' /\
       (n = 0 \/ UINT32_MAX < n \/ s_free_blocks sb < n \/
        no_run (fview s bm) (s_data_start sb) (s_total_blocks sb) n (s_total_blocks sb) \/
        block_error s bm)) s.
Proof.
  intros F L Hn sb bm. unfold xfs_alloc_extent, get_super. wp_steps.
  2: { split_and!; [done..|]. apply andb_false_iff in H as [H|H].
    - left. by apply negb_false_iff, Z.eqb_eq in H.
    - right; left. by apply negb_false_iff, Z.ltb_lt in H. }
  assert (Hbm : home s bm) by (apply layout_home; [done|]; destruct L; left; unfold bm, sb; lia).
  eapply wp_mono; [apply (xfs_block_read_tmp_spec dev D); [done|exact Hbm]| |].
  2: { intros s1 (Q1 & _ & He). split_and!; [apply Q1..|]. do 4 right. by left. }
  intros [] s1 (Q1 & Ht). pose proof Q1 as [F1 K1 S1 _]. pose proof (kp_super _ _ K1) as Hsb. fold sb in Hsb.
  eapply wp_mono; [apply alloc_extent_scan_spec; rewrite ?Hsb, ?Ht|..].
  - done.
  - done.
  - by apply fview_block_ok.
  - unfold UINT32_MAX in *. lia.
  - destruct L. unfold sb. lia.
  - unfold sb. split; rewrite ?Z.sub_0_r; [unfold UINT32_MAX in *; lia|lia|by left|intros ? ?; lia|by left|]. intros x Hx. lia.
  - rewrite Hsb, Ht. intros x s2 (Hx & Hx' & (Hf & Hb & Hfree & F2 & Hs2 & Ha2 & R2 & V2) & Hno).
    rewrite Ht, Hsb in *. split_and!; try done.
    + rewrite Ha2. apply K1.
    + rewrite (qt_records _ _ _ Q1) in R2. done.
    + intros b Hb' Hne. rewrite V2; [by apply S1|by apply (keeps_home s)|done].
  - rewrite Hsb, Ht. fold sb bm. intros s2 [[-> Hno]|(F2 & S2 & Hor)].
    + split_and!; [done..|]. do 3 right. by left.
    + rewrite Hsb in Hor. split_and!; [done| |].
      * intros b Hb. rewrite S2; [by apply S1|by apply (keeps_home s)].
      * destruct Hor as [?|?]; [by do 2 right; left|do 4 right]. by eapply quiet_error.
Qed.

(** The free count moves by the blocks that were in use. *)
Fixpoint used_count (bm : list Z) (x : Z) (n : nat) : Z :=
  match n with
  | O => 0
  | S n => used_count bm x n +
           match xfs_bitmap_get bm (x + Z.of_nat n) with Some true => 1 | _ => 0 end
  end.

Lemma used_count_range bm x n : 0 <= used_count bm x n <= Z.of_nat n.
Proof.
  induction n as [|n IH]; [done|]. cbn [used_count].
  destruct (xfs_bitmap_get bm _) as [[]|]; lia.
Qed.

Lemma used_count_app bm x n m :
  used_count bm x (n + m) = used_count bm x n + used_count bm (x + Z.of_nat n) m.
Proof.
  induction m as [|m IH]; [rewrite Nat.add_0_r; cbn [used_count]; lia|].
  rewrite Nat.add_succ_r. cbn [used_count]. rewrite IH.
  replace (x + Z.of_nat (n + m)) with (x + Z.of_nat n + Z.of_nat m) by lia. lia.
Qed.

Lemma used_count_ext bm bm' x n :
  (forall y, x <= y < x + Z.of_nat n -> xfs_bitmap_get bm' y = xfs_bitmap_get bm y) ->
  used_count bm' x n = used_count bm x n.
Proof.
  induction n as [|n IH]; intros H; [done|]. cbn [used_count].
  rewrite IH, H by (intros; try apply H; lia). done.
Qed.

Lemma used_count_none bm x n : (forall y, x <= y < x + Z.of_nat n -> is_free bm y) ->
  used_count bm x n = 0.
Proof.
  induction n as [|n IH]; intros H; [done|]. cbn [used_count].
  rewrite IH by (intros; apply H; lia). rewrite (H (x + Z.of_nat n)) by lia. done.
Qed.

Lemma used_count_full bm x n : (forall y, x <= y < x + Z.of_nat n -> is_used bm y) ->
  used_count bm x n = Z.of_nat n.
Proof.
  induction n as [|n IH]; intros H; [done|]. cbn [used_count].
  rewrite IH by (intros; apply H; lia). rewrite (H (x + Z.of_nat n)) by lia. lia.
Qed.

(** The state while the bits of a run are being cleared. *)
Definition freeing s (f : Z) (bm' : list Z) : st :=
  upd_super (fun sb => super_with_free_blocks sb f) (set_tmp bm' s).

Lemma free_run_spec s x n : block_ok (xfs_tmp_block s) -> 0 <= x -> 0 <= n ->
  x + n <= 8 * K64_XFS_BLOCK_SIZE -> 0 <= s_free_blocks (super (fs s)) ->
  s_free_blocks (super (fs s)) + n <= UINT64_MAX ->
  wp (for_loop (Z.to_nat n) 0 (free_extent_step x))
    (fun _ s' => exists bm', bits_set (xfs_tmp_block s) x n false bm' /\
       s' = freeing s (s_free_blocks (super (fs s)) + used_count (xfs_tmp_block s) x (Z.to_nat n)) bm')
    (fun _ => False) s.
Proof.
  intros Hok Hx Hn Hend Hf0 Hf. unfold K64_XFS_BLOCK_SIZE, UINT64_MAX in *.
  apply (wp_for_loop (fun k s' => exists bm', bits_set (xfs_tmp_block s) x k false bm' /\
    s' = freeing s (s_free_blocks (super (fs s)) + used_count (xfs_tmp_block s) x (Z.to_nat k)) bm')).
  - exists (xfs_tmp_block s). split; [by apply bits_set_none, Hok|].
    cbn [used_count Z.to_nat]. rewrite Z.add_0_r. destruct s as [[? [] ? ? ? ? ?] ? ? ? ? ? ? ? ?]. done.
  - intros k ? Hk (bm1 & B & ->). unfold free_extent_step, get_tmp. wp_steps.
    cbn [xfs_tmp_block freeing upd_super set_fs set_tmp]. rewrite u32_small by lia.
    assert (Hok1 : block_ok bm1).
    { destruct B as (Hl & Hb & _). split; [|done]. rewrite Hl. apply Hok. }
    pose proof (used_count_range (xfs_tmp_block s) x (Z.to_nat k)) as Hcount.
    assert (Hget : xfs_bitmap_get bm1 (x + k) = xfs_bitmap_get (xfs_tmp_block s) (x + k)).
    { destruct B as (_ & _ & ->); [|lia]. destruct (Z.ltb_spec (x + k) (x + k)); [lia|].
      by rewrite andb_false_r. }
    destruct (bitmap_get_tmp s (x + k) Hok) as [v Hv]; [unfold K64_XFS_BLOCK_SIZE; lia|].
    eapply wp_deref; [by rewrite Hget|].
    replace (Z.to_nat (k + 1)) with (S (Z.to_nat k)) by lia. cbn [used_count].
    rewrite Z2Nat.id, Hv by lia. destruct v; wp_steps.
    + apply bitmap_set_tmp_spec; [exact Hok1|unfold K64_XFS_BLOCK_SIZE; lia|].
      intros bm2 [Hl2 Hb2] Hg. wp_steps. exists bm2. split.
      * eapply bits_set_snoc; [done|lia|exact B| |done|done].
        destruct B as (-> & _ & _). rewrite Hl2. by destruct Hok as [-> _].
      * rewrite Z.add_assoc. unfold freeing, upd_super. cbn [fs set_tmp set_fs super with_super s_free_blocks super_with_free_blocks]. rewrite u64_small by lia. done.
    + exists bm1. rewrite Z.add_0_r. split; [|done]. by apply bits_set_keep; [| |lia..].
  - intros ? (bm' & B & ->). rewrite Z.add_0_l, Z2Nat.id in * by lia. by exists bm'.
Qed.

(** Freeing a run clears exactly its bits; the free count grows by the blocks
    that were in use. *)
Lemma xfs_free_extent_spec s x n : fs_ok s -> layout_ok (super (fs s)) ->
  0 <= n -> 0 <= x -> x + n <= UINT64_MAX ->
  0 <= s_free_blocks (super (fs s)) -> s_free_blocks (super (fs s)) + n <= UINT64_MAX ->
  let sb := super (fs s) in let bm := s_block_bitmap_start sb in
  wp (xfs_free_extent dev x n)
    (fun _ s' => bits_set (fview s bm) x n false (fview s' bm) /\
       super (fs s') = super_with_free_blocks sb
         (s_free_blocks sb + used_count (fview s bm) x (Z.to_nat n)) /\
       journal_active (fs s') = journal_active (fs s) /\
       journal_records (fs s') <= journal_records (fs s) + 1 /\ fs_ok s' /\
       forall b, home s b -> b <> bm -> fview s' b = fview s b)
    (fun s' => fs_ok s' /\ same_blocks s s' /\
       (n = 0 \/ x < s_data_start sb \/ s_total_blocks sb < x + n \/
        block_error s bm)) s.
Proof.
  intros F L Hn Hx Hend Hfree0 Hfree sb bm. unfold xfs_free_extent, get_super, get_tmp. unfold UINT64_MAX in *.
  fold sb in Hfree0, Hfree. wp_steps; rewrite u64_small in H by lia; fold sb in H.
  2: { split_and!; [done..|]. destruct (Z.eqb_spec n 0), (Z.ltb_spec x (s_data_start sb)),
         (Z.ltb_spec (s_total_blocks sb) (x + n)); try done; tauto. }
  assert (Hbm : home s bm) by (apply layout_home; [done|]; destruct L; left; unfold bm, sb; lia).
  eapply wp_mono; [apply (xfs_block_read_tmp_spec dev D); [done|exact Hbm]| |].
  2: { intros s1 (Q1 & _ & He). split_and!; [apply Q1..|]. do 3 right. by left. }
  intros [] s1 (Q1 & Ht). pose proof Q1 as [F1 K1 S1 _]. pose proof (kp_super _ _ K1) as Hsb. fold sb in Hsb. wp_steps.
  assert (Hsize : s_total_blocks sb <= 8 * K64_XFS_BLOCK_SIZE) by (by destruct L).
  eapply wp_mono; [apply (free_run_spec s1 x n); rewrite ?Hsb, ?Ht; [by apply fview_block_ok|unfold UINT64_MAX; lia..]| |done].
  intros [] ? (bm' & B & ->). rewrite Hsb, Ht in *. wp_steps. fold bm.
  cbn [xfs_tmp_block freeing upd_super set_fs set_tmp].
  set (s2 := freeing _ _ _).
  assert (Hok' : block_ok bm').
  { destruct (fview_block_ok dev D s bm F) as [Hl _], B as (Hl' & Hb & _). split; [rewrite Hl'; exact Hl|done]. }
  assert (F2 : fs_ok s2) by (by apply fs_ok_free, fs_ok_tmp).
  assert (Hhome : forall b, home s b -> home s2 b).
  { intros b. unfold home, in_journal. cbn. by rewrite Hsb. }
  assert (J2 : journal_inside s2).
  { unfold journal_inside. cbn. rewrite Hsb. by apply (layout_inside s). }
  eapply wp_mono; [apply (xfs_block_write_spec dev D); [done|done|by apply Hhome|done]| |].
  - intros [] s3 (F3 & K3 & R3 & _ & V3 & V3'). split_and!; [unfold bm, sb in *; by rewrite V3| | | |done|].
    + rewrite (kp_super _ _ K3). cbn [s2 freeing super fs upd_super set_fs with_super set_tmp]. by rewrite Hsb.
    + rewrite (kp_active _ _ K3). apply K1.
    + rewrite <- (qt_records _ _ _ Q1). cbn [s2 freeing fs set_tmp upd_super set_fs with_super journal_records] in R3.
      destruct (journaled _ _); lia.
    + intros b Hb Hne. rewrite V3' by auto. by apply S1.
  - intros s3 (F3 & K3 & S3 & He). split_and!; [done| |].
    + intros b Hb. rewrite S3 by auto. by apply S1.
    + do 3 right. by apply (quiet_error dev s s1).
Qed.
End alloc.

(** Freeing what was allocated restores every bit and the free count. *)
Lemma alloc_free_inverse bm x n bm1 bm2 : 0 <= x -> 0 <= n ->
  free_run bm x n -> bits_set bm x n true bm1 -> bits_set bm1 x n false bm2 ->
  (forall j, 0 <= j -> xfs_bitmap_get bm2 j = xfs_bitmap_get bm j) /\
  used_count bm1 x (Z.to_nat n) = n.
Proof.
  intros Hx Hn Hf (_ & _ & H1) (_ & _ & H2). split.
  - intros j Hj. rewrite H2, H1 by done.
    destruct (Z.leb_spec x j), (Z.ltb_spec j (x + n)); try done. cbn. symmetry. apply Hf. lia.
  - rewrite used_count_full; [lia|]. intros y Hy. unfold is_used. rewrite H1 by lia.
    destruct (Z.leb_spec x y), (Z.ltb_spec y (x + n)); try done; lia.
Qed.

Section alloc_theorems.
Context {W : Type} (dev : k64_block_device_t W) `{!BlockDriver dev} (D : device_ok dev).
Implicit Types s : xstate W.

(** C7: First fit, total: when the data area has a run of [n] free blocks
    and the count allows it, on a device that works and with room in the
    journal, the allocator returns the first such run. *)
Theorem xfs_alloc_extent_first_fit s n x0 : fs_ok dev s -> layout_ok (super (fs s)) ->
  0 < n <= UINT32_MAX -> n <= s_free_blocks (super (fs s)) ->
  s_data_start (super (fs s)) <= x0 -> x0 + n <= s_total_blocks (super (fs s)) ->
  free_run (fview dev s (s_block_bitmap_start (super (fs s)))) x0 n ->
  ~ io_error dev s -> ~ journal_full s ->
  let bm := s_block_bitmap_start (super (fs s)) in
  wp (xfs_alloc_extent dev n)
    (fun x s' => s_data_start (super (fs s)) <= x <= x0 /\
       free_run (fview dev s bm) x n /\
       (forall y, s_data_start (super (fs s)) <= y < x -> ~ free_run (fview dev s bm) y n) /\
       bits_set (fview dev s bm) x n true (fview dev s' bm) /\
       s_free_blocks (super (fs s')) = s_free_blocks (super (fs s)) - n)
    (fun _ => False) s.
Proof.
  intros F L Hn Hfree Hx Hend Hrun Hio Hfull bm.
  eapply wp_mono; [apply (xfs_alloc_extent_spec dev D); [done|done|lia]| |].
  - intros x s' (Hx1 & Hx2 & Hr & Hno & Hb & _ & Hsb & _).
    assert (x <= x0).
    { destruct (decide (x <= x0)); [done|]. by destruct (Hno x0 ltac:(lia) ltac:(lia)). }
    split_and!; [done|done|done| |done|by rewrite Hsb].
    intros y Hy. apply Hno; lia.
  - intros s' (_ & _ & [?|[?|[?|[Hno|[?|[_ ?]]]]]]); [lia..| |done|done].
    apply (Hno x0); [lia|lia|done].
Qed.

(** When there is room, an allocation followed by the freeing of what
    it returned succeeds and restores every bit of the bitmap and the count of
    free blocks. *)
Theorem alloc_then_free s n x0 : fs_ok dev s -> layout_ok (super (fs s)) -> 0 < n ->
  n <= s_free_blocks (super (fs s)) <= s_total_blocks (super (fs s)) ->
  s_data_start (super (fs s)) <= x0 -> x0 + n <= s_total_blocks (super (fs s)) ->
  free_run (fview dev s (s_block_bitmap_start (super (fs s)))) x0 n ->
  ~ io_error dev s -> 2 * journal_records (fs s) + 3 < s_journal_blocks (super (fs s)) ->
  let bm := s_block_bitmap_start (super (fs s)) in
  wp (x ← xfs_alloc_extent dev n; xfs_free_extent dev x n)
    (fun _ s' => (forall j, 0 <= j ->
         xfs_bitmap_get (fview dev s' bm) j = xfs_bitmap_get (fview dev s bm) j) /\
       s_free_blocks (super (fs s')) = s_free_blocks (super (fs s)))
    (fun _ => False) s.
Proof.
  intros F L Hn Hfree Hx0 Hx0' Hrun Hio Hroom bm.
  assert (Ht : s_total_blocks (super (fs s)) <= 32768 /\ 0 <= s_data_start (super (fs s))).
  { destruct L. change xfs_inode_table_blocks with 47 in *. unfold K64_XFS_BLOCK_SIZE in *. lia. }
  wp_steps. eapply wp_mono; [apply (xfs_alloc_extent_spec dev D); [done|done|lia]| |].
  2: { intros s1 (_ & _ & [?|[?|[?|[Hno|[?|[_ ?]]]]]]); [unfold UINT32_MAX in *; lia..| |done|].
    - apply (Hno x0); [lia|lia|done].
    - unfold journal_full in *. lia. }
  intros x s1 (Hx1 & Hx2 & Hr & _ & B1 & Hnf & Hsb1 & _ & Hr1 & F1 & _).
  eapply wp_mono; [apply (xfs_free_extent_spec dev D)|..]; rewrite ?Hsb1; cbn; unfold UINT64_MAX;
    [done| |lia..| |].
  { destruct L. by split. }
  2: { intros s2 (_ & _ & [?|[?|[?|[He|[_ He]]]]]); [lia..| |].
    - apply Hio. unfold io_error in *. by rewrite Hsb1 in He.
    - unfold journal_full in He. rewrite Hsb1 in He. cbn in He. lia. }
  intros [] s2 (B2 & Hsb2 & _). destruct (alloc_free_inverse _ x n _ _ ltac:(lia) ltac:(lia) Hr B1 B2) as [Hj Hc].
  split; [done|]. rewrite Hsb2. cbn. rewrite Hc. lia.
Qed.

(** Allocating an inode: the lowest free number above 1, when there is
    one, on a device that works and with room in the journal. *)
Theorem xfs_alloc_inode_first_fit s k : fs_ok dev s -> layout_ok (super (fs s)) ->
  1 <= k < K64_XFS_MAX_INODES ->
  is_free (fview dev s (s_inode_bitmap_start (super (fs s)))) k ->
  ~ io_error dev s -> ~ journal_full s ->
  let bm := s_inode_bitmap_start (super (fs s)) in
  wp (xfs_alloc_inode dev)
    (fun id s' => 2 <= id <= k + 1 /\ is_free (fview dev s bm) (id - 1) /\
       (forall j, 1 <= j < id - 1 -> is_used (fview dev s bm) j) /\
       bits_set (fview dev s bm) (id - 1) 1 true (fview dev s' bm) /\
       forall b, home s b -> b <> bm -> fview dev s' b = fview dev s b)
    (fun _ => False) s.
Proof.
  intros F L Hk Hfree Hio Hfull bm.
  eapply wp_mono; [by apply (xfs_alloc_inode_spec dev D)| |].
  - intros id s' (Hid & Hf & Hu & Hb & _ & _ & _ & V). split_and!; try done; [lia|].
    destruct (decide (id <= k + 1)); [done|]. specialize (Hu k ltac:(lia)).
    unfold is_free, is_used in *. congruence.
  - intros s' (_ & _ & _ & [Hu|[?|[_ ?]]]); [|done..]. specialize (Hu k Hk).
    unfold is_free, is_used in *. congruence.
Qed.
End alloc_theorems.
