(* ===== verification/XfsDir.v ===== *)
(** * K64XFS: directories and paths ([k64_xfs.c], lines 259-557)

    Linear directories of fixed-size entries, path splitting and resolution,
    and the creation of files and directories.  A path is a C string value
    (bytes without the terminator), [None] for NULL. *)
From Stdlib Require Import ZArith Lia.
From stdpp Require Import base list.
From S2P Require Import Prelude Exec KString XfsFormat Block Cache Journal XfsCore.

Definition SLASH : Z := 47.

Definition xfs_name_valid (name : list Z) : bool :=
  let len := default 0 (k64_strlen (Some (cstr name))) in
  (0 <? len) && (len <? K64_XFS_NAME_MAX) && negb (streq name (str ".")) &&
  negb (streq name (str "..")).

(** Entry [s] of a directory block. *)
Definition dirent_at (block : list Z) (s : Z) : k64_xfs_dirent_disk_t :=
  dec_dirent (slice block (Z.to_nat s * sizeof_dirent) sizeof_dirent).

(** Whether an entry has this name; [None] is a read past a string. *)
Definition dirent_matches (d : k64_xfs_dirent_disk_t) (name : list Z) : option bool :=
  if (d_inode_id d =? 0) || (d_name_len d =? 0) then Some false
  else
    len ← k64_strlen (Some (cstr name));
    if negb (d_name_len d =? len) then Some false
    else
      r ← k64_strncmp (d_name d) (cstr name) (d_name_len d);
      Some (r =? 0).

(** The inner loop of [xfs_dir_find]: the first of the slots [s], [s+1], ...,
    [n] of them, with the name. *)
Fixpoint find_slot (n : nat) (s : Z) (block name : list Z) : option (option Z) :=
  match n with
  | O => Some None
  | S n =>
      m ← dirent_matches (dirent_at block s) name;
      if (m : bool) then Some (Some s) else find_slot n (s + 1) block name
  end.

(** The inner loop of [xfs_dir_add]: the first free slot. *)
Fixpoint free_slot (n : nat) (s : Z) (block : list Z) : option Z :=
  match n with
  | O => None
  | S n => if d_inode_id (dirent_at block s) =? 0 then Some s else free_slot n (s + 1) block
  end.

(** The entry [xfs_dir_add] writes. *)
Definition new_dirent (inode_id type : Z) (name : list Z) : k64_xfs_dirent_disk_t :=
  let d := mk_dirent inode_id type (u16 (Z.of_nat (length name)))
             (splice (zeros 128) 0 name) 0 (zeros 20) in
  dirent_with_checksum d (k64_xfs_dirent_checksum d).

(** [entries[s] = d] in a directory block *)
Definition put_dirent (block : list Z) (s : Z) (d : k64_xfs_dirent_disk_t) : list Z :=
  splice block (Z.to_nat s * sizeof_dirent) (enc_dirent d).

Definition inode_with_modified (i : k64_xfs_inode_disk_t) (t : Z) : k64_xfs_inode_disk_t :=
  mk_inode (i_magic i) (i_inode_id i) (i_type i) (i_mode i) (i_uid i) (i_gid i) (i_size i)
    (i_link_count i) (i_flags i) (i_created_tick i) t (i_accessed_tick i)
    (i_generation i) (i_extent_count i) (i_reserved0 i) (i_direct_extents i)
    (i_indirect_extent_block i) (i_checksum i) (i_reserved1 i).

(** [size], [extent_count] and [direct_extents] assigned. *)
Definition inode_with_extents (i : k64_xfs_inode_disk_t) (size count : Z)
    (extents : list k64_xfs_extent_disk_t) : k64_xfs_inode_disk_t :=
  mk_inode (i_magic i) (i_inode_id i) (i_type i) (i_mode i) (i_uid i) (i_gid i) size
    (i_link_count i) (i_flags i) (i_created_tick i) (i_modified_tick i) (i_accessed_tick i)
    (i_generation i) count (i_reserved0 i) extents
    (i_indirect_extent_block i) (i_checksum i) (i_reserved1 i).

(** [direct_extents[k]] with its three assigned fields; [flags] and [reserved]
    stay. *)
Definition extent_assign (e : k64_xfs_extent_disk_t) (logical physical count : Z) :=
  mk_extent logical physical count (e_flags e) (e_reserved e).
Definition set_extent (l : list k64_xfs_extent_disk_t) (k : nat) (logical physical count : Z) :=
  alter (fun e => extent_assign e logical physical count) k l.

(** [while (len > 1 && path[len - 1] == '/') len--;] *)
Fixpoint trim_slashes (path : list Z) (len : nat) : nat :=
  match len with
  | S (S _ as k) => if nth k path 0 =? SLASH then trim_slashes path k else len
  | _ => len
  end.

(** [while (start > 0 && path[start - 1] != '/') start--;] *)
Fixpoint leaf_start (path : list Z) (start : nat) : nat :=
  match start with
  | O => O
  | S k => if nth k path 0 =? SLASH then start else leaf_start path k
  end.

(** The parent path and the leaf of [path]; [None] is the return of false. *)
Definition xfs_split_parent (path : option (list Z)) (parent_size leaf_size : Z)
    : option (list Z * list Z) :=
  match path with
  | None => None
  | Some path =>
      if negb (nth 0 path 0 =? SLASH) then None else
      let len := trim_slashes path (length path) in
      if (len <=? 1)%nat then None else
      let start := leaf_start path len in
      if leaf_size <=? Z.of_nat (len - start) then None else
      let leaf := slice path start (len - start) in
      if (start <=? 1)%nat then
        let parent := xfs_copy parent_size (Some [SLASH]) in
        if xfs_name_valid leaf then Some (parent, leaf) else None
      else if parent_size <=? Z.of_nat (start - 1) then None
      else if xfs_name_valid leaf then Some (take (start - 1) path, leaf) else None
  end.

(** [while ( *p == '/') p++;] *)
Fixpoint skip_slashes (p : list Z) : list Z :=
  match p with
  | c :: p' => if c =? SLASH then skip_slashes p' else p
  | [] => []
  end.

(** The next path component; [None] when it does not fit in [token]. *)
Fixpoint take_token (p : list Z) (n : Z) : option (list Z * list Z) :=
  match p with
  | [] => Some ([], [])
  | c :: p' =>
      if c =? SLASH then Some ([], p)
      else if K64_XFS_NAME_MAX <=? n + 1 then None
      else '(t, rest) ← take_token p' (n + 1); Some (c :: t, rest)
  end.

Section dirs.
Context {W : Type} (dev : k64_block_device_t W).
Abbreviation st := (xstate W).

(** Reads logical block [b] of [dir] into [xfs_tmp_block]. *)
Definition read_dir_block (dir : k64_xfs_inode_disk_t) (b : Z) : M st unit :=
  blk ← xfs_inode_read_data_block dev dir b;
  modify (set_tmp blk).

Definition dir_find_block (dir : k64_xfs_inode_disk_t) (name : list Z) (b : Z)
    : M st (option (k64_xfs_dirent_disk_t * Z * Z)) :=
  read_dir_block dir b ;;
  tmp ← get_tmp;
  r ← deref (find_slot (Z.to_nat XFS_DIRENT_PER_BLOCK) 0 tmp name);
  mret (match r with Some s => Some (dirent_at tmp s, b, s) | None => None end).

(** The entry, its block and its slot. *)
Definition xfs_dir_find (dir : k64_xfs_inode_disk_t) (name : list Z)
    : M st (k64_xfs_dirent_disk_t * Z * Z) :=
  check (i_type dir =? K64_XFS_TYPE_DIRECTORY) ;;
  r ← find_loop (Z.to_nat (blocks_of (i_size dir))) 0 (dir_find_block dir name);
  match r with
  | Some x => mret x
  | None => fail
  end.

Definition dir_add_block (dir : k64_xfs_inode_disk_t) (name : list Z) (inode_id type b : Z)
    : M st (option k64_xfs_inode_disk_t) :=
  read_dir_block dir b ;;
  tmp ← get_tmp;
  match free_slot (Z.to_nat XFS_DIRENT_PER_BLOCK) 0 tmp with
  | None => mret None
  | Some s =>
      modify (set_tmp (put_dirent tmp s (new_dirent inode_id type name))) ;;
      tmp ← get_tmp;
      xfs_inode_write_data_block dev dir b tmp ;;
      let dir := inode_with_modified dir (u64 (i_modified_tick dir + 1)) in
      xfs_write_inode dev dir ;;
      mret (Some dir)
  end.

(** The new value of [*dir]. *)
Definition xfs_dir_add (dir : k64_xfs_inode_disk_t) (name : list Z) (inode_id type : Z)
    : M st k64_xfs_inode_disk_t :=
  check (xfs_name_valid name && negb (inode_id =? 0)) ;;
  found ← try (xfs_dir_find dir name);
  check (absent found) ;;
  r ← find_loop (Z.to_nat (blocks_of (i_size dir))) 0 (dir_add_block dir name inode_id type);
  match r with
  | Some dir => mret dir
  | None =>
      new_block ← xfs_alloc_extent dev 1;
      modify (set_tmp (put_dirent (zeros BLOCK) 0 (new_dirent inode_id type name))) ;;
      tmp ← get_tmp;
      xfs_block_write dev new_block tmp ;;
      if K64_XFS_DIRECT_EXTENTS <=? i_extent_count dir then
        _ ← try (xfs_free_extent dev new_block 1);
        fail
      else
        let dir := inode_with_extents dir (u64 (i_size dir + K64_XFS_BLOCK_SIZE))
                     (i_extent_count dir + 1)
                     (set_extent (i_direct_extents dir) (Z.to_nat (i_extent_count dir))
                        (i_extent_count dir) new_block 1) in
        let dir := inode_with_modified dir (u64 (i_modified_tick dir + 1)) in
        xfs_write_inode dev dir ;;
        mret dir
  end.

Definition xfs_dir_remove (dir : k64_xfs_inode_disk_t) (name : list Z)
    : M st k64_xfs_inode_disk_t :=
  '(_, b, s) ← xfs_dir_find dir name;
  read_dir_block dir b ;;
  modify (fun x => set_tmp (put_dirent (xfs_tmp_block x) s zero_dirent) x) ;;
  tmp ← get_tmp;
  xfs_inode_write_data_block dev dir b tmp ;;
  let dir := inode_with_modified dir (u64 (i_modified_tick dir + 1)) in
  xfs_write_inode dev dir ;;
  mret dir.

(** The loop over the path components of [xfs_resolve].  Every iteration but
    the last consumes a byte of the path, so [length path] is enough fuel. *)
Fixpoint resolve_loop (fuel : nat) (p : list Z) (current_id : Z) (current : k64_xfs_inode_disk_t)
    : M st (Z * k64_xfs_inode_disk_t) :=
  match p with
  | [] => mret (current_id, current)
  | _ =>
      match fuel with
      | O => ub
      | S fuel =>
          match take_token p 0 with
          | None => fail
          | Some (token, p) =>
              let p := skip_slashes p in
              '(ent, _, _) ← xfs_dir_find current token;
              current ← xfs_read_inode dev (d_inode_id ent);
              resolve_loop fuel p (d_inode_id ent) current
          end
      end
  end.

Definition xfs_resolve (path : option (list Z)) : M st (Z * k64_xfs_inode_disk_t) :=
  m ← get_fs;
  match path with
  | None => fail
  | Some path =>
      check (mounted m && (nth 0 path 0 =? SLASH)) ;;
      let current_id := s_root_inode (super m) in
      current ← xfs_read_inode dev current_id;
      resolve_loop (length path) (skip_slashes path) current_id current
  end.

(** [(uint16_t)((type == DIRECTORY ? 0040000u : 0100000u) | (mode & 07777u))] *)
Definition mode_bits (type mode : Z) : Z :=
  u16 (Z.lor (if type =? K64_XFS_TYPE_DIRECTORY then 0x4000 else 0x8000) (Z.land mode 0xFFF)).

Definition fresh_inode (generation inode_id type mode uid gid : Z) : k64_xfs_inode_disk_t :=
  let t := u64 (generation + 1) in
  mk_inode K64_XFS_INODE_MAGIC inode_id type (mode_bits type mode) uid gid 0 1 0
    t t t t 0 0 zero_extents 0 0 (zeros 28).

Definition xfs_make_inode (inode_id type mode uid gid : Z) : M st k64_xfs_inode_disk_t :=
  sb ← get_super;
  let inode := fresh_inode (s_generation sb) inode_id type mode uid gid in
  xfs_write_inode dev inode ;;
  mret inode.

Definition xfs_create_at (path : option (list Z)) (type mode uid gid : Z)
    : M st k64_xfs_inode_disk_t :=
  match xfs_split_parent path 256 K64_XFS_NAME_MAX with
  | None => fail
  | Some (parent_path, leaf) =>
      '(_, parent) ← xfs_resolve (Some parent_path);
      check (i_type parent =? K64_XFS_TYPE_DIRECTORY) ;;
      found ← try (xfs_dir_find parent leaf);
      check (absent found) ;;
      inode_id ← xfs_alloc_inode dev;
      inode ← xfs_make_inode inode_id type mode uid gid;
      inode ← (if type =? K64_XFS_TYPE_DIRECTORY then
                 r ← try (xfs_alloc_extent dev 1);
                 match r with
                 | None =>
                     _ ← try (xfs_free_inode dev inode_id);
                     fail
                 | Some data_block =>
                     modify (set_tmp (zeros BLOCK)) ;;
                     tmp ← get_tmp;
                     xfs_block_write dev data_block tmp ;;
                     let inode := inode_with_extents inode K64_XFS_BLOCK_SIZE 1
                                    (set_extent (i_direct_extents inode) 0 0 data_block 1) in
                     xfs_write_inode dev inode ;;
                     mret inode
                 end
               else mret inode);
      xfs_dir_add parent leaf inode_id type ;;
      mret inode
  end.
End dirs.
