(* ===== verification/DirSpec.v ===== *)
(** * Directory search and path resolution of K64XFS are correct

    [xfs_dir_find] refines the search of a directory's entries in order,
    [xfs_resolve] refines walking the components of a path from the root inode;
    both only read, and neither runs past a buffer or out of fuel. *)
From Stdlib Require Import ZArith Lia.
From stdpp Require Import base list.
From S2P Require Import Prelude Exec KString XfsFormat XfsCrc Block Cache CacheSpec Journal JournalSpec XfsCore XfsSpec XfsDir.

(** ** Names *)

(** Comparing the first [length name] bytes of a buffer with a name. *)
Lemma strncmp_name l name rb : no_nul name -> (length name <= length l)%nat ->
  Z.of_nat (length name) < 2147483648 ->
  exists r, k64_strncmp l (name ++ 0 :: rb) (Z.of_nat (length name)) = Some r /\
    (r = 0 <-> take (length name) l = name).
Proof.
  revert l. induction name as [|y name IH]; intros l Hn Hl Hb.
  - exists 0. destruct l; done.
  - apply Forall_cons in Hn as [Hy Hn]. destruct l as [|x l]; [cbn in Hl; lia|].
    cbn [length] in *. cbn [k64_strncmp app take].
    destruct (Z.eqb_spec (Z.of_nat (S (length name))) 0); [lia|].
    assert (He : strncmp_end (x :: l) (y :: name ++ 0 :: rb) (Z.of_nat (S (length name)) - 1) = Some (x - y)).
    { unfold strncmp_end. rewrite int32_small by lia.
      destruct (Z.leb_spec 0 (Z.of_nat (S (length name)) - 1)); [|lia].
      destruct (Z.eqb_spec y 0); [lia|]. by rewrite orb_true_r. }
    destruct (Z.eqb_spec x 0) as [->|Hx].
    + rewrite He. eexists. split; [done|]. split; [lia|]. intros [= ? ?]. lia.
    + destruct (Z.eqb_spec y 0); [lia|]. destruct (Z.eqb_spec x y) as [->|Hxy].
      * destruct (IH l Hn) as (r & Hr & Hiff); [lia|lia|]. exists r.
        replace (Z.of_nat (S (length name)) - 1) with (Z.of_nat (length name)) by lia.
        split; [done|]. rewrite Hiff. split; [by intros ->|by intros [= ?]].
      * eexists. split; [done|]. split; [lia|]. by intros [= ? ?].
Qed.

(** A name that can be in a directory. *)
Definition name_ok (name : list Z) : Prop := no_nul name /\ Z.of_nat (length name) < K64_XFS_NAME_MAX.

(** An entry in use under a name. *)
Definition named (d : k64_xfs_dirent_disk_t) (name : list Z) : bool :=
  negb (d_inode_id d =? 0) && negb (d_name_len d =? 0) &&
  (d_name_len d =? Z.of_nat (length name)) && bool_decide (take (length name) (d_name d) = name).

Lemma dirent_matches_named d name : name_ok name -> length (d_name d) = 128%nat ->
  dirent_matches d name = Some (named d name).
Proof.
  intros [Hn Hl] Hd. unfold K64_XFS_NAME_MAX in *. unfold dirent_matches, named.
  destruct (Z.eqb_spec (d_inode_id d) 0); [done|]. destruct (Z.eqb_spec (d_name_len d) 0); [done|].
  cbn [orb negb andb]. unfold cstr. rewrite k64_strlen_cstr by done. cbn [mbind option_bind].
  destruct (Z.eqb_spec (d_name_len d) (Z.of_nat (length name))) as [Heq|]; [|done]. cbn [negb andb].
  rewrite Heq. destruct (strncmp_name (d_name d) name [] Hn) as (r & -> & Hr); [lia|lia|].
  cbn [mbind option_bind]. f_equal. destruct (Z.eqb_spec r 0) as [H|H].
  - symmetry. apply bool_decide_eq_true. tauto.
  - symmetry. apply bool_decide_eq_false. tauto.
Qed.

Lemma dirent_name_length bs : length bs = sizeof_dirent -> length (d_name (dec_dirent bs)) = 128%nat.
Proof.
  intros H. unfold sizeof_dirent in H. unfold dec_dirent, get_le, get_raw. cbn [d_name].
  rewrite length_take, !length_drop. lia.
Qed.

Lemma dirent_at_name_length block s : length block = BLOCK -> 0 <= s < XFS_DIRENT_PER_BLOCK ->
  length (d_name (dirent_at block s)) = 128%nat.
Proof.
  intros Hb Hs. apply dirent_name_length, slice_length. rewrite Hb. change XFS_DIRENT_PER_BLOCK with 25 in Hs.
  unfold BLOCK, K64_XFS_BLOCK_SIZE, sizeof_dirent. lia.
Qed.

(** ** The first entry with a name, in a block and in a directory *)
Fixpoint block_lookup (n : nat) (s : Z) (block name : list Z) : option Z :=
  match n with
  | O => None
  | S n => if named (dirent_at block s) name then Some s else block_lookup n (s + 1) block name
  end.

Lemma find_slot_lookup n s block name : name_ok name -> length block = BLOCK ->
  0 <= s -> s + Z.of_nat n <= XFS_DIRENT_PER_BLOCK ->
  find_slot n s block name = Some (block_lookup n s block name).
Proof.
  intros Hn Hb. revert s. induction n as [|n IH]; intros s Hs Hend; [done|]. cbn [find_slot block_lookup].
  rewrite dirent_matches_named; [|done|apply dirent_at_name_length; [done|lia]].
  cbn [mbind option_bind]. destruct (named _ _); [done|]. apply IH; lia.
Qed.

(** The content of logical block [b] of a file. *)
Definition logical_block (f : Z -> list Z) (inode : k64_xfs_inode_disk_t) (b : Z) : list Z :=
  match extent_lookup (live_extents inode) b with
  | Some p => f p
  | None => zeros BLOCK
  end.

Fixpoint dir_lookup_from (f : Z -> list Z) (dir : k64_xfs_inode_disk_t) (name : list Z) (n : nat) (b : Z)
    : option (k64_xfs_dirent_disk_t * Z * Z) :=
  match n with
  | O => None
  | S n =>
      let block := logical_block f dir b in
      match block_lookup (Z.to_nat XFS_DIRENT_PER_BLOCK) 0 block name with
      | Some s => Some (dirent_at block s, b, s)
      | None => dir_lookup_from f dir name n (b + 1)
      end
  end.

Definition dir_lookup (f : Z -> list Z) (dir : k64_xfs_inode_disk_t) (name : list Z)
    : option (k64_xfs_dirent_disk_t * Z * Z) :=
  if i_type dir =? K64_XFS_TYPE_DIRECTORY
  then dir_lookup_from f dir name (Z.to_nat (blocks_of (i_size dir))) 0
  else None.

(** ** Paths *)

(** The components of a path: its maximal runs of bytes other than '/'. *)
Fixpoint components_aux (p acc : list Z) : list (list Z) :=
  match p with
  | [] => match acc with [] => [] | _ => [rev acc] end
  | c :: p =>
      if c =? SLASH then match acc with [] => components_aux p [] | _ => rev acc :: components_aux p [] end
      else components_aux p (c :: acc)
  end.
Definition components (p : list Z) : list (list Z) := components_aux p [].

(** The inode with a number, if there is an intact one. *)
Definition inode_lookup (f : Z -> list Z) (sb : k64_xfs_superblock_disk_t) (id : Z)
    : option k64_xfs_inode_disk_t :=
  if (1 <=? id) && (id <=? K64_XFS_MAX_INODES) then inode_at f sb id else None.

(** Walking the components from an inode; no name has 128 bytes or more. *)
Fixpoint walk (f : Z -> list Z) (sb : k64_xfs_superblock_disk_t) (cs : list (list Z)) (id : Z)
    (inode : k64_xfs_inode_disk_t) : option (Z * k64_xfs_inode_disk_t) :=
  match cs with
  | [] => Some (id, inode)
  | c :: cs =>
      if K64_XFS_NAME_MAX <=? Z.of_nat (length c) then None else
      '(ent, _, _) ← dir_lookup f inode c;
      next ← inode_lookup f sb (d_inode_id ent);
      walk f sb cs (d_inode_id ent) next
  end.

Definition resolve_path (f : Z -> list Z) (sb : k64_xfs_superblock_disk_t) (path : list Z)
    : option (Z * k64_xfs_inode_disk_t) :=
  if nth 0 path 0 =? SLASH then
    root ← inode_lookup f sb (s_root_inode sb);
    walk f sb (components path) (s_root_inode sb) root
  else None.

Lemma components_aux_skip p : components_aux p [] = components_aux (skip_slashes p) [].
Proof.
  induction p as [|c p IH]; [done|]. cbn. destruct (c =? SLASH) eqn:Hc; [done|]. cbn. by rewrite Hc.
Qed.

Lemma components_aux_token p n token rest acc : take_token p n = Some (token, rest) ->
  (token = [] -> acc <> []) ->
  components_aux p acc = (rev acc ++ token) :: components_aux rest [].
Proof.
  revert n token acc. induction p as [|c p IH]; intros n token acc H Hne; cbn [take_token] in H.
  - injection H as <- <-. rewrite app_nil_r. cbn. destruct acc; [by destruct Hne|done].
  - cbn [components_aux]. destruct (c =? SLASH) eqn:Hc.
    + injection H as <- <-. rewrite app_nil_r. destruct acc as [|a acc]; [by destruct Hne|].
      cbn [components_aux]. by rewrite Hc.
    + destruct (K64_XFS_NAME_MAX <=? n + 1); [done|].
      destruct (take_token p (n + 1)) as [[t r]|] eqn:Ht; [|done]. injection H as <- <-.
      rewrite (IH _ _ (c :: acc) Ht) by done. cbn [rev]. by rewrite <- app_assoc.
Qed.

Lemma take_token_shape p n token rest : take_token p n = Some (token, rest) -> 0 <= n ->
  p = token ++ rest /\ n + Z.of_nat (length token) < K64_XFS_NAME_MAX \/ token = [] /\ p = rest.
Proof.
  revert n token. induction p as [|c p IH]; intros n token H Hn; cbn [take_token] in H.
  - injection H as <- <-. by right.
  - destruct (c =? SLASH); [injection H as <- <-; by right|].
    destruct (Z.leb_spec K64_XFS_NAME_MAX (n + 1)); [done|].
    destruct (take_token p (n + 1)) as [[t r]|] eqn:Ht; [|done]. injection H as <- <-. left.
    destruct (IH _ _ Ht ltac:(lia)) as [[-> ?]|[-> ->]]; cbn; (split; [done|lia]).
Qed.

(** A token that does not fit: the component is too long. *)
Lemma take_token_None p n acc : take_token p n = None -> Z.of_nat (length acc) = n ->
  exists c cs, components_aux p acc = c :: cs /\ K64_XFS_NAME_MAX <= Z.of_nat (length c).
Proof.
  assert (Hlong : forall p acc, K64_XFS_NAME_MAX <= Z.of_nat (length acc) ->
    exists c cs, components_aux p acc = c :: cs /\ K64_XFS_NAME_MAX <= Z.of_nat (length c)).
  { intros p'. induction p' as [|c p' IH]; intros [|a acc'] Ha; try (cbn in Ha; unfold K64_XFS_NAME_MAX in *; lia);
      cbn [components_aux].
    - eexists _, _. split; [done|]. by rewrite length_rev.
    - destruct (c =? SLASH); [|apply IH; cbn [length] in *; lia].
      eexists _, _. split; [done|]. by rewrite length_rev. }
  revert n acc. induction p as [|c p IH]; intros n acc H Hn; cbn [take_token] in H; [done|].
  cbn [components_aux]. destruct (c =? SLASH); [done|].
  destruct (Z.leb_spec K64_XFS_NAME_MAX (n + 1)); [apply Hlong; cbn [length]; lia|].
  destruct (take_token p (n + 1)) as [[t r]|] eqn:Ht; [done|].
  eapply IH; [done|]. cbn [length]. lia.
Qed.

Lemma take_token_nonempty p n token rest : take_token (skip_slashes p) n = Some (token, rest) ->
  skip_slashes p <> [] -> token <> [].
Proof.
  induction p as [|c p IH]; [done|]. cbn [skip_slashes]. destruct (c =? SLASH) eqn:Hc; [done|].
  cbn [take_token]. rewrite Hc. destruct (K64_XFS_NAME_MAX <=? n + 1); [done|].
  destruct (take_token p (n + 1)) as [[t r]|]; [|done]. by intros [= <- <-].
Qed.

Lemma skip_slashes_length p : (length (skip_slashes p) <= length p)%nat.
Proof. induction p as [|c p IH]; [done|]. cbn. destruct (c =? SLASH); cbn; lia. Qed.

Lemma skip_slashes_no_nul p : no_nul p -> no_nul (skip_slashes p).
Proof. induction 1 as [|c p Hc Hp IH]; [constructor|]. cbn. destruct (c =? SLASH); [done|]. by constructor. Qed.

Section dirs.
Context {W : Type} (dev : k64_block_device_t W) `{!BlockDriver dev} (D : device_ok dev).
Abbreviation st := (xstate W).
Abbreviation fview := (fview dev).
Abbreviation fs_ok := (fs_ok dev).
Abbreviation same_blocks := (same_blocks dev).
Implicit Types s : st.

(** Every block an inode refers to is a data block. *)
Definition extents_in_data (sb : k64_xfs_superblock_disk_t) (i : k64_xfs_inode_disk_t) : Prop :=
  forall b p, extent_lookup (live_extents i) b = Some p -> s_data_start sb <= p < s_total_blocks sb.
Definition tree_ok (f : Z -> list Z) (sb : k64_xfs_superblock_disk_t) : Prop :=
  forall id i, inode_lookup f sb id = Some i -> extents_in_data sb i.

Abbreviation quiet := (quiet dev).
Abbreviation io_error := (io_error dev).

Lemma data_home s p : layout_ok (super (fs s)) ->
  s_data_start (super (fs s)) <= p < s_total_blocks (super (fs s)) -> home s p.
Proof.
  intros L Hp. apply layout_home; [done|]. right. destruct L.
  change xfs_inode_table_blocks with 47 in *. lia.
Qed.

Lemma logical_block_same s s' i b : same_blocks s s' -> layout_ok (super (fs s)) ->
  extents_in_data (super (fs s)) i -> logical_block (fview s') i b = logical_block (fview s) i b.
Proof.
  intros S L E. unfold logical_block. destruct (extent_lookup _ b) as [p|] eqn:Hp; [|done].
  apply S, data_home; [done|]. by eapply E.
Qed.

Lemma logical_block_length s i b : fs_ok s -> length (logical_block (fview s) i b) = BLOCK.
Proof.
  intros F. unfold logical_block. destruct (extent_lookup _ b); [|apply zeros_length].
  by apply fview_block_ok.
Qed.

Lemma logical_block_ok s i b : fs_ok s -> block_ok (logical_block (fview s) i b).
Proof.
  intros F. unfold logical_block. destruct (extent_lookup _ b); [by apply fview_block_ok|apply zeros_block_ok].
Qed.

Lemma xfs_inode_read_data_block_spec s i b : fs_ok s -> layout_ok (super (fs s)) ->
  extents_in_data (super (fs s)) i ->
  wp (xfs_inode_read_data_block dev i b)
    (fun d s' => d = logical_block (fview s) i b /\ quiet s s')
    (fun s' => quiet s s' /\ io_error s) s.
Proof.
  intros F L E. unfold xfs_inode_read_data_block, logical_block.
  destruct (extent_lookup _ b) as [p|] eqn:Hp; [|wp_steps; split; [done|by apply quiet_refl]].
  eapply wp_mono; [apply (xfs_block_read_spec dev D); [done|apply data_home; [done|by eapply E]]|done|].
  by intros s' (Q & _ & ?).
Qed.

Lemma read_dir_block_spec s dir b : fs_ok s -> layout_ok (super (fs s)) ->
  extents_in_data (super (fs s)) dir ->
  wp (read_dir_block dev dir b)
    (fun _ s' => xfs_tmp_block s' = logical_block (fview s) dir b /\ quiet s s')
    (fun s' => quiet s s' /\ io_error s) s.
Proof.
  intros F L E. unfold read_dir_block. wp_steps.
  eapply wp_mono; [by apply xfs_inode_read_data_block_spec| |done].
  intros d s' (-> & Q). wp_steps. split; [done|]. apply quiet_tmp; [done|by apply logical_block_ok].
Qed.

Lemma io_error_quiet s s' : quiet s s' -> io_error s' -> io_error s.
Proof. intros Q. unfold XfsSpec.io_error. by rewrite (quiet_super _ _ _ Q). Qed.

Lemma dir_lookup_same s s' dir name n b : same_blocks s s' -> layout_ok (super (fs s)) ->
  extents_in_data (super (fs s)) dir ->
  dir_lookup_from (fview s') dir name n b = dir_lookup_from (fview s) dir name n b.
Proof.
  intros S L E. revert b. induction n as [|n IH]; intros b; [done|]. cbn [dir_lookup_from].
  rewrite (logical_block_same s s') by done. by rewrite IH.
Qed.

Lemma dir_find_loop_spec s dir name n b : fs_ok s -> layout_ok (super (fs s)) ->
  extents_in_data (super (fs s)) dir -> name_ok name ->
  wp (find_loop n b (dir_find_block dev dir name))
    (fun r s' => r = dir_lookup_from (fview s) dir name n b /\ quiet s s')
    (fun s' => quiet s s' /\ io_error s) s.
Proof.
  intros F L E Hn. revert b s F L E. induction n as [|n IH]; intros b s F L E.
  - wp_steps. split; [done|by apply quiet_refl].
  - cbn [find_loop dir_lookup_from]. wp_steps. unfold dir_find_block at 1, get_tmp. wp_steps.
    eapply wp_mono; [by apply read_dir_block_spec| |done].
    intros [] s1 [Ht R1]. wp_steps. rewrite Ht. pose proof (logical_block_length s dir b F) as Hl.
    eapply wp_deref; [apply find_slot_lookup; [done|done|lia|done]|]. wp_steps.
    destruct (block_lookup _ _ _ _) as [k|] eqn:Hk; [wp_steps; by split|].
    pose proof R1 as [F1 K1 S1 _]. pose proof (kp_super _ _ K1) as Hsb.
    eapply wp_mono; [apply IH; rewrite ?Hsb; done| |].
    + intros r s2 [-> R2]. split; [|by eapply quiet_trans]. by apply dir_lookup_same.
    + intros s2 [R2 He]. split; [by eapply quiet_trans|by eapply io_error_quiet].
Qed.

(** Searching a directory: the first entry with the name, or failure when
    there is none or the device fails. *)
Lemma xfs_dir_find_spec s dir name : fs_ok s -> layout_ok (super (fs s)) ->
  extents_in_data (super (fs s)) dir -> name_ok name ->
  wp (xfs_dir_find dev dir name)
    (fun r s' => dir_lookup (fview s) dir name = Some r /\ quiet s s')
    (fun s' => quiet s s' /\ (dir_lookup (fview s) dir name = None \/ io_error s)) s.
Proof.
  intros F L E Hn. unfold xfs_dir_find, dir_lookup. wp_steps; rewrite H.
  2: { split; [by apply quiet_refl|by left]. }
  eapply wp_mono; [by apply dir_find_loop_spec| |].
  - intros r s1 [-> R1]. destruct (dir_lookup_from _ _ _ _ _) as [x|]; wp_steps; [by split|].
    split; [done|by left].
  - intros s1 [Q He]. split; [done|by right].
Qed.

Lemma dirent_id_range block k : bytes_ok block -> 0 <= d_inode_id (dirent_at block k).
Proof.
  intros Hb. unfold dirent_at, dec_dirent, get_le. cbn [d_inode_id].
  apply (le_value_range (take 4 _)). by apply Forall_take, bytes_ok_slice.
Qed.

Lemma dir_lookup_id s dir name e b k : fs_ok s -> dir_lookup (fview s) dir name = Some (e, b, k) ->
  0 <= d_inode_id e.
Proof.
  intros F. unfold dir_lookup. destruct (_ =? _); [|done].
  generalize (Z.to_nat (blocks_of (i_size dir))) as n. intros n. generalize 0 at 1. intros b0.
  revert b0. induction n as [|n IH]; intros b0; [done|]. cbn [dir_lookup_from].
  destruct (block_lookup _ _ _ _) as [k'|]; [|apply IH]. intros [= <- _ _]. apply dirent_id_range.
  unfold logical_block. destruct (extent_lookup _ b0); [by apply fview_block_ok|apply zeros_bytes_ok].
Qed.

Lemma inode_lookup_ok f sb id i : inode_lookup f sb id = Some i <-> inode_id_ok id /\ inode_at f sb id = Some i.
Proof.
  unfold inode_lookup, inode_id_ok.
  destruct (Z.leb_spec 1 id), (Z.leb_spec id K64_XFS_MAX_INODES); cbn [andb]; split; try done; try tauto; lia.
Qed.

(** Reading an inode refines [inode_lookup]. *)
Lemma read_inode_lookup s id : fs_ok s -> layout_ok (super (fs s)) -> 0 <= id ->
  wp (xfs_read_inode dev id)
    (fun i s' => inode_lookup (fview s) (super (fs s)) id = Some i /\ quiet s s')
    (fun s' => quiet s s' /\ (inode_lookup (fview s) (super (fs s)) id = None \/ io_error s)) s.
Proof.
  intros F L Hid. eapply wp_mono; [by apply (xfs_read_inode_spec dev D)| |].
  - intros i s' (I & Hi & Q). split; [|done]. by apply inode_lookup_ok.
  - intros s' (Q & He). split; [done|].
    destruct (inode_lookup _ _ id) as [i|] eqn:Hl; [|by left]. apply inode_lookup_ok in Hl as [? ?].
    destruct He as [?|[?|[_ ?]]]; [done|congruence|by right].
Qed.

Lemma inode_at_same s s' id : same_blocks s s' -> layout_ok (super (fs s)) ->
  inode_lookup (fview s') (super (fs s)) id = inode_lookup (fview s) (super (fs s)) id.
Proof.
  intros S L. unfold inode_lookup. destruct (_ && _) eqn:H; [|done]. apply andb_true_iff in H as [? ?].
  unfold inode_at, inode_slot. rewrite S; [done|]. apply inode_home; [done|]. split; lia.
Qed.

Lemma walk_same s s' cs id i : same_blocks s s' -> layout_ok (super (fs s)) ->
  tree_ok (fview s) (super (fs s)) -> extents_in_data (super (fs s)) i ->
  walk (fview s') (super (fs s)) cs id i = walk (fview s) (super (fs s)) cs id i.
Proof.
  intros S L T. revert id i. induction cs as [|c cs IH]; intros id i E; [done|]. cbn [walk].
  destruct (_ <=? _); [done|].
  unfold dir_lookup. rewrite (dir_lookup_same s) by done. destruct (_ =? _); [|done].
  destruct (dir_lookup_from _ _ _ _ _) as [[[e b] k]|]; [|done]. cbn [mbind option_bind].
  rewrite (inode_at_same s) by done. destruct (inode_lookup _ _ _) as [j|] eqn:Hj; [|done]. cbn.
  apply IH. by eapply T.
Qed.

Lemma resolve_loop_spec fuel p0 id i s : fs_ok s -> layout_ok (super (fs s)) ->
  tree_ok (fview s) (super (fs s)) -> extents_in_data (super (fs s)) i -> no_nul p0 ->
  (length (skip_slashes p0) <= fuel)%nat ->
  wp (resolve_loop dev fuel (skip_slashes p0) id i)
    (fun r s' => walk (fview s) (super (fs s)) (components p0) id i = Some r /\ quiet s s')
    (fun s' => quiet s s' /\
       (walk (fview s) (super (fs s)) (components p0) id i = None \/ io_error s)) s.
Proof.
  revert p0 id i s. induction fuel as [|fuel IH]; intros p0 id i s F L T E Hnul Hf;
    unfold components; rewrite components_aux_skip.
  { destruct (skip_slashes p0); [|cbn in Hf; lia]. cbn. split; [done|by apply quiet_refl]. }
  destruct (skip_slashes p0) as [|c p] eqn:Hp; [cbn; split; [done|by apply quiet_refl]|].
  cbn [resolve_loop]. rewrite <- Hp in *. pose proof (skip_slashes_no_nul p0 Hnul) as Hnul'.
  destruct (take_token (skip_slashes p0) 0) as [[token rest]|] eqn:Ht.
  2: { apply (take_token_None _ _ []) in Ht as (c' & cs & -> & Hc'); [|done].
    wp_steps. split; [by apply quiet_refl|left]. cbn [walk].
    by rewrite (proj2 (Z.leb_le _ _) Hc'). }
  assert (Htok : token <> []) by (eapply take_token_nonempty; [exact Ht|congruence]).
  rewrite (components_aux_token _ _ _ _ [] Ht) by done. cbn [rev app walk].
  apply take_token_shape in Ht as [[Hshape Hlen]|[? _]]; [|done..]. rewrite Hshape in Hnul', Hf.
  apply Forall_app in Hnul' as [Hnt Hnr]. rewrite length_app in Hf.
  assert (0 < length token)%nat by (destruct token; [done|cbn; lia]).
  rewrite (proj2 (Z.leb_gt K64_XFS_NAME_MAX (Z.of_nat (length token)))) by lia.
  cbv zeta. wp_steps.
  eapply wp_mono; [apply xfs_dir_find_spec; [done..|split; [done|lia]]| |].
  2: { intros s1 [Q1 [->|He]]; (split; [done|]); [by left|by right]. }
  intros [[ent b] k] s1 [Hd Q1]. rewrite Hd. cbn [mbind option_bind]. wp_steps.
  pose proof (dir_lookup_id s i token ent b k F Hd) as Hid.
  pose proof Q1 as [F1 K1 S1 _]. pose proof (kp_super _ _ K1) as Hsb.
  eapply wp_mono; [apply read_inode_lookup; [done|by rewrite Hsb|done]| |]; rewrite Hsb, (inode_at_same s) by done.
  2: { intros s2 [Q2 [->|He]]; (split; [by eapply quiet_trans|]); [by left|right; by eapply io_error_quiet]. }
  intros j s2 [Hj Q2]. rewrite Hj. cbn [mbind option_bind].
  assert (Q : quiet s s2) by (by eapply quiet_trans). pose proof Q as [F2 K2 S2 _].
  pose proof (kp_super _ _ K2) as Hsb2. pose proof (T _ _ Hj) as Ej.
  eapply wp_mono; [apply (IH rest); rewrite ?Hsb2; try done|..].
  - intros id' i'. rewrite (inode_at_same s) by done. apply T.
  - pose proof (skip_slashes_length rest). lia.
  - rewrite Hsb2, (walk_same s) by done. intros r s3 [Hw Q3]. split; [done|by eapply quiet_trans].
  - rewrite Hsb2, (walk_same s) by done. intros s3 [Q3 He]. split; [by eapply quiet_trans|].
    destruct He; [by left|right; by eapply io_error_quiet].
Qed.

(** Path resolution refines walking the components of the path from the root
    inode, changes no block, and fails only when the walk does or the device
    fails. *)
Lemma xfs_resolve_spec s path : fs_ok s -> layout_ok (super (fs s)) ->
  tree_ok (fview s) (super (fs s)) -> 0 <= s_root_inode (super (fs s)) -> no_nul path ->
  wp (xfs_resolve dev (Some path))
    (fun r s' => resolve_path (fview s) (super (fs s)) path = Some r /\ quiet s s')
    (fun s' => quiet s s' /\
       (resolve_path (fview s) (super (fs s)) path = None \/ io_error s)) s.
Proof.
  intros F L T Hroot Hnul. unfold xfs_resolve, get_fs, resolve_path. apply wp_bind, wp_gets.
  rewrite (fo_mounted dev s F). cbn [andb]. destruct (nth 0 path 0 =? SLASH).
  2: { apply wp_bind, wp_fail. split; [by apply quiet_refl|by left]. }
  apply wp_bind, wp_ret, wp_bind.
  eapply wp_mono; [by apply read_inode_lookup| |].
  2: { intros s1 [Q1 [->|He]]; (split; [done|]); [by left|by right]. }
  intros i s1 [Hi Q1]. rewrite Hi. cbn [mbind option_bind].
  pose proof Q1 as [F1 K1 S1 _]. pose proof (kp_super _ _ K1) as Hsb. pose proof (T _ _ Hi) as Ei.
  eapply wp_mono; [apply resolve_loop_spec; rewrite ?Hsb; try done|..].
  - intros id' i'. rewrite (inode_at_same s) by done. apply T.
  - apply skip_slashes_length.
  - rewrite Hsb, (walk_same s) by done. intros r s3 [Hw Q3]. split; [done|by eapply quiet_trans].
  - rewrite Hsb, (walk_same s) by done. intros s3 [Q3 He]. split; [by eapply quiet_trans|].
    destruct He; [by left|right; by eapply io_error_quiet].
Qed.

(** C6: On a device that works, [xfs_resolve] returns exactly what walking
    the components of the path from the root inode gives, and false exactly
    when the walk fails; it changes no block. *)
Theorem xfs_resolve_refines_walk s path : fs_ok s -> layout_ok (super (fs s)) ->
  tree_ok (fview s) (super (fs s)) -> 0 <= s_root_inode (super (fs s)) -> no_nul path ->
  ~ io_error s ->
  match resolve_path (fview s) (super (fs s)) path with
  | Some r => exists s', xfs_resolve dev (Some path) s = Ret r s' /\ same_blocks s s'
  | None => exists s', xfs_resolve dev (Some path) s = Err s' /\ same_blocks s s'
  end.
Proof.
  intros F L T Hroot Hnul Hio. pose proof (xfs_resolve_spec s path F L T Hroot Hnul) as H.
  unfold wp in H. destruct (xfs_resolve dev (Some path) s) as [r s'|s'|]; [| |done].
  - destruct H as [-> Q]. exists s'. split; [done|apply Q].
  - destruct H as [Q [->|?]]; [|done]. exists s'. split; [done|apply Q].
Qed.
End dirs.
