(* ===== verification/XfsOps.v ===== *)
(** * K64XFS: the public operations ([k64_xfs.c], lines 559-1105)

    Format, mount, sync, unmount, and the file operations.  An out parameter is
    the value the computation returns; [Err] is the return of false. *)
From Stdlib Require Import ZArith Lia.
From stdpp Require Import base list.
From S2P Require Import Prelude Exec KString XfsFormat Block Cache Journal XfsCore XfsDir.

(** [k64_fs_stat_t] of [k64_fs.h] *)
Record k64_fs_stat_t := mk_stat {
  st_exists : bool;
  st_is_dir : bool;
  st_size : Z;
  st_mode : Z;
  st_uid : Z;
  st_gid : Z;
  st_created_tick : Z;
  st_modified_tick : Z;
  st_generation : Z;
  st_path : list Z
}.

Record k64_xfs_check_report_t := mk_report {
  r_ok : bool;
  r_errors : Z;
  r_used_inodes : Z;
  r_used_blocks : Z;
  r_free_blocks : Z;
  r_message : list Z
}.

(** [path && path[0] ? path : "/"] *)
Definition path_or_root (path : option (list Z)) : list Z :=
  match path with
  | Some (c :: p) => c :: p
  | _ => [SLASH]
  end.

(** The superblock [k64_xfs_format] writes, before its checksum. *)
Definition format_super (total_blocks : Z) (label : option (list Z)) : k64_xfs_superblock_disk_t :=
  let data_start := xfs_data_start in
  mk_super (char_array 8 K64_XFS_MAGIC) K64_XFS_VERSION_MAJOR K64_XFS_VERSION_MINOR
    K64_XFS_BLOCK_SIZE total_blocks (total_blocks - data_start - 1)
    XFS_INODE_TABLE_START xfs_inode_table_blocks XFS_BLOCK_BITMAP_BLOCK 1
    XFS_INODE_BITMAP_BLOCK 1 XFS_JOURNAL_START K64_XFS_JOURNAL_BLOCKS data_start 1
    K64_XFS_MOUNT_CLEAN 0 0 0
    (map (fun i => u8 (0x64 + Z.of_nat i + u8 total_blocks)) (seq 0 16))
    (char_array 32 (xfs_copy 32 (Some (match label with
                                       | Some (c :: l) => c :: l
                                       | _ => str "K64XFS"
                                       end))))
    1 0 (zeros 3784).

Definition format_root_inode (root_block : Z) : k64_xfs_inode_disk_t :=
  mk_inode K64_XFS_INODE_MAGIC 1 K64_XFS_TYPE_DIRECTORY 0x41ED 0 0 K64_XFS_BLOCK_SIZE 1 0
    1 1 1 1 1 0 (set_extent zero_extents 0 0 root_block 1) 0 0 (zeros 28).

Definition inode_with_owner (i : k64_xfs_inode_disk_t) (uid gid : Z) : k64_xfs_inode_disk_t :=
  mk_inode (i_magic i) (i_inode_id i) (i_type i) (i_mode i) uid gid (i_size i)
    (i_link_count i) (i_flags i) (i_created_tick i) (i_modified_tick i) (i_accessed_tick i)
    (i_generation i) (i_extent_count i) (i_reserved0 i) (i_direct_extents i)
    (i_indirect_extent_block i) (i_checksum i) (i_reserved1 i).
Definition inode_with_mode (i : k64_xfs_inode_disk_t) (mode : Z) : k64_xfs_inode_disk_t :=
  mk_inode (i_magic i) (i_inode_id i) (i_type i) mode (i_uid i) (i_gid i) (i_size i)
    (i_link_count i) (i_flags i) (i_created_tick i) (i_modified_tick i) (i_accessed_tick i)
    (i_generation i) (i_extent_count i) (i_reserved0 i) (i_direct_extents i)
    (i_indirect_extent_block i) (i_checksum i) (i_reserved1 i).

(** [memset(&inode, 0, sizeof(inode)); inode.inode_id = inode_id;] *)
Definition blank_inode (inode_id : Z) : k64_xfs_inode_disk_t :=
  mk_inode 0 inode_id 0 0 0 0 0 0 0 0 0 0 0 0 0 zero_extents 0 0 (zeros 28).

(** Block [b] of the data, padded with zeros. *)
Definition data_block (bytes : list Z) (b : Z) : list Z :=
  let off := (Z.to_nat b * BLOCK)%nat in
  let n := Nat.min (length bytes - off) BLOCK in
  splice (zeros BLOCK) 0 (slice bytes off n).

(** One entry printed by [k64_xfs_list_dir] onto the output [out], of which
    [out_size] bytes may be used; [None] is a read past the name. *)
Fixpoint list_name (name : list Z) (n : nat) (i : Z) (out_size : Z) (out : list Z) : option (list Z) :=
  match n with
  | O => Some out
  | S n =>
      if out_size <=? Z.of_nat (length out) + 2 then Some out
      else c ← getZ name i; list_name name n (i + 1) out_size (out ++ [c])
  end.

Definition list_entry (d : k64_xfs_dirent_disk_t) (out_size : Z) (out : list Z) : option (list Z) :=
  if d_inode_id d =? 0 then Some out
  else
    out ← list_name (d_name d) (Z.to_nat (d_name_len d)) 0 out_size out;
    let out := if (d_type d =? K64_XFS_TYPE_DIRECTORY) && (Z.of_nat (length out) + 2 <? out_size)
               then out ++ [SLASH] else out in
    Some (if Z.of_nat (length out) + 1 <? out_size then out ++ [10] else out).

Fixpoint list_block (n : nat) (s : Z) (block : list Z) (out_size : Z) (out : list Z)
    : option (list Z) :=
  match n with
  | O => Some out
  | S n => out ← list_entry (dirent_at block s) out_size out; list_block n (s + 1) block out_size out
  end.

Section ops.
Context {W : Type} (dev : k64_block_device_t W).
Abbreviation st := (xstate W).

(** Runs with the mount of the state as the function's own local [fs]. *)
Definition k64_xfs_format (label : option (list Z)) : M st unit :=
  check (xfs_dev_ok dev) ;;
  let total_blocks := xfs_fs_blocks dev in
  let data_start := xfs_data_start in
  check (negb (total_blocks <=? data_start + 1) && negb (UINT32_MAX <? total_blocks)) ;;
  modify (set_zero (zeros BLOCK)) ;;
  modify (set_fs (with_mounted true zero_mount)) ;;
  for_loop (Z.to_nat (data_start + 1)) 0
    (fun b => z ← gets (fun s : st => xfs_zero_block s); xfs_block_write dev b z) ;;
  let sb := format_super total_blocks label in
  let sb := super_with_checksum sb (k64_xfs_super_checksum sb) in
  modify (upd_super (fun _ => sb)) ;;
  modify (set_tmp (zeros BLOCK)) ;;
  bitmap_set_tmp 0 true ;;
  tmp ← get_tmp;
  xfs_block_write dev (s_inode_bitmap_start sb) tmp ;;
  modify (set_tmp (zeros BLOCK)) ;;
  for_loop (Z.to_nat (data_start + 1)) 0 (fun b => bitmap_set_tmp (u32 b) true) ;;
  tmp ← get_tmp;
  xfs_block_write dev (s_block_bitmap_start sb) tmp ;;
  xfs_write_inode dev (format_root_inode data_start) ;;
  modify (set_tmp (zeros BLOCK)) ;;
  tmp ← get_tmp;
  xfs_block_write dev data_start tmp ;;
  xfs_write_super dev ;;
  zoom to_cache of_cache (k64_xfs_cache_flush dev).

Definition k64_xfs_mount : M st unit :=
  check (negb (block_size dev =? 0) && (K64_XFS_BLOCK_SIZE mod block_size dev =? 0)) ;;
  modify (set_fs zero_mount) ;;
  xfs_block_read_tmp dev 0 ;;
  tmp ← get_tmp;
  let sb := dec_super (take sizeof_super tmp) in
  cmp ← deref (k64_strncmp (s_magic sb) (cstr K64_XFS_MAGIC) K64_XFS_MAGIC_SIZE);
  check ((cmp =? 0) && (s_version_major sb =? K64_XFS_VERSION_MAJOR) &&
         (s_block_size sb =? K64_XFS_BLOCK_SIZE) &&
         negb (xfs_fs_blocks dev <? s_total_blocks sb) &&
         negb (s_total_blocks sb <=? s_data_start sb) &&
         (s_checksum sb =? k64_xfs_super_checksum sb)) ;;
  modify (upd_super (fun _ => sb)) ;;
  modify (fun s => set_fs (with_mounted true (fs s)) s) ;;
  modify (fun s => set_fs (with_path (xfs_copy 16 (Some (str "/x"))) (fs s)) s) ;;
  (if (s_mount_state sb =? K64_XFS_MOUNT_DIRTY) || (s_mount_state sb =? K64_XFS_MOUNT_NEEDS_RECOVERY)
   then k64_xfs_journal_recover dev else mret tt) ;;
  modify (upd_super (fun sb => super_with_mount_state sb K64_XFS_MOUNT_DIRTY)) ;;
  xfs_write_super dev ;;
  zoom to_cache of_cache (k64_xfs_cache_flush dev).

Definition k64_xfs_sync : M st unit :=
  m ← get_fs;
  check (mounted m) ;;
  modify (upd_super (fun sb => super_with_mount_state sb K64_XFS_MOUNT_CLEAN)) ;;
  xfs_write_super dev ;;
  zoom to_cache of_cache (k64_xfs_cache_flush dev).

Definition k64_xfs_unmount : M st unit :=
  k64_xfs_sync ;;
  modify (fun s => set_fs (with_mounted false (fs s)) s).

Definition k64_xfs_stat (path : option (list Z)) : M st k64_fs_stat_t :=
  '(_, inode) ← xfs_resolve dev (Some (path_or_root path));
  mret (mk_stat true (i_type inode =? K64_XFS_TYPE_DIRECTORY) (i_size inode) (i_mode inode)
          (i_uid inode) (i_gid inode) (i_created_tick inode) (i_modified_tick inode)
          (i_generation inode) (xfs_copy 256 (Some (path_or_root path)))).

(** The blocks [b], [b+1], ..., [n] of them, of [dir] listed onto [out]. *)
Fixpoint list_blocks (dir : k64_xfs_inode_disk_t) (n : nat) (b : Z) (out_size : Z) (out : list Z)
    : M st (list Z) :=
  match n with
  | O => mret out
  | S n =>
      read_dir_block dev dir b ;;
      tmp ← get_tmp;
      out ← deref (list_block (Z.to_nat XFS_DIRENT_PER_BLOCK) 0 tmp out_size out);
      list_blocks dir n (b + 1) out_size out
  end.

(** The string left in [out]. *)
Definition k64_xfs_list_dir (path : option (list Z)) (out_size : Z) : M st (list Z) :=
  check (0 <? out_size) ;;
  '(_, dir) ← xfs_resolve dev (Some (path_or_root path));
  check (i_type dir =? K64_XFS_TYPE_DIRECTORY) ;;
  list_blocks dir (Z.to_nat (blocks_of (i_size dir))) 0 out_size [].

Definition k64_xfs_mkdir (path : option (list Z)) (mode uid gid : Z) : M st unit :=
  k64_xfs_journal_begin ;;
  xfs_create_at dev path K64_XFS_TYPE_DIRECTORY (if mode =? 0 then 0x1ED else mode) uid gid ;;
  k64_xfs_journal_commit dev ;;
  xfs_write_super dev.

Definition k64_xfs_create (path : option (list Z)) (mode uid gid : Z) : M st unit :=
  k64_xfs_journal_begin ;;
  xfs_create_at dev path K64_XFS_TYPE_REGULAR (if mode =? 0 then 0x1A4 else mode) uid gid ;;
  k64_xfs_journal_commit dev ;;
  xfs_write_super dev.

Fixpoint free_extents (l : list k64_xfs_extent_disk_t) : M st unit :=
  match l with
  | [] => mret tt
  | ex :: l =>
      (if e_block_count ex =? 0 then mret tt
       else xfs_free_extent dev (e_physical_block ex) (e_block_count ex)) ;;
      free_extents l
  end.

(** The new value of [*inode]. *)
Definition xfs_free_file_extents (inode : k64_xfs_inode_disk_t) : M st k64_xfs_inode_disk_t :=
  free_extents (live_extents inode) ;;
  mret (inode_with_extents inode 0 0 zero_extents).

(** The block [start + b] of the file's only extent written. *)
Definition write_data_block (bytes : list Z) (start b : Z) : M st unit :=
  modify (set_tmp (data_block bytes b)) ;;
  tmp ← get_tmp;
  xfs_block_write dev (u64 (start + b)) tmp.

(** The data written to a new extent of [inode], which has none. *)
Definition write_new_extent (inode : k64_xfs_inode_disk_t) (bytes : list Z) (blocks : Z)
    : M st k64_xfs_inode_disk_t :=
  if 0 <? blocks then
    start ← xfs_alloc_extent dev blocks;
    let inode := inode_with_extents inode (i_size inode) 1
                   (set_extent (i_direct_extents inode) 0 0 start blocks) in
    for_loop (Z.to_nat blocks) 0 (write_data_block bytes start) ;;
    mret inode
  else mret inode.

(** The inode of a file of [size] bytes that has been written. *)
Definition written_inode (inode : k64_xfs_inode_disk_t) (size uid gid generation : Z)
    : k64_xfs_inode_disk_t :=
  let inode := inode_with_extents inode size (i_extent_count inode) (i_direct_extents inode) in
  let inode := inode_with_owner inode uid gid in
  inode_with_modified inode (u64 (generation + 1)).

Definition k64_xfs_write_file (path : option (list Z)) (bytes : list Z) (uid gid : Z) : M st unit :=
  match path with
  | None => fail
  | Some _ =>
      let size := Z.of_nat (length bytes) in
      r ← try (xfs_resolve dev path);
      '(_, inode) ← match r with
                    | Some x => mret x
                    | None =>
                        k64_xfs_create path 0x1A4 uid gid ;;
                        xfs_resolve dev path
                    end;
      check (i_type inode =? K64_XFS_TYPE_REGULAR) ;;
      let blocks := blocks_of size in
      check (negb (UINT32_MAX <? blocks)) ;;
      k64_xfs_journal_begin ;;
      inode ← xfs_free_file_extents inode;
      inode ← write_new_extent inode bytes blocks;
      sb ← get_super;
      xfs_write_inode dev (written_inode inode size uid gid (s_generation sb)) ;;
      k64_xfs_journal_commit dev ;;
      xfs_write_super dev
  end.

(** The reading loop; [out] is what has been copied so far, [done] bytes.
    Each iteration ends at a block boundary or at the end, so [blocks + 1] is
    enough fuel; running out of it is marked as undefined behaviour. *)
Fixpoint read_loop (fuel : nat) (inode : k64_xfs_inode_disk_t) (blocks max : Z) (out : list Z)
    : M st (list Z) :=
  let done := Z.of_nat (length out) in
  if (done <? i_size inode) && (done <? max) then
    match fuel with
    | O => ub
    | S fuel =>
        let logical := done / K64_XFS_BLOCK_SIZE in
        let in_block := done mod K64_XFS_BLOCK_SIZE in
        check (negb (blocks <=? logical)) ;;
        blk ← xfs_inode_read_data_block dev inode logical;
        modify (set_tmp blk) ;;
        let n := K64_XFS_BLOCK_SIZE - in_block in
        let n := if i_size inode - done <? n then i_size inode - done else n in
        let n := if max - done <? n then max - done else n in
        tmp ← get_tmp;
        read_loop fuel inode blocks max (out ++ slice tmp (Z.to_nat in_block) (Z.to_nat n))
    end
  else mret out.

(** The bytes written to [out]; [*read_out] is their number. *)
Definition k64_xfs_read_file (path : option (list Z)) (max : Z) : M st (list Z) :=
  '(_, inode) ← xfs_resolve dev path;
  check (i_type inode =? K64_XFS_TYPE_REGULAR) ;;
  let blocks := blocks_of (i_size inode) in
  read_loop (S (Z.to_nat blocks)) inode blocks max [].

Definition k64_xfs_truncate (path : option (list Z)) (new_size : Z) : M st unit :=
  '(_, inode) ← xfs_resolve dev path;
  check (i_type inode =? K64_XFS_TYPE_REGULAR) ;;
  if new_size =? 0 then k64_xfs_write_file path [] (i_uid inode) (i_gid inode)
  else if new_size <=? i_size inode then
    check (negb (K64_XFS_BLOCK_SIZE <? new_size)) ;;
    buf ← k64_xfs_read_file path new_size;
    k64_xfs_write_file path buf (i_uid inode) (i_gid inode)
  else k64_xfs_write_file path [0] (i_uid inode) (i_gid inode).

Definition k64_xfs_remove (path : option (list Z)) : M st unit :=
  match xfs_split_parent path 256 K64_XFS_NAME_MAX with
  | None => fail
  | Some (parent_path, leaf) =>
      '(_, parent) ← xfs_resolve dev (Some parent_path);
      '(inode_id, inode) ← xfs_resolve dev path;
      check (i_type inode =? K64_XFS_TYPE_REGULAR) ;;
      k64_xfs_journal_begin ;;
      xfs_free_file_extents inode ;;
      xfs_free_inode dev inode_id ;;
      xfs_dir_remove dev parent leaf ;;
      _ ← try (xfs_write_inode dev (blank_inode inode_id));
      k64_xfs_journal_commit dev ;;
      xfs_write_super dev
  end.

(** No slot of the directory block in use. *)
Fixpoint slots_free (n : nat) (s : Z) (block : list Z) : bool :=
  match n with
  | O => true
  | S n => (d_inode_id (dirent_at block s) =? 0) && slots_free n (s + 1) block
  end.

Definition k64_xfs_rmdir (path : option (list Z)) : M st unit :=
  match xfs_split_parent path 256 K64_XFS_NAME_MAX with
  | None => fail
  | Some (parent_path, leaf) =>
      '(_, parent) ← xfs_resolve dev (Some parent_path);
      '(inode_id, inode) ← xfs_resolve dev path;
      check ((i_type inode =? K64_XFS_TYPE_DIRECTORY) && (i_size inode =? K64_XFS_BLOCK_SIZE)) ;;
      read_dir_block dev inode 0 ;;
      tmp ← get_tmp;
      check (slots_free (Z.to_nat XFS_DIRENT_PER_BLOCK) 0 tmp) ;;
      k64_xfs_journal_begin ;;
      xfs_free_file_extents inode ;;
      xfs_free_inode dev inode_id ;;
      xfs_dir_remove dev parent leaf ;;
      k64_xfs_journal_commit dev ;;
      xfs_write_super dev
  end.

Definition k64_xfs_rename (old_path new_path : option (list Z)) : M st unit :=
  match xfs_split_parent old_path 256 K64_XFS_NAME_MAX,
        xfs_split_parent new_path 256 K64_XFS_NAME_MAX with
  | Some (old_parent_path, old_leaf), Some (new_parent_path, new_leaf) =>
      '(_, old_parent) ← xfs_resolve dev (Some old_parent_path);
      '(_, new_parent) ← xfs_resolve dev (Some new_parent_path);
      '(inode_id, inode) ← xfs_resolve dev old_path;
      found ← try (xfs_dir_find dev new_parent new_leaf);
      check (absent found) ;;
      xfs_dir_add dev new_parent new_leaf inode_id (i_type inode) ;;
      xfs_dir_remove dev old_parent old_leaf ;;
      mret tt
  | _, _ => fail
  end.

Definition k64_xfs_chmod (path : option (list Z)) (mode : Z) : M st unit :=
  '(_, inode) ← xfs_resolve dev path;
  sb ← get_super;
  let inode := inode_with_mode inode (mode_bits (i_type inode) mode) in
  let inode := inode_with_modified inode (u64 (s_generation sb + 1)) in
  k64_xfs_journal_begin ;;
  xfs_write_inode dev inode ;;
  k64_xfs_journal_commit dev ;;
  xfs_write_super dev.

Definition k64_xfs_chown (path : option (list Z)) (uid gid : Z) : M st unit :=
  '(_, inode) ← xfs_resolve dev path;
  sb ← get_super;
  let inode := inode_with_owner inode uid gid in
  let inode := inode_with_modified inode (u64 (s_generation sb + 1)) in
  k64_xfs_journal_begin ;;
  xfs_write_inode dev inode ;;
  k64_xfs_journal_commit dev ;;
  xfs_write_super dev.
End ops.
