(* ===== verification/FileSpec.v ===== *)
(** * Reading and writing files of K64XFS

    The content of a file is the content of its logical blocks, cut to its
    size.  The reading loop returns a prefix of it and needs the fuel it is
    given; the writing loop lays the data out so that the content of the file is
    the data written; overwriting a file replaces its content and keeps every
    other inode. *)
From Stdlib Require Import ZArith Lia.
From stdpp Require Import base list.
From S2P Require Import Prelude Exec KString XfsFormat XfsCrc Block Cache CacheSpec Journal JournalSpec XfsCore XfsSpec AllocSpec XfsDir DirSpec XfsOps.

(** The blocks of a file of [size] bytes. *)
Lemma blocks_of_spec size : 0 <= size -> size + 4095 <= UINT64_MAX ->
  0 <= blocks_of size /\ size <= blocks_of size * 4096 < size + 4096.
Proof.
  intros. unfold UINT64_MAX in *. unfold blocks_of, K64_XFS_BLOCK_SIZE. rewrite u64_small by lia. dmlia.
Qed.

Definition all_blocks (f : Z -> list Z) (i : k64_xfs_inode_disk_t) (n : nat) : list Z :=
  concat (map (fun k => logical_block f i (Z.of_nat k)) (seq 0 n)).

(** The content of a file. *)
Definition content (f : Z -> list Z) (i : k64_xfs_inode_disk_t) : list Z :=
  take (Z.to_nat (i_size i)) (all_blocks f i (Z.to_nat (blocks_of (i_size i)))).

Lemma all_blocks_length f i n : (forall b, length (logical_block f i b) = BLOCK) ->
  length (all_blocks f i n) = (n * BLOCK)%nat.
Proof.
  intros H. unfold all_blocks. rewrite (concat_map_length _ BLOCK); [by rewrite length_seq|]. auto.
Qed.

Lemma all_blocks_add f i q m :
  all_blocks f i (q + m) = all_blocks f i q ++
    concat (map (fun k => logical_block f i (Z.of_nat k)) (seq q m)).
Proof. unfold all_blocks. by rewrite seq_app, map_app, concat_app. Qed.

(** One more block of a prefix of the file. *)
Lemma take_next_block f i n q k : (forall b, length (logical_block f i b) = BLOCK) ->
  (q < n)%nat -> (k <= BLOCK)%nat ->
  take (q * BLOCK + k) (all_blocks f i n) =
  take (q * BLOCK) (all_blocks f i n) ++ take k (logical_block f i (Z.of_nat q)).
Proof.
  intros Hl Hq Hk. replace n with (q + S (n - q - 1))%nat by lia. rewrite all_blocks_add.
  pose proof (all_blocks_length f i q Hl) as Hlen. cbn [seq map concat].
  rewrite (take_app_length' (all_blocks f i q) _ (q * BLOCK)) by done.
  rewrite take_app. rewrite Hlen. rewrite take_ge by (rewrite Hlen; lia).
  replace (q * BLOCK + k - q * BLOCK)%nat with k by lia. f_equal.
  apply take_app_le. by rewrite Hl.
Qed.

(** ** Laying data out in blocks *)
Lemma data_block_slice bytes n k : (k < n)%nat -> (length bytes <= n * BLOCK)%nat ->
  data_block bytes (Z.of_nat k) = slice (bytes ++ zeros (n * BLOCK)) (k * BLOCK) BLOCK.
Proof.
  intros Hk Hl. unfold data_block. rewrite Nat2Z.id. cbv zeta. unfold splice, slice.
  rewrite take_0, app_nil_l, Nat.add_0_l, drop_zeros, drop_app.
  assert ((k * BLOCK + BLOCK <= n * BLOCK)%nat) by (unfold BLOCK, K64_XFS_BLOCK_SIZE; lia).
  rewrite take_app, length_take, length_drop, drop_zeros, take_zeros. f_equal.
  - destruct (decide (length bytes - k * BLOCK <= BLOCK)%nat).
    + rewrite Nat.min_l by lia. rewrite !take_ge by (rewrite length_drop; lia). done.
    + rewrite Nat.min_r by lia. done.
  - f_equal. lia.
Qed.

Lemma concat_data_blocks bytes n : (length bytes <= n * BLOCK)%nat ->
  concat (map (fun k => data_block bytes (Z.of_nat k)) (seq 0 n)) =
  bytes ++ zeros (n * BLOCK - length bytes).
Proof.
  intros Hl. set (l := bytes ++ zeros (n * BLOCK - length bytes)).
  rewrite <- (concat_slices l BLOCK n).
  - f_equal. apply map_ext_in. intros k [_ Hk]%in_seq. rewrite (data_block_slice _ n) by lia.
    unfold slice, l. rewrite !drop_app, !drop_zeros, !take_app, !take_zeros, !length_drop. f_equal. f_equal.
    assert ((k * BLOCK + BLOCK <= n * BLOCK)%nat) by (unfold BLOCK, K64_XFS_BLOCK_SIZE; lia). lia.
  - unfold l. rewrite length_app, zeros_length. lia.
Qed.

Lemma data_block_ok bytes b : bytes_ok bytes -> block_ok (data_block bytes b).
Proof.
  intros Hb. unfold data_block. cbv zeta. split.
  - rewrite splice_length; rewrite zeros_length; [done|]. unfold slice. rewrite length_take. lia.
  - apply bytes_ok_splice; [apply zeros_bytes_ok|by apply bytes_ok_slice].
Qed.

(** A file of one extent whose blocks hold [bytes] has the content [bytes]. *)
Lemma content_one_extent f i bytes start : Z.of_nat (length bytes) + 4095 <= UINT64_MAX ->
  i_size i = Z.of_nat (length bytes) ->
  live_extents i = [mk_extent 0 start (blocks_of (i_size i)) 0 0] ->
  0 <= start -> start + blocks_of (i_size i) <= UINT64_MAX ->
  (forall b, 0 <= b < blocks_of (i_size i) -> f (start + b) = data_block bytes b) ->
  content f i = bytes.
Proof.
  intros Hl Hs He Hst Hend Hf. unfold UINT64_MAX in *.
  destruct (blocks_of_spec (i_size i)) as [Hb0 Hb]; [lia|unfold UINT64_MAX; lia|].
  unfold content, all_blocks. set (n := Z.to_nat (blocks_of (i_size i))).
  rewrite (map_ext_in _ (fun k => data_block bytes (Z.of_nat k))).
  - rewrite concat_data_blocks.
    + rewrite take_app_le by lia. apply take_ge. lia.
    + unfold n. assert (HB : BLOCK = 4096%nat) by done. rewrite HB. lia.
  - intros k [_ Hk]%in_seq. unfold logical_block. rewrite He. cbn [extent_lookup e_logical_block e_block_count e_physical_block].
    rewrite Z.add_0_l, (u64_small (blocks_of _)) by lia.
    destruct (Z.leb_spec 0 (Z.of_nat k)), (Z.ltb_spec (Z.of_nat k) (blocks_of (i_size i))); cbn [andb]; try lia.
    rewrite Z.sub_0_r, u64_small by lia. apply Hf. lia.
Qed.

Section files.
Context {W : Type} (dev : k64_block_device_t W) `{!BlockDriver dev} (D : device_ok dev).
Abbreviation st := (xstate W).
Abbreviation fview := (fview dev).
Abbreviation fs_ok := (fs_ok dev).
Abbreviation same_blocks := (same_blocks dev).
Abbreviation quiet := (quiet dev).
Abbreviation io_error := (io_error dev).
Implicit Types s : st.

Lemma all_blocks_same s s' i n : same_blocks s s' -> layout_ok (super (fs s)) ->
  extents_in_data (super (fs s)) i -> all_blocks (fview s') i n = all_blocks (fview s) i n.
Proof.
  intros S L E. unfold all_blocks. f_equal. apply map_ext. intros k.
  by apply (logical_block_same dev s s').
Qed.

(** The reading loop: from [q] whole blocks copied to all that is asked for. *)
Lemma read_loop_spec fuel i max q s : fs_ok s -> layout_ok (super (fs s)) ->
  extents_in_data (super (fs s)) i -> 0 <= i_size i -> i_size i + 4095 <= UINT64_MAX -> 0 <= max ->
  let n := Z.to_nat (blocks_of (i_size i)) in
  let want := Z.to_nat (Z.min (i_size i) max) in
  (n <= fuel + q)%nat ->
  wp (read_loop dev fuel i (blocks_of (i_size i)) max
        (take (Nat.min (q * BLOCK) want) (all_blocks (fview s) i n)))
    (fun out s' => out = take want (all_blocks (fview s) i n) /\ quiet s s')
    (fun s' => quiet s s' /\ io_error s) s.
Proof.
  intros F L E Hs Hs' Hm n want. destruct (blocks_of_spec (i_size i) Hs Hs') as [Hb0 Hb].
  assert (Hlen : forall s, fs_ok s -> forall b, length (logical_block (fview s) i b) = BLOCK).
  { intros s' F' b. by apply logical_block_length. }
  assert (HB : BLOCK = 4096%nat) by done.
  revert q s F L E. induction fuel as [|fuel IH]; intros q s F L E Hq.
  - cbn [read_loop]. rewrite length_take, (all_blocks_length _ _ _ (Hlen s F)).
    assert (want <= q * BLOCK)%nat by (unfold want, n in *; lia).
    rewrite (Nat.min_r (q * BLOCK) want) by lia.
    destruct (Z.ltb_spec (Z.of_nat (want `min` (n * BLOCK))) (i_size i)),
      (Z.ltb_spec (Z.of_nat (want `min` (n * BLOCK))) max); cbn [andb];
      try (split; [done|by apply quiet_refl]). unfold want, n in *. lia.
  - cbn [read_loop]. rewrite length_take, (all_blocks_length _ _ _ (Hlen s F)).
    destruct (decide (want <= q * BLOCK)%nat) as [Hdone|Hmore].
    { rewrite (Nat.min_r (q * BLOCK) want) by lia.
      destruct (Z.ltb_spec (Z.of_nat (want `min` (n * BLOCK))) (i_size i)),
        (Z.ltb_spec (Z.of_nat (want `min` (n * BLOCK))) max); cbn [andb];
        try (split; [done|by apply quiet_refl]). unfold want, n in *. lia. }
    rewrite (Nat.min_l (q * BLOCK) want) by lia. assert (Hqn : (q < n)%nat) by (unfold want, n in *; lia).
    rewrite (Nat.min_l (q * BLOCK) (n * BLOCK)) by (apply Nat.mul_le_mono_r; lia). rewrite HB in *.
    assert (Hdone : Z.of_nat (q * 4096) = Z.of_nat q * 4096) by lia. rewrite Hdone.
    rewrite (proj2 (Z.ltb_lt _ (i_size i))), (proj2 (Z.ltb_lt _ max)) by (unfold want in *; lia). cbn [andb].
    unfold K64_XFS_BLOCK_SIZE. rewrite Z.div_mul, Z.mod_mul by lia. cbv zeta.
    rewrite (proj2 (Z.leb_gt _ (Z.of_nat q))) by (unfold n in *; lia).
    apply wp_bind, wp_ret, wp_bind.
    eapply wp_mono; [by apply xfs_inode_read_data_block_spec| |done].
    intros blk s1 [-> Q1]. unfold get_tmp. wp_steps.
    set (s1' := set_tmp _ s1). assert (Q1' : quiet s s1') by (apply quiet_tmp; [done|by apply logical_block_ok]).
    pose proof Q1' as [F1 K1 S1 _]. pose proof (kp_super _ _ K1) as Hsb.
    match goal with |- context [Z.to_nat (if ?b then ?x else ?y)] => set (k := Z.to_nat (if b then x else y)) end.
    assert (Hk : (q * 4096 + k)%nat = Nat.min (S q * 4096) want).
    { unfold k, want. destruct (Z.ltb_spec (i_size i - Z.of_nat q * 4096) (4096 - 0)),
        (Z.ltb_spec (max - Z.of_nat q * 4096) (i_size i - Z.of_nat q * 4096)),
        (Z.ltb_spec (max - Z.of_nat q * 4096) (4096 - 0)); lia. }
    unfold slice. cbn [Z.to_nat]. rewrite drop_0. cbn [s1' xfs_tmp_block set_tmp].
    rewrite <- HB in *.
    rewrite <- (take_next_block _ _ _ _ _ (Hlen s F) Hqn) by lia. rewrite Hk.
    rewrite <- (all_blocks_same s s1') by done.
    eapply wp_mono; [apply (IH (S q)); rewrite ?Hsb; [done..|lia]| |].
    + intros out s2 [-> Q2]. split; [|by eapply quiet_trans]. done.
    + intros s2 [Q2 He]. split; [by eapply quiet_trans|by eapply io_error_quiet].
Qed.

Definition in_run (x n b : Z) : Prop := x <= b < x + n.

(** Writing the data: each block of the run gets its piece, no other block
    changes. *)
Lemma write_loop_spec bytes x n s : fs_ok s -> layout_ok (super (fs s)) -> bytes_ok bytes ->
  s_data_start (super (fs s)) <= x -> 0 <= n -> x + n <= s_total_blocks (super (fs s)) ->
  wp (for_loop (Z.to_nat n) 0 (write_data_block dev bytes x))
    (fun _ s' => fs_ok s' /\ keeps s s' /\ journal_records (fs s') = journal_records (fs s) /\
       (forall b, 0 <= b < n -> fview s' (x + b) = data_block bytes b) /\
       (forall b, home s b -> ~ in_run x n b -> fview s' b = fview s b))
    (fun s' => fs_ok s' /\ keeps s s' /\
       (forall b, home s b -> ~ in_run x n b -> fview s' b = fview s b) /\ io_error s) s.
Proof.
  intros F L Hb Hx Hn Hend.
  assert (0 <= x /\ x + n < 18446744073709551616).
  { destruct L. change xfs_inode_table_blocks with 47 in *. unfold K64_XFS_BLOCK_SIZE in *. lia. }
  assert (Hnj : forall k s1, 0 <= k -> keeps s s1 -> journaled (fs s1) (x + k) = false).
  { intros k s1 Hk K. unfold journaled. rewrite (kp_super _ _ K).
    destruct (Z.ltb_spec (x + k) (s_data_start (super (fs s)))); [lia|]. by rewrite andb_false_r. }
  apply (wp_for_loop (fun k s' => fs_ok s' /\ keeps s s' /\
    journal_records (fs s') = journal_records (fs s) /\
    (forall b, 0 <= b < k -> fview s' (x + b) = data_block bytes b) /\
    (forall b, home s b -> ~ in_run x n b -> fview s' b = fview s b))).
  - split_and!; [done|done|done|lia|done].
  - intros k s1 Hk (F1 & K1 & R1 & V1 & V1'). unfold write_data_block, get_tmp. wp_steps.
    cbn [xfs_tmp_block set_tmp]. rewrite u64_small by lia.
    set (s1' := set_tmp _ s1). assert (K1' : keeps s s1') by (by destruct K1).
    assert (Hhome : home s (x + k)) by (apply data_home; [done|lia]).
    eapply wp_mono; [apply (xfs_block_write_spec dev D s1'); [by apply fs_ok_tmp, data_block_ok| |by apply (keeps_home s)|by apply data_block_ok]| |].
    + apply layout_inside. by rewrite (kp_super _ _ K1').
    + intros [] s2 (F2 & K2 & R2 & _ & V2 & V2'). split_and!; [done|by etrans| | |].
      * rewrite R2, (Hnj k s1') by (try done; lia). rewrite Z.add_0_r. exact R1.
      * intros b Hb'. destruct (decide (b = k)) as [->|Hne]; [done|].
        rewrite V2'; [apply V1; lia| |lia]. apply (keeps_home s); [done|]. apply data_home; [done|lia].
      * intros b Hb' Hnr. rewrite V2'; [by apply V1'|by apply (keeps_home s)|].
        intros ->. apply Hnr. unfold in_run. lia.
    + intros s2 (F2 & K2 & S2 & He). split_and!; [done|by etrans| |].
      * intros b Hb' Hnr. rewrite S2; [by apply V1'|by apply (keeps_home s)].
      * destruct He as [He|[Hj _]].
        -- unfold io_error in *. by rewrite (kp_super _ _ K1') in He.
        -- rewrite (Hnj k s1') in Hj by (try done; lia). done.
  - intros s1 (F1 & K1 & R1 & V1 & V1'). rewrite Z.add_0_l, Z2Nat.id in V1 by lia. by split_and!.
Qed.

(** ** Steps of a file operation *)

(** The two superblocks describe the same layout. *)
Record same_layout (sb sb' : k64_xfs_superblock_disk_t) : Prop := {
  sl_total : s_total_blocks sb' = s_total_blocks sb;
  sl_data : s_data_start sb' = s_data_start sb;
  sl_table : s_inode_table_start sb' = s_inode_table_start sb;
  sl_ibm : s_inode_bitmap_start sb' = s_inode_bitmap_start sb;
  sl_bbm : s_block_bitmap_start sb' = s_block_bitmap_start sb;
  sl_js : s_journal_start sb' = s_journal_start sb;
  sl_jn : s_journal_blocks sb' = s_journal_blocks sb;
  sl_root : s_root_inode sb' = s_root_inode sb
}.

#[local] Instance same_layout_preorder : PreOrder same_layout.
Proof. split; [by split|]. intros ? ? ? [] []. split; congruence. Qed.

Lemma same_layout_ok sb sb' : same_layout sb sb' -> layout_ok sb -> layout_ok sb'.
Proof. intros [] []. split; congruence. Qed.

Lemma same_layout_home s s' b : same_layout (super (fs s)) (super (fs s')) -> home s b <-> home s' b.
Proof. intros [H1 _ _ _ _ H6 H7 _]. unfold home, in_journal. by rewrite H1, H6, H7. Qed.

Lemma same_layout_inode sb sb' id : same_layout sb sb' -> inode_block sb' id = inode_block sb id.
Proof. intros []. unfold inode_block. congruence. Qed.

(** A step that keeps the layout and every block outside [P]. *)
Record step (P : Z -> Prop) s s' : Prop := {
  st_ok : fs_ok s';
  st_layout : same_layout (super (fs s)) (super (fs s'));
  st_frame : forall b, home s b -> ~ P b -> fview s' b = fview s b
}.

Lemma step_trans (P Q : Z -> Prop) s1 s2 s3 : step P s1 s2 -> step Q s2 s3 ->
  step (fun b => P b \/ Q b) s1 s3.
Proof.
  intros [F1 L1 V1] [F2 L2 V2]. split; [done|by etrans|]. intros b Hb Hn.
  rewrite V2; [apply V1; tauto| |tauto]. by apply (same_layout_home s1).
Qed.

Lemma step_mono (P Q : Z -> Prop) s s' : (forall b, P b -> Q b) -> step P s s' -> step Q s s'.
Proof. intros H [F L V]. split; [done|done|]. intros b Hb Hn. apply V; auto. Qed.

Lemma quiet_step P s s' : quiet s s' -> step P s s'.
Proof.
  intros [F K S _]. split; [done| |]; [by rewrite (kp_super _ _ K)|].
  intros b Hb _. by apply S.
Qed.

Lemma io_error_layout s s' : same_layout (super (fs s)) (super (fs s')) -> io_error s' -> io_error s.
Proof. intros [H _ _ _ _ _ _ _]. unfold XfsSpec.io_error. by rewrite H. Qed.

Lemma begin_step s : fs_ok s -> journal_active (fs s) = false ->
  wp (k64_xfs_journal_begin (W:=W))
    (fun _ s' => step (fun _ => False) s s' /\ journal_active (fs s') = true /\
       journal_records (fs s') = 0 /\
       super (fs s') = super_with_mount_state (super (fs s)) K64_XFS_MOUNT_DIRTY)
    (fun _ => False) s.
Proof.
  intros [Hm C Hrg Hj [? ? ? ?] Ht Hr] Ha. unfold k64_xfs_journal_begin, get_fs.
  apply wp_bind, wp_gets. rewrite Hm, Ha. apply wp_bind, wp_ret. wp_steps.
  split_and!; [|done..]. split; [|done|done]. split; try done. cbn. lia.
Qed.

Lemma commit_step s : fs_ok s -> journal_active (fs s) = true -> journal_inside s -> ~ io_error s ->
  ~ journal_full s ->
  wp (k64_xfs_journal_commit dev)
    (fun _ s' => step (fun _ => False) s s' /\ journal_active (fs s') = false /\
       super (fs s') = super_with_generation (super (fs s)) (u64 (s_generation (super (fs s)) + 1)))
    (fun _ => False) s.
Proof.
  intros F Ha J Hio Hfull. pose proof F as [Hm C Hrg Hj [A1 A2 A3 A4] Ht Hr].
  unfold k64_xfs_journal_commit, get_fs, get_header. unfold UINT32_MAX, UINT64_MAX, journal_full, journal_inside in *.
  apply wp_bind, wp_gets. rewrite Hm, Ha. cbn [negb]. apply wp_bind, wp_ret.
  set (sb := super (fs s)) in *. set (h := s_journal_start sb + journal_records (fs s) * 2).
  rewrite (u64_small h), (u64_small (s_journal_start sb + s_journal_blocks sb)) by lia.
  rewrite (proj2 (Z.leb_gt (s_journal_start sb + s_journal_blocks sb) h)) by lia. apply wp_bind, wp_ret.
  wp_steps. eapply wp_mono; [apply (journal_block_write_spec dev D); [lia|apply header_image_ok]| |].
  2: { intros ? (w1 & -> & Hc1 & Hf). apply Hio. exists h. split; [fold sb; lia|by right]. }
  intros [] ? (w1 & -> & _ & Hc1). wp_steps. split_and!; [|done..].
  destruct (journal_write_ok dev s (set_hw w1 s)) as [F' S']; [done| |done..|].
  { eapply changed_only_mono, Hc1. intros ? <-. split; fold sb; lia. }
  split; [|done|by intros b Hb _; apply S'].
  destruct F' as [? ? ? ? [? ? ? ?] ? ?]. split; try done. cbn. fold sb. lia.
Qed.

Lemma super_sealed_ok sb : super_ok sb ->
  super_ok (super_with_checksum sb (k64_xfs_super_checksum sb)).
Proof. intros []. constructor; try assumption. apply k64_xfs_crc32_range. Qed.

(** Writing the superblock of a mount with no open transaction. *)
Lemma write_super_step s : fs_ok s -> layout_ok (super (fs s)) -> super_ok (super (fs s)) ->
  journal_active (fs s) = false -> ~ io_error s ->
  wp (xfs_write_super dev)
    (fun _ s' => step (eq 0) s s' /\ journal_active (fs s') = false /\ super (fs s') = super (fs s) /\
       take sizeof_super (fview s' 0) =
         enc_super (super_with_checksum (super (fs s)) (k64_xfs_super_checksum (super (fs s)))))
    (fun _ => False) s.
Proof.
  intros F L So Ha Hio. unfold xfs_write_super, get_super, get_tmp. wp_steps. cbn [xfs_tmp_block set_tmp].
  set (sb := super_with_checksum _ _). assert (So' : super_ok sb) by (by apply super_sealed_ok).
  pose proof (enc_super_length sb So') as Hl. destruct (fo_tmp dev s F) as [Htl Htb].
  assert (Hok : block_ok (splice (xfs_tmp_block s) 0 (enc_super sb))).
  { split; [|apply bytes_ok_splice; [done|by apply enc_super_bytes]].
    rewrite splice_length; [done|]. rewrite Hl, Htl. unfold sizeof_super, BLOCK, K64_XFS_BLOCK_SIZE. lia. }
  set (s1 := set_tmp _ s). assert (F1 : fs_ok s1) by (by apply fs_ok_tmp).
  eapply wp_mono; [apply (xfs_block_write_spec dev D s1); [done|by apply (layout_inside s)| |done]| |].
  - apply (layout_home s); [done|]. destruct L. left. lia.
  - intros [] s2 (F2 & K2 & _ & _ & V2 & V2'). split_and!.
    + split; [done|by rewrite (kp_super _ _ K2)|]. intros b Hb Hne. by apply V2'.
    + rewrite (kp_active _ _ K2). exact Ha.
    + by rewrite (kp_super _ _ K2).
    + rewrite V2. unfold splice. rewrite take_0, app_nil_l. by apply take_app_length'.
  - intros s2 (_ & _ & _ & [He|[Hj _]]); [by apply Hio|]. unfold journaled in Hj. cbn in Hj.
    by rewrite Ha in Hj.
Qed.

(** Extents that lie in the data area. *)
Definition extent_in_data (sb : k64_xfs_superblock_disk_t) (ex : k64_xfs_extent_disk_t) : Prop :=
  0 <= e_block_count ex /\
  (e_block_count ex = 0 \/
   s_data_start sb <= e_physical_block ex /\
   e_physical_block ex + e_block_count ex <= s_total_blocks sb).

Definition covers (l : list k64_xfs_extent_disk_t) (j : Z) : Prop :=
  exists ex, ex ∈ l /\ in_run (e_physical_block ex) (e_block_count ex) j.

(** [bm'] is [bm] with the bits of the extents cleared. *)
Definition freed (l : list k64_xfs_extent_disk_t) (bm bm' : list Z) : Prop :=
  forall j, 0 <= j -> (covers l j -> is_free bm' j) /\
                      (~ covers l j -> xfs_bitmap_get bm' j = xfs_bitmap_get bm j).

Lemma freed_nil bm : freed [] bm bm.
Proof. intros j _. split; [|done]. intros (ex & Hex & _). by apply not_elem_of_nil in Hex. Qed.

Lemma freed_skip ex l bm bm' : e_block_count ex = 0 -> freed l bm bm' -> freed (ex :: l) bm bm'.
Proof.
  intros H0 H j Hj. destruct (H j Hj) as [H1 H2]. split.
  - intros (e & [->|He]%elem_of_cons & Hr); [unfold in_run in Hr; lia|]. apply H1. by exists e.
  - intros Hn. apply H2. intros (e & He & Hr). apply Hn. exists e. split; [by right|done].
Qed.

Lemma covers_dec l j : covers l j \/ ~ covers l j.
Proof.
  induction l as [|ex l IH].
  - right. intros (ex & Hex & _). by apply not_elem_of_nil in Hex.
  - destruct (decide (e_physical_block ex <= j < e_physical_block ex + e_block_count ex)).
    { left. exists ex. split; [by left|done]. }
    destruct IH as [(e & He & Hr)|IH]; [left; exists e; split; [by right|done]|right].
    intros (e & [->|He]%elem_of_cons & Hr); [done|]. apply IH. by exists e.
Qed.

Lemma freed_cons ex l bm bm1 bm' :
  bits_set bm (e_physical_block ex) (e_block_count ex) false bm1 -> freed l bm1 bm' ->
  freed (ex :: l) bm bm'.
Proof.
  intros (_ & _ & Hb) H j Hj. destruct (H j Hj) as [H1 H2]. specialize (Hb j Hj).
  assert (Hin : in_run (e_physical_block ex) (e_block_count ex) j <->
    (e_physical_block ex <=? j) && (j <? e_physical_block ex + e_block_count ex) = true).
  { unfold in_run. rewrite andb_true_iff. lia. }
  split.
  - intros Hc. destruct (covers_dec l j) as [Hl|Hl]; [by apply H1|]. unfold is_free. rewrite H2, Hb by done.
    destruct Hc as (e & [->|He]%elem_of_cons & Hr); [|destruct Hl; by exists e].
    apply Hin in Hr. by rewrite Hr.
  - intros Hn. rewrite H2, Hb.
    + destruct (_ && _) eqn:Hc; [|done]. destruct Hn. exists ex. split; [by left|by apply Hin].
    + intros (e & He & Hr). apply Hn. exists e. split; [by right|done].
Qed.

(** The blocks of the data area that [bm] marks as used. *)
Definition data_used (sb : k64_xfs_superblock_disk_t) (bm : list Z) : Z :=
  used_count bm (s_data_start sb) (Z.to_nat (s_total_blocks sb - s_data_start sb)).

(** Clearing a run of the data area lowers that number by the used blocks of
    the run. *)
Lemma data_used_clear sb bm x n bm' : 0 <= s_data_start sb <= x -> 0 <= n ->
  x + n <= s_total_blocks sb -> bits_set bm x n false bm' ->
  data_used sb bm = data_used sb bm' + used_count bm x (Z.to_nat n).
Proof.
  intros Hx Hn Hend (_ & _ & Hb). unfold data_used.
  replace (Z.to_nat (s_total_blocks sb - s_data_start sb))
    with (Z.to_nat (x - s_data_start sb) + (Z.to_nat n + Z.to_nat (s_total_blocks sb - (x + n))))%nat by lia.
  rewrite !used_count_app, !Z2Nat.id by lia.
  replace (s_data_start sb + (x - s_data_start sb)) with x by lia.
  assert (Hout : forall y k, (forall j, y <= j < y + Z.of_nat k -> 0 <= j /\ ~ in_run x n j) ->
    used_count bm' y k = used_count bm y k).
  { intros y k Hk. apply used_count_ext. intros j Hj. destruct (Hk j Hj) as [Hj0 Hout].
    rewrite Hb by done. destruct (_ && _) eqn:Hin; [|done]. destruct Hout.
    apply andb_true_iff in Hin as [?%Z.leb_le ?%Z.ltb_lt]. by split. }
  rewrite !(Hout _ (Z.to_nat (x - _))), (Hout (x + n)) by (unfold in_run; lia).
  rewrite (used_count_none bm' x); [lia|]. intros j Hj. unfold is_free. rewrite Hb by lia.
  rewrite (proj2 (Z.leb_le _ _)), (proj2 (Z.ltb_lt _ _)) by lia. done.
Qed.

Lemma block_error_full s b : ~ io_error s -> block_error dev s b -> journal_full s.
Proof. intros Hio [?|[_ ?]]; done. Qed.

Lemma free_extents_spec l s : fs_ok s -> layout_ok (super (fs s)) -> ~ io_error s ->
  2 * (journal_records (fs s) + Z.of_nat (length l)) + 1 < s_journal_blocks (super (fs s)) ->
  Forall (extent_in_data (super (fs s))) l ->
  0 <= s_free_blocks (super (fs s)) ->
  s_free_blocks (super (fs s)) + 32768 * Z.of_nat (length l) <= UINT64_MAX ->
  let bm := s_block_bitmap_start (super (fs s)) in
  wp (free_extents dev l)
    (fun _ s' => step (eq bm) s s' /\ journal_active (fs s') = journal_active (fs s) /\
       journal_records (fs s') <= journal_records (fs s) + Z.of_nat (length l) /\
       freed l (fview s bm) (fview s' bm) /\
       exists f, super (fs s') = super_with_free_blocks (super (fs s)) f /\
         f = s_free_blocks (super (fs s)) +
             (data_used (super (fs s)) (fview s bm) - data_used (super (fs s)) (fview s' bm)) /\
         s_free_blocks (super (fs s)) <= f <= s_free_blocks (super (fs s)) + 32768 * Z.of_nat (length l))
    (fun _ => False) s.
Proof.
  revert s. induction l as [|ex l IH]; intros s F L Hio Hroom Hl Hf0 Hf bm;
    unfold UINT64_MAX in Hf.
  { wp_steps. cbn [length]. split_and!; [by apply quiet_step, quiet_refl|done|lia|apply freed_nil|].
    exists (s_free_blocks (super (fs s))). split; [|lia]. by destruct (super (fs s)). }
  cbn [length] in *. apply Forall_cons in Hl as [[Hc0 Hex] Hl]. cbn [free_extents]. wp_steps.
  { apply Z.eqb_eq in Hif. eapply wp_mono; [apply IH; [done..|lia|done|done|unfold UINT64_MAX; lia]| |done].
    intros [] s1 (St & Ha & Hr & Hfr & f & Hsb & Hfe & Hfb). split_and!; [done|done|lia|by apply freed_skip|].
    exists f. split_and!; [done|exact Hfe|lia..]. }
  apply Z.eqb_neq in Hif. destruct Hex as [?|Hex]; [done|].
  assert (Hds : 0 <= s_data_start (super (fs s)) /\ s_total_blocks (super (fs s)) <= 32768).
  { destruct L. change xfs_inode_table_blocks with 47 in *. unfold K64_XFS_BLOCK_SIZE in *. lia. }
  eapply wp_mono; [apply (xfs_free_extent_spec dev D); [done|done|lia|lia|unfold UINT64_MAX; lia|done|unfold UINT64_MAX; lia]| |].
  2: { intros s1 (_ & _ & [?|[?|[?|He]]]); [lia..|]. apply block_error_full in He; [|done].
    unfold journal_full in He. lia. }
  intros [] s1 (B1 & Hsb1 & Ha1 & Hr1 & F1 & V1). fold bm in B1.
  pose proof (used_count_range (fview s bm) (e_physical_block ex) (Z.to_nat (e_block_count ex))) as Hcnt.
  fold bm in Hsb1. set (f1 := s_free_blocks (super (fs s)) + used_count _ _ _) in Hsb1.
  assert (SL : same_layout (super (fs s)) (super (fs s1))) by (by rewrite Hsb1).
  assert (St1 : step (eq bm) s s1) by (split; [done|done|]; intros b Hb Hne; apply V1; [done|intros ->; by apply Hne]).
  eapply wp_mono; [apply IH|..].
  - done.
  - by eapply same_layout_ok.
  - intros He. apply Hio. by eapply io_error_layout.
  - rewrite (sl_jn _ _ SL). lia.
  - rewrite Hsb1. exact Hl.
  - rewrite Hsb1. cbn. lia.
  - rewrite Hsb1. unfold UINT64_MAX. cbn. lia.
  - rewrite (sl_bbm _ _ SL). fold bm. intros [] s2 (St2 & Ha2 & Hr2 & Hfr & f & Hsb2 & Hfe & Hfb).
    rewrite Hsb1 in Hsb2, Hfe, Hfb. cbn in Hfb. split_and!.
    + eapply step_mono; [|by eapply step_trans]. by intros b [?|?].
    + congruence.
    + lia.
    + by eapply freed_cons.
    + exists f. split_and!; [by rewrite Hsb2| |lia..]. rewrite Hfe.
      change (data_used (super_with_free_blocks (super (fs s)) f1)) with (data_used (super (fs s))).
      change (s_free_blocks (super_with_free_blocks (super (fs s)) f1)) with f1. unfold f1.
      pose proof (data_used_clear (super (fs s)) _ _ _ _ (conj (proj1 Hds) (proj1 Hex)) Hc0 (proj2 Hex) B1). lia.
  - done.
Qed.

(** No room for [n] blocks: the volume counts fewer free blocks, or has no run
    of [n] of them. *)
Definition full (sb : k64_xfs_superblock_disk_t) (free : Z) (bm : list Z) (n : Z) : Prop :=
  free < n \/ no_run bm (s_data_start sb) (s_total_blocks sb) n (s_total_blocks sb).

(** No room for [n] blocks once the extents [l] of a volume with the bitmap
    [bm] are given back: every block of theirs that was in use counts as free
    again. *)
Definition no_space (sb : k64_xfs_superblock_disk_t) (bm : list Z)
    (l : list k64_xfs_extent_disk_t) (n : Z) : Prop :=
  exists bm', freed l bm bm' /\
    full sb (s_free_blocks sb + (data_used sb bm - data_used sb bm')) bm' n.

(** The inode with the run as its only extent. *)
Definition one_extent (i : k64_xfs_inode_disk_t) (start n : Z) : k64_xfs_inode_disk_t :=
  if 0 <? n then inode_with_extents i (i_size i) 1 (set_extent (i_direct_extents i) 0 0 start n) else i.

Lemma write_new_extent_spec i bytes n s : fs_ok s -> layout_ok (super (fs s)) -> ~ io_error s ->
  bytes_ok bytes -> 0 <= n <= UINT32_MAX -> 0 <= s_free_blocks (super (fs s)) ->
  2 * (journal_records (fs s) + 1) + 1 < s_journal_blocks (super (fs s)) ->
  let sb := super (fs s) in let bm := s_block_bitmap_start sb in
  wp (write_new_extent dev i bytes n)
    (fun i' s' => exists start, i' = one_extent i start n /\ 0 <= start /\
       start + n <= s_total_blocks sb /\ (0 < n -> s_data_start sb <= start) /\
       free_run (fview s bm) start n /\
       step (fun b => bm = b \/ in_run start n b) s s' /\
       (forall b, 0 <= b < n -> fview s' (start + b) = data_block bytes b) /\
       journal_active (fs s') = journal_active (fs s) /\
       journal_records (fs s') <= journal_records (fs s) + 1 /\
       super (fs s') = super_with_free_blocks sb (s_free_blocks sb - n) /\ n <= s_free_blocks sb)
    (fun s' => fs_ok s' /\ full sb (s_free_blocks sb) (fview s bm) n) s.
Proof.
  intros F L Hio Hby Hn Hf0 Hroom sb bm. unfold write_new_extent, one_extent.
  assert (Htot : 0 <= s_total_blocks sb).
  { destruct L. unfold sb. change xfs_inode_table_blocks with 47 in *. lia. }
  destruct (Z.ltb_spec 0 n) as [Hpos|Hz].
  2: { assert (n = 0) as -> by lia. wp_steps. exists 0. fold sb in Hf0.
    split_and!; try done; try lia; [intros y Hy; lia|].
    rewrite Z.sub_0_r. unfold sb. by destruct (super (fs s)). }
  wp_steps. eapply wp_mono; [apply (xfs_alloc_extent_spec dev D); [done|done|lia]| |].
  2: { intros s1 (F1 & _ & [?|[?|[?|[?|He]]]]); [lia|lia|by split; [|left]|by split; [|right]|].
    apply block_error_full in He; [|done]. unfold journal_full in He. lia. }
  intros start s1 (Hst & Hend & Hfree & _ & Hbits & Hnf & Hsb1 & Ha1 & Hr1 & F1 & V1).
  assert (SL1 : same_layout sb (super (fs s1))) by (by rewrite Hsb1).
  assert (L1 : layout_ok (super (fs s1))) by (by eapply same_layout_ok).
  wp_steps.
  eapply wp_mono; [apply (write_loop_spec bytes start n); [done|done|done| |lia|]| |];
    rewrite ?(sl_data _ _ SL1), ?(sl_total _ _ SL1); [done|done| |].
  - intros [] s2 (F2 & K2 & R2 & D2 & V2). wp_steps.
    assert (0 <= start) by (destruct L; unfold sb in *; change xfs_inode_table_blocks with 47 in *; lia).
    exists start. split_and!; try done; try congruence.
    + split; [done|by rewrite (kp_super _ _ K2)|]. intros b Hb Hnp.
      rewrite V2; [apply V1; [done|]|by apply (same_layout_home s s1)|].
      * intros ->. tauto.
      * tauto.
    + by rewrite (kp_active _ _ K2).
    + by rewrite (kp_super _ _ K2).
  - intros s2 (_ & _ & _ & He). destruct Hio. by eapply io_error_layout.
Qed.

Lemma resolve_path_inode f sb path id i : resolve_path f sb path = Some (id, i) ->
  inode_lookup f sb id = Some i.
Proof.
  unfold resolve_path. destruct (_ =? _); [|done]. generalize (s_root_inode sb) as r. intros r.
  destruct (inode_lookup f sb r) as [j|] eqn:Hj; [|done]. cbn [mbind option_bind].
  generalize (components path) as cs. intros cs. revert r j Hj.
  induction cs as [|c cs IH]; intros r j Hj; cbn [walk]; [by intros [= <- <-]|].
  destruct (_ <=? _); [done|]. destruct (dir_lookup f j c) as [[[e b] k]|]; [|done]. cbn [mbind option_bind].
  destruct (inode_lookup f sb (d_inode_id e)) as [j'|] eqn:Hj'; [|done]. by apply IH.
Qed.

Lemma inode_lookup_wf s id i : fs_ok s -> layout_ok (super (fs s)) ->
  inode_lookup (fview s) (super (fs s)) id = Some i ->
  inode_id_ok id /\ inode_ok i /\ i_inode_id i = id /\ i_magic i = K64_XFS_INODE_MAGIC.
Proof.
  intros F L [I Hi]%inode_lookup_ok. revert Hi. unfold inode_at.
  destruct (_ && _) eqn:Hg; [|done]. intros [= <-]. rewrite !andb_true_iff in Hg.
  destruct Hg as [[? ?] _]. split_and!; [done| |lia..].
  apply dec_inode_inv.
  - apply bytes_ok_slice. by apply fview_block_ok.
  - apply slice_length. destruct (fview_block_ok dev D s (inode_block (super (fs s)) id) F) as [-> _].
    by apply inode_offset_fits.
Qed.

(** The inode [k64_xfs_write_file] stores. *)
Definition stored_inode (i : k64_xfs_inode_disk_t) (start n size uid gid generation : Z) :=
  written_inode (one_extent (inode_with_extents i 0 0 zero_extents) start n) size uid gid generation.

Lemma stored_inode_ok i start n size uid gid g : inode_ok i -> is_u64 start -> is_u64 n ->
  is_u64 size -> is_u32 uid -> is_u32 gid -> inode_ok (stored_inode i start n size uid gid g).
Proof.
  intros [] ? ? ? ? ?. unfold stored_inode, one_extent.
  assert (Forall extent_ok zero_extents).
  { apply Forall_replicate. by split. }
  destruct (0 <? n); constructor; try assumption; try done; try apply u64_range.
  apply Forall_alter; [done|]. intros e _ []. by constructor.
Qed.

Lemma stored_inode_extents i start n size uid gid g : 0 < n ->
  live_extents (stored_inode i start n size uid gid g) = [mk_extent 0 start n 0 0].
Proof. intros H. unfold stored_inode, one_extent. by rewrite (proj2 (Z.ltb_lt 0 n) H). Qed.

Lemma stored_content f i start size uid gid g bytes :
  size = Z.of_nat (length bytes) -> size + 4095 <= UINT64_MAX -> 0 <= start ->
  start + blocks_of size <= UINT64_MAX ->
  (forall b, 0 <= b < blocks_of size -> f (start + b) = data_block bytes b) ->
  content f (sealed (stored_inode i start (blocks_of size) size uid gid g)) = bytes.
Proof.
  intros Hsz Hs Hst Hend Hf. set (i' := sealed _).
  assert (Hi : i_size i' = size) by (unfold i', stored_inode, one_extent; by destruct (_ <? _)).
  destruct (blocks_of_spec size) as [Hb0 Hb]; [lia|done|].
  destruct (decide (0 < blocks_of size)) as [Hpos|Hz].
  - eapply content_one_extent; rewrite ?Hi; [lia|done| |exact Hst|done|done].
    exact (stored_inode_extents i start (blocks_of size) size uid gid g Hpos).
  - assert (length bytes = 0%nat) as Hl by lia. apply length_zero_iff_nil in Hl as ->.
    unfold content. by rewrite Hi, Hsz.
Qed.

(** What writing [bytes] to inode [id] achieves. *)
Record written s id i bytes uid gid s' : Prop := {
  wr_inode : exists i', inode_lookup (fview s') (super (fs s)) id = Some i' /\
    content (fview s') i' = bytes /\ i_size i' = Z.of_nat (length bytes) /\
    i_uid i' = uid /\ i_gid i' = gid /\ i_type i' = i_type i /\ i_mode i' = i_mode i;
  wr_others : forall id', id' <> id ->
    inode_lookup (fview s') (super (fs s)) id' = inode_lookup (fview s) (super (fs s)) id';
  wr_blocks : forall b, home s b -> b <> 0 -> b <> inode_block (super (fs s)) id ->
    b <> s_block_bitmap_start (super (fs s)) ->
    is_used (fview s (s_block_bitmap_start (super (fs s)))) b -> ~ covers (live_extents i) b ->
    fview s' b = fview s b;
  wr_ok : fs_ok s';
  wr_layout : same_layout (super (fs s)) (super (fs s'));
  wr_closed : journal_active (fs s') = false
}.

(** The inodes other than [id] after a step that wrote only [id]'s slot. *)
Lemma lookup_step P s s' id' : layout_ok (super (fs s)) -> step P s s' ->
  (inode_id_ok id' -> ~ P (inode_block (super (fs s)) id')) ->
  inode_lookup (fview s') (super (fs s)) id' = inode_lookup (fview s) (super (fs s)) id'.
Proof.
  intros L [_ _ V] Hn. unfold inode_lookup. destruct (_ && _) eqn:Hg; [|done].
  apply andb_true_iff in Hg as [? ?]. assert (I : inode_id_ok id') by (split; lia).
  unfold inode_at, inode_slot. rewrite V; [done|by apply inode_home|by apply Hn].
Qed.

Lemma lookup_slot s id f f' : inode_slot f' (super (fs s)) id = inode_slot f (super (fs s)) id ->
  inode_lookup f' (super (fs s)) id = inode_lookup f (super (fs s)) id.
Proof. intros H. unfold inode_lookup, inode_at. by rewrite H. Qed.

(** The last part of [k64_xfs_write_file]: the inode, the commit record and
    the superblock. *)
Lemma store_inode_spec s i : fs_ok s -> layout_ok (super (fs s)) -> super_ok (super (fs s)) ->
  ~ io_error s -> journal_active (fs s) = true -> inode_ok i -> inode_id_ok (i_inode_id i) ->
  2 * (journal_records (fs s) + 1) + 1 < s_journal_blocks (super (fs s)) ->
  wp (xfs_write_inode dev i ;; k64_xfs_journal_commit dev ;; xfs_write_super dev)
    (fun _ s' => step (fun b => inode_block (super (fs s)) (i_inode_id i) = b \/ 0 = b) s s' /\
       journal_active (fs s') = false /\
       inode_slot (fview s') (super (fs s)) (i_inode_id i) = enc_inode (sealed i) /\
       forall id, inode_id_ok id -> id <> i_inode_id i ->
         inode_slot (fview s') (super (fs s)) id = inode_slot (fview s) (super (fs s)) id)
    (fun _ => False) s.
Proof.
  intros F L So Hio Ha Ho I Hroom. wp_steps.
  eapply wp_mono; [by apply (xfs_write_inode_spec dev D)| |].
  2: { intros s1 (_ & _ & _ & [?|He]); [done|]. apply block_error_full in He; [|done].
    unfold journal_full in He. lia. }
  intros [] s1 (_ & F1 & K1 & R1 & _ & Hs1 & Ho1 & V1). pose proof (kp_super _ _ K1) as Hsb1. wp_steps.
  eapply wp_mono; [apply commit_step; [done| | | |]| |done].
  { by rewrite (kp_active _ _ K1). }
  { apply layout_inside. by rewrite Hsb1. }
  { unfold XfsSpec.io_error. by rewrite Hsb1. }
  { unfold journal_full. rewrite Hsb1. lia. }
  intros [] s2 (St2 & Ha2 & Hsb2). rewrite Hsb1 in Hsb2. pose proof (st_layout _ _ _ St2) as SL2. rewrite Hsb1 in SL2.
  eapply wp_mono; [apply write_super_step; [apply St2|by eapply same_layout_ok| |done|]| |done].
  { rewrite Hsb2. destruct So. constructor; try assumption. apply u64_range. }
  { intros He. apply Hio. by eapply io_error_layout. }
  intros [] s3 (St3 & Ha3 & _ & _).
  assert (Hhome : forall b, home s b -> home s1 b) by (intros b; apply (keeps_home s s1 b K1)).
  assert (Hslot : forall id, inode_id_ok id ->
            inode_slot (fview s3) (super (fs s)) id = inode_slot (fview s1) (super (fs s)) id).
  { intros id I'. unfold inode_slot. pose proof (inode_home s id L I') as Hh.
    destruct (inode_block_range _ id L I') as [_ Hr].
    rewrite (st_frame _ _ _ St3).
    - by rewrite (st_frame _ _ _ St2) by auto.
    - apply (same_layout_home s1); [apply St2|auto].
    - destruct L. lia. }
  split_and!; [|done|by rewrite Hslot|].
  - split; [apply St3|etrans; [exact SL2|apply St3]|]. intros b Hb Hn.
    assert (Hb2 : home s2 b) by (apply (same_layout_home s1); [apply St2|auto]).
    rewrite (st_frame _ _ _ St3 b Hb2), (st_frame _ _ _ St2 b (Hhome b Hb)) by tauto.
    apply V1; [done|]. intros ->. tauto.
  - intros id I' Hne. rewrite Hslot by done. by apply Ho1.
Qed.

(** A mounted file system between operations, on a device that works. *)
Record ready s : Prop := {
  rd_ok : fs_ok s;
  rd_layout : layout_ok (super (fs s));
  rd_super : super_ok (super (fs s));
  rd_tree : tree_ok (fview s) (super (fs s));
  rd_io : ~ io_error s;
  rd_closed : journal_active (fs s) = false;
  rd_journal : s_journal_blocks (super (fs s)) = K64_XFS_JOURNAL_BLOCKS;
  rd_free : 0 <= s_free_blocks (super (fs s)) <= s_total_blocks (super (fs s))
}.

Lemma live_extents_length i : (length (live_extents i) <= 8)%nat.
Proof.
  unfold live_extents, K64_XFS_DIRECT_EXTENTS. rewrite length_take. lia.
Qed.

Lemma free_run_used bm bm' l x n b : freed l bm bm' -> free_run bm' x n -> 0 <= b ->
  is_used bm b -> ~ covers l b -> ~ in_run x n b.
Proof.
  intros Hfr Hrun Hb Hu Hc Hin. destruct (Hfr b Hb) as [_ Heq]. specialize (Hrun b Hin).
  unfold is_used, is_free in *. rewrite Heq in Hrun by done. congruence.
Qed.

(** Collecting the steps of a write. *)
Lemma written_intro s s2 s3 id i bytes uid gid start g :
  let n := blocks_of (Z.of_nat (length bytes)) in
  let bm := s_block_bitmap_start (super (fs s)) in
  let i' := stored_inode i start n (Z.of_nat (length bytes)) uid gid g in
  fs_ok s -> layout_ok (super (fs s)) -> inode_lookup (fview s) (super (fs s)) id = Some i ->
  Z.of_nat (length bytes) <= UINT32_MAX -> 0 <= start -> start + n <= s_total_blocks (super (fs s)) ->
  (0 < n -> s_data_start (super (fs s)) <= start) -> inode_ok i' ->
  (forall b, 0 <= b -> is_used (fview s bm) b -> ~ covers (live_extents i) b -> ~ in_run start n b) ->
  step (fun b => bm = b \/ in_run start n b) s s2 ->
  (forall b, 0 <= b < n -> fview s2 (start + b) = data_block bytes b) ->
  step (fun b => inode_block (super (fs s)) id = b \/ 0 = b) s2 s3 ->
  journal_active (fs s3) = false ->
  inode_slot (fview s3) (super (fs s)) id = enc_inode (sealed i') ->
  (forall id', inode_id_ok id' -> id' <> id ->
     inode_slot (fview s3) (super (fs s)) id' = inode_slot (fview s2) (super (fs s)) id') ->
  written s id i bytes uid gid s3.
Proof.
  intros n bm i' F L Hi Hlen Hst0 Hst1 Hst2 Ho' Hdis St2 D2 St3 Ha3 Hslot Hoth.
  destruct (inode_lookup_wf s id i F L Hi) as (I & Ho & Hid & Hmg). unfold UINT32_MAX in *.
  destruct (blocks_of_spec (Z.of_nat (length bytes))) as [Hn0 Hn]; [lia|unfold UINT64_MAX; lia|]. fold n in Hn0, Hn.
  destruct (inode_block_range _ id L I) as [_ Hib].
  assert (Htot : 0 <= s_data_start (super (fs s)) /\ s_total_blocks (super (fs s)) <= 32768).
  { destruct L. unfold K64_XFS_BLOCK_SIZE in *. change xfs_inode_table_blocks with 47 in *. lia. }
  assert (Hsh : forall b, home s b -> home s2 b) by (intros b; apply (same_layout_home s s2), St2).
  assert (Htab : forall id', inode_id_ok id' -> ~ (bm = inode_block (super (fs s)) id' \/ in_run start n (inode_block (super (fs s)) id'))).
  { intros id' I'. destruct (inode_block_range _ id' L I') as [_ Hr]. unfold in_run, bm.
    destruct L. lia. }
  split.
  - exists (sealed i'). split_and!; try (unfold i', stored_inode, one_extent; by destruct (_ <? _)).
    + apply inode_lookup_ok. split; [done|]. apply inode_at_slot; [done|done|..];
        unfold i', stored_inode, one_extent; by destruct (_ <? _).
    + apply stored_content; [done|unfold UINT64_MAX; lia|done|fold n; unfold UINT64_MAX; lia|].
      intros b Hb. fold n in Hb. rewrite (st_frame _ _ _ St3); [by apply D2| |].
      * apply Hsh, data_home; [done|]. lia.
      * destruct L. lia.
  - intros id' Hne. transitivity (inode_lookup (fview s2) (super (fs s)) id').
    + unfold inode_lookup. destruct (_ && _) eqn:Hgd; [|done]. apply andb_true_iff in Hgd as [? ?].
      unfold inode_at. rewrite Hoth; [done|split; lia|done].
    + eapply lookup_step; [done|exact St2|by apply Htab].
  - intros b Hb Hb0 Hbi Hbb Hu Hc. rewrite (st_frame _ _ _ St3) by (try (by apply Hsh); intros [?|?]; congruence).
    apply St2; [done|]. intros [Heq|Hin]; [by apply Hbb|]. apply (Hdis b); [apply Hb|done..].
  - apply St3.
  - etrans; [apply St2|apply St3].
  - done.
Qed.

(** From the open transaction to the end: the old extents freed, the data in
    a new extent, the inode stored. *)
Lemma replace_content_spec s id i bytes uid gid : fs_ok s -> layout_ok (super (fs s)) ->
  super_ok (super (fs s)) -> ~ io_error s -> journal_active (fs s) = true ->
  journal_records (fs s) = 0 -> s_journal_blocks (super (fs s)) = K64_XFS_JOURNAL_BLOCKS ->
  0 <= s_free_blocks (super (fs s)) <= s_total_blocks (super (fs s)) ->
  inode_lookup (fview s) (super (fs s)) id = Some i ->
  Forall (extent_in_data (super (fs s))) (live_extents i) ->
  bytes_ok bytes -> Z.of_nat (length bytes) <= UINT32_MAX -> is_u32 uid -> is_u32 gid ->
  let n := blocks_of (Z.of_nat (length bytes)) in
  wp (inode ← xfs_free_file_extents dev i;
      inode ← write_new_extent dev inode bytes n;
      sb ← get_super;
      xfs_write_inode dev (written_inode inode (Z.of_nat (length bytes)) uid gid (s_generation sb)) ;;
      k64_xfs_journal_commit dev ;;
      xfs_write_super dev)
    (fun _ s' => written s id i bytes uid gid s')
    (fun s' => fs_ok s' /\
       no_space (super (fs s)) (fview s (s_block_bitmap_start (super (fs s)))) (live_extents i) n) s.
Proof.
  intros F L So Hio Ha Hr Hjb Hf Hi Hex Hby Hlen Hu Hg n. unfold K64_XFS_JOURNAL_BLOCKS, UINT32_MAX in *.
  destruct (inode_lookup_wf s id i F L Hi) as (I & Ho & Hid & Hmg).
  destruct (blocks_of_spec (Z.of_nat (length bytes))) as [Hn0 Hn]; [lia|unfold UINT64_MAX; lia|]. fold n in Hn0, Hn.
  pose proof (live_extents_length i) as Hle.
  assert (Htot : s_total_blocks (super (fs s)) <= 32768) by (destruct L; unfold K64_XFS_BLOCK_SIZE in *; lia).
  unfold xfs_free_file_extents, get_super. wp_steps.
  eapply wp_mono; [apply (free_extents_spec (live_extents i)); [done|done|done|lia|done|lia|unfold UINT64_MAX; lia]| |done].
  intros [] s1 (St1 & Ha1 & Hr1 & Hfr & f1 & Hsb1 & Hfe & Hf1). wp_steps.
  pose proof St1 as [F1 SL1 V1]. pose proof (same_layout_ok _ _ SL1 L) as L1.
  assert (Hio1 : ~ io_error s1) by (intros He; apply Hio; by eapply io_error_layout).
  eapply wp_mono; [apply write_new_extent_spec; [done|done|done|done|unfold UINT32_MAX; lia| |]| |];
    rewrite ?(sl_bbm _ _ SL1), ?(sl_total _ _ SL1), ?(sl_data _ _ SL1), ?(sl_jn _ _ SL1).
  { rewrite Hsb1. cbn. lia. }
  { lia. }
  2: { intros s2 (F2 & Hns). split; [done|].
    exists (fview s1 (s_block_bitmap_start (super (fs s)))). split; [done|].
    destruct Hns as [Hlt|Hno]; [left|right].
    - rewrite Hsb1 in Hlt. cbn in Hlt. by rewrite <- Hfe.
    - by rewrite (sl_data _ _ SL1), (sl_total _ _ SL1) in Hno. }
  intros i1 s2 (start & -> & Hst0 & Hst1 & Hst2 & Hrun & St2 & D2 & Ha2 & Hr2 & Hsb2 & Hnf).
  pose proof (same_layout_ok _ _ (st_layout _ _ _ St2) L1) as L2.
  assert (SL2 : same_layout (super (fs s)) (super (fs s2))) by (etrans; [exact SL1|apply St2]).
  assert (St : step (fun b => s_block_bitmap_start (super (fs s)) = b \/ in_run start n b) s s2).
  { eapply step_mono; [|by eapply step_trans]. cbv beta. tauto. }
  apply wp_bind, wp_gets. fold (stored_inode i start n (Z.of_nat (length bytes)) uid gid (s_generation (super (fs s2)))).
  set (i' := stored_inode _ _ _ _ _ _ _).
  assert (Ho' : inode_ok i').
  { apply stored_inode_ok; [done| | | |done|done]; change (256 ^ Z.of_nat 8) with 18446744073709551616; lia. }
  assert (Hid' : i_inode_id i' = id) by (unfold i', stored_inode, one_extent; by destruct (_ <? _)).
  eapply wp_mono; [apply store_inode_spec|..]; rewrite ?Hid', ?(same_layout_inode _ _ _ SL2), ?(sl_jn _ _ SL2);
    [apply St|done| | |congruence|done|done|lia| |done].
  - rewrite Hsb2, Hsb1. destruct So. constructor; try assumption. cbn. rewrite Hsb1 in Hnf. cbn in Hnf. 
    change (256 ^ Z.of_nat 8) with 18446744073709551616. lia.
  - intros He. apply Hio. by eapply io_error_layout.
  - intros [] s3 (St3 & Ha3 & Hslot & Hoth).
    assert (Hs : forall f id, inode_slot f (super (fs s2)) id = inode_slot f (super (fs s)) id).
    { intros. unfold inode_slot. by rewrite (same_layout_inode _ _ _ SL2). }
    rewrite Hs in Hslot. eapply written_intro; try done.
    + intros b Hb Hu' Hc. by eapply free_run_used.
    + intros id' I' Hne. specialize (Hoth id' I' Hne). by rewrite !Hs in Hoth.
Qed.

Lemma tree_ok_extents s id i : tree_ok (fview s) (super (fs s)) ->
  inode_lookup (fview s) (super (fs s)) id = Some i -> extents_in_data (super (fs s)) i.
Proof. intros T. apply T. Qed.

Lemma same_layout_lookup f sb sb' id : same_layout sb sb' -> inode_lookup f sb' id = inode_lookup f sb id.
Proof. intros SL. unfold inode_lookup, inode_at, inode_slot. by rewrite (same_layout_inode _ _ _ SL). Qed.

(** Nothing happened before the write. *)
Lemma written_after s s2 s3 id i bytes uid gid : layout_ok (super (fs s)) ->
  step (fun _ => False) s s2 -> written s2 id i bytes uid gid s3 -> written s id i bytes uid gid s3.
Proof.
  intros L St [(i' & Hi' & Hrest) Hoth Hbl Hok SL Hcl]. pose proof St as [F2 SL2 V2].
  rewrite (same_layout_lookup _ _ _ _ SL2) in Hi'. split; [by exists i'| | |done|by etrans|done].
  - intros id' Hne. specialize (Hoth id' Hne). rewrite !(same_layout_lookup _ _ _ _ SL2) in Hoth.
    rewrite Hoth. eapply lookup_step; [done|exact St|tauto].
  - intros b Hb Hb0 Hbi Hbb Hu Hc. assert (Hb2 : home s2 b) by (by apply (same_layout_home s)).
    rewrite Hbl; [apply V2; [done|tauto]|done..| | | |done].
    + by rewrite (same_layout_inode _ _ _ SL2).
    + by rewrite (sl_bbm _ _ SL2).
    + rewrite (sl_bbm _ _ SL2), V2; [done| |tauto]. apply layout_home; [done|]. destruct L. left. lia.
Qed.

(** C4: Overwriting an existing file, on a device that works: the file then has
    exactly the given content and owner, every other inode and every block in
    use by something else is untouched; the write fails only when the data
    does not fit even with the blocks of the old content given back: the free
    blocks are then fewer than the data needs, or no run of them is long
    enough. *)
Theorem k64_xfs_write_file_spec s path id i bytes uid gid : ready s -> no_nul path ->
  0 <= s_root_inode (super (fs s)) ->
  resolve_path (fview s) (super (fs s)) path = Some (id, i) -> i_type i = K64_XFS_TYPE_REGULAR ->
  Forall (extent_in_data (super (fs s))) (live_extents i) ->
  bytes_ok bytes -> Z.of_nat (length bytes) <= UINT32_MAX -> is_u32 uid -> is_u32 gid ->
  wp (k64_xfs_write_file dev (Some path) bytes uid gid)
    (fun _ s' => written s id i bytes uid gid s')
    (fun s' => fs_ok s' /\
       no_space (super (fs s)) (fview s (s_block_bitmap_start (super (fs s)))) (live_extents i)
         (blocks_of (Z.of_nat (length bytes)))) s.
Proof.
  intros [F L So T Hio Ha Hjb Hf] Hnul Hroot Hres Hty Hex Hby Hlen Hu Hg.
  destruct (blocks_of_spec (Z.of_nat (length bytes))) as [Hn0 Hn];
    [lia|unfold UINT32_MAX, UINT64_MAX in *; lia|].
  unfold k64_xfs_write_file. cbv zeta. apply wp_bind, wp_try.
  eapply wp_mono; [by apply (xfs_resolve_spec dev D)| |].
  2: { intros s1 [_ [?|?]]; [congruence|done]. }
  intros r s1 [Hr Q1]. rewrite Hres in Hr. injection Hr as <-. apply wp_bind, wp_ret.
  rewrite Hty. apply wp_bind, wp_ret.
  rewrite (proj2 (Z.ltb_ge UINT32_MAX _)) by (unfold UINT32_MAX in *; lia). apply wp_bind, wp_ret.
  pose proof Q1 as [F1 K1 S1 _]. pose proof (kp_super _ _ K1) as Hsb1. apply wp_bind.
  eapply wp_mono; [apply begin_step; [done|by rewrite (kp_active _ _ K1)]| |done].
  intros [] s2 (St2 & Ha2 & Hr2 & Hsb2). rewrite Hsb1 in Hsb2.
  assert (St : step (fun _ => False) s s2).
  { eapply step_mono; [|eapply step_trans; [by apply (quiet_step (fun _ => False))|exact St2]]. cbv beta. tauto. }
  pose proof St as [F2 SL2 V2].
  assert (Hi : inode_lookup (fview s2) (super (fs s2)) id = Some i).
  { rewrite <- (resolve_path_inode _ _ _ _ _ Hres), Hsb2.
    change (inode_lookup (fview s2) (super (fs s)) id = inode_lookup (fview s) (super (fs s)) id).
    by eapply lookup_step; [|exact St|tauto]. }
  eapply wp_mono; [apply (replace_content_spec s2 id i bytes uid gid)|..]; try done.
  - by eapply same_layout_ok.
  - rewrite Hsb2. destruct So. constructor; try assumption. done.
  - intros He. apply Hio. by eapply io_error_layout.
  - by rewrite (sl_jn _ _ SL2).
  - by rewrite Hsb2.
  - by rewrite Hsb2.
  - intros [] s3 Hw. by eapply written_after.
  - intros s3 (F3 & Hns). split; [done|].
    rewrite (sl_bbm _ _ SL2), V2 in Hns; [|apply layout_home; [done|]; destruct L; left; lia|tauto].
    by rewrite Hsb2 in Hns.
Qed.

(** C5: Reading a file returns a prefix of its content, as long as was asked for. *)
Theorem k64_xfs_read_file_spec s path id i max : fs_ok s -> layout_ok (super (fs s)) ->
  tree_ok (fview s) (super (fs s)) -> 0 <= s_root_inode (super (fs s)) -> no_nul path -> 0 <= max ->
  resolve_path (fview s) (super (fs s)) path = Some (id, i) ->
  i_size i + 4095 <= UINT64_MAX ->
  wp (k64_xfs_read_file dev (Some path) max)
    (fun out s' => out = take (Z.to_nat max) (content (fview s) i) /\ quiet s s')
    (fun s' => quiet s s' /\ (i_type i <> K64_XFS_TYPE_REGULAR \/ io_error s)) s.
Proof.
  intros F L T Hroot Hnul Hm Hres Hsz. unfold k64_xfs_read_file. apply wp_bind.
  eapply wp_mono; [by apply (xfs_resolve_spec dev D)| |].
  2: { intros s1 [Q [?|?]]; [congruence|]. split; [done|by right]. }
  intros r s1 [Hr Q1]. rewrite Hres in Hr. injection Hr as <-. wp_steps.
  2: { split; [done|]. left. by apply Z.eqb_neq. }
  pose proof (resolve_path_inode _ _ _ _ _ Hres) as Hi.
  destruct (inode_lookup_wf s id i F L Hi) as (_ & Ho & _). pose proof (T _ _ Hi) as E.
  pose proof Q1 as [F1 K1 S1 _]. pose proof (kp_super _ _ K1) as Hsb1. cbv zeta.
  assert (Hs0 : 0 <= i_size i) by apply Ho.
  eapply wp_mono; [apply (read_loop_spec _ i max 0%nat s1); rewrite ?Hsb1; try done|..].
  - lia.
  - intros out s2 [-> Q2]. split; [|by eapply quiet_trans]. rewrite (all_blocks_same s s1) by done.
    unfold content. rewrite take_take. f_equal. lia.
  - intros s2 [Q2 He]. split; [by eapply quiet_trans|]. right. by eapply io_error_quiet.
Qed.
End files.
