(* ===== verification/Fs.v ===== *)
(** * The path interface of the root file system ([k64_fs.c])

    Paths of the rest of the kernel are made absolute and normalized, then served
    by K64XFS or, below [/proc] and [/dev], by files that the kernel makes.  The
    current directory [fs_cwd] is an argument; only [k64_fs_cd] changes it.  Files
    are read through buffers of the kernel; what is left in them is not kept.  The
    search for the device to mount and the installation on a disk are left out. *)
From Stdlib Require Import ZArith Lia.
From stdpp Require Import base list.
From S2P Require Import Prelude Exec KString XfsFormat Block Cache Journal XfsCore XfsDir XfsOps.

Definition K64_ROOTFS_BLOCK_SIZE : Z := 512.
Definition K64_ROOTFS_RAW_MAX : Z := 16777216.
(** [sizeof(full)] *)
Definition FULL_MAX : Z := 256.

(** ** Strings *)
Definition is_path (path name : list Z) : bool := bool_decide (path = name).
Definition none (s : list Z) : bool := match s with [] => true | _ => false end.
Definition fs_copy (dst_size : Z) (src : list Z) : list Z := take (Z.to_nat (dst_size - 1)) src.
Definition fs_append (dst_size : Z) (dst src : list Z) : list Z := dst ++ take (Z.to_nat (dst_size - 1 - Z.of_nat (length dst))) src.
Definition fs_path_has_suffix (s suffix : list Z) : bool :=
  if (length s <? length suffix)%nat then false else is_path (drop (length s - length suffix) s) suffix.
Definition fs_name_has_prefix (s prefix : list Z) : bool := is_path (take (length prefix) s) prefix.

(** ** Normalization *)

(** The path, made absolute. *)
Definition absolute (cwd path : list Z) : list Z :=
  let path := if none path then str "." else path in
  if nth 0 path 0 =? SLASH then fs_copy 256 path else
  let tmp := fs_copy 256 cwd in
  let tmp := if is_path tmp (str "/") then tmp else fs_append 256 tmp (str "/") in
  fs_append 256 tmp path.

(** On the output read backwards: back to the last slash, or to one character. *)
Fixpoint back_to_slash (r : list Z) : list Z :=
  match r with
  | c :: (_ :: _) as t => if c =? SLASH then r else back_to_slash t
  | _ => r
  end.
(** A component [..]. *)
Definition up (out : list Z) : list Z := if (1 <? length out)%nat then rev (back_to_slash (tail (rev out))) else out.
(** Any other component. *)
Definition down (out_size : Z) (token out : list Z) : option (list Z) :=
  let more := (1 <? length out)%nat in
  if more && (out_size <=? Z.of_nat (length out) + 1) then None else
  let out := if more then out ++ [SLASH] else out in
  if out_size <=? Z.of_nat (length out + length token) then None else Some (out ++ token).

(** A round takes at least one character. *)
Fixpoint normalize_loop (fuel : nat) (out_size : Z) (p out : list Z) : option (list Z) :=
  match p, fuel with
  | [], _ => Some out
  | _, O => None
  | _, S fuel =>
      '(token, rest) ← take_token (skip_slashes p) 0;
      if none token || is_path token (str ".") then normalize_loop fuel out_size rest out
      else if is_path token (str "..") then normalize_loop fuel out_size rest (up out)
      else out ← down out_size token out; normalize_loop fuel out_size rest out
  end.
Definition fs_normalize (cwd path : list Z) (out_size : Z) : option (list Z) :=
  let tmp := absolute cwd path in normalize_loop (length tmp) out_size tmp [SLASH].

(** ** Files the kernel makes *)
Definition fs_is_pseudo_path (path : list Z) : bool :=
  is_path path (str "/proc") || fs_name_has_prefix path (str "/proc/") || is_path path (str "/dev") || fs_name_has_prefix path (str "/dev/").
Definition fs_stat_fill (path : list Z) (is_dir : bool) (size mode : Z) : k64_fs_stat_t := mk_stat true is_dir size mode 0 0 0 0 1 (fs_copy 256 path).
Definition line (s : list Z) : list Z := s ++ [10].
Definition fs_build_proc_services : list Z :=
  line (str "kernel running ring0") ++ line (str "fs running ring3-gated") ++ line (str "proc running ring3-gated") ++ line (str "io running ring3-gated") ++ line (str "term running ring3-gated").
Definition fs_pseudo_read_all (path : list Z) : option (list Z) :=
  if is_path path (str "/proc/version") then Some (line (str "K64 0.3"))
  else if is_path path (str "/proc/services") then Some fs_build_proc_services
  else if is_path path (str "/dev/null") then Some [] else None.
Definition fs_pseudo_ls (path : list Z) (out_size : Z) : option (list Z) :=
  if out_size <=? 0 then None
  else if is_path path (str "/proc") then Some (fs_copy out_size (line (str "version") ++ line (str "services")))
  else if is_path path (str "/dev") then Some (fs_copy out_size (line (str "null") ++ line (str "console") ++ line (str "tty0"))) else None.
Definition fs_pseudo_stat (path : list Z) : option k64_fs_stat_t :=
  if is_path path (str "/proc") || is_path path (str "/dev") then Some (fs_stat_fill path true 0 0x16D)
  else if existsb (is_path path) [str "/proc/version"; str "/proc/services"; str "/dev/null"; str "/dev/console"; str "/dev/tty0"] then
    let size := match fs_pseudo_read_all path with Some d => Z.of_nat (length d) | None => 0 end in
    Some (fs_stat_fill path false size (if is_path path (str "/dev/null") then 0x1B6 else 0x124))
  else None.

(** ** Listings *)

(** The lines of a listing: names cut to 127 characters, and whether a slash marks a
    directory. *)
Fixpoint take_name (p : list Z) : list Z * list Z :=
  match p with
  | [] => ([], [])
  | c :: p' => if c =? 10 then ([], p') else let '(n, rest) := take_name p' in (c :: n, rest)
  end.
Fixpoint listing_names (fuel : nat) (p : list Z) : list (list Z) :=
  match p, fuel with
  | [], _ => []
  | _, O => []
  | _, S fuel => let '(n, rest) := take_name p in take 127 n :: listing_names fuel rest
  end.
Definition entry_of (name : list Z) : list Z * bool :=
  match rev name with 47 :: r => (rev r, true) | _ => (name, false) end.
Definition dir_entries (listing : list Z) : list (list Z * bool) :=
  map entry_of (List.filter (fun n => negb (none n || is_path n (str "."))) (listing_names (length listing) listing)).
(** [fn(name, is_dir, ctx)] until it returns false. *)
Fixpoint for_entries {C} (fn : list Z -> bool -> C -> bool * C) (l : list (list Z * bool)) (ctx : C) : C :=
  match l with [] => ctx | (name, dir) :: l => let '(go, ctx) := fn name dir ctx in if go then for_entries fn l ctx else ctx end.

(** ** Operations *)
Section fs.
Context {W : Type} (dev : k64_block_device_t W).
Abbreviation st := (xstate W).
(** The current directory. *)
Context (cwd : list Z).

(** [return false] when a value is missing. *)
Definition need {A} (o : option A) : M st A := match o with Some a => mret a | None => fail end.
Definition full_path (path : list Z) : M st (list Z) := need (fs_normalize cwd path FULL_MAX).
Definition here (path : list Z) : list Z := if none path then str "." else path.

Definition k64_fs_pwd (out_size : Z) : option (list Z) := if out_size <=? 0 then None else Some (fs_copy out_size cwd).
(** The new current directory. *)
Definition k64_fs_cd (path : list Z) : M st (list Z) :=
  full ← full_path path;
  st ← k64_xfs_stat dev (Some full);
  check (st_is_dir st) ;;
  mret (fs_copy 256 full).

Definition k64_fs_ls (path : list Z) (out_size : Z) : M st (list Z) :=
  full ← full_path (here path);
  out ← (if fs_is_pseudo_path full then need (fs_pseudo_ls full out_size) else k64_xfs_list_dir dev (Some full) out_size);
  mret (if none out && (0 <? out_size) then fs_copy out_size (line (str ".")) else out).
Definition k64_fs_iter_dir {C} (path : list Z) (fn : list Z -> bool -> C -> bool * C) (ctx : C) : M st C :=
  listing ← k64_fs_ls path 4096;
  mret (for_entries fn (dir_entries listing) ctx).

Definition k64_fs_mkdir (path : list Z) : M st unit :=
  full ← full_path path;
  k64_xfs_mkdir dev (Some full) 0x1ED 0 0.

Fixpoint until_slash (p : list Z) : list Z := match p with [] => [] | c :: p => if c =? SLASH then [] else c :: until_slash p end.
(** [p] is what is left of the path, [partial] the directory so far. *)
Fixpoint mkdir_loop (fuel : nat) (p partial : list Z) : M st unit :=
  match p, fuel with
  | [], _ => mret tt
  | _, O => ub
  | _, S fuel =>
      let name := until_slash p in
      let rest := drop (length name) p in
      let partial := partial ++ name in
      check (Z.of_nat (length partial) <? 256) ;;
      found ← try (k64_xfs_stat dev (Some partial));
      (if absent found then k64_xfs_mkdir dev (Some partial) 0x1ED 0 0 else mret tt) ;;
      let rest := skip_slashes rest in
      if none rest then mret tt else
      check (Z.of_nat (length partial) + 1 <? 256) ;;
      mkdir_loop fuel rest (partial ++ [SLASH])
  end.
Definition k64_fs_mkdir_p (path : list Z) : M st unit :=
  full ← full_path path;
  if is_path full (str "/") then mret tt else mkdir_loop (length full) (tail full) [SLASH].

Definition k64_fs_touch (path : list Z) : M st unit :=
  full ← full_path path;
  found ← try (k64_xfs_stat dev (Some full));
  if absent found then k64_xfs_create dev (Some full) 0x1A4 0 0 else mret tt.

Definition k64_fs_write_file_raw (path data : list Z) : M st unit :=
  full ← full_path path;
  if is_path full (str "/dev/null") then mret tt else
  check (negb (fs_is_pseudo_path full)) ;;
  k64_xfs_write_file dev (Some full) data 0 0.
Definition k64_fs_write_file (path text : list Z) : M st unit := k64_fs_write_file_raw path text.

(** [memcpy] of at most [size] bytes from [offset]. *)
Definition range (data : list Z) (offset size : Z) : list Z := take (Z.to_nat size) (drop (Z.to_nat offset) data).
(** A regular file that fits the buffer, as a whole. *)
Definition read_whole (full : list Z) (st : k64_fs_stat_t) : M _ (list Z) :=
  check (negb (st_is_dir st) && (st_size st <=? K64_ROOTFS_RAW_MAX)) ;;
  data ← k64_xfs_read_file dev (Some full) (st_size st);
  check (Z.of_nat (length data) =? st_size st) ;;
  mret data.
Definition k64_fs_read_file_range (path : list Z) (offset size : Z) : M st (list Z) :=
  full ← full_path path;
  match fs_pseudo_read_all full with
  | Some data => mret (range data offset size)
  | None =>
      st ← k64_xfs_stat dev (Some full);
      data ← read_whole full st;
      mret (range data offset size)
  end.

(** [memset] and the old bytes: [size] bytes of the buffer. *)
Definition zero_padded (size : Z) (data : list Z) : list Z := splice (zeros (Z.to_nat size)) 0 data.
Definition k64_fs_write_file_range (path : list Z) (offset : Z) (data : list Z) : M st unit :=
  full ← full_path path;
  let size := Z.of_nat (length data) in
  found ← try (k64_xfs_stat dev (Some full));
  match found with
  | None => check (offset =? 0) ;; k64_xfs_write_file dev (Some full) data 0 0
  | Some st =>
      check (negb (st_is_dir st) && (st_size st <=? K64_ROOTFS_RAW_MAX) && (offset <=? K64_ROOTFS_RAW_MAX) && (size <=? K64_ROOTFS_RAW_MAX)) ;;
      let new_size := Z.max (st_size st) (offset + size) in
      check (new_size <=? K64_ROOTFS_RAW_MAX) ;;
      old ← (if st_size st =? 0 then mret [] else
             old ← k64_xfs_read_file dev (Some full) (st_size st);
             check (Z.of_nat (length old) =? st_size st) ;;
             mret old);
      k64_xfs_write_file dev (Some full) (splice (zero_padded new_size old) (Z.to_nat offset) data) (st_uid st) (st_gid st)
  end.

Definition k64_fs_append_file (path text : list Z) : M st unit :=
  full ← full_path path;
  found ← try (k64_xfs_stat dev (Some full));
  match found with
  | None => k64_fs_write_file path text
  | Some st => k64_fs_write_file_range full (st_size st) text
  end.

Definition k64_fs_truncate (path : list Z) (size : Z) : M st unit :=
  full ← full_path path;
  st ← k64_xfs_stat dev (Some full);
  check (negb (st_is_dir st) && (size <=? K64_ROOTFS_RAW_MAX) && (st_size st <=? K64_ROOTFS_RAW_MAX)) ;;
  old ← (if st_size st =? 0 then mret [] else k64_xfs_read_file dev (Some full) (Z.min (st_size st) size));
  k64_xfs_write_file dev (Some full) (zero_padded size old) (st_uid st) (st_gid st).

Definition k64_fs_chmod (path : list Z) (mode : Z) : M st unit := full ← full_path path; k64_xfs_chmod dev (Some full) mode.
Definition k64_fs_chown (path : list Z) (uid gid : Z) : M st unit := full ← full_path path; k64_xfs_chown dev (Some full) uid gid.
Definition k64_fs_remove (path : list Z) : M st unit := full ← full_path path; k64_xfs_remove dev (Some full).
Definition k64_fs_rmdir (path : list Z) : M st unit := full ← full_path path; k64_xfs_rmdir dev (Some full).
Definition k64_fs_move (src_path dst_path : list Z) : M st unit :=
  src ← full_path src_path;
  dst ← full_path dst_path;
  k64_xfs_rename dev (Some src) (Some dst).
Definition k64_fs_copy (src_path dst_path : list Z) : M st unit :=
  src ← full_path src_path;
  dst ← full_path dst_path;
  st ← k64_xfs_stat dev (Some src);
  data ← read_whole src st;
  k64_xfs_write_file dev (Some dst) data (st_uid st) (st_gid st).

(** The text, without its final zero. *)
Definition k64_fs_cat (path : list Z) (out_size : Z) : M st (list Z) :=
  check (0 <? out_size) ;;
  k64_fs_read_file_range path 0 (out_size - 1).
Definition k64_fs_read_file_raw (path : list Z) : M st (list Z) :=
  full ← full_path path;
  st ← k64_xfs_stat dev (Some full);
  read_whole full st.
Definition k64_fs_stat (path : list Z) : M st k64_fs_stat_t :=
  full ← full_path (here path);
  if fs_is_pseudo_path full then need (fs_pseudo_stat full) else k64_xfs_stat dev (Some full).

Definition k64_fs_find_boot_kernel (out_size : Z) : M st (list Z) :=
  check (0 <? out_size) ;;
  listing ← k64_xfs_list_dir dev (Some (str "/boot")) 4096;
  match List.filter (fun n => fs_name_has_prefix n (str "k64-kernel-v") && fs_path_has_suffix n (str ".elf")) (listing_names (length listing) listing) with
  | n :: _ => mret (fs_copy out_size n)
  | [] => fail
  end.

Definition k64_fs_sync : M st unit := m ← get_fs; if mounted m then k64_xfs_sync dev else mret tt.
Definition k64_fs_used_bytes (s : st) : Z :=
  if mounted (fs s) then u64 ((s_total_blocks (super (fs s)) - s_free_blocks (super (fs s))) * K64_XFS_BLOCK_SIZE) else 0.
Definition k64_fs_capacity_bytes (s : st) : Z := if mounted (fs s) then u64 (s_total_blocks (super (fs s)) * K64_XFS_BLOCK_SIZE) else 0.
End fs.
