(* ===== verification/FsSpec.v ===== *)
(** * The path interface is correct

    Normalization of paths, and what the operations that read and write parts of
    files do to the content of a file. *)
From Stdlib Require Import ZArith Lia.
From stdpp Require Import base list.
From S2P Require Import Prelude Bitmap Exec KString XfsFormat XfsCrc Block Cache CacheSpec Journal JournalSpec XfsCore XfsSpec AllocSpec XfsDir DirSpec XfsOps FileSpec Fs.

(** ** Components *)
Definition plain (c : list Z) : Prop := c <> [] /\ Forall (fun x => x <> SLASH) c.

Lemma components_slash a b acc : components_aux (a ++ SLASH :: b) acc = components_aux a acc ++ components b.
Proof.
  revert acc. induction a as [|c a IH]; intros acc; cbn [app components_aux]; [by destruct acc|].
  destruct (c =? SLASH); [|apply IH]. destruct acc; [apply IH|]. cbn. by rewrite IH.
Qed.
Lemma components_app a b : components (a ++ SLASH :: b) = components a ++ components b.
Proof. apply components_slash. Qed.
Lemma components_one c acc : Forall (fun x => x <> SLASH) c -> components_aux c acc = match rev acc ++ c with [] => [] | t => [t] end.
Proof.
  intros H. revert acc. induction H as [|x c Hx _ IH]; intros acc; cbn [components_aux].
  - rewrite app_nil_r. destruct acc as [|a acc]; [done|]. cbn [rev]. destruct (rev acc ++ [a]) eqn:E; [by apply app_eq_nil in E as [_ ?]|done].
  - rewrite (proj2 (Z.eqb_neq _ _)) by done. rewrite IH. cbn [rev]. by rewrite <- app_assoc.
Qed.
Lemma components_plain c : plain c -> components c = [c].
Proof. intros [Hne Hc]. unfold components. rewrite components_one by done. by destruct c. Qed.
Lemma components_aux_plain p acc : Forall (fun x => x <> SLASH) acc -> Forall plain (components_aux p acc).
Proof.
  assert (Hrev : forall a l, Forall (fun x => x <> SLASH) (a :: l) -> plain (rev (a :: l))).
  { intros a l H. split; [intros E; apply (f_equal (@length Z)) in E; rewrite length_rev in E; done|]. by apply Forall_rev. }
  revert acc. induction p as [|c p IH]; intros acc H; cbn [components_aux].
  - destruct acc; [constructor|]. constructor; [by apply Hrev|constructor].
  - destruct (Z.eqb_spec c SLASH) as [->|Hc]; [destruct acc as [|a acc]; [by apply IH|constructor; [by apply Hrev|by apply IH]]|]. apply IH. by constructor.
Qed.

(** The path of components. *)
Definition render (cs : list (list Z)) : list Z := match cs with [] => [SLASH] | _ => concat (map (cons SLASH) cs) end.
(** What [..] leaves: a path that ends with a slash. *)
Definition render_open (cs : list (list Z)) : list Z := match cs with [] => [SLASH] | _ => render cs ++ [SLASH] end.

Lemma render_snoc cs c : cs <> [] -> render (cs ++ [c]) = render cs ++ SLASH :: c.
Proof. intros H. destruct cs as [|d cs]; [done|]. unfold render. cbn [app]. rewrite app_comm_cons, map_app, concat_app. cbn. by rewrite app_nil_r. Qed.
Lemma render_long cs : Forall plain cs -> cs <> [] -> (1 < length (render cs))%nat.
Proof. intros H Hne. destruct H as [|c cs [Hc _] _]; [done|]. destruct c; [done|]. cbn. lia. Qed.
Lemma components_render cs : Forall plain cs -> components (render cs) = cs.
Proof.
  intros H. destruct cs as [|c0 cs0]; [done|]. unfold render. revert H. generalize (c0 :: cs0). clear. intros cs. induction 1 as [|c cs Hc _ IH]; [done|]. cbn [map concat].
  assert (E : components (SLASH :: c ++ concat (map (cons SLASH) cs)) = components (c ++ concat (map (cons SLASH) cs))) by (apply (components_app [] _)). cbn [app]. rewrite E. clear E.
  destruct cs as [|d cs]; [cbn; rewrite app_nil_r; by apply components_plain|]. cbn [map concat app] in *. rewrite components_app, components_plain by done.
  assert (E : components (SLASH :: d ++ concat (map (cons SLASH) cs)) = components (d ++ concat (map (cons SLASH) cs))) by (apply (components_app [] _)). rewrite E in IH. by rewrite IH.
Qed.

(** ** Normalization, component by component *)
Definition enter (t out : list Z) : list Z := (if (1 <? length out)%nat then out ++ [SLASH] else out) ++ t.
Definition move1 (t out : list Z) : list Z := if is_path t (str ".") then out else if is_path t (str "..") then up out else enter t out.
Definition run (ts : list (list Z)) (out : list Z) : list Z := fold_left (fun out t => move1 t out) ts out.

Lemma back_to_slash_app l r : Forall (fun x => x <> SLASH) l -> back_to_slash (l ++ SLASH :: r) = SLASH :: r.
Proof.
  induction 1 as [|x l Hx _ IH]; cbn [app back_to_slash]; [by destruct r|]. destruct (l ++ SLASH :: r) eqn:E; [by destruct l|]. by rewrite (proj2 (Z.eqb_neq _ _)) by done.
Qed.
Lemma up_last x c : Forall (fun y => y <> SLASH) c -> c <> [] -> up (x ++ SLASH :: c) = x ++ [SLASH].
Proof.
  intros Hc Hne. unfold up. rewrite (proj2 (Nat.ltb_lt _ _)) by (rewrite length_app; destruct c; [done|cbn; lia]). rewrite rev_app_distr. cbn [rev].
  apply Forall_rev in Hc. destruct (rev c) as [|y l] eqn:E; [by apply (f_equal (@rev Z)) in E; rewrite rev_involutive in E|]. apply Forall_cons in Hc as [_ Hl]. rewrite <- app_assoc. cbn [app tail].
  rewrite back_to_slash_app by done. cbn [rev]. by rewrite rev_involutive.
Qed.
Lemma up_open x c : Forall (fun y => y <> SLASH) c -> up (x ++ SLASH :: c ++ [SLASH]) = x ++ [SLASH].
Proof.
  intros Hc. unfold up. rewrite (proj2 (Nat.ltb_lt _ _)) by (rewrite length_app; cbn; rewrite length_app; cbn; lia). rewrite rev_app_distr. cbn [rev]. rewrite rev_app_distr. cbn [rev app tail].
  rewrite <- app_assoc. cbn [app]. rewrite back_to_slash_app by (by apply Forall_rev). cbn [rev]. by rewrite rev_involutive.
Qed.

Lemma up_render cs c : Forall plain (cs ++ [c]) -> up (render (cs ++ [c])) = render_open cs.
Proof.
  intros [_ [[Hne Hc] _]%Forall_cons]%Forall_app. destruct cs as [|d cs]; [cbn; rewrite app_nil_r; by apply (up_last [] c)|]. rewrite render_snoc by done. by apply up_last.
Qed.
Lemma up_render_open cs c : Forall plain (cs ++ [c]) -> up (render_open (cs ++ [c])) = render_open cs.
Proof.
  intros [_ [[Hne Hc] _]%Forall_cons]%Forall_app. assert (E : render_open (cs ++ [c]) = render (cs ++ [c]) ++ [SLASH]) by (by destruct cs). rewrite E.
  destruct cs as [|d cs]; [cbn; rewrite app_nil_r; by apply (up_open [] c)|]. rewrite render_snoc by done. rewrite <- app_assoc. by apply up_open.
Qed.

Definition good (t : list Z) : Prop := plain t /\ t <> str "." /\ t <> str "..".
Lemma move1_good t out : good t -> move1 t out = enter t out.
Proof. intros (_ & H1 & H2). unfold move1, is_path. by rewrite !bool_decide_eq_false_2. Qed.

Lemma run_ups_open k cs : Forall plain cs -> run (replicate k (str "..")) (render_open cs) = render_open (take (length cs - k) cs).
Proof.
  revert cs. induction k as [|k IH]; intros cs H; [by rewrite Nat.sub_0_r, firstn_all|]. cbn [replicate run fold_left]. change (move1 (str "..") (render_open cs)) with (up (render_open cs)).
  destruct cs as [|c cs _] using rev_ind; [apply (IH []); constructor|]. rewrite up_render_open by done. apply Forall_app in H as [H _]. etransitivity; [by apply (IH cs)|]. rewrite length_app. cbn [length].
  f_equal. rewrite take_app_le by lia. f_equal. lia.
Qed.
Lemma run_ups k cs : Forall plain cs -> (0 < k)%nat -> run (replicate k (str "..")) (render cs) = render_open (take (length cs - k) cs).
Proof.
  intros H Hk. destruct k as [|k]; [lia|]. cbn [replicate run fold_left]. change (move1 (str "..") (render cs)) with (up (render cs)).
  destruct cs as [|c cs _] using rev_ind; [apply (run_ups_open k []); constructor|]. rewrite up_render by done. apply Forall_app in H as [H _]. etransitivity; [by apply (run_ups_open k cs)|]. rewrite length_app. cbn [length].
  f_equal. rewrite take_app_le by lia. f_equal. lia.
Qed.

(** Names behind a path that ends with the path of [cs]. *)
Lemma run_names x names : forall cs, Forall plain cs -> Forall good names -> (cs <> [] \/ x = []) -> run names (x ++ render cs) = x ++ render (cs ++ names).
Proof.
  induction names as [|t names IH]; intros cs Hcs Hn Hx; [by rewrite app_nil_r|]. apply Forall_cons in Hn as [Ht Hn]. cbn [run fold_left]. rewrite move1_good by done.
  assert (Hcs' : Forall plain (cs ++ [t])) by (apply Forall_app; split; [done|constructor; [apply Ht|constructor]]).
  replace (enter t (x ++ render cs)) with (x ++ render (cs ++ [t])).
  { etransitivity; [apply IH; [done..|left; by destruct cs]|]. by rewrite <- app_assoc. }
  unfold enter. destruct cs as [|c cs].
  - destruct Hx as [?| ->]; [done|]. cbn. by rewrite app_nil_r.
  - pose proof (render_long (c :: cs) Hcs ltac:(done)). rewrite (proj2 (Nat.ltb_lt _ _)) by (rewrite length_app; lia). rewrite render_snoc by done. by rewrite <- !app_assoc.
Qed.
Lemma run_names_open cs names : Forall plain cs -> Forall good names -> components (run names (render_open cs)) = cs ++ names.
Proof.
  intros Hcs Hn. assert (Hn' : Forall plain names) by (eapply Forall_impl; [exact Hn|by intros t [? _]]). destruct cs as [|c cs].
  - etransitivity; [apply f_equal, (run_names [] names []); [constructor|done|by right]|]. by apply components_render.
  - destruct names as [|t names]; [cbn [run fold_left render_open]; rewrite components_app, app_nil_r, components_render by done; by rewrite app_nil_r|].
    apply Forall_cons in Hn as [Ht Hn]. cbn [run fold_left]. rewrite move1_good by done.
    assert (E : enter t (render_open (c :: cs)) = (render (c :: cs) ++ [SLASH]) ++ render [t]).
    { unfold enter, render_open. pose proof (render_long (c :: cs) Hcs ltac:(done)). rewrite (proj2 (Nat.ltb_lt _ _)) by (rewrite length_app; lia). cbn [render map concat]. rewrite <- !app_assoc. cbn. by rewrite app_nil_r. }
    rewrite E. etransitivity; [apply f_equal, run_names; [constructor; [apply Ht|constructor]|done|by left]|]. cbn [app]. rewrite <- app_assoc. cbn [app]. rewrite components_app, !components_render by done. done.
Qed.

(** ** The loop *)
Definition starts_slash (p : list Z) : Prop := p = [] \/ exists q, p = SLASH :: q.
Lemma take_token_rest p n token rest : take_token p n = Some (token, rest) -> starts_slash rest.
Proof.
  revert n token. induction p as [|c p IH]; intros n token H; cbn [take_token] in H; [injection H as _ <-; by left|].
  destruct (Z.eqb_spec c SLASH) as [->|]; [injection H as _ <-; right; by eexists|]. destruct (_ <=? _); [done|]. destruct (take_token p (n + 1)) as [[t r]|] eqn:E; [|done]. injection H as _ <-. by eapply IH.
Qed.
Lemma skip_slashes_shorter p : starts_slash p -> p <> [] -> (length (skip_slashes p) < length p)%nat.
Proof.
  intros [->|[q ->]] Hne; [done|]. cbn [skip_slashes length]. change (SLASH =? SLASH) with true. cbv iota. clear. induction q as [|c q IH]; cbn [skip_slashes length]; [lia|]. destruct (c =? SLASH); cbn [length]; lia.
Qed.
Lemma back_to_slash_length r : (length (back_to_slash r) <= length r)%nat /\ (r <> [] -> back_to_slash r <> []).
Proof.
  induction r as [|c [|d r] [IH1 IH2]]; [done|cbn; split; [lia|done]|]. change (back_to_slash (c :: d :: r)) with (if c =? SLASH then c :: d :: r else back_to_slash (d :: r)).
  destruct (c =? SLASH); [done|]. split; [cbn [length] in *; lia|]. intros _. by apply IH2.
Qed.
Lemma up_length out : out <> [] -> up out <> [] /\ (up out = out \/ (length (up out) < length out)%nat).
Proof.
  intros Hne. unfold up. destruct (Nat.ltb_spec 1 (length out)) as [H|H]; [|by split; [|left]]. destruct (back_to_slash_length (tail (rev out))) as [H1 H2].
  assert (Ht : length (tail (rev out)) = (length out - 1)%nat) by (rewrite <- (length_rev out); destruct (rev out); cbn; lia). rewrite Ht in H1. split.
  - intros E. apply (f_equal (@rev Z)) in E. rewrite rev_involutive in E. apply H2 in E; [done|]. intros E'. rewrite E' in Ht. cbn in Ht. lia.
  - right. rewrite length_rev. lia.
Qed.

(** The output fits. *)
Definition fits (p out : list Z) : Prop := (length p <= 255)%nat /\ out <> [] /\ ((length out <= 1)%nat \/ (length out + length p <= 255)%nat).
Lemma fits_down token rest p out : fits p out -> token <> [] -> (length token + length rest < length p)%nat -> down FULL_MAX token out = Some (enter token out) /\ fits rest (enter token out).
Proof.
  intros (H1 & H2 & H3) Hne Hl. assert (0 < length token)%nat by (destruct token; [done|cbn; lia]). assert (0 < length out)%nat by (destruct out; [done|cbn; lia]). unfold down, enter, FULL_MAX, fits.
  destruct (Nat.ltb_spec 1 (length out)).
  - cbn [andb]. rewrite (proj2 (Z.leb_gt _ _)) by lia. rewrite (proj2 (Z.leb_gt _ _)) by (rewrite length_app; cbn [length]; lia). split; [done|]. rewrite !length_app. cbn [length].
    split_and!; [lia|by destruct out|lia].
  - cbn [andb]. rewrite (proj2 (Z.leb_gt _ _)) by lia. split; [done|]. rewrite !length_app. split_and!; [lia|by destruct out|lia].
Qed.
Lemma fits_up rest p out : fits p out -> (length rest <= length p)%nat -> fits rest (up out).
Proof. intros (H1 & H2 & H3) Hl. destruct (up_length out H2) as [Hu [->|Hu']]; split_and!; try done; lia. Qed.

Lemma normalize_run fuel : forall p out, (length p <= fuel)%nat -> starts_slash p -> fits p out -> Forall (fun c => Z.of_nat (length c) < K64_XFS_NAME_MAX) (components p) ->
  normalize_loop fuel FULL_MAX p out = Some (run (components p) out).
Proof.
  induction fuel as [|fuel IH]; intros p out Hf Hs Hfit Hc; [by destruct p; [|cbn in Hf; lia]|]. destruct p as [|c0 p0]; [done|]. set (p := c0 :: p0) in *.
  pose proof (skip_slashes_shorter p Hs ltac:(done)) as Hsk. change (normalize_loop (S fuel) FULL_MAX p out) with
    ('(token, rest) ← take_token (skip_slashes p) 0; if none token || is_path token (str ".") then normalize_loop fuel FULL_MAX rest out
      else if is_path token (str "..") then normalize_loop fuel FULL_MAX rest (up out) else out ← down FULL_MAX token out; normalize_loop fuel FULL_MAX rest out).
  unfold components in *. rewrite components_aux_skip in *. destruct (take_token (skip_slashes p) 0) as [[token rest]|] eqn:Ht.
  2: { exfalso. apply (take_token_None _ _ []) in Ht as (c' & cs & E & Hl); [|done]. rewrite E in Hc. apply Forall_inv in Hc. lia. }
  cbn [mbind option_bind]. pose proof (take_token_rest _ _ _ _ Ht) as Hrest. destruct (skip_slashes p) as [|d q] eqn:Esk.
  { injection Ht as <- <-. cbn [none orb]. destruct fuel; done. }
  assert (Htok : token <> []) by (rewrite <- Esk in Ht; eapply take_token_nonempty; [exact Ht|congruence]). rewrite (components_aux_token _ _ _ _ [] Ht) in * by done. cbn [rev app] in *.
  apply Forall_cons in Hc as [_ Hc]. apply take_token_shape in Ht as [[Hsh _]|[? _]]; [|done..]. rewrite Hsh, length_app in Hsk. change (run (token :: components_aux rest []) out) with (run (components rest) (move1 token out)). unfold move1.
  destruct token as [|x token]; [done|]. cbn [none orb]. set (t := x :: token) in *. pose proof Hfit as (Hp & _ & _).
  destruct (is_path t (str ".")); [apply IH; try done; [lia|destruct Hfit as (? & ? & ?); split_and!; [lia|done|lia]]|].
  destruct (is_path t (str "..")); [apply IH; try done; [lia|apply (fits_up rest p); [done|lia]]|].
  destruct (fits_down t rest p out Hfit ltac:(done) Hsk) as [-> Hfit']. cbn [mbind option_bind]. apply IH; [lia|done..].
Qed.

Lemma run_dots ts out : run ts out = run (List.filter (fun t => negb (is_path t (str "."))) ts) out.
Proof. revert out. induction ts as [|t ts IH]; intros out; [done|]. cbn [List.filter run fold_left]. unfold move1 at 2. destruct (is_path t (str ".")) eqn:E; cbn [negb]; [apply IH|]. cbn [run fold_left]. unfold move1 at 3. rewrite E. apply IH. Qed.

Lemma absolute_shape cwd path : nth 0 cwd 0 = SLASH -> (length (absolute cwd path) <= 255)%nat /\ exists q, absolute cwd path = SLASH :: q.
Proof.
  intros Hc. unfold absolute. destruct cwd as [|d cwd]; [done|]. cbn in Hc. subst d. set (p := if none path then _ else _).
  assert (HA : forall dst src, (length dst <= 255)%nat -> (length (fs_append 256 dst src) <= 255)%nat) by (intros dst src H; unfold fs_append; rewrite length_app, length_take; lia).
  assert (HT : (length (fs_copy 256 (SLASH :: cwd)) <= 255)%nat) by (unfold fs_copy; rewrite length_take; lia).
  assert (HE : exists q, fs_copy 256 (SLASH :: cwd) = SLASH :: q) by (unfold fs_copy; change (Z.to_nat (256 - 1)) with (S 254); cbn [take firstn]; by eexists). destruct HE as [q HE].
  assert (HS : forall q r, exists q', fs_append 256 (SLASH :: q) r = SLASH :: q') by (intros; eexists; reflexivity).
  assert (HR : forall r, let tmp := if is_path (fs_copy 256 (SLASH :: cwd)) (str "/") then fs_copy 256 (SLASH :: cwd) else fs_append 256 (fs_copy 256 (SLASH :: cwd)) (str "/") in
    (length (fs_append 256 tmp r) <= 255)%nat /\ exists q, fs_append 256 tmp r = SLASH :: q).
  { intros r tmp. split; [apply HA; unfold tmp; destruct (is_path _ _); [done|by apply HA]|]. unfold tmp. clear tmp. rewrite HE. destruct (is_path (SLASH :: q) (str "/")); [apply HS|]. destruct (HS q (str "/")) as [q' ->]. apply HS. }
  destruct (Z.eqb_spec (nth 0 p 0) SLASH) as [E|_]; [|apply HR]. unfold fs_copy. rewrite length_take. split; [lia|]. destruct p as [|c p']; [done|]. cbn in E. subst c.
  change (Z.to_nat (256 - 1)) with (S 254). cbn [take firstn]. by eexists.
Qed.

Lemma back_to_slash_suffix r : exists l, r = l ++ back_to_slash r.
Proof.
  induction r as [|c [|d r] [l IH]]; [by exists []|by exists []|]. change (back_to_slash (c :: d :: r)) with (if c =? SLASH then c :: d :: r else back_to_slash (d :: r)).
  destruct (c =? SLASH); [by exists []|]. exists (c :: l). cbn [app]. by rewrite <- IH.
Qed.
Lemma up_head out : nth 0 out 0 = SLASH -> nth 0 (up out) 0 = SLASH.
Proof.
  intros H. destruct out as [|c out]; [done|]. destruct (up_length (c :: out) ltac:(done)) as [Hne _]. unfold up in *. destruct (Nat.ltb_spec 1 (length (c :: out))) as [Hl|]; [|done].
  destruct (rev (c :: out)) as [|y r] eqn:Er; [done|]. cbn [tail] in *. destruct (back_to_slash_suffix r) as [l Hr]. apply (f_equal (@rev Z)) in Er. rewrite rev_involutive in Er. cbn [rev] in Er.
  rewrite Hr, rev_app_distr in Er. destruct (rev (back_to_slash r)) as [|z w]; [done|]. cbn in Er. by injection Er as <- _.
Qed.
Lemma run_head ts out : nth 0 out 0 = SLASH -> nth 0 (run ts out) 0 = SLASH.
Proof.
  revert out. induction ts as [|t ts IH]; intros out H; [done|]. cbn [run fold_left]. apply IH. unfold move1. destruct (is_path t (str ".")); [done|]. destruct (is_path t (str "..")); [by apply up_head|].
  unfold enter. destruct out as [|c out]; [done|]. by destruct (_ <? _)%nat.
Qed.

(** Normalization in terms of the absolute path the code builds. *)
Lemma normalize_absolute cwd path names k rest : nth 0 cwd 0 = SLASH ->
  Forall (fun c => Z.of_nat (length c) < K64_XFS_NAME_MAX) (components (absolute cwd path)) ->
  List.filter (fun t => negb (is_path t (str "."))) (components (absolute cwd path)) = names ++ replicate k (str "..") ++ rest ->
  str ".." ∉ names -> str ".." ∉ rest ->
  exists out, fs_normalize cwd path FULL_MAX = Some out /\ nth 0 out 0 = SLASH /\ components out = take (length names - k) names ++ rest /\ (k = 0%nat -> out = render (names ++ rest)).
Proof.
  intros Hcwd Hlen Hcs Hn Hr. destruct (absolute_shape cwd path Hcwd) as [Hl [q Hq]].
  assert (HG : Forall (fun t => plain t /\ t <> str ".") (names ++ replicate k (str "..") ++ rest)).
  { rewrite <- Hcs. apply Forall_forall. intros t Ht. rewrite list_elem_of_In in Ht. apply filter_In in Ht as [Ht Hd]. split.
    - apply (proj1 (Forall_forall _ _) (components_aux_plain (absolute cwd path) [] ltac:(constructor))). by apply list_elem_of_In.
    - unfold is_path in Hd. by destruct (bool_decide_reflect (t = str ".")). }
  apply Forall_app in HG as [HGn [_ HGr]%Forall_app].
  assert (Hgood : forall l, Forall (fun t => plain t /\ t <> str ".") l -> str ".." ∉ l -> Forall good l).
  { intros l H Hl'. apply Forall_forall. intros t Ht. destruct (proj1 (Forall_forall _ _) H t Ht). split_and!; try done. by intros ->. }
  pose proof (Hgood _ HGn Hn) as Gn. pose proof (Hgood _ HGr Hr) as Gr. assert (Pn : Forall plain names) by (eapply Forall_impl; [exact Gn|by intros t [? _]]).
  assert (Pr : Forall plain rest) by (eapply Forall_impl; [exact Gr|by intros t [? _]]).
  assert (E : fs_normalize cwd path FULL_MAX = Some (run (components (absolute cwd path)) [SLASH])).
  { unfold fs_normalize. apply normalize_run; [lia|right; by exists q|split_and!; [done|done|left; cbn; lia]|done]. }
  rewrite run_dots, Hcs in E. unfold run in E. rewrite !fold_left_app in E. fold (run names [SLASH]) in E.
  assert (E1 : run names [SLASH] = render names) by (apply (run_names [] names []); [constructor|done|by right]). rewrite E1 in E.
  eexists. split; [exact E|]. split; [rewrite <- E1; change (nth 0 (run rest (run (replicate k (str "..")) (run names [SLASH]))) 0 = SLASH); do 3 apply run_head; done|].
  destruct k as [|k].
  - cbn [replicate fold_left]. rewrite Nat.sub_0_r, firstn_all. assert (E2 : run rest (render names) = render (names ++ rest)) by (apply (run_names [] rest names); [done|done|by right]).
    unfold run in E2. rewrite E2. split; [|done]. apply components_render. by apply Forall_app.
  - fold (run (replicate (S k) (str "..")) (render names)). rewrite run_ups by (done || lia). split; [|done]. apply run_names_open; [by apply Forall_take|done].
Qed.

(** *** The path as it is written *)
Definition no_dots (cs : list (list Z)) : list (list Z) := List.filter (fun t => negb (is_path t (str "."))) cs.

(** The components a path stands for: its own, behind those of the current
    directory when it does not start with a slash. *)
Definition named (cwd path : list Z) : list (list Z) :=
  (if nth 0 path 0 =? SLASH then [] else components cwd) ++ components path.
(** The path, behind the current directory when it is relative, has at most 255
    characters. *)
Definition path_fits (cwd path : list Z) : Prop :=
  if nth 0 path 0 =? SLASH then (length path <= 255)%nat else (length cwd + 1 + length path <= 255)%nat.

Lemma fs_copy_fits l : (length l <= 255)%nat -> fs_copy 256 l = l.
Proof. intros H. unfold fs_copy. change (Z.to_nat (256 - 1)) with 255%nat. by apply take_ge. Qed.
Lemma fs_append_fits a b : (length a + length b <= 255)%nat -> fs_append 256 a b = a ++ b.
Proof. intros H. unfold fs_append. f_equal. apply take_ge. lia. Qed.
Lemma no_dots_app a b : no_dots (a ++ b) = no_dots a ++ no_dots b.
Proof. unfold no_dots. apply List.filter_app. Qed.
Lemma components_lead p : components (SLASH :: p) = components p.
Proof. apply (components_app [] p). Qed.

Lemma absolute_named cwd path : nth 0 cwd 0 = SLASH -> path_fits cwd path -> path <> [] ->
  components (absolute cwd path) = named cwd path.
Proof.
  intros Hc Hf Hne. unfold absolute, named, path_fits in *. replace (none path) with false by (by destruct path). cbv zeta.
  destruct (nth 0 path 0 =? SLASH); [by rewrite fs_copy_fits|]. rewrite fs_copy_fits by lia.
  destruct (bool_decide_reflect (cwd = str "/")) as [->|Hd].
  - change (is_path (str "/") (str "/")) with true. cbv iota. rewrite fs_append_fits by (cbn in *; lia). apply components_lead.
  - unfold is_path. rewrite bool_decide_eq_false_2 by done. rewrite (fs_append_fits cwd) by (cbn; lia).
    rewrite fs_append_fits by (rewrite length_app; cbn; lia). rewrite <- app_assoc. cbn. apply components_app.
Qed.

Lemma absolute_empty cwd : (length cwd <= 254)%nat -> exists cs, no_dots cs = [] /\ components (absolute cwd []) = components cwd ++ cs /\ Forall (fun c => Z.of_nat (length c) < K64_XFS_NAME_MAX) cs.
Proof.
  intros Hl. unfold absolute. cbn [none]. cbv zeta. change (nth 0 (str ".") 0 =? SLASH) with false. cbv iota. rewrite fs_copy_fits by lia.
  assert (HD : forall n, no_dots (components (take n (str "."))) = [] /\ Forall (fun c => Z.of_nat (length c) < K64_XFS_NAME_MAX) (components (take n (str ".")))).
  { intros [|[|n]]; (split; [done|]); cbn; repeat constructor. }
  destruct (bool_decide_reflect (cwd = str "/")) as [->|Hd].
  - exists (components (str ".")). split_and!; [done|done|by apply (HD 1%nat)].
  - unfold is_path. rewrite bool_decide_eq_false_2 by done. rewrite (fs_append_fits cwd) by (cbn; lia). unfold fs_append.
    eexists. rewrite <- app_assoc. cbn [str app]. split_and!; [|apply (components_app cwd)|]; apply HD.
Qed.

Lemma named_empty cwd : named cwd [] = components cwd.
Proof. unfold named. cbn. by rewrite app_nil_r. Qed.

(** C38: normalization of paths.  Of a path that starts with a slash take its
    components, of another one those of the current directory and then its own, and
    leave out every [.]: they are names, then a number of [..], then names.  When the
    path, behind the current directory if it is relative, has at most 255 characters
    and no component has 128 or more, the result is an absolute path whose components
    are the first names without as many of the last of them as there are [..], and
    the last names; without [..] it is the path of the names with single slashes. *)
Theorem fs_normalize_spec cwd path names k rest : nth 0 cwd 0 = SLASH -> path_fits cwd path ->
  Forall (fun c => Z.of_nat (length c) < K64_XFS_NAME_MAX) (named cwd path) ->
  no_dots (named cwd path) = names ++ replicate k (str "..") ++ rest ->
  str ".." ∉ names -> str ".." ∉ rest ->
  exists out, fs_normalize cwd path FULL_MAX = Some out /\ nth 0 out 0 = SLASH /\ components out = take (length names - k) names ++ rest /\ (k = 0%nat -> out = render (names ++ rest)).
Proof.
  intros Hcwd Hfit Hlen Hcs Hn Hr. apply normalize_absolute; [done| | |done|done].
  - destruct path as [|c path]; [|by rewrite absolute_named].
    destruct (absolute_empty cwd) as (cs & _ & -> & H); [cbn in Hfit; lia|]. rewrite named_empty in Hlen. by apply Forall_app.
  - fold (no_dots (components (absolute cwd path))). rewrite <- Hcs. destruct path as [|c path]; [|by rewrite absolute_named].
    destruct (absolute_empty cwd) as (cs & Hd & -> & _); [cbn in Hfit; lia|]. by rewrite named_empty, no_dots_app, Hd, app_nil_r.
Qed.

(** ** Parts of files *)
Section files.
Context {W : Type} (dev : k64_block_device_t W) `{!BlockDriver dev} (D : device_ok dev).
Abbreviation st := (xstate W).
Abbreviation fview := (fview dev).
Abbreviation fs_ok := (fs_ok dev).
Abbreviation quiet := (quiet dev).
Abbreviation ready := (ready dev).
Abbreviation written := (written dev).
Implicit Types s : st.

Lemma quiet_lookup s s' id : quiet s s' -> layout_ok (super (fs s)) -> inode_lookup (fview s') (super (fs s')) id = inode_lookup (fview s) (super (fs s)) id.
Proof. intros Q L. rewrite (quiet_super _ _ _ Q). apply inode_at_same; [apply Q|done]. Qed.
Lemma quiet_resolve s s' path : quiet s s' -> layout_ok (super (fs s)) -> tree_ok (fview s) (super (fs s)) ->
  resolve_path (fview s') (super (fs s')) path = resolve_path (fview s) (super (fs s)) path.
Proof.
  intros Q L T. unfold resolve_path. rewrite (quiet_lookup s s') by done. rewrite (quiet_super _ _ _ Q). destruct (_ =? _); [|done].
  destruct (inode_lookup (fview s) (super (fs s)) (s_root_inode (super (fs s)))) as [r|] eqn:Hr; [|done]. cbn [mbind option_bind]. apply walk_same; [apply Q|done|done|by eapply T].
Qed.
Lemma quiet_ready s s' : quiet s s' -> ready s -> ready s'.
Proof.
  intros Q [F L So T Hio Ha Hj Hf]. pose proof (quiet_super _ _ _ Q) as E. split; rewrite ?E; try done.
  - apply Q.
  - intros id i Hi. rewrite <- E in Hi. rewrite (quiet_lookup s s') in Hi by done. by eapply T.
  - intros H. apply Hio. by eapply io_error_quiet.
  - rewrite (kp_active _ _ (qt_keeps _ _ _ Q)). done.
Qed.
Lemma quiet_bitmap s s' : quiet s s' -> ready s -> fview s' (s_block_bitmap_start (super (fs s))) = fview s (s_block_bitmap_start (super (fs s))).
Proof. intros Q R. pose proof (rd_layout _ _ R) as L. apply Q. apply layout_home; [done|]. destruct L. left. lia. Qed.
Lemma quiet_written s s1 id i bytes uid gid s' : quiet s s1 -> ready s -> written s1 id i bytes uid gid s' -> written s id i bytes uid gid s'.
Proof.
  intros Q R [Hi Ho Hb Hok Hl Hc]. pose proof (rd_layout _ _ R) as L. pose proof (quiet_super _ _ _ Q) as E. rewrite E in *. split; try done.
  - intros id' Hne. rewrite Ho by done. pose proof (quiet_lookup s s1 id' Q L) as H. by rewrite E in H.
  - intros b Hh H0 H1 H2 Hu Hcov. rewrite Hb; [by apply Q|by eapply quiet_home|done..|by rewrite quiet_bitmap|done].
Qed.

Lemma file_content_length s i : fs_ok s -> 0 <= i_size i -> i_size i + 4095 <= UINT64_MAX -> Z.of_nat (length (content (fview s) i)) = i_size i.
Proof.
  intros F H0 H1. destruct (blocks_of_spec (i_size i) H0 H1) as [Hb Hs]. unfold content. rewrite length_take, all_blocks_length by (intros b; by apply logical_block_length).
  change BLOCK with 4096%nat. lia.
Qed.
Lemma file_content_ok s i : fs_ok s -> bytes_ok (content (fview s) i).
Proof.
  intros F. unfold content, all_blocks. apply Forall_take. apply Forall_concat, List.Forall_map, Forall_forall. intros k _. by apply logical_block_ok.
Qed.

(** What [k64_xfs_stat] says of an inode. *)
Definition stat_of (i : k64_xfs_inode_disk_t) (full : list Z) : k64_fs_stat_t :=
  mk_stat true (i_type i =? K64_XFS_TYPE_DIRECTORY) (i_size i) (i_mode i) (i_uid i) (i_gid i) (i_created_tick i) (i_modified_tick i) (i_generation i) (xfs_copy 256 (Some full)).

(** The regular file at a path, of a size the buffers hold. *)
Record file_at (s : st) (full : list Z) (id : Z) (i : k64_xfs_inode_disk_t) : Prop := {
  fa_ready : ready s;
  fa_root : 0 <= s_root_inode (super (fs s));
  fa_path : no_nul full;
  fa_resolve : resolve_path (fview s) (super (fs s)) full = Some (id, i);
  fa_type : i_type i = K64_XFS_TYPE_REGULAR;
  fa_extents : Forall (extent_in_data (super (fs s))) (live_extents i);
  fa_size : i_size i <= K64_ROOTFS_RAW_MAX
}.
Lemma file_at_quiet s s' full id i : quiet s s' -> file_at s full id i -> file_at s' full id i /\ content (fview s') i = content (fview s) i.
Proof.
  intros Q [R Hr Hp He Ht Hx Hs]. pose proof R as [_ L _ T _ _ _ _]. pose proof (quiet_super _ _ _ Q) as E. split.
  - split; rewrite ?E; try done; [by eapply quiet_ready|]. pose proof (quiet_resolve s s' full Q L T) as H. rewrite E in H. by rewrite H.
  - unfold content. f_equal. apply all_blocks_same; [apply Q|done|]. eapply T. by eapply resolve_path_inode.
Qed.
Lemma file_at_inode s full id i : file_at s full id i -> inode_ok i /\ full <> [].
Proof.
  intros [R _ _ He _ _ _]. pose proof R as [F L _ _ _ _ _ _]. split; [by destruct (inode_lookup_wf dev D s id i F L (resolve_path_inode _ _ _ _ _ He)) as (_ & ? & _)|]. intros ->. done.
Qed.

Lemma file_at_length s full id i : file_at s full id i -> 0 <= i_size i /\ Z.of_nat (length (content (fview s) i)) = i_size i.
Proof.
  intros A. destruct (file_at_inode _ _ _ _ A) as [Hi _]. assert (0 <= i_size i) by apply Hi. pose proof (fa_size _ _ _ _ A). split; [done|].
  apply file_content_length; [apply A|done|unfold K64_ROOTFS_RAW_MAX, UINT64_MAX in *; lia].
Qed.

Lemma stat_spec s full id i : file_at s full id i -> wp (k64_xfs_stat dev (Some full)) (fun d s' => d = stat_of i full /\ quiet s s') (fun _ => False) s.
Proof.
  intros A. pose proof A as [R Hr Hp He _ _ _]. pose proof R as [F L _ T Hio _ _ _]. destruct (file_at_inode _ _ _ _ A) as [_ Hne]. unfold k64_xfs_stat. assert (Hpr : path_or_root (Some full) = full) by (by destruct full). rewrite Hpr.
  apply wp_bind. eapply wp_mono; [by apply (xfs_resolve_spec dev D)| |].
  - intros [id' i'] s' [Hres Q]. rewrite He in Hres. injection Hres as <- <-. apply wp_ret. by split.
  - intros s' [_ [H|H]]; [congruence|done].
Qed.
Lemma read_spec s full id i max : file_at s full id i -> 0 <= max -> wp (k64_xfs_read_file dev (Some full) max) (fun out s' => out = take (Z.to_nat max) (content (fview s) i) /\ quiet s s') (fun _ => False) s.
Proof.
  intros [R Hr Hp He Ht _ Hs] Hm. pose proof R as [F L _ T Hio _ _ _]. eapply wp_mono; [apply (k64_xfs_read_file_spec dev D s full id i max); try done|done|].
  - unfold K64_ROOTFS_RAW_MAX, UINT64_MAX in *. lia.
  - intros s' [_ [H|H]]; done.
Qed.

(** Why a write of [n] bytes to the file can fail: no room, even with the blocks
    of the file given back. *)
Definition no_room (s : st) (i : k64_xfs_inode_disk_t) (n : Z) (s' : st) : Prop :=
  fs_ok s' /\ no_space (super (fs s)) (fview s (s_block_bitmap_start (super (fs s)))) (live_extents i) (blocks_of n).

Lemma write_spec s0 s full id i bytes : file_at s0 full id i -> quiet s0 s -> bytes_ok bytes -> Z.of_nat (length bytes) <= K64_ROOTFS_RAW_MAX ->
  wp (k64_xfs_write_file dev (Some full) bytes (i_uid i) (i_gid i)) (fun _ s' => written s0 id i bytes (i_uid i) (i_gid i) s') (no_room s0 i (Z.of_nat (length bytes))) s.
Proof.
  intros A Q Hb Hl. destruct (file_at_quiet _ _ _ _ _ Q A) as [[R Hr Hp He Ht Hx _] _]. destruct (file_at_inode _ _ _ _ A) as [Hi _]. pose proof (fa_ready _ _ _ _ A) as R0.
  eapply wp_mono; [apply (k64_xfs_write_file_spec dev D s full id i bytes); try done; [unfold K64_ROOTFS_RAW_MAX, UINT32_MAX in *; lia|apply Hi|apply Hi]| |].
  - intros ? s' Hw. by eapply quiet_written.
  - intros s' [F Hn]. split; [done|]. rewrite (quiet_super _ _ _ Q) in Hn. by rewrite <- (quiet_bitmap s0 s).
Qed.

(** The bytes of the file after a write of [data] at [off]: zero where there were
    none. *)
Definition overwritten (old : list Z) (off : Z) (data : list Z) : list Z :=
  splice (old ++ zeros (Z.to_nat (off + Z.of_nat (length data)) - length old)) (Z.to_nat off) data.

Lemma zero_padded_app size old : Z.of_nat (length old) <= size -> zero_padded size old = old ++ zeros (Z.to_nat size - length old).
Proof. intros H. unfold zero_padded, splice. cbn [take firstn app Nat.add]. by rewrite drop_zeros. Qed.

Lemma write_range_spec s cwd path full id i off data : fs_normalize cwd path FULL_MAX = Some full -> file_at s full id i -> bytes_ok data ->
  0 <= off -> off + Z.of_nat (length data) <= K64_ROOTFS_RAW_MAX ->
  let bytes := overwritten (content (fview s) i) off data in
  wp (k64_fs_write_file_range dev cwd path off data) (fun _ s' => written s id i bytes (i_uid i) (i_gid i) s') (no_room s i (Z.of_nat (length bytes))) s.
Proof.
  intros Hfull A Hd Hoff Hlen bytes. pose proof A as [R Hr Hp He Ht Hx Hs]. pose proof (rd_ok _ _ R) as F. destruct (file_at_length _ _ _ _ A) as [Hsz Hcl].
  unfold k64_fs_write_file_range, full_path. rewrite Hfull. cbn [need]. apply wp_bind, wp_ret. apply wp_bind, wp_try. eapply wp_mono; [by eapply stat_spec| |done].
  intros d s1 [-> Q1]. cbn [st_is_dir st_size st_uid st_gid stat_of]. rewrite Ht. change (K64_XFS_TYPE_REGULAR =? K64_XFS_TYPE_DIRECTORY) with false.
  rewrite !(proj2 (Z.leb_le _ _)) by lia. cbn [negb andb check]. apply wp_bind, wp_ret. apply wp_bind, wp_ret.
  set (new := Z.max (i_size i) (off + Z.of_nat (length data))).
  assert (Hread : wp (if i_size i =? 0 then mret [] else old ← k64_xfs_read_file dev (Some full) (i_size i); check (Z.of_nat (length old) =? i_size i) ;; mret old)
    (fun old s' => old = content (fview s) i /\ quiet s s') (fun _ => False) s1).
  { destruct (Z.eqb_spec (i_size i) 0) as [E0|E0].
    - apply wp_ret. split; [|done]. destruct (content (fview s) i); [done|]. cbn in Hcl. lia.
    - destruct (file_at_quiet _ _ _ _ _ Q1 A) as [A1 Ec]. apply wp_bind. eapply wp_mono; [apply (read_spec s1 full id i (i_size i) A1 Hsz)| |done].
      intros out s2 [-> Q2]. rewrite Ec, take_ge by lia. rewrite (proj2 (Z.eqb_eq _ _)) by done. cbn [check]. apply wp_bind, wp_ret. apply wp_ret. split; [done|by eapply quiet_trans]. }
  apply wp_bind. eapply wp_mono; [exact Hread| |done]. intros old s2 [-> Q2].
  assert (Eb : splice (zero_padded new (content (fview s) i)) (Z.to_nat off) data = bytes).
  { unfold bytes, overwritten. rewrite zero_padded_app by lia. do 3 f_equal. lia. }
  rewrite Eb. apply (write_spec s s2 full); [done..| |].
  - unfold bytes, overwritten. apply bytes_ok_splice; [|done]. apply Forall_app. split; [by apply file_content_ok|apply zeros_bytes_ok].
  - unfold bytes, overwritten, splice. rewrite !length_app, length_take, length_drop, length_app, zeros_length. lia.
Qed.

(** A result the buffers cannot hold is refused before anything changes. *)
Lemma append_too_long s cwd path full id i text : fs_normalize cwd path FULL_MAX = Some full -> fs_normalize cwd full FULL_MAX = Some full ->
  file_at s full id i -> K64_ROOTFS_RAW_MAX < i_size i + Z.of_nat (length text) ->
  wp (k64_fs_append_file dev cwd path text) (fun _ _ => False) (quiet s) s.
Proof.
  intros Hfull Hstable A Hlen. pose proof (fa_size _ _ _ _ A) as Hs. destruct (file_at_length _ _ _ _ A) as [Hsz _].
  unfold k64_fs_append_file, full_path. rewrite Hfull. cbn [need]. apply wp_bind, wp_ret. apply wp_bind, wp_try. eapply wp_mono; [by eapply stat_spec| |done].
  intros d s1 [-> Q1]. destruct (file_at_quiet _ _ _ _ _ Q1 A) as [A1 _].
  unfold k64_fs_write_file_range, full_path. rewrite Hstable. cbn [need]. apply wp_bind, wp_ret. apply wp_bind, wp_try. eapply wp_mono; [by eapply stat_spec| |done].
  intros d s2 [-> Q2]. cbn [st_is_dir st_size stat_of]. assert (Q : quiet s s2) by (by eapply quiet_trans). apply wp_bind.
  destruct (_ && _) eqn:E; [|exact Q]. apply wp_ret, wp_bind. rewrite (proj2 (Z.leb_gt _ _)) by lia. exact Q.
Qed.

(** C37: text appended to a file.  When the path names a regular file on a working
    volume, then the file has its old bytes followed by those of the text, its
    owner, type and mode, and every other file and every block that is in use by
    something else is untouched.  A result of more than 16 MiB, the
    most the code handles, is refused and nothing changes; a shorter one fails only
    when there is no room even with the file's own blocks given back. *)
Theorem append_file_spec s cwd path full id i text : fs_normalize cwd path FULL_MAX = Some full -> fs_normalize cwd full FULL_MAX = Some full ->
  file_at s full id i -> bytes_ok text ->
  wp (k64_fs_append_file dev cwd path text)
    (fun _ s' => i_size i + Z.of_nat (length text) <= K64_ROOTFS_RAW_MAX /\ written s id i (content (fview s) i ++ text) (i_uid i) (i_gid i) s')
    (fun s' => (K64_ROOTFS_RAW_MAX < i_size i + Z.of_nat (length text) /\ quiet s s') \/ no_room s i (i_size i + Z.of_nat (length text)) s') s.
Proof.
  intros Hfull Hstable A Ht. destruct (Z.lt_ge_cases K64_ROOTFS_RAW_MAX (i_size i + Z.of_nat (length text))) as [Hlong|Hlen].
  { eapply wp_mono; [by eapply append_too_long|done|]. intros s' Q. by left. }
  destruct (file_at_length _ _ _ _ A) as [Hsz Hcl].
  unfold k64_fs_append_file, full_path. rewrite Hfull. cbn [need]. apply wp_bind, wp_ret. apply wp_bind, wp_try. eapply wp_mono; [by eapply stat_spec| |done].
  intros d s1 [-> Q1]. cbn [st_size stat_of]. destruct (file_at_quiet _ _ _ _ _ Q1 A) as [A1 Ec].
  assert (Eo : overwritten (content (fview s) i) (i_size i) text = content (fview s) i ++ text).
  { unfold overwritten, splice. rewrite take_app_length' by lia. f_equal. rewrite drop_ge; [by rewrite app_nil_r|]. rewrite length_app, zeros_length. lia. }
  eapply wp_mono; [apply (write_range_spec s1 cwd full full id i (i_size i) text Hstable A1 Ht); lia| |]; rewrite Ec, Eo.
  - intros ? s' Hw. split; [done|]. eapply quiet_written; [done|apply A|done].
  - intros s' [F' Hn]. right. split; [done|]. rewrite (quiet_super _ _ _ Q1), (quiet_bitmap s s1) in Hn by (done || apply A). by rewrite length_app, Nat2Z.inj_add, Hcl in Hn.
Qed.
End files.
