(* ===== verification/XfsCheck.v ===== *)
(** * K64XFS: the consistency checker ([k64_xfs_check] of [k64_xfs.c])

    The read-only checker, its loops one definition each.  [note] is the
    repeated [out->errors++; if (!out->message[0]) xfs_copy(out->message, ...)]. *)
From Stdlib Require Import ZArith Lia.
From stdpp Require Import base list.
From S2P Require Import Prelude Exec KString XfsFormat Block Cache Journal XfsCore XfsDir XfsOps.

(** [out->errors] and [out->message] *)
Definition note (rep : Z * list Z) (msg : list Z) : Z * list Z :=
  (u32 (fst rep + 1), match snd rep with [] => xfs_copy 96 (Some msg) | m => m end).

Section check.
Context {W : Type} (dev : k64_block_device_t W).
Abbreviation st := (xstate W).

Definition get_tmp2 : M st (list Z) := gets xfs_tmp_block2.
Definition get_tmp3 : M st (list Z) := gets xfs_tmp_block3.
Definition get_seen : M st (list Z) := gets xfs_check_seen_block.

(** Whether the blocks fit in the one-block bitmap of blocks seen. *)
Definition seen_fits (sb : k64_xfs_superblock_disk_t) : bool :=
  s_total_blocks sb <=? K64_XFS_BLOCK_SIZE * 8.

(** Block [b] of an extent. *)
Definition check_extent_block (b : Z) (rep : Z * list Z) : M st (Z * list Z) :=
  sb ← get_super;
  bitmap ← get_tmp2;
  marked ← deref (xfs_bitmap_get bitmap (u32 b));
  rep ← (if negb marked then mret (note rep (str "extent block unmarked"))
         else if seen_fits sb then
           seen ← get_seen;
           dup ← deref (xfs_bitmap_get seen (u32 b));
           mret (if (dup : bool) then note rep (str "extent block duplicate") else rep)
         else mret rep);
  (if seen_fits sb then
     seen ← get_seen;
     seen ← deref (xfs_bitmap_set seen (u32 b) true);
     modify (set_seen seen)
   else mret tt) ;;
  mret rep.

Fixpoint check_extent_blocks (n : nat) (b : Z) (rep : Z * list Z) : M st (Z * list Z) :=
  match n with
  | O => mret rep
  | S n => rep ← check_extent_block b rep; check_extent_blocks n (b + 1) rep
  end.

(** One extent: the report and [used_blocks]. *)
Definition check_extent (ex : k64_xfs_extent_disk_t) (rep : Z * list Z) (used_blocks : Z)
    : M st (Z * list Z * Z) :=
  sb ← get_super;
  let start := e_physical_block ex in
  let count := e_block_count ex in
  if (count =? 0) || (start <? s_data_start sb) || (UINT64_MAX - count <? start) ||
     (s_total_blocks sb <? start + count)
  then mret (note rep (str "bad extent range"), used_blocks)
  else
    rep ← check_extent_blocks (Z.to_nat count) start rep;
    mret (rep, u64 (used_blocks + count)).

Fixpoint check_extents (l : list k64_xfs_extent_disk_t) (rep : Z * list Z) (used_blocks : Z)
    : M st (Z * list Z * Z) :=
  match l with
  | [] => mret (rep, used_blocks)
  | ex :: l =>
      '(rep, used_blocks) ← check_extent ex rep used_blocks;
      check_extents l rep used_blocks
  end.

(** The iteration for inode-bitmap bit [i]. *)
Definition check_inode (i : Z) (rep : Z * list Z) (used_inodes used_blocks : Z)
    : M st (Z * list Z * Z * Z) :=
  bitmap ← get_tmp3;
  used ← deref (xfs_bitmap_get bitmap i);
  if negb used then mret (rep, used_inodes, used_blocks)
  else
    let used_inodes := u32 (used_inodes + 1) in
    r ← try (xfs_read_inode dev (i + 1));
    match r with
    | None => mret (note rep (str "bad used inode"), used_inodes, used_blocks)
    | Some inode =>
        let rep := if (i_type inode <? K64_XFS_TYPE_REGULAR) ||
                      (K64_XFS_TYPE_PIPE <? i_type inode) ||
                      (K64_XFS_DIRECT_EXTENTS <? i_extent_count inode)
                   then note rep (str "bad inode fields") else rep in
        '(rep, used_blocks) ← check_extents (live_extents inode) rep used_blocks;
        mret (rep, used_inodes, used_blocks)
    end.

Fixpoint check_inodes (n : nat) (i : Z) (rep : Z * list Z) (used_inodes used_blocks : Z)
    : M st (Z * list Z * Z * Z) :=
  match n with
  | O => mret (rep, used_inodes, used_blocks)
  | S n =>
      '(rep, used_inodes, used_blocks) ← check_inode i rep used_inodes used_blocks;
      check_inodes n (i + 1) rep used_inodes used_blocks
  end.

(** The clear bits of the block bitmap among [b], [b+1], ..., [n] of them. *)
Fixpoint count_free (n : nat) (b : Z) (bitmap : list Z) (acc : Z) : option Z :=
  match n with
  | O => Some acc
  | S n =>
      used ← xfs_bitmap_get bitmap (u32 b);
      count_free n (b + 1) bitmap (if (used : bool) then acc else u64 (acc + 1))
  end.

Definition k64_xfs_check : M st k64_xfs_check_report_t :=
  m ← get_fs;
  let sb := super m in
  cmp ← deref (k64_strncmp (s_magic sb) (cstr K64_XFS_MAGIC) K64_XFS_MAGIC_SIZE);
  if negb (mounted m) || negb (cmp =? 0) || negb (s_block_size sb =? K64_XFS_BLOCK_SIZE) ||
     negb (s_root_inode sb =? 1) || (s_total_blocks sb <=? s_data_start sb)
  then mret (mk_report false 1 0 0 0 (xfs_copy 96 (Some (str "bad superblock"))))
  else
    r ← try (b3 ← xfs_block_read dev (s_inode_bitmap_start sb);
             modify (set_tmp3 b3) ;;
             b2 ← xfs_block_read dev (s_block_bitmap_start sb);
             modify (set_tmp2 b2));
    match r with
    | None => mret (mk_report false 1 0 0 0 (xfs_copy 96 (Some (str "bitmap read failed"))))
    | Some _ =>
        root ← try (xfs_read_inode dev (s_root_inode sb));
        let rep := match root with
                   | Some root_inode =>
                       if i_type root_inode =? K64_XFS_TYPE_DIRECTORY then (0, [])
                       else (1, xfs_copy 96 (Some (str "bad root inode")))
                   | None => (1, xfs_copy 96 (Some (str "bad root inode")))
                   end in
        modify (set_seen (zeros BLOCK)) ;;
        '(rep, used_inodes, used_blocks) ← check_inodes (Z.to_nat K64_XFS_MAX_INODES) 0 rep 0 0;
        bitmap ← get_tmp2;
        bitmap_free ← deref (count_free (Z.to_nat (s_total_blocks sb - s_data_start sb))
                               (s_data_start sb) bitmap 0);
        let rep := if negb (bitmap_free =? s_free_blocks sb)
                   then note rep (str "free count mismatch") else rep in
        let ok := fst rep =? 0 in
        mret (mk_report ok (fst rep) used_inodes used_blocks bitmap_free
                (if (ok : bool) then xfs_copy 96 (Some (str "K64XFS check: OK"))
                 else match snd rep with
                      | [] => xfs_copy 96 (Some (str "K64XFS check: errors"))
                      | msg => msg
                      end))
    end.
End check.
