(* ===== verification/Scenario.v ===== *)
(** * Executed runs of the storage stack on a memory disk

    The whole stack (memory disk, block layer, cache, journal, file system) run
    by evaluation: the repository's unit test, crashes between operations, and
    the states in which the theorems of the other files are used.  A crash
    keeps the device and loses the mount. *)
From Stdlib Require Import ZArith Lia.
From stdpp Require Import base list gmap.
From S2P Require Import Prelude Exec KString XfsFormat Block BlockSpec Cache Journal XfsCore XfsDir XfsOps XfsCheck.

(** 128 file-system blocks in sectors of 512 bytes. *)
Definition D : k64_block_device_t ram := ram_device 512 1024.

Definition power_on (w : ram) : xstate ram :=
  mk_xstate zero_mount w (zeros BLOCK) (zeros BLOCK) (zeros BLOCK) (zeros BLOCK) (zeros BLOCK)
    (zeros BLOCK) (zeros BLOCK).

(** The machine stops: only the disk survives. *)
Definition crash : M (xstate ram) unit := modify (fun s => power_on (xhw s)).

Definition formatted : M (xstate ram) unit := k64_xfs_format D (Some (str "unitfs")).

Definition result {A} (o : outcome (xstate ram) A) : option A :=
  match o with Ret a _ => Some a | _ => None end.

(** The call returned false. *)
Definition refuses {A} (m : M (xstate ram) A) : M (xstate ram) unit :=
  r ← try m; check (absent r).

(** [tests/xfs_unit_test.c] *)
Definition long_name : list Z :=
  str "/test/abcdefghijklmnopqrstuvwxyzabcdefghijklmnopqrstuvwxyzabcdefghijklmnopqrstuvwxyzabcdefghijklmnopqrstuvwxyzabcdefghijklmnopqrstuvwxyz".

Definition unit_test : M (xstate ram) unit :=
  formatted ;;
  k64_xfs_mount D ;;
  st ← k64_xfs_stat D (Some (str "/"));
  check (st_exists st && st_is_dir st) ;;
  k64_xfs_mkdir D (Some (str "/test")) 0x1E8 1001 1002 ;;
  k64_xfs_write_file D (Some (str "/test/hello")) (str "hello") 1001 1002 ;;
  out ← k64_xfs_read_file D (Some (str "/test/hello")) 64;
  check (bool_decide (out = str "hello")) ;;
  st ← k64_xfs_stat D (Some (str "/test/hello"));
  check ((st_size st =? 5) && (st_uid st =? 1001) && (st_gid st =? 1002)) ;;
  k64_xfs_chmod D (Some (str "/test/hello")) 0x180 ;;
  k64_xfs_chown D (Some (str "/test/hello")) 0 0 ;;
  st ← k64_xfs_stat D (Some (str "/test/hello"));
  check ((Z.land (st_mode st) 0x1FF =? 0x180) && (st_uid st =? 0) && (st_gid st =? 0)) ;;
  ls ← k64_xfs_list_dir D (Some (str "/test")) 512;
  check (bool_decide (ls = str "hello" ++ [10])) ;;
  report ← k64_xfs_check D;
  check (r_ok report) ;;
  refuses (k64_xfs_write_file D (Some (str "relative")) (str "x") 0 0) ;;
  refuses (k64_xfs_write_file D (Some long_name) (str "x") 0 0) ;;
  k64_xfs_remove D (Some (str "/test/hello")) ;;
  refuses (k64_xfs_stat D (Some (str "/test/hello"))) ;;
  k64_xfs_sync D ;;
  k64_xfs_unmount D ;;
  k64_xfs_mount D ;;
  report ← k64_xfs_check D;
  check (r_ok report).

(** The unit test of the repository passes on the model. *)
Theorem unit_test_passes : result (unit_test (power_on ∅)) = Some tt.
Proof. vm_compute. reflexivity. Qed.

(** [k64_xfs_truncate] to a size larger than the file: the content is lost, the
    file becomes one zero byte. *)
Definition truncate_grow : M (xstate ram) (list Z) :=
  formatted ;; k64_xfs_mount D ;;
  k64_xfs_write_file D (Some (str "/f")) (str "hello") 0 0 ;;
  k64_xfs_truncate D (Some (str "/f")) 10 ;;
  k64_xfs_read_file D (Some (str "/f")) 64.

(** Truncating a file to a larger size replaces its content by one zero byte. *)
Theorem truncate_grow_loses_content : result (truncate_grow (power_on ∅)) = Some [0].
Proof. vm_compute. reflexivity. Qed.

(** Recovery replays a transaction that never committed: its records are
    followed in the journal by the records and the commit of an older
    transaction with the same number, which a clean unmount has left there. *)
Definition ghost : list Z := replicate BLOCK 0xAA.
Definition stale_commit : M (xstate ram) bool :=
  formatted ;; k64_xfs_mount D ;;
  k64_xfs_mkdir D (Some (str "/a")) 0 0 0 ;;
  k64_xfs_unmount D ;;
  k64_xfs_mount D ;;
  k64_xfs_journal_begin ;;
  k64_xfs_journal_metadata D XFS_INODE_BITMAP_BLOCK ghost ;;
  crash ;;
  k64_xfs_mount D ;;
  b ← xfs_block_read D XFS_INODE_BITMAP_BLOCK;
  mret (bool_decide (b = ghost)).

(** Recovery replays a transaction that never committed, when the journal still
    holds an older commit record with the same number. *)
Theorem uncommitted_transaction_replayed : result (stale_commit (power_on ∅)) = Some true.
Proof. vm_compute. reflexivity. Qed.

(** A directory whose creation has committed is gone after a crash. *)
Definition mkdir_crash : M (xstate ram) (bool * bool) :=
  formatted ;; k64_xfs_mount D ;;
  k64_xfs_mkdir D (Some (str "/a")) 0 0 0 ;;
  crash ;;
  k64_xfs_mount D ;;
  st ← try (k64_xfs_stat D (Some (str "/a")));
  report ← k64_xfs_check D;
  mret (absent st, r_ok report).

(** After the recovery the volume is not consistent: the inode and the block of
    the lost directory stay allocated, and the superblock's free count is the
    old one. *)
Theorem committed_mkdir_lost : result (mkdir_crash (power_on ∅)) = Some (true, false).
Proof. vm_compute. reflexivity. Qed.

(** Renaming in a directory whose entries fill its only block: the entry is
    added to a new block, then the old inode of the directory, without that
    block, is written back, and both names are gone. *)
Fixpoint create_files (n : nat) (c : Z) : M (xstate ram) unit :=
  match n with
  | O => mret tt
  | S n => k64_xfs_create D (Some (str "/" ++ [c])) 0 0 0 ;; create_files n (c + 1)
  end.

Definition rename_full_directory : M (xstate ram) (bool * bool) :=
  formatted ;; k64_xfs_mount D ;;
  create_files 25 97 ;;
  k64_xfs_rename D (Some (str "/a")) (Some (str "/A")) ;;
  old ← try (k64_xfs_stat D (Some (str "/a")));
  new ← try (k64_xfs_stat D (Some (str "/A")));
  mret (absent old, absent new).

(** A rename that grows the directory loses the file under both names. *)
Theorem rename_loses_file : result (rename_full_directory (power_on ∅)) = Some (true, true).
Proof. vm_compute. reflexivity. Qed.

(** Overwriting a file with data that does not fit fails after its blocks have
    been freed; its inode still refers to them, and the next file is given the
    same blocks. *)
Definition failed_overwrite : M (xstate ram) (list Z) :=
  formatted ;; k64_xfs_mount D ;;
  k64_xfs_write_file D (Some (str "/f")) (str "precious") 0 0 ;;
  refuses (k64_xfs_write_file D (Some (str "/f")) (zeros (BLOCK * 64)) 0 0) ;;
  k64_xfs_write_file D (Some (str "/g")) (str "intruder") 0 0 ;;
  k64_xfs_read_file D (Some (str "/f")) 64.

(** After an overwrite that failed for lack of space, the old file reads the
    content of the next file written. *)
Theorem failed_overwrite_shares_blocks : result (failed_overwrite (power_on ∅)) = Some (str "intruder").
Proof. vm_compute. reflexivity. Qed.
