(* ===== verification/StorageWitness.v ===== *)
(** * Witnesses for the storage theorems

    A concrete mounted volume, the memory disk after a format, a mount and the
    creation of a file, on which the hypotheses of the storage theorems hold and
    the theorems are applied. *)
From Stdlib Require Import ZArith Lia.
From stdpp Require Import base list gmap.
From S2P Require Import Prelude Exec KString XfsFormat XfsCrc Block BlockSpec Cache CacheSpec Journal JournalSpec XfsCore XfsSpec AllocSpec XfsDir DirSpec XfsOps FileSpec XfsCheck Scenario.

(** ** Checkers *)
Definition layout_check (sb : k64_xfs_superblock_disk_t) : bool :=
  (0 <? s_inode_bitmap_start sb) && (s_inode_bitmap_start sb <? s_block_bitmap_start sb) &&
  (s_block_bitmap_start sb <? s_journal_start sb) && (0 <=? s_journal_blocks sb) &&
  (s_journal_start sb + s_journal_blocks sb <=? s_inode_table_start sb) &&
  (s_inode_table_start sb + xfs_inode_table_blocks <=? s_data_start sb) &&
  (s_data_start sb <=? s_total_blocks sb) && (s_total_blocks sb <=? 8 * K64_XFS_BLOCK_SIZE).

Lemma layout_check_ok sb : layout_check sb = true -> layout_ok sb.
Proof. unfold layout_check. rewrite !andb_true_iff. intros H. split; lia. Qed.

Definition extent_check (sb : k64_xfs_superblock_disk_t) (ex : k64_xfs_extent_disk_t) : bool :=
  (0 <=? e_logical_block ex) && (0 <=? e_block_count ex) &&
  (e_logical_block ex + e_block_count ex <? 18446744073709551616) &&
  (s_data_start sb <=? e_physical_block ex) &&
  (e_physical_block ex + e_block_count ex <=? s_total_blocks sb).

Lemma extent_check_ok sb l : layout_ok sb -> forallb (extent_check sb) l = true ->
  Forall (extent_in_data sb) l /\
  forall b p, extent_lookup l b = Some p -> s_data_start sb <= p < s_total_blocks sb.
Proof.
  intros L. induction l as [|ex l IH]; [done|]. cbn [forallb extent_lookup].
  rewrite andb_true_iff. intros [He Hl]. destruct (IH Hl) as [Hf Hp].
  unfold extent_check in He. rewrite !andb_true_iff in He. split.
  - constructor; [|done]. unfold extent_in_data. lia.
  - intros b p. assert (0 <= s_data_start sb /\ s_total_blocks sb <= 32768).
    { destruct L. unfold K64_XFS_BLOCK_SIZE in *. change xfs_inode_table_blocks with 47 in *. lia. }
    rewrite (u64_small (_ + e_block_count ex)) by lia.
    destruct (Z.leb_spec (e_logical_block ex) b), (Z.ltb_spec b (e_logical_block ex + e_block_count ex));
      cbn [andb]; [|apply Hp..]. intros [= <-]. rewrite u64_small by lia. lia.
Qed.

Definition tree_check (f : Z -> list Z) (sb : k64_xfs_superblock_disk_t) : bool :=
  forallb (fun k => match inode_at f sb (Z.of_nat k) with
                    | None => true
                    | Some i => forallb (extent_check sb) (live_extents i)
                    end) (seq 1 512).

Lemma tree_check_ok f sb : layout_ok sb -> tree_check f sb = true -> tree_ok f sb.
Proof.
  intros L H id i [[I1 I2] Hi]%inode_lookup_ok. unfold tree_check in H. rewrite forallb_forall in H.
  unfold K64_XFS_MAX_INODES in I2. specialize (H (Z.to_nat id)).
  rewrite Z2Nat.id, Hi in H by lia. exact (proj2 (extent_check_ok sb _ L (H ltac:(apply in_seq; lia)))).
Qed.

(** ** The memory disk works *)
Lemma ram_device_ok size sectors : (0 < size)%nat -> 4096 mod Z.of_nat size = 0 ->
  0 <= sectors <= 18446744073709551616 -> device_ok (ram_device size sectors).
Proof. intros. split; [by apply ram_geometry|done]. Qed.

Lemma ram_no_error size sectors n : (0 < size)%nat -> 4096 mod Z.of_nat size = 0 ->
  0 <= sectors <= 18446744073709551615 -> n * (4096 / Z.of_nat size) <= sectors ->
  ~ device_fails (ram_device size sectors) n.
Proof.
  intros Hs Hd Hsec Hn (b & Hb & Hf).
  assert (D : device_ok (ram_device size sectors)) by (apply ram_device_ok; [done|done|lia]).
  destruct (spb_spec _ D) as [Hp Hm]. set (k := sectors_per_block (ram_device size sectors)) in *.
  assert (Hk : k = 4096 / Z.of_nat size) by done.
  assert (Hbk : (b + 1) * k <= sectors) by nia.
  assert (Hrs : raw_sectors (ram_device size sectors) b = Some (b * k, k)).
  { unfold raw_sectors. change (block_size (ram_device size sectors)) with (Z.of_nat size).
    unfold K64_XFS_BLOCK_SIZE. rewrite Hd. rewrite (proj2 (Z.eqb_neq (Z.of_nat size) 0)) by lia. cbn [orb negb Z.eqb].
    rewrite <- Hk. rewrite (proj2 (Z.ltb_ge _ _)).
    - by rewrite u64_small by nia.
    - apply Z.div_le_lower_bound; unfold UINT64_MAX; nia. }
  assert (Hchk : forall A (x y : A), (if (sectors <=? b * k) || (sectors - b * k <? k) then x else y) = y).
  { intros. rewrite (proj2 (Z.leb_gt _ _)), (proj2 (Z.ltb_ge _ _)) by nia. done. }
  destruct Hf as [(w & buf & Hf)|(w & bytes & Hf)].
  - revert Hf. unfold xfs_raw_read. rewrite Hrs. unfold k64_block_read. cbn [read ram_device online block_count start_lba negb orb].
    rewrite (proj2 (Z.eqb_neq k 0)) by lia. rewrite Hchk. unfold disk_read.
    rewrite Z.add_0_l, u64_small, (proj2 (Z.ltb_ge _ _)) by nia. done.
  - revert Hf. unfold xfs_raw_write. rewrite Hrs. unfold k64_block_write. cbn [write ram_device online block_count start_lba writable negb orb].
    rewrite (proj2 (Z.eqb_neq k 0)) by lia. cbn [negb orb]. rewrite Hchk. unfold disk_write.
    rewrite Z.add_0_l, u64_small, (proj2 (Z.ltb_ge _ _)) by nia. done.
Qed.

(** ** The volume *)
Definition volume : M (xstate ram) unit :=
  formatted ;; k64_xfs_mount D ;;
  k64_xfs_write_file D (Some (str "/f")) (str "old") 0 0 ;;
  k64_xfs_sync D.

Definition disk0 : ram := match volume (power_on ∅) with Ret _ s => xhw s | _ => ∅ end.

(** The mount of that disk, with nothing cached yet. *)
Definition super0 : k64_xfs_superblock_disk_t := dec_super (take sizeof_super (disk_block D disk0 0)).
Definition mount0 : xstate ram :=
  mk_xstate (mk_mount true super0 k64_xfs_cache_init 0 0 false (str "/x")) disk0
    (zeros BLOCK) (zeros BLOCK) (zeros BLOCK) (zeros BLOCK) (zeros BLOCK) (zeros BLOCK) (zeros BLOCK).

(** Several checks evaluated at once. *)
Definition seven (a b c d e f g : bool) : bool := a && b && c && d && e && f && g.
Lemma seven_checks a b c d e f g : seven a b c d e f g = true ->
  a = true /\ b = true /\ c = true /\ d = true /\ e = true /\ f = true /\ g = true.
Proof. unfold seven. rewrite !andb_true_iff. tauto. Qed.
#[local] Opaque seven.

(** What evaluation shows of it. *)
Lemma mount0_facts : seven
  (layout_check super0) (tree_check (fview D mount0) super0)
  (s_root_inode super0 =? 1) (s_journal_blocks super0 =? K64_XFS_JOURNAL_BLOCKS)
  (0 <=? s_free_blocks super0) (s_free_blocks super0 <=? s_total_blocks super0)
  (s_total_blocks super0 =? 128) = true.
Proof. vm_compute. reflexivity. Qed.

#[local] Opaque disk0 layout_check tree_check.

Record facts0 : Prop := {
  f0_layout : layout_check super0 = true;
  f0_tree : tree_check (fview D mount0) super0 = true;
  f0_root : s_root_inode super0 = 1;
  f0_journal : s_journal_blocks super0 = K64_XFS_JOURNAL_BLOCKS;
  f0_free : 0 <= s_free_blocks super0 <= s_total_blocks super0;
  f0_total : s_total_blocks super0 = 128
}.

Lemma mount0_checked : facts0.
Proof.
  destruct (seven_checks _ _ _ _ _ _ _ mount0_facts) as (HL & HT & HR & HJ & HF0 & HF1 & HN).
  split; [exact HL|exact HT|exact (proj1 (Z.eqb_eq _ _) HR)|exact (proj1 (Z.eqb_eq _ _) HJ)| |
    exact (proj1 (Z.eqb_eq _ _) HN)].
  exact (conj (proj1 (Z.leb_le _ _) HF0) (proj1 (Z.leb_le _ _) HF1)).
Qed.

Lemma D_ok : device_ok D.
Proof. apply ram_device_ok; [lia|done|lia]. Qed.

Lemma disk0_block_ok b : block_ok (disk_block D disk0 b).
Proof. apply disk_block_ok, D_ok. Qed.

Lemma super0_ok : super_ok super0.
Proof.
  destruct (disk0_block_ok 0) as [Hl Hb]. apply dec_super_inv; [by apply Forall_take|].
  rewrite length_take, Hl. done.
Qed.

Lemma mount0_uncached b : ~ cached (to_cache mount0) b.
Proof.
  intros (i & e & He & Hv & _). cbn [to_cache c_cache fs mount0 cache entries k64_xfs_cache_init] in He.
  by apply lookup_replicate in He as [-> _].
Qed.

Lemma mount0_layout : layout_ok super0.
Proof. exact (layout_check_ok _ (f0_layout mount0_checked)). Qed.

Lemma mount0_ok : fs_ok D mount0.
Proof.
  constructor.
  - reflexivity.
  - apply cache_init_ok.
  - intros b Hb. destruct (mount0_uncached b Hb).
  - intros b _. apply mount0_uncached.
  - apply layout_area, mount0_layout.
  - apply zeros_block_ok.
  - exact (conj (Z.le_refl 0) (lo_jblocks _ mount0_layout)).
Qed.

Lemma mount0_no_error : ~ io_error D mount0.
Proof.
  unfold io_error. change (super (fs mount0)) with super0. rewrite (f0_total mount0_checked).
  apply ram_no_error; [lia|done|lia|done].
Qed.

Lemma mount0_ready : ready D mount0.
Proof.
  constructor.
  - apply mount0_ok.
  - apply mount0_layout.
  - apply super0_ok.
  - exact (tree_check_ok _ _ mount0_layout (f0_tree mount0_checked)).
  - apply mount0_no_error.
  - reflexivity.
  - exact (f0_journal mount0_checked).
  - exact (f0_free mount0_checked).
Qed.

(** The file of the volume. *)
Definition inode0 : k64_xfs_inode_disk_t :=
  match resolve_path (fview D mount0) super0 (str "/f") with Some (_, i) => i | None => zero_inode end.

Definition found_as (id : Z) (r : option (Z * k64_xfs_inode_disk_t)) : bool :=
  match r with Some (id', _) => id' =? id | None => false end.

Lemma inode0_facts : seven
  (found_as 2 (resolve_path (fview D mount0) super0 (str "/f")))
  (i_type inode0 =? K64_XFS_TYPE_REGULAR) (forallb (extent_check super0) (live_extents inode0))
  (i_size inode0 =? 3) (bool_decide (no_nul (str "/f")))
  (bool_decide (is_free (fview D mount0 (s_block_bitmap_start super0)) 100))
  (bool_decide (is_free (fview D mount0 (s_inode_bitmap_start super0)) 9)) = true.
Proof. vm_compute. reflexivity. Qed.

Record file0 : Prop := {
  f1_resolve : resolve_path (fview D mount0) super0 (str "/f") = Some (2, inode0);
  f1_type : i_type inode0 = K64_XFS_TYPE_REGULAR;
  f1_extents : Forall (extent_in_data super0) (live_extents inode0);
  f1_size : i_size inode0 = 3;
  f1_path : no_nul (str "/f");
  f1_block : is_free (fview D mount0 (s_block_bitmap_start super0)) 100;
  f1_inode : is_free (fview D mount0 (s_inode_bitmap_start super0)) 9
}.

Lemma file0_checked : file0.
Proof.
  destruct (seven_checks _ _ _ _ _ _ _ inode0_facts) as (HR & HT & HE & HS & HP & HB & HI).
  constructor.
  - revert HR. unfold inode0. generalize (resolve_path (fview D mount0) super0 (str "/f")).
    intros [[id i]|] HR; [|discriminate HR]. rewrite (proj1 (Z.eqb_eq id 2) HR). reflexivity.
  - exact (proj1 (Z.eqb_eq _ _) HT).
  - exact (proj1 (extent_check_ok _ _ mount0_layout HE)).
  - exact (proj1 (Z.eqb_eq _ _) HS).
  - exact (bool_decide_eq_true_1 _ HP).
  - exact (bool_decide_eq_true_1 _ HB).
  - exact (bool_decide_eq_true_1 _ HI).
Qed.

#[local] Opaque inode0.

Lemma root0 : 0 <= s_root_inode super0.
Proof. rewrite (f0_root mount0_checked). lia. Qed.

Lemma str_bytes_ok s : bytes_ok (str s).
Proof.
  unfold str. apply Forall_map, Forall_true. intros a. unfold byte_ok. pose proof (Ascii.N_ascii_bounded a). lia.
Qed.
Arguments str_bytes_ok s%_string_scope.

(** ** The theorems applied *)
Lemma k64_xfs_write_file_witness :
  wp (k64_xfs_write_file D (Some (str "/f")) (str "new") 7 8)
    (fun _ s' => written D mount0 2 inode0 (str "new") 7 8 s')
    (fun s' => fs_ok D s' /\
       no_space super0 (fview D mount0 (s_block_bitmap_start super0)) (live_extents inode0)
         (blocks_of (Z.of_nat (length (str "new"))))) mount0.
Proof.
  exact (k64_xfs_write_file_spec D D_ok mount0 (str "/f") 2 inode0 (str "new") 7 8 mount0_ready
    (f1_path file0_checked) root0 (f1_resolve file0_checked) (f1_type file0_checked)
    (f1_extents file0_checked) (str_bytes_ok "new") ltac:(done) ltac:(done) ltac:(done)).
Defined.

Lemma k64_xfs_read_file_witness :
  wp (k64_xfs_read_file D (Some (str "/f")) 64)
    (fun out s' => out = take 64 (content (fview D mount0) inode0) /\ quiet D mount0 s')
    (fun s' => quiet D mount0 s' /\ (i_type inode0 <> K64_XFS_TYPE_REGULAR \/ io_error D mount0)) mount0.
Proof.
  refine (k64_xfs_read_file_spec D D_ok mount0 (str "/f") 2 inode0 64 mount0_ok mount0_layout
    (rd_tree _ _ mount0_ready) root0 (f1_path file0_checked) ltac:(done) (f1_resolve file0_checked) _).
  rewrite (f1_size file0_checked). done.
Defined.

Lemma xfs_resolve_witness :
  match resolve_path (fview D mount0) super0 (str "/f") with
  | Some r => exists s', xfs_resolve D (Some (str "/f")) mount0 = Ret r s' /\ same_blocks D mount0 s'
  | None => exists s', xfs_resolve D (Some (str "/f")) mount0 = Err s' /\ same_blocks D mount0 s'
  end.
Proof.
  exact (xfs_resolve_refines_walk D D_ok mount0 (str "/f") mount0_ok mount0_layout
    (rd_tree _ _ mount0_ready) root0 (f1_path file0_checked) mount0_no_error).
Defined.

Lemma room0 : ~ journal_full mount0.
Proof.
  unfold journal_full. change (super (fs mount0)) with super0. rewrite (f0_journal mount0_checked).
  cbn [fs mount0 journal_records]. unfold K64_XFS_JOURNAL_BLOCKS. lia.
Qed.

Lemma run0 : free_run (fview D mount0 (s_block_bitmap_start super0)) 100 1.
Proof. intros y Hy. replace y with 100 by lia. exact (f1_block file0_checked). Qed.

(** The remaining numbers of the layout. *)
Lemma numbers0 : s_data_start super0 = 82 /\ s_free_blocks super0 = 44.
Proof.
  split; [exact (eq_refl 82 <: s_data_start super0 = 82)|exact (eq_refl 44 <: s_free_blocks super0 = 44)].
Qed.

Lemma xfs_alloc_extent_witness :
  wp (xfs_alloc_extent D 1)
    (fun x s' => s_data_start super0 <= x <= 100 /\
       free_run (fview D mount0 (s_block_bitmap_start super0)) x 1 /\
       (forall y, s_data_start super0 <= y < x -> ~ free_run (fview D mount0 (s_block_bitmap_start super0)) y 1) /\
       bits_set (fview D mount0 (s_block_bitmap_start super0)) x 1 true (fview D s' (s_block_bitmap_start super0)) /\
       s_free_blocks (super (fs s')) = s_free_blocks super0 - 1)
    (fun _ => False) mount0.
Proof.
  refine (xfs_alloc_extent_first_fit D D_ok mount0 1 100 mount0_ok mount0_layout ltac:(done) _ _ _
    run0 mount0_no_error room0); change (super (fs mount0)) with super0;
    rewrite ?(f0_total mount0_checked), ?(proj1 numbers0), ?(proj2 numbers0); lia.
Defined.

Lemma alloc_then_free_witness :
  wp (x ← xfs_alloc_extent D 1; xfs_free_extent D x 1)
    (fun _ s' => (forall j, 0 <= j ->
         xfs_bitmap_get (fview D s' (s_block_bitmap_start super0)) j =
         xfs_bitmap_get (fview D mount0 (s_block_bitmap_start super0)) j) /\
       s_free_blocks (super (fs s')) = s_free_blocks super0)
    (fun _ => False) mount0.
Proof.
  refine (alloc_then_free D D_ok mount0 1 100 mount0_ok mount0_layout ltac:(done) _ _ _
    run0 mount0_no_error _); change (super (fs mount0)) with super0;
    rewrite ?(f0_total mount0_checked), ?(f0_journal mount0_checked), ?(proj1 numbers0), ?(proj2 numbers0); cbn [fs mount0 journal_records]; unfold K64_XFS_JOURNAL_BLOCKS; lia.
Defined.

Lemma xfs_alloc_inode_witness :
  wp (xfs_alloc_inode D)
    (fun id s' => 2 <= id <= 9 + 1 /\ is_free (fview D mount0 (s_inode_bitmap_start super0)) (id - 1) /\
       (forall j, 1 <= j < id - 1 -> is_used (fview D mount0 (s_inode_bitmap_start super0)) j) /\
       bits_set (fview D mount0 (s_inode_bitmap_start super0)) (id - 1) 1 true
         (fview D s' (s_inode_bitmap_start super0)) /\
       forall b, home mount0 b -> b <> s_inode_bitmap_start super0 -> fview D s' b = fview D mount0 b)
    (fun _ => False) mount0.
Proof.
  exact (xfs_alloc_inode_first_fit D D_ok mount0 9 mount0_ok mount0_layout ltac:(done)
    (f1_inode file0_checked) mount0_no_error room0).
Defined.

(** ** The inode round trip, the cache and the journal *)
Lemma result_ret {A} (o : outcome (xstate ram) A) a : result o = Some a -> exists s, o = Ret a s.
Proof. destruct o as [x s| |]; cbn [result]; intros H; [|discriminate H..]. injection H as ->. by exists s. Qed.

Definition inode3 : k64_xfs_inode_disk_t := fresh_inode 0 3 K64_XFS_TYPE_REGULAR 0 7 8.

Lemma inode3_ok : inode_ok inode3.
Proof.
  constructor; cbn [inode3 fresh_inode i_direct_extents i_reserved1];
    try (vm_compute; split; [intros H; discriminate H|reflexivity]); try (vm_compute; reflexivity).
  - apply Forall_replicate. constructor; by vm_compute.
  - apply zeros_bytes_ok.
Qed.

Lemma inode3_written : result (xfs_write_inode D inode3 mount0) = Some tt.
Proof. vm_compute. reflexivity. Qed.

Lemma write_read_inode_witness : exists s1, xfs_write_inode D inode3 mount0 = Ret tt s1 /\
  wp (xfs_read_inode D 3) (fun i' _ => i' = sealed inode3) (fun _ => False) s1 /\
  forall id, inode_id_ok id -> id <> 3 -> inode_at (fview D s1) super0 id = inode_at (fview D mount0) super0 id.
Proof.
  destruct (result_ret _ _ inode3_written) as [s1 H]. exists s1. split; [exact H|].
  exact (write_read_inode D D_ok mount0 inode3 s1 mount0_ok mount0_layout inode3_ok eq_refl H).
Defined.

Definition cache0 : cstate := mk_cstate k64_xfs_cache_init disk0.

Lemma cache0_empty b : ~ cached cache0 b.
Proof.
  intros (i & e & He & Hv & _). cbn [cache0 c_cache entries k64_xfs_cache_init] in He.
  by apply lookup_replicate in He as [-> _].
Qed.

Lemma cache_refines_store_witness :
  wp (serve_all D [Write 5 (zeros BLOCK); Read 5; Flush])
    (fun l s' => exists T' f', store_run D [] (disk_block D disk0) [Write 5 (zeros BLOCK); Read 5; Flush] l T' f' /\
       represents D s' T' f') (fun _ => False) cache0.
Proof.
  refine (cache_refines_store D D_ok [Write 5 (zeros BLOCK); Read 5; Flush] cache0 [] (disk_block D disk0)
    (conj (cache_init_ok D disk0) (conj (fun b _ => view_init D disk0 b) _)) _).
  { intros b (i & e & He & Hv & _ & Hb). destruct (cache0_empty b). by exists i, e. }
  apply Forall_cons_2; [exact (conj (proj1 (Z.leb_le 0 5) eq_refl) zeros_block_ok)|].
  apply Forall_cons_2; [exact (proj1 (Z.leb_le 0 5) eq_refl)|apply Forall_cons_2; [exact I|apply Forall_nil_2]].
Defined.

Lemma write_flush_durable_witness :
  wp (k64_xfs_cache_write D 5 (zeros BLOCK) ;; k64_xfs_cache_flush D)
    (fun _ s' => disk_block D (c_hw s') 5 = zeros BLOCK /\
       forall b', 0 <= b' -> b' <> 5 -> disk_block D (c_hw s') b' = view D cache0 b')
    (fun _ => exists b', (cached cache0 b' \/ b' = 5) /\ write_fails D b') cache0.
Proof.
  exact (write_flush_durable D D_ok cache0 5 (zeros BLOCK) (cache_init_ok D disk0)
    (proj1 (Z.leb_le 0 5) eq_refl) zeros_block_ok).
Defined.

(** A full cache whose second entry is the oldest. *)
Definition aged (t : Z) : k64_xfs_cache_entry_t := mk_entry true true t t [].

Lemma victim_is_lru_witness : victim_scan [aged 9; aged 3; aged 7] 0 0 UINT64_MAX = inr 1%nat /\
  forall f, f ∈ [aged 9; aged 3; aged 7] -> valid f = true /\ last_used_tick (aged 3) <= last_used_tick f.
Proof.
  refine (conj eq_refl (victim_is_lru [aged 9; aged 3; aged 7] 1 (aged 3) _ eq_refl eq_refl)).
  intros f Hf. repeat (apply elem_of_cons in Hf as [->|Hf]; [done|]). by apply not_elem_of_nil in Hf.
Defined.

Lemma ram_reads w b buf : 0 <= b < 128 -> fst (xfs_raw_read D w b buf) = true.
Proof.
  intros Hb. destruct (fst (xfs_raw_read D w b buf)) eqn:H; [reflexivity|exfalso].
  refine (ram_no_error 512 1024 128 ltac:(lia) ltac:(done) ltac:(lia) ltac:(done) _).
  exists b. split; [exact Hb|left; exists w, buf; exact H].
Qed.

Lemma journal_reads sb w b buf : layout_ok sb -> s_total_blocks sb = 128 -> in_journal sb b ->
  fst (xfs_raw_read D w b buf) = true.
Proof. intros L Hn Hb. apply ram_reads. unfold in_journal in Hb. assert (0 <= xfs_inode_table_blocks) by done. destruct L. lia. Qed.

Lemma ghost_ok : block_ok ghost.
Proof. split; [apply length_replicate|]. apply Forall_replicate. unfold byte_ok. lia. Qed.

Lemma not_journal sb b : layout_ok sb -> b <= s_inode_bitmap_start sb -> ~ in_journal sb b.
Proof. intros L Hb. unfold in_journal. destruct L. lia. Qed.

Lemma transaction_written : result (transaction D [(1, ghost)] mount0) = Some tt.
Proof. vm_compute. reflexivity. Qed.

(** The next mount of the device, before the recovery. *)
Definition remount (sb : k64_xfs_superblock_disk_t) (w : ram) : xstate ram :=
  set_fs (with_super sb (with_mounted true zero_mount)) (power_on w).

(** The device of a crash that hits while block 1 is being written back. *)
Definition half_written (w : ram) : ram := (xfs_raw_write D w 1 (replicate 2048 1 ++ zeros 2048)).2.

Lemma half_written_journal w b : in_journal super0 b -> disk_block D (half_written w) b = disk_block D w b.
Proof.
  intros Hb. unfold half_written. destruct (xfs_raw_write D w 1 _) as [ok w'] eqn:Hw.
  refine (raw_write_frame D D_ok w 1 _ ok w' b Hw (proj1 (Z.leb_le 0 1) eq_refl) _). intros ->.
  refine (not_journal _ _ mount0_layout _ Hb). pose proof (lo_ibm _ mount0_layout). lia.
Qed.


(** A transaction that stops before its commit, in a journal that holds one
    that was committed before. *)
Definition older : xstate ram :=
  match (formatted ;; k64_xfs_mount D ;; transaction D [(1, zeros BLOCK)]) (power_on ∅) with
  | Ret _ s => s
  | _ => mount0
  end.
Definition not_of (tx : Z) (k : nat) : bool :=
  match entry_in (disk_block D (xhw older) (header_at super0 k)) with
  | Some e => negb (j_tx_id e =? tx)
  | None => true
  end.

Lemma older_facts : seven (forallb (not_of 2) (seq 0 16))
  (match entry_in (disk_block D (xhw older) (header_at super0 1)) with
   | Some e => (j_type e =? K64_XFS_JOURNAL_COMMIT) && (j_tx_id e =? 1)
   | None => false end)
  (bool_decide (is_Some (result ((k64_xfs_journal_begin ;; log_records D [(1, ghost)]) older))))
  (s_journal_start (super (fs older)) =? s_journal_start super0)
  (s_journal_blocks (super (fs older)) =? s_journal_blocks super0)
  (s_total_blocks (super (fs older)) =? s_total_blocks super0)
  (mounted (fs older) && negb (journal_active (fs older)) && (tx_id (fs older) =? 1)) = true.
Proof. vm_compute. reflexivity. Qed.

#[local] Opaque older.

Lemma next2 : u64 (1 + 1) = 2.
Proof. reflexivity. Qed.

Lemma older_stale k e : in_journal super0 (header_at super0 k) ->
  entry_in (disk_block D (xhw older) (header_at super0 k)) = Some e -> j_tx_id e <> 2.
Proof.
  intros [_ Hk] He. pose proof older_facts as Hn. apply seven_checks, proj1 in Hn.
  rewrite forallb_forall in Hn. rewrite (f0_journal mount0_checked) in Hk. unfold header_at, K64_XFS_JOURNAL_BLOCKS in Hk.
  specialize (Hn k ltac:(apply in_seq; lia)). unfold not_of in Hn. rewrite He in Hn.
  by apply negb_true_iff, Z.eqb_neq in Hn.
Qed.

Lemma recover_uncommitted_witness : exists s',
  (k64_xfs_journal_begin ;; log_records D [(1, ghost)]) older = Ret tt s' /\
  let c := remount super0 (xhw s') in
  wp (k64_xfs_journal_recover D)
    (fun _ c' => cleared D (super (fs older)) (xhw c') /\
       forall b, ~ in_journal (super (fs older)) b -> disk_block D (xhw c') b = disk_block D (xhw c) b)
    (fun c' => (exists b, in_journal (super (fs older)) b /\ write_fails D b) /\
       forall b, ~ in_journal (super (fs older)) b -> disk_block D (xhw c') b = disk_block D (xhw c) b) c.
Proof.
  pose proof older_facts as HF. apply seven_checks in HF. destruct HF as (_ & _ & HR & HS & HB & HT & HM).
  apply bool_decide_eq_true_1 in HR. destruct HR as [[] HR]. destruct (result_ret _ _ HR) as [s' H].
  apply andb_true_iff in HM as [[Hm Ha%negb_true_iff]%andb_true_iff Htx%Z.eqb_eq].
  apply Z.eqb_eq in HS, HB, HT. exists s'. split; [exact H|].
  assert (SA : same_area super0 (super (fs older))) by (split_and!; [exact HS|exact HB|exact HT]).
  assert (HJ : forall b, in_journal (super (fs older)) b <-> in_journal super0 b)
    by (intros b; exact (same_area_journal _ _ b SA)).
  assert (HH : forall k, header_at (super (fs older)) k = header_at super0 k)
    by (intros k; exact (same_area_header _ _ k SA)).
  refine (recover_uncommitted D D_ok [(1, ghost)] older s' (remount super0 (xhw s')) Hm Ha
    (same_area_ok _ _ SA (layout_area _ mount0_layout)) _
    (fun w b buf Hb => journal_reads super0 w b buf mount0_layout (f0_total mount0_checked) (proj1 (HJ b) Hb))
    _ _ _ _ H eq_refl _ (fun _ _ => eq_refl)).
  - rewrite HB. exact (Z.eq_le_incl _ _ (f0_journal mount0_checked)).
  - apply Forall_cons_2; [|apply Forall_nil_2]. exact (conj (proj1 (Z.leb_le 0 1) eq_refl) ghost_ok).
  - discriminate.
  - rewrite Htx, next2. discriminate.
  - intros k e Hk He. rewrite HH in Hk, He. rewrite Htx, next2. exact (older_stale k e (proj1 (HJ _) Hk) He).
  - split_and!; [symmetry; exact HS|symmetry; exact HB|symmetry; exact HT].
Defined.

(** ** The block layer *)
Lemma D_geometry : geometry_ok D.
Proof. apply ram_geometry; lia. Qed.

Lemma block_written : fst (k64_block_write D ∅ 3 1 (zeros 512)) = true.
Proof. vm_compute. reflexivity. Qed.

Lemma block_write_confined_witness : exists w', k64_block_write D ∅ 3 1 (zeros 512) = (true, w') /\
  (forall l, l < 0 \/ 0 + 1024 <= l -> sector (d := D) w' l = sector (d := D) ∅ l) /\
  (true = true -> 3 + 1 <= 1024 /\
     (forall k, (k < Z.to_nat 1)%nat -> sector (d := D) w' (0 + 3 + Z.of_nat k) = slice (zeros 512) (k * Z.to_nat 512) (Z.to_nat 512)) /\
     (forall l, l < 0 + 3 \/ 0 + 3 + 1 <= l -> sector (d := D) w' l = sector (d := D) ∅ l)).
Proof.
  pose proof block_written as H. destruct (k64_block_write D ∅ 3 1 (zeros 512)) as [ok w'] eqn:Hw.
  cbn [fst] in H. subst ok. exists w'. split; [reflexivity|].
  refine (block_write_confined D D_geometry ∅ 3 1 (zeros 512) true w' _ _ _ (zeros_bytes_ok 512) Hw);
    [lia|lia|rewrite zeros_length; reflexivity].
Defined.

(** A disk of 4096 sectors, registered by nobody yet. *)
Definition blank_disk : k64_block_device_t ram := ram_device 512 4096.
Definition no_devices : registry ram := k64_block_init (mk_registry [] 0 0 ∅).

Lemma blank_disk_geometry : geometry_ok blank_disk.
Proof. apply ram_geometry; lia. Qed.

Lemma partitioned : exists r', k64_block_write_k64_mbr no_devices blank_disk = (true, r').
Proof.
  assert (H : (k64_block_write_k64_mbr no_devices blank_disk).1 = true) by (vm_compute; reflexivity).
  destruct (k64_block_write_k64_mbr no_devices blank_disk) as [ok r']. exists r'. cbn [fst] in H. by rewrite H.
Qed.

Lemma write_mbr_then_scan_witness : exists r', k64_block_write_k64_mbr no_devices blank_disk = (true, r') /\
  exists part, block_devices r' !! 0%nat = Some part /\
    block_device_count r' = 1%nat /\ is_partition part = true /\
    start_lba part = K64_MBR_PARTITION_LBA /\ block_count part = 4096 - K64_MBR_PARTITION_LBA /\
    partition_type part = 0x83 /\ block_size part = 512 /\
    read part = read blank_disk /\ write part = write blank_disk /\ context part = context blank_disk.
Proof.
  destruct partitioned as [r' H]. exists r'. split; [exact H|].
  refine (write_mbr_then_scan blank_disk blank_disk_geometry no_devices r' (k64_block_init_ok _) eq_refl
    (fun w => eq_refl) _ _ eq_refl H); vm_compute; lia.
Defined.
