(* ===== verification/FsScenario.v ===== *)
(** * The path interface: concrete runs

    Operations by path on the memory disk, what normalization gets wrong, and the
    theorems at concrete inputs. *)
From Stdlib Require Import ZArith Lia.
From stdpp Require Import base list gmap.
From S2P Require Import Prelude Exec KString XfsFormat XfsCrc Block BlockSpec Cache CacheSpec Journal JournalSpec XfsCore XfsSpec AllocSpec XfsDir DirSpec XfsOps FileSpec XfsCheck Scenario StorageWitness Fs FsSpec.

(** A round through the operations, from the directory [/a]. *)
Definition by_path : M (xstate ram) (list Z * list Z * list Z) :=
  formatted ;; k64_xfs_mount D ;;
  k64_fs_mkdir_p D (str "/") (str "a/b/c") ;;
  cwd ← k64_fs_cd D (str "/") (str "a");
  k64_fs_write_file D cwd (str "b/f") (str "hello") ;;
  k64_fs_append_file D cwd (str "./b//f") (str " world") ;;
  k64_fs_copy D cwd (str "b/f") (str "/g") ;;
  k64_fs_write_file_range D cwd (str "/g") 13 (str "!") ;;
  k64_fs_truncate D cwd (str "b/f") 7 ;;
  f ← k64_fs_cat D cwd (str "/a/b/f") 64;
  g ← k64_fs_read_file_range D cwd (str "../g") 6 64;
  ls ← k64_fs_ls D cwd [] 512;
  mret (f, g, ls).
Lemma by_path_result : result (by_path (power_on ∅)) = Some (str "hello w", str "world" ++ [0; 0] ++ str "!", str "b/" ++ [10]).
Proof. vm_compute. reflexivity. Qed.

(** ** Defects *)

(** A second [..] behind a name that follows a [..] is lost: the path names a file in
    the wrong directory, which is then written. *)
Lemma parent_lost :
  fs_normalize (str "/") (str "/a/b/../c/../../x") FULL_MAX = Some (str "/a//x") /\
  result ((formatted ;; k64_xfs_mount D ;; k64_fs_mkdir_p D (str "/") (str "/a") ;; k64_fs_write_file D (str "/") (str "/a/b/../c/../../x") (str "data") ;;
           k64_fs_ls D (str "/") (str "/a") 512) (power_on ∅)) = Some (str "x" ++ [10]).
Proof. split; vm_compute; reflexivity. Qed.

(** A path of more than 255 characters names the file of its first 255. *)
Lemma long_path_cut :
  let dir := concat (replicate 25 (str "/abcdefghi")) in
  fs_normalize (str "/") (dir ++ str "/name.txt") FULL_MAX = fs_normalize (str "/") (dir ++ str "/name") FULL_MAX.
Proof. vm_compute. reflexivity. Qed.

(** ** The theorems at concrete inputs *)
Lemma fs_normalize_spec_witness :
  exists out, fs_normalize (str "/home/me") (str "../you/./x//y") FULL_MAX = Some out /\ nth 0 out 0 = SLASH /\ components out = [str "home"; str "you"; str "x"; str "y"] /\
    (1%nat = 0%nat -> out = render ([str "home"; str "me"] ++ [str "you"; str "x"; str "y"])).
Proof.
  apply (fs_normalize_spec (str "/home/me") (str "../you/./x//y") [str "home"; str "me"] 1 [str "you"; str "x"; str "y"]).
  - reflexivity.
  - unfold path_fits. vm_compute. lia.
  - apply (bool_decide_unpack _). vm_compute. exact I.
  - vm_compute. reflexivity.
  - apply (bool_decide_unpack _). vm_compute. exact I.
  - apply (bool_decide_unpack _). vm_compute. exact I.
Defined.

Lemma file0_at : file_at D mount0 (str "/f") 2 inode0.
Proof.
  split; [exact mount0_ready|exact root0|exact (f1_path file0_checked)|exact (f1_resolve file0_checked)|exact (f1_type file0_checked)|exact (f1_extents file0_checked)|].
  rewrite (f1_size file0_checked). unfold K64_ROOTFS_RAW_MAX. lia.
Qed.
Lemma append_file_spec_witness :
  wp (k64_fs_append_file D (str "/") (str "f") (str "more"))
    (fun _ s' => i_size inode0 + 4 <= K64_ROOTFS_RAW_MAX /\ written D mount0 2 inode0 (content (fview D mount0) inode0 ++ str "more") (i_uid inode0) (i_gid inode0) s')
    (fun s' => (K64_ROOTFS_RAW_MAX < i_size inode0 + 4 /\ quiet D mount0 s') \/ no_room D mount0 inode0 (i_size inode0 + 4) s') mount0.
Proof.
  apply (append_file_spec D D_ok mount0 (str "/") (str "f") (str "/f") 2 inode0 (str "more")).
  - reflexivity.
  - reflexivity.
  - exact file0_at.
  - apply str_bytes_ok.
Defined.
