(* ===== verification/Mem.v ===== *)
(** * Physical memory

    The kernel runs identity mapped: it reads boot structures, page tables, task
    stacks and page contents at their physical addresses.  Memory is a finite
    map from addresses to bytes (a byte never written is zero); words lie in it
    in little-endian order. *)
From Stdlib Require Import ZArith Lia.
From stdpp Require Import base list gmap.
From S2P Require Import Prelude.

Abbreviation mem := (gmap Z Z).

Definition byte_at (m : mem) (a : Z) : Z := default 0 (m !! a).

Fixpoint store_bytes (m : mem) (a : Z) (bs : list Z) : mem :=
  match bs with
  | [] => m
  | b :: bs => store_bytes (<[a := b]> m) (a + 1) bs
  end.

Definition load_bytes (m : mem) (a : Z) (n : nat) : list Z :=
  map (fun i => byte_at m (a + Z.of_nat i)) (seq 0 n).

Definition load32 (m : mem) (a : Z) : Z := le_value (load_bytes m a 4).
Definition load64 (m : mem) (a : Z) : Z := le_value (load_bytes m a 8).
Definition store64 (m : mem) (a v : Z) : mem := store_bytes m a (le_bytes 8 v).

(** Every cell holds a byte. *)
Definition mem_ok (m : mem) : Prop := forall a, byte_ok (byte_at m a).

Lemma byte_at_store m a bs x : byte_at (store_bytes m a bs) x =
  if decide (a <= x < a + Z.of_nat (length bs)) then default 0 (bs !! Z.to_nat (x - a)) else byte_at m x.
Proof.
  revert m a. induction bs as [|b bs IH]; intros m a; cbn [store_bytes length].
  - rewrite decide_False by lia. done.
  - rewrite IH. destruct (decide (x = a)) as [->|Hne].
    + rewrite decide_False by lia. rewrite decide_True by lia. rewrite Z.sub_diag.
      unfold byte_at. by rewrite lookup_insert_eq.
    + case_decide as H1.
      * rewrite decide_True by lia. replace (Z.to_nat (x - a)) with (S (Z.to_nat (x - (a + 1)))) by lia. done.
      * rewrite decide_False by lia. unfold byte_at. by rewrite lookup_insert_ne.
Qed.

Lemma byte_at_store_out m a bs x : ~ (a <= x < a + Z.of_nat (length bs)) ->
  byte_at (store_bytes m a bs) x = byte_at m x.
Proof. intros H. rewrite byte_at_store. by rewrite decide_False. Qed.

Lemma byte_at_store_in m a bs x b : bs !! Z.to_nat (x - a) = Some b -> a <= x ->
  byte_at (store_bytes m a bs) x = b.
Proof.
  intros Hb Hx. rewrite byte_at_store. rewrite decide_True; [by rewrite Hb|].
  apply lookup_lt_Some in Hb. lia.
Qed.

Lemma load_bytes_length m a n : length (load_bytes m a n) = n.
Proof. unfold load_bytes. by rewrite length_map, length_seq. Qed.
#[export] Hint Rewrite load_bytes_length : k64len.

Lemma load_bytes_lookup m a n i : (i < n)%nat -> load_bytes m a n !! i = Some (byte_at m (a + Z.of_nat i)).
Proof.
  intros Hi. unfold load_bytes. rewrite list_lookup_fmap, lookup_seq_lt by done. done.
Qed.

Lemma load_bytes_ext m m' a n : (forall x, a <= x < a + Z.of_nat n -> byte_at m' x = byte_at m x) ->
  load_bytes m' a n = load_bytes m a n.
Proof.
  intros H. apply list_eq_same_length with n; [len..|]. intros i x y Hi.
  rewrite !load_bytes_lookup by done. rewrite H by lia. congruence.
Qed.

Lemma load_store_bytes m a bs : load_bytes (store_bytes m a bs) a (length bs) = bs.
Proof.
  apply list_eq_same_length with (length bs); [done|len|]. intros i x y Hi.
  rewrite load_bytes_lookup by done. intros Hx Hy. simplify_eq.
  apply byte_at_store_in; [|lia]. by replace (Z.to_nat (a + Z.of_nat i - a)) with i by lia.
Qed.

Lemma load_bytes_ok m a n : mem_ok m -> bytes_ok (load_bytes m a n).
Proof. intros H. unfold load_bytes. apply Forall_map, Forall_true. intros i. apply H. Qed.

Lemma store_bytes_ok m a bs : mem_ok m -> bytes_ok bs -> mem_ok (store_bytes m a bs).
Proof.
  intros H Hb x. rewrite byte_at_store. case_decide; [|apply H].
  destruct (bs !! _) eqn:E; cbn; [|by vm_compute]. by eapply Forall_lookup_1 in Hb.
Qed.

Lemma load64_range m a : mem_ok m -> 0 <= load64 m a < 18446744073709551616.
Proof.
  intros H. unfold load64. pose proof (le_value_range (load_bytes m a 8) (load_bytes_ok m a 8 H)).
  by rewrite load_bytes_length in *.
Qed.

Lemma load_store64_eq m a v : 0 <= v < 18446744073709551616 -> load64 (store64 m a v) a = v.
Proof.
  intros Hv. unfold load64, store64.
  pose proof (load_store_bytes m a (le_bytes 8 v)) as H. rewrite le_bytes_length in H. rewrite H.
  by apply le_value_bytes.
Qed.

Lemma load_store64_ne m a a' v : a + 8 <= a' \/ a' + 8 <= a -> load64 (store64 m a v) a' = load64 m a'.
Proof.
  intros H. unfold load64, store64. f_equal. apply load_bytes_ext. intros x Hx.
  apply byte_at_store_out. rewrite le_bytes_length. lia.
Qed.

Lemma byte_at_store64_out m a v x : ~ (a <= x < a + 8) -> byte_at (store64 m a v) x = byte_at m x.
Proof. intros H. apply byte_at_store_out. by rewrite le_bytes_length. Qed.

Lemma load64_zero m a : (forall x, a <= x < a + 8 -> byte_at m x = 0) -> load64 m a = 0.
Proof.
  intros H. unfold load64. transitivity (le_value (load_bytes ∅ a 8)); [|by vm_compute].
  f_equal. apply load_bytes_ext. intros x Hx. rewrite H by lia. unfold byte_at. by rewrite lookup_empty.
Qed.

Lemma store64_ok m a v : mem_ok m -> mem_ok (store64 m a v).
Proof. intros H. apply store_bytes_ok; [done|apply le_bytes_ok]. Qed.

#[export] Hint Resolve store64_ok store_bytes_ok : k64.
#[global] Opaque load_bytes store_bytes.
