(* ===== verification/Pmm.v ===== *)
(** * The physical memory manager ([k64_pmm.c])

    One bit per 4 KiB page frame of the first 4 GiB, set when the frame is in
    use; a count of the available frames and of the used ones.  The manager is
    filled from the memory map of the Multiboot loader.  A pointer is its
    address, [0] is [NULL].  Log and terminal output is left out. *)
From Stdlib Require Import ZArith Lia.
From stdpp Require Import base list gmap.
From S2P Require Import Prelude Exec Mem.

Definition K64_FRAME_SIZE : Z := 4096.
Definition K64_MAX_FRAMES : Z := 1024 * 1024.
Definition MULTIBOOT_MAGIC : Z := 0x2BADB002.

(** [sizeof(pmm_bitmap)] *)
Definition PMM_BITMAP_BYTES : nat := Z.to_nat (K64_MAX_FRAMES / 8).

Record pmm := mk_pmm {
  pmm_bitmap : list Z;
  total_frames : Z;
  used_frames : Z
}.

(** The static storage at boot. *)
Definition pmm_boot : pmm := mk_pmm (zeros PMM_BITMAP_BYTES) 0 0.

Definition set_bitmap (bm : list Z) (p : pmm) : pmm := mk_pmm bm (total_frames p) (used_frames p).
Definition set_total (n : Z) (p : pmm) : pmm := mk_pmm (pmm_bitmap p) n (used_frames p).
Definition set_used (n : Z) (p : pmm) : pmm := mk_pmm (pmm_bitmap p) (total_frames p) n.

(** ** Bits *)
Definition set_frame (frame : Z) : M pmm unit := fun p =>
  (bm ← deref (x ← getZ (pmm_bitmap p) (frame / 8);
               setZ (pmm_bitmap p) (frame / 8) (u8 (Z.lor x (Z.shiftl 1 (frame mod 8)))));
   modify (set_bitmap bm)) p.

Definition clear_frame (frame : Z) : M pmm unit := fun p =>
  (bm ← deref (x ← getZ (pmm_bitmap p) (frame / 8);
               setZ (pmm_bitmap p) (frame / 8) (u8 (Z.land x (Z.lnot (Z.shiftl 1 (frame mod 8))))));
   modify (set_bitmap bm)) p.

Definition test_frame (frame : Z) : M pmm bool := fun p =>
  (x ← deref (getZ (pmm_bitmap p) (frame / 8));
   mret (negb (Z.land x (Z.shiftl 1 (frame mod 8)) =? 0))) p.

(** [used_frames++], [used_frames--], [total_frames++] *)
Definition inc_used : M pmm unit := modify (fun p => set_used (u64 (used_frames p + 1)) p).
Definition dec_used : M pmm unit := modify (fun p => set_used (u64 (used_frames p - 1)) p).
Definition inc_total : M pmm unit := modify (fun p => set_total (u64 (total_frames p + 1)) p).

(** [x & ~(uint64_t)(K64_FRAME_SIZE - 1)] *)
Definition frame_floor (a : Z) : Z := Z.land a (u64 (Z.lnot (K64_FRAME_SIZE - 1))).

(** The body of the loop of [reserve_range]. *)
Definition reserve_frame (addr : Z) : M pmm unit :=
  let frame := addr / K64_FRAME_SIZE in
  if frame <? K64_MAX_FRAMES then
    used ← test_frame frame;
    if used : bool then mret tt else set_frame frame ;; inc_used
  else mret tt.

(** The bounds of the loop are multiples of the frame size: it runs exactly
    [(end - start) / K64_FRAME_SIZE] times. *)
Definition reserve_range (start end_ : Z) : M pmm unit :=
  if end_ <=? start then mret tt
  else
    let start := frame_floor start in
    let end_ := frame_floor (u64 (end_ + K64_FRAME_SIZE - 1)) in
    for_loop (Z.to_nat ((end_ - start) / K64_FRAME_SIZE)) 0
      (fun i => reserve_frame (start + i * K64_FRAME_SIZE)).

(** ** Initialization

    [multiboot_info_t], [multiboot_mmap_entry_t] and [multiboot_module_t] are
    packed structs in physical memory. *)
Definition mb_flags (m : mem) (mb : Z) : Z := load32 m mb.
Definition mb_mods_count (m : mem) (mb : Z) : Z := load32 m (mb + 20).
Definition mb_mods_addr (m : mem) (mb : Z) : Z := load32 m (mb + 24).
Definition mb_mmap_length (m : mem) (mb : Z) : Z := load32 m (mb + 44).
Definition mb_mmap_addr (m : mem) (mb : Z) : Z := load32 m (mb + 48).
Definition sizeof_multiboot_info : Z := 116.

Definition mmap_size (m : mem) (e : Z) : Z := load32 m e.
Definition mmap_region_addr (m : mem) (e : Z) : Z := load64 m (e + 4).
Definition mmap_region_len (m : mem) (e : Z) : Z := load64 m (e + 12).
Definition mmap_region_type (m : mem) (e : Z) : Z := load32 m (e + 20).

Definition sizeof_multiboot_module : Z := 16.
Definition mod_start (m : mem) (d : Z) : Z := load32 m d.
Definition mod_end (m : mem) (d : Z) : Z := load32 m (d + 4).

Definition REGION_FUEL : nat := Z.to_nat (K64_MAX_FRAMES + 1).

(** Releasing the frames of one available region. *)
Fixpoint region_loop (fuel : nat) (addr region_end : Z) : M pmm unit :=
  match fuel with
  | O => ub
  | S fuel =>
      if addr <? region_end then
        let frame := addr / K64_FRAME_SIZE in
        if K64_MAX_FRAMES <=? frame then mret tt
        else
          clear_frame frame ;; inc_total ;;
          region_loop fuel (u64 (addr + K64_FRAME_SIZE)) region_end
      else mret tt
  end.

(** Walking the memory map. *)
Fixpoint mmap_loop (m : mem) (fuel : nat) (mmap mmap_end : Z) : M pmm unit :=
  match fuel with
  | O => ub
  | S fuel =>
      if mmap <? mmap_end then
        (if mmap_region_type m mmap =? 1 then
           region_loop REGION_FUEL (mmap_region_addr m mmap)
             (u64 (mmap_region_addr m mmap + mmap_region_len m mmap))
         else mret tt) ;;
        mmap_loop m fuel (mmap + mmap_size m mmap + 4) mmap_end
      else mret tt
  end.

(** Every entry takes at least the four bytes of its size field. *)
Definition mmap_fuel (length : Z) : nat := S (S (Z.to_nat (length / 4))).

Definition reserve_modules (m : mem) (mods count : Z) : M pmm unit :=
  reserve_range mods (mods + count * sizeof_multiboot_module) ;;
  for_loop (Z.to_nat count) 0 (fun i =>
    reserve_range (mod_start m (mods + i * sizeof_multiboot_module))
      (mod_end m (mods + i * sizeof_multiboot_module))).

Section init.
(** The memory the loader left, the magic number and the address it passed,
    and the end of the kernel image, a symbol of the linker script. *)
Context (m : mem) (k64_mb_magic k64_mb_info kernel_end : Z).

Definition k64_pmm_init : M pmm unit :=
  if negb (k64_mb_magic =? MULTIBOOT_MAGIC) then mret tt
  else
    let mb := k64_mb_info in
    modify (set_bitmap (replicate PMM_BITMAP_BYTES 0xFF)) ;;
    if negb (Z.testbit (mb_flags m mb) 6) then mret tt
    else
      modify (fun p => set_used 0 (set_total 0 p)) ;;
      mmap_loop m (mmap_fuel (mb_mmap_length m mb)) (mb_mmap_addr m mb)
        (mb_mmap_addr m mb + mb_mmap_length m mb) ;;
      reserve_range 0 kernel_end ;;
      reserve_range mb (mb + sizeof_multiboot_info) ;;
      reserve_range (mb_mmap_addr m mb) (mb_mmap_addr m mb + mb_mmap_length m mb) ;;
      if Z.testbit (mb_flags m mb) 3
      then reserve_modules m (mb_mods_addr m mb) (mb_mods_count m mb) else mret tt.
End init.

(** ** Allocation *)
Definition frame_limit (p : pmm) : Z := Z.min (total_frames p) K64_MAX_FRAMES.

Definition try_frame (frame : Z) : M pmm (option Z) :=
  used ← test_frame frame;
  if used : bool then mret None
  else set_frame frame ;; inc_used ;; mret (Some (frame * K64_FRAME_SIZE)).

Definition k64_pmm_alloc_frame : M pmm Z := fun p =>
  (r ← find_loop (Z.to_nat (frame_limit p)) 0 try_frame;
   mret (default 0 r)) p.

(** The first used frame among [frame .. frame + frames - 1], as an offset. *)
Definition busy_in (frame frames : Z) : M pmm (option Z) :=
  find_loop (Z.to_nat frames) 0 (fun j =>
    used ← test_frame (frame + j);
    mret (if used : bool then Some j else None)).

Definition take_frames (frame frames : Z) : M pmm unit :=
  for_loop (Z.to_nat frames) 0 (fun j => set_frame (frame + j) ;; inc_used).

(** The outer loop: after a used frame the search goes on behind it. *)
Fixpoint contiguous_scan (fuel : nat) (limit frames frame : Z) : M pmm Z :=
  match fuel with
  | O => ub
  | S fuel =>
      if frame + frames <=? limit then
        r ← busy_in frame frames;
        match r with
        | Some j => contiguous_scan fuel limit frames (frame + j + 1)
        | None => take_frames frame frames ;; mret (frame * K64_FRAME_SIZE)
        end
      else mret 0
  end.

Definition k64_pmm_alloc_contiguous (frames : Z) : M pmm Z := fun p =>
  if (frames =? 0) || (K64_MAX_FRAMES <? frames) then Ret 0 p
  else contiguous_scan (S (Z.to_nat (frame_limit p))) (frame_limit p) frames 0 p.

(** The body shared by [k64_pmm_free_frame] and the loop of
    [k64_pmm_free_contiguous]. *)
Definition release_frame (frame : Z) : M pmm unit :=
  if frame <? K64_MAX_FRAMES then
    used ← test_frame frame;
    if used : bool then clear_frame frame ;; dec_used else mret tt
  else mret tt.

Definition k64_pmm_free_frame (frame_addr : Z) : M pmm unit :=
  release_frame (frame_addr / K64_FRAME_SIZE).

Definition k64_pmm_free_contiguous (frame_addr frames : Z) : M pmm unit :=
  for_loop (Z.to_nat frames) 0 (fun i => release_frame (u64 (frame_addr / K64_FRAME_SIZE + i))).

Definition k64_pmm_total_frames : M pmm Z := gets total_frames.
Definition k64_pmm_used_frames : M pmm Z := gets used_frames.
