(* ===== verification/PmmSpec.v ===== *)
(** * The physical memory manager is correct

    The bitmap seen as a predicate on frame numbers; the allocators are first
    fit and hand out frames that were free; a client that frees only what it
    was given owns pairwise disjoint blocks, and the bitmap is at all times the
    initial one plus the blocks owned; initialization leaves the kernel image,
    the boot structures, the modules and every frame without available memory
    marked as used, and all other whole frames free.

    Which frames are free once the memory map has been walked and the kernel,
    the boot structures and the modules have been reserved. *)
From Stdlib Require Import ZArith Lia.
From stdpp Require Import base list gmap.
From S2P Require Import Prelude Bitmap Exec Mem Pmm.

Lemma max_frames : K64_MAX_FRAMES = 1048576.
Proof. done. Qed.
Lemma bitmap_bytes : 8 * Z.of_nat PMM_BITMAP_BYTES = K64_MAX_FRAMES.
Proof. unfold PMM_BITMAP_BYTES. rewrite Z2Nat.id; done. Qed.
Lemma frame_size : K64_FRAME_SIZE = 4096.
Proof. done. Qed.
#[global] Opaque K64_MAX_FRAMES PMM_BITMAP_BYTES K64_FRAME_SIZE.

(** A frame is in use; memory past the bitmap always is. *)
Definition frame_used (p : pmm) (f : Z) : bool := default true (bit_at (pmm_bitmap p) f).

Record pmm_ok (p : pmm) : Prop := {
  po_length : length (pmm_bitmap p) = PMM_BITMAP_BYTES;
  po_bytes : bytes_ok (pmm_bitmap p);
  po_total : 0 <= total_frames p;
  po_used : 0 <= used_frames p < 18446744073709551616
}.

Definition in_run (x n f : Z) : Prop := x <= f < x + n.

(** [p'] is [p] with the frames [x .. x + n - 1] set to [v]. *)
Record marked (p : pmm) (x n : Z) (v : bool) (p' : pmm) : Prop := {
  mk_ok : pmm_ok p';
  mk_total : total_frames p' = total_frames p;
  mk_frames : forall f, 0 <= f ->
    frame_used p' f = if decide (in_run x n f) then v else frame_used p f
}.

Lemma frame_used_out p f : pmm_ok p -> K64_MAX_FRAMES <= f -> frame_used p f = true.
Proof.
  intros O Hf. unfold frame_used. destruct (bit_at_None (pmm_bitmap p) f) as [_ H].
  { pose proof max_frames. lia. }
  rewrite H; [done|]. rewrite (po_length _ O), bitmap_bytes. lia.
Qed.

Lemma marked_none p x n v : pmm_ok p -> n <= 0 -> marked p x n v p.
Proof. intros O Hn. split; [done|done|]. intros f Hf. rewrite decide_False; [done|]. unfold in_run. lia. Qed.

(** ** Single bits *)
Lemma u8_land_lnot x n : byte_ok x -> 0 <= n < 8 ->
  u8 (Z.land x (Z.lnot (Z.shiftl 1 n))) = set_bit x n false.
Proof.
  intros Hx Hn. unfold set_bit. rewrite Z.shiftl_1_l.
  change (u8 ?z) with (z mod 2 ^ 8). rewrite <- !Z.land_ones by lia.
  rewrite <- Z.land_assoc. done.
Qed.

Lemma u8_lor_bit x n : byte_ok x -> 0 <= n < 8 -> u8 (Z.lor x (Z.shiftl 1 n)) = set_bit x n true.
Proof.
  intros Hx Hn. rewrite Z.shiftl_1_l. destruct (set_bit_spec x n 0 true Hn ltac:(lia) Hx) as [Hb _].
  by apply u8_small.
Qed.

Section bits.
Context (p : pmm) (O : pmm_ok p) (f : Z) (Hf : 0 <= f < K64_MAX_FRAMES).

Lemma frame_range : 0 <= f < 8 * Z.of_nat (length (pmm_bitmap p)).
Proof using Hf O. rewrite (po_length _ O), bitmap_bytes. done. Qed.

Lemma frame_byte : exists x, getZ (pmm_bitmap p) (f / 8) = Some x /\ byte_ok x /\
  frame_used p f = Z.testbit x (f mod 8).
Proof using Hf O.
  destruct (bit_at_Some _ _ frame_range) as (x & Hx & Hb). exists x. split_and!; [done| |].
  - apply getZ_Some in Hx as [_ Hx]. by eapply Forall_lookup_1 in Hx; [|apply O].
  - unfold frame_used. by rewrite Hb.
Qed.

Lemma test_frame_spec : test_frame f p = Ret (frame_used p f) p.
Proof using Hf O.
  destruct frame_byte as (x & Hx & _ & ->). unfold test_frame. rewrite Hx.
  unfold deref, mbind, M_bind, mret, M_ret. rewrite Z.shiftl_1_l, land_pow2_testbit; [done|].
  apply Z.mod_pos_bound. lia.
Qed.

Lemma put_frame (v : bool) : exists bm', bit_put (pmm_bitmap p) f v = Some bm' /\
  marked p f 1 v (set_bitmap bm' p).
Proof using Hf O.
  destruct (bit_put_spec (pmm_bitmap p) f v frame_range (po_bytes _ O)) as (bm' & Hb & Hl & Hok & Hbits).
  exists bm'. split; [done|]. destruct O. split; [by split; cbn; congruence|done|].
  intros j Hj. unfold frame_used. cbn [pmm_bitmap set_bitmap]. rewrite Hbits by done.
  destruct (Z.eqb_spec f j); case_decide as Hr; unfold in_run in Hr; (done || lia).
Qed.

Lemma set_frame_spec : exists bm', set_frame f p = Ret tt (set_bitmap bm' p) /\
  marked p f 1 true (set_bitmap bm' p).
Proof using Hf O.
  destruct (put_frame true) as (bm' & Hb & Hm). exists bm'. split; [|done]. revert Hb.
  destruct frame_byte as (x & Hx & Hxb & _). unfold bit_put, set_frame. rewrite Hx.
  cbn [mbind option_bind]. rewrite u8_lor_bit; [|done|apply Z.mod_pos_bound; lia]. by intros ->.
Qed.

Lemma clear_frame_spec : exists bm', clear_frame f p = Ret tt (set_bitmap bm' p) /\
  marked p f 1 false (set_bitmap bm' p).
Proof using Hf O.
  destruct (put_frame false) as (bm' & Hb & Hm). exists bm'. split; [|done]. revert Hb.
  destruct frame_byte as (x & Hx & Hxb & _). unfold bit_put, clear_frame. rewrite Hx.
  cbn [mbind option_bind]. rewrite u8_land_lnot; [|done|apply Z.mod_pos_bound; lia]. by intros ->.
Qed.
End bits.

(** ** Operations on one frame *)
Lemma wp_test_frame f p Q E : pmm_ok p -> 0 <= f < K64_MAX_FRAMES -> Q (frame_used p f) p ->
  wp (test_frame f) Q E p.
Proof. intros O Hf HQ. unfold wp. by rewrite test_frame_spec. Qed.

Lemma pmm_ok_used n p : pmm_ok p -> pmm_ok (set_used (u64 n) p).
Proof. intros []. split; try done. apply u64_range. Qed.

(** [p'] is [p] after [n] frames from [x] were taken, or given back. *)
Record taken (p : pmm) (x n : Z) (p' : pmm) : Prop := {
  tk_mark : marked p x n true p';
  tk_used : used_frames p' = u64 (used_frames p + n)
}.

Lemma taken_ok p x n p' : taken p x n p' -> pmm_ok p'.
Proof. intros [[] _]. done. Qed.

Lemma wp_take_frame f p E (Q : unit -> pmm -> Prop) : pmm_ok p -> 0 <= f < K64_MAX_FRAMES ->
  (forall p', taken p f 1 p' -> Q tt p') -> wp (set_frame f ;; inc_used) Q E p.
Proof.
  intros O Hf HQ. destruct (set_frame_spec p O f Hf) as (bm' & Hs & [Hok Ht Hfr]).
  apply wp_bind. unfold wp at 1. rewrite Hs. apply wp_modify. apply HQ. split; [|done].
  split; [by apply pmm_ok_used|done|exact Hfr].
Qed.

Lemma wp_take_frame_then {A} (k : M pmm A) f p E Q : pmm_ok p -> 0 <= f < K64_MAX_FRAMES ->
  (forall p', taken p f 1 p' -> wp k Q E p') -> wp (set_frame f ;; inc_used ;; k) Q E p.
Proof.
  intros O Hf HQ. apply wp_bind.
  pose proof (wp_take_frame f p E (fun _ => wp k Q E) O Hf HQ) as H. apply wp_bind_inv in H.
  eapply wp_mono; [exact H| |done]. intros [] p1 H1. by apply wp_bind.
Qed.

(** Frames taken one after the other. *)
Lemma taken_snoc p x n p1 p2 : 0 <= n -> taken p x n p1 -> taken p1 (x + n) 1 p2 -> taken p x (n + 1) p2.
Proof.
  intros Hn [[O1 T1 F1] U1] [[O2 T2 F2] U2]. split; [split; [done|congruence|]|].
  - intros f Hf. rewrite F2, F1 by done. unfold in_run. repeat case_decide; (done || lia).
  - rewrite U2, U1. unfold u64. rewrite Zplus_mod_idemp_l. f_equal. lia.
Qed.

Lemma taken_refl p x : pmm_ok p -> taken p x 0 p.
Proof.
  intros O. split; [by apply marked_none|]. rewrite Z.add_0_r, u64_small; [done|]. apply O.
Qed.

Lemma wp_take_frames p x n (Q : unit -> pmm -> Prop) E : pmm_ok p -> 0 <= x -> 0 <= n ->
  x + n <= K64_MAX_FRAMES -> (forall p', taken p x n p' -> Q tt p') -> wp (take_frames x n) Q E p.
Proof.
  intros O Hx Hn Hm HQ. unfold take_frames.
  apply (wp_for_loop (fun j p' => taken p x j p')).
  - by apply taken_refl.
  - intros j p1 Hj Ht. apply wp_take_frame; [by eapply taken_ok|lia|].
    intros p2 Ht2. apply (taken_snoc p x j p1 p2); [lia|done|done].
  - intros p' Ht. apply HQ. by rewrite Z.add_0_l, Z2Nat.id in Ht.
Qed.

(** ** The allocators are first fit *)
Definition run_free (p : pmm) (x n : Z) : Prop := forall f, in_run x n f -> frame_used p f = false.

Definition limit_range p : pmm_ok p -> 0 <= frame_limit p <= K64_MAX_FRAMES.
Proof. intros []. unfold frame_limit. pose proof max_frames. lia. Qed.

Lemma alloc_frame_spec p : pmm_ok p ->
  wp k64_pmm_alloc_frame (fun a p' =>
    (exists f, 0 <= f < frame_limit p /\ a = f * K64_FRAME_SIZE /\ frame_used p f = false /\
       (forall g, 0 <= g < f -> frame_used p g = true) /\ taken p f 1 p') \/
    (a = 0 /\ p' = p /\ forall g, 0 <= g < frame_limit p -> frame_used p g = true)) (fun _ => False) p.
Proof.
  intros O. pose proof (limit_range p O) as HL. unfold k64_pmm_alloc_frame. apply wp_bind.
  apply (wp_find_loop (fun i p' => p' = p /\ forall g, 0 <= g < i -> frame_used p g = true)).
  - split; [done|]. lia.
  - intros i p1 Hi [-> Hall]. unfold try_frame. apply wp_bind, wp_test_frame; [done|lia|].
    destruct (frame_used p i) eqn:Hu.
    + apply wp_ret. split; [done|]. intros g Hg. destruct (decide (g = i)) as [->|]; [done|]. apply Hall. lia.
    + apply wp_take_frame_then; [done|lia|]. intros p2 Ht. apply wp_ret, wp_ret. left.
      exists i. split_and!; [lia|lia|done|done|done|done].
  - intros p1 [-> Hall]. apply wp_ret. right. split_and!; [done|done|]. intros g Hg. apply Hall. lia.
Qed.

Lemma busy_in_spec p x n Q E : pmm_ok p -> 0 <= x -> 0 <= n -> x + n <= K64_MAX_FRAMES ->
  (forall j, 0 <= j < n -> frame_used p (x + j) = true -> run_free p x j -> Q (Some j) p) ->
  (run_free p x n -> Q None p) -> wp (busy_in x n) Q E p.
Proof.
  intros O Hx Hn Hm HS HN. unfold busy_in.
  apply (wp_find_loop (fun i p' => p' = p /\ run_free p x i)).
  - split; [done|]. intros f Hf. unfold in_run in Hf. lia.
  - intros i p1 Hi [-> Hf]. apply wp_bind, wp_test_frame; [done|lia|].
    destruct (frame_used p (x + i)) eqn:Hu; apply wp_ret; [apply HS; [lia|done|done]|].
    split; [done|]. intros f Hff. destruct (decide (f = x + i)) as [->|]; [done|]. apply Hf. unfold in_run in *. lia.
  - intros p1 [-> Hf]. apply HN. by rewrite Z.add_0_l, Z2Nat.id in Hf.
Qed.

(** Behind a used frame no run that contains it starts. *)
Lemma contiguous_scan_spec fuel limit n x p : pmm_ok p -> 0 < n -> 0 <= x <= limit -> limit <= K64_MAX_FRAMES ->
  limit - x < Z.of_nat fuel ->
  (forall y, 0 <= y < x -> ~ run_free p y n) ->
  wp (contiguous_scan fuel limit n x) (fun a p' =>
    (exists f, 0 <= f /\ f + n <= limit /\ a = f * K64_FRAME_SIZE /\ run_free p f n /\
       (forall y, 0 <= y < f -> ~ run_free p y n) /\ taken p f n p') \/
    (a = 0 /\ p' = p /\ forall y, 0 <= y -> y + n <= limit -> ~ run_free p y n)) (fun _ => False) p.
Proof.
  revert x. induction fuel as [|fuel IH]; intros x O Hn Hx Hl Hfuel Hno; [lia|]. cbn [contiguous_scan].
  destruct (Z.leb_spec (x + n) limit) as [Hle|Hgt].
  - apply wp_bind, busy_in_spec; [done|lia|lia|lia| |].
    + intros j Hj Hu Hfr. apply IH; [done|done|lia|done|lia|]. intros y Hy Hry.
      destruct (decide (y < x)); [by apply (Hno y); [lia|]|].
      specialize (Hry (x + j)). rewrite Hry in Hu; [done|]. unfold in_run. lia.
    + intros Hfr. apply wp_bind, wp_take_frames; [done|lia|lia|lia|]. intros p' Ht. apply wp_ret. left.
      exists x. split_and!; [lia|done..].
  - apply wp_ret. right. split_and!; [done|done|]. intros y Hy Hyl. apply Hno. lia.
Qed.

Lemma alloc_contiguous_spec p n : pmm_ok p -> 0 < n <= K64_MAX_FRAMES ->
  wp (k64_pmm_alloc_contiguous n) (fun a p' =>
    (exists f, 0 <= f /\ f + n <= frame_limit p /\ a = f * K64_FRAME_SIZE /\ run_free p f n /\
       (forall y, 0 <= y < f -> ~ run_free p y n) /\ taken p f n p') \/
    (a = 0 /\ p' = p /\ forall y, 0 <= y -> y + n <= frame_limit p -> ~ run_free p y n)) (fun _ => False) p.
Proof.
  intros O Hn. pose proof (limit_range p O) as HL. unfold wp, k64_pmm_alloc_contiguous.
  rewrite (proj2 (Z.eqb_neq n 0)), (proj2 (Z.ltb_ge K64_MAX_FRAMES n)) by lia. cbn [orb].
  apply contiguous_scan_spec; [done|lia|lia|lia|lia|lia].
Qed.

(** ** Freeing *)
Record given (p : pmm) (x n : Z) (p' : pmm) : Prop := {
  gv_mark : marked p x n false p';
  gv_used : used_frames p' = u64 (used_frames p - n)
}.

Lemma given_ok p x n p' : given p x n p' -> pmm_ok p'.
Proof. intros [[] _]. done. Qed.

Lemma release_frame_spec p f Q E : pmm_ok p -> 0 <= f < K64_MAX_FRAMES -> frame_used p f = true ->
  (forall p', given p f 1 p' -> Q tt p') -> wp (release_frame f) Q E p.
Proof.
  intros O Hf Hu HQ. unfold release_frame. rewrite (proj2 (Z.ltb_lt _ _)) by lia.
  apply wp_bind, wp_test_frame; [done|done|]. rewrite Hu.
  destruct (clear_frame_spec p O f Hf) as (bm' & Hs & [Hok Ht Hfr]).
  apply wp_bind. unfold wp at 1. rewrite Hs. apply wp_modify. apply HQ. split; [|done].
  split; [by apply pmm_ok_used|done|exact Hfr].
Qed.

Lemma given_snoc p x n p1 p2 : 0 <= n -> given p x n p1 -> given p1 (x + n) 1 p2 -> given p x (n + 1) p2.
Proof.
  intros Hn [[O1 T1 F1] U1] [[O2 T2 F2] U2]. split; [split; [done|congruence|]|].
  - intros f Hf. rewrite F2, F1 by done. unfold in_run. repeat case_decide; (done || lia).
  - rewrite U2, U1. unfold u64. rewrite Zminus_mod_idemp_l. f_equal. lia.
Qed.

Lemma free_contiguous_spec p x n Q E : pmm_ok p -> 0 <= x -> 0 <= n -> x + n <= K64_MAX_FRAMES ->
  (forall f, in_run x n f -> frame_used p f = true) ->
  (forall p', given p x n p' -> Q tt p') ->
  wp (k64_pmm_free_contiguous (x * K64_FRAME_SIZE) n) Q E p.
Proof.
  intros O Hx Hn Hm Hu HQ. unfold k64_pmm_free_contiguous.
  rewrite Z.div_mul by (rewrite frame_size; lia).
  apply (wp_for_loop (fun j p' => given p x j p')).
  - split; [by apply marked_none|]. rewrite Z.sub_0_r, u64_small; [done|]. apply O.
  - intros j p1 Hj Hg. pose proof max_frames. rewrite u64_small by lia.
    apply release_frame_spec; [by eapply given_ok|lia| |].
    + destruct Hg as [[_ _ F1] _]. rewrite F1 by lia. rewrite decide_False by (unfold in_run; lia).
      apply Hu. unfold in_run. lia.
    + intros p2 Hg2. apply (given_snoc p x j p1 p2); [lia|done|done].
  - intros p' Hg. apply HQ. by rewrite Z.add_0_l, Z2Nat.id in Hg.
Qed.

Lemma free_frame_spec p x Q E : pmm_ok p -> 0 <= x < K64_MAX_FRAMES -> frame_used p x = true ->
  (forall p', given p x 1 p' -> Q tt p') -> wp (k64_pmm_free_frame (x * K64_FRAME_SIZE)) Q E p.
Proof.
  intros. unfold k64_pmm_free_frame. rewrite Z.div_mul by (rewrite frame_size; lia). by apply release_frame_spec.
Qed.

(** ** A client of the allocator

    A client asks for frames and gives back blocks it was given. *)
Inductive call : Type :=
  | GetFrame
  | GetRun (n : Z)
  | PutBack (k : nat).

(** A block is its first frame and its number of frames. *)
Abbreviation block := (Z * Z)%type.
Record client := mk_client { cl_pmm : pmm; owned : list block }.

Definition on_pmm {A} (m : M pmm A) : M client A :=
  zoom cl_pmm (fun p c => mk_client p (owned c)) m.

Definition keep_block (a n : Z) : M client unit :=
  if a =? 0 then mret tt
  else modify (fun c => mk_client (cl_pmm c) ((a / K64_FRAME_SIZE, n) :: owned c)).

Definition exec (c : call) : M client unit :=
  match c with
  | GetFrame => a ← on_pmm k64_pmm_alloc_frame; keep_block a 1
  | GetRun n => a ← on_pmm (k64_pmm_alloc_contiguous n); keep_block a n
  | PutBack k => fun c =>
      match owned c !! k with
      | Some b =>
          (on_pmm (k64_pmm_free_contiguous (b.1 * K64_FRAME_SIZE) b.2) ;;
           modify (fun c => mk_client (cl_pmm c) (delete k (owned c)))) c
      | None => Ret tt c
      end
  end.

Fixpoint exec_all (cs : list call) : M client unit :=
  match cs with
  | [] => mret tt
  | c :: cs => exec c ;; exec_all cs
  end.

Definition covered (bs : list block) (f : Z) : Prop := exists b, b ∈ bs /\ in_run b.1 b.2 f.
Definition apart (b c : block) : Prop := forall f, in_run b.1 b.2 f -> ~ in_run c.1 c.2 f.
Inductive pairwise_apart : list block -> Prop :=
  | apart_nil : pairwise_apart []
  | apart_cons b bs : Forall (apart b) bs -> pairwise_apart bs -> pairwise_apart (b :: bs).
Definition frames_in (bs : list block) : Z := foldr (fun b n => b.2 + n) 0 bs.

(** The manager [p] is the initial one, [p0], plus the blocks owned. *)
Record heap (p0 : pmm) (bs : list block) (p : pmm) : Prop := {
  hp_ok : pmm_ok p;
  hp_total : total_frames p = total_frames p0;
  hp_view : forall f, 0 <= f -> frame_used p f = true <-> frame_used p0 f = true \/ covered bs f;
  hp_apart : pairwise_apart bs;
  hp_fresh : forall f, covered bs f -> 0 < f < frame_limit p0 /\ frame_used p0 f = false;
  hp_blocks : Forall (fun b => 0 < b.1 /\ 0 < b.2 /\ b.1 + b.2 <= frame_limit p0) bs;
  hp_count : used_frames p = u64 (used_frames p0 + frames_in bs)
}.

Lemma apart_sym b c : apart b c -> apart c b.
Proof. intros H f Hc Hb. by apply (H f). Qed.

Lemma covered_cons b bs f : covered (b :: bs) f <-> in_run b.1 b.2 f \/ covered bs f.
Proof.
  unfold covered. setoid_rewrite elem_of_cons. split.
  - intros (c & [->|Hc] & Hf); [by left|right; by exists c].
  - intros [Hf|(c & Hc & Hf)]; [exists b; auto|exists c; auto].
Qed.

Lemma pairwise_apart_perm bs bs' : bs ≡ₚ bs' -> pairwise_apart bs -> pairwise_apart bs'.
Proof.
  induction 1 as [|b l l' Hp IH|b c l|l1 l2 l3 _ IH1 _ IH2]; intros H; [done| | |auto].
  - inversion H; subst. constructor; [|auto]. by rewrite <- Hp.
  - inversion H as [|? ? Hc Hl]; subst. inversion Hl as [|? ? Hb Hl']; subst. inversion Hc; subst.
    constructor; [constructor; [by apply apart_sym|done]|by constructor].
Qed.

Lemma frames_in_perm bs bs' : bs ≡ₚ bs' -> frames_in bs = frames_in bs'.
Proof. unfold frames_in. induction 1; cbn [foldr]; lia. Qed.

Lemma covered_perm bs bs' f : bs ≡ₚ bs' -> covered bs f -> covered bs' f.
Proof. intros Hp (b & Hb & Hf). exists b. by rewrite <- Hp. Qed.

Lemma heap_perm p0 bs bs' p : bs ≡ₚ bs' -> heap p0 bs p -> heap p0 bs' p.
Proof.
  intros Hp [O T V A F B C]. split; [done|done| | | | |].
  - intros f Hf. rewrite V by done. split; (intros [?|?]; [by left|right; by eapply covered_perm]).
  - by eapply pairwise_apart_perm.
  - intros f Hf. apply F. by eapply covered_perm.
  - by rewrite <- Hp.
  - by rewrite <- (frames_in_perm bs bs').
Qed.

(** A block that was free is added. *)
Lemma heap_take p0 bs p x n p' : heap p0 bs p -> frame_used p0 0 = true -> 0 < n -> 0 <= x ->
  x + n <= frame_limit p -> run_free p x n -> taken p x n p' ->
  x <> 0 /\ heap p0 ((x, n) :: bs) p'.
Proof.
  intros [O T V A F B C] H0 Hn Hx Hl Hr [[O' T' F'] U'].
  assert (HL : frame_limit p = frame_limit p0) by (unfold frame_limit; by rewrite T).
  assert (Hx0 : x <> 0).
  { intros ->. assert (Hz : frame_used p 0 = true) by (apply V; [lia|by left]).
    rewrite Hr in Hz; [done|unfold in_run; lia]. }
  assert (Hnew : forall f, in_run x n f -> frame_used p0 f = false /\ ~ covered bs f).
  { intros f Hf. pose proof (Hr f Hf) as Hp. unfold in_run in Hf.
    assert (Hn' : ~ (frame_used p0 f = true \/ covered bs f)).
    { rewrite <- V by lia. by rewrite Hp. }
    split; [apply not_true_is_false; tauto|tauto]. }
  split; [done|]. split.
  - done.
  - congruence.
  - intros f Hf. rewrite F' by done. rewrite covered_cons. cbn [fst snd].
    case_decide; [tauto|]. rewrite V by done. tauto.
  - constructor; [|done]. apply Forall_forall. intros c Hc f Hf Hcf.
    apply (Hnew f Hf). by exists c.
  - intros f. rewrite covered_cons. cbn [fst snd]. intros [Hf|Hf]; [|auto].
    split; [unfold in_run in Hf; lia|]. by apply Hnew.
  - constructor; [cbn; lia|done].
  - rewrite U', C. cbn [frames_in foldr snd]. unfold u64. rewrite Zplus_mod_idemp_l. f_equal.
    unfold frames_in. lia.
Qed.

(** An owned block is given back. *)
Lemma heap_give p0 bs p b p' : heap p0 (b :: bs) p -> given p b.1 b.2 p' -> heap p0 bs p'.
Proof.
  intros [O T V A F B C] [[O' T' F'] U']. inversion A as [|? ? Ha A']; subst.
  inversion B as [|? ? Hb B']; subst. split; [done|congruence| |done| |done|].
  - intros f Hf. rewrite F' by done. case_decide as Hr.
    + split; [done|]. intros [Hu|(c & Hc & Hcf)].
      * destruct (F f) as [_ Hf0]; [rewrite covered_cons; by left|congruence].
      * rewrite Forall_forall in Ha. destruct (Ha c Hc f Hr Hcf).
    + rewrite V by done. rewrite covered_cons. tauto.
  - intros f Hf. apply F. rewrite covered_cons. by right.
  - rewrite U', C. cbn [frames_in foldr]. unfold u64. rewrite Zminus_mod_idemp_l. f_equal.
    unfold frames_in. lia.
Qed.

Lemma heap_init p0 : pmm_ok p0 -> heap p0 [] p0.
Proof.
  intros O. assert (Hno : forall f, ~ covered [] f) by (intros f (b & Hb & _); by apply not_elem_of_nil in Hb).
  split; [done|done| |constructor| |constructor|].
  - intros f Hf. split; [by left|intros [?|H]; [done|by destruct (Hno f)]].
  - intros f H. by destruct (Hno f).
  - cbn. rewrite Z.add_0_r, u64_small; [done|apply O].
Qed.

Definition get_call_ok (c : call) : Prop :=
  match c with GetRun n => 0 < n <= K64_MAX_FRAMES | _ => True end.

Definition client_ok (p0 : pmm) (c : client) : Prop := heap p0 (owned c) (cl_pmm c).

Lemma exec_get p0 (m : M pmm Z) n c : client_ok p0 c -> frame_used p0 0 = true -> 0 < n ->
  wp m (fun a p' =>
    (exists f, 0 <= f /\ f + n <= frame_limit (cl_pmm c) /\ a = f * K64_FRAME_SIZE /\
       run_free (cl_pmm c) f n /\ taken (cl_pmm c) f n p') \/ (a = 0 /\ p' = cl_pmm c))
    (fun _ => False) (cl_pmm c) ->
  wp (a ← on_pmm m; keep_block a n) (fun _ c' => client_ok p0 c') (fun _ => False) c.
Proof.
  intros H H0 Hn Hm. apply wp_bind, wp_zoom. eapply wp_mono; [exact Hm| |done].
  intros a p' [(f & Hf & Hl & -> & Hr & Ht)|[-> ->]].
  - destruct (heap_take p0 (owned c) (cl_pmm c) f n p') as [Hne Hh]; try done.
    unfold keep_block. rewrite (proj2 (Z.eqb_neq _ _)) by (rewrite frame_size; lia).
    apply wp_modify. unfold client_ok. cbn [owned cl_pmm].
    by rewrite Z.div_mul by (rewrite frame_size; lia).
  - unfold keep_block. apply wp_ret. exact H.
Qed.

Lemma exec_ok p0 x c : client_ok p0 c -> frame_used p0 0 = true -> get_call_ok x ->
  wp (exec x) (fun _ c' => client_ok p0 c') (fun _ => False) c.
Proof.
  intros H H0 Hx. destruct x as [|n|k]; cbn [exec].
  - apply exec_get; [done|done|lia|]. eapply wp_mono; [apply alloc_frame_spec, H| |done].
    intros a p' [(f & Hf & -> & Hu & _ & Ht)|(-> & -> & _)]; [left|by right].
    exists f. split_and!; [lia|lia|done| |done]. intros g Hg. unfold in_run in Hg. by replace g with f by lia.
  - cbn in Hx. apply exec_get; [done|done|lia|]. eapply wp_mono; [apply alloc_contiguous_spec, Hx; apply H| |done].
    intros a p' [(f & Hf & Hl & -> & Hr & _ & Ht)|(-> & -> & _)]; [left|by right].
    by exists f.
  - unfold wp. destruct (owned c !! k) as [b|] eqn:Hb; [|done].
    pose proof (delete_Permutation _ _ _ Hb) as Hp. apply (heap_perm _ _ _ _ Hp) in H.
    pose proof (hp_blocks _ _ _ H) as HB. inversion HB as [|? ? (Hb1 & Hb2 & Hb3) _]; subst.
    pose proof (limit_range _ (hp_ok _ _ _ H)) as HL. unfold frame_limit in HL.
    rewrite (hp_total _ _ _ H) in HL. fold (frame_limit p0) in HL.
    change (wp (on_pmm (k64_pmm_free_contiguous (b.1 * K64_FRAME_SIZE) b.2) ;;
      modify (fun c => mk_client (cl_pmm c) (delete k (owned c)))) (fun _ c' => client_ok p0 c') (fun _ => False) c).
    apply wp_bind, wp_zoom, free_contiguous_spec; [apply H|lia|lia|lia| |].
    + intros f Hf. apply (hp_view _ _ _ H); [unfold in_run in Hf; lia|]. right. rewrite covered_cons. by left.
    + intros p' Hg. apply wp_modify. unfold client_ok. cbn [owned cl_pmm]. by eapply heap_give.
Qed.

(** C13: The page-frame allocator never gives out a frame twice: whatever a
    client asks for and gives back, the blocks it owns are pairwise disjoint,
    consist of frames that were free at the start, and the bitmap and the used
    count are exactly the initial ones plus those blocks.  In particular when
    everything has been given back the bitmap is the initial one. *)
Theorem pmm_client_safe p0 cs : pmm_ok p0 -> frame_used p0 0 = true -> Forall get_call_ok cs ->
  wp (exec_all cs) (fun _ c => heap p0 (owned c) (cl_pmm c)) (fun _ => False) (mk_client p0 []).
Proof.
  intros O H0 Hcs.
  cut (forall c, client_ok p0 c -> wp (exec_all cs) (fun _ c => client_ok p0 c) (fun _ => False) c).
  { intros H. apply H. by apply heap_init. }
  induction Hcs as [|x cs Hx _ IH]; intros c Hc; cbn [exec_all]; [by apply wp_ret|].
  apply wp_bind. eapply wp_mono; [by apply exec_ok| |done]. intros [] c' Hc'. by apply IH.
Qed.

(** [k64_pmm_alloc_contiguous] is first fit: it takes the lowest run of
    [n] free frames below the limit, and returns [NULL], changing nothing, only
    when there is none.  Frame 0, whose address is [NULL], is used. *)
Theorem alloc_contiguous_first_fit p n : pmm_ok p -> frame_used p 0 = true -> 0 < n <= K64_MAX_FRAMES ->
  wp (k64_pmm_alloc_contiguous n) (fun a p' =>
    if a =? 0 then p' = p /\ forall y, 0 <= y -> y + n <= frame_limit p -> ~ run_free p y n
    else exists f, a = f * K64_FRAME_SIZE /\ 0 < f /\ f + n <= frame_limit p /\ run_free p f n /\
      (forall y, 0 <= y < f -> ~ run_free p y n) /\ taken p f n p') (fun _ => False) p.
Proof.
  intros O H0 Hn. eapply wp_mono; [by apply alloc_contiguous_spec| |done].
  intros a p' [(f & Hf & Hl & -> & Hr & Hno & Ht)|(-> & -> & Hno)]; [|done].
  assert (f <> 0). { intros ->. rewrite Hr in H0; [done|unfold in_run; lia]. }
  rewrite (proj2 (Z.eqb_neq _ _)) by (rewrite frame_size; lia).
  exists f. split_and!; [done|lia|done..].
Qed.

(** * The physical memory manager after [k64_pmm_init] *)
(** The frames that the loop over a region of the memory map releases: one for
    each step of 4 KiB from its start. *)
Definition loop_frame (start end_ f : Z) : Prop :=
  start / 4096 <= f /\ start + 4096 * (f - start / 4096) < end_.

(** A frame that shares a byte with [start .. end_ - 1]. *)
Definition touches (start end_ f : Z) : Prop :=
  start < end_ /\ f * 4096 < end_ /\ start < (f + 1) * 4096.

(** The frames of [p'] are those of [p] with the frames in [P] released. *)
Record released (P : Z -> Prop) (p p' : pmm) : Prop := {
  rl_ok : pmm_ok p';
  rl_used : used_frames p' = used_frames p;
  rl_frames : forall f, 0 <= f < K64_MAX_FRAMES -> frame_used p' f = false <-> P f \/ frame_used p f = false
}.

Record reserved (P : Z -> Prop) (p p' : pmm) : Prop := {
  rs_ok : pmm_ok p';
  rs_frames : forall f, 0 <= f < K64_MAX_FRAMES -> frame_used p' f = false <-> ~ P f /\ frame_used p f = false
}.

Lemma released_mono (P Q : Z -> Prop) p p' : (forall f, 0 <= f < K64_MAX_FRAMES -> P f <-> Q f) ->
  released P p p' -> released Q p p'.
Proof. intros H [? ? F]. split; [done..|]. intros f Hf. by rewrite F, H. Qed.

Lemma released_trans (P Q : Z -> Prop) p p1 p2 : released P p p1 -> released Q p1 p2 ->
  released (fun f => P f \/ Q f) p p2.
Proof. intros [? ? F1] [? ? F2]. split; [done|congruence|]. intros f Hf. rewrite F2, F1 by done. tauto. Qed.

Lemma reserved_mono (P Q : Z -> Prop) p p' : (forall f, 0 <= f < K64_MAX_FRAMES -> P f <-> Q f) ->
  reserved P p p' -> reserved Q p p'.
Proof. intros H [? F]. split; [done..|]. intros f Hf. by rewrite F, H. Qed.

Lemma reserved_trans (P Q : Z -> Prop) p p1 p2 : reserved P p p1 -> reserved Q p1 p2 ->
  reserved (fun f => P f \/ Q f) p p2.
Proof. intros [? F1] [? F2]. split; [done|]. intros f Hf. rewrite F2, F1 by done. tauto. Qed.

Lemma reserved_refl (P : Z -> Prop) p : pmm_ok p -> (forall f, 0 <= f < K64_MAX_FRAMES -> ~ P f) -> reserved P p p.
Proof. intros O H. split; [done|]. intros f Hf. specialize (H f Hf). tauto. Qed.

(** ** The memory map *)
Lemma wp_clear_frame f p (Q : unit -> pmm -> Prop) E : pmm_ok p -> 0 <= f < K64_MAX_FRAMES ->
  (forall p', released (eq f) p p' -> Q tt p') -> wp (clear_frame f) Q E p.
Proof.
  intros O Hf HQ. destruct (clear_frame_spec p O f Hf) as (bm' & Hs & [Hok Ht Hfr]).
  unfold wp. rewrite Hs. apply HQ. split; [done|done|]. intros g Hg. rewrite Hfr by lia.
  case_decide as Hr; unfold in_run in Hr.
  - split; [left; lia|done].
  - split; [by right|intros [->|?]; [lia|done]].
Qed.

Lemma released_total P p p' n : 0 <= n -> released P p p' -> released P p (set_total n p').
Proof. intros Hn [[] ? F]. split; [by split|done|exact F]. Qed.

Lemma wp_inc_total p (Q : unit -> pmm -> Prop) E :
  Q tt (set_total (u64 (total_frames p + 1)) p) -> wp inc_total Q E p.
Proof. done. Qed.

Lemma region_loop_spec fuel a e p Q E : pmm_ok p -> 0 <= a -> 0 <= e < 18446744073709551616 ->
  (0 < fuel)%nat -> K64_MAX_FRAMES - a / 4096 < Z.of_nat fuel ->
  (forall p', released (loop_frame a e) p p' -> Q tt p') -> wp (region_loop fuel a e) Q E p.
Proof.
  revert a p Q. induction fuel as [|fuel IH]; intros a p Q O Ha He Hpos Hfuel HQ; [lia|].
  cbn [region_loop]. rewrite frame_size. pose proof max_frames as HM.
  destruct (Z.ltb_spec a e) as [Hlt|Hge].
  2: { apply wp_ret, HQ. split; [done|done|]. intros f Hf. split; [by right|]. intros [[H1 H2]|?]; [lia|done]. }
  destruct (Z.leb_spec K64_MAX_FRAMES (a / 4096)) as [Hm|Hm].
  { apply wp_ret, HQ. split; [done|done|]. intros f Hf. split; [by right|]. intros [[H1 H2]|?]; [lia|done]. }
  apply wp_bind, wp_clear_frame; [done|dmlia|]. intros p1 R1. apply wp_bind, wp_inc_total.
  pose proof (u64_range (total_frames p1 + 1)).
  apply (released_total _ _ _ (u64 (total_frames p1 + 1))) in R1; [|lia].
  rewrite u64_small by dmlia. apply IH; [apply R1|lia|done|dmlia|dmlia|].
  intros p2 R2. apply HQ. eapply released_mono; [|exact (released_trans _ _ _ _ _ R1 R2)].
  intros f Hf. cbv beta. unfold loop_frame. dmlia.
Qed.

(** The available regions of the map, in the order of the walk. *)
Fixpoint mmap_regions (m : mem) (fuel : nat) (mmap mmap_end : Z) : list (Z * Z) :=
  match fuel with
  | O => []
  | S fuel =>
      if mmap <? mmap_end then
        let rest := mmap_regions m fuel (mmap + mmap_size m mmap + 4) mmap_end in
        if mmap_region_type m mmap =? 1
        then (mmap_region_addr m mmap, u64 (mmap_region_addr m mmap + mmap_region_len m mmap)) :: rest
        else rest
      else []
  end.

Definition looped (rs : list (Z * Z)) (f : Z) : Prop :=
  exists r, r ∈ rs /\ loop_frame r.1 r.2 f.

Lemma looped_cons r rs f : looped (r :: rs) f <-> loop_frame r.1 r.2 f \/ looped rs f.
Proof.
  unfold looped. setoid_rewrite elem_of_cons. split.
  - intros (c & [->|Hc] & Hf); [by left|right; by exists c].
  - intros [Hf|(c & Hc & Hf)]; [exists r; auto|exists c; auto].
Qed.

Lemma load32_range m a : mem_ok m -> 0 <= load32 m a < 4294967296.
Proof.
  intros H. unfold load32. pose proof (le_value_range (load_bytes m a 4) (load_bytes_ok m a 4 H)).
  by rewrite load_bytes_length in *.
Qed.

Lemma region_fuel : Z.of_nat REGION_FUEL = K64_MAX_FRAMES + 1.
Proof. unfold REGION_FUEL. rewrite Z2Nat.id; [done|]. rewrite max_frames. lia. Qed.
#[local] Opaque REGION_FUEL.

Lemma mmap_loop_spec m fuel a e p Q E : mem_ok m -> pmm_ok p ->
  (0 < fuel)%nat -> e - a <= 4 * (Z.of_nat fuel - 1) ->
  (forall p', released (looped (mmap_regions m fuel a e)) p p' -> Q tt p') ->
  wp (mmap_loop m fuel a e) Q E p.
Proof.
  intros Hm. revert a p Q. induction fuel as [|fuel IH]; intros a p Q O Hpos Hfuel HQ; [lia|].
  cbn [mmap_loop mmap_regions] in *. pose proof (load32_range m a Hm) as Hsz. fold (mmap_size m a) in Hsz.
  destruct (Z.ltb_spec a e) as [Hlt|Hge].
  2: { apply wp_ret, HQ. split; [done|done|]. intros f Hf. split; [by right|].
    intros [(r & Hr & _)|?]; [by apply not_elem_of_nil in Hr|done]. }
  assert (Hrest : forall p1 (P : Z -> Prop), released P p p1 ->
    (forall p', released (fun f => P f \/ looped (mmap_regions m fuel (a + mmap_size m a + 4) e) f) p p' -> Q tt p') ->
    wp (mmap_loop m fuel (a + mmap_size m a + 4) e) Q E p1).
  { intros p1 P R1 HQ1. destruct fuel as [|fuel'].
    - lia.
    - apply IH; [apply R1|lia|lia|]. intros p2 R2. apply HQ1. by eapply released_trans. }
  apply wp_bind. destruct (Z.eqb_spec (mmap_region_type m a) 1) as [Ht|Ht].
  - pose proof (load64_range m (a + 4) Hm) as Hra. fold (mmap_region_addr m a) in Hra.
    apply region_loop_spec; [done|lia|apply u64_range| | |].
    + pose proof region_fuel. rewrite max_frames in *. lia.
    + pose proof region_fuel. dmlia.
    + intros p1 R1. apply (Hrest p1 _ R1). intros p' R'. apply HQ. eapply released_mono; [|exact R'].
      intros f Hf. cbv beta. by rewrite looped_cons.
  - apply wp_ret. apply (Hrest p (fun _ => False)).
    + split; [done|done|]. tauto.
    + intros p' R'. apply HQ. eapply released_mono; [|exact R']. cbv beta. tauto.
Qed.

(** ** Reserving *)
Lemma reserve_frame_spec a p Q E : pmm_ok p -> 0 <= a ->
  (forall p', reserved (fun f => f = a / 4096) p p' -> Q tt p') -> wp (reserve_frame a) Q E p.
Proof.
  intros O Ha HQ. unfold reserve_frame. rewrite frame_size. pose proof max_frames as HM.
  destruct (Z.ltb_spec (a / 4096) K64_MAX_FRAMES) as [Hlt|Hge].
  2: { apply wp_ret, HQ. apply reserved_refl; [done|]. intros f Hf. lia. }
  apply wp_bind, wp_test_frame; [done|dmlia|]. destruct (frame_used p (a / 4096)) eqn:Hu.
  - apply wp_ret, HQ. split; [done|]. intros f Hf. split; [|tauto]. intros Hff. split; [|done]. congruence.
  - apply wp_take_frame; [done|dmlia|]. intros p' [[O' _ F'] _]. apply HQ. split; [done|].
    intros f Hf. rewrite F' by lia. case_decide as Hr; unfold in_run in Hr.
    + split; [done|]. intros [? _]. lia.
    + split; [|tauto]. intros ?. split; [lia|done].
Qed.

Lemma frame_floor_spec a : 0 <= a < 18446744073709551616 -> frame_floor a = 4096 * (a / 4096).
Proof.
  intros Ha. unfold frame_floor. rewrite frame_size.
  change (u64 (Z.lnot (4096 - 1))) with (Z.ldiff (Z.ones 64) (Z.ones 12)).
  replace (Z.land a (Z.ldiff (Z.ones 64) (Z.ones 12))) with (Z.ldiff (Z.land a (Z.ones 64)) (Z.ones 12)).
  - rewrite Z.land_ones, Z.mod_small by lia. rewrite Z.ldiff_ones_r by lia.
    rewrite Z.shiftl_mul_pow2, Z.shiftr_div_pow2 by lia. change (2 ^ 12) with 4096. lia.
  - apply Z.bits_inj'. intros n Hn. rewrite !Z.ldiff_spec, !Z.land_spec, Z.ldiff_spec. symmetry. apply andb_assoc.
Qed.

Lemma reserve_range_spec a e p Q E : pmm_ok p -> 0 <= a -> 0 <= e < 18446744073709547520 ->
  (forall p', reserved (touches a e) p p' -> Q tt p') -> wp (reserve_range a e) Q E p.
Proof.
  intros O Ha He HQ. unfold reserve_range. destruct (Z.leb_spec e a) as [Hle|Hlt].
  { apply wp_ret, HQ. apply reserved_refl; [done|]. intros f _ [? _]. lia. }
  rewrite frame_size, (frame_floor_spec a) by lia. rewrite u64_small by lia.
  rewrite frame_floor_spec by lia. set (x := a / 4096). set (y := (e + 4096 - 1) / 4096).
  replace ((4096 * y - 4096 * x) / 4096) with (y - x) by dmlia.
  assert (Hxy : x <= y) by (unfold x, y; dmlia). assert (Hx : 0 <= x) by (unfold x; dmlia).
  apply (wp_for_loop (fun i p' => reserved (fun f => x <= f < x + i) p p')).
  - apply reserved_refl; [done|]. intros f _ ?. lia.
  - intros i p1 Hi R1. apply reserve_frame_spec; [apply R1|lia|]. intros p2 R2.
    eapply reserved_mono; [|exact (reserved_trans _ _ _ _ _ R1 R2)].
    intros f Hf. cbv beta. replace ((4096 * x + i * 4096) / 4096) with (x + i) by dmlia. lia.
  - intros p' R'. apply HQ. eapply reserved_mono; [|exact R'].
    intros f Hf. cbv beta. unfold touches, x, y in *. dmlia.
Qed.

Section init.
Context (m : mem) (mb kernel_end : Z).

Definition module_range (i : Z) : Z * Z :=
  let d := mb_mods_addr m mb + i * sizeof_multiboot_module in (mod_start m d, mod_end m d).

(** What must not be handed out. *)
Definition precious (f : Z) : Prop :=
  touches 0 kernel_end f \/ touches mb (mb + sizeof_multiboot_info) f \/
  touches (mb_mmap_addr m mb) (mb_mmap_addr m mb + mb_mmap_length m mb) f \/
  (Z.testbit (mb_flags m mb) 3 = true /\
   (touches (mb_mods_addr m mb) (mb_mods_addr m mb + mb_mods_count m mb * sizeof_multiboot_module) f \/
    exists i, 0 <= i < mb_mods_count m mb /\ touches (module_range i).1 (module_range i).2 f)).

Definition boot_regions : list (Z * Z) :=
  mmap_regions m (mmap_fuel (mb_mmap_length m mb)) (mb_mmap_addr m mb)
    (mb_mmap_addr m mb + mb_mmap_length m mb).

Lemma reserve_modules_spec p Q E : mem_ok m -> pmm_ok p ->
  (forall p', reserved (fun f =>
     touches (mb_mods_addr m mb) (mb_mods_addr m mb + mb_mods_count m mb * sizeof_multiboot_module) f \/
     exists i, 0 <= i < mb_mods_count m mb /\ touches (module_range i).1 (module_range i).2 f) p p' -> Q tt p') ->
  wp (reserve_modules m (mb_mods_addr m mb) (mb_mods_count m mb)) Q E p.
Proof.
  intros Hm O HQ. unfold reserve_modules.
  pose proof (load32_range m (mb + 24) Hm) as Ha. fold (mb_mods_addr m mb) in Ha.
  pose proof (load32_range m (mb + 20) Hm) as Hc. fold (mb_mods_count m mb) in Hc.
  assert (sizeof_multiboot_module = 16) as Hs by done.
  apply wp_bind, reserve_range_spec; [done|lia|lia|]. intros p1 R1.
  apply (wp_for_loop (fun i p' => reserved (fun f =>
    touches (mb_mods_addr m mb) (mb_mods_addr m mb + mb_mods_count m mb * sizeof_multiboot_module) f \/
    exists j, 0 <= j < i /\ touches (module_range j).1 (module_range j).2 f) p p')).
  - eapply reserved_mono; [|exact R1]. intros f Hf. split; [by left|]. intros [?|(j & ? & _)]; [done|lia].
  - intros i p2 Hi R2. apply reserve_range_spec; [apply R2|apply load32_range, Hm| |].
    + unfold mod_end. match goal with |- context [load32 m ?a] => pose proof (load32_range m a Hm) end. lia.
    + intros p3 R3. eapply reserved_mono; [|exact (reserved_trans _ _ _ _ _ R2 R3)]. intros f Hf. cbv beta. split.
      * intros [[?|(j & ? & ?)]|?]; [by left|right; exists j; split; [lia|done]|right; exists i; split; [lia|done]].
      * intros [?|(j & Hj & ?)]; [tauto|]. destruct (decide (j = i)) as [->|]; [by right|left; right].
        exists j. split; [lia|done].
  - intros p' R'. apply HQ. by rewrite Z.add_0_l, Z2Nat.id in R' by lia.
Qed.

Lemma bitmap_full p : pmm_ok p ->
  let p1 := set_bitmap (replicate PMM_BITMAP_BYTES 0xFF) p in
  pmm_ok p1 /\ forall f, 0 <= f < K64_MAX_FRAMES -> frame_used p1 f = true.
Proof.
  intros [] p1. assert (O1 : pmm_ok p1).
  { split; [apply length_replicate| |done|done]. apply Forall_replicate. unfold byte_ok. lia. }
  split; [done|]. intros f Hf. destruct (frame_byte p1 O1 f Hf) as (x & Hx & _ & ->).
  apply getZ_Some in Hx as [_ Hx]. cbn [p1 set_bitmap pmm_bitmap] in Hx.
  apply lookup_replicate in Hx as [-> _]. change 255 with (Z.ones 8).
  apply Z.ones_spec_low. pose proof (Z.mod_pos_bound f 8). lia.
Qed.

(** What the memory map says of a frame: all of its bytes, or at least one,
    are in a region that it declares available. *)
Definition lies_in (r : Z * Z) (f : Z) : Prop := r.1 <= 4096 * f /\ 4096 * (f + 1) <= r.2.
Definition all_available (f : Z) : Prop := exists r, r ∈ boot_regions /\ lies_in r f.
Definition part_available (f : Z) : Prop := exists r, r ∈ boot_regions /\ touches r.1 r.2 f.
Definition page_aligned (r : Z * Z) : Prop := r.1 mod 4096 = 0 /\ r.2 mod 4096 = 0.

Lemma looped_all f : all_available f -> looped boot_regions f.
Proof.
  intros (r & Hr & H1 & H2). exists r. split; [done|]. unfold loop_frame. dmlia.
Qed.

Lemma looped_part f : looped boot_regions f -> part_available f.
Proof.
  intros (r & Hr & H1 & H2). exists r. split; [done|]. unfold touches. dmlia.
Qed.

Lemma part_all f : Forall page_aligned boot_regions -> part_available f -> all_available f.
Proof.
  intros Ha (r & Hr & _ & H1 & H2). rewrite Forall_forall in Ha. destruct (Ha r Hr) as [A1 A2].
  exists r. split; [done|]. unfold lies_in. dmlia.
Qed.

(** The frames that are free after [k64_pmm_init], in terms of its loops. *)
Lemma k64_pmm_init_looped p : mem_ok m -> pmm_ok p -> 0 <= mb < 4294967296 ->
  0 <= kernel_end < 4294967296 -> Z.testbit (mb_flags m mb) 6 = true ->
  wp (k64_pmm_init m MULTIBOOT_MAGIC mb kernel_end) (fun _ p' => pmm_ok p' /\
    forall f, 0 <= f < K64_MAX_FRAMES ->
      frame_used p' f = false <-> looped boot_regions f /\ ~ precious f) (fun _ => False) p.
Proof.
  intros Hm O Hmb Hke H6. unfold k64_pmm_init. rewrite Z.eqb_refl, H6. cbn [negb].
  pose proof (load32_range m (mb + 48) Hm) as Ha. fold (mb_mmap_addr m mb) in Ha.
  pose proof (load32_range m (mb + 44) Hm) as Hl. fold (mb_mmap_length m mb) in Hl.
  destruct (bitmap_full p O) as [O1 Hfull].
  apply wp_bind, wp_modify, wp_bind, wp_modify, wp_bind.
  match goal with |- wp _ _ _ ?q => assert (Hq : pmm_ok q /\ forall f, 0 <= f < K64_MAX_FRAMES -> frame_used q f = true) end.
  { split; [|exact Hfull]. destruct O1 as [H1 H2 _ _]. split; [exact H1|exact H2|cbn; lia|cbn; lia]. }
  revert Hq. generalize (set_used 0 (set_total 0 (set_bitmap (replicate PMM_BITMAP_BYTES 255) p))).
  intros p1 [O1' Hfull1].
  apply mmap_loop_spec; [exact Hm|exact O1'|unfold mmap_fuel; lia|unfold mmap_fuel; dmlia|]. intros p2 R2.
  apply wp_bind, reserve_range_spec; [apply R2|lia|lia|]. intros p3 R3.
  apply wp_bind, reserve_range_spec; [apply R3|lia|unfold sizeof_multiboot_info; lia|]. intros p4 R4.
  apply wp_bind, reserve_range_spec; [apply R4|lia|lia|]. intros p5 R5.
  pose proof (reserved_trans _ _ _ _ _ (reserved_trans _ _ _ _ _ R3 R4) R5) as R.
  assert (Hend : forall (P : Z -> Prop) p', reserved P p5 p' ->
    (forall f, P f <-> Z.testbit (mb_flags m mb) 3 = true /\
       (touches (mb_mods_addr m mb) (mb_mods_addr m mb + mb_mods_count m mb * sizeof_multiboot_module) f \/
        exists i, 0 <= i < mb_mods_count m mb /\ touches (module_range i).1 (module_range i).2 f)) ->
    pmm_ok p' /\ forall f, 0 <= f < K64_MAX_FRAMES ->
      frame_used p' f = false <-> looped boot_regions f /\ ~ precious f).
  { intros P p' R' HP. split; [apply R'|]. intros f Hf.
    rewrite (rs_frames _ _ _ R' f Hf), (rs_frames _ _ _ R f Hf), (rl_frames _ _ _ R2 f Hf), HP.
    assert (Hp1 : frame_used p1 f = true) by (by apply Hfull1).
    unfold precious, boot_regions. rewrite Hp1. intuition discriminate. }
  destruct (Z.testbit (mb_flags m mb) 3) eqn:H3.
  - apply reserve_modules_spec; [done|apply R5|]. intros p6 R6. apply (Hend _ _ R6). tauto.
  - apply wp_ret. apply (Hend (fun _ => False)); [|intuition discriminate].
    apply reserved_refl; [apply R5|tauto].
Qed.

(** A region that starts on a page boundary and ends inside a frame: the
    frame is given out, with the bytes behind the end of the region. *)
Lemma partial_frame_free p r f : mem_ok m -> pmm_ok p -> 0 <= mb < 4294967296 ->
  0 <= kernel_end < 4294967296 -> Z.testbit (mb_flags m mb) 6 = true ->
  r ∈ boot_regions -> r.1 mod 4096 = 0 -> r.1 <= 4096 * f < r.2 -> r.2 < 4096 * (f + 1) ->
  0 <= f < K64_MAX_FRAMES -> ~ precious f ->
  wp (k64_pmm_init m MULTIBOOT_MAGIC mb kernel_end) (fun _ p' => frame_used p' f = false) (fun _ => False) p.
Proof.
  intros Hm O Hmb Hke H6 Hr Ha Hin Hend Hf Hp. eapply wp_mono; [by apply k64_pmm_init_looped| |done].
  intros [] p' [_ H]. apply (H f Hf). split; [|done]. exists r. split; [done|]. unfold loop_frame. dmlia.
Qed.

(** C14: After [k64_pmm_init], for any memory map: every frame whose bytes the
    map declares available is free, unless it holds a byte of the kernel image,
    of the boot information, of the memory map or of a boot module; a free frame
    holds no such byte, and at least one of its bytes is available.  When the
    regions of the map begin and end on page boundaries the free frames are
    exactly the available ones without such bytes; a frame that a region covers
    only in part may be given out as well.  The loops end for every memory
    content. *)
Theorem k64_pmm_init_frames p : mem_ok m -> pmm_ok p -> 0 <= mb < 4294967296 ->
  0 <= kernel_end < 4294967296 -> Z.testbit (mb_flags m mb) 6 = true ->
  wp (k64_pmm_init m MULTIBOOT_MAGIC mb kernel_end) (fun _ p' => pmm_ok p' /\
    forall f, 0 <= f < K64_MAX_FRAMES ->
      (all_available f -> ~ precious f -> frame_used p' f = false) /\
      (frame_used p' f = false -> part_available f /\ ~ precious f) /\
      (Forall page_aligned boot_regions ->
         frame_used p' f = false <-> all_available f /\ ~ precious f)) (fun _ => False) p.
Proof.
  intros Hm O Hmb Hke H6. eapply wp_mono; [by apply k64_pmm_init_looped| |done].
  intros [] p' [O' H]. split; [done|]. intros f Hf. specialize (H f Hf).
  pose proof (looped_all f). pose proof (looped_part f). pose proof (part_all f). tauto.
Qed.
End init.
