(* ===== verification/Frames.v ===== *)
(** * The interface of the page-frame allocator

    What the physical memory manager promises to the scheduler and to the
    virtual memory manager.  Their theorems are proved against this class; the
    manager of [Pmm] is an instance. *)
From Stdlib Require Import ZArith Lia.
From stdpp Require Import base list gmap.
From S2P Require Import Prelude Exec Mem Pmm PmmSpec.

(** [p'] is [p] with the frames [f .. f + n - 1] busy, or free. *)
Definition frames_set {P} (busy : P -> Z -> bool) (p : P) (f n : Z) (v : bool) (p' : P) : Prop :=
  forall g, 0 <= g -> busy p' g = if decide (in_run f n g) then v else busy p g.

(** The answer [a] to a request for [n] frames: [NULL] and no change, or the
    address of a run of frames that were free and are busy now. *)
Definition grants {P} (busy : P -> Z -> bool) (p : P) (n a : Z) (p' : P) : Prop :=
  (a = 0 /\ p' = p) \/
  (exists f, a = f * 4096 /\ 0 < f /\ f + n <= 1048576 /\
     (forall g, in_run f n g -> busy p g = false) /\ frames_set busy p f n true p').

Class FrameAllocator (P : Type) := {
  pmm_alloc_frame : M P Z;
  pmm_alloc_contiguous : Z -> M P Z;
  pmm_free_frame : Z -> M P unit;
  frames_ok : P -> Prop;
  busy : P -> Z -> bool;
  alloc_frame_law p : frames_ok p ->
    wp pmm_alloc_frame (fun a p' => frames_ok p' /\ grants busy p 1 a p') (fun _ => False) p;
  alloc_contiguous_law p n : frames_ok p -> 0 < n <= 1048576 ->
    wp (pmm_alloc_contiguous n) (fun a p' => frames_ok p' /\ grants busy p n a p') (fun _ => False) p;
  free_frame_law p f : frames_ok p -> 0 < f < 1048576 -> busy p f = true ->
    wp (pmm_free_frame (f * 4096)) (fun _ p' => frames_ok p' /\ frames_set busy p f 1 false p')
      (fun _ => False) p
}.

(** The manager, once frame 0 is reserved (as [k64_pmm_init] does). *)
Definition pmm_frames_ok (p : pmm) : Prop := pmm_ok p /\ frame_used p 0 = true.

Lemma taken_frames p f n p' : pmm_frames_ok p -> 0 < f -> taken p f n p' ->
  pmm_frames_ok p' /\ frames_set frame_used p f n true p'.
Proof.
  intros [_ H0] Hf [[O' _ F'] _]. split; [|exact F']. split; [done|].
  rewrite F' by lia. by rewrite decide_False by (unfold in_run; lia).
Qed.

Lemma pmm_grants p n a p' : pmm_frames_ok p -> 0 < n ->
  (exists f, 0 <= f /\ f + n <= frame_limit p /\ a = f * K64_FRAME_SIZE /\ run_free p f n /\ taken p f n p') \/
  (a = 0 /\ p' = p) -> pmm_frames_ok p' /\ grants frame_used p n a p'.
Proof.
  intros H Hn [(f & Hf & Hl & -> & Hr & Ht)|[-> ->]]; [|split; [done|by left]].
  assert (f <> 0). { intros ->. destruct H as [_ H0]. rewrite Hr in H0; [done|unfold in_run; lia]. }
  destruct (taken_frames p f n p' H ltac:(lia) Ht) as [H' Hs]. split; [done|]. right. exists f.
  pose proof (limit_range p (proj1 H)) as HL. rewrite max_frames in HL. rewrite frame_size.
  split_and!; [done|lia|lia|done|done].
Qed.

#[global] Program Instance pmm_allocator : FrameAllocator pmm := {|
  pmm_alloc_frame := k64_pmm_alloc_frame;
  pmm_alloc_contiguous := k64_pmm_alloc_contiguous;
  pmm_free_frame := k64_pmm_free_frame;
  frames_ok := pmm_frames_ok;
  busy := frame_used
|}.
Next Obligation.
  intros p H. eapply wp_mono; [apply alloc_frame_spec, H| |done].
  intros a p' [(f & Hf & -> & Hu & _ & Ht)|(-> & -> & _)]; (apply pmm_grants; [done|lia|]); [left|by right].
  exists f. split_and!; [lia|lia|done| |done]. intros g Hg. unfold in_run in Hg. by replace g with f by lia.
Qed.
Next Obligation.
  intros p n H Hn. eapply wp_mono; [apply alloc_contiguous_spec; [apply H|by rewrite max_frames]| |done].
  intros a p' [(f & Hf & Hl & -> & Hr & _ & Ht)|(-> & -> & _)]; (apply pmm_grants; [done|lia|]); [left|by right].
  by exists f.
Qed.
Next Obligation.
  intros p f [O H0] Hf Hu. rewrite <- frame_size. apply free_frame_spec; [done|rewrite max_frames; lia|done|].
  intros p' [[O' _ F'] _]. split; [|exact F']. split; [done|].
  rewrite F' by lia. by rewrite decide_False by (unfold in_run; lia).
Qed.
