(* ===== verification/Vmm.v ===== *)
(** * The virtual memory manager ([k64_vmm.c], [k64_vmm.h])

    Address spaces of services and user programs: four-level page tables in
    physical memory, which the kernel reads and writes at their physical
    addresses, the frames each space has taken from the frame allocator, the
    slots of the service area, and copies between kernel buffers and user
    memory.  Pointers are addresses, [NULL] is 0; a function that returns a
    pointer returns 0 for [NULL], a function that returns [bool] fails for
    false.  The argument [space] of the C functions is the [space] component of
    the state; buffers of callers are lists. *)
From Stdlib Require Import ZArith Lia.
From stdpp Require Import base list gmap.
From S2P Require Import Prelude Exec Mem Pmm PmmSpec Frames.

Definition K64_PAGE_SIZE : Z := 4096.
Definition K64_PAGE_MASK : Z := u64 (Z.lnot (K64_PAGE_SIZE - 1)).
Definition K64_PAGE_PRESENT : Z := 0x001.
Definition K64_PAGE_RW : Z := 0x002.
Definition K64_PAGE_USER : Z := 0x004.
Definition K64_PAGE_TABLE_FLAGS : Z := Z.lor K64_PAGE_PRESENT K64_PAGE_RW.
Definition K64_SERVICE_VM_BASE : Z := 0x0000000100000000.
Definition K64_SERVICE_VM_STRIDE : Z := 0x0000000001000000.
Definition K64_SERVICE_VM_ROOT_SIZE : Z := 0x0000000001000000.
Definition K64_SERVICE_VM_STACK_SIZE : Z := 0x0000000000040000.
Definition K64_SERVICE_VM_HEAP_SIZE : Z := 0x0000000000100000.
Definition K64_SERVICE_VM_MAX_SLOTS : Z := 256.
Definition K64_SERVICE_STACK_FRAMES : Z := K64_SERVICE_VM_STACK_SIZE / K64_PAGE_SIZE.
Definition K64_MMIO_BASE : Z := 0x0000000200000000.
Definition K64_MMIO_SIZE : Z := 0x0000000001000000.

(** The lengths of the two arrays of [k64_vm_space_t]. *)
Definition TABLE_FRAMES_MAX : Z := 64.
Definition PHYS_FRAMES_MAX : Z := 4096.

Record k64_vm_space_t := mk_space {
  present : bool;
  user_mode : bool;
  cr3 : Z;
  root_base : Z;
  root_size : Z;
  stack_base : Z;
  stack_size : Z;
  heap_base : Z;
  heap_size : Z;
  page_table_frames : list Z;
  page_table_frame_count : Z;
  phys_frames : list Z;
  phys_frame_count : Z
}.

(** The static variables of [k64_vmm.c], physical memory, the frame allocator,
    the CR3 register, and the space that the current call is about. *)
Record vmm (P : Type) := mk_vmm {
  frames : P;
  ram : mem;
  space : k64_vm_space_t;
  service_slot_used : list bool;
  kernel_cr3 : Z;
  kernel_mapping_space : k64_vm_space_t;
  next_mmio_virt : Z;
  cr3_register : Z
}.
Arguments mk_vmm {P}.
Arguments frames {P}.
Arguments ram {P}.
Arguments space {P}.
Arguments service_slot_used {P}.
Arguments kernel_cr3 {P}.
Arguments kernel_mapping_space {P}.
Arguments next_mmio_virt {P}.
Arguments cr3_register {P}.

(** Only the first 16 and 512 elements of the two arrays are cleared. *)
Definition vmm_clear_space (sp : k64_vm_space_t) : k64_vm_space_t :=
  mk_space false false 0 0 0 0 0 0 0 (splice (page_table_frames sp) 0 (zeros 16)) 0
    (splice (phys_frames sp) 0 (zeros 512)) 0.

Definition with_tables (l : list Z) (n : Z) (sp : k64_vm_space_t) : k64_vm_space_t :=
  mk_space (present sp) (user_mode sp) (cr3 sp) (root_base sp) (root_size sp) (stack_base sp)
    (stack_size sp) (heap_base sp) (heap_size sp) l n (phys_frames sp) (phys_frame_count sp).
Definition with_pages (l : list Z) (n : Z) (sp : k64_vm_space_t) : k64_vm_space_t :=
  mk_space (present sp) (user_mode sp) (cr3 sp) (root_base sp) (root_size sp) (stack_base sp)
    (stack_size sp) (heap_base sp) (heap_size sp) (page_table_frames sp) (page_table_frame_count sp) l n.
Definition with_cr3 (c : Z) (sp : k64_vm_space_t) : k64_vm_space_t :=
  mk_space (present sp) (user_mode sp) c (root_base sp) (root_size sp) (stack_base sp)
    (stack_size sp) (heap_base sp) (heap_size sp) (page_table_frames sp) (page_table_frame_count sp)
    (phys_frames sp) (phys_frame_count sp).
(** [present], [user_mode], [cr3], [root_base] and [root_size] assigned, and
    the layout inside the root region *)
Definition with_layout (user : bool) (c base size stack ssize heap hsize : Z) (sp : k64_vm_space_t)
    : k64_vm_space_t :=
  mk_space true user c base size stack ssize heap hsize
    (page_table_frames sp) (page_table_frame_count sp) (phys_frames sp) (phys_frame_count sp).

(** The new array and count; [None] is the return of false, an inner [None] a
    store past the array. *)
Definition vmm_record_frame (l : list Z) (count capacity frame : Z) : option (option (list Z) * Z) :=
  if capacity <=? count then None else Some (setZ l count frame, count + 1).

(** [table[index]] *)
Definition entry_at (m : mem) (table index : Z) : Z := load64 m (table + 8 * index).

(** Bit 7 of an entry: a large page. *)
Definition is_large (entry : Z) : bool := negb (Z.land entry (Z.shiftl 1 7) =? 0).
Definition is_present (entry : Z) : bool := negb (Z.land entry K64_PAGE_PRESENT =? 0).

(** The four table indices of an address, from the root down. *)
Definition pml4_index (virt : Z) : Z := Z.land (Z.shiftr virt 39) 0x1FF.
Definition pdpt_index (virt : Z) : Z := Z.land (Z.shiftr virt 30) 0x1FF.
Definition pdt_index (virt : Z) : Z := Z.land (Z.shiftr virt 21) 0x1FF.
Definition pt_index (virt : Z) : Z := Z.land (Z.shiftr virt 12) 0x1FF.

(** Entry [i] of the table that replaces the large page [entry]. *)
Definition split_entry (level entry i : Z) : Z :=
  let child_flags := Z.land entry 0xFFF in
  if level =? 2 then
    let phys_base := Z.land entry 0xFFFFFC0000000 in
    Z.lor (u64 (phys_base + i * 0x200000)) child_flags
  else
    let phys_base := Z.land entry 0xFFFFFFE00000 in
    Z.lor (u64 (phys_base + i * K64_PAGE_SIZE)) (Z.land child_flags (u64 (Z.lnot (Z.shiftl 1 7)))).

Definition leaf_entry (phys flags : Z) : Z :=
  Z.lor (Z.lor (Z.land phys K64_PAGE_MASK) (Z.land flags 0xFFF)) K64_PAGE_PRESENT.

(** [(entry & (K64_PAGE_PRESENT | user_mask)) == (K64_PAGE_PRESENT | user_mask)] *)
Definition permits (require_user : bool) (entry : Z) : bool :=
  let mask := Z.lor K64_PAGE_PRESENT (if require_user then K64_PAGE_USER else 0) in
  Z.land entry mask =? mask.

Definition k64_vmm_is_mapped (m : mem) (sp : k64_vm_space_t) (virt : Z) (require_user : bool) : bool :=
  if negb (present sp) || (cr3 sp =? 0) then false else
  let entry := entry_at m (cr3 sp) (pml4_index virt) in
  if negb (permits require_user entry) then false else
  let pdpt := Z.land entry K64_PAGE_MASK in
  let entry := entry_at m pdpt (pdpt_index virt) in
  if negb (permits require_user entry) then false else
  if is_large entry then true else
  let pdt := Z.land entry K64_PAGE_MASK in
  let entry := entry_at m pdt (pdt_index virt) in
  if negb (permits require_user entry) then false else
  if is_large entry then true else
  let pt := Z.land entry K64_PAGE_MASK in
  permits require_user (entry_at m pt (pt_index virt)).

Definition vmm_translate (m : mem) (sp : k64_vm_space_t) (virt : Z) (require_user : bool) : option Z :=
  if negb (present sp) || (cr3 sp =? 0) then None else
  let entry := entry_at m (cr3 sp) (pml4_index virt) in
  if negb (permits require_user entry) then None else
  let pdpt := Z.land entry K64_PAGE_MASK in
  let entry := entry_at m pdpt (pdpt_index virt) in
  if negb (permits require_user entry) then None else
  if is_large entry then
    Some (u64 (Z.land entry 0xFFFFFC0000000 + Z.land virt (Z.shiftl 1 30 - 1)))
  else
  let pdt := Z.land entry K64_PAGE_MASK in
  let entry := entry_at m pdt (pdt_index virt) in
  if negb (permits require_user entry) then None else
  if is_large entry then
    Some (u64 (Z.land entry 0xFFFFFFE00000 + Z.land virt (Z.shiftl 1 21 - 1)))
  else
  let pt := Z.land entry K64_PAGE_MASK in
  let entry := entry_at m pt (pt_index virt) in
  if negb (permits require_user entry) then None else
  Some (u64 (Z.land entry K64_PAGE_MASK + Z.land virt (K64_PAGE_SIZE - 1))).

Definition vmm_range_overflows (virt size : Z) : bool :=
  negb (size =? 0) && (u64 (virt + (size - 1)) <? virt).

(** The part of page [page] that the file contents of a range at [virt] fill:
    the offsets [copy_start] and [copy_end] in the page. *)
Definition copy_window (page virt file_size : Z) : Z * Z :=
  let copy_start := if page <? virt then u64 (virt - page) else 0 in
  let copy_end :=
    if u64 (virt + file_size) <? u64 (page + K64_PAGE_SIZE) then
      if u64 (virt + file_size) <=? page then copy_start else u64 (u64 (virt + file_size) - page)
    else K64_PAGE_SIZE in
  (copy_start, copy_end).

(** What [k64_vmm_call_isolated] does: nothing, a plain call, or a call with
    another address space and stack. *)
Inductive isolated_call : Set :=
  | NoCall
  | CallHere (entry arg0 arg1 arg2 : Z)
  | CallOn (new_cr3 new_rsp entry arg0 arg1 arg2 : Z).

(** [None] for a [NULL] space. *)
Definition k64_vmm_call_isolated (kernel : Z) (sp : option k64_vm_space_t) (entry arg0 arg1 arg2 : Z)
    : isolated_call :=
  if entry =? 0 then NoCall
  else
    match sp with
    | None => CallHere entry arg0 arg1 arg2
    | Some sp =>
        if negb (present sp) || (cr3 sp =? 0) || (cr3 sp =? kernel) then CallHere entry arg0 arg1 arg2
        else
          let stack_top := Z.land (u64 (stack_base sp + stack_size sp)) (u64 (Z.lnot 0xF)) in
          CallOn (cr3 sp) stack_top entry arg0 arg1 arg2
    end.

Section vmm.
Context {P : Type} `{!FrameAllocator P}.
Abbreviation st := (vmm P).
Implicit Types s : st.

Definition set_frames (p : P) s : st := mk_vmm p (ram s) (space s) (service_slot_used s) (kernel_cr3 s)
  (kernel_mapping_space s) (next_mmio_virt s) (cr3_register s).
Definition set_ram (m : mem) s : st := mk_vmm (frames s) m (space s) (service_slot_used s) (kernel_cr3 s)
  (kernel_mapping_space s) (next_mmio_virt s) (cr3_register s).
Definition set_space (sp : k64_vm_space_t) s : st := mk_vmm (frames s) (ram s) sp (service_slot_used s)
  (kernel_cr3 s) (kernel_mapping_space s) (next_mmio_virt s) (cr3_register s).
Definition set_slots (l : list bool) s : st := mk_vmm (frames s) (ram s) (space s) l (kernel_cr3 s)
  (kernel_mapping_space s) (next_mmio_virt s) (cr3_register s).
Definition set_kernel_cr3 (c : Z) s : st := mk_vmm (frames s) (ram s) (space s) (service_slot_used s) c
  (kernel_mapping_space s) (next_mmio_virt s) (cr3_register s).
Definition set_kernel_space (sp : k64_vm_space_t) s : st := mk_vmm (frames s) (ram s) (space s)
  (service_slot_used s) (kernel_cr3 s) sp (next_mmio_virt s) (cr3_register s).
Definition set_next_mmio (a : Z) s : st := mk_vmm (frames s) (ram s) (space s) (service_slot_used s)
  (kernel_cr3 s) (kernel_mapping_space s) a (cr3_register s).

Definition on_frames {A} (m : M P A) : M st A := zoom frames set_frames m.
Definition get_entry (table index : Z) : M st Z := gets (fun s => entry_at (ram s) table index).
Definition put_entry (table index v : Z) : M st unit :=
  modify (fun s => set_ram (store64 (ram s) (table + 8 * index) v) s).

Definition vmm_read_cr3 : M st Z := gets (fun s => Z.land (cr3_register s) K64_PAGE_MASK).

Definition vmm_clear_page (page : Z) : M st unit :=
  modify (fun s => set_ram (store_bytes (ram s) page (zeros (Z.to_nat K64_PAGE_SIZE))) s).

Definition vmm_alloc_table_frame : M st Z :=
  frame ← on_frames pmm_alloc_frame;
  if frame =? 0 then mret 0 else
  sp ← gets space;
  match vmm_record_frame (page_table_frames sp) (page_table_frame_count sp) TABLE_FRAMES_MAX frame with
  | None => on_frames (pmm_free_frame frame) ;; mret 0
  | Some (l, n) =>
      l ← deref l;
      modify (set_space (with_tables l n sp)) ;;
      vmm_clear_page frame ;;
      mret frame
  end.

Definition vmm_split_large_page (table index flags level : Z) : M st Z :=
  entry ← get_entry table index;
  if negb (is_large entry) || (level <? 1) || (2 <? level) then mret 0 else
  next ← vmm_alloc_table_frame;
  if next =? 0 then mret 0 else
  for_loop 512 0 (fun i => put_entry next i (split_entry level entry i)) ;;
  put_entry table index
    (Z.lor (Z.lor next K64_PAGE_TABLE_FLAGS) (Z.land (Z.lor entry flags) K64_PAGE_USER)) ;;
  mret next.

Definition vmm_next_table (table index flags level : Z) : M st Z :=
  entry ← get_entry table index;
  if is_present entry then
    if is_large entry then vmm_split_large_page table index flags level
    else mret (Z.land entry K64_PAGE_MASK)
  else
    next ← vmm_alloc_table_frame;
    if next =? 0 then mret 0 else
    put_entry table index (Z.lor (Z.lor next K64_PAGE_TABLE_FLAGS) (Z.land flags K64_PAGE_USER)) ;;
    mret next.

Definition vmm_map_page (virt phys flags : Z) : M st unit :=
  sp ← gets space;
  check (present sp && negb (cr3 sp =? 0)) ;;
  pdpt ← vmm_next_table (cr3 sp) (pml4_index virt) flags 3;
  check (negb (pdpt =? 0)) ;;
  pdt ← vmm_next_table pdpt (pdpt_index virt) flags 2;
  check (negb (pdt =? 0)) ;;
  pt ← vmm_next_table pdt (pdt_index virt) flags 1;
  check (negb (pt =? 0)) ;;
  put_entry pt (pt_index virt) (leaf_entry phys flags).

(** [new_pml4[i] = kernel_pml4[i]; new_pdpt[i] = kernel_pdpt[i];] *)
Definition copy_entries (new_pml4 new_pdpt kernel_pml4 kernel_pdpt i : Z) : M st unit :=
  e ← get_entry kernel_pml4 i;
  put_entry new_pml4 i e ;;
  e ← get_entry kernel_pdpt i;
  put_entry new_pdpt i e.

Definition vmm_clone_kernel_root : M st unit :=
  kernel_pml4 ← gets kernel_cr3;
  check (negb (kernel_pml4 =? 0)) ;;
  root ← get_entry kernel_pml4 0;
  check (is_present root) ;;
  let kernel_pdpt := Z.land root K64_PAGE_MASK in
  new_pml4 ← vmm_alloc_table_frame;
  new_pdpt ← vmm_alloc_table_frame;
  check (negb (new_pml4 =? 0) && negb (new_pdpt =? 0)) ;;
  for_loop 512 0 (copy_entries new_pml4 new_pdpt kernel_pml4 kernel_pdpt) ;;
  sp ← gets space;
  put_entry new_pml4 0 (Z.lor (Z.lor new_pdpt K64_PAGE_TABLE_FLAGS)
                          (if user_mode sp then K64_PAGE_USER else 0)) ;;
  modify (fun s => set_space (with_cr3 new_pml4 (space s)) s).

(** A frame from the allocator, recorded in [phys_frames] and cleared. *)
Definition take_page : M st Z :=
  frame ← on_frames pmm_alloc_frame;
  check (negb (frame =? 0)) ;;
  sp ← gets space;
  match vmm_record_frame (phys_frames sp) (phys_frame_count sp) PHYS_FRAMES_MAX frame with
  | None => on_frames (pmm_free_frame frame) ;; fail
  | Some (l, n) =>
      l ← deref l;
      modify (set_space (with_pages l n sp)) ;;
      vmm_clear_page frame ;;
      mret frame
  end.

Definition vmm_map_zeroed_page_flags (virt flags : Z) : M st unit :=
  frame ← take_page;
  vmm_map_page virt frame flags.

(** [if (list[i] != 0) k64_pmm_free_frame(list[i]);] *)
Definition release_one (l : list Z) (i : Z) : M st unit :=
  frame ← deref (getZ l i);
  if frame =? 0 then mret tt else on_frames (pmm_free_frame frame).

Definition k64_vmm_release_service_space : M st unit :=
  sp ← gets space;
  if negb (present sp) then mret tt else
  for_loop (Z.to_nat (phys_frame_count sp)) 0 (release_one (phys_frames sp)) ;;
  for_loop (Z.to_nat (page_table_frame_count sp)) 0 (release_one (page_table_frames sp)) ;;
  (if K64_SERVICE_VM_BASE <=? root_base sp then
     let slot := (root_base sp - K64_SERVICE_VM_BASE) / K64_SERVICE_VM_STRIDE in
     if slot <? K64_SERVICE_VM_MAX_SLOTS then
       l ← gets service_slot_used;
       l ← deref (setZ l slot false);
       modify (set_slots l)
     else mret tt
   else mret tt) ;;
  modify (set_space (vmm_clear_space sp)).

(** [while (service_slot_used[slot]) ...]; [None] when every slot is used.  The
    loop comes back to [start] after at most 256 rounds. *)
Fixpoint find_slot (fuel : nat) (start slot : Z) : M st (option Z) :=
  match fuel with
  | O => ub
  | S fuel =>
      l ← gets service_slot_used;
      used ← deref (getZ l slot);
      if negb used then mret (Some slot) else
      let slot := (slot + 1) mod K64_SERVICE_VM_MAX_SLOTS in
      if slot =? start then mret None else find_slot fuel start slot
  end.

(** The work after the slot has been found. *)
Definition build_space (stack_flags : Z) : M st unit :=
  vmm_clone_kernel_root ;;
  sp ← gets space;
  for_loop (Z.to_nat K64_SERVICE_STACK_FRAMES) 0 (fun i =>
    vmm_map_zeroed_page_flags (u64 (stack_base sp + i * K64_PAGE_SIZE)) stack_flags).

Definition vmm_alloc_space (pid stack_flags : Z) (user : bool) : M st unit :=
  modify (fun s => set_space (vmm_clear_space (space s)) s) ;;
  if pid =? 0 then
    modify (fun s => set_space (with_layout false (kernel_cr3 s) 0 0x40000000 0 0 0 0 (space s)) s)
  else
    let start_slot := pid mod K64_SERVICE_VM_MAX_SLOTS in
    slot ← find_slot 256 start_slot start_slot;
    match slot with
    | None => fail
    | Some slot =>
        l ← gets service_slot_used;
        l ← deref (setZ l slot true);
        modify (set_slots l) ;;
        let base := u64 (K64_SERVICE_VM_BASE + slot * K64_SERVICE_VM_STRIDE) in
        modify (fun s => set_space (with_layout user (cr3 (space s)) base K64_SERVICE_VM_ROOT_SIZE
          (u64 (base + K64_SERVICE_VM_ROOT_SIZE - K64_SERVICE_VM_STACK_SIZE)) K64_SERVICE_VM_STACK_SIZE
          (u64 (base + 0x00100000)) K64_SERVICE_VM_HEAP_SIZE (space s)) s) ;;
        ok ← try (build_space stack_flags);
        if absent ok then k64_vmm_release_service_space ;; fail else mret tt
    end.

Definition k64_vmm_alloc_service_space (pid : Z) : M st unit :=
  vmm_alloc_space pid K64_PAGE_RW false.
Definition k64_vmm_alloc_user_space (pid : Z) : M st unit :=
  vmm_alloc_space pid (Z.lor K64_PAGE_RW K64_PAGE_USER) true.

Definition k64_vmm_init : M st unit :=
  c ← vmm_read_cr3;
  modify (set_kernel_cr3 c) ;;
  modify (fun s => let sp := vmm_clear_space (kernel_mapping_space s) in
    set_kernel_space (mk_space true (user_mode sp) c (root_base sp) (root_size sp) (stack_base sp)
      (stack_size sp) (heap_base sp) (heap_size sp) (page_table_frames sp) (page_table_frame_count sp)
      (phys_frames sp) (phys_frame_count sp)) s) ;;
  modify (set_slots (replicate (Z.to_nat K64_SERVICE_VM_MAX_SLOTS) false)).

(** A call whose argument is [&kernel_mapping_space]. *)
Definition on_kernel_space {A} (m : M st A) : M st A :=
  zoom (fun s => set_space (kernel_mapping_space s) s)
       (fun s' s => set_space (space s) (set_kernel_space (space s') s')) m.

Definition k64_vmm_map_mmio (phys_addr size : Z) : M st Z :=
  let phys := Z.land phys_addr K64_PAGE_MASK in
  let end_ := Z.land (u64 (phys_addr + size + K64_PAGE_SIZE - 1)) K64_PAGE_MASK in
  let offset := phys_addr - phys in
  check (negb (size =? 0) && negb (end_ <=? phys)) ;;
  let pages := (end_ - phys) / K64_PAGE_SIZE in
  virt ← gets next_mmio_virt;
  check (negb (K64_MMIO_BASE + K64_MMIO_SIZE <? u64 (virt + pages * K64_PAGE_SIZE))) ;;
  modify (set_next_mmio (u64 (virt + pages * K64_PAGE_SIZE))) ;;
  for_loop (Z.to_nat pages) 0 (fun i => on_kernel_space
    (vmm_map_page (u64 (virt + i * K64_PAGE_SIZE)) (u64 (phys + i * K64_PAGE_SIZE)) K64_PAGE_RW)) ;;
  mret (u64 (virt + offset)).

(** [n] bytes of a caller's buffer from [off] on. *)
Definition bytes_of (buf : list Z) (off n : Z) : M st (list Z) :=
  if (0 <=? off) && (off + n <=? Z.of_nat (length buf)) then mret (slice buf (Z.to_nat off) (Z.to_nat n))
  else ub.

(** One page of [vmm_map_range_flags]; [None] is [data == NULL]. *)
Definition map_range_page (virt : Z) (data : option (list Z)) (file_size flags page : Z) : M st unit :=
  frame ← take_page;
  let '(copy_start, copy_end) := copy_window page virt file_size in
  (match data with
   | Some bytes =>
       if copy_start <? copy_end then
         src ← bytes_of bytes (u64 (page + copy_start - virt)) (copy_end - copy_start);
         modify (fun s => set_ram (store_bytes (ram s) (frame + copy_start) src) s)
       else mret tt
   | None => mret tt
   end) ;;
  vmm_map_page page frame flags.

Definition vmm_map_range_flags (virt : Z) (data : option (list Z)) (file_size mem_size flags : Z)
    : M st unit :=
  sp ← gets space;
  check (present sp && negb (mem_size =? 0)) ;;
  let page_start := Z.land virt K64_PAGE_MASK in
  let page_end := Z.land (u64 (virt + mem_size + K64_PAGE_SIZE - 1)) K64_PAGE_MASK in
  for_loop (Z.to_nat ((page_end - page_start) / K64_PAGE_SIZE)) 0 (fun i =>
    map_range_page virt data file_size flags (page_start + i * K64_PAGE_SIZE)).

Definition k64_vmm_map_private_range (virt : Z) (data : option (list Z)) (file_size mem_size : Z)
    : M st unit :=
  vmm_map_range_flags virt data file_size mem_size K64_PAGE_RW.
Definition k64_vmm_map_user_range (virt : Z) (data : option (list Z)) (file_size mem_size : Z) : M st unit :=
  vmm_map_range_flags virt data file_size mem_size (Z.lor K64_PAGE_RW K64_PAGE_USER).
Definition k64_vmm_map_user_anon (virt mem_size : Z) : M st unit :=
  vmm_map_range_flags virt None 0 mem_size (Z.lor K64_PAGE_RW K64_PAGE_USER).

(** The bytes of the next iteration of the two copying loops: up to the end of
    the page. *)
Definition next_chunk (virt size done : Z) : Z :=
  let page_off := Z.land (u64 (virt + done)) (K64_PAGE_SIZE - 1) in
  let chunk := K64_PAGE_SIZE - page_off in
  if size - done <? chunk then size - done else chunk.

(** A chunk ends a page or the copy. *)
Definition copy_fuel (size : Z) : nat := Z.to_nat (size / K64_PAGE_SIZE + 3).

(** [dst] is what has been copied so far: the result is the return value and
    the bytes written to the destination. *)
Fixpoint read_user_loop (fuel : nat) (virt size done : Z) (dst : list Z) : M st (bool * list Z) :=
  match fuel with
  | O => ub
  | S fuel =>
      if size <=? done then mret (true, dst) else
      let chunk := next_chunk virt size done in
      s ← gets (fun s => s);
      match vmm_translate (ram s) (space s) (u64 (virt + done)) true with
      | None => mret (false, dst)
      | Some phys =>
          read_user_loop fuel virt size (done + chunk) (dst ++ load_bytes (ram s) phys (Z.to_nat chunk))
      end
  end.

(** The destination is not [NULL]. *)
Definition k64_vmm_read_user (virt size : Z) : M st (bool * list Z) :=
  if vmm_range_overflows virt size then mret (false, [])
  else read_user_loop (copy_fuel size) virt size 0 [].

Fixpoint write_user_loop (fuel : nat) (virt : Z) (src : list Z) (size done : Z) : M st unit :=
  match fuel with
  | O => ub
  | S fuel =>
      if size <=? done then mret tt else
      let chunk := next_chunk virt size done in
      s ← gets (fun s => s);
      match vmm_translate (ram s) (space s) (u64 (virt + done)) true with
      | None => fail
      | Some phys =>
          bytes ← bytes_of src done chunk;
          modify (set_ram (store_bytes (ram s) phys bytes)) ;;
          write_user_loop fuel virt src size (done + chunk)
      end
  end.

Definition k64_vmm_write_user (virt : Z) (data : option (list Z)) (size : Z) : M st unit :=
  check (negb (absent data && negb (size =? 0)) && negb (vmm_range_overflows virt size)) ;;
  write_user_loop (copy_fuel size) virt (default [] data) size 0.
End vmm.
