(* ===== verification/VmmWalk.v ===== *)
(** * The bits of a page-table entry

    The masks, shifts and flag tests of [k64_vmm.c] as arithmetic: an entry is
    [4096 * n + c], where [n] is the frame number and [c < 4096] the flags.

    The four-level walk of [vmm_translate] as a recursion over the levels, the
    tables it visits, and what a change of one entry does to the translation of
    every address.  Levels are counted from the root: 0 is the PML4, 3 the page
    table. *)
From Stdlib Require Import ZArith Lia.
From stdpp Require Import base list gmap.
From S2P Require Import Prelude Bitmap Exec Mem Pmm PmmSpec Frames Vmm.

Definition word (z : Z) : Prop := 0 <= z < 18446744073709551616.

Lemma mask_div e lo hi : 0 <= lo <= hi -> 0 <= e ->
  Z.land e (Z.ldiff (Z.ones hi) (Z.ones lo)) = 2 ^ lo * (e mod 2 ^ hi / 2 ^ lo).
Proof.
  intros H He. replace (Z.land e (Z.ldiff (Z.ones hi) (Z.ones lo))) with (Z.ldiff (Z.land e (Z.ones hi)) (Z.ones lo)).
  - rewrite Z.land_ones, Z.ldiff_ones_r by lia. rewrite Z.shiftl_mul_pow2, Z.shiftr_div_pow2 by lia. lia.
  - apply Z.bits_inj'. intros n Hn. rewrite !Z.ldiff_spec, !Z.land_spec, Z.ldiff_spec. symmetry. apply andb_assoc.
Qed.

Lemma page_mask e : word e -> Z.land e K64_PAGE_MASK = 4096 * (e / 4096).
Proof.
  intros [H1 H2]. change K64_PAGE_MASK with (Z.ldiff (Z.ones 64) (Z.ones 12)).
  rewrite mask_div by lia. change (2 ^ 64) with 18446744073709551616. rewrite Z.mod_small by lia. done.
Qed.
Lemma giant_mask e : 0 <= e -> Z.land e 0xFFFFFC0000000 = 1073741824 * (e mod 4503599627370496 / 1073741824).
Proof. intros H. change 0xFFFFFC0000000 with (Z.ldiff (Z.ones 52) (Z.ones 30)). by rewrite mask_div by lia. Qed.
Lemma large_mask e : 0 <= e -> Z.land e 0xFFFFFFE00000 = 2097152 * (e mod 281474976710656 / 2097152).
Proof. intros H. change 0xFFFFFFE00000 with (Z.ldiff (Z.ones 48) (Z.ones 21)). by rewrite mask_div by lia. Qed.

Lemma low_mask e : Z.land e 0xFFF = e mod 4096.
Proof. change 0xFFF with (Z.ones 12). by rewrite Z.land_ones by lia. Qed.
Lemma page_offset e : Z.land e (K64_PAGE_SIZE - 1) = e mod 4096.
Proof. exact (low_mask e). Qed.

(** *** Flags *)
Lemma low_bit e c k : 0 <= k < 12 -> Z.testbit (4096 * e + c) k = Z.testbit c k.
Proof.
  intros Hk. rewrite <- (Z.mod_pow2_bits_low (4096 * e + c) 12 k) by lia.
  rewrite <- (Z.mod_pow2_bits_low c 12 k) by lia. f_equal. change (2 ^ 12) with 4096.
  rewrite Z.add_comm, Z.mul_comm. by rewrite Z.mod_add by lia.
Qed.

Lemma is_present_bit e : is_present e = Z.testbit e 0.
Proof. unfold is_present. change K64_PAGE_PRESENT with (2 ^ 0). by rewrite land_pow2_testbit by lia. Qed.
Lemma is_large_bit e : is_large e = Z.testbit e 7.
Proof. unfold is_large. change (Z.shiftl 1 7) with (2 ^ 7). by rewrite land_pow2_testbit by lia. Qed.

Lemma permits_bits u e : permits u e = Z.testbit e 0 && (negb u || Z.testbit e 2).
Proof.
  unfold permits. destruct u.
  - change (Z.lor K64_PAGE_PRESENT K64_PAGE_USER) with 5.
    assert (Hm : e mod 8 = 0 \/ e mod 8 = 1 \/ e mod 8 = 2 \/ e mod 8 = 3 \/ e mod 8 = 4 \/ e mod 8 = 5 \/
      e mod 8 = 6 \/ e mod 8 = 7) by (pose proof (Z.mod_pos_bound e 8); lia).
    rewrite <- (Z.mod_pow2_bits_low e 3 0), <- (Z.mod_pow2_bits_low e 3 2) by lia.
    replace (Z.land e 5) with (Z.land (e mod 8) 5).
    2: { change 8 with (2 ^ 3). rewrite <- (Z.land_ones e 3), <- Z.land_assoc by lia. done. }
    change (2 ^ 3) with 8. by destruct_or! Hm; rewrite Hm.
  - change (Z.lor K64_PAGE_PRESENT 0) with (Z.ones 1). rewrite Z.land_ones by lia. change (Z.ones 1) with 1.
    change (2 ^ 1) with 2. rewrite orb_true_l, andb_true_r, Z.bit0_odd.
    rewrite Zmod_odd. by destruct (Z.odd e).
Qed.

(** *** Entries *)
Lemma lor_flags n c : 0 <= c < 4096 -> Z.lor (4096 * n) c = 4096 * n + c.
Proof.
  intros Hc. rewrite <- Z.lxor_lor, <- Z.add_nocarry_lxor; [done|..];
  apply Z.bits_inj'; intros k Hk; rewrite Z.land_spec, Z.bits_0.
  all: destruct (Z.ltb_spec k 12).
  all: try (replace (4096 * n) with (4096 * n + 0) by lia; rewrite low_bit, Z.bits_0 by lia; done).
  all: apply andb_false_iff; right; destruct (decide (c = 0)) as [->|]; [by rewrite Z.bits_0|];
    apply Z.bits_above_log2; [lia|]; assert (Z.log2 c < 12) by (apply Z.log2_lt_pow2; lia); lia.
Qed.

Lemma entry_frame n c : 0 <= c < 4096 -> (4096 * n + c) / 4096 = n.
Proof. intros. dmlia. Qed.

(** The flags of a pointer to a table. *)
Definition table_flags (x : Z) : Z := Z.lor K64_PAGE_TABLE_FLAGS (Z.land x K64_PAGE_USER).

Lemma table_flags_spec x : 0 <= table_flags x < 4096 /\ Z.testbit (table_flags x) 0 = true /\
  Z.testbit (table_flags x) 7 = false /\ Z.testbit (table_flags x) 2 = Z.testbit x 2.
Proof.
  unfold table_flags. assert (H : Z.land x K64_PAGE_USER = if Z.testbit x 2 then 4 else 0).
  { pose proof (land_pow2_testbit x 2 ltac:(lia)) as Ht. change (2 ^ 2) with K64_PAGE_USER in Ht.
    apply Z.bits_inj'. intros k Hk. rewrite Z.land_spec. change K64_PAGE_USER with (2 ^ 2).
    rewrite Z.pow2_bits_eqb by lia. destruct (Z.eqb_spec 2 k) as [<-|Hne].
    - by destruct (Z.testbit x 2).
    - rewrite andb_false_r. destruct (Z.testbit x 2); [|by rewrite Z.bits_0].
      change 4 with (2 ^ 2). rewrite Z.pow2_bits_eqb by lia. by destruct (Z.eqb_spec 2 k). }
  rewrite H. by destruct (Z.testbit x 2).
Qed.

Lemma table_entry n x : 0 <= n -> Z.lor (Z.lor (4096 * n) K64_PAGE_TABLE_FLAGS) (Z.land x K64_PAGE_USER) =
  4096 * n + table_flags x.
Proof. intros Hn. rewrite <- Z.lor_assoc. apply lor_flags, table_flags_spec. Qed.

Lemma leaf_flags_range flags : 0 <= Z.lor (flags mod 4096) 1 < 4096.
Proof.
  assert (Hr : 0 <= flags mod 4096 < 4096) by (apply Z.mod_pos_bound; lia).
  assert (H0 : 0 <= Z.lor (flags mod 4096) 1) by (apply Z.lor_nonneg; lia). split; [done|].
  destruct (decide (Z.lor (flags mod 4096) 1 = 0)) as [->|]; [lia|].
  apply (Z.log2_lt_pow2 _ 12); [lia|]. rewrite Z.log2_lor by lia. apply Z.max_lub_lt; [|cbn; lia].
  destruct (decide (flags mod 4096 = 0)) as [->|]; [cbn; lia|]. apply Z.log2_lt_pow2; lia.
Qed.

Lemma leaf_entry_spec n flags : 0 <= n < 4503599627370496 ->
  leaf_entry (4096 * n) flags = 4096 * n + Z.lor (flags mod 4096) 1.
Proof.
  intros Hn. unfold leaf_entry. rewrite page_mask by (unfold word; lia). rewrite low_mask.
  replace (4096 * n / 4096) with n by dmlia. rewrite <- Z.lor_assoc. apply lor_flags, leaf_flags_range.
Qed.

(** *** Indices *)
Lemma index_mod v k : 0 <= k -> Z.land (Z.shiftr v k) 0x1FF = (v / 2 ^ k) mod 512.
Proof. intros Hk. change 0x1FF with (Z.ones 9). by rewrite Z.land_ones, Z.shiftr_div_pow2 by lia. Qed.

(** *** Splitting a large page *)
Lemma split_giant e i : word e -> 0 <= i < 512 ->
  split_entry 2 e i = 4096 * (262144 * (e mod 4503599627370496 / 1073741824) + 512 * i) + e mod 4096.
Proof.
  intros [He1 He2] Hi. unfold split_entry. rewrite giant_mask, low_mask by lia. cbn [Z.eqb Pos.eqb].
  set (b := e mod 4503599627370496 / 1073741824).
  assert (0 <= b < 4194304) by (unfold b; dmlia). rewrite u64_small by lia.
  rewrite <- lor_flags by (apply Z.mod_pos_bound; lia). f_equal. lia.
Qed.

Lemma clear_large c : 0 <= c < 4096 -> let d := Z.land c (u64 (Z.lnot (Z.shiftl 1 7))) in
  0 <= d < 4096 /\ Z.testbit d 0 = Z.testbit c 0 /\ Z.testbit d 2 = Z.testbit c 2 /\ Z.testbit d 7 = false.
Proof.
  intros Hc d. assert (Hd : d mod 4096 = d).
  { change 4096 with (2 ^ 12). rewrite <- Z.land_ones by lia. unfold d.
    rewrite <- Z.land_assoc, (Z.land_comm _ (Z.ones 12)), Z.land_assoc, Z.land_ones by lia.
    change (2 ^ 12) with 4096. by rewrite (Z.mod_small c) by lia. }
  split; [rewrite <- Hd; apply Z.mod_pos_bound; lia|]. unfold d. rewrite !Z.land_spec.
  rewrite andb_true_r, andb_true_r, andb_false_r. done.
Qed.

Lemma split_large e i : word e -> 0 <= i < 512 ->
  split_entry 1 e i = 4096 * (512 * (e mod 281474976710656 / 2097152) + i) +
    Z.land (e mod 4096) (u64 (Z.lnot (Z.shiftl 1 7))).
Proof.
  intros [He1 He2] Hi. unfold split_entry. rewrite large_mask, low_mask by lia. cbn [Z.eqb Pos.eqb].
  set (b := e mod 281474976710656 / 2097152).
  assert (0 <= b < 134217728) by (unfold b; dmlia). change K64_PAGE_SIZE with 4096. rewrite u64_small by lia.
  rewrite <- lor_flags by (apply clear_large, Z.mod_pos_bound; lia). f_equal. lia.
Qed.

(** * Page-table walks *)
Definition idx (k : nat) (va : Z) : Z :=
  match k with
  | 0%nat => pml4_index va
  | 1%nat => pdpt_index va
  | 2%nat => pdt_index va
  | _ => pt_index va
  end.

(** An entry of level [k] that maps a large page. *)
Definition large (k : nat) (e : Z) : bool :=
  match k with 1%nat | 2%nat => is_large e | _ => false end.

Definition addr (e : Z) : Z := Z.land e K64_PAGE_MASK.

(** The address that an entry of level [k] gives [va], where the walk ends. *)
Definition leaf (k : nat) (e va : Z) : Z :=
  match k with
  | 1%nat => u64 (Z.land e 0xFFFFFC0000000 + Z.land va (Z.shiftl 1 30 - 1))
  | 2%nat => u64 (Z.land e 0xFFFFFFE00000 + Z.land va (Z.shiftl 1 21 - 1))
  | _ => u64 (Z.land e K64_PAGE_MASK + Z.land va (K64_PAGE_SIZE - 1))
  end.

(** The walk from table [t] of level [k], with [n] levels below it. *)
Fixpoint walk (n k : nat) (m : mem) (u : bool) (t va : Z) : option Z :=
  let e := entry_at m t (idx k va) in
  if permits u e then
    match n with
    | O => Some (leaf k e va)
    | S n => if large k e then Some (leaf k e va) else walk n (S k) m u (addr e) va
    end
  else None.

(** The translation of a root table. *)
Abbreviation trans m u r va := (walk 3 0 m u r va).

Lemma translate_walk m sp va u : present sp = true -> cr3 sp <> 0 ->
  vmm_translate m sp va u = trans m u (cr3 sp) va.
Proof.
  intros Hp Hc. unfold vmm_translate. rewrite Hp, (proj2 (Z.eqb_neq _ _) Hc).
  cbn [negb orb walk large idx leaf addr]. unfold addr.
  repeat (match goal with |- context [permits u ?e] => destruct (permits u e) end; cbn [negb]; [|done];
    try match goal with |- context [is_large ?e] => destruct (is_large e); [done|] end). done.
Qed.

(** The table that entry [i] of a table of level [k] points to. *)
Definition child (m : mem) (k : nat) (t i : Z) : option Z :=
  let e := entry_at m t i in
  if is_present e && negb (large k e) then Some (addr e) else None.

(** The table of level [k] on the path of [va]. *)
Fixpoint tbl (m : mem) (r va : Z) (k : nat) : option Z :=
  match k with
  | O => Some r
  | S k => t ← tbl m r va k; child m k t (idx k va)
  end.

(** The paths of two addresses are the same down to level [k]. *)
Definition agree (k : nat) (va va' : Z) : Prop := forall j, (j < k)%nat -> idx j va = idx j va'.

#[global] Instance agree_dec k va va' : Decision (agree k va va').
Proof.
  refine (cast_if (decide (Forall (fun j => idx j va = idx j va') (seq 0 k))));
    [intros j Hj; eapply Forall_forall in f; [exact f|apply elem_of_seq; lia]|].
  intros H. apply n, Forall_forall. intros j Hj%elem_of_seq. apply H. lia.
Defined.

Lemma agree_le j k va va' : (j <= k)%nat -> agree k va va' -> agree j va va'.
Proof. intros H A i Hi. apply A. lia. Qed.
Lemma agree_sym k va va' : agree k va va' -> agree k va' va.
Proof. intros A i Hi. symmetry. by apply A. Qed.
Lemma agree_trans k va1 va2 va3 : agree k va1 va2 -> agree k va2 va3 -> agree k va1 va3.
Proof. intros A B i Hi. rewrite (A i Hi). by apply B. Qed.
Lemma agree_S k va va' : agree (S k) va va' <-> agree k va va' /\ idx k va = idx k va'.
Proof.
  split; [intros A; split; [eapply agree_le; [|exact A]; lia|apply A; lia]|].
  intros [A B] j Hj. destruct (decide (j = k)) as [->|]; [done|]. apply A. lia.
Qed.

Lemma idx_range k va : 0 <= idx k va < 512.
Proof.
  destruct k as [|[|[|k]]]; cbn [idx]; unfold pml4_index, pdpt_index, pdt_index, pt_index;
  rewrite index_mod by lia; apply Z.mod_pos_bound; lia.
Qed.

Lemma tbl_agree m r va va' k : agree k va va' -> tbl m r va k = tbl m r va' k.
Proof.
  induction k as [|k IH]; intros A; [done|]. apply agree_S in A as [A E]. cbn [tbl].
  rewrite (IH A). destruct (tbl m r va' k); [|done]. cbn. by rewrite E.
Qed.

Lemma tbl_prev m r va k t : tbl m r va (S k) = Some t ->
  exists t0, tbl m r va k = Some t0 /\ child m k t0 (idx k va) = Some t.
Proof. cbn [tbl]. destruct (tbl m r va k) as [t0|]; [|done]. intros H. by exists t0. Qed.

Lemma tbl_next m r va k t : tbl m r va k = Some t -> tbl m r va (S k) = child m k t (idx k va).
Proof. intros H. cbn [tbl]. by rewrite H. Qed.
Lemma tbl_none m r va k : tbl m r va k = None -> tbl m r va (S k) = None.
Proof. intros H. cbn [tbl]. by rewrite H. Qed.

Lemma tbl_down m r va k t u : tbl m r va k = Some t ->
  permits u (entry_at m t (idx k va)) = true -> large k (entry_at m t (idx k va)) = false ->
  tbl m r va (S k) = Some (addr (entry_at m t (idx k va))).
Proof.
  intros Ht Hp Hl. rewrite (tbl_next _ _ _ _ _ Ht). unfold child. rewrite Hl, is_present_bit.
  rewrite permits_bits in Hp. by apply andb_true_iff in Hp as [-> _].
Qed.

(** The tables of a root: they lie in frames [busy], and no frame is the table
    of two paths. *)
Record tables_ok (m : mem) (r : Z) (busy : Z -> bool) : Prop := {
  tables_frame va k t : (k <= 3)%nat -> tbl m r va k = Some t ->
    exists f, t = 4096 * f /\ 0 < f < 1048576 /\ busy f = true;
  tables_distinct va va' k k' t : (k <= 3)%nat -> (k' <= 3)%nat -> tbl m r va k = Some t ->
    tbl m r va' k' = Some t -> k = k' /\ agree k va va'
}.

(** Address [a] lies in a table. *)
Definition in_table (m : mem) (r a : Z) : Prop := exists va k t, (k <= 3)%nat /\ tbl m r va k = Some t /\
  t <= a < t + 4096.

(** 1 GiB pages lie below 2^48, the limit of the masks for 2 MiB pages. *)
Definition low_giants (m : mem) (r : Z) : Prop := forall va t, tbl m r va 1 = Some t ->
  is_present (entry_at m t (idx 1 va)) = true -> is_large (entry_at m t (idx 1 va)) = true ->
  entry_at m t (idx 1 va) mod 4503599627370496 < 281474976710656.

(** Every pointer on the path of [va] allows user access. *)
Definition user_path (m : mem) (r va : Z) : Prop := forall k t, (k < 3)%nat -> tbl m r va k = Some t ->
  child m k t (idx k va) <> None -> permits true (entry_at m t (idx k va)) = true.

(** A pointer on the path of [va] denies user access. *)
Definition denied_path (m : mem) (r va : Z) : Prop := exists k t, (k < 3)%nat /\ tbl m r va k = Some t /\
  child m k t (idx k va) <> None /\ permits true (entry_at m t (idx k va)) = false.

Lemma user_or_denied m r va : user_path m r va \/ denied_path m r va.
Proof.
  assert (H : forall n, (n <= 3)%nat -> denied_path m r va \/ forall k t, (k < n)%nat -> tbl m r va k = Some t ->
    child m k t (idx k va) <> None -> permits true (entry_at m t (idx k va)) = true).
  { induction n as [|n IH]; intros Hn; [right; lia|]. destruct (IH ltac:(lia)) as [?|U]; [by left|].
    destruct (tbl m r va n) as [t|] eqn:Ht; [destruct (child m n t (idx n va)) as [c|] eqn:Hc; [destruct (permits true (entry_at m t (idx n va))) eqn:Hp|]|].
    2: { left. exists n, t. split_and!; [lia|done|congruence|done]. }
    all: right; intros k t' Hk Ht' Hch; destruct (decide (k = n)) as [->|]; [simplify_eq; congruence|apply U; [lia|done..]]. }
  destruct (H 3%nat ltac:(lia)) as [?|U]; [by right|left]. exact U.
Qed.

Lemma user_not_denied m r va : user_path m r va -> denied_path m r va -> False.
Proof. intros U (k & t & Hk & Ht & Hc & Hp). rewrite (U k t) in Hp by done. discriminate. Qed.

Lemma denied_agree m r va va' : agree 3 va va' -> denied_path m r va -> denied_path m r va'.
Proof.
  intros A (k & t & Hk & Ht & Hc & Hp). exists k, t. rewrite <- (A k Hk). split_and!; [done| |done|done].
  rewrite <- Ht. symmetry. apply tbl_agree. eapply agree_le; [|exact A]. lia.
Qed.

(** Such an address is not translated for the user. *)
Lemma denied_trans m r va : denied_path m r va -> trans m true r va = None.
Proof.
  intros (k & t & Hk & Ht & Hc & Hp).
  assert (H : forall n k', (n + k' = 3)%nat -> (k' <= k)%nat -> forall t', tbl m r va k' = Some t' -> walk n k' m true t' va = None).
  { induction n as [|n IH]; intros k' Hn Hle t' Ht'; [lia|]. cbn [walk]. destruct (decide (k' = k)) as [->|Hne].
    { assert (t' = t) as -> by congruence. by rewrite Hp. }
    destruct (permits true (entry_at m t' (idx k' va))) eqn:Hp'; [|done].
    destruct (large k' (entry_at m t' (idx k' va))) eqn:Hl.
    - exfalso. assert (Hn' : tbl m r va (S k') = None).
      { rewrite (tbl_next _ _ _ _ _ Ht'). unfold child. by rewrite Hl, andb_false_r. }
      assert (k = S k' \/ k = S (S k')) as [->| ->] by lia; [congruence|]. rewrite (tbl_none _ _ _ _ Hn') in Ht. discriminate.
    - apply IH; [lia|lia|]. by eapply tbl_down. }
  by apply (H 3%nat 0%nat); [|lia|].
Qed.

(** ** The change of one entry

    [m'] differs from [m] in entry [idx k0 va0] of the table of level [k0] of
    [va0], and outside of the tables. *)
Section change.
Context (m m' : mem) (r : Z) (busy : Z -> bool) (T : tables_ok m r busy).
Context (va0 : Z) (k0 : nat) (t0 : Z) (K0 : (k0 <= 3)%nat) (H0 : tbl m r va0 k0 = Some t0).
Context (Hsame : forall a, in_table m r a -> ~ (t0 + 8 * idx k0 va0 <= a < t0 + 8 * idx k0 va0 + 8) ->
  byte_at m' a = byte_at m a).

Lemma entry_same va k t : (k <= 3)%nat -> tbl m r va k = Some t ->
  ~ (k = k0 /\ agree (S k0) va va0) -> entry_at m' t (idx k va) = entry_at m t (idx k va).
Proof.
  intros Hk Ht Hne. unfold entry_at, load64. f_equal. apply load_bytes_ext. intros x Hx.
  pose proof (idx_range k va) as Hi. pose proof (idx_range k0 va0) as Hi0.
  apply Hsame; [exists va, k, t; split_and!; [done|done|lia|lia]|].
  intros Hx0. destruct (tables_frame _ _ _ T va k t Hk Ht) as (f & -> & Hf & _).
  destruct (tables_frame _ _ _ T va0 k0 t0 K0 H0) as (f0 & -> & Hf0 & _).
  assert (f = f0) by lia. subst f0.
  destruct (tables_distinct _ _ _ T va va0 k k0 _ Hk K0 Ht H0) as [-> A].
  apply Hne. split; [done|]. apply agree_S. split; [done|]. lia.
Qed.

Lemma child_same va k t : (k <= 3)%nat -> tbl m r va k = Some t ->
  ~ (k = k0 /\ agree (S k0) va va0) -> child m' k t (idx k va) = child m k t (idx k va).
Proof. intros. unfold child. by rewrite entry_same. Qed.

(** The tables above the entry and beside it are the same. *)
Lemma tbl_same va k : (k <= 4)%nat -> (k <= k0)%nat \/ ~ agree (S k0) va va0 ->
  tbl m' r va k = tbl m r va k.
Proof.
  induction k as [|k IH]; intros Hk Hor; [done|]. cbn [tbl].
  rewrite IH; [|lia|destruct Hor; [left; lia|by right]].
  destruct (tbl m r va k) as [t|] eqn:Ht; [|done]. cbn. apply child_same; [lia|done|].
  intros [-> A]. destruct Hor; [lia|done].
Qed.

Lemma walk_beside u va : ~ agree (S k0) va va0 -> forall n k t, (n + k = 3)%nat ->
  tbl m r va k = Some t -> walk n k m' u t va = walk n k m u t va.
Proof.
  intros Hna. induction n as [|n IH]; intros k t Hk Ht; cbn [walk]; rewrite (entry_same va k t) by (lia || done || (intros [? ?]; done)).
  - done.
  - destruct (permits u _) eqn:Hp; [|done]. destruct (large k _) eqn:Hl; [done|]. apply IH; [lia|].
    by eapply tbl_down.
Qed.

(** The translation of every address is the same when it is for the addresses
    whose path goes through the entry, from its table on. *)
Lemma walk_through u va : walk (3 - k0) k0 m' u t0 va = walk (3 - k0) k0 m u t0 va ->
  agree (S k0) va va0 -> forall n k t, (n + k = 3)%nat -> (k <= k0)%nat ->
  tbl m r va k = Some t -> walk n k m' u t va = walk n k m u t va.
Proof.
  intros Hw Ha. induction n as [|n IH]; intros k t Hk Hle Ht.
  - assert (k = k0) by lia. subst k. replace (3 - k0)%nat with 0%nat in Hw by lia.
    rewrite (tbl_agree m r va va0 k0) in Ht by (eapply agree_le; [|exact Ha]; lia). by simplify_eq.
  - destruct (decide (k = k0)) as [->|Hne].
    + replace (3 - k0)%nat with (S n) in Hw by lia.
      rewrite (tbl_agree m r va va0 k0) in Ht by (eapply agree_le; [|exact Ha]; lia). by simplify_eq.
    + cbn [walk]. rewrite (entry_same va k t) by (lia || done || (intros [? ?]; done)).
      destruct (permits u _) eqn:Hp; [|done]. destruct (large k _) eqn:Hl; [done|]. apply IH; [lia|lia|].
      by eapply tbl_down.
Qed.

Lemma trans_same : (forall u va, agree (S k0) va va0 ->
    walk (3 - k0) k0 m' u t0 va = walk (3 - k0) k0 m u t0 va) ->
  forall u va, trans m' u r va = trans m u r va.
Proof.
  intros H u va. destruct (decide (agree (S k0) va va0)) as [A|A].
  - apply walk_through; [by apply H|done|done|lia|done].
  - by apply walk_beside.
Qed.

Lemma tbl_top : tbl m' r va0 k0 = Some t0.
Proof. rewrite (tbl_same va0 k0 ltac:(lia) (or_introl (le_n k0))). exact H0. Qed.

(** A table is added: the entry points to a frame [N] whose entries point to no
    table. *)
Section add.
Context (N : Z) (Hk0 : (k0 < 3)%nat) (Hc' : child m' k0 t0 (idx k0 va0) = Some (4096 * N)).
Context (Hnew : (S k0 < 3)%nat -> forall i, 0 <= i < 512 -> child m' (S k0) (4096 * N) i = None).

Lemma tbl_new : tbl m' r va0 (S k0) = Some (4096 * N).
Proof. by rewrite (tbl_next _ _ _ _ _ tbl_top). Qed.

(** Every table is an old one, or the new one. *)
Lemma tbl_add va k t : (k <= 3)%nat -> tbl m' r va k = Some t ->
  tbl m r va k = Some t \/ (k = S k0 /\ t = 4096 * N /\ agree (S k0) va va0).
Proof.
  intros Hk Ht. destruct (decide ((k <= k0)%nat \/ ~ agree (S k0) va va0)) as [Hor|Hor].
  { left. rewrite <- (tbl_same va k ltac:(lia) Hor). exact Ht. }
  right. assert (A : agree (S k0) va va0) by (destruct (decide (agree (S k0) va va0)); [done|tauto]).
  assert (Hk' : (k0 < k)%nat) by (destruct (decide (k <= k0)%nat); [tauto|lia]). clear Hor.
  assert (Hs : tbl m' r va (S k0) = Some (4096 * N)) by (rewrite (tbl_agree m' r va va0); [apply tbl_new|done]).
  destruct (decide (k = S k0)) as [->|Hne]; [rewrite Hs in Ht; by simplify_eq|exfalso].
  assert (Hn : tbl m' r va (S (S k0)) = None).
  { rewrite (tbl_next _ _ _ _ _ Hs). apply Hnew; [lia|apply idx_range]. }
  assert (Hn3 : k = S (S k0) \/ k = S (S (S k0))) by lia. destruct Hn3 as [->| ->]; [congruence|].
  rewrite (tbl_none _ _ _ _ Hn) in Ht. discriminate.
Qed.

(** The frame was free: the tables stay well-formed. *)
Lemma tables_ok_add busy' : 0 < N < 1048576 -> busy N = false ->
  (forall f, 0 <= f -> busy' f = if decide (f = N) then true else busy f) -> tables_ok m' r busy'.
Proof.
  intros HN HbN Hb.
  assert (Hold : forall va k f, (k <= 3)%nat -> tbl m r va k = Some (4096 * f) -> f <> N).
  { intros va k f Hk Ht ->. destruct (tables_frame _ _ _ T va k _ Hk Ht) as (f & Hf & _ & Hbf).
    assert (f = N) by lia. congruence. }
  split.
  - intros va k t Hk Ht. destruct (tbl_add va k t Hk Ht) as [H|(-> & -> & _)].
    + destruct (tables_frame _ _ _ T va k t Hk H) as (f & -> & Hf & Hbf). exists f. split_and!; [done|lia|lia|].
      rewrite Hb by lia. by case_decide.
    + exists N. rewrite Hb, decide_True by lia. split_and!; [done|lia|lia|done].
  - intros va va' k k' t Hk Hk' Ht Ht'.
    destruct (tbl_add va k t Hk Ht) as [H|(Ek & Et & A)], (tbl_add va' k' t Hk' Ht') as [H'|(Ek' & Et' & A')].
    + by eapply (tables_distinct _ _ _ T).
    + subst t. by apply Hold in H.
    + subst t. by apply Hold in H'.
    + subst k k'. split; [done|]. eapply agree_trans; [exact A|]. by apply agree_sym.
Qed.

Lemma user_path_add va : permits true (entry_at m' t0 (idx k0 va0)) = true ->
  user_path m r va -> user_path m' r va.
Proof.
  intros Hp U k t Hk Ht Hch. destruct (tbl_add va k t ltac:(lia) Ht) as [Ht'|(-> & -> & A)].
  - destruct (decide (k = k0 /\ agree (S k0) va va0)) as [[-> A]|Hne].
    + rewrite (tbl_agree m r va va0) in Ht' by (eapply agree_le; [|exact A]; lia).
      rewrite (A k0) by lia. by simplify_eq.
    + rewrite (entry_same va k t ltac:(lia) Ht' Hne). apply U; [done|done|].
      by rewrite <- (child_same va k t ltac:(lia) Ht' Hne).
  - exfalso. apply Hch, Hnew; [lia|apply idx_range].
Qed.

(** The entry that now points to the new table pointed to none. *)
Lemma denied_add va : child m k0 t0 (idx k0 va0) = None -> denied_path m r va -> denied_path m' r va.
Proof.
  intros Hc0 (k & t & Hk & Ht & Hc & Hp). exists k, t.
  assert (Hne : ~ ((k0 <= k)%nat /\ agree (S k0) va va0)).
  { intros [Hle A]. assert (Hn : tbl m r va (S k0) = None).
    { rewrite (tbl_agree m r va va0 (S k0) A), (tbl_next _ _ _ _ _ H0). done. }
    assert (k = k0 \/ k = S k0 \/ k = S (S k0)) as [->|[->| ->]] by lia.
    - rewrite (tbl_next _ _ _ _ _ Ht) in Hn. done.
    - congruence.
    - rewrite (tbl_none _ _ _ _ Hn) in Ht. discriminate. }
  assert (Hne' : ~ (k = k0 /\ agree (S k0) va va0)) by (intros [-> A]; apply Hne; split; [lia|done]).
  split_and!; [done| | |].
  - rewrite tbl_same; [done|lia|]. destruct (decide (agree (S k0) va va0)) as [A|]; [left|by right].
    destruct (decide (k0 <= k)%nat); [tauto|lia].
  - by rewrite (child_same va k t ltac:(lia) Ht Hne').
  - by rewrite (entry_same va k t ltac:(lia) Ht Hne').
Qed.

Lemma low_giants_add : (k0 = 0%nat -> forall i, 0 <= i < 512 -> is_present (entry_at m' (4096 * N) i) = false) ->
  low_giants m r -> low_giants m' r.
Proof.
  intros Hzero PL va t H1.
  destruct (decide (1%nat = k0 /\ agree (S k0) va va0)) as [[Ek A]|Hne].
  { rewrite Ek in H1 |- *. rewrite (tbl_agree m' r va va0), tbl_top in H1 by (eapply agree_le; [|exact A]; lia).
    injection H1 as <-. rewrite (A k0) by lia. pose proof Hc' as Hc. unfold child, large in Hc.
    rewrite <- Ek in Hc at 2. intros Hp Hl. rewrite Hp, Hl in Hc. discriminate Hc. }
  destruct (tbl_add va 1 t ltac:(lia) H1) as [H|(Ek & -> & A)].
  - rewrite (entry_same va 1 t); [by apply PL|lia|done|done].
  - rewrite Hzero; [done|lia|apply idx_range].
Qed.
End add.

(** No pointer to a table changes: the tables are the same. *)
Lemma tbl_kept : (child m' k0 t0 (idx k0 va0) = child m k0 t0 (idx k0 va0) \/ k0 = 3%nat) ->
  forall va k, (k <= 3)%nat -> tbl m' r va k = tbl m r va k.
Proof.
  intros Hc va k. induction k as [|k IH]; intros Hk; [done|]. cbn [tbl]. rewrite IH by lia.
  destruct (tbl m r va k) as [t|] eqn:Ht; [|done]. cbn.
  destruct (decide (k = k0 /\ agree (S k0) va va0)) as [[-> A]|Hne]; [|apply child_same; [lia|done|done]].
  rewrite (tbl_agree m r va va0) in Ht by (eapply agree_le; [|exact A]; lia). simplify_eq.
  rewrite (A k0) by lia. destruct Hc; [done|lia].
Qed.
End change.

Lemma tables_ok_same m m' r busy busy' : tables_ok m r busy ->
  (forall va k, (k <= 3)%nat -> tbl m' r va k = tbl m r va k) ->
  (forall f, 0 <= f -> busy f = true -> busy' f = true) -> tables_ok m' r busy'.
Proof.
  intros T H Hb. split.
  - intros va k t Hk. rewrite H by done. intros Ht.
    destruct (tables_frame _ _ _ T va k t Hk Ht) as (f & -> & Hf & Hbf). exists f.
    split_and!; [done|lia|lia|]. apply Hb; [lia|done].
  - intros va va' k k' t Hk Hk'. rewrite !H by done. by apply (tables_distinct _ _ _ T).
Qed.

(** Where the walk reaches a page table, its entry decides. *)
Lemma trans_leaf m u r va t : tbl m r va 3 = Some t -> (u = true -> user_path m r va) ->
  trans m u r va = if permits u (entry_at m t (idx 3 va)) then Some (leaf 3 (entry_at m t (idx 3 va)) va) else None.
Proof.
  intros H3 U.
  assert (Hd : forall k t' t'' n, (k < 3)%nat -> tbl m r va k = Some t' -> tbl m r va (S k) = Some t'' ->
    walk (S n) k m u t' va = walk n (S k) m u t'' va).
  { intros k t' t'' n Hk Ht' Ht''. cbn [walk]. rewrite (tbl_next _ _ _ _ _ Ht') in Ht''.
    assert (Hp : permits u (entry_at m t' (idx k va)) = true).
    { destruct u; [apply U; [done|done|done|congruence]|]. unfold child in Ht''.
      rewrite permits_bits, <- is_present_bit. by destruct (is_present _). }
    rewrite Hp. unfold child in Ht''. destruct (is_present _), (large k _); try done.
    cbn in Ht''. injection Ht'' as <-. done. }
  destruct (tbl_prev _ _ _ _ _ H3) as (t2 & H2 & _). destruct (tbl_prev _ _ _ _ _ H2) as (t1 & H1 & _).
  rewrite (Hd 0%nat r t1 2%nat) by (lia || done). rewrite (Hd 1%nat t1 t2 1%nat) by (lia || done).
  rewrite (Hd 2%nat t2 t 0%nat) by (lia || done). done.
Qed.

(** An entry that denies user access ends the walk. *)
Lemma trans_denied m r va t : tbl m r va 3 = Some t ->
  permits true (entry_at m t (idx 3 va)) = false -> trans m true r va = None.
Proof.
  intros H3 Hd.
  assert (Hw : forall k t' t'' n, tbl m r va k = Some t' -> tbl m r va (S k) = Some t'' ->
    walk n (S k) m true t'' va = None -> walk (S n) k m true t' va = None).
  { intros k t' t'' n Ht' Ht'' Hn. cbn [walk]. destruct (permits true (entry_at m t' _)) eqn:Hp; [|done].
    rewrite (tbl_next _ _ _ _ _ Ht') in Ht''. unfold child in Ht''. destruct (is_present _), (large k _); try done.
    cbn in Ht''. injection Ht'' as <-. done. }
  destruct (tbl_prev _ _ _ _ _ H3) as (t2 & H2 & _). destruct (tbl_prev _ _ _ _ _ H2) as (t1 & H1 & _).
  apply (Hw 0%nat r t1 2%nat); [done|done|]. apply (Hw 1%nat t1 t2 1%nat); [done|done|].
  apply (Hw 2%nat t2 t 0%nat); [done|done|]. cbn [walk]. by rewrite Hd.
Qed.

(** A change outside of the tables changes no table and no translation. *)
Section outside.
Context (m m' : mem) (r : Z) (H : forall a, in_table m r a -> byte_at m' a = byte_at m a).

Lemma entry_outside va k t i : (k <= 3)%nat -> tbl m r va k = Some t -> 0 <= i < 512 ->
  entry_at m' t i = entry_at m t i.
Proof.
  intros Hk Ht Hi. unfold entry_at, load64. f_equal. apply load_bytes_ext. intros x Hx.
  apply H. exists va, k, t. split_and!; [done|done|lia|lia].
Qed.

Lemma tbl_outside va k : (k <= 4)%nat -> tbl m' r va k = tbl m r va k.
Proof.
  induction k as [|k IH]; intros Hk; [done|]. cbn [tbl]. rewrite IH by lia.
  destruct (tbl m r va k) as [t|] eqn:Ht; [|done]. cbn. unfold child.
  rewrite (entry_outside va k t); [done|lia|done|apply idx_range].
Qed.

Lemma walk_outside u va n k t : (n + k = 3)%nat -> tbl m r va k = Some t ->
  walk n k m' u t va = walk n k m u t va.
Proof.
  revert k t. induction n as [|n IH]; intros k t Hk Ht; cbn [walk];
    rewrite (entry_outside va k t) by (lia || done || apply idx_range); [done|].
  destruct (permits u _) eqn:Hp; [|done]. destruct (large k _) eqn:Hl; [done|]. apply IH; [lia|]. by eapply tbl_down.
Qed.

Lemma outside_same : (forall va k, (k <= 4)%nat -> tbl m' r va k = tbl m r va k) /\
  (forall u va, trans m' u r va = trans m u r va).
Proof. split; [exact tbl_outside|intros u va; by apply walk_outside]. Qed.

Lemma user_path_outside va : user_path m r va -> user_path m' r va.
Proof.
  intros U k t Hk Ht Hch. rewrite tbl_outside in Ht by lia.
  assert (He : entry_at m' t (idx k va) = entry_at m t (idx k va)) by (apply (entry_outside va k t); [lia|done|apply idx_range]).
  rewrite He. apply U; [done|done|]. unfold child in *. by rewrite He in Hch.
Qed.

Lemma denied_outside va : denied_path m r va -> denied_path m' r va.
Proof.
  intros (k & t & Hk & Ht & Hc & Hp). exists k, t.
  assert (He : entry_at m' t (idx k va) = entry_at m t (idx k va)) by (apply (entry_outside va k t); [lia|done|apply idx_range]).
  unfold child in *. rewrite tbl_outside, He by lia. done.
Qed.
End outside.

Lemma user_path_agree m r va va' : agree 3 va va' -> user_path m r va -> user_path m r va'.
Proof.
  intros A U k t Hk Ht. rewrite <- (A k Hk). apply U; [done|]. rewrite <- Ht. apply tbl_agree.
  eapply agree_le; [|exact A]. lia.
Qed.
