(* ===== verification/VmmSpec.v ===== *)
(** * Taking frames and adding page tables

    Specifications of the operations of [k64_vmm.c] that extend the page tables
    of a space, up to [vmm_map_page]. *)
From Stdlib Require Import ZArith Lia.
From stdpp Require Import base list gmap.
From S2P Require Import Prelude Exec Mem Pmm PmmSpec Frames Vmm VmmWalk.

Lemma mod_split v a b : 0 < a -> 0 < b -> v mod (a * b) = v mod a + a * ((v / a) mod b).
Proof. intros. apply Z.rem_mul_r; lia. Qed.

(** The pages of a split large page lie where it lay. *)
Lemma split_giant_leaf e va : word e -> e mod 4503599627370496 < 281474976710656 ->
  leaf 2 (split_entry 2 e (idx 2 va)) va = leaf 1 e va.
Proof.
  intros He Hlow. pose proof (idx_range 2 va) as Hi. rewrite split_giant by done.
  cbn [leaf]. rewrite giant_mask by (destruct He; lia). rewrite large_mask.
  2: { pose proof (Z.mod_pos_bound e 4096 ltac:(lia)).
       pose proof (Z.mod_pos_bound e 4503599627370496 ltac:(lia)).
       assert (0 <= e mod 4503599627370496 / 1073741824) by (apply Z.div_pos; lia). lia. }
  change (Z.shiftl 1 21 - 1) with (Z.ones 21). change (Z.shiftl 1 30 - 1) with (Z.ones 30).
  rewrite !Z.land_ones by lia. f_equal. change (2 ^ 30) with (2097152 * 512). change (2 ^ 21) with 2097152.
  rewrite (mod_split va 2097152 512) by lia.
  assert (Hx : idx 2 va = (va / 2097152) mod 512) by (apply (index_mod va 21); lia). rewrite <- Hx.
  pose proof (Z.mod_pos_bound e 4096 ltac:(lia)).
  pose proof (Z.mod_pos_bound e 4503599627370496 ltac:(lia)).
  set (b := e mod 4503599627370496 / 1073741824). assert (0 <= b < 262144) by (unfold b; dmlia).
  set (c := e mod 4096) in *. rewrite Z.mod_small by lia.
  replace ((4096 * (262144 * b + 512 * idx 2 va) + c) / 2097152) with (512 * b + idx 2 va) by dmlia. lia.
Qed.

Lemma split_large_leaf e va : word e -> leaf 3 (split_entry 1 e (idx 3 va)) va = leaf 2 e va.
Proof.
  intros He. pose proof (idx_range 3 va) as Hi. rewrite split_large by done.
  pose proof (clear_large (e mod 4096) ltac:(apply Z.mod_pos_bound; lia)) as (Hd & _).
  set (d := Z.land (e mod 4096) _) in *. pose proof (Z.mod_pos_bound e 281474976710656 ltac:(lia)).
  cbn [leaf]. rewrite large_mask by (destruct He; lia).
  set (b := e mod 281474976710656 / 2097152). assert (0 <= b < 134217728) by (unfold b; dmlia).
  rewrite page_mask by (unfold word; lia). rewrite entry_frame by lia. rewrite page_offset.
  change (Z.shiftl 1 21 - 1) with (Z.ones 21). rewrite Z.land_ones by lia. f_equal.
  change (2 ^ 21) with (4096 * 512). rewrite (mod_split va 4096 512) by lia.
  assert (Hx : idx 3 va = (va / 4096) mod 512) by (apply (index_mod va 12); lia). rewrite <- Hx. lia.
Qed.

(** The flags of the pages of a split large page. *)
Lemma split_flags k e i u : word e -> 0 <= i < 512 -> k = 1 \/ k = 2 ->
  permits u (split_entry k e i) = permits u e /\ is_large (split_entry k e i) = (k =? 2) && is_large e /\
  word (split_entry k e i).
Proof.
  intros He Hi Hk. rewrite !permits_bits, !is_large_bit.
  pose proof (Z.mod_pos_bound e 4096 ltac:(lia)) as Hm.
  assert (Hlow : forall j, 0 <= j < 12 -> Z.testbit (e mod 4096) j = Z.testbit e j).
  { intros j Hj. rewrite <- (low_bit (e / 4096) (e mod 4096) j) by lia. f_equal.
    symmetry. apply Z.div_mod. lia. }
  destruct Hk as [->| ->]; cbn [Z.eqb Pos.eqb andb].
  - rewrite split_large by done. destruct (clear_large _ Hm) as (Hd & H0 & H2 & H7).
    set (d := Z.land (e mod 4096) _) in *. rewrite !low_bit, H0, H2, H7, !Hlow by lia.
    pose proof (Z.mod_pos_bound e 281474976710656 ltac:(lia)).
    split_and!; [done|done|unfold word; dmlia].
  - rewrite split_giant by done. rewrite !low_bit, !Hlow by lia.
    pose proof (Z.mod_pos_bound e 4503599627370496 ltac:(lia)).
    split_and!; [done|done|unfold word; dmlia].
Qed.

Lemma entry_word m t i : mem_ok m -> word (entry_at m t i).
Proof. intros H. apply load64_range, H. Qed.

(** ** States *)
Section spec.
Context {P : Type} `{!FrameAllocator P}.
Abbreviation st := (vmm P).
Implicit Types s : st.

Definition table_list (sp : k64_vm_space_t) : list Z := take (Z.to_nat (page_table_frame_count sp)) (page_table_frames sp).
Definition page_list (sp : k64_vm_space_t) : list Z := take (Z.to_nat (phys_frame_count sp)) (phys_frames sp).

Record arrays_ok (sp : k64_vm_space_t) : Prop := {
  tables_length : length (page_table_frames sp) = Z.to_nat TABLE_FRAMES_MAX;
  tables_count : 0 <= page_table_frame_count sp <= TABLE_FRAMES_MAX;
  pages_length : length (phys_frames sp) = Z.to_nat PHYS_FRAMES_MAX;
  pages_count : 0 <= phys_frame_count sp <= PHYS_FRAMES_MAX
}.

Record vm_ok s : Prop := {
  vm_frames : frames_ok (frames s);
  vm_mem : mem_ok (ram s);
  vm_arrays : arrays_ok (space s)
}.

(** A space without its lists of frames. *)
Definition bare (sp : k64_vm_space_t) : k64_vm_space_t := with_pages [] 0 (with_tables [] 0 sp).

(** The step from [s] to [s'] took the frames [nt] for tables and [np] for
    pages, which were free, and recorded them; nothing else but memory
    changed. *)
Record took (nt np : list Z) s s' : Prop := {
  took_ok : vm_ok s';
  took_fresh f : f ∈ nt ++ np -> 0 < f < 1048576 /\ busy (frames s) f = false;
  took_nodup : NoDup (nt ++ np);
  took_busy f : 0 <= f -> busy (frames s') f = bool_decide (f ∈ nt ++ np) || busy (frames s) f;
  took_tables : table_list (space s') = table_list (space s) ++ map (Z.mul 4096) nt;
  took_pages : page_list (space s') = page_list (space s) ++ map (Z.mul 4096) np;
  took_bare : bare (space s') = bare (space s);
  took_rest : set_frames (frames s) (set_ram (ram s) (set_space (space s) s')) = s
}.

Lemma took_refl s m : vm_ok s -> mem_ok m -> took [] [] s (set_ram m s).
Proof.
  intros [F _ A] M. split; cbn.
  - by split.
  - intros f H. by apply not_elem_of_nil in H.
  - constructor.
  - done.
  - by rewrite app_nil_r.
  - by rewrite app_nil_r.
  - done.
  - by destruct s.
Qed.

Lemma took_trans nt1 np1 nt2 np2 s1 s2 s3 : took nt1 np1 s1 s2 -> took nt2 np2 s2 s3 ->
  took (nt1 ++ nt2) (np1 ++ np2) s1 s3.
Proof.
  intros [O1 F1 N1 B1 T1 P1 R1 S1] [O2 F2 N2 B2 T2 P2 R2 S2].
  assert (Hp : (nt1 ++ nt2) ++ np1 ++ np2 ≡ₚ (nt1 ++ np1) ++ nt2 ++ np2) by solve_Permutation.
  assert (Hin : forall f, f ∈ (nt1 ++ nt2) ++ np1 ++ np2 <-> f ∈ nt1 ++ np1 \/ f ∈ nt2 ++ np2).
  { intros f. rewrite Hp. apply elem_of_app. }
  assert (Hfree : forall f, f ∈ nt2 ++ np2 -> busy (frames s1) f = false /\ f ∉ nt1 ++ np1).
  { intros f Hf. destruct (F2 f Hf) as [Hr Hb]. rewrite B1 in Hb by lia. apply orb_false_iff in Hb as [Hb ->].
    split; [done|]. by apply bool_decide_eq_false in Hb. }
  split; [done|..].
  - intros f [H|H]%Hin; [by apply F1|]. split; [by apply F2|by apply Hfree].
  - rewrite Hp. apply NoDup_app. split_and!; [done| |done]. intros f H1 H2. by apply Hfree in H2 as [_ H2].
  - intros f Hf. rewrite B2, B1 by done. rewrite orb_assoc. f_equal.
    rewrite <- bool_decide_or. apply bool_decide_ext. rewrite Hin. tauto.
  - rewrite T2, T1, map_app. by rewrite app_assoc.
  - rewrite P2, P1, map_app. by rewrite app_assoc.
  - congruence.
  - rewrite <- S1 at 4. destruct s1, s2, s3. cbn in *. injection S2 as -> -> -> -> ->. done.
Qed.

(** The cells of an array, after one more has been recorded. *)
Lemma record_frame_spec l n cap a : 0 <= n <= cap -> length l = Z.to_nat cap ->
  match vmm_record_frame l n cap a with
  | None => n = cap
  | Some (o, n') => exists l', o = Some l' /\ n' = n + 1 /\ n < cap /\ length l' = length l /\
      take (Z.to_nat (n + 1)) l' = take (Z.to_nat n) l ++ [a]
  end.
Proof.
  intros Hn Hl. unfold vmm_record_frame. destruct (Z.leb_spec cap n); [lia|].
  unfold setZ. rewrite decide_True by lia. exists (<[Z.to_nat n := a]> l). split_and!; [done|done|lia|len|].
  replace (Z.to_nat (n + 1)) with (S (Z.to_nat n)) by lia.
  rewrite (take_S_r _ _ a) by (apply list_lookup_insert_eq; lia).
  by rewrite take_insert_ge by lia.
Qed.

Lemma wp_vm_frames {A} (m : M P A) Q E s :
  wp m (fun a p => Q a (set_frames p s)) (fun p => E (set_frames p s)) (frames s) -> wp (on_frames m) Q E s.
Proof. apply wp_zoom. Qed.

(** A frame was taken and given back. *)
Lemma took_none s p1 p2 f : vm_ok s -> busy (frames s) f = false -> frames_set busy (frames s) f 1 true p1 ->
  frames_ok p2 -> frames_set busy p1 f 1 false p2 -> took [] [] s (set_frames p2 s).
Proof.
  intros [F M A] Hf S1 F2 S2. split; cbn.
  - by split.
  - intros g H. by apply not_elem_of_nil in H.
  - constructor.
  - intros g Hg. rewrite S2, S1 by done. unfold in_run. case_decide as Hd; [|done]. by replace g with f by lia.
  - by rewrite app_nil_r.
  - by rewrite app_nil_r.
  - done.
  - by destruct s.
Qed.

(** A frame was taken and recorded, as a table or as a page. *)
Lemma took_one s p' f sp' m' (tab : bool) : vm_ok s -> frames_ok p' -> mem_ok m' -> 0 < f < 1048576 ->
  busy (frames s) f = false -> frames_set busy (frames s) f 1 true p' -> arrays_ok sp' ->
  bare sp' = bare (space s) ->
  table_list sp' = table_list (space s) ++ (if tab then [4096 * f] else []) ->
  page_list sp' = page_list (space s) ++ (if tab then [] else [4096 * f]) ->
  took (if tab then [f] else []) (if tab then [] else [f]) s (set_ram m' (set_space sp' (set_frames p' s))).
Proof.
  intros [F M A] F' M' Hf Hb Hs A' Hbare Ht Hp.
  assert (Hin : forall g, g ∈ (if tab then [f] else []) ++ (if tab then [] else [f]) <-> g = f).
  { intros g. destruct tab; cbn [app]; apply list_elem_of_singleton. }
  split.
  - by split.
  - intros g Hg%Hin. by subst g.
  - destruct tab; cbn [app]; apply NoDup_singleton.
  - intros g Hg. cbn. rewrite Hs by done. unfold in_run. case_decide as Hd.
    + rewrite bool_decide_eq_true_2; [done|]. apply Hin. lia.
    + rewrite bool_decide_eq_false_2; [done|]. rewrite Hin. lia.
  - cbn. rewrite Ht. by destruct tab.
  - cbn. rewrite Hp. by destruct tab.
  - done.
  - by destruct s.
Qed.

Lemma zero_page_ok m a n : mem_ok m -> mem_ok (store_bytes m a (zeros n)).
Proof. intros H. apply store_bytes_ok; [done|apply zeros_bytes_ok]. Qed.

Lemma alloc_table_spec s : vm_ok s -> wp vmm_alloc_table_frame (fun a s' =>
    (a = 0 /\ took [] [] s s' /\ ram s' = ram s) \/
    (exists f, a = 4096 * f /\ took [f] [] s s' /\ ram s' = store_bytes (ram s) a (zeros 4096)))
  (fun _ => False) s.
Proof.
  intros O. unfold vmm_alloc_table_frame. apply wp_bind, wp_vm_frames.
  eapply wp_mono; [apply alloc_frame_law, O| |done]. intros a p1 [F1 G]. destruct G as [[-> ->]|(f & -> & H0 & Hmax & Hb & S1)].
  { wp_steps; [|done]. left. split_and!; [done| |by destruct s].
    replace (set_frames (frames s) s) with (set_ram (ram s) s) by (by destruct s). apply took_refl; apply O. }
  assert (Hf : busy (frames s) f = false) by (apply Hb; unfold in_run; lia).
  replace (f * 4096) with (4096 * f) by lia. wp_steps; [lia|].
  destruct (vm_arrays s O) as [L1 C1 L2 C2]. cbn [space set_frames].
  pose proof (record_frame_spec (page_table_frames (space s)) (page_table_frame_count (space s))
    TABLE_FRAMES_MAX (4096 * f) C1 L1) as R.
  destruct (vmm_record_frame _ _ _ _) as [[o n]|].
  - destruct R as (l & -> & -> & Hn & Hlen & Htake). wp_step. eapply wp_deref; [done|].
    unfold vmm_clear_page. wp_steps. right. exists f. split_and!; [done| |done].
    apply (took_one s p1 f _ _ true); [done|done|apply zero_page_ok, O|lia|done|done| |done|exact Htake|].
    + split; cbn; [congruence|lia|done|done].
    + by rewrite app_nil_r.
  - wp_step. apply wp_vm_frames. replace (4096 * f) with (f * 4096) by lia.
    eapply wp_mono; [apply (free_frame_law p1 f); [done|lia|]| |done].
    + rewrite S1 by lia. rewrite decide_True; [done|unfold in_run; lia].
    + intros [] p2 [F2 S2]. wp_steps. left. split_and!; [done| |done]. by eapply (took_none s p1 p2 f).
Qed.

Lemma take_page_spec s : vm_ok s -> wp take_page
  (fun a s' => exists f, a = 4096 * f /\ took [] [f] s s' /\ ram s' = store_bytes (ram s) a (zeros 4096))
  (fun s' => took [] [] s s' /\ ram s' = ram s) s.
Proof.
  intros O. unfold take_page. apply wp_bind, wp_vm_frames.
  eapply wp_mono; [apply alloc_frame_law, O| |done]. intros a p1 [F1 G]. destruct G as [[-> ->]|(f & -> & H0 & Hmax & Hb & S1)].
  { wp_steps; [done|]. split; [|by destruct s].
    replace (set_frames (frames s) s) with (set_ram (ram s) s) by (by destruct s). apply took_refl; apply O. }
  assert (Hf : busy (frames s) f = false) by (apply Hb; unfold in_run; lia).
  replace (f * 4096) with (4096 * f) by lia. wp_steps; [|lia].
  destruct (vm_arrays s O) as [L1 C1 L2 C2]. cbn [space set_frames].
  pose proof (record_frame_spec (phys_frames (space s)) (phys_frame_count (space s))
    PHYS_FRAMES_MAX (4096 * f) C2 L2) as R.
  destruct (vmm_record_frame _ _ _ _) as [[o n]|].
  - destruct R as (l & -> & -> & Hn & Hlen & Htake). wp_step. eapply wp_deref; [done|].
    unfold vmm_clear_page. wp_steps. exists f. split_and!; [done| |done].
    apply (took_one s p1 f _ _ false); [done|done|apply zero_page_ok, O|lia|done|done| |done| |exact Htake].
    + split; cbn; [done|done|congruence|lia].
    + by rewrite app_nil_r.
  - wp_step. apply wp_vm_frames. replace (4096 * f) with (f * 4096) by lia.
    eapply wp_mono; [apply (free_frame_law p1 f); [done|lia|]| |done].
    + rewrite S1 by lia. rewrite decide_True; [done|unfold in_run; lia].
    + intros [] p2 [F2 S2]. wp_steps. split; [|done]. by eapply (took_none s p1 p2 f).
Qed.
End spec.
