(* ===== verification/VmmMap.v ===== *)
(** * Mapping a page

    [vmm_next_table] adds at most one table and changes no translation;
    [vmm_map_page] changes the translation of the addresses of its page and of
    no other. *)
From Stdlib Require Import ZArith Lia.
From stdpp Require Import base list gmap.
From S2P Require Import Prelude Exec Mem Pmm PmmSpec Frames Vmm VmmWalk VmmSpec.

Section map.
Context {P : Type} `{!FrameAllocator P}.
Abbreviation st := (vmm P).
Implicit Types s : st.

(** A busy frame that is no table of the root [r]. *)
Definition data_frame s (r f : Z) : Prop := 0 <= f /\ busy (frames s) f = true /\
  forall va k t, (k <= 3)%nat -> tbl (ram s) r va k = Some t -> t <> 4096 * f.

Definition same_frame (m m' : mem) (f : Z) : Prop := forall a, 4096 * f <= a < 4096 * f + 4096 ->
  byte_at m' a = byte_at m a.

(** The page tables of the root [r] are well-formed. *)
Record paged s (r : Z) : Prop := {
  pg_tables : tables_ok (ram s) r (busy (frames s));
  pg_low : low_giants (ram s) r
}.

(** A step that took the frames [nt] and [np], and after which the tables of [r]
    are well-formed, its translation and the data frames are as before. *)
Record extended (r : Z) (nt np : list Z) s s' : Prop := {
  ext_took : took nt np s s';
  ext_paged : paged s' r;
  ext_trans u va : trans (ram s') u r va = trans (ram s) u r va;
  ext_denied va : denied_path (ram s) r va -> denied_path (ram s') r va;
  ext_data f : data_frame s r f -> data_frame s' r f /\ same_frame (ram s) (ram s') f
}.

Lemma took_mono nt np s s' f : took nt np s s' -> 0 <= f -> busy (frames s) f = true -> busy (frames s') f = true.
Proof. intros T H0 Hf. rewrite (took_busy _ _ _ _ T) by done. by rewrite Hf, orb_true_r. Qed.

(** A step that does not touch the tables. *)
Lemma extended_outside r nt np s s' : took nt np s s' -> paged s r ->
  (forall a, in_table (ram s) r a -> byte_at (ram s') a = byte_at (ram s) a) ->
  (forall f, data_frame s r f -> same_frame (ram s) (ram s') f) -> extended r nt np s s'.
Proof.
  intros T [PT PL] Hm Hd. destruct (outside_same (ram s) (ram s') r Hm) as [Ht Hw].
  split; [done| |done|intros va; by apply denied_outside|].
  - split.
    + eapply tables_ok_same; [done|intros va k Hk; apply Ht; lia|]. intros f. by eapply took_mono.
    + intros va t H1. rewrite Ht in H1 by lia. replace (entry_at (ram s') t (idx 1 va)) with (entry_at (ram s) t (idx 1 va));
        [by apply PL|].
      symmetry. unfold entry_at, load64. f_equal. apply load_bytes_ext. intros x Hx. pose proof (idx_range 1 va).
      apply Hm. exists va, 1%nat, t. split_and!; [lia|done|lia|lia].
  - intros f Hf. split; [|by apply Hd]. destruct Hf as (H0 & Hb & Hf). split_and!; [done|by eapply took_mono|].
    intros va k t Hk. rewrite Ht by lia. by apply Hf.
Qed.

Lemma extended_refl r s s' : took [] [] s s' -> ram s' = ram s -> paged s r -> extended r [] [] s s'.
Proof. intros T Hm O. apply extended_outside; [done|done|by rewrite Hm|]. intros f _ a _. by rewrite Hm. Qed.

Lemma extended_trans r nt1 np1 nt2 np2 s1 s2 s3 : extended r nt1 np1 s1 s2 -> extended r nt2 np2 s2 s3 ->
  extended r (nt1 ++ nt2) (np1 ++ np2) s1 s3.
Proof.
  intros [T1 P1 W1 N1 D1] [T2 P2 W2 N2 D2]. split; [by eapply took_trans|done|intros u va; by rewrite W2, W1|auto|].
  intros f Hf. destruct (D1 f Hf) as [Hf2 S1]. destruct (D2 f Hf2) as [Hf3 S2]. split; [done|].
  intros a Ha. by rewrite S2, S1 by done.
Qed.

(** A fresh frame is no table, and lies apart from the tables. *)
Lemma fresh_outside s r f a : paged s r -> 0 <= f -> busy (frames s) f = false -> in_table (ram s) r a ->
  ~ (4096 * f <= a < 4096 * f + 4096).
Proof.
  intros [PT _] H0 Hf (va & k & t & Hk & Ht & Ha) Hin.
  destruct (tables_frame _ _ _ PT va k t Hk Ht) as (g & -> & Hg & Hb). assert (g = f) by lia. congruence.
Qed.

(** A table is added: [s1] is [s] after the frame [N] was taken, and [m'] has
    the pointer to it in the entry of level [k0] on the path of [va0]. *)
Lemma add_table r s s1 N va0 k0 t0 m' : vm_ok s -> paged s r -> took [N] [] s s1 -> mem_ok m' -> (k0 < 3)%nat ->
  tbl (ram s) r va0 k0 = Some t0 ->
  (forall a, ~ (4096 * N <= a < 4096 * N + 4096) ->
     ~ (t0 + 8 * idx k0 va0 <= a < t0 + 8 * idx k0 va0 + 8) -> byte_at m' a = byte_at (ram s) a) ->
  child (ram s) k0 t0 (idx k0 va0) = None -> child m' k0 t0 (idx k0 va0) = Some (4096 * N) ->
  ((S k0 < 3)%nat -> forall i, 0 <= i < 512 -> child m' (S k0) (4096 * N) i = None) ->
  (k0 = 0%nat -> forall i, 0 <= i < 512 -> is_present (entry_at m' (4096 * N) i) = false) ->
  (forall u va, agree (S k0) va va0 ->
     walk (3 - k0) k0 m' u t0 va = walk (3 - k0) k0 (ram s) u t0 va) ->
  extended r [N] [] s (set_ram m' s1) /\ tbl m' r va0 (S k0) = Some (4096 * N) /\
  (permits true (entry_at m' t0 (idx k0 va0)) = true -> forall va, user_path (ram s) r va -> user_path m' r va).
Proof.
  intros O [PT PL] T M' Hk0 Ht0 Hm Hc Hc' Hnew Hzero Hw.
  destruct (took_fresh _ _ _ _ T N) as [HN HbN]; [by apply list_elem_of_singleton|].
  assert (Hsame : forall a, in_table (ram s) r a ->
    ~ (t0 + 8 * idx k0 va0 <= a < t0 + 8 * idx k0 va0 + 8) -> byte_at m' a = byte_at (ram s) a).
  { intros a Ha He. apply Hm; [|done]. eapply fresh_outside; [by split|lia|done|done]. }
  assert (K0 : (k0 <= 3)%nat) by lia.
  assert (Hadd : forall va k t, (k <= 3)%nat -> tbl m' r va k = Some t ->
    tbl (ram s) r va k = Some t \/ (k = S k0 /\ t = 4096 * N /\ agree (S k0) va va0)).
  { exact (tbl_add _ m' r _ PT va0 k0 t0 K0 Ht0 Hsame N Hk0 Hc' Hnew). }
  split_and!; [|by apply (tbl_new _ m' r _ PT va0 k0 t0 K0 Ht0 Hsame)|
    by intros Hp va; apply (user_path_add _ m' r _ PT va0 k0 t0 K0 Ht0 Hsame N)].
  split.
  - change (took ([N] ++ []) ([] ++ []) s (set_ram m' s1)). eapply took_trans; [exact T|].
    apply took_refl; [apply T|done].
  - split; [|by apply (low_giants_add _ m' r _ PT va0 k0 t0 K0 Ht0 Hsame N)].
    apply (tables_ok_add _ m' r _ PT va0 k0 t0 K0 Ht0 Hsame N); [done..|].
    intros f Hf. cbn. rewrite (took_busy _ _ _ _ T) by done. cbn [app]. case_decide as Hd.
    + rewrite bool_decide_eq_true_2; [done|]. subst f. by apply list_elem_of_singleton.
    + rewrite bool_decide_eq_false_2; [done|]. by rewrite list_elem_of_singleton.
  - by apply (trans_same _ m' r _ PT va0 k0 t0 K0 Ht0 Hsame).
  - intros va. by apply (denied_add _ m' r _ PT va0 k0 t0 K0 Ht0 Hsame N).
  - intros f (Hf0 & Hb & Hf). split; [split_and!; [done|exact (took_mono _ _ _ _ f T Hf0 Hb)|]|].
    + intros va k t Hk Ht ->. destruct (Hadd va k _ Hk Ht) as [H|(_ & H & _)]; [exact (Hf va k _ Hk H eq_refl)|].
      assert (f = N) by lia. congruence.
    + intros a Ha. apply Hm; [intros H; assert (f = N) by lia; congruence|]. intros H.
      destruct (tables_frame _ _ _ PT va0 k0 t0 K0 Ht0) as (f0 & -> & Hf0' & _).
      pose proof (idx_range k0 va0). apply (Hf va0 k0 (4096 * f0) K0 Ht0). lia.
Qed.

(** ** Filling and linking a table *)
Lemma entry_put m t i t' i' v : t = t' /\ i = i' \/ t + 8 * i + 8 <= t' + 8 * i' \/ t' + 8 * i' + 8 <= t + 8 * i ->
  word v -> entry_at (store64 m (t + 8 * i) v) t' i' = if decide (t = t' /\ i = i') then v else entry_at m t' i'.
Proof.
  intros H Hv. unfold entry_at. case_decide as Hd.
  - destruct Hd as [-> ->]. by apply load_store64_eq.
  - destruct H as [H|H]; [tauto|]. by apply load_store64_ne.
Qed.

Lemma fill_spec s N (f : Z -> Z) : mem_ok (ram s) -> (forall i, 0 <= i < 512 -> word (f i)) ->
  wp (for_loop 512 0 (fun i => put_entry N i (f i))) (fun _ s' => exists m', s' = set_ram m' s /\ mem_ok m' /\
      (forall i, 0 <= i < 512 -> entry_at m' N i = f i) /\
      (forall a, ~ (N <= a < N + 4096) -> byte_at m' a = byte_at (ram s) a)) (fun _ => False) s.
Proof.
  intros M Hf. apply (wp_for_loop (fun i s' => exists m', s' = set_ram m' s /\ mem_ok m' /\
    (forall j, 0 <= j < i -> entry_at m' N j = f j) /\
    (forall a, ~ (N <= a < N + 4096) -> byte_at m' a = byte_at (ram s) a))).
  - exists (ram s). split_and!; [by destruct s|done|lia|done].
  - intros i s' Hi (m' & -> & M' & He & Ho). unfold put_entry. wp_steps.
    exists (store64 m' (N + 8 * i) (f i)). split_and!; [by destruct s|by apply store64_ok| |].
    + intros j Hj. rewrite entry_put by (lia || (apply Hf; lia)). case_decide as Hd; [by destruct Hd as [_ ->]|].
      apply He. lia.
    + intros a Ha. rewrite byte_at_store64_out by lia. by apply Ho.
  - intros s' H. exact H.
Qed.

(** The pointer to a table that was taken and filled is stored. *)
Lemma link_table r s s1 N va0 k0 t0 m2 x : vm_ok s -> paged s r -> took [N] [] s s1 -> mem_ok m2 -> (k0 < 3)%nat ->
  tbl (ram s) r va0 k0 = Some t0 ->
  (forall a, ~ (4096 * N <= a < 4096 * N + 4096) -> byte_at m2 a = byte_at (ram s) a) ->
  child (ram s) k0 t0 (idx k0 va0) = None ->
  ((S k0 < 3)%nat -> forall i, 0 <= i < 512 -> is_present (entry_at m2 (4096 * N) i) = false \/
     (k0 = 1%nat /\ is_large (entry_at m2 (4096 * N) i) = true)) ->
  (forall u va, agree (S k0) va va0 -> let e := entry_at m2 (4096 * N) (idx (S k0) va) in
     (if (negb u || Z.testbit x 2) && permits u e then Some (leaf (S k0) e va) else None) =
     walk (3 - k0) k0 (ram s) u t0 va) ->
  let m' := store64 m2 (t0 + 8 * idx k0 va0) (4096 * N + table_flags x) in
  extended r [N] [] s (set_ram m' s1) /\ tbl m' r va0 (S k0) = Some (4096 * N) /\
  (Z.testbit x 2 = true -> forall va, user_path (ram s) r va -> user_path m' r va).
Proof.
  intros O PG T M2 Hk0 Ht0 Hout Hc Hnew Hw m'.
  destruct (took_fresh _ _ _ _ T N) as [HN HbN]; [by apply list_elem_of_singleton|].
  pose proof (idx_range k0 va0) as Hi0. destruct (table_flags_spec x) as (Hf & Hf0 & Hf7 & Hf2).
  assert (Hdis : t0 + 4096 <= 4096 * N \/ 4096 * N + 4096 <= t0).
  { destruct (tables_frame _ _ _ (pg_tables _ _ PG) va0 k0 t0 ltac:(lia) Ht0) as (f & -> & Hff & Hb).
    assert (f <> N) by congruence. lia. }
  assert (He : entry_at m' t0 (idx k0 va0) = 4096 * N + table_flags x).
  { unfold m'. rewrite entry_put by (unfold word; lia). by rewrite decide_True. }
  assert (HeN : forall i, 0 <= i < 512 -> entry_at m' (4096 * N) i = entry_at m2 (4096 * N) i).
  { intros i Hi. unfold m'. rewrite entry_put by (unfold word; lia). rewrite decide_False; [done|]. lia. }
  assert (Hbit : forall j, 0 <= j < 12 -> Z.testbit (4096 * N + table_flags x) j = Z.testbit (table_flags x) j)
    by (intros j Hj; by apply low_bit).
  assert (Hlg : large k0 (4096 * N + table_flags x) = false).
  { unfold large. rewrite is_large_bit, Hbit, Hf7 by lia. by destruct k0 as [|[|[|]]]. }
  assert (Had : addr (4096 * N + table_flags x) = 4096 * N).
  { unfold addr. rewrite page_mask by (unfold word; lia). by rewrite entry_frame by lia. }
  assert (Hpm : forall u, permits u (4096 * N + table_flags x) = negb u || Z.testbit x 2).
  { intros u. by rewrite permits_bits, !Hbit, Hf0, Hf2 by lia. }
  destruct (add_table r s s1 N va0 k0 t0 m' O PG T) as (E1 & E2 & E3); try done.
  - by apply store64_ok.
  - intros a Ha Ha'. unfold m'. rewrite byte_at_store64_out by done. by apply Hout.
  - unfold child. rewrite He, Hlg, Had, is_present_bit, Hbit, Hf0 by lia. done.
  - intros Hk i Hi. unfold child. rewrite HeN by done. destruct (Hnew Hk i Hi) as [->|[-> Hl]]; [done|].
    cbn [large]. by rewrite Hl, andb_false_r.
  - intros -> i Hi. rewrite HeN by done. destruct (Hnew ltac:(lia) i Hi) as [->|[H _]]; done.
  - intros u va A. specialize (Hw u va A). cbv zeta in Hw. rewrite <- Hw.
    assert (Hn : exists n, (3 - k0)%nat = S n /\ (n + k0 = 2)%nat) by (exists (2 - k0)%nat; lia).
    destruct Hn as (n & -> & Hn). pose proof (idx_range (S k0) va) as Hi1. cbn [walk].
    rewrite (A k0) by lia. rewrite He, Hlg, Had, Hpm. destruct (negb u || Z.testbit x 2); cbn [andb]; [|done].
    rewrite <- HeN by done. destruct n as [|n]; cbn [walk].
    + by destruct (permits u _).
    + rewrite HeN by done. destruct (Hnew ltac:(lia) _ Hi1) as [Hp|[-> Hl]].
      * assert (Hpf : permits u (entry_at m2 (4096 * N) (idx (S k0) va)) = false).
        { rewrite permits_bits, <- is_present_bit, Hp. done. }
        by rewrite Hpf.
      * cbn [large]. by rewrite Hl.
  - split_and!; [done|done|]. intros Hx. apply E3. rewrite He, Hpm, Hx. done.
Qed.

(** What [vmm_next_table] promises about the entry of level [k0] on the path of
    [va0]: no translation changes, and unless it returns [NULL] the result is
    the table that the entry points to. *)
Definition stepped (r va0 : Z) (k0 : nat) (flags : Z) s (a : Z) s' : Prop := exists nt,
  extended r nt [] s s' /\
  (a = 0 \/ (tbl (ram s') r va0 (S k0) = Some a /\
     (Z.testbit flags 2 = true -> forall va, user_path (ram s) r va -> user_path (ram s') r va))).

Lemma stepped_null r va0 k0 flags s s' : took [] [] s s' -> ram s' = ram s -> paged s r ->
  stepped r va0 k0 flags s 0 s'.
Proof. intros T Hm PG. exists []. split; [by apply extended_refl|by left]. Qed.

Lemma zero_entries m N i : 0 <= i < 512 ->
  entry_at (store_bytes m N (zeros 4096)) N i = 0.
Proof.
  intros Hi. apply load64_zero. intros x Hx. rewrite byte_at_store. rewrite decide_True by len.
  destruct (zeros 4096 !! _) as [y|] eqn:Hy; [|done]. cbn.
  by apply zeros_lookup in Hy.
Qed.

Lemma new_table_spec r s k0 va0 t0 flags : vm_ok s -> paged s r -> (k0 < 3)%nat ->
  tbl (ram s) r va0 k0 = Some t0 -> is_present (entry_at (ram s) t0 (idx k0 va0)) = false ->
  wp (next ← vmm_alloc_table_frame;
      if next =? 0 then mret 0 else
      put_entry t0 (idx k0 va0) (Z.lor (Z.lor next K64_PAGE_TABLE_FLAGS) (Z.land flags K64_PAGE_USER)) ;;
      mret next) (stepped r va0 k0 flags s) (fun _ => False) s.
Proof.
  intros O PG Hk0 Ht0 Hp. apply wp_bind. eapply wp_mono; [by apply alloc_table_spec| |done].
  intros a s1 [(-> & T & Hm)|(N & -> & T & Hm)].
  { cbn [Z.eqb]. apply wp_ret. by apply stepped_null. }
  destruct (took_fresh _ _ _ _ T N) as [HN HbN]; [by apply list_elem_of_singleton|].
  rewrite (proj2 (Z.eqb_neq _ _)) by lia. unfold put_entry. wp_steps. rewrite table_entry, Hm by lia.
  destruct (link_table r s s1 N va0 k0 t0 (store_bytes (ram s) (4096 * N) (zeros 4096)) flags O PG T
    (zero_page_ok _ _ _ (vm_mem s O)) Hk0 Ht0) as (E1 & E2 & E3).
  - intros a Ha. apply byte_at_store_out. by rewrite zeros_length.
  - unfold child. by rewrite Hp.
  - intros Hk i Hi. left. rewrite zero_entries by done. reflexivity.
  - intros u va A. cbv zeta. rewrite zero_entries by apply idx_range.
    replace (permits u 0) with false by (by destruct u). rewrite andb_false_r.
    assert (Hn : exists n, (3 - k0)%nat = S n) by (exists (2 - k0)%nat; lia). destruct Hn as (n & ->). cbn [walk].
    rewrite (A k0) by lia. rewrite permits_bits, <- is_present_bit, Hp. done.
  - exists [N]. split; [exact E1|]. right. split; [exact E2|exact E3].
Qed.

Lemma split_spec r s k0 va0 t0 flags : vm_ok s -> paged s r -> (k0 < 3)%nat ->
  tbl (ram s) r va0 k0 = Some t0 -> is_present (entry_at (ram s) t0 (idx k0 va0)) = true ->
  is_large (entry_at (ram s) t0 (idx k0 va0)) = true ->
  wp (vmm_split_large_page t0 (idx k0 va0) flags (3 - Z.of_nat k0)) (stepped r va0 k0 flags s) (fun _ => False) s.
Proof.
  intros O PG Hk0 Ht0 Hp Hl. unfold vmm_split_large_page, get_entry. wp_step. wp_step. rewrite Hl.
  set (e := entry_at (ram s) t0 (idx k0 va0)) in *. assert (We : word e) by apply entry_word, O.
  destruct (decide (k0 = 0%nat)) as [->|Hk].
  { cbn [negb orb Z.of_nat Z.sub]. apply wp_ret. apply stepped_null; [|done|done].
    replace s with (set_ram (ram s) s) at 2 by (by destruct s). apply took_refl; apply O. }
  replace (negb true || (3 - Z.of_nat k0 <? 1) || (2 <? 3 - Z.of_nat k0)) with false
    by (destruct k0 as [|[|[|]]]; (done || lia)).
  apply wp_bind. eapply wp_mono; [by apply alloc_table_spec| |done].
  intros a s1 [(-> & T & Hm)|(N & -> & T & Hm)].
  { cbn [Z.eqb]. apply wp_ret. by apply stepped_null. }
  destruct (took_fresh _ _ _ _ T N) as [HN HbN]; [by apply list_elem_of_singleton|].
  rewrite (proj2 (Z.eqb_neq _ _)) by lia. apply wp_bind.
  assert (Hlev : 3 - Z.of_nat k0 = 1 \/ 3 - Z.of_nat k0 = 2) by lia.
  eapply wp_mono; [apply fill_spec; [apply (took_ok _ _ _ _ T)|intros i Hi; by apply (split_flags _ e i true)]| |done].
  intros [] s2 (m2 & -> & M2 & Hent & Hout). unfold put_entry. wp_steps. rewrite table_entry by lia.
  cbn [ram set_ram].
  destruct (link_table r s s1 N va0 k0 t0 m2 (Z.lor e flags) O PG T M2 Hk0 Ht0) as (E1 & E2 & E3).
  - intros a Ha. rewrite Hout by done. rewrite Hm. apply byte_at_store_out. by rewrite zeros_length.
  - unfold child. fold e. rewrite Hp. destruct k0 as [|[|[|]]]; [lia| | |lia]; cbn [large]; by rewrite Hl.
  - intros Hk' i Hi. right. rewrite Hent by done. split; [lia|].
    destruct (split_flags (3 - Z.of_nat k0) e i true We Hi Hlev) as (_ & -> & _). rewrite Hl.
    by replace k0 with 1%nat by lia.
  - intros u va A. cbv zeta. pose proof (idx_range (S k0) va) as Hi. rewrite Hent by done.
    destruct (split_flags (3 - Z.of_nat k0) e (idx (S k0) va) u We Hi Hlev) as (-> & _ & _).
    assert (Hn : exists n, (3 - k0)%nat = S n) by (exists (2 - k0)%nat; lia). destruct Hn as (n & ->). cbn [walk].
    rewrite (A k0) by lia. fold e. rewrite Z.lor_spec.
    replace (large k0 e) with true by (destruct k0 as [|[|[|]]]; [lia|done|done|lia]).
    destruct (permits u e) eqn:Hpe; [|by rewrite andb_false_r]. rewrite andb_true_r.
    replace (negb u || (Z.testbit e 2 || Z.testbit flags 2)) with true.
    2: { rewrite permits_bits in Hpe. apply andb_true_iff in Hpe as [_ Hpe]. destruct u; [|done]. cbn in Hpe |- *. by rewrite Hpe. }
    destruct k0 as [|[|[|]]]; [lia| | |lia].
    + rewrite split_giant_leaf; [done|done|]. apply (pg_low _ _ PG va0 t0); done.
    + by rewrite split_large_leaf.
  - exists [N]. split; [exact E1|]. right. split; [exact E2|]. intros Hx. apply E3. rewrite Z.lor_spec, Hx. apply orb_true_r.
Qed.

Lemma next_table_spec r s k0 va0 t0 flags : vm_ok s -> paged s r -> (k0 < 3)%nat ->
  tbl (ram s) r va0 k0 = Some t0 ->
  wp (vmm_next_table t0 (idx k0 va0) flags (3 - Z.of_nat k0)) (stepped r va0 k0 flags s) (fun _ => False) s.
Proof.
  intros O PG Hk0 Ht0. unfold vmm_next_table, get_entry. wp_step. wp_step.
  destruct (is_present _) eqn:Hp; [|by apply new_table_spec].
  destruct (is_large _) eqn:Hl; [by apply split_spec|]. apply wp_ret. exists []. split.
  - apply extended_refl; [|done|done]. replace s with (set_ram (ram s) s) at 2 by (by destruct s).
    apply took_refl; apply O.
  - right. split; [|done]. rewrite (tbl_next _ _ _ _ _ Ht0). unfold child. rewrite Hp.
    replace (large k0 _) with false; [done|]. by destruct k0 as [|[|[|]]].
Qed.

(** ** [vmm_map_page] *)
Definition same_page (va va' : Z) : Prop := (va / 4096) mod 68719476736 = (va' / 4096) mod 68719476736.

Lemma same_page_agree va va' : same_page va va' <-> agree 4 va va'.
Proof.
  assert (H : forall v, (v / 4096) mod 68719476736 =
    idx 3 v + 512 * idx 2 v + 262144 * idx 1 v + 134217728 * idx 0 v).
  { intros v. cbn [idx]. unfold pml4_index, pdpt_index, pdt_index, pt_index. rewrite !index_mod by lia.
    change (2 ^ 12) with 4096. change (2 ^ 21) with 2097152. change (2 ^ 30) with 1073741824.
    change (2 ^ 39) with 549755813888. dmlia. }
  pose proof (idx_range) as R. unfold same_page. rewrite !H.
  pose proof (R 0%nat va). pose proof (R 1%nat va). pose proof (R 2%nat va). pose proof (R 3%nat va).
  pose proof (R 0%nat va'). pose proof (R 1%nat va'). pose proof (R 2%nat va'). pose proof (R 3%nat va').
  split.
  - intros E j Hj. destruct j as [|[|[|[|j]]]]; lia.
  - intros A. by rewrite (A 0%nat), (A 1%nat), (A 2%nat), (A 3%nat) by lia.
Qed.

(** The page of [virt] is mapped to frame [n]: its addresses translate to that
    frame, for user access when the flags and the path allow it; every other
    translation and every data frame is as before. *)
Record mapped (r virt n flags : Z) s s' : Prop := {
  map_took : exists nt, took nt [] s s';
  map_paged : paged s' r;
  map_page va : same_page va virt -> trans (ram s') false r va = Some (4096 * n + va mod 4096);
  map_user va : same_page va virt -> Z.testbit flags 2 = true -> user_path (ram s) r virt ->
    trans (ram s') true r va = Some (4096 * n + va mod 4096);
  map_denied va : same_page va virt -> denied_path (ram s) r virt -> trans (ram s') true r va = None;
  map_private va : same_page va virt -> Z.testbit flags 2 = false -> trans (ram s') true r va = None;
  map_other u va : ~ same_page va virt -> trans (ram s') u r va = trans (ram s) u r va;
  map_path va : Z.testbit flags 2 = true -> user_path (ram s) r va -> user_path (ram s') r va;
  map_data f : data_frame s r f -> data_frame s' r f /\ same_frame (ram s) (ram s') f
}.

Lemma leaf_entry_bits n flags : 0 <= n < 4503599627370496 ->
  word (leaf_entry (4096 * n) flags) /\ permits false (leaf_entry (4096 * n) flags) = true /\
  permits true (leaf_entry (4096 * n) flags) = Z.testbit flags 2 /\
  forall va, leaf 3 (leaf_entry (4096 * n) flags) va = 4096 * n + va mod 4096.
Proof.
  intros Hn. rewrite leaf_entry_spec by done. pose proof (leaf_flags_range flags) as Hc.
  assert (H0 : Z.testbit (Z.lor (flags mod 4096) 1) 0 = true) by (rewrite Z.lor_spec; apply orb_true_r).
  split_and!; [unfold word; lia| | |].
  - by rewrite permits_bits, low_bit, H0 by lia.
  - rewrite permits_bits, !low_bit, H0, Z.lor_spec by lia. cbn [negb orb andb].
    change 4096 with (2 ^ 12). rewrite Z.mod_pow2_bits_low by lia. apply orb_false_r.
  - intros va. cbn [leaf]. rewrite page_mask by (unfold word; lia). rewrite entry_frame, page_offset by lia.
    pose proof (Z.mod_pos_bound va 4096 ltac:(lia)). apply u64_small. lia.
Qed.

(** The last store of [vmm_map_page]. *)
Lemma set_leaf_mapped r s s3 virt n flags nt t3 : extended r nt [] s s3 -> vm_ok s3 ->
  0 <= n < 4503599627370496 -> tbl (ram s3) r virt 3 = Some t3 ->
  (Z.testbit flags 2 = true -> forall va, user_path (ram s) r va -> user_path (ram s3) r va) ->
  mapped r virt n flags s
    (set_ram (store64 (ram s3) (t3 + 8 * idx 3 virt) (leaf_entry (4096 * n) flags)) s3).
Proof.
  intros [T [PT PL] W N D] O3 Hn H3 U. destruct (leaf_entry_bits n flags Hn) as (Lw & Lp & Lu & Ll).
  set (e := leaf_entry (4096 * n) flags) in *. set (m' := store64 _ _ e). pose proof (idx_range 3 virt) as Hi.
  assert (Hsame : forall a, in_table (ram s3) r a -> ~ (t3 + 8 * idx 3 virt <= a < t3 + 8 * idx 3 virt + 8) ->
    byte_at m' a = byte_at (ram s3) a) by (intros a _ Ha; by apply byte_at_store64_out).
  assert (Hk : forall va k, (k <= 3)%nat -> tbl m' r va k = tbl (ram s3) r va k).
  { apply (tbl_kept _ m' r _ PT virt 3 t3 (le_n 3) H3 Hsame). by right. }
  assert (Hent : forall va k t, (k < 3)%nat -> tbl (ram s3) r va k = Some t ->
    entry_at m' t (idx k va) = entry_at (ram s3) t (idx k va)).
  { intros va k t Hlt Ht. apply (entry_same _ m' r _ PT virt 3 t3 (le_n 3) H3 Hsame); [lia|done|lia]. }
  assert (HU : forall va, user_path (ram s3) r va -> user_path m' r va).
  { intros va Hu k t Hlt Ht Hch. rewrite Hk in Ht by lia. rewrite Hent by done. apply Hu; [done|done|].
    unfold child in *. by rewrite Hent in Hch. }
  assert (Htr : forall u va, same_page va virt -> (u = true -> user_path (ram s3) r virt) ->
    trans m' u r va = if permits u e then Some (leaf 3 e va) else None).
  { intros u va Hp%same_page_agree Hu.
    assert (Ht3 : tbl m' r va 3 = Some t3).
    { rewrite Hk by lia. rewrite (tbl_agree _ r va virt); [done|]. eapply agree_le; [|exact Hp]. lia. }
    rewrite (trans_leaf m' u r va t3 Ht3).
    - rewrite (Hp 3%nat) by lia. unfold m'. rewrite entry_put by (auto; lia). by rewrite decide_True.
    - intros Eu. intros k t Hlt Ht Hch. rewrite (Hp k) in * by lia.
      apply (HU virt (Hu Eu) k t Hlt); [|done]. rewrite <- Ht. apply tbl_agree, agree_sym. eapply agree_le; [|exact Hp]. lia. }
  assert (Hno : forall va, same_page va virt -> Z.testbit flags 2 = false -> trans m' true r va = None).
  { intros va Hp%same_page_agree Hf.
    assert (Ht3 : tbl m' r va 3 = Some t3).
    { rewrite Hk by lia. rewrite (tbl_agree _ r va virt); [done|]. eapply agree_le; [|exact Hp]. lia. }
    assert (He : entry_at m' t3 (idx 3 va) = e).
    { rewrite (Hp 3%nat) by lia. unfold m'. rewrite entry_put by (auto; lia). by rewrite decide_True. }
    by rewrite (trans_denied m' r va t3 Ht3) by (by rewrite He, Lu). }
  split.
  - exists nt. rewrite <- (app_nil_r nt). change ([] : list Z) with ([] ++ [] : list Z) at 2.
    eapply took_trans; [exact T|]. apply took_refl; [done|apply store64_ok, O3].
  - split; cbn [ram set_ram frames].
    + eapply tables_ok_same; [exact PT|exact Hk|done].
    + intros va t H1. rewrite Hk in H1 by lia. rewrite Hent by (lia || done). by apply PL.
  - intros va Hp. cbn [ram set_ram]. rewrite Htr by done. by rewrite Lp, Ll.
  - intros va Hp Hf Hu. cbn [ram set_ram]. rewrite Htr; [by rewrite Lu, Hf, Ll|done|auto].
  - intros va Hp%same_page_agree Hd%N. cbn [ram set_ram]. apply denied_trans.
    apply (denied_agree _ r virt); [apply agree_sym; eapply agree_le; [|exact Hp]; lia|].
    destruct Hd as (k & t & Hlt & Ht & Hc & Hpm). exists k, t. unfold child in *. by rewrite Hk, Hent by (lia || done).
  - exact Hno.
  - intros u va Hp. cbn [ram set_ram]. rewrite <- W.
    apply (walk_beside _ m' r _ PT virt 3 t3 (le_n 3) H3 Hsame); [|done|done]. by rewrite <- same_page_agree.
  - intros va Hf Hu. apply HU. by apply U.
  - intros f Hf. destruct (D f Hf) as [(F0 & Fb & Ft) Hs]. cbn [ram set_ram]. split.
    + split_and!; [done|done|]. cbn [ram set_ram]. intros va k t Hle. rewrite Hk by done. by apply Ft.
    + intros a Ha. rewrite <- Hs by done. apply byte_at_store64_out.
      destruct (tables_frame _ _ _ PT virt 3 t3 (le_n 3) H3) as (g & -> & Hg & _). intros Hin.
      apply (Ft virt 3%nat _ (le_n 3) H3). lia.
Qed.

Lemma map_page_spec r s virt n flags : vm_ok s -> present (space s) = true -> cr3 (space s) = r -> r <> 0 ->
  paged s r -> 0 <= n < 4503599627370496 ->
  wp (vmm_map_page virt (4096 * n) flags) (fun _ s' => mapped r virt n flags s s')
    (fun s' => exists nt, extended r nt [] s s') s.
Proof.
  intros O Hp Hr Hr0 PG Hn. unfold vmm_map_page. wp_step. wp_step. wp_step.
  apply wp_check; [intros _|rewrite Hp, Hr, (proj2 (Z.eqb_neq _ _) Hr0); done].
  rewrite Hr. wp_step.
  eapply wp_mono; [apply (next_table_spec r s 0 virt r flags O PG); [lia|done]| |done].
  intros a1 s1 (nt1 & E1 & H1). wp_step. apply wp_check; [intros Ha1%negb_true_iff%Z.eqb_neq|intros _; by exists nt1].
  destruct H1 as [->|[H1 U1]]; [done|]. wp_step.
  eapply wp_mono; [apply (next_table_spec r s1 1 virt a1 flags (took_ok _ _ _ _ (ext_took _ _ _ _ _ E1)) (ext_paged _ _ _ _ _ E1)); [lia|done]| |done].
  intros a2 s2 (nt2 & E2 & H2). pose proof (extended_trans _ _ _ _ _ _ _ _ E1 E2) as E12. wp_step.
  apply wp_check; [intros Ha2%negb_true_iff%Z.eqb_neq|intros _; by eexists].
  destruct H2 as [->|[H2 U2]]; [done|]. wp_step.
  eapply wp_mono; [apply (next_table_spec r s2 2 virt a2 flags (took_ok _ _ _ _ (ext_took _ _ _ _ _ E2)) (ext_paged _ _ _ _ _ E2)); [lia|done]| |done].
  intros a3 s3 (nt3 & E3 & H3). pose proof (extended_trans _ _ _ _ _ _ _ _ E12 E3) as E123. wp_step.
  apply wp_check; [intros Ha3%negb_true_iff%Z.eqb_neq|intros _; by eexists].
  destruct H3 as [->|[H3 U3]]; [done|]. unfold put_entry. wp_steps.
  eapply (set_leaf_mapped r s s3 virt n flags _ a3); [exact E123|apply (took_ok _ _ _ _ (ext_took _ _ _ _ _ E3))|done|exact H3|].
  intros Hf va Hu. by apply U3, U2, U1.
Qed.
End map.
