(* ===== verification/VmmUser.v ===== *)
(** * Copies between kernel buffers and user memory

    [k64_vmm_read_user] and [k64_vmm_write_user] move exactly the bytes at the
    user-accessible addresses of the range. *)
From Stdlib Require Import ZArith Lia.
From stdpp Require Import base list gmap.
From S2P Require Import Prelude Exec Mem Pmm PmmSpec Frames Vmm VmmWalk VmmSpec VmmMap.

(** Within a page, translation is linear. *)
Lemma leaf_offset k e va i : word e -> 0 <= i -> va mod 4096 + i < 4096 -> leaf k e (va + i) = leaf k e va + i.
Proof.
  intros He Hi Hp.
  assert (Hm : forall c, 0 < c -> (va + i) mod (4096 * c) = va mod (4096 * c) + i).
  { intros c Hc. rewrite !(mod_split _ 4096 c) by lia.
    replace ((va + i) / 4096) with (va / 4096) by dmlia. replace ((va + i) mod 4096) with (va mod 4096 + i) by dmlia. lia. }
  assert (Hn : forall n, word n -> n mod 4096 = 0 -> word (n + 4095)) by (unfold word; intros; dmlia).
  assert (H1 : forall n, word (n + va mod 4096 + i) -> word (n + va mod 4096) -> u64 (n + (va + i) mod 4096) = u64 (n + va mod 4096) + i).
  { intros n W1 W2. replace ((va + i) mod 4096) with (va mod 4096 + i) by dmlia. rewrite !u64_small by (unfold word in *; lia). lia. }
  unfold leaf. destruct k as [|[|[|k]]]; try rewrite !page_offset.
  1, 4: rewrite page_mask by done; unfold word in He; pose proof (Z.mod_pos_bound va 4096); apply H1; unfold word; dmlia.
  - change (Z.shiftl 1 30 - 1) with (Z.ones 30). rewrite !Z.land_ones, giant_mask by (destruct He; lia).
    change (2 ^ 30) with (4096 * 262144). rewrite Hm by lia. pose proof (Z.mod_pos_bound va (4096 * 262144)).
    pose proof (Z.mod_pos_bound e 4503599627370496). rewrite !u64_small; [lia|dmlia|dmlia].
  - change (Z.shiftl 1 21 - 1) with (Z.ones 21). rewrite !Z.land_ones, large_mask by (destruct He; lia).
    change (2 ^ 21) with (4096 * 512). rewrite Hm by lia. pose proof (Z.mod_pos_bound va (4096 * 512)).
    pose proof (Z.mod_pos_bound e 281474976710656). rewrite !u64_small; [lia|dmlia|dmlia].
Qed.

Lemma idx_offset k va i : 0 <= i -> va mod 4096 + i < 4096 -> idx k (va + i) = idx k va.
Proof.
  intros Hi Hp. assert (H : agree 4 (va + i) va).
  { apply same_page_agree. unfold same_page. f_equal. dmlia. }
  destruct (decide (k < 4)%nat) as [Hk|Hk]; [by apply H|]. destruct k as [|[|[|k]]]; [lia..|].
  apply (H 3%nat). lia.
Qed.

Lemma walk_offset m u va i : mem_ok m -> 0 <= i -> va mod 4096 + i < 4096 -> forall n k t,
  walk n k m u t (va + i) = (fun x => x + i) <$> walk n k m u t va.
Proof.
  intros M Hi Hp. induction n as [|n IH]; intros k t; cbn [walk]; rewrite !idx_offset by done.
  - destruct (permits u _); [|done]. cbn. by rewrite leaf_offset by (done || apply entry_word, M).
  - destruct (permits u _); [|done]. destruct (large k _); [|apply IH]. cbn.
    by rewrite leaf_offset by (done || apply entry_word, M).
Qed.

Lemma translate_offset m sp u va i : mem_ok m -> 0 <= i -> va mod 4096 + i < 4096 ->
  vmm_translate m sp (va + i) u = (fun x => x + i) <$> vmm_translate m sp va u.
Proof.
  intros M Hi Hp. destruct (present sp && negb (cr3 sp =? 0)) eqn:H.
  - apply andb_true_iff in H as [H1 H2%negb_true_iff%Z.eqb_neq].
    rewrite !translate_walk by done. by apply walk_offset.
  - unfold vmm_translate. destruct (present sp); [|done]. by destruct (cr3 sp =? 0).
Qed.

(** The chunks of the two loops. *)
Lemma next_chunk_spec virt size done : 0 <= virt + done < 18446744073709551616 -> 0 <= done < size ->
  let c := next_chunk virt size done in
  0 < c <= size - done /\ (virt + done) mod 4096 + c <= 4096 /\
  (c = size - done \/ (virt + done + c) mod 4096 = 0).
Proof.
  intros Hv Hd c. unfold c, next_chunk. rewrite page_offset, u64_small by lia. change K64_PAGE_SIZE with 4096.
  pose proof (Z.mod_pos_bound (virt + done) 4096 ltac:(lia)).
  destruct (Z.ltb_spec (size - done) (4096 - (virt + done) mod 4096)); split_and!; try lia.
  right. dmlia.
Qed.

(** The iterations that are left: one for the rest of the page, one for each
    further page, and one to leave. *)
Definition rounds_left (virt size done : Z) : Z :=
  (size - done + 4095) / 4096 + (if (virt + done) mod 4096 =? 0 then 1 else 2).

Lemma rounds_left_chunk virt size done : 0 <= virt + done < 18446744073709551616 -> 0 <= done < size ->
  let c := next_chunk virt size done in
  (done + c < size -> rounds_left virt size (done + c) < rounds_left virt size done) /\
  2 <= rounds_left virt size done.
Proof.
  intros Hv Hd c. destruct (next_chunk_spec virt size done Hv Hd) as (Hc1 & Hc2 & Hc3). fold c in Hc1, Hc2, Hc3.
  unfold rounds_left. replace (virt + (done + c)) with (virt + done + c) by lia.
  assert (1 <= (size - done + 4095) / 4096) by (apply Z.div_le_lower_bound; lia).
  destruct (Z.eqb_spec ((virt + done) mod 4096) 0) as [E|E]; (split; [|lia]); intros Hlt;
  destruct Hc3 as [Hc3|Hc3]; try lia; rewrite Hc3; cbn [Z.eqb].
  - assert (c = 4096) by (unfold c, next_chunk in *; rewrite page_offset, u64_small in * by lia;
      change K64_PAGE_SIZE with 4096 in *; rewrite E in *; destruct (Z.ltb_spec (size - done) (4096 - 0)); lia).
    replace (size - (done + c) + 4095) with (size - done + 4095 + (-1) * 4096) by lia. rewrite Z.div_add by lia. lia.
  - assert ((size - (done + c) + 4095) / 4096 <= (size - done + 4095) / 4096) by (apply Z.div_le_mono; lia). lia.
Qed.

Lemma copy_fuel_enough virt size : 0 <= size -> rounds_left virt size 0 <= Z.of_nat (copy_fuel size).
Proof.
  intros Hs. unfold rounds_left, copy_fuel. change K64_PAGE_SIZE with 4096.
  assert ((size - 0 + 4095) / 4096 <= size / 4096 + 1) by dmlia. assert (0 <= size / 4096) by (apply Z.div_pos; lia).
  destruct (_ =? 0); lia.
Qed.

Lemma no_overflow virt size : 0 <= virt < 18446744073709551616 -> 0 <= size < 18446744073709551616 ->
  vmm_range_overflows virt size = false -> size = 0 \/ virt + size <= 18446744073709551616.
Proof.
  intros Hv Hs. unfold vmm_range_overflows. destruct (Z.eqb_spec size 0); [by left|]. cbn [negb andb].
  intros H%Z.ltb_ge. right. destruct (decide (virt + size <= 18446744073709551616)); [done|exfalso].
  revert H. unfold u64. replace (virt + (size - 1)) with ((virt + (size - 1) - 18446744073709551616) + 1 * 18446744073709551616) by lia.
  rewrite Z.mod_add, Z.mod_small by lia. lia.
Qed.

Section user.
Context {P : Type} `{!FrameAllocator P}.
Abbreviation st := (vmm P).
Implicit Types s : st.

(** The byte at a user-accessible address of the space. *)
Definition user_byte s (va b : Z) : Prop := exists phys,
  vmm_translate (ram s) (space s) va true = Some phys /\ byte_at (ram s) phys = b.

Lemma user_byte_chunk s va phys n i : mem_ok (ram s) -> vmm_translate (ram s) (space s) va true = Some phys ->
  0 <= i < n -> va mod 4096 + n <= 4096 -> user_byte s (va + i) (byte_at (ram s) (phys + i)).
Proof.
  intros M Ht Hi Hp. exists (phys + i). split; [|done]. rewrite translate_offset by (done || lia). by rewrite Ht.
Qed.

Lemma read_user_loop_spec fuel virt size s : mem_ok (ram s) -> 0 <= virt -> virt + size <= 18446744073709551616 ->
  forall done dst, 0 <= done <= size -> Z.of_nat (length dst) = done ->
  (forall i b, dst !! i = Some b -> user_byte s (virt + Z.of_nat i) b) ->
  (done < size -> rounds_left virt size done <= Z.of_nat fuel) -> (0 < fuel)%nat ->
  wp (read_user_loop fuel virt size done dst) (fun '(ok, out) s' => s' = s /\
    if ok : bool then Z.of_nat (length out) = size /\ forall i b, out !! i = Some b -> user_byte s (virt + Z.of_nat i) b
    else exists i, 0 <= i < size /\ vmm_translate (ram s) (space s) (virt + i) true = None) (fun _ => False) s.
Proof.
  intros M Hv Hvs. induction fuel as [|fuel IH]; intros done dst Hd Hl Hb Hf H0; [lia|]. cbn [read_user_loop].
  destruct (Z.leb_spec size done) as [Hle|Hlt].
  { apply wp_ret. split; [reflexivity|]. split; [lia|exact Hb]. }
  pose proof (next_chunk_spec virt size done ltac:(lia) ltac:(lia)) as (Hc1 & Hc2 & _).
  pose proof (rounds_left_chunk virt size done ltac:(lia) ltac:(lia)) as [Hr Hr2]. cbv zeta in Hr.
  cbv zeta. revert Hc1 Hc2 Hr. generalize (next_chunk virt size done). intros c Hc1 Hc2 Hr.
  wp_step. wp_step. rewrite u64_small by lia.
  destruct (vmm_translate (ram s) (space s) (virt + done) true) as [phys|] eqn:Ht.
  2: { apply wp_ret. split; [reflexivity|]. exists done. split; [lia|done]. }
  specialize (Hf Hlt). apply IH; [lia|len| |intros Hlt'; specialize (Hr Hlt'); lia|lia].
  intros i b Hi. apply lookup_app_Some in Hi as [Hi|[Hge Hi]]; [by apply Hb|].
  pose proof (lookup_lt_Some _ _ _ Hi) as Hlt'. rewrite load_bytes_length in Hlt'.
  rewrite load_bytes_lookup in Hi by lia. injection Hi as <-.
  replace (virt + Z.of_nat i) with (virt + done + Z.of_nat (i - length dst)) by lia.
  eapply (user_byte_chunk s (virt + done) phys c); [done|done|lia|lia].
Qed.

(** [k64_vmm_read_user] changes nothing.  When it returns true, the destination
    holds the bytes at the addresses of the range, each of which is mapped for
    user access; it returns false only when the range wraps around or one of
    its addresses is not user-accessible. *)
Theorem k64_vmm_read_user_spec s virt size : mem_ok (ram s) -> 0 <= virt < 18446744073709551616 ->
  0 <= size < 18446744073709551616 ->
  wp (k64_vmm_read_user virt size) (fun '(ok, out) s' => s' = s /\
    if ok : bool then Z.of_nat (length out) = size /\ forall i b, out !! i = Some b -> user_byte s (virt + Z.of_nat i) b
    else 18446744073709551616 < virt + size \/
      exists i, 0 <= i < size /\ vmm_translate (ram s) (space s) (virt + i) true = None) (fun _ => False) s.
Proof.
  intros M Hv Hs. unfold k64_vmm_read_user. destruct (vmm_range_overflows virt size) eqn:Ho.
  - apply wp_ret. split; [done|]. left. unfold vmm_range_overflows in Ho.
    apply andb_true_iff in Ho as [Hz%negb_true_iff%Z.eqb_neq Ho%Z.ltb_lt]. destruct (decide (18446744073709551616 < virt + size)); [done|].
    rewrite u64_small in Ho by lia. lia.
  - destruct (no_overflow virt size Hv Hs Ho) as [->|Hle].
    { unfold copy_fuel. cbn. split; [done|]. split; [done|]. intros i b H. by rewrite lookup_nil in H. }
    eapply wp_mono; [eapply read_user_loop_spec; [done|lia|lia|lia|done|..]| |done].
    + intros i b H. by rewrite lookup_nil in H.
    + intros _. apply copy_fuel_enough. lia.
    + unfold copy_fuel. assert (0 <= size / K64_PAGE_SIZE) by (apply Z.div_pos; [lia|done]). lia.
    + intros [[] out] s' [-> H]; (split; [done|]); [done|]. by right.
Qed.

(** ** Writing

    The range does not reach the page tables, and no two of its addresses share
    a byte of memory. *)
Record writable_range s (virt size : Z) : Prop := {
  range_apart i phys : 0 <= i < size -> vmm_translate (ram s) (space s) (virt + i) true = Some phys ->
    ~ in_table (ram s) (cr3 (space s)) phys;
  range_distinct i j phys : 0 <= i < size -> 0 <= j < size ->
    vmm_translate (ram s) (space s) (virt + i) true = Some phys ->
    vmm_translate (ram s) (space s) (virt + j) true = Some phys -> i = j
}.

(** [m] is the memory after the first [done] bytes have been written. *)
Record partial s (virt size : Z) (src : list Z) (done : Z) (m : mem) : Prop := {
  part_mem : mem_ok m;
  part_bytes i b phys : 0 <= i < done -> src !! Z.to_nat i = Some b ->
    vmm_translate (ram s) (space s) (virt + i) true = Some phys -> byte_at m phys = b;
  part_mapped i : 0 <= i < done -> vmm_translate (ram s) (space s) (virt + i) true <> None;
  part_other a : (forall i, 0 <= i < done -> vmm_translate (ram s) (space s) (virt + i) true <> Some a) ->
    byte_at m a = byte_at (ram s) a
}.

(** A write inside the range leaves the translation as it is. *)
Lemma partial_translate s virt size src done m u va : writable_range s virt size -> done <= size ->
  partial s virt size src done m -> vmm_translate m (space s) va u = vmm_translate (ram s) (space s) va u.
Proof.
  intros [A _] Hd [_ _ _ Ho]. destruct (present (space s) && negb (cr3 (space s) =? 0)) eqn:H.
  - apply andb_true_iff in H as [H1 H2%negb_true_iff%Z.eqb_neq].
    rewrite !translate_walk by done. apply outside_same. intros a Ha. apply Ho. intros i Hi Ht.
    eapply A; [|exact Ht|done]. lia.
  - unfold vmm_translate. destruct (present (space s)); [|done]. by destruct (cr3 (space s) =? 0).
Qed.

Lemma partial_chunk s virt size src done m c phys : mem_ok (ram s) -> writable_range s virt size ->
  partial s virt size src done m -> bytes_ok src -> 0 <= done -> 0 < c -> done + c <= size ->
  Z.of_nat (length src) = size -> (virt + done) mod 4096 + c <= 4096 ->
  vmm_translate (ram s) (space s) (virt + done) true = Some phys ->
  partial s virt size src (done + c)
    (store_bytes m phys (slice src (Z.to_nat done) (Z.to_nat c))).
Proof.
  intros M [A I] [Pm Pb Pp Po] Hsrc Hd Hc Hle Hl Hpg Ht.
  assert (Hlen : length (slice src (Z.to_nat done) (Z.to_nat c)) = Z.to_nat c) by (apply slice_length; lia).
  assert (Htr : forall i, done <= i < done + c ->
    vmm_translate (ram s) (space s) (virt + i) true = Some (phys + (i - done))).
  { intros i Hi. replace (virt + i) with (virt + done + (i - done)) by lia.
    rewrite translate_offset by (done || lia). by rewrite Ht. }
  assert (Hin : forall i p, 0 <= i < done + c -> vmm_translate (ram s) (space s) (virt + i) true = Some p ->
    phys <= p < phys + c -> i = done + (p - phys)).
  { intros i p Hi Hip Hp. eapply I; [lia|lia|exact Hip|]. rewrite Htr by lia. f_equal. lia. }
  split.
  - apply store_bytes_ok; [done|by apply bytes_ok_slice].
  - intros i b p Hi Hb Hip. rewrite byte_at_store, Hlen. case_decide as Hd'.
    + rewrite (Hin i p Hi Hip) in Hb by lia. rewrite slice_lookup by lia.
      replace (Z.to_nat done + Z.to_nat (p - phys))%nat with (Z.to_nat (done + (p - phys))) by lia. by rewrite Hb.
    + apply (Pb i b p); [|done|done]. destruct (decide (i < done)); [lia|exfalso].
      rewrite Htr in Hip by lia. simplify_eq. lia.
  - intros i Hi. destruct (decide (i < done)); [apply Pp; lia|]. rewrite Htr by lia. done.
  - intros a Ha. rewrite byte_at_store_out.
    + apply Po. intros i Hi. apply Ha. lia.
    + rewrite Hlen. intros Hr. apply (Ha (done + (a - phys))); [lia|]. rewrite Htr by lia. f_equal. lia.
Qed.

Lemma write_user_loop_spec fuel virt size src s : mem_ok (ram s) -> writable_range s virt size -> bytes_ok src ->
  Z.of_nat (length src) = size -> 0 <= virt -> virt + size <= 18446744073709551616 ->
  forall done m, 0 <= done <= size -> partial s virt size src done m ->
  (done < size -> rounds_left virt size done <= Z.of_nat fuel) -> (0 < fuel)%nat ->
  wp (write_user_loop fuel virt src size done) (fun _ s' => exists m', s' = set_ram m' s /\ partial s virt size src size m')
    (fun s' => (exists m' n, s' = set_ram m' s /\ 0 <= n < size /\ partial s virt size src n m' /\
       vmm_translate (ram s) (space s) (virt + n) true = None)) (set_ram m s).
Proof.
  intros M W Hsrc Hl Hv Hvs. induction fuel as [|fuel IH]; intros done m Hd Hp Hf H0; [lia|]. cbn [write_user_loop].
  destruct (Z.leb_spec size done) as [Hle|Hlt].
  { apply wp_ret. exists m. split; [done|]. by replace size with done at 2 by lia. }
  pose proof (next_chunk_spec virt size done ltac:(lia) ltac:(lia)) as (Hc1 & Hc2 & _).
  pose proof (rounds_left_chunk virt size done ltac:(lia) ltac:(lia)) as [Hr Hr2]. cbv zeta in Hr |- *.
  revert Hc1 Hc2 Hr. generalize (next_chunk virt size done). intros c Hc1 Hc2 Hr.
  wp_step. wp_step. rewrite u64_small by lia. cbn [ram space set_ram].
  rewrite (partial_translate s virt size src done m true) by (done || lia).
  destruct (vmm_translate (ram s) (space s) (virt + done) true) as [phys|] eqn:Ht.
  2: { apply wp_fail. exists m, done. split_and!; [done|lia|lia|done|done]. }
  unfold bytes_of. rewrite (proj2 (Z.leb_le 0 done)), (proj2 (Z.leb_le _ _)) by lia. cbn [andb].
  wp_steps. specialize (Hf Hlt).
  change (set_ram ?x (set_ram m s)) with (set_ram x s).
  apply IH; [lia| |intros Hlt'; specialize (Hr Hlt'); lia|lia].
  by apply (partial_chunk s virt size src done m c phys); try (done || lia).
Qed.

Lemma partial_start s virt size src : mem_ok (ram s) -> partial s virt size src 0 (ram s).
Proof. intros M. split; [done|lia|lia|done]. Qed.

Lemma write_user_spec s virt src : let size := Z.of_nat (length src) in
  mem_ok (ram s) -> writable_range s virt size -> bytes_ok src -> 0 <= virt < 18446744073709551616 ->
  virt + size <= 18446744073709551616 ->
  wp (k64_vmm_write_user virt (Some src) size) (fun _ s' => exists m', s' = set_ram m' s /\ partial s virt size src size m')
    (fun s' => (exists m' n, s' = set_ram m' s /\ 0 <= n < size /\ partial s virt size src n m' /\
       vmm_translate (ram s) (space s) (virt + n) true = None)) s.
Proof.
  intros size M W Hsrc Hv Hvs. unfold k64_vmm_write_user. wp_step. apply wp_check.
  - intros _. assert (Es : set_ram (ram s) s = s) by (by destruct s). rewrite <- Es at 1.
    apply write_user_loop_spec; [done|done|done|done|lia|lia|lia|by apply partial_start| |].
    + intros _. apply copy_fuel_enough. lia.
    + unfold copy_fuel. assert (0 <= size / K64_PAGE_SIZE) by (apply Z.div_pos; [lia|done]). lia.
  - cbn [absent andb negb]. unfold vmm_range_overflows. destruct (Z.eqb_spec size 0); [done|]. cbn [negb andb].
    rewrite u64_small by lia. rewrite (proj2 (Z.ltb_ge _ _)) by lia. done.
Qed.

(** C22: What [k64_vmm_write_user] has written, [k64_vmm_read_user] reads: every
    other byte of memory and every translation is as before.  The copy fails
    only at an address that is not user-accessible, and then has written only
    inside the range. *)
Theorem write_then_read_user s virt src : let size := Z.of_nat (length src) in
  mem_ok (ram s) -> writable_range s virt size -> bytes_ok src -> 0 <= virt < 18446744073709551616 ->
  virt + size <= 18446744073709551616 ->
  let target a := exists i, 0 <= i < size /\ vmm_translate (ram s) (space s) (virt + i) true = Some a in
  wp (k64_vmm_write_user virt (Some src) size ;; k64_vmm_read_user virt size)
    (fun r s' => r = (true, src) /\ (forall a, ~ target a -> byte_at (ram s') a = byte_at (ram s) a) /\
       forall va u, vmm_translate (ram s') (space s') va u = vmm_translate (ram s) (space s) va u)
    (fun s' => (exists i, 0 <= i < size /\ vmm_translate (ram s) (space s) (virt + i) true = None) /\
       forall a, ~ target a -> byte_at (ram s') a = byte_at (ram s) a) s.
Proof.
  intros size M W Hsrc Hv Hvs target. wp_step.
  eapply wp_mono; [by apply write_user_spec| |].
  2: { intros s' (m' & n & -> & Hn & [_ _ _ Ho] & Ht). split; [by exists n|]. intros a Ha. apply Ho.
       intros i Hi Hia. apply Ha. exists i. split; [lia|done]. }
  intros [] s' (m' & -> & Hp). pose proof Hp as [Pm Pb Pp Po]. set (s' := set_ram m' s).
  assert (Htr : forall va u, vmm_translate (ram s') (space s') va u = vmm_translate (ram s) (space s) va u).
  { intros va u. by apply (partial_translate s virt size src size). }
  unfold k64_vmm_read_user. replace (vmm_range_overflows virt size) with false.
  2: { unfold vmm_range_overflows. destruct (Z.eqb_spec size 0); [done|]. cbn [negb andb].
       rewrite u64_small by lia. by rewrite (proj2 (Z.ltb_ge _ _)) by lia. }
  eapply wp_mono; [apply (read_user_loop_spec _ virt size s'); [done|lia|lia|lia|done|..]| |done].
  - intros i b H. by rewrite lookup_nil in H.
  - intros _. apply copy_fuel_enough. lia.
  - unfold copy_fuel. assert (0 <= size / K64_PAGE_SIZE) by (apply Z.div_pos; [lia|done]). lia.
  - intros [[] out] s2 [-> H].
    + split_and!; [|intros a Ha; apply Po; intros i Hi Hia; apply Ha; by exists i|done].
      f_equal. destruct H as [Hl Hb]. apply list_eq_same_length with (length src); [done|lia|].
      intros i x y Hi Hx Hy. destruct (Hb i x Hx) as (phys & Ht & <-).
      apply (Pb (Z.of_nat i) y phys); [lia|by rewrite Nat2Z.id|]. by rewrite <- Htr.
    + destruct H as (i & Hi & Hn). rewrite Htr in Hn. by apply Pp in Hn.
Qed.
End user.
