(* ===== verification/VmmLoad.v ===== *)
(** * Loading an image into a space

    [vmm_map_range_flags], with which program segments and anonymous memory are
    mapped: the pages of the range get fresh frames that hold the given bytes,
    followed by zeros. *)
From Stdlib Require Import ZArith Lia.
From stdpp Require Import base list gmap.
From S2P Require Import Prelude Exec Mem Pmm PmmSpec Frames Vmm VmmWalk VmmSpec VmmMap VmmUser.

(** The byte that a range at [virt] with contents [data] has at address [va]. *)
Definition image (virt : Z) (data : list Z) (file_size va : Z) : Z :=
  if decide (virt <= va < virt + file_size) then default 0 (data !! Z.to_nat (va - virt)) else 0.

Definition VA_LIMIT : Z := 281474976710656.

(** The window of a page that is copied is the part of it that lies in the
    file. *)
Lemma copy_window_spec page virt fs : 0 <= page -> page + 4096 <= VA_LIMIT -> 0 <= virt -> 0 <= fs ->
  virt + fs <= VA_LIMIT -> virt - page < 4096 ->
  let '(cs, ce) := copy_window page virt fs in
  0 <= cs /\ ce <= 4096 /\ (forall o, 0 <= o < 4096 -> (cs <= o < ce <-> virt <= page + o < virt + fs)) /\
  (cs < ce -> virt <= page + cs /\ page + ce <= virt + fs).
Proof.
  unfold VA_LIMIT. intros Hp Hpl Hv Hf Hvl Hd. unfold copy_window. change K64_PAGE_SIZE with 4096.
  rewrite (u64_small (virt + fs)), (u64_small (page + 4096)) by lia.
  destruct (Z.ltb_spec page virt); [rewrite (u64_small (virt - page)) by lia|];
  destruct (Z.ltb_spec (virt + fs) (page + 4096)); try destruct (Z.leb_spec (virt + fs) page);
  try (rewrite u64_small by lia); split_and!; intros; lia.
Qed.

Section load.
Context {P : Type} `{!FrameAllocator P}.
Abbreviation st := (vmm P).
Implicit Types s : st.

(** A fresh page, filled: the new memory [m2] differs from the old one in the
    frame only. *)
Lemma fresh_page_extended r s s1 f m2 : paged s r -> took [] [f] s s1 -> mem_ok m2 ->
  (forall a, ~ (4096 * f <= a < 4096 * f + 4096) -> byte_at m2 a = byte_at (ram s) a) ->
  extended r [] [f] s (set_ram m2 s1) /\ data_frame (set_ram m2 s1) r f.
Proof.
  intros PG T M2 Hout. destruct (took_fresh _ _ _ _ T f) as [Hf Hb]; [by apply list_elem_of_singleton|].
  assert (T2 : took [] [f] s (set_ram m2 s1)).
  { change (took ([] ++ []) ([f] ++ []) s (set_ram m2 s1)). eapply took_trans; [exact T|].
    apply took_refl; [apply (took_ok _ _ _ _ T)|done]. }
  assert (E : extended r [] [f] s (set_ram m2 s1)).
  { apply extended_outside; [done|done|..].
    - intros a Ha. apply Hout. eapply fresh_outside; [done|lia|done|done].
    - intros g (Hg0 & Hg & _) a Ha. apply Hout. intros H. assert (g = f) by lia. congruence. }
  split; [done|]. split_and!; [lia| |].
  - rewrite (took_busy _ _ _ _ T2) by lia. by rewrite bool_decide_eq_true_2 by (by apply list_elem_of_singleton).
  - intros va k t Hk Ht ->. destruct (outside_same (ram s) m2 r) as [Hs _].
    { intros a Ha. apply Hout. eapply fresh_outside; [done|lia|done|done]. }
    cbn [ram set_ram] in Ht. rewrite Hs in Ht by lia.
    destruct (tables_frame _ _ _ (pg_tables _ _ PG) va k _ Hk Ht) as (g & Hg & _ & Hbg).
    assert (g = f) by lia. congruence.
Qed.

(** The copy into a page that was taken and cleared. *)
Lemma copy_page_spec s s1 virt data fs page f cs ce : took [] [f] s s1 ->
  ram s1 = store_bytes (ram s) (4096 * f) (zeros 4096) -> bytes_ok data -> 0 <= page -> page + 4096 <= VA_LIMIT ->
  0 <= virt -> 0 <= fs <= Z.of_nat (length data) -> virt + fs <= VA_LIMIT -> 0 <= cs -> ce <= 4096 ->
  (forall o, 0 <= o < 4096 -> (cs <= o < ce <-> virt <= page + o < virt + fs)) ->
  (cs < ce -> virt <= page + cs /\ page + ce <= virt + fs) ->
  wp (if cs <? ce then
        src ← bytes_of data (u64 (page + cs - virt)) (ce - cs);
        modify (fun s => set_ram (store_bytes (ram s) (4096 * f + cs) src) s) else mret tt)
    (fun _ s2 => exists m2, s2 = set_ram m2 s1 /\ mem_ok m2 /\
       (forall a, ~ (4096 * f <= a < 4096 * f + 4096) -> byte_at m2 a = byte_at (ram s) a) /\
       (forall o, 0 <= o < 4096 -> byte_at m2 (4096 * f + o) = image virt data fs (page + o)))
    (fun _ => False) s1.
Proof.
  intros T Hm Hd Hpg Hpl Hv Hfs Hvl Hc0 Hce Hwin Hcpy. pose proof (vm_mem _ (took_ok _ _ _ _ T)) as M1.
  assert (Hz : forall o, 0 <= o < 4096 -> byte_at (ram s1) (4096 * f + o) = 0).
  { intros o Ho. rewrite Hm, byte_at_store, decide_True by len.
    destruct (zeros 4096 !! _) as [y|] eqn:Hy; [|reflexivity]. by apply zeros_lookup in Hy as ->. }
  assert (Hout : forall a, ~ (4096 * f <= a < 4096 * f + 4096) -> byte_at (ram s1) a = byte_at (ram s) a).
  { intros a Ha. rewrite Hm. apply byte_at_store_out. by rewrite zeros_length. }
  clear Hm. destruct (Z.ltb_spec cs ce) as [Hlt|Hge].
  - destruct (Hcpy Hlt) as [Hlo Hhi]. unfold VA_LIMIT in *. rewrite u64_small by lia. unfold bytes_of.
    rewrite (proj2 (Z.leb_le 0 _)), (proj2 (Z.leb_le _ _)) by lia. cbn [andb]. wp_steps.
    set (src := slice data _ _). assert (Hls : length src = Z.to_nat (ce - cs)) by (apply slice_length; lia).
    eexists. split_and!; [reflexivity|apply store_bytes_ok; [done|by apply bytes_ok_slice]| |].
    + intros a Ha. rewrite byte_at_store_out by lia. by apply Hout.
    + intros o Ho. rewrite byte_at_store, Hls. unfold image. specialize (Hwin o Ho).
      destruct (decide (virt <= page + o < virt + fs)) as [Hi|Hi].
      * rewrite decide_True by lia. unfold src. rewrite slice_lookup by lia. f_equal. f_equal. lia.
      * rewrite decide_False by lia. by apply Hz.
  - wp_steps. exists (ram s1). split_and!; [by destruct s1|done|done|].
    intros o Ho. rewrite Hz by done. unfold image. specialize (Hwin o Ho). rewrite decide_False by lia. reflexivity.
Qed.

(** What a load keeps of the space: the translations outside its pages and the
    data frames it did not take. *)
Record kept (r : Z) (inside : Z -> Prop) s s' : Prop := {
  kept_took : exists nt np, took nt np s s';
  kept_paged : paged s' r;
  kept_trans u va : ~ inside va -> trans (ram s') u r va = trans (ram s) u r va;
  kept_data f : data_frame s r f -> data_frame s' r f /\ same_frame (ram s) (ram s') f
}.

Lemma kept_extended r inside s s' nt np : extended r nt np s s' -> kept r inside s s'.
Proof. intros [T PG W D]. split; [by exists nt, np|done|by intros u va _|done]. Qed.

Lemma kept_mapped r inside virt n flags s s' : mapped r virt n flags s s' ->
  (forall va, same_page va virt -> inside va) -> kept r inside s s'.
Proof.
  intros H Hi. split; [destruct (map_took _ _ _ _ _ _ H) as [nt T]; by exists nt, []|apply H| |apply H].
  intros u va Hn. apply H. intros Hp. by apply Hn, Hi.
Qed.

Lemma kept_trans_rel r inside s1 s2 s3 : kept r inside s1 s2 -> kept r inside s2 s3 -> kept r inside s1 s3.
Proof.
  intros [(nt1 & np1 & T1) P1 W1 D1] [(nt2 & np2 & T2) P2 W2 D2]. split.
  - exists (nt1 ++ nt2), (np1 ++ np2). by eapply took_trans.
  - done.
  - intros u va H. by rewrite W2, W1.
  - intros f Hf. destruct (D1 f Hf) as [Hf2 S1]. destruct (D2 f Hf2) as [Hf3 S2]. split; [done|].
    intros a Ha. by rewrite S2, S1 by done.
Qed.

Lemma kept_mono r (I J : Z -> Prop) s s' : kept r I s s' -> (forall va, I va -> J va) -> kept r J s s'.
Proof. intros [T PG W D] H. split; [done|done| |done]. intros u va Hn. apply W. intros Hi. by apply Hn, H. Qed.

(** Page [page] is loaded in frame [f] of [s], for kernel or user access. *)
Definition loaded r (acc : bool) (virt : Z) data file_size s (page f : Z) : Prop := data_frame s r f /\
  (forall va, same_page va page -> trans (ram s) acc r va = Some (4096 * f + va mod 4096)) /\
  (forall o, 0 <= o < 4096 -> byte_at (ram s) (4096 * f + o) = image virt data file_size (page + o)).

Lemma took_space nt np s s' : took nt np s s' -> present (space s') = present (space s) /\
  cr3 (space s') = cr3 (space s) /\ user_mode (space s') = user_mode (space s).
Proof. intros T. pose proof (took_bare _ _ _ _ T) as H. unfold bare in H. injection H. intros. by split_and!. Qed.

(** One page. *)
Lemma map_range_page_spec r acc s virt data fs flags page : vm_ok s -> present (space s) = true ->
  cr3 (space s) = r -> r <> 0 -> paged s r -> bytes_ok data ->
  0 <= page -> page + 4096 <= VA_LIMIT -> 0 <= virt -> 0 <= fs <= Z.of_nat (length data) ->
  virt + fs <= VA_LIMIT -> virt - page < 4096 ->
  (acc = true -> Z.testbit flags 2 = true /\ user_path (ram s) r page) ->
  wp (map_range_page virt (Some data) fs flags page)
    (fun _ s' => kept r (fun va => same_page va page) s s' /\
       (exists f, loaded r acc virt data fs s' page f /\ busy (frames s) f = false) /\
       forall va, acc = true -> user_path (ram s) r va -> user_path (ram s') r va)
    (fun s' => kept r (fun va => same_page va page) s s') s.
Proof.
  intros O Hp Hr Hr0 PG Hd Hpg Hpl Hv Hfs Hvl Hvp Hacc. unfold map_range_page. wp_step.
  eapply wp_mono; [by apply take_page_spec| |].
  2: { intros s' [T Hm]. eapply kept_extended. by apply extended_refl. }
  intros a s1 (f & -> & T & Hm). pose proof (copy_window_spec page virt fs Hpg Hpl Hv ltac:(lia) Hvl Hvp) as HW.
  destruct (copy_window page virt fs) as [cs ce]. destruct HW as (Hc0 & Hce & Hwin & Hcpy).
  destruct (took_fresh _ _ _ _ T f) as [Hf Hbf]; [by apply list_elem_of_singleton|].
  wp_step. eapply wp_mono; [apply (copy_page_spec s s1 virt data fs page f cs ce); assumption| |intros ? []]. clear Hm. intros [] s2 (m2 & -> & M2 & Hout & Hcont).
  destruct (fresh_page_extended r s s1 f m2 PG T M2 Hout) as [E Df].
  destruct (took_space _ _ _ _ (ext_took _ _ _ _ _ E)) as (Hp2 & Hc2 & _).
  eapply wp_mono; [apply (map_page_spec r (set_ram m2 s1) page f flags)| |]; try congruence.
  - apply (took_ok _ _ _ _ (ext_took _ _ _ _ _ E)).
  - apply (ext_paged _ _ _ _ _ E).
  - lia.
  - intros [] s3 Hmap. destruct (map_data _ _ _ _ _ _ Hmap f Df) as [Df3 Sf3].
    assert (Hup : forall va, user_path (ram s) r va -> user_path m2 r va).
    { intros va H. apply (user_path_outside (ram s)); [|done].
      intros a Ha. apply Hout. eapply fresh_outside; [done|lia|done|done]. }
    split_and!.
    + eapply kept_trans_rel; [by eapply kept_extended|by eapply kept_mapped].
    + exists f. split; [|done]. split_and!; [done| |].
      * intros va Hva. destruct acc; [|by apply (map_page _ _ _ _ _ _ Hmap)].
        destruct (Hacc eq_refl) as [Hfl Hu]. apply (map_user _ _ _ _ _ _ Hmap); [done|done|by apply Hup].
      * intros o Ho. rewrite Sf3 by lia. by apply Hcont.
    + intros va Ha H. destruct (Hacc Ha) as [Hfl Hu]. apply (map_path _ _ _ _ _ _ Hmap); [done|]. by apply Hup.
  - intros s3 (nt & E3). eapply kept_trans_rel; [by eapply kept_extended|by eapply kept_extended].
Qed.

(** ** The whole range *)
Record space_ok s : Prop := {
  space_vm : vm_ok s;
  space_present : present (space s) = true;
  space_root : cr3 (space s) <> 0;
  space_paged : paged s (cr3 (space s))
}.

Lemma same_page_div va va' : 0 <= va < VA_LIMIT -> 0 <= va' < VA_LIMIT ->
  same_page va va' <-> va / 4096 = va' / 4096.
Proof. unfold same_page, VA_LIMIT. intros H H'. rewrite !Z.mod_small by dmlia. done. Qed.

(** Address [va] lies in one of the pages of the range. *)
Definition in_pages (virt mem_size va : Z) : Prop := exists va', virt <= va' < virt + mem_size /\ same_page va va'.

(** The first [i] pages have been loaded. *)
Record loading (acc : bool) (virt : Z) data (fs first i n : Z) s s' : Prop := {
  ld_kept : kept (cr3 (space s)) (fun va => exists j, 0 <= j < i /\ same_page va (first + j * 4096)) s s';
  ld_pages j : 0 <= j < i -> exists f, loaded (cr3 (space s)) acc virt data fs s' (first + j * 4096) f;
  ld_path j : 0 <= j < n -> acc = true -> user_path (ram s') (cr3 (space s)) (first + j * 4096)
}.

Lemma loaded_kept r acc virt data fs page f I s s' : kept r I s s' -> loaded r acc virt data fs s page f ->
  (forall va, same_page va page -> ~ I va) -> loaded r acc virt data fs s' page f.
Proof.
  intros K (Df & Ht & Hb) Hn. destruct (kept_data _ _ _ _ K f Df) as [Df' Sf]. split_and!; [done| |].
  - intros va Hva. rewrite (kept_trans _ _ _ _ K) by (by apply Hn). by apply Ht.
  - intros o Ho. rewrite Sf by lia. by apply Hb.
Qed.

Lemma kept_space r I s s' : kept r I s s' -> vm_ok s' /\ present (space s') = present (space s) /\
  cr3 (space s') = cr3 (space s).
Proof.
  intros K. destruct (kept_took _ _ _ _ K) as (nt & np & T). destruct (took_space _ _ _ _ T) as (H1 & H2 & _).
  split_and!; [apply (took_ok _ _ _ _ T)|done|done].
Qed.

Lemma loading_step acc virt data fs flags first i n s s' : space_ok s -> bytes_ok data ->
  0 <= first -> first mod 4096 = 0 -> first + n * 4096 <= VA_LIMIT -> 0 <= virt -> 0 <= fs <= Z.of_nat (length data) ->
  virt + fs <= VA_LIMIT -> virt - first < 4096 -> (acc = true -> Z.testbit flags 2 = true) -> 0 <= i < n ->
  loading acc virt data fs first i n s s' ->
  wp (map_range_page virt (Some data) fs flags (first + i * 4096))
    (fun _ s'' => loading acc virt data fs first (i + 1) n s s'')
    (fun s'' => kept (cr3 (space s)) (fun va => exists j, 0 <= j < n /\ same_page va (first + j * 4096)) s s'') s'.
Proof.
  intros [O Hp Hr PG] Hd Hf0 Hfm Hfl Hv Hfs Hvl Hvf Hflag Hi [K L U].
  destruct (kept_space _ _ _ _ K) as (O' & Hp' & Hc').
  eapply wp_mono; [apply (map_range_page_spec (cr3 (space s)) acc s' virt data fs flags (first + i * 4096))| |];
    try (done || lia || congruence).
  - apply K.
  - intros Ha. split; [by apply Hflag|by apply U].
  - intros [] s'' (K2 & (f & Lf & _) & U2). split.
    + eapply kept_trans_rel; [eapply kept_mono; [exact K|]|eapply kept_mono; [exact K2|]]; cbv beta.
      * intros va (j & Hj & Hs). exists j. split; [lia|done].
      * intros va Hs. exists i. split; [lia|done].
    + intros j Hj. destruct (decide (j = i)) as [->|]; [by exists f|]. destruct (L j ltac:(lia)) as (g & Lg).
      exists g. eapply loaded_kept; [exact K2|exact Lg|]. intros va H1 H2.
      assert (H : same_page (first + j * 4096) (first + i * 4096)) by (unfold same_page in *; congruence).
      apply same_page_div in H; [|lia..]. dmlia.
    + intros j Hj Ha. by apply U2, U.
  - intros s'' K2. eapply kept_trans_rel; [eapply kept_mono; [exact K|]|eapply kept_mono; [exact K2|]]; cbv beta.
    + intros va (j & Hj & Hs). exists j. split; [lia|done].
    + intros va Hs. exists i. split; [lia|done].
Qed.

(** The bytes of the range, once all its pages have been loaded. *)
Lemma loading_bytes virt data fs n s s' i : space_ok s -> loading true virt data fs (4096 * (virt / 4096)) n n s s' ->
  0 <= i -> (virt + i) / 4096 - virt / 4096 < n ->
  user_byte s' (virt + i) (if i <? fs then default 0 (data !! Z.to_nat i) else 0).
Proof.
  intros [_ Hp Hr _] [K L _] Hi Hn. destruct (kept_space _ _ _ _ K) as (_ & Hp' & Hc').
  set (j := (virt + i) / 4096 - virt / 4096) in *. assert (Hj : 0 <= j) by (unfold j; dmlia).
  destruct (L j (conj Hj Hn)) as (f & Df & Ht & Hb). exists (4096 * f + (virt + i) mod 4096).
  assert (Hs : 4096 * (virt / 4096) + j * 4096 + (virt + i) mod 4096 = virt + i) by (unfold j; dmlia). split.
  - rewrite translate_walk by congruence. rewrite Hc'. apply Ht. unfold same_page. f_equal. dmlia.
  - rewrite Hb by (apply Z.mod_pos_bound; lia). rewrite Hs. unfold image.
    destruct (Z.ltb_spec i fs); [rewrite decide_True by lia|by rewrite decide_False by lia].
    f_equal. f_equal. lia.
Qed.

(** C18: [k64_vmm_map_user_range]: when it returns true, every byte of the range can
    be read by the user program and is the byte of the file, or zero behind its
    end.  Whatever it returns, no translation of an address outside of the pages
    of the range has changed, nor a byte of a frame that held data. *)
Theorem map_user_range_loads s virt data fs ms : space_ok s -> bytes_ok data -> 0 <= virt ->
  0 <= fs <= Z.of_nat (length data) -> fs <= ms -> 0 < ms -> virt + ms + 4095 < VA_LIMIT ->
  (forall va, virt <= va < virt + ms -> user_path (ram s) (cr3 (space s)) va) ->
  let untouched s' := (forall va u, ~ in_pages virt ms va ->
       vmm_translate (ram s') (space s') va u = vmm_translate (ram s) (space s) va u) /\
     (forall f, data_frame s (cr3 (space s)) f -> same_frame (ram s) (ram s') f) in
  wp (k64_vmm_map_user_range virt (Some data) fs ms)
    (fun _ s' => space_ok s' /\ untouched s' /\
       forall i, 0 <= i < ms -> user_byte s' (virt + i) (if i <? fs then default 0 (data !! Z.to_nat i) else 0))
    (fun s' => untouched s') s.
Proof.
  intros S Hd Hv Hfs Hfm Hms Hlim HU untouched. pose proof S as [O Hp Hr PG].
  unfold k64_vmm_map_user_range, vmm_map_range_flags. wp_step. wp_step. wp_step.
  apply wp_check; [intros _|rewrite Hp; cbn; rewrite (proj2 (Z.eqb_neq _ _)) by lia; done].
  unfold VA_LIMIT in Hlim. change K64_PAGE_SIZE with 4096.
  rewrite (u64_small (virt + ms + 4096 - 1)), !page_mask by (unfold word; lia).
  set (first := 4096 * (virt / 4096)). set (n := (virt + ms + 4096 - 1) / 4096 - virt / 4096).
  replace ((4096 * ((virt + ms + 4096 - 1) / 4096) - first) / 4096) with n by (unfold n, first; dmlia).
  assert (Hn : 0 <= n) by (unfold n; dmlia).
  assert (Hfn : virt < first + 4096 /\ first <= virt /\ virt + ms <= first + n * 4096 /\
    first + n * 4096 < virt + ms + 4096) by (unfold first, n; dmlia).
  assert (Hin : forall va j, 0 <= j < n -> same_page va (first + j * 4096) -> in_pages virt ms va).
  { intros va j Hj Hs. exists (Z.max virt (first + j * 4096)). split; [lia|].
    unfold same_page in *. rewrite Hs. f_equal. unfold first in *. dmlia. }
  assert (Hun : forall s' I, kept (cr3 (space s)) I s s' -> (forall va, I va -> in_pages virt ms va) -> untouched s').
  { intros s' I K HI. destruct (kept_space _ _ _ _ K) as (O' & Hp' & Hc'). split.
    - intros va u Hva. rewrite !translate_walk by congruence. rewrite Hc'. apply K. intros H. by apply Hva, HI.
    - intros f Hf. by apply K. }
  apply (wp_for_loop (fun i s' => loading true virt data fs first i n s s')).
  - split; [|lia|].
    + eapply kept_extended, (extended_refl _ s s); [|done|done].
      replace s with (set_ram (ram s) s) at 2 by (by destruct s). apply took_refl; apply O.
    + intros j Hj _. eapply user_path_agree; [|apply (HU (Z.max virt (first + j * 4096))); lia].
      apply (agree_le 3 4); [lia|]. apply same_page_agree. unfold same_page. f_equal. unfold first in *. dmlia.
  - intros i s' Hi H. eapply wp_mono; [apply (loading_step true virt data fs _ first i n s s')| |]; try (done || lia).
    + unfold first. rewrite Z.mul_comm. apply Z.mod_mul. lia.
    + unfold VA_LIMIT. lia.
    + unfold VA_LIMIT. lia.
    + intros s'' K. eapply Hun; [exact K|]. intros va (j & Hj & Hs). by eapply Hin.
  - intros s' HL. replace (0 + Z.of_nat (Z.to_nat n)) with n in * by lia. pose proof (ld_kept _ _ _ _ _ _ _ _ _ HL) as K.
   
    destruct (kept_space _ _ _ _ K) as (O' & Hp' & Hc'). split_and!.
    + split; [done|congruence|congruence|]. rewrite Hc'. apply K.
    + eapply Hun; [exact K|]. intros va (j & Hj & Hs). by eapply Hin.
    + intros i Hi. apply (loading_bytes virt data fs n s s'); [done|done|lia|unfold n; dmlia].
Qed.

(** C19: [vmm_map_page] on both branches: the page of [virt] is translated to the
    given frame for the kernel; for the user program it is when the flags say so
    and every page table that was already on the path allows user access, and
    not translated at all otherwise (the tables above are not opened, although
    the page is asked for with user access); no other address is translated
    differently, and on failure none is. *)
Theorem vmm_map_page_translation s virt n flags : space_ok s -> 0 <= n < 4503599627370496 ->
  wp (vmm_map_page virt (4096 * n) flags)
    (fun _ s' => space_ok s' /\ forall va,
       if decide ((va / 4096) mod 68719476736 = (virt / 4096) mod 68719476736) then
         vmm_translate (ram s') (space s') va false = Some (4096 * n + va mod 4096) /\
         (Z.testbit flags 2 = true /\ user_path (ram s) (cr3 (space s)) virt ->
            vmm_translate (ram s') (space s') va true = Some (4096 * n + va mod 4096)) /\
         (~ (Z.testbit flags 2 = true /\ user_path (ram s) (cr3 (space s)) virt) ->
            vmm_translate (ram s') (space s') va true = None)
       else forall u, vmm_translate (ram s') (space s') va u = vmm_translate (ram s) (space s) va u)
    (fun s' => space_ok s' /\
       forall va u, vmm_translate (ram s') (space s') va u = vmm_translate (ram s) (space s) va u) s.
Proof.
  intros S Hn. pose proof S as [O Hp Hr PG].
  eapply wp_mono; [by apply (map_page_spec (cr3 (space s)) s virt n flags)| |].
  - intros [] s' MP. destruct (map_took _ _ _ _ _ _ MP) as [nt T]. destruct (took_space _ _ _ _ T) as (Hp' & Hc' & _).
    assert (S' : space_ok s'). { split; [apply T|congruence|congruence|]. rewrite Hc'. apply MP. }
    split; [done|]. intros va. case_decide as Hs.
    + rewrite !translate_walk, Hc' by apply S'. split_and!; [by apply MP|intros [Hf Hu]; by apply (map_user _ _ _ _ _ _ MP)|].
      intros Hno. destruct (Z.testbit flags 2) eqn:Hf; [|by apply (map_private _ _ _ _ _ _ MP)].
      destruct (user_or_denied (ram s) (cr3 (space s)) virt) as [Hu|Hd]; [by destruct Hno|].
      by apply (map_denied _ _ _ _ _ _ MP).
    + intros u. rewrite !translate_walk, Hc' by (apply S' || apply S). by apply MP.
  - intros s' (nt & E). destruct (took_space _ _ _ _ (ext_took _ _ _ _ _ E)) as (Hp' & Hc' & _).
    assert (S' : space_ok s'). { split; [apply E|congruence|congruence|]. rewrite Hc'. apply E. }
    split; [done|]. intros va u. rewrite !translate_walk, Hc' by (apply S' || apply S). apply E.
Qed.
End load.
