(* ===== verification/VmmView.v ===== *)
(** * What a space holds

    [view acc s u]: the address space of [s] has private pages of its own that
    hold the bytes of the partial map [u], readable with access [acc].  Mapping a
    range and writing to user memory change the map the way the code means to:
    clients of the memory manager reason about [u] only. *)
From Stdlib Require Import ZArith Lia.
From stdpp Require Import base list gmap.
From S2P Require Import Prelude Exec Mem Pmm PmmSpec Frames Vmm VmmWalk VmmSpec VmmMap VmmUser VmmLoad.

(** ** Partial maps of bytes *)

(** [u] with the bytes [bs] from [a] on. *)
Definition overlay (u : Z -> option Z) (a : Z) (bs : list Z) (va : Z) : option Z :=
  if decide (a <= va < a + Z.of_nat (length bs)) then bs !! Z.to_nat (va - a) else u va.

(** [u] with the pages of the range at [virt] loaded from a file. *)
Definition page_range (virt ms va : Z) : Prop := 4096 * (virt / 4096) <= va < 4096 * ((virt + ms + 4095) / 4096).
#[export] Instance page_range_dec virt ms va : Decision (page_range virt ms va).
Proof. unfold page_range. apply _. Defined.

Definition loaded_range (u : Z -> option Z) (virt : Z) (data : list Z) (fs ms va : Z) : option Z :=
  if decide (page_range virt ms va) then Some (image virt data fs va) else u va.

Section view.
Context {P : Type} `{!FrameAllocator P}.
Abbreviation st := (vmm P).
Implicit Types s : st.

(** The private pages of a space: page number to frame. *)
Record owns (acc : bool) s (pg : gmap Z Z) : Prop := {
  own_data p f : pg !! p = Some f -> data_frame s (cr3 (space s)) f;
  own_trans p f va : pg !! p = Some f -> 0 <= va < VA_LIMIT -> va / 4096 = p ->
    trans (ram s) acc (cr3 (space s)) va = Some (4096 * f + va mod 4096);
  own_inj p q f : pg !! p = Some f -> pg !! q = Some f -> p = q
}.

Definition cell s (pg : gmap Z Z) (va b : Z) : Prop := 0 <= va < VA_LIMIT /\
  exists f, pg !! (va / 4096) = Some f /\ byte_at (ram s) (4096 * f + va mod 4096) = b.

Definition view (acc : bool) s (u : Z -> option Z) : Prop :=
  exists pg, owns acc s pg /\ forall va b, u va = Some b -> cell s pg va b.

Lemma view_mono acc s u u' : view acc s u -> (forall va b, u' va = Some b -> u va = Some b) -> view acc s u'.
Proof. intros (pg & O & C) H. exists pg. split; [done|]. intros va b Hv. by apply C, H. Qed.

Lemma view_empty acc s : view acc s (fun _ => None).
Proof. exists ∅. split; [split|]; intros *; by rewrite ?lookup_empty. Qed.

(** What the map says is what the program reads. *)
Lemma view_byte s u va b : space_ok s -> view true s u -> u va = Some b -> user_byte s va b.
Proof.
  intros [O Hp Hr PG] (pg & W & C) H. destruct (C va b H) as (Hv & f & Hf & Hb).
  exists (4096 * f + va mod 4096). split; [|done]. rewrite translate_walk by done. by eapply own_trans.
Qed.

(** ** Mapping a page *)

(** What a client knows after a step: the frames taken, and which paths are open
    to the user. *)
Record advanced (acc : bool) s s' : Prop := {
  adv_took : exists nt np, took nt np s s';
  adv_ok : space_ok s';
  adv_path va : acc = true -> user_path (ram s) (cr3 (space s)) va -> user_path (ram s') (cr3 (space s')) va
}.

Lemma advanced_trans acc s1 s2 s3 : advanced acc s1 s2 -> advanced acc s2 s3 -> advanced acc s1 s3.
Proof.
  intros [(nt1 & np1 & T1) O1 U1] [(nt2 & np2 & T2) O2 U2]. split; [|done|].
  - exists (nt1 ++ nt2), (np1 ++ np2). by eapply took_trans.
  - intros va Ha H. by apply U2, U1.
Qed.

Lemma advanced_refl acc s : space_ok s -> advanced acc s s.
Proof.
  intros S. split; [|done|done]. exists [], []. replace s with (set_ram (ram s) s) at 2 by (by destruct s). apply took_refl; apply S.
Qed.

Lemma view_kept acc s s' pg p f virt data fs : space_ok s -> owns acc s pg -> 
  kept (cr3 (space s)) (fun va => same_page va (4096 * p)) s s' -> 0 <= p < 68719476736 ->
  loaded (cr3 (space s)) acc virt data fs s' (4096 * p) f -> busy (frames s) f = false ->
  owns acc s' (<[p := f]> pg) /\
  forall va b, va / 4096 <> p -> cell s pg va b -> cell s' (<[p := f]> pg) va b.
Proof.
  intros [O Hp Hr PG] [W1 W2 W3] K Hpr (Df & Ht & Hb) Hfree. destruct (kept_space _ _ _ _ K) as (O' & Hp' & Hc').
  assert (Hapart : forall va, 0 <= va < VA_LIMIT -> va / 4096 <> p -> ~ same_page va (4096 * p)).
  { intros va Hva Hne H. apply same_page_div in H; [|done|unfold VA_LIMIT; lia]. apply Hne. rewrite H. rewrite Z.mul_comm. by apply Z.div_mul. }
  split; [split|]; rewrite ?Hc'.
  - intros q g [[<- <-]|[Hne Hg]]%lookup_insert_Some; [done|]. by apply (kept_data _ _ _ _ K), (W1 q).
  - intros q g va [[<- <-]|[Hne Hg]]%lookup_insert_Some Hva Hq.
    + apply Ht. apply same_page_div; [done|unfold VA_LIMIT; lia|]. rewrite Hq, Z.mul_comm. symmetry. by apply Z.div_mul.
    + rewrite (kept_trans _ _ _ _ K); [by eapply W2|]. apply Hapart; [done|congruence].
  - assert (Hold : forall q g, pg !! q = Some g -> g <> f).
    { intros q g Hg ->. destruct (W1 q f Hg) as (_ & Hbusy & _). congruence. }
    intros q1 q2 g [[E1 F1]|[Hn1 H1]]%lookup_insert_Some [[E2 F2]|[Hn2 H2]]%lookup_insert_Some; subst; try done.
    + by apply Hold in H2.
    + by apply Hold in H1.
    + by apply (W3 q1 q2 g).
  - intros va b Hne (Hva & g & Hg & Hby). split; [done|]. exists g. rewrite lookup_insert_ne by done. split; [done|].
    destruct (kept_data _ _ _ _ K g (W1 _ _ Hg)) as [_ Sf]. rewrite Sf; [done|]. pose proof (Z.mod_pos_bound va 4096). lia.
Qed.

(** [data == NULL] with nothing to copy. *)
Lemma map_range_page_none virt flags page s : 0 <= page -> page + 4096 <= VA_LIMIT -> 0 <= virt <= VA_LIMIT -> virt - page < 4096 ->
  map_range_page virt None 0 flags page s = map_range_page virt (Some []) 0 flags page s.
Proof.
  intros Hp Hpl Hv Hd. unfold map_range_page. pose proof (copy_window_spec page virt 0 Hp Hpl ltac:(lia) ltac:(lia) ltac:(lia) Hd) as H.
  destruct (copy_window page virt 0) as [cs ce]. destruct H as (H0 & H1 & H2 & H3). destruct (Z.ltb_spec cs ce) as [Hlt|]; [|done].
  specialize (H2 cs). lia.
Qed.

Definition page_loaded (u : Z -> option Z) (p virt : Z) (data : list Z) (fs va : Z) : option Z :=
  if decide (va / 4096 = p) then Some (image virt data fs va) else u va.

Lemma map_range_page_view acc s u virt (data : option (list Z)) fs flags p : let d := default [] data in
  space_ok s -> view acc s u -> bytes_ok d -> 0 <= p -> 4096 * p + 4096 <= VA_LIMIT -> 0 <= virt -> 0 <= fs <= Z.of_nat (length d) ->
  virt + fs <= VA_LIMIT -> virt - 4096 * p < 4096 ->
  (acc = true -> Z.testbit flags 2 = true /\ user_path (ram s) (cr3 (space s)) (4096 * p)) ->
  wp (map_range_page virt data fs flags (4096 * p))
    (fun _ s' => advanced acc s s' /\ view acc s' (page_loaded u p virt d fs))
    (fun s' => exists nt np, took nt np s s') s.
Proof.
  intros d S (pg & W & C) Hd Hp Hpl Hv Hfs Hvl Hvp Hacc.
  assert (E : map_range_page virt data fs flags (4096 * p) s = map_range_page virt (Some d) fs flags (4096 * p) s).
  { destruct data; [done|]. cbn in Hfs. replace fs with 0 by lia. apply map_range_page_none; lia. }
  unfold wp. rewrite E. pose proof S as [O Hpr Hr PG]. change (wp (map_range_page virt (Some d) fs flags (4096 * p))
    (fun _ s' => advanced acc s s' /\ view acc s' (page_loaded u p virt d fs)) (fun s' => exists nt np, took nt np s s') s).
  eapply wp_mono; [apply (map_range_page_spec (cr3 (space s)) acc s virt d fs flags (4096 * p)); (done || lia)| |intros s' K; apply K].
  intros [] s' (K & (f & Lf & Hfree) & Hup). destruct (kept_space _ _ _ _ K) as (O' & Hp' & Hc').
  assert (Hpr2 : 0 <= p < 68719476736) by (unfold VA_LIMIT in Hpl; lia).
  destruct (view_kept acc s s' pg p f virt d fs S W K Hpr2 Lf Hfree) as [W' C']. split.
  - split; [apply K| |intros va Ha H; rewrite Hc'; by apply Hup]. split; [done|congruence|congruence|]. rewrite Hc'. apply K.
  - exists (<[p := f]> pg). split; [done|]. intros va b. unfold page_loaded. destruct (decide (va / 4096 = p)) as [Hva|Hva].
    + intros [= <-]. split; [unfold VA_LIMIT in *; dmlia|]. exists f. rewrite Hva, lookup_insert_eq. split; [done|].
      destruct Lf as (_ & _ & Hb). rewrite Hb by (apply Z.mod_pos_bound; lia). f_equal. dmlia.
    + intros H. apply C'; [done|]. by apply C.
Qed.

(** ** Mapping a range *)
Lemma map_range_view acc s u virt (data : option (list Z)) fs ms flags : let d := default [] data in
  space_ok s -> view acc s u -> bytes_ok d -> 0 <= virt -> 0 <= fs <= Z.of_nat (length d) -> fs <= ms -> 0 < ms ->
  virt + ms + 4095 < VA_LIMIT ->
  (acc = true -> Z.testbit flags 2 = true /\ forall va, page_range virt ms va -> user_path (ram s) (cr3 (space s)) va) ->
  wp (vmm_map_range_flags virt data fs ms flags)
    (fun _ s' => advanced acc s s' /\ view acc s' (loaded_range u virt d fs ms))
    (fun s' => exists nt np, took nt np s s') s.
Proof.
  intros d S V Hd Hv Hfs Hfm Hms Hlim Hacc. pose proof S as [O Hp Hr PG]. unfold VA_LIMIT in Hlim.
  unfold vmm_map_range_flags. wp_step. wp_step. wp_step.
  apply wp_check; [intros _|rewrite Hp; cbn; rewrite (proj2 (Z.eqb_neq _ _)) by lia; done].
  change K64_PAGE_SIZE with 4096. rewrite (u64_small (virt + ms + 4096 - 1)), !page_mask by (unfold word; lia).
  replace (virt + ms + 4096 - 1) with (virt + ms + 4095) by lia. set (q := virt / 4096). set (e := (virt + ms + 4095) / 4096).
  assert (Hq : 0 <= q /\ 4096 * q <= virt < 4096 * q + 4096 /\ q < e /\ 4096 * e <= VA_LIMIT) by (unfold q, e, VA_LIMIT; dmlia).
  replace ((4096 * e - 4096 * q) / 4096) with (e - q) by dmlia.
  set (V' i := fun va => if decide (4096 * q <= va < 4096 * (q + i)) then Some (image virt d fs va) else u va).
  apply (wp_for_loop (fun i s' => advanced acc s s' /\ view acc s' (V' i))).
  - split; [by apply advanced_refl|]. apply (view_mono _ _ u); [done|]. intros va b. unfold V'. rewrite decide_False by lia. done.
  - intros i s' Hi [A V0]. change (4096 * q + i * 4096) with (4096 * q + i * 4096). replace (4096 * q + i * 4096) with (4096 * (q + i)) by lia.
    eapply wp_mono; [apply (map_range_page_view acc s' (V' i) virt data fs flags (q + i)); fold d; try (done || apply A || (unfold VA_LIMIT in *; lia))| |].
    + intros Ha. split; [by apply Hacc|]. apply (adv_path _ _ _ A _ Ha). apply Hacc; [done|]. unfold page_range. fold q e. lia.
    + intros [] s'' [A2 V2]. split; [by eapply advanced_trans|]. eapply view_mono; [exact V2|].
      intros va b. unfold V', page_loaded. destruct (decide (va / 4096 = q + i)) as [Hva|Hva].
      * rewrite decide_True by dmlia. done.
      * destruct (decide (4096 * q <= va < 4096 * (q + (i + 1)))); [rewrite decide_True by dmlia; done|rewrite decide_False by dmlia; done].
    + intros s'' (nt & np & T). destruct (adv_took _ _ _ A) as (nt0 & np0 & T0). exists (nt0 ++ nt), (np0 ++ np). by eapply took_trans.
  - intros s' [A V0]. split; [done|]. eapply view_mono; [exact V0|]. intros va b. unfold V', loaded_range, page_range. fold q e.
    replace (q + (0 + Z.of_nat (Z.to_nat (e - q)))) with e by lia. done.
Qed.

(** ** Writing *)
Lemma owned_translate s pg u va : space_ok s -> owns true s pg -> (forall va b, u va = Some b -> cell s pg va b) ->
  u va <> None -> exists f, pg !! (va / 4096) = Some f /\ vmm_translate (ram s) (space s) va true = Some (4096 * f + va mod 4096).
Proof.
  intros [O Hp Hr PG] W C H. destruct (u va) as [b|] eqn:E; [|done]. destruct (C _ _ E) as (Hva & f & Hf & _).
  exists f. split; [done|]. rewrite translate_walk by done. by eapply own_trans.
Qed.

Lemma view_writable s u virt n : space_ok s -> view true s u -> 0 <= virt -> virt + n <= VA_LIMIT ->
  (forall i, 0 <= i < n -> u (virt + i) <> None) -> writable_range s virt n.
Proof.
  intros S (pg & W & C) Hv Hvn Hin. assert (Hf := fun i Hi => owned_translate s pg u (virt + i) S W C (Hin i Hi)).
  destruct S as [O Hp Hr PG], W as [W1 W2 W3].
  assert (Hm := fun a => Z.mod_pos_bound a 4096 ltac:(lia)). split.
  - intros i phys Hi Ht (va & k & t & Hk & Htb & Ha). destruct (Hf i Hi) as (f & Hpf & Htr). rewrite Htr in Ht. injection Ht as <-.
    destruct (W1 _ _ Hpf) as (_ & _ & Hdf). destruct (tables_frame _ _ _ (pg_tables _ _ PG) va k t Hk Htb) as (g & -> & _).
    apply (Hdf va k _ Hk Htb). specialize (Hm (virt + i)). f_equal. lia.
  - intros i j phys Hi Hj Hti Htj. destruct (Hf i Hi) as (f & Hpf & Htr), (Hf j Hj) as (g & Hpg & Htg).
    rewrite Htr in Hti. rewrite Htg in Htj. injection Hti as <-. injection Htj as Htj.
    pose proof (Hm (virt + i)). pose proof (Hm (virt + j)). assert (g = f) by lia. subst g. pose proof (W3 _ _ _ Hpf Hpg). dmlia.
Qed.

(** The translation of every address is as before. *)
Definition same_trans s s' : Prop := forall va acc, vmm_translate (ram s') (space s') va acc = vmm_translate (ram s) (space s) va acc.

(** Only the bytes that are written matter. *)
Lemma write_user_loop_take fuel virt src size : forall k s, 0 <= k -> 0 <= size <= Z.of_nat (length src) ->
  write_user_loop fuel virt src size k s = write_user_loop fuel virt (take (Z.to_nat size) src) size k s.
Proof.
  induction fuel as [|fuel IH]; intros k s Hd Hs; [done|]. cbn [write_user_loop]. destruct (Z.leb_spec size k) as [|Hlt]; [done|].
  assert (Hc : 0 <= next_chunk virt size k <= size - k).
  { unfold next_chunk. rewrite page_offset. change K64_PAGE_SIZE with 4096. pose proof (Z.mod_pos_bound (u64 (virt + k)) 4096 ltac:(lia)).
    destruct (Z.ltb_spec (size - k) (4096 - u64 (virt + k) mod 4096)); lia. }
  cbv zeta. generalize dependent (next_chunk virt size k). intros c Hc. unfold mbind, M_bind, gets. destruct (vmm_translate _ _ _ _); [|done].
  unfold bytes_of. rewrite length_take, (proj2 (Z.leb_le 0 k)), !(proj2 (Z.leb_le (k + c) _)) by lia. cbn [andb mret M_ret].
  assert (E : slice (take (Z.to_nat size) src) (Z.to_nat k) (Z.to_nat c) = slice src (Z.to_nat k) (Z.to_nat c)).
  { unfold slice. rewrite skipn_firstn_comm. rewrite take_take. f_equal. lia. }
  rewrite E. unfold modify. cbn. apply IH; lia.
Qed.

Lemma write_user_take virt src size s : 0 <= size <= Z.of_nat (length src) ->
  k64_vmm_write_user virt (Some src) size s = k64_vmm_write_user virt (Some (take (Z.to_nat size) src)) size s.
Proof.
  intros Hs. unfold k64_vmm_write_user. cbn [absent andb negb]. unfold mbind, M_bind. destruct (check _ s); [|done|done].
  exact (write_user_loop_take _ virt src size 0 _ ltac:(lia) Hs).
Qed.

Lemma write_user_view s u virt src : space_ok s -> view true s u -> bytes_ok src -> 0 <= virt ->
  virt + Z.of_nat (length src) <= VA_LIMIT -> (forall i, 0 <= i < Z.of_nat (length src) -> u (virt + i) <> None) ->
  wp (k64_vmm_write_user virt (Some src) (Z.of_nat (length src)))
    (fun _ s' => (advanced true s s' /\ view true s' (overlay u virt src)) /\ same_trans s s') (fun _ => False) s.
Proof.
  intros S V Hsrc Hv Hvl Hin. pose proof S as [O Hp Hr PG]. assert (Hlim : VA_LIMIT = 281474976710656) by done.
  assert (W := view_writable s u virt _ S V Hv Hvl Hin).
  eapply wp_mono; [apply (write_user_spec s virt src); [apply O|done|done|lia|lia]| |].
  - intros [] s' (m' & -> & Pt). destruct Pt as [Pm Pb Pp Po].
    assert (Hout : forall a, in_table (ram s) (cr3 (space s)) a -> byte_at m' a = byte_at (ram s) a).
    { intros a Ha. apply Po. intros i Hi Ht. by eapply (range_apart _ _ _ W). }
    destruct (outside_same (ram s) m' (cr3 (space s)) Hout) as [Htb Htr].
    split; [|intros va acc; cbn [ram space set_ram]; rewrite !translate_walk by done; apply Htr]. split; [split|].
    + exists [], []. apply took_refl; [apply O|done].
    + split; cbn; [|done|done|]. { destruct O as [F _ A]. by split. }
      destruct PG as [T L]. split; cbn.
      * split; [intros va k t Hk; rewrite Htb by lia; by apply T|].
        intros va va' k k' t Hk Hk'. rewrite !Htb by lia. by apply T.
      * intros va t. rewrite Htb by lia. intros Ht. rewrite (entry_outside (ram s) m' _ Hout va 1 t) by (lia || done || apply idx_range). by apply L.
    + intros va _ H. cbn. by apply (user_path_outside (ram s)).
    + destruct V as (pg & W' & C). assert (Htrans := fun i Hi => owned_translate s pg u (virt + i) S W' C (Hin i Hi)).
      destruct W' as [W1 W2 W3]. exists pg. split; [split; cbn [ram space set_ram]|].
      * intros p f Hf. destruct (W1 p f Hf) as (D1 & D2 & D3). split_and!; [done|done|]. intros va k t Hk. rewrite Htb by lia. by apply D3.
      * intros p f va Hf Hva Hq. rewrite Htr. by eapply W2.
      * done.
      * intros va b. unfold overlay. destruct (decide _) as [Hd|Hd].
        -- intros Hb. destruct (Htrans (va - virt) ltac:(lia)) as (f & Hf & Ht). replace (virt + (va - virt)) with va in * by lia.
           split; [lia|]. exists f. split; [done|]. apply (Pb (va - virt) b); [lia|done|]. by replace (virt + (va - virt)) with va by lia.
        -- intros H. destruct (C va b H) as (Hva & f & Hf & Hb). split; [done|]. exists f. split; [done|]. cbn. rewrite Po; [done|].
           intros i Hi Ht. destruct (Htrans i Hi) as (g & Hg & Htg). rewrite Htg in Ht. injection Ht as Ht.
           pose proof (Z.mod_pos_bound va 4096 ltac:(lia)). pose proof (Z.mod_pos_bound (virt + i) 4096 ltac:(lia)).
           assert (g = f) by lia. subst g. pose proof (W3 _ _ _ Hf Hg). apply Hd. dmlia.
  - intros s' (m' & n & _ & Hn & _ & Ht). destruct (u (virt + n)) as [b|] eqn:E; [|by apply Hin in E].
    destruct (view_byte s u _ b S V E) as (phys & Ht' & _). congruence.
Qed.
End view.
