(* ===== verification/VmmClone.v ===== *)
(** * Building and releasing spaces

    [vmm_clone_kernel_root], [vmm_alloc_space] and
    [k64_vmm_release_service_space]: which frames and slots a space holds, and
    what a new space maps.

    [vmm_clone_kernel_root] copies the kernel's PML4 and its first PDPT: the new
    root has its own two top tables and shares every other table with the
    kernel. *)
From Stdlib Require Import ZArith Lia.
From stdpp Require Import base list gmap.
From S2P Require Import Prelude Exec Mem Pmm PmmSpec Frames Vmm VmmWalk VmmSpec VmmMap VmmUser VmmLoad.

Section space.
Context {P : Type} `{!FrameAllocator P}.
Abbreviation st := (vmm P).
Implicit Types s : st.

(** ** The frames of a space

    The recorded frames are distinct, were free in [p0], and are exactly the
    frames that are busy now and were free then. *)
Record holds (p0 : P) (nt np : list Z) s : Prop := {
  h_ok : vm_ok s;
  h_tables : table_list (space s) = map (Z.mul 4096) nt;
  h_pages : page_list (space s) = map (Z.mul 4096) np;
  h_nodup : NoDup (nt ++ np);
  h_fresh f : f ∈ nt ++ np -> 0 < f < 1048576 /\ busy p0 f = false;
  h_busy f : 0 <= f -> busy (frames s) f = bool_decide (f ∈ nt ++ np) || busy p0 f
}.

Lemma holds_took p0 nt np nt' np' s s' : holds p0 nt np s -> took nt' np' s s' -> holds p0 (nt ++ nt') (np ++ np') s'.
Proof.
  intros [O1 T1 P1 N1 F1 B1] [O2 F2 N2 B2 T2 P2 _ _].
  assert (Hp : (nt ++ nt') ++ np ++ np' ≡ₚ (nt ++ np) ++ nt' ++ np') by solve_Permutation.
  assert (Hfree : forall f, f ∈ nt' ++ np' -> busy p0 f = false /\ f ∉ nt ++ np).
  { intros f Hf. destruct (F2 f Hf) as [Hr Hb]. rewrite B1 in Hb by lia. apply orb_false_iff in Hb as [Hb ->].
    split; [done|]. by apply bool_decide_eq_false in Hb. }
  split; [done|by rewrite T2, T1, map_app|by rewrite P2, P1, map_app|..].
  - rewrite Hp. apply NoDup_app. split_and!; [done| |done]. intros f H1 H2. by apply Hfree in H2 as [_ H2].
  - intros f. rewrite Hp. intros [H|H]%elem_of_app; [by apply F1|]. split; [by apply F2|by apply Hfree].
  - intros f Hf. rewrite B2, B1 by done. rewrite orb_assoc. f_equal. rewrite <- bool_decide_or.
    apply bool_decide_ext. rewrite Hp, (elem_of_app (nt ++ np)). tauto.
Qed.

(** The space of a step may be replaced by one with the same lists. *)
Lemma holds_space p0 nt np s sp : holds p0 nt np s -> arrays_ok sp -> table_list sp = table_list (space s) ->
  page_list sp = page_list (space s) -> holds p0 nt np (set_space sp s).
Proof.
  intros [[F M _] T1 P1 N1 F1 B1] A Ht Hp. split; cbn; [by split|congruence|congruence|done|done|done].
Qed.

(** Releasing a list of frames. *)
Lemma release_list_spec s l n fs : frames_ok (frames s) -> Z.of_nat n <= Z.of_nat (length l) ->
  take n l = map (Z.mul 4096) fs -> NoDup fs ->
  (forall f, f ∈ fs -> 0 < f < 1048576 /\ busy (frames s) f = true) ->
  wp (for_loop n 0 (release_one l)) (fun _ s' => exists p', s' = set_frames p' s /\ frames_ok p' /\
    forall f, 0 <= f -> busy p' f = negb (bool_decide (f ∈ fs)) && busy (frames s) f) (fun _ => False) s.
Proof.
  intros F Hn Ht Hnd Hfs.
  assert (Hlen : length fs = n) by (apply (f_equal length) in Ht; rewrite length_take, length_map in Ht; lia).
  apply (wp_for_loop (fun i s' => exists p', s' = set_frames p' s /\ frames_ok p' /\
    forall f, 0 <= f -> busy p' f = negb (bool_decide (f ∈ take (Z.to_nat i) fs)) && busy (frames s) f)).
  - exists (frames s). split_and!; [by destruct s|done|]. intros f _. by rewrite take_0.
  - intros i s' Hi (p' & -> & F' & B'). unfold release_one.
    destruct (lookup_lt_is_Some_2 fs (Z.to_nat i)) as [f Hf]; [lia|].
    assert (Hl : l !! Z.to_nat i = Some (4096 * f)).
    { rewrite <- (lookup_take_lt l n) by lia. rewrite Ht, list_lookup_fmap, Hf. done. }
    destruct (Hfs f) as [Hr Hb]; [by eapply list_elem_of_lookup_2|].
    wp_step. eapply wp_deref; [apply getZ_Some; split; [lia|exact Hl]|].
    rewrite (proj2 (Z.eqb_neq _ _)) by lia. apply wp_vm_frames. cbn [frames set_frames].
    assert (Hni : f ∉ take (Z.to_nat i) fs).
    { intros (j & Hj)%list_elem_of_lookup. apply lookup_take_Some in Hj as [Hj Hlt].
      pose proof (NoDup_lookup fs j (Z.to_nat i) f Hnd Hj Hf). lia. }
    replace (4096 * f) with (f * 4096) by lia.
    eapply wp_mono; [apply (free_frame_law p' f F'); [lia|]| |done].
    { rewrite B' by lia. by rewrite (bool_decide_eq_false_2 _ Hni), Hb. }
    intros [] p2 [F2 S2]. exists p2. split_and!; [by destruct s|done|]. intros g Hg. rewrite S2, B' by done.
    replace (Z.to_nat (i + 1)) with (S (Z.to_nat i)) by lia. rewrite (take_S_r _ _ f Hf). unfold in_run.
    case_decide as Hd.
    + replace g with f by lia. by rewrite bool_decide_eq_true_2 by (apply elem_of_app; right; by apply list_elem_of_singleton).
    + f_equal. f_equal. apply bool_decide_ext. rewrite elem_of_app, list_elem_of_singleton. split; [tauto|].
      intros [H| ->]; [done|lia].
  - intros s' (p' & -> & F' & B'). exists p'. split_and!; [done|done|]. intros f Hf. rewrite B' by done.
    rewrite take_ge by lia. done.
Qed.

(** What releasing does to the slots. *)
Definition slot_of (sp : k64_vm_space_t) : Z := (root_base sp - K64_SERVICE_VM_BASE) / K64_SERVICE_VM_STRIDE.
Definition slots_after (sp : k64_vm_space_t) (l : list bool) : list bool :=
  if (K64_SERVICE_VM_BASE <=? root_base sp) && (slot_of sp <? K64_SERVICE_VM_MAX_SLOTS)
  then <[Z.to_nat (slot_of sp) := false]> l else l.

Lemma release_spec p0 nt np s : holds p0 nt np s -> present (space s) = true ->
  length (service_slot_used s) = Z.to_nat K64_SERVICE_VM_MAX_SLOTS ->
  wp k64_vmm_release_service_space (fun _ s' => exists p', frames_ok p' /\
      (forall f, 0 <= f -> busy p' f = busy p0 f) /\
      s' = set_frames p' (set_slots (slots_after (space s) (service_slot_used s))
             (set_space (vmm_clear_space (space s)) s)))
    (fun _ => False) s.
Proof.
  intros [[F M A] T1 P1 N1 F1 B1] Hp Hlen. unfold k64_vmm_release_service_space. wp_step. wp_step.
  rewrite Hp. cbn [negb]. destruct A as [L1 C1 L2 C2]. wp_step.
  apply NoDup_app in N1 as (Nt & Hdis & Np).
  assert (Hin : forall f, f ∈ nt ++ np -> 0 < f < 1048576 /\ busy (frames s) f = true).
  { intros f Hf. destruct (F1 f Hf) as [Hr _]. split; [done|]. rewrite B1 by lia. by rewrite bool_decide_eq_true_2. }
  eapply wp_mono; [apply (release_list_spec s _ _ np F); [lia|exact P1|done|]| |done].
  { intros f Hf. apply Hin, elem_of_app. by right. }
  intros [] s1 (p1 & -> & F1' & B1'). wp_step.
  eapply wp_mono; [apply (release_list_spec (set_frames p1 s) _ _ nt F1'); [lia|exact T1|done|]| |done].
  { intros f Hf. destruct (Hin f) as [Hr Hb]; [apply elem_of_app; by left|]. split; [done|]. cbn.
    rewrite B1' by lia. by rewrite Hb, bool_decide_eq_false_2 by (by apply Hdis). }
  intros [] s2 (p2 & -> & F2' & B2'). cbn [frames set_frames] in B2'.
  assert (Hb : forall f, 0 <= f -> busy p2 f = busy p0 f).
  { intros f Hf. rewrite B2', B1', B1 by done. destruct (bool_decide_reflect (f ∈ nt ++ np)) as [H|H].
    - rewrite (proj2 (F1 f H)). apply elem_of_app in H as [H|H]; rewrite (bool_decide_eq_true_2 _ H); [done|].
      cbn. apply andb_false_r.
    - rewrite !bool_decide_eq_false_2 by (intros H'; apply H, elem_of_app; tauto). done. }
  unfold slots_after. fold (slot_of (space s)).
  assert (Hs0 : K64_SERVICE_VM_BASE <= root_base (space s) -> 0 <= slot_of (space s)).
  { intros H. unfold slot_of. apply Z.div_pos; [lia|done]. }
  destruct (Z.leb_spec K64_SERVICE_VM_BASE (root_base (space s))) as [Hb0|Hb0]; cbn [andb].
  - destruct (Z.ltb_spec (slot_of (space s)) K64_SERVICE_VM_MAX_SLOTS) as [Hs|Hs].
    + wp_step. wp_step. wp_step. wp_step.
      eapply wp_deref; [unfold setZ; rewrite decide_True; [reflexivity|cbn; specialize (Hs0 Hb0); lia]|].
      wp_steps. exists p2. split_and!; [done|done|by destruct s].
    + wp_steps. exists p2. split_and!; [done|done|by destruct s].
  - wp_steps. exists p2. split_and!; [done|done|by destruct s].
Qed.
End space.

(** * The root table of a new space *)
(** [m'] is [m] with a clone of the root [K] in the frames [N1] and [N2]. *)
Record cloned (m m' : mem) (K N1 N2 x : Z) : Prop := {
  cl_out a : ~ (4096 * N1 <= a < 4096 * N1 + 4096) -> ~ (4096 * N2 <= a < 4096 * N2 + 4096) ->
    byte_at m' a = byte_at m a;
  cl_first : entry_at m' (4096 * N1) 0 = 4096 * N2 + table_flags x;
  cl_root i : 0 < i < 512 -> entry_at m' (4096 * N1) i = entry_at m K i;
  cl_pdpt i : 0 <= i < 512 -> entry_at m' (4096 * N2) i = entry_at m (addr (entry_at m K 0)) i
}.

Section clone.
Context (m m' : mem) (K N1 N2 x : Z) (busy busy' : Z -> bool).
Context (T : tables_ok m K busy) (L : low_giants m K) (C : cloned m m' K N1 N2 x).
Context (H0 : is_present (entry_at m K 0) = true).
Context (F1 : 0 < N1 < 1048576) (F2 : 0 < N2 < 1048576) (Hne : N1 <> N2).
Context (B1 : busy N1 = false) (B2 : busy N2 = false).
Context (B : forall f, 0 <= f -> busy' f = bool_decide (f ∈ [N1; N2]) || busy f).

Abbreviation R := (4096 * N1).

Lemma clone_out a : in_table m K a -> byte_at m' a = byte_at m a.
Proof.
  intros (va & k & t & Hk & Ht & Ha). destruct (tables_frame _ _ _ T va k t Hk Ht) as (f & -> & Hf & Hb).
  apply C; intros H; [assert (f = N1) by lia|assert (f = N2) by lia]; congruence.
Qed.

Lemma kernel_pdpt va : idx 0 va = 0 -> tbl m K va 1 = Some (addr (entry_at m K 0)).
Proof. intros Hi. rewrite (tbl_next m K va 0 K eq_refl), Hi. unfold child. by rewrite H0. Qed.

Lemma first_entry : is_present (entry_at m' R 0) = true /\ addr (entry_at m' R 0) = 4096 * N2 /\
  permits true (entry_at m' R 0) = Z.testbit x 2.
Proof.
  rewrite (cl_first _ _ _ _ _ _ C). destruct (table_flags_spec x) as (Hf & Hf0 & _ & Hf2).
  rewrite is_present_bit, permits_bits, !low_bit, Hf0, Hf2 by lia. split_and!; [done| |done].
  unfold addr. rewrite page_mask by (unfold word; lia). by rewrite entry_frame by lia.
Qed.

Lemma clone_tbl1 va : tbl m' R va 1 = if idx 0 va =? 0 then Some (4096 * N2) else tbl m K va 1.
Proof.
  rewrite (tbl_next m' R va 0 R eq_refl), (tbl_next m K va 0 K eq_refl). unfold child. cbn [large negb].
  destruct (Z.eqb_spec (idx 0 va) 0) as [->|Hi].
  - destruct first_entry as (-> & -> & _). done.
  - pose proof (idx_range 0 va). by rewrite (cl_root _ _ _ _ _ _ C) by lia.
Qed.

Lemma clone_tbl va k : (2 <= k <= 3)%nat -> tbl m' R va k = tbl m K va k.
Proof.
  assert (H2 : tbl m' R va 2 = tbl m K va 2).
  { pose proof (clone_tbl1 va) as H1. destruct (Z.eqb_spec (idx 0 va) 0) as [Hi|Hi].
    - rewrite (tbl_next _ _ _ _ _ H1), (tbl_next _ _ _ _ _ (kernel_pdpt va Hi)). unfold child.
      by rewrite (cl_pdpt _ _ _ _ _ _ C) by apply idx_range.
    - destruct (tbl m K va 1) as [t|] eqn:Ht; [|by rewrite (tbl_none _ _ _ _ H1), (tbl_none _ _ _ _ Ht)].
      rewrite (tbl_next _ _ _ _ _ H1), (tbl_next _ _ _ _ _ Ht). unfold child.
      by rewrite (entry_outside m m' K clone_out va 1 t) by (lia || done || apply idx_range). }
  intros Hk. assert (k = 2%nat \/ k = 3%nat) as [->| ->] by lia; [done|].
  destruct (tbl m K va 2) as [t|] eqn:Ht; [|by rewrite (tbl_none _ _ _ _ H2), (tbl_none _ _ _ _ Ht)].
  rewrite (tbl_next _ _ _ _ _ H2), (tbl_next _ _ _ _ _ Ht). unfold child.
  by rewrite (entry_outside m m' K clone_out va 2 t) by (lia || done || apply idx_range).
Qed.

(** Every table of the clone is one of the two new ones, or a table of the
    kernel. *)
Lemma clone_table va k t : (k <= 3)%nat -> tbl m' R va k = Some t ->
  (k = 0%nat /\ t = R) \/ (k = 1%nat /\ t = 4096 * N2 /\ idx 0 va = 0) \/ (tbl m K va k = Some t /\ t <> R /\ t <> 4096 * N2).
Proof.
  intros Hk Ht.
  assert (Hold : tbl m K va k = Some t -> t <> R /\ t <> 4096 * N2).
  { intros H. destruct (tables_frame _ _ _ T va k t Hk H) as (f & -> & _ & Hb).
    split; intros E; [assert (f = N1) by lia|assert (f = N2) by lia]; congruence. }
  destruct k as [|[|k]]; [left; by injection Ht as <-| |].
  - rewrite clone_tbl1 in Ht. destruct (Z.eqb_spec (idx 0 va) 0) as [Hi|Hi].
    + right. left. injection Ht as <-. done.
    + right. right. by split; [|apply Hold].
  - rewrite clone_tbl in Ht by lia. right. right. by split; [|apply Hold].
Qed.

Lemma clone_tables_ok : tables_ok m' R busy'.
Proof.
  split.
  - intros va k t Hk Ht. destruct (clone_table va k t Hk Ht) as [(_ & ->)|[(_ & -> & _)|(H & _)]].
    + exists N1. rewrite B, bool_decide_eq_true_2 by (lia || set_solver). split_and!; [done|lia|lia|done].
    + exists N2. rewrite B, bool_decide_eq_true_2 by (lia || set_solver). split_and!; [done|lia|lia|done].
    + destruct (tables_frame _ _ _ T va k t Hk H) as (f & -> & Hf & Hb). exists f. split_and!; [done|lia|lia|].
      rewrite B, Hb by lia. apply orb_true_r.
  - intros va va' k k' t Hk Hk' Ht Ht'.
    destruct (clone_table va k t Hk Ht) as [(E1 & E2)|[(E1 & E2 & E3)|(E1 & E2 & E3)]],
      (clone_table va' k' t Hk' Ht') as [(E1' & E2')|[(E1' & E2' & E3')|(E1' & E2' & E3')]]; subst; try lia; try done.
    + split; [done|]. intros j Hj. lia.
    + split; [done|]. intros j Hj. replace j with 0%nat by lia. congruence.
    + by apply (tables_distinct _ _ _ T va va' k k' t).
Qed.

Lemma clone_low : low_giants m' R.
Proof.
  intros va t Ht. rewrite clone_tbl1 in Ht. destruct (Z.eqb_spec (idx 0 va) 0) as [Hi|Hi].
  - injection Ht as <-. rewrite (cl_pdpt _ _ _ _ _ _ C) by apply idx_range. apply L. by apply kernel_pdpt.
  - rewrite (entry_outside m m' K clone_out va 1 t) by (lia || done || apply idx_range). by apply L.
Qed.

(** For kernel access the clone translates as the kernel's root. *)
Lemma clone_trans va : trans m' false R va = trans m false K va.
Proof.
  pose proof (idx_range 0 va) as Hr.
  assert (Hw : forall u t, tbl m K va 1 = Some t -> walk 2 1 m' u t va = walk 2 1 m u t va).
  { intros u t Ht. apply (walk_outside m m' K clone_out); [done|done]. }
  change (trans m' false R va) with (if permits false (entry_at m' R (idx 0 va)) then
    walk 2 1 m' false (addr (entry_at m' R (idx 0 va))) va else None).
  change (trans m false K va) with (if permits false (entry_at m K (idx 0 va)) then
    walk 2 1 m false (addr (entry_at m K (idx 0 va))) va else None).
  assert (Hp : forall e, permits false e = is_present e).
  { intros e. rewrite permits_bits, is_present_bit. apply andb_true_r. }
  rewrite !Hp. destruct (Z.eqb_spec (idx 0 va) 0) as [Hi|Hi].
  - rewrite Hi, H0. destruct first_entry as (-> & -> & _). cbn [walk].
    rewrite (cl_pdpt _ _ _ _ _ _ C) by apply idx_range. destruct (permits false _) eqn:Hpe; [|done].
    destruct (large 1 _) eqn:Hl; [done|]. change (walk 1 2 m' false (addr (entry_at m (addr (entry_at m K 0)) (idx 1 va))) va =
      walk 1 2 m false (addr (entry_at m (addr (entry_at m K 0)) (idx 1 va))) va).
    apply (walk_outside m m' K clone_out); [done|]. eapply tbl_down; [by apply kernel_pdpt|done|done].
  - rewrite (cl_root _ _ _ _ _ _ C) by lia. destruct (is_present (entry_at m K (idx 0 va))) eqn:Hpe; [|done]. apply Hw.
    rewrite (tbl_next m K va 0 K eq_refl). unfold child. by rewrite Hpe.
Qed.

(** Where the kernel has no page tables, the path of a user space is open. *)
Lemma clone_user_path va : Z.testbit x 2 = true -> idx 0 va = 0 -> tbl m K va 2 = None -> user_path m' R va.
Proof.
  intros Hx Hi Hn k t Hk Ht Hch. destruct k as [|[|k]].
  - injection Ht as <-. rewrite Hi. destruct first_entry as (_ & _ & ->). done.
  - exfalso. apply Hch. rewrite <- (tbl_next _ _ _ _ _ Ht). by rewrite clone_tbl by lia.
  - exfalso. rewrite clone_tbl in Ht by lia. assert (k = 0%nat) by lia. subst k. congruence.
Qed.
End clone.

Section wp.
Context {P : Type} `{!FrameAllocator P}.
Abbreviation st := (vmm P).
Implicit Types s : st.

(** The copying loop. *)
Lemma copy_loop_spec s N1 N2 K KP : mem_ok (ram s) -> N1 <> N2 ->
  (forall t, t = K \/ t = KP -> exists f, t = 4096 * f /\ f <> N1 /\ f <> N2) ->
  wp (for_loop 512 0 (copy_entries (4096 * N1) (4096 * N2) K KP)) (fun _ s' => exists m', s' = set_ram m' s /\ mem_ok m' /\
      (forall i, 0 <= i < 512 -> entry_at m' (4096 * N1) i = entry_at (ram s) K i /\
         entry_at m' (4096 * N2) i = entry_at (ram s) KP i) /\
      (forall a, ~ (4096 * N1 <= a < 4096 * N1 + 4096) -> ~ (4096 * N2 <= a < 4096 * N2 + 4096) ->
         byte_at m' a = byte_at (ram s) a)) (fun _ => False) s.
Proof.
  intros M Hne Hap. apply (wp_for_loop (fun i s' => exists m', s' = set_ram m' s /\ mem_ok m' /\
      (forall j, 0 <= j < i -> entry_at m' (4096 * N1) j = entry_at (ram s) K j /\
         entry_at m' (4096 * N2) j = entry_at (ram s) KP j) /\
      (forall a, ~ (4096 * N1 <= a < 4096 * N1 + 4096) -> ~ (4096 * N2 <= a < 4096 * N2 + 4096) ->
         byte_at m' a = byte_at (ram s) a))).
  - exists (ram s). split_and!; [by destruct s|done|lia|done].
  - intros i s' Hi (m' & -> & M' & He & Ho). unfold copy_entries, get_entry, put_entry. wp_steps. cbn [ram set_ram].
    assert (Hk : forall m2 t, t = K \/ t = KP -> (forall a, ~ (4096 * N1 <= a < 4096 * N1 + 4096) ->
      ~ (4096 * N2 <= a < 4096 * N2 + 4096) -> byte_at m2 a = byte_at (ram s) a) -> entry_at m2 t i = entry_at (ram s) t i).
    { intros m2 t Ht H. destruct (Hap t Ht) as (f & -> & Hf1 & Hf2). unfold entry_at, load64. f_equal.
      apply load_bytes_ext. intros a Ha. apply H; lia. }
    rewrite (Hk m' K) by tauto. set (m1 := store64 m' (4096 * N1 + 8 * i) (entry_at (ram s) K i)).
    assert (Ho1 : forall a, ~ (4096 * N1 <= a < 4096 * N1 + 4096) -> ~ (4096 * N2 <= a < 4096 * N2 + 4096) ->
      byte_at m1 a = byte_at (ram s) a).
    { intros a H1 H2. unfold m1. rewrite byte_at_store64_out by lia. by apply Ho. }
    rewrite (Hk m1 KP) by tauto. pose proof (entry_word (ram s) K i M) as W1. pose proof (entry_word (ram s) KP i M) as W2.
    eexists. split_and!; [by destruct s|apply store64_ok, store64_ok, M'| |].
    + intros j Hj. unfold m1. rewrite !entry_put by (auto; lia).
      destruct (decide (j = i)) as [->|Hji].
      * rewrite (decide_False (P := 4096 * N2 = 4096 * N1 /\ i = i)) by lia. by rewrite !decide_True.
      * rewrite !decide_False by lia. apply He. lia.
    + intros a H1 H2. rewrite byte_at_store64_out by lia. by apply Ho1.
  - intros s' H. exact H.
Qed.

(** [vmm_clone_kernel_root] fails only for want of frames (or of a kernel
    root), and has recorded what it took. *)
Lemma clone_spec s K : vm_ok s -> kernel_cr3 s = K -> tables_ok (ram s) K (busy (frames s)) ->
  wp vmm_clone_kernel_root
    (fun _ s' => is_present (entry_at (ram s) K 0) = true /\ exists N1 N2 s1 m', took [N1; N2] [] s s1 /\
       cloned (ram s) m' K N1 N2 (if user_mode (space s) then K64_PAGE_USER else 0) /\ mem_ok m' /\
       s' = set_space (with_cr3 (4096 * N1) (space s1)) (set_ram m' s1))
    (fun s' => exists nt, took nt [] s s') s.
Proof.
  intros O HK T. assert (Hrefl : took [] [] s s).
  { replace s with (set_ram (ram s) s) at 2 by (by destruct s). apply took_refl; apply O. }
  unfold vmm_clone_kernel_root, get_entry. wp_step. wp_step. wp_step. apply wp_check; [intros _|intros _; by exists []].
  wp_step. wp_step. rewrite HK. wp_step. apply wp_check; [intros Hp|intros _; by exists []]. wp_step.
  eapply wp_mono; [by apply alloc_table_spec| |done]. intros a1 s1 H1. wp_step.
  assert (O1 : vm_ok s1) by (destruct H1 as [(_ & H & _)|(f & _ & H & _)]; apply H).
  eapply wp_mono; [by apply alloc_table_spec| |done]. intros a2 s2 H2. wp_step.
  assert (Hfail : forall nt1 nt2, took nt1 [] s s1 -> took nt2 [] s1 s2 -> exists nt, took nt [] s s2).
  { intros nt1 nt2 T1 T2. exists (nt1 ++ nt2). change ([] : list Z) with ([] ++ [] : list Z). by eapply took_trans. }
  destruct H1 as [(-> & T1 & M1)|(N1 & -> & T1 & M1)].
  { apply wp_fail. destruct H2 as [(_ & T2 & _)|(N2 & _ & T2 & _)]; by eapply Hfail. }
  destruct H2 as [(-> & T2 & M2)|(N2 & -> & T2 & M2)].
  { apply wp_check; [intros [_ H]%andb_true_iff; discriminate H|intros _; by eapply Hfail]. }
  apply wp_check; [intros _|intros _; by eapply Hfail].
  destruct (took_fresh _ _ _ _ T1 N1) as [F1 B1]; [by apply list_elem_of_singleton|].
  destruct (took_fresh _ _ _ _ T2 N2) as [F2 B2]; [by apply list_elem_of_singleton|].
  rewrite (took_busy _ _ _ _ T1) in B2 by lia. apply orb_false_iff in B2 as [Hn B2].
  apply bool_decide_eq_false in Hn. rewrite app_nil_r, list_elem_of_singleton in Hn.
  assert (T12 : took [N1; N2] [] s s2) by exact (took_trans _ _ _ _ _ _ _ T1 T2).
  assert (Hout : forall a, ~ (4096 * N1 <= a < 4096 * N1 + 4096) -> ~ (4096 * N2 <= a < 4096 * N2 + 4096) ->
    byte_at (ram s2) a = byte_at (ram s) a).
  { intros a Ha1 Ha2. rewrite M2, byte_at_store_out by (by rewrite zeros_length).
    rewrite M1. apply byte_at_store_out. by rewrite zeros_length. }
  clear M1 M2 Hfail.
  assert (Hap : forall t, t = K \/ t = addr (entry_at (ram s) K 0) -> exists f, t = 4096 * f /\ f <> N1 /\ f <> N2).
  { intros t Ht. assert (Hk : exists k, (k <= 3)%nat /\ tbl (ram s) K 0 k = Some t).
    { destruct Ht as [->| ->]; [by exists 0%nat; split; [lia|]|]. exists 1%nat. split; [lia|]. by apply kernel_pdpt. }
    destruct Hk as (k & Hk & Hkt). destruct (tables_frame _ _ _ T 0 k t Hk Hkt) as (f & -> & _ & Hb).
    exists f. split_and!; [done|congruence|congruence]. }
  wp_step. eapply wp_mono; [apply (copy_loop_spec s2 N1 N2 K (addr (entry_at (ram s) K 0))); [apply (took_ok _ _ _ _ T12)|congruence|exact Hap]| |intros ? []].
  intros [] s3 (m3 & -> & M3 & He & Ho). unfold put_entry. wp_steps. split; [exact Hp|].
  assert (Hents : forall t i, t = K \/ t = addr (entry_at (ram s) K 0) -> 0 <= i < 512 ->
    entry_at (ram s2) t i = entry_at (ram s) t i).
  { intros t i Ht Hi. destruct (Hap t Ht) as (f & -> & Hf1 & Hf2). unfold entry_at, load64. f_equal.
    apply load_bytes_ext. intros a Ha. apply Hout; lia. }
  destruct (took_space _ _ _ _ T12) as (_ & _ & Hum). cbn [space set_ram].
  set (x := if user_mode (space s) then K64_PAGE_USER else 0).
  assert (Ex : Z.lor (Z.lor (4096 * N2) K64_PAGE_TABLE_FLAGS) (if user_mode (space s2) then K64_PAGE_USER else 0) =
    4096 * N2 + table_flags x).
  { rewrite Hum. fold x. rewrite <- table_entry by lia. f_equal. unfold x. by destruct (user_mode (space s)). }
  rewrite Ex. destruct (table_flags_spec x) as (Hfl & _).
  exists N1, N2, s2, (store64 m3 (4096 * N1 + 8 * 0) (4096 * N2 + table_flags x)).
  split_and!; [done| |by apply store64_ok|by destruct s2].
  split.
  - intros a Ha1 Ha2. rewrite byte_at_store64_out by lia. rewrite Ho by done. by apply Hout.
  - rewrite entry_put by (unfold word; lia). by rewrite decide_True.
  - intros i Hi. rewrite entry_put by (unfold word; lia). rewrite decide_False by lia.
    rewrite (proj1 (He i ltac:(lia))). apply Hents; [by left|lia].
  - intros i Hi. rewrite entry_put by (unfold word; lia). rewrite decide_False by lia.
    rewrite (proj2 (He i ltac:(lia))). apply Hents; [by right|lia].
Qed.
End wp.
