(* ===== verification/VmmAlloc.v ===== *)
(** * New address spaces

    [vmm_alloc_space] on every branch: the slot it finds, what the new space
    maps, and that neither a failure nor a later release leaves frames or slots
    taken. *)
From Stdlib Require Import ZArith Lia.
From stdpp Require Import base list gmap.
From S2P Require Import Prelude Exec Mem Pmm PmmSpec Frames Vmm VmmWalk VmmSpec VmmMap VmmUser VmmLoad VmmView VmmClone.

Section alloc.
Context {P : Type} `{!FrameAllocator P}.
Abbreviation st := (vmm P).
Implicit Types s : st.

(** ** The search for a slot *)
Definition slot_used s (k : Z) (b : bool) : Prop := service_slot_used s !! Z.to_nat k = Some b.

(** The [j]-th slot that the search looks at. *)
Definition probe (start j : Z) : Z := (start + j) mod 256.

Lemma find_slot_spec fuel s start d : length (service_slot_used s) = 256%nat -> 0 <= start < 256 -> 0 <= d ->
  d + Z.of_nat fuel = 256 -> (0 < fuel)%nat ->
  wp (find_slot fuel start (probe start d)) (fun r s' => s' = s /\
    match r with
    | Some k => 0 <= k < 256 /\ slot_used s k false
    | None => forall j, d <= j < 256 -> slot_used s (probe start j) true
    end) (fun _ => False) s.
Proof.
  intros Hlen Hst. revert d. induction fuel as [|fuel IH]; intros d Hd Hsum Hfuel; [lia|]. cbn [find_slot].
  assert (Hr : 0 <= probe start d < 256) by (apply Z.mod_pos_bound; lia).
  destruct (lookup_lt_is_Some_2 (service_slot_used s) (Z.to_nat (probe start d))) as [b Hb]; [lia|].
  wp_step. wp_step. wp_step. eapply wp_deref; [apply getZ_Some; split; [lia|exact Hb]|].
  destruct b; cbn [negb]; [|wp_step; split; [done|]; by split].
  change K64_SERVICE_VM_MAX_SLOTS with 256.
  replace ((probe start d + 1) mod 256) with (probe start (d + 1)) by (unfold probe; dmlia).
  destruct (Z.eqb_spec (probe start (d + 1)) start) as [He|He].
  - wp_step. split; [done|]. intros j Hj. assert (d = 255) by (unfold probe in He; dmlia).
    assert (j = d) by lia. by subst j.
  - assert (Hd255 : d <> 255) by (intros ->; apply He; unfold probe; dmlia).
    eapply wp_mono; [apply IH; lia| |done]. intros [k|] s' [-> H]; split; try done.
    intros j Hj. destruct (decide (j = d)) as [->|]; [done|]. apply H. lia.
Qed.

(** ** A zeroed page is a page loaded from an empty file *)
Lemma map_zeroed_eq virt page flags s : 0 <= virt <= page -> page + 4096 <= VA_LIMIT ->
  vmm_map_zeroed_page_flags page flags s = map_range_page virt (Some []) 0 flags page s.
Proof.
  intros Hv Hp. unfold VA_LIMIT in Hp.
  assert (Hw : copy_window page virt 0 = (0, 0)).
  { unfold copy_window. change K64_PAGE_SIZE with 4096. rewrite (proj2 (Z.ltb_ge page virt)) by lia.
    rewrite Z.add_0_r, !u64_small by lia. rewrite (proj2 (Z.ltb_lt _ _)), (proj2 (Z.leb_le _ _)) by lia. done. }
  unfold vmm_map_zeroed_page_flags, map_range_page. rewrite Hw. cbn [Z.ltb Z.compare].
  unfold mbind, M_bind. by destruct (take_page s).
Qed.

(** ** Preconditions: a kernel root with well-formed tables *)
Record kernel_ok s : Prop := {
  ko_frames : frames_ok (frames s);
  ko_mem : mem_ok (ram s);
  ko_tables : tables_ok (ram s) (kernel_cr3 s) (busy (frames s));
  ko_low : low_giants (ram s) (kernel_cr3 s);
  ko_slots : length (service_slot_used s) = 256%nat;
  ko_table_array : length (page_table_frames (space s)) = Z.to_nat TABLE_FRAMES_MAX;
  ko_page_array : length (phys_frames (space s)) = Z.to_nat PHYS_FRAMES_MAX
}.

(** The kernel has no tables of its own in the area of the services. *)
Definition area_clear s : Prop := forall va, 0x100000000 <= va < 0x200000000 -> tbl (ram s) (kernel_cr3 s) va 2 = None.

(** The kernel's own view of an address. *)
Definition kernel_view s (va : Z) : option Z := trans (ram s) false (kernel_cr3 s) va.

(** The zeroed stack. *)
Definition stack_bytes (base va : Z) : option Z := if decide (base <= va < base + 262144) then Some 0 else None.

(** What the new space maps: 64 zeroed pages, and otherwise what the kernel
    does. *)
Record built (user : bool) s s' : Prop := {
  built_ok : space_ok s';
  built_stack i : 0 <= i < 262144 -> exists phys,
    vmm_translate (ram s') (space s') (stack_base (space s') + i) user = Some phys /\ byte_at (ram s') phys = 0;
  built_kernel va : 0 <= va < VA_LIMIT -> ~ (stack_base (space s') <= va < stack_base (space s') + 262144) ->
    vmm_translate (ram s') (space s') va false = kernel_view s va;
  built_view : view user s' (stack_bytes (stack_base (space s')));
  built_path va : user = true -> idx 0 va = 0 -> tbl (ram s) (kernel_cr3 s) va 2 = None ->
    user_path (ram s') (cr3 (space s')) va
}.

(** [s'] is [s] but for the frames it has taken and recorded, memory, and the
    root of the space. *)
Definition grown s s' : Prop := exists nt np s1 m c, took nt np s s1 /\ mem_ok m /\
  exists nt' np', took nt' np' (set_space (with_cr3 c (space s1)) (set_ram m s1)) s'.

Lemma with_cr3_vm_ok c m s : vm_ok s -> mem_ok m -> vm_ok (set_space (with_cr3 c (space s)) (set_ram m s)).
Proof. intros [F _ [L1 C1 L2 C2]] M. split; [done|done|by split]. Qed.

Lemma self_took s : vm_ok s -> took [] [] s s.
Proof. intros O. replace s with (set_ram (ram s) s) at 2 by (by destruct s). apply took_refl; apply O. Qed.

Lemma grown_took nt np s s' : vm_ok s -> took nt np s s' -> grown s s'.
Proof.
  intros O T. exists [], [], s, (ram s), (cr3 (space s)). split_and!; [by apply self_took|apply O|].
  exists nt, np. assert (E : set_space (with_cr3 (cr3 (space s)) (space s)) (set_ram (ram s) s) = s).
  { clear. destruct s as [p m sp l k ks n c]. destruct sp. reflexivity. }
  rewrite E. exact T.
Qed.

Lemma grown_holds p0 s s' : holds p0 [] [] s -> grown s s' -> exists nt np, holds p0 nt np s'.
Proof.
  intros H (nt & np & s1 & m & c & T & M & nt' & np' & T').
  pose proof (holds_took _ _ _ _ _ _ _ H T) as [O1 H1 H2 H3 H4 H5]. exists (nt ++ nt'), (np ++ np').
  eapply holds_took; [|exact T']. split; [|done..]. by apply with_cr3_vm_ok.
Qed.

(** The layout of the space, the slots and the kernel's root are as before. *)
Lemma grown_rest s s' : grown s s' -> present (space s') = present (space s) /\
  root_base (space s') = root_base (space s) /\ stack_base (space s') = stack_base (space s) /\
  stack_size (space s') = stack_size (space s) /\ user_mode (space s') = user_mode (space s) /\
  service_slot_used s' = service_slot_used s /\ kernel_cr3 s' = kernel_cr3 s.
Proof.
  intros (nt & np & s1 & m & c & [_ _ _ _ _ _ B R] & _ & nt' & np' & [_ _ _ _ _ _ B' R']).
  unfold bare in *. cbn in B'. injection B. injection B'. intros.
  apply (f_equal (fun s => (service_slot_used s, kernel_cr3 s))) in R, R'. cbn in R, R'.
  injection R. injection R'. intros. by split_and!; congruence.
Qed.

Lemma service_index va : 0x100000000 <= va < 0x200000000 -> idx 0 va = 0.
Proof. intros H. cbn [idx]. unfold pml4_index. rewrite index_mod by lia. change (2 ^ 39) with 549755813888. dmlia. Qed.

(** The cloned root before the stack is mapped. *)
Lemma clone_space_ok s N1 N2 s1 m' x : kernel_ok s -> vm_ok s -> present (space s) = true ->
  is_present (entry_at (ram s) (kernel_cr3 s) 0) = true -> took [N1; N2] [] s s1 ->
  cloned (ram s) m' (kernel_cr3 s) N1 N2 x -> mem_ok m' ->
  let s3 := set_space (with_cr3 (4096 * N1) (space s1)) (set_ram m' s1) in
  space_ok s3 /\ cr3 (space s3) = 4096 * N1 /\
  (forall va, trans m' false (4096 * N1) va = kernel_view s va) /\
  (forall va, Z.testbit x 2 = true -> idx 0 va = 0 -> tbl (ram s) (kernel_cr3 s) va 2 = None -> user_path m' (4096 * N1) va).
Proof.
  intros [F M T L _ _ _] O Hp H0 T1 C M' s3.
  destruct (took_fresh _ _ _ _ T1 N1) as [F1 B1]; [set_solver|].
  destruct (took_fresh _ _ _ _ T1 N2) as [F2 B2]; [set_solver|].
  assert (Hne : N1 <> N2).
  { pose proof (took_nodup _ _ _ _ T1) as [Hn _]%NoDup_cons. set_solver. }
  assert (B : forall f, 0 <= f -> busy (frames s1) f = bool_decide (f ∈ [N1; N2]) || busy (frames s) f).
  { intros f Hf. rewrite (took_busy _ _ _ _ T1) by done. done. }
  split_and!; [|done| |].
  - split; cbn; [by apply with_cr3_vm_ok; [apply T1|]| |lia|].
    + by rewrite (proj1 (took_space _ _ _ _ T1)).
    + split; cbn; [by eapply clone_tables_ok|by eapply clone_low].
  - intros va. by eapply clone_trans.
  - intros va Hx Hi Hn. by eapply clone_user_path.
Qed.

(** ** The clone and the stack *)

(** One page of the stack. *)
Lemma build_page_spec s0 s s' (user : bool) flags B i : space_ok s -> 0 <= i < 64 -> B mod 4096 = 0 -> 0 <= B -> B + 262144 <= VA_LIMIT ->
  (user = true -> Z.testbit flags 2 = true) -> (forall j, 0 <= j < 262144 -> user = true -> user_path (ram s) (cr3 (space s)) (B + j)) ->
  (forall s', (exists nt np, took nt np s s') -> grown s0 s') ->
  loading user B [] 0 B i 64 s s' -> advanced user s s' -> view user s' (fun va => if decide (B <= va < B + i * 4096) then Some 0 else None) ->
  wp (vmm_map_zeroed_page_flags (B + i * 4096) flags) (fun _ s'' => loading user B [] 0 B (i + 1) 64 s s'' /\ advanced user s s'' /\
    view user s'' (fun va => if decide (B <= va < B + (i + 1) * 4096) then Some 0 else None)) (grown s0) s'.
Proof.
  intros S Hi Hmod HB Hl Hfl HU Hg H A V. assert (HVA : VA_LIMIT = 281474976710656) by done.
  unfold wp. rewrite (map_zeroed_eq B) by lia.
  change (wp (map_range_page B (Some []) 0 flags (B + i * 4096)) (fun _ s'' => loading user B [] 0 B (i + 1) 64 s s'' /\ advanced user s s'' /\
    view user s'' (fun va => if decide (B <= va < B + (i + 1) * 4096) then Some 0 else None)) (grown s0) s').
  eapply wp_mono; [apply wp_and; [apply (loading_step user B [] 0 flags B i 64 s s'); (done || lia)|]| |].
  - replace (B + i * 4096) with (4096 * (B / 4096 + i)) by dmlia.
    eapply (map_range_page_view user s' _ B (Some []) 0 flags (B / 4096 + i)); [apply A|exact V|constructor|dmlia|dmlia|lia|done|lia|dmlia|].
    intros Ha. split; [by apply Hfl|]. apply (adv_path _ _ _ A _ Ha). replace (4096 * (B / 4096 + i)) with (B + i * 4096) by dmlia. apply HU; [lia|done].
  - intros [] s'' (L2 & A2 & V2). split_and!; [done|by eapply advanced_trans|]. eapply view_mono; [exact V2|].
    intros va b. unfold page_loaded, image. destruct (decide (va / 4096 = B / 4096 + i)).
    + rewrite decide_True by dmlia. by rewrite decide_False by lia.
    + destruct (decide (B <= va < B + (i + 1) * 4096)); [rewrite decide_True by dmlia; done|rewrite decide_False by dmlia; done].
  - intros s'' [K _]. apply Hg, K.
Qed.

Lemma build_space_spec s (user : bool) flags : kernel_ok s -> vm_ok s -> present (space s) = true ->
  stack_base (space s) mod 4096 = 0 -> 0x100000000 <= stack_base (space s) ->
  stack_base (space s) + 262144 <= 0x200000000 ->
  (user = true -> user_mode (space s) = true /\ Z.testbit flags 2 = true /\ area_clear s) ->
  wp (build_space flags) (fun _ s' => built user s s' /\ grown s s') (grown s) s.
Proof.
  intros KO O Hp Hmod Hlo Hhi Hu. unfold build_space. wp_step.
  eapply wp_mono; [apply (clone_spec s (kernel_cr3 s) O eq_refl), KO| |intros s' [nt T]; by eapply grown_took].
  intros [] s' (H0 & N1 & N2 & s1 & m' & T1 & C & M' & ->).
  destruct (clone_space_ok s N1 N2 s1 m' _ KO O Hp H0 T1 C M') as (S3 & R3 & K3 & U3).
  set (s3 := set_space _ _) in *.
  assert (Hg : forall s', (exists nt np, took nt np s3 s') -> grown s s').
  { intros s' (nt & np & T'). by exists [N1; N2], [], s1, m', (4096 * N1); split_and!; [done|done|exists nt, np]. }
  wp_step. wp_step. assert (Hb3 : stack_base (space s3) = stack_base (space s)).
  { destruct (grown_rest s s3) as (_ & _ & H & _); [|exact H]. apply Hg. exists [], []. apply self_took, S3. }
  rewrite Hb3. set (B := stack_base (space s)) in *. change K64_PAGE_SIZE with 4096.
  assert (E3 : ram s3 = m') by done. clearbody s3. subst m'.
  assert (HU : forall i, 0 <= i < 262144 -> user = true -> user_path (ram s3) (cr3 (space s3)) (B + i)).
  { intros i Hi Ha. rewrite R3. destruct (Hu Ha) as (Hum & _ & Hac). apply U3; [by rewrite Hum|apply service_index; lia|apply Hac; lia]. }
  apply (wp_for_loop (fun i s' => loading user B [] 0 B i 64 s3 s' /\ advanced user s3 s' /\
    view user s' (fun va => if decide (B <= va < B + i * 4096) then Some 0 else None))).
  - split; [|split; [by apply advanced_refl|]].
    + split; [eapply kept_extended, (extended_refl _ s3 s3); [apply self_took, S3|done|apply S3]|lia|].
      intros j Hj Ha. apply HU; [lia|done].
    + apply (view_mono _ _ (fun _ => None)); [apply view_empty|]. intros va b. rewrite decide_False by lia. done.
  - intros i s' Hi (H & A & V). change (0 <= i < 0 + 64) in Hi. rewrite u64_small by lia. 
    apply (build_page_spec s); [done|lia|exact Hmod|lia|unfold VA_LIMIT; lia|intros Ha; by apply Hu|exact HU|exact Hg|done|done|done].
  - intros s' ([K L _] & A & V). split; [|apply Hg, K]. change (0 + Z.of_nat (Z.to_nat K64_SERVICE_STACK_FRAMES)) with 64 in *.
    destruct (kept_space _ _ _ _ K) as (O' & Hp' & Hc'). pose proof S3 as [O3 Hp3 Hr3 _].
    assert (S' : space_ok s'). { split; [done|congruence|congruence|]. rewrite Hc'. apply K. }
    destruct (grown_rest s s' (Hg s' (kept_took _ _ _ _ K))) as (_ & _ & HB & _).
    split; [done|..]; rewrite ?HB; fold B.
    + intros i Hi. destruct (L (i / 4096) ltac:(dmlia)) as (f & _ & Ht & Hby).
      exists (4096 * f + (B + i) mod 4096). rewrite translate_walk, Hc' by apply S'. split.
      * apply Ht. unfold same_page. f_equal. dmlia.
      * rewrite Hby by (apply Z.mod_pos_bound; lia). unfold image. by rewrite decide_False by lia.
    + intros va Hva Hout. rewrite translate_walk, Hc' by apply S'. rewrite (kept_trans _ _ _ _ K), R3; [|].
      * apply K3.
      * intros (j & Hj & Hs). apply same_page_div in Hs; [|lia|unfold VA_LIMIT; lia]. dmlia.
    + exact V.
    + intros va Ha Hi Hn. apply (adv_path _ _ _ A va Ha). rewrite R3. destruct (Hu Ha) as (Hum & _). apply U3; [by rewrite Hum|done|done].
Qed.

(** ** The whole operation *)

(** No frame and no slot is taken that was free before, or the other way
    round. *)
Definition same_resources s s' : Prop := frames_ok (frames s') /\
  (forall f, 0 <= f -> busy (frames s') f = busy (frames s) f) /\ service_slot_used s' = service_slot_used s.

Lemma clear_arrays_ok s : kernel_ok s -> arrays_ok (vmm_clear_space (space s)).
Proof.
  intros [_ _ _ _ _ L1 L2]. split; cbn [vmm_clear_space page_table_frames page_table_frame_count phys_frames phys_frame_count].
  - rewrite splice_length; [done|]. rewrite zeros_length, L1. unfold TABLE_FRAMES_MAX. lia.
  - done.
  - rewrite splice_length; [done|]. rewrite zeros_length, L2. unfold PHYS_FRAMES_MAX. lia.
  - done.
Qed.

(** A space that has no frames yet. *)
Lemma empty_holds s user c base size stack ssize heap hsize slots : kernel_ok s -> length slots = 256%nat ->
  let s2 := set_space (with_layout user c base size stack ssize heap hsize (vmm_clear_space (space s))) (set_slots slots s) in
  kernel_ok s2 /\ vm_ok s2 /\ holds (frames s) [] [] s2.
Proof.
  intros KO Hl s2. pose proof (clear_arrays_ok s KO) as [L1 C1 L2 C2]. destruct KO as [F M T L _ _ _].
  assert (O2 : vm_ok s2) by (split; [done|done|by split]).
  split_and!; [by split|done|]. split; [done|done|done|constructor| |done].
  intros f H. by apply not_elem_of_nil in H.
Qed.

(** The slot of a space, and its layout. *)
Definition in_slot s s' (slot : Z) : Prop := 0 <= slot < 256 /\ slot_used s slot false /\
  service_slot_used s' = <[Z.to_nat slot := true]> (service_slot_used s) /\
  root_base (space s') = 0x100000000 + slot * 0x1000000 /\
  stack_base (space s') = root_base (space s') + 0xFC0000 /\ stack_size (space s') = 0x40000.

(** [s'] has a new space: in a slot that was free, with frames that were
    free, and mapped as [built] says. *)
Record new_space (user : bool) s s' : Prop := {
  ns_slot : exists slot, in_slot s s' slot;
  ns_frames : exists nt np, holds (frames s) nt np s';
  ns_built : built user s s'
}.

Lemma release_slot l slot sp : 0 <= slot < 256 -> l !! Z.to_nat slot = Some false ->
  root_base sp = 0x100000000 + slot * 0x1000000 -> slots_after sp (<[Z.to_nat slot := true]> l) = l.
Proof.
  intros Hs Hl Hb. unfold slots_after, slot_of. rewrite Hb.
  change K64_SERVICE_VM_BASE with 0x100000000. change K64_SERVICE_VM_STRIDE with 0x1000000.
  replace ((0x100000000 + slot * 0x1000000 - 0x100000000) / 0x1000000) with slot by dmlia.
  rewrite (proj2 (Z.leb_le _ _)) by lia. rewrite (proj2 (Z.ltb_lt _ _)) by (unfold K64_SERVICE_VM_MAX_SLOTS; lia).
  cbn [andb]. rewrite list_insert_insert_eq. by apply list_insert_id.
Qed.

(** Releasing the frames and the slot that were taken since [s]. *)
Lemma release_resources s s' slot nt np : holds (frames s) nt np s' -> present (space s') = true ->
  length (service_slot_used s) = 256%nat -> 0 <= slot < 256 -> slot_used s slot false ->
  service_slot_used s' = <[Z.to_nat slot := true]> (service_slot_used s) ->
  root_base (space s') = 0x100000000 + slot * 0x1000000 ->
  wp k64_vmm_release_service_space (fun _ => same_resources s) (fun _ => False) s'.
Proof.
  intros H Hp Hl Hs Hu Hsl Hb. eapply wp_mono; [apply (release_spec _ _ _ _ H Hp)| |done].
  - rewrite Hsl, length_insert. exact Hl.
  - intros [] s2 (p' & F & B & ->). split_and!; [done|exact B|]. cbn. rewrite Hsl. by apply release_slot.
Qed.

Lemma alloc_space_spec s pid flags (user acc : bool) : kernel_ok s -> 0 < pid ->
  (acc = true -> user = true /\ Z.testbit flags 2 = true /\ area_clear s) ->
  wp (vmm_alloc_space pid flags user) (fun _ => new_space acc s) (same_resources s) s.
Proof.
  intros KO Hpid Hu. unfold vmm_alloc_space. wp_step. wp_step. rewrite (proj2 (Z.eqb_neq pid 0)) by lia.
  change K64_SERVICE_VM_MAX_SLOTS with 256. pose proof (Z.mod_pos_bound pid 256 ltac:(lia)) as Hst.
  set (s0 := set_space _ s). wp_step. replace (pid mod 256) with (probe (pid mod 256) 0) at 2 by (unfold probe; dmlia).
  eapply wp_mono; [apply (find_slot_spec 256 s0 (pid mod 256) 0); [apply KO|done|done|done|lia]| |done].
  intros [slot|] s' [-> H]; [|wp_step; split_and!; [apply KO|done|done]].
  destruct H as [Hslot Hfree]. wp_step. wp_step. wp_step.
  eapply wp_deref; [apply setZ_Some; split; [|reflexivity]; rewrite (ko_slots s KO : length (service_slot_used s0) = _); lia|].
  wp_step. wp_step. wp_step. wp_step.
  change K64_SERVICE_VM_BASE with 0x100000000. change K64_SERVICE_VM_STRIDE with 0x1000000.
  change K64_SERVICE_VM_ROOT_SIZE with 0x1000000. change K64_SERVICE_VM_STACK_SIZE with 0x40000.
  set (base := 0x100000000 + slot * 0x1000000). rewrite !(u64_small base) by lia.
  rewrite (u64_small (base + _ - _)), (u64_small (base + _)) by lia.
  set (slots := <[Z.to_nat slot := true]> (service_slot_used s0)).
  assert (Hsl : length slots = 256%nat) by (unfold slots; rewrite length_insert; apply KO).
  destruct (empty_holds s user (cr3 (space s0)) base 0x1000000 (base + 0x1000000 - 0x40000) 0x40000 (base + 0x100000)
    K64_SERVICE_VM_HEAP_SIZE slots KO Hsl) as (KO2 & O2 & H2).
  set (s2 := set_space _ (set_slots slots s)) in *.
  change (wp (ok ← try (build_space flags); if absent ok then k64_vmm_release_service_space ;; fail else mret tt)
    (fun _ => new_space acc s) (same_resources s) s2).
  wp_step. wp_step.
  assert (Hlay : forall s', grown s2 s' -> (exists nt np, holds (frames s) nt np s') /\ present (space s') = true /\
    in_slot s s' slot).
  { intros s' G. destruct (grown_rest _ _ G) as (Hp & Hb & Hsb & Hsz & _ & Hss & _).
    split; [by apply (grown_holds _ s2)|]. split; [done|]. unfold in_slot. split_and!; [lia|lia|done|done|exact Hb|rewrite Hsb, Hb; cbn; lia|exact Hsz]. }
  eapply wp_mono; [apply (build_space_spec s2 acc flags KO2 O2 eq_refl)| |]; cbn [stack_base space s2 set_space with_layout].
  - unfold base. dmlia.
  - lia.
  - lia.
  - intros Ha. destruct (Hu Ha) as (-> & ? & ?). by split_and!.
  - intros [] s' [[S1 S2 S3 S4 S5] G]. cbn [absent]. wp_step. destruct (Hlay s' G) as (Hh & _ & Hi).
    split; [by exists slot|done|by split].
  - intros s' G. cbn [absent]. wp_step. destruct (Hlay s' G) as ((nt & np & Hh) & Hp & (_ & Hf & Hss & Hb & _)).
    eapply wp_mono; [by eapply (release_resources s s' slot); try apply KO| |done]. intros [] s3 Hr. by wp_step.
Qed.

(** C20: A new user space: in a free slot of the service area, with frames that were
    free, a stack of zeroed pages that the user program may access, and the
    kernel's translations everywhere else.  On failure no frame and no slot is
    taken. *)
Theorem k64_vmm_alloc_user_space_spec s pid : kernel_ok s -> 0 < pid -> area_clear s ->
  wp (k64_vmm_alloc_user_space pid) (fun _ => new_space true s) (same_resources s) s.
Proof. intros KO Hp Ha. by apply alloc_space_spec. Qed.

(** C21: Allocating a space of any kind and releasing it leaves the busy frames and
    the used slots as they were, and so does an allocation that fails. *)
Theorem alloc_release_no_leak s pid flags user : kernel_ok s -> 0 <= pid ->
  wp (vmm_alloc_space pid flags user ;; k64_vmm_release_service_space)
    (fun _ => same_resources s) (same_resources s) s.
Proof.
  intros KO Hpid. wp_step. destruct (decide (pid = 0)) as [->|Hne].
  - unfold vmm_alloc_space. wp_step. wp_step. rewrite Z.eqb_refl. wp_step.
    destruct (empty_holds s false (kernel_cr3 s) 0 0x40000000 0 0 0 0 _ KO (ko_slots s KO)) as (_ & _ & H).
    set (s2 := set_space _ (set_slots _ s)) in H.
    replace (set_space _ _) with s2 by (by destruct s).
    eapply wp_mono; [apply (release_spec _ _ _ _ H eq_refl), KO| |done].
    intros [] s' (p' & F & B & ->). by split_and!.
  - eapply wp_mono; [apply (alloc_space_spec s pid flags user false); [done|lia|done]| |done].
    intros [] s' [(slot & Hs & Hf & Hsl & Hb & _) (nt & np & H) [S _ _ _ _]].
    eapply wp_mono; [by eapply release_resources; [exact H|apply S|apply KO|..]|done|done].
Qed.
End alloc.
