(* ===== verification/VmmWitness.v ===== *)
(** * The theorems on address spaces applied

    A machine with 256 page frames: frames 0 to 2 and frame 7 are busy, frame 1
    is the kernel's root table, whose first entry points to frame 2, and the
    other tables are empty. *)
From Stdlib Require Import ZArith Lia.
From stdpp Require Import base list gmap.
From S2P Require Import Prelude Bitmap Exec Mem Pmm PmmSpec Frames Vmm VmmWalk VmmSpec VmmMap VmmUser VmmLoad VmmClone VmmAlloc.

Definition machine_frames : pmm := mk_pmm (0x87 :: zeros (Nat.pred PMM_BITMAP_BYTES)) 256 4.
Definition machine_ram : mem := store64 ∅ (4096 + 8 * 0) 0x2003.
Definition blank : k64_vm_space_t := mk_space false false 0 0 0 0 0 0 0
  (zeros (Z.to_nat TABLE_FRAMES_MAX)) 0 (zeros (Z.to_nat PHYS_FRAMES_MAX)) 0.
Definition machine : vmm pmm := mk_vmm machine_frames machine_ram blank (replicate 256 false) 4096 blank
  K64_MMIO_BASE 4096.
(** A space that has the empty table in frame 2 as its root. *)
Definition own_space : k64_vm_space_t := with_layout true 0x2000 0x100000000 0x1000000 0 0 0 0 blank.
Definition with_space : vmm pmm := set_space own_space machine.

Lemma machine_frames_ok : frames_ok machine_frames.
Proof.
  split; [|reflexivity]. split; cbn [pmm_bitmap total_frames used_frames machine_frames].
  - cbn [length]. rewrite zeros_length. assert (0 < PMM_BITMAP_BYTES)%nat; [|lia].
    pose proof bitmap_bytes. rewrite max_frames in *. lia.
  - apply Forall_cons_2; [by vm_compute|apply zeros_bytes_ok].
  - lia.
  - lia.
Qed.

Lemma machine_ram_ok : mem_ok machine_ram.
Proof. apply store64_ok. intros a. by vm_compute. Qed.

Lemma empty_entry t i : entry_at ∅ t i = 0.
Proof.
  unfold entry_at, load64. assert (E : load_bytes ∅ (t + 8 * i) 8 = zeros 8) by reflexivity. rewrite E. by vm_compute.
Qed.

Lemma machine_entry t i : t = 4096 \/ t = 8192 -> 0 <= i < 512 ->
  entry_at machine_ram t i = if decide (4096 = t /\ 0 = i) then 0x2003 else 0.
Proof.
  intros Ht Hi. unfold machine_ram. rewrite entry_put by (unfold word; lia). case_decide; [done|]. apply empty_entry.
Qed.

Lemma empty_table va k t : t = 8192 -> child machine_ram k t (idx k va) = None.
Proof.
  intros ->. unfold child. pose proof (idx_range k va). rewrite machine_entry by lia. by rewrite decide_False by lia.
Qed.

(** The tables of the two roots. *)
Lemma kernel_tbl va k : tbl machine_ram 4096 va k =
  match k with O => Some 4096 | 1%nat => if idx 0 va =? 0 then Some 8192 else None | _ => None end.
Proof.
  assert (H1 : tbl machine_ram 4096 va 1 = if idx 0 va =? 0 then Some 8192 else None).
  { rewrite (tbl_next _ _ _ _ _ (eq_refl : tbl machine_ram 4096 va 0 = Some 4096)). unfold child.
    pose proof (idx_range 0 va). rewrite machine_entry by lia.
    destruct (Z.eqb_spec (idx 0 va) 0) as [->|]; [by vm_compute|]. by rewrite decide_False by lia. }
  destruct k as [|[|k]]; [done|done|]. induction k as [|k IH]; [|by apply tbl_none].
  destruct (idx 0 va =? 0); [|by apply tbl_none]. rewrite (tbl_next _ _ _ _ _ H1). by apply empty_table.
Qed.

Lemma own_tbl va k : tbl machine_ram 8192 va k = match k with O => Some 8192 | _ => None end.
Proof.
  induction k as [|[|k] IH]; [done| |by apply tbl_none].
  rewrite (tbl_next _ _ _ _ _ IH). by apply empty_table.
Qed.

Lemma kernel_tables : tables_ok machine_ram 4096 (busy machine_frames).
Proof.
  split.
  - intros va k t Hk Ht. rewrite kernel_tbl in Ht. destruct k as [|[|k]]; [| |done].
    + injection Ht as <-. by exists 1.
    + destruct (idx 0 va =? 0); [|done]. injection Ht as <-. by exists 2.
  - intros va va' k k' t Hk Hk' Ht Ht'. rewrite kernel_tbl in Ht, Ht'.
    destruct k as [|[|k]], k' as [|[|k']]; try done.
    + split; [done|]. intros j Hj. lia.
    + destruct (idx 0 va' =? 0); congruence.
    + destruct (idx 0 va =? 0); congruence.
    + destruct (Z.eqb_spec (idx 0 va) 0), (Z.eqb_spec (idx 0 va') 0); try done. split; [done|]. intros j Hj.
      replace j with 0%nat by lia. congruence.
Qed.

Lemma machine_low r : r = 4096 \/ r = 8192 -> low_giants machine_ram r.
Proof.
  intros Hr va t Ht. assert (t = 8192) as ->.
  { destruct Hr as [->| ->]; [rewrite kernel_tbl in Ht|by rewrite own_tbl in Ht]. destruct (idx 0 va =? 0); congruence. }
  pose proof (idx_range 1 va). rewrite machine_entry by lia. rewrite decide_False by lia. by intros [=].
Qed.

Lemma machine_kernel_ok : kernel_ok machine.
Proof.
  split; [exact machine_frames_ok|exact machine_ram_ok|exact kernel_tables|apply machine_low; by left|..].
  - reflexivity.
  - apply zeros_length.
  - apply zeros_length.
Qed.

Lemma machine_area_clear : area_clear machine.
Proof. intros va _. apply (kernel_tbl va 2). Qed.

Lemma with_space_ok : space_ok with_space.
Proof.
  split; [split|reflexivity|discriminate|split].
  - exact machine_frames_ok.
  - exact machine_ram_ok.
  - split; [apply zeros_length|by vm_compute|apply zeros_length|by vm_compute].
  - split.
    + intros va k t Hk Ht. cbn in Ht. rewrite own_tbl in Ht. destruct k; [|done]. injection Ht as <-. by exists 2.
    + intros va va' k k' t Hk Hk' Ht Ht'. cbn in Ht, Ht'. rewrite own_tbl in Ht, Ht'.
      destruct k, k'; try done. split; [done|]. intros j Hj. lia.
  - apply machine_low. by right.
Qed.

Lemma with_space_user va : user_path (ram with_space) 8192 va.
Proof.
  intros k t Hk Ht. cbn in *. rewrite own_tbl in Ht. destruct k; [|done]. injection Ht as <-.
  intros H. exfalso. apply H. by apply empty_table.
Qed.

(** ** A page of the user program *)

(** The state after frame 7 has been mapped at address 4096 for the user. *)
Definition with_page : vmm pmm :=
  match vmm_map_page 4096 (4096 * 7) 6 with_space with Ret _ s => s | _ => with_space end.

Definition returned {S A} (o : outcome S A) : bool := match o with Ret _ _ => true | _ => false end.

Lemma map_page_returns : returned (vmm_map_page 4096 (4096 * 7) 6 with_space) = true.
Proof. vm_compute. reflexivity. Qed.

Lemma with_page_mapped : mapped 8192 4096 7 6 with_space with_page.
Proof.
  pose proof with_space_ok as [O Hp Hr PG].
  pose proof (map_page_spec 8192 with_space 4096 7 6 O Hp eq_refl Hr PG ltac:(lia)) as H.
  pose proof map_page_returns as R. unfold with_page, wp in *.
  destruct (vmm_map_page 4096 (4096 * 7) 6 with_space) as [[] s'| |]; [exact H|discriminate R..].
Qed.

Lemma with_page_data : data_frame with_page 8192 7.
Proof.
  apply (map_data _ _ _ _ _ _ with_page_mapped 7). split_and!; [lia|reflexivity|].
  intros va k t Hk Ht. cbn in Ht. rewrite own_tbl in Ht. destruct k; [|done]. by injection Ht as <-.
Qed.

Lemma with_page_space : space_ok with_page /\ cr3 (space with_page) = 8192.
Proof.
  pose proof with_page_mapped as H. destruct (map_took _ _ _ _ _ _ H) as [nt T].
  destruct (took_space _ _ _ _ T) as (Hp & Hc & _). split; [|exact Hc].
  split; [apply T|exact Hp|rewrite Hc; discriminate|rewrite Hc; apply H].
Qed.

Lemma with_page_translate va : 4096 <= va < 8192 ->
  vmm_translate (ram with_page) (space with_page) va true = Some (28672 + va mod 4096).
Proof.
  intros Hva. destruct with_page_space as [[_ Hp Hr _] Hc]. rewrite translate_walk by assumption. rewrite Hc.
  apply (map_user _ _ _ _ _ _ with_page_mapped va); [unfold same_page; f_equal; dmlia|done|apply with_space_user].
Qed.

Lemma with_page_writable : writable_range with_page 4196 5.
Proof.
  destruct with_page_space as [S Hc]. split.
  - intros i phys Hi. rewrite with_page_translate by lia. intros [= <-] (va & k & t & Hk & Ht & Ha).
    destruct (tables_frame _ _ _ (pg_tables _ _ (space_paged _ S)) va k t Hk Ht) as (f & -> & _ & _).
    rewrite Hc in Ht. pose proof (proj2 (proj2 with_page_data) va k _ Hk Ht).
    pose proof (Z.mod_pos_bound (4196 + i) 4096). lia.
  - intros i j phys Hi Hj. rewrite !with_page_translate by lia. intros [= <-] H. injection H as H. dmlia.
Qed.

Lemma vmm_map_page_translation_witness : exists s', vmm_map_page 4096 (4096 * 7) 6 with_space = Ret tt s' /\
  vmm_translate (ram s') (space s') 4106 true = Some (28672 + 10).
Proof.
  pose proof (vmm_map_page_translation with_space 4096 7 6 with_space_ok ltac:(lia)) as H.
  pose proof map_page_returns as R. unfold wp in H.
  destruct (vmm_map_page 4096 (4096 * 7) 6 with_space) as [[] s'| |]; [|discriminate R..].
  exists s'. split; [reflexivity|]. destruct H as [_ H]. specialize (H 4106). rewrite decide_True in H by reflexivity.
  apply (proj1 (proj2 H)). exact (conj eq_refl (with_space_user 4096)).
Defined.

Lemma k64_vmm_read_user_spec_witness :
  wp (k64_vmm_read_user 4196 5) (fun '(ok, out) s' => s' = with_page /\
    if ok : bool then Z.of_nat (length out) = 5 /\ forall i b, out !! i = Some b -> user_byte with_page (4196 + Z.of_nat i) b
    else 18446744073709551616 < 4196 + 5 \/
      exists i, 0 <= i < 5 /\ vmm_translate (ram with_page) (space with_page) (4196 + i) true = None)
    (fun _ => False) with_page.
Proof.
  refine (k64_vmm_read_user_spec with_page 4196 5 _ ltac:(lia) ltac:(lia)).
  apply (vm_mem _ (space_vm _ (proj1 with_page_space))).
Defined.

Lemma hello_bytes : bytes_ok [72; 101; 108; 108; 111].
Proof. repeat constructor; unfold byte_ok; lia. Qed.

Lemma write_then_read_user_witness : exists s',
  (k64_vmm_write_user 4196 (Some [72; 101; 108; 108; 111]) 5 ;; k64_vmm_read_user 4196 5) with_page =
    Ret (true, [72; 101; 108; 108; 111]) s'.
Proof.
  pose proof (write_then_read_user with_page 4196 [72; 101; 108; 108; 111]
    (vm_mem _ (space_vm _ (proj1 with_page_space))) with_page_writable hello_bytes ltac:(lia) ltac:(cbn [length]; lia)) as H.
  unfold wp in H. change (Z.of_nat (length [72; 101; 108; 108; 111])) with 5 in H.
  destruct ((k64_vmm_write_user 4196 (Some [72; 101; 108; 108; 111]) 5 ;; k64_vmm_read_user 4196 5) with_page) as [r s'|s'|].
  - exists s'. destruct H as [-> _]. reflexivity.
  - destruct H as [(i & Hi & Ht) _]. rewrite with_page_translate in Ht by lia. discriminate Ht.
  - destruct H.
Defined.

(** ** A program image, and a whole space *)
Lemma load_returns : returned (k64_vmm_map_user_range 0x100001000 (Some [1; 2; 3]) 3 5000 with_space) = true.
Proof. vm_compute. reflexivity. Qed.

Lemma map_user_range_loads_witness : exists s',
  k64_vmm_map_user_range 0x100001000 (Some [1; 2; 3]) 3 5000 with_space = Ret tt s' /\
  user_byte s' (0x100001000 + 2) 3 /\ user_byte s' (0x100001000 + 4096) 0.
Proof.
  assert (Hd : bytes_ok [1; 2; 3]) by (repeat constructor; unfold byte_ok; lia).
  pose proof (map_user_range_loads with_space 0x100001000 [1; 2; 3] 3 5000 with_space_ok Hd ltac:(lia)
    ltac:(cbn [length]; lia) ltac:(lia) ltac:(lia) ltac:(unfold VA_LIMIT; lia) (fun va _ => with_space_user va)) as H.
  pose proof load_returns as R. unfold wp in H.
  destruct (k64_vmm_map_user_range 0x100001000 (Some [1; 2; 3]) 3 5000 with_space) as [[] s'| |]; [|discriminate R..].
  exists s'. split; [reflexivity|]. destruct H as (_ & _ & H). split; [apply (H 2)|apply (H 4096)]; lia.
Defined.

Lemma alloc_returns : returned (k64_vmm_alloc_user_space 7 machine) = true.
Proof. vm_compute. reflexivity. Qed.

Lemma k64_vmm_alloc_user_space_spec_witness : exists s',
  k64_vmm_alloc_user_space 7 machine = Ret tt s' /\ new_space true machine s'.
Proof.
  pose proof (k64_vmm_alloc_user_space_spec machine 7 machine_kernel_ok ltac:(lia) machine_area_clear) as H.
  pose proof alloc_returns as R. unfold wp in H.
  destruct (k64_vmm_alloc_user_space 7 machine) as [[] s'| |]; [|discriminate R..].
  exists s'. split; [reflexivity|exact H].
Defined.

Lemma alloc_release_no_leak_witness :
  wp (vmm_alloc_space 7 6 true ;; k64_vmm_release_service_space)
    (fun _ => same_resources machine) (same_resources machine) machine.
Proof. exact (alloc_release_no_leak machine 7 6 true machine_kernel_ok ltac:(lia)). Defined.
