(* ===== verification/Sched.v ===== *)
(** * The scheduler ([k64_sched.c], [k64_sched.h])

    Tasks are linked in a ring through their [next] pointers; the timer
    interrupt accounts ticks and switches to the ready task with the highest
    score.  A task is found at its address; [0] is [NULL], and following a
    pointer to no task is undefined behaviour.  Page frames come from the
    allocator interface of [Frames].  The tick counter of [k64_pit.c] and the
    register CR3 are part of the state; [user_active] is what
    [k64_usermode_is_active()] answers.  The acknowledgement of the interrupt
    and log output are left out. *)
From Stdlib Require Import ZArith Lia.
From stdpp Require Import base list gmap.
From S2P Require Import Prelude Exec Mem Pmm PmmSpec Frames.

Definition K64_TASK_STACK_FRAMES : Z := 4.
Definition K64_TASK_STACK_SIZE : Z := 4096 * K64_TASK_STACK_FRAMES.
Definition K64_DEFAULT_TIMESLICE : Z := 2.
Definition K64_MAX_PRIORITY : Z := 5.

Inductive k64_task_state_t : Set :=
  | K64_TASK_STATE_UNUSED
  | K64_TASK_STATE_READY
  | K64_TASK_STATE_RUNNING
  | K64_TASK_STATE_BLOCKED
  | K64_TASK_STATE_ZOMBIE.

#[global] Instance task_state_eq : EqDecision k64_task_state_t.
Proof. solve_decision. Defined.

Record k64_task_t := mk_task {
  id : Z;
  rsp : Z;
  cr3 : Z;
  sleep_until_tick : Z;
  stack_frame : Z;
  state : k64_task_state_t;
  priority : Z;
  base_timeslice : Z;
  remaining_ticks : Z;
  runtime_ticks : Z;
  wait_ticks : Z;
  next : Z
}.

(** [t->field = v] *)
Definition set_rsp v t := mk_task (id t) v (cr3 t) (sleep_until_tick t) (stack_frame t) (state t)
  (priority t) (base_timeslice t) (remaining_ticks t) (runtime_ticks t) (wait_ticks t) (next t).
Definition set_sleep v t := mk_task (id t) (rsp t) (cr3 t) v (stack_frame t) (state t)
  (priority t) (base_timeslice t) (remaining_ticks t) (runtime_ticks t) (wait_ticks t) (next t).
Definition set_stack v t := mk_task (id t) (rsp t) (cr3 t) (sleep_until_tick t) v (state t)
  (priority t) (base_timeslice t) (remaining_ticks t) (runtime_ticks t) (wait_ticks t) (next t).
Definition set_state v t := mk_task (id t) (rsp t) (cr3 t) (sleep_until_tick t) (stack_frame t) v
  (priority t) (base_timeslice t) (remaining_ticks t) (runtime_ticks t) (wait_ticks t) (next t).
Definition set_remaining v t := mk_task (id t) (rsp t) (cr3 t) (sleep_until_tick t) (stack_frame t) (state t)
  (priority t) (base_timeslice t) v (runtime_ticks t) (wait_ticks t) (next t).
Definition set_runtime v t := mk_task (id t) (rsp t) (cr3 t) (sleep_until_tick t) (stack_frame t) (state t)
  (priority t) (base_timeslice t) (remaining_ticks t) v (wait_ticks t) (next t).
Definition set_wait v t := mk_task (id t) (rsp t) (cr3 t) (sleep_until_tick t) (stack_frame t) (state t)
  (priority t) (base_timeslice t) (remaining_ticks t) (runtime_ticks t) v (next t).
Definition set_next v t := mk_task (id t) (rsp t) (cr3 t) (sleep_until_tick t) (stack_frame t) (state t)
  (priority t) (base_timeslice t) (remaining_ticks t) (runtime_ticks t) (wait_ticks t) v.

Record sched (P : Type) := mk_sched {
  current_task : Z;
  task_list : Z;
  next_task_id : Z;
  tasks : gmap Z k64_task_t;
  stacks : mem;
  frames : P;
  cr3_register : Z;
  k64_ticks : Z;
  user_active : bool
}.
Arguments mk_sched {P}.
Arguments current_task {P}.
Arguments task_list {P}.
Arguments next_task_id {P}.
Arguments tasks {P}.
Arguments stacks {P}.
Arguments frames {P}.
Arguments cr3_register {P}.
Arguments k64_ticks {P}.
Arguments user_active {P}.

Definition clamp_priority (p : Z) : Z :=
  let p := if p <? 0 then 0 else p in
  if K64_MAX_PRIORITY <? p then K64_MAX_PRIORITY else p.

Definition timeslice_for_priority (p : Z) : Z := u32 (K64_DEFAULT_TIMESLICE + u32 (clamp_priority p)).

Definition is_state (x : k64_task_state_t) (t : k64_task_t) : bool := bool_decide (state t = x).

(** One task in the loop of [on_tick_accounting]. *)
Definition account (now current a : Z) (t : k64_task_t) : k64_task_t :=
  let t := if is_state K64_TASK_STATE_BLOCKED t && negb (sleep_until_tick t =? 0) &&
              (sleep_until_tick t <=? now)
           then set_sleep 0 (set_state K64_TASK_STATE_READY t) else t in
  if (a =? current) && is_state K64_TASK_STATE_RUNNING t then set_runtime (u64 (runtime_ticks t + 1)) t
  else if is_state K64_TASK_STATE_READY t then set_wait (u64 (wait_ticks t + 1)) t
  else t.

Definition score (t : k64_task_t) : Z := u64 (u64 (u32 (priority t) * 1024) + wait_ticks t).

(** One task in the loop of [pick_next_rsp]. *)
Definition consider (a : Z) (t : k64_task_t) (sel : option (Z * Z)) : option (Z * Z) :=
  if negb (id t =? 0) && is_state K64_TASK_STATE_READY t then
    match sel with
    | Some (_, best) => if best <? score t then Some (a, score t) else sel
    | None => Some (a, score t)
    end
  else sel.

(** The words that [build_initial_stack] pushes, in order. *)
Definition initial_words (task_return entry arg : Z) : list Z :=
  [task_return; 0x202; 0x08; entry; 0; 0; 0; 0; 0; 0; arg; 0; 0; 0; 0; 0; 0; 0; 0].

(** [*--sp = word;] for each of them *)
Fixpoint push_words (m : mem) (sp : Z) (ws : list Z) : mem * Z :=
  match ws with
  | [] => (m, sp)
  | w :: ws => push_words (store64 m (sp - 8) w) (sp - 8) ws
  end.

Section sched.
Context {P : Type} `{!FrameAllocator P}.
Abbreviation st := (sched P).
Implicit Types s : st.

Definition set_current a s := mk_sched a (task_list s) (next_task_id s) (tasks s) (stacks s) (frames s)
  (cr3_register s) (k64_ticks s) (user_active s).
Definition set_next_id n s := mk_sched (current_task s) (task_list s) n (tasks s) (stacks s) (frames s)
  (cr3_register s) (k64_ticks s) (user_active s).
Definition set_tasks ts s := mk_sched (current_task s) (task_list s) (next_task_id s) ts (stacks s) (frames s)
  (cr3_register s) (k64_ticks s) (user_active s).
Definition set_stacks m s := mk_sched (current_task s) (task_list s) (next_task_id s) (tasks s) m (frames s)
  (cr3_register s) (k64_ticks s) (user_active s).
Definition set_frames (p : P) s := mk_sched (current_task s) (task_list s) (next_task_id s) (tasks s) (stacks s) p
  (cr3_register s) (k64_ticks s) (user_active s).
Definition set_cr3 c s := mk_sched (current_task s) (task_list s) (next_task_id s) (tasks s) (stacks s) (frames s)
  c (k64_ticks s) (user_active s).
Definition set_ticks n s := mk_sched (current_task s) (task_list s) (next_task_id s) (tasks s) (stacks s) (frames s)
  (cr3_register s) n (user_active s).

(** [*task] *)
Definition get_task (a : Z) : M st k64_task_t := fun s => deref (tasks s !! a) s.
(** [task->field = ...] *)
Definition upd_task (a : Z) (f : k64_task_t -> k64_task_t) : M st unit := fun s =>
  (t ← deref (tasks s !! a); modify (set_tasks (<[a := f t]> (tasks s)))) s.

Definition on_frames {A} (m : M P A) : M st A := zoom frames set_frames m.

Definition k64_pit_get_ticks : M st Z := gets k64_ticks.
Definition k64_pit_on_tick : M st unit := modify (fun s => set_ticks (u64 (k64_ticks s + 1)) s).
Definition read_cr3 : M st Z := gets cr3_register.
Definition write_cr3 (value : Z) : M st unit := modify (set_cr3 value).

(** [task = task_list; do { body } while (task && task != task_list);] with the
    variables that the body assigns. *)
Fixpoint ring_loop {A} (fuel : nat) (a : Z) (x : A) (body : Z -> A -> M st A) : M st A :=
  match fuel with
  | O => ub
  | S fuel =>
      x ← body a x;
      t ← get_task a;
      first ← gets task_list;
      if (next t =? 0) || (next t =? first) then mret x
      else ring_loop fuel (next t) x body
  end.
(** No ring is longer than the number of tasks. *)
Definition ring_fuel s : nat := size (tasks s).

Definition on_tick_accounting : M st unit := fun s =>
  if task_list s =? 0 then Ret tt s
  else
    ring_loop (ring_fuel s) (task_list s) tt
      (fun a _ => upd_task a (account (k64_ticks s) (current_task s) a)) s.

Definition k64_task_exit_current : M st unit :=
  c ← gets current_task;
  if c =? 0 then mret tt else upd_task c (set_state K64_TASK_STATE_ZOMBIE).

(** [bootstrap] is a static variable. *)
Definition bootstrap_task (bootstrap cr3 : Z) : k64_task_t :=
  mk_task 0 0 cr3 0 0 K64_TASK_STATE_RUNNING 0 K64_DEFAULT_TIMESLICE K64_DEFAULT_TIMESLICE 0 0 bootstrap.

Definition k64_sched_init (bootstrap : Z) : M st unit := modify (fun s =>
  mk_sched bootstrap bootstrap (next_task_id s)
    (<[bootstrap := bootstrap_task bootstrap (cr3_register s)]> (tasks s)) (stacks s) (frames s)
    (cr3_register s) (k64_ticks s) (user_active s)).

(** [task_return] is the address of [k64_task_return_asm]. *)
Definition build_initial_stack (task_return t entry arg : Z) : M st bool :=
  stack_base ← on_frames (pmm_alloc_contiguous K64_TASK_STACK_FRAMES);
  if stack_base =? 0 then mret false
  else
    m ← gets stacks;
    let '(m', sp) := push_words m (stack_base + K64_TASK_STACK_SIZE)
                       (initial_words task_return entry arg) in
    modify (set_stacks m') ;;
    upd_task t (set_rsp sp) ;;
    upd_task t (set_stack stack_base) ;;
    mret true.

Definition k64_task_create_arg (task_return entry arg prio space : Z) : M st Z :=
  t ← on_frames pmm_alloc_frame;
  if t =? 0 then mret 0
  else
    n ← gets next_task_id;
    modify (set_next_id (u64 (n + 1))) ;;
    reg ← read_cr3;
    let prio := clamp_priority prio in
    modify (fun s => set_tasks (<[t := mk_task n 0 (if space =? 0 then reg else space) 0 0
      K64_TASK_STATE_READY prio (timeslice_for_priority prio) (timeslice_for_priority prio) 0 0 0]>
      (tasks s)) s) ;;
    ok ← build_initial_stack task_return t entry arg;
    if negb ok then on_frames (pmm_free_frame t) ;; mret 0
    else
      c ← gets current_task;
      cur ← get_task c;
      upd_task t (set_next (next cur)) ;;
      upd_task c (set_next t) ;;
      mret t.

Definition k64_task_create_ex (task_return entry prio : Z) : M st Z :=
  k64_task_create_arg task_return entry 0 prio 0.
Definition k64_task_create (task_return entry : Z) : M st Z := k64_task_create_ex task_return entry 1.

(** The loop of [pick_next_rsp]: the best ready task and its score. *)
Definition select_task : M st (option (Z * Z)) := fun s =>
  ring_loop (ring_fuel s) (task_list s) None
    (fun a sel => t ← get_task a; mret (consider a t sel)) s.

(** From the choice on. *)
Definition switch_to (selected : Z) : M st Z :=
  upd_task selected (fun t => set_wait 0 (set_remaining (base_timeslice t) (set_state K64_TASK_STATE_RUNNING t))) ;;
  modify (set_current selected) ;;
  t ← get_task selected;
  reg ← read_cr3;
  let target := if cr3 t =? 0 then reg else cr3 t in
  (if target =? reg then mret tt else write_cr3 target) ;;
  mret (rsp t).

Definition pick_next_rsp : M st Z :=
  c ← gets current_task;
  if c =? 0 then mret 0
  else
    cur ← get_task c;
    if next cur =? 0 then mret (rsp cur)
    else
      (if is_state K64_TASK_STATE_RUNNING cur then upd_task c (set_state K64_TASK_STATE_READY) else mret tt) ;;
      sel ← select_task;
      first ← gets task_list;
      switch_to (match sel with Some (a, _) => a | None => first end).

Definition k64_sched_handle_timer (old_rsp : Z) : M st Z :=
  user ← gets user_active;
  if user : bool then k64_pit_on_tick ;; mret old_rsp
  else
    c ← gets current_task;
    (if c =? 0 then mret tt else upd_task c (set_rsp old_rsp)) ;;
    k64_pit_on_tick ;;
    on_tick_accounting ;;
    if c =? 0 then pick_next_rsp
    else
      t ← get_task c;
      if negb (is_state K64_TASK_STATE_RUNNING t) then pick_next_rsp
      else if id t =? 0 then pick_next_rsp
      else
        (if 0 <? remaining_ticks t then upd_task c (fun t => set_remaining (remaining_ticks t - 1) t)
         else mret tt) ;;
        t ← get_task c;
        if remaining_ticks t =? 0 then pick_next_rsp else mret (rsp t).

Definition k64_sched_yield : M st unit :=
  c ← gets current_task;
  if c =? 0 then mret tt else upd_task c (set_remaining 0).

Definition k64_sched_sleep (n : Z) : M st unit :=
  c ← gets current_task;
  if c =? 0 then mret tt
  else
    t ← get_task c;
    if id t =? 0 then mret tt
    else
      now ← k64_pit_get_ticks;
      upd_task c (fun t => set_remaining 0 (set_state K64_TASK_STATE_BLOCKED
        (set_sleep (u64 (now + (if n =? 0 then 1 else n))) t))).

Definition k64_sched_block_current : M st unit :=
  c ← gets current_task;
  if c =? 0 then mret tt
  else
    t ← get_task c;
    if id t =? 0 then mret tt
    else upd_task c (fun t => set_remaining 0 (set_state K64_TASK_STATE_BLOCKED (set_sleep 0 t))).

Definition k64_sched_wake_task (a : Z) : M st unit :=
  if a =? 0 then mret tt
  else
    t ← get_task a;
    if negb (is_state K64_TASK_STATE_BLOCKED t) then mret tt
    else upd_task a (fun t => set_state K64_TASK_STATE_READY (set_sleep 0 t)).

Definition k64_task_stop (a : Z) : M st unit :=
  if a =? 0 then mret tt
  else
    t ← get_task a;
    if id t =? 0 then mret tt
    else upd_task a (fun t => set_remaining 0 (set_state K64_TASK_STATE_ZOMBIE t)).

Definition k64_sched_current_task : M st Z := gets current_task.
End sched.
