(* ===== verification/SchedSpec.v ===== *)
(** * The scheduler is correct

    The tasks form a ring that every operation preserves; its loops visit each
    task once and end; only the current task is running; a tick accounts every
    task; the task chosen is the first one in the ring with the highest score;
    a new task starts with the stack frame that the interrupt return expects. *)
From Stdlib Require Import ZArith Lia.
From stdpp Require Import base list gmap fin_maps.
From S2P Require Import Prelude Exec Mem Pmm PmmSpec Frames Sched.

(** [l] linked by [nx], its last element to [e]. *)
Fixpoint chain (nx : Z -> option Z) (l : list Z) (e : Z) : Prop :=
  match l with
  | [] => True
  | a :: l => nx a = Some (match l with b :: _ => b | [] => e end) /\ chain nx l e
  end.

Lemma chain_ext nx nx' l e : (forall a, a ∈ l -> nx' a = nx a) -> chain nx l e -> chain nx' l e.
Proof.
  induction l as [|a l IH]; intros H; [done|]. cbn [chain]. intros [H1 H2].
  split; [rewrite H; [done|by left]|]. apply IH; [|done]. intros b Hb. apply H. by right.
Qed.

Lemma chain_app nx l1 a l2 e : chain nx (l1 ++ a :: l2) e <-> chain nx l1 a /\ chain nx (a :: l2) e.
Proof.
  induction l1 as [|b l1 IH]; [cbn; tauto|]. cbn [app chain] in *. rewrite IH.
  destruct l1; cbn [app]; tauto.
Qed.

Section spec.
Context {P : Type} `{!FrameAllocator P}.
Abbreviation st := (sched P).
Implicit Types (s : st) (t : k64_task_t) (l : list Z).

Definition nx s (a : Z) : option Z := next <$> tasks s !! a.

Record ring s l : Prop := {
  rg_head : hd_error l = Some (task_list s);
  rg_nodup : NoDup l;
  rg_null : 0 ∉ l;
  rg_chain : chain (nx s) l (task_list s)
}.

Definition same_links s s' : Prop := task_list s' = task_list s /\ forall a, nx s' a = nx s a.

Lemma same_links_refl s : same_links s s.
Proof. done. Qed.
Lemma same_links_trans s1 s2 s3 : same_links s1 s2 -> same_links s2 s3 -> same_links s1 s3.
Proof. intros [H1 H2] [H3 H4]. split; [congruence|]. intros a. by rewrite H4. Qed.

Lemma ring_member s l a : ring s l -> a ∈ l -> exists t, tasks s !! a = Some t.
Proof.
  intros [_ _ _ Hc] (l1 & l2 & ->)%list_elem_of_split. apply chain_app in Hc as [_ Hc].
  cbn [chain] in Hc. destruct Hc as [Hc _]. unfold nx in Hc.
  destruct (tasks s !! a) as [t|]; [by exists t|done].
Qed.

Lemma ring_fuel_enough s l : ring s l -> (length l <= ring_fuel s)%nat.
Proof.
  intros R. unfold ring_fuel. rewrite <- (size_list_to_set (C := gset Z) l) by apply R.
  rewrite <- size_dom. apply subseteq_size. intros a Ha%elem_of_list_to_set.
  destruct (ring_member s l a R Ha) as [t Ht]. by apply elem_of_dom_2 in Ht.
Qed.

(** The loop rule: the invariant is indexed by the tasks visited. *)
Lemma wp_ring_loop_from {A} (I : list Z -> A -> st -> Prop) pre a suf fuel x body Q E s :
  ring s (pre ++ a :: suf) -> (length (a :: suf) <= fuel)%nat -> I pre x s ->
  (forall pre' b suf' x s', pre ++ a :: suf = pre' ++ b :: suf' -> same_links s s' -> I pre' x s' ->
     wp (body b x) (fun x' s'' => I (pre' ++ [b]) x' s'' /\ same_links s' s'') E s') ->
  (forall x s', same_links s s' -> I (pre ++ a :: suf) x s' -> Q x s') ->
  wp (ring_loop fuel a x body) Q E s.
Proof.
  revert pre a fuel x s. induction suf as [|b suf IH]; intros pre a fuel x s R Hf Hi Hb HQ;
    (destruct fuel as [|fuel]; [cbn in Hf; lia|]); cbn [ring_loop]; apply wp_bind.
  - eapply wp_mono; [by eapply Hb| |done]. intros x1 s1 [Hi1 Hl1].
    destruct R as [_ _ Hn Hc]. apply chain_app in Hc as [_ [Hc _]].
    destruct Hl1 as [Htl Hnx]. specialize (Hnx a) as Ha. rewrite Hc in Ha. unfold nx in Ha.
    apply wp_bind. unfold wp at 1, get_task. destruct (tasks s1 !! a) as [t|] eqn:Ht; [|done].
    cbn in Ha. injection Ha as Ha. apply wp_bind, wp_gets. rewrite Ha, Htl, Z.eqb_refl, orb_true_r.
    apply wp_ret. by apply HQ.
  - eapply wp_mono; [by eapply Hb| |done]. intros x1 s1 [Hi1 Hl1].
    assert (R' := R). destruct R' as [_ Hnd Hn Hc]. apply chain_app in Hc as [_ [Hc _]].
    assert (Hl2 := Hl1). destruct Hl2 as [Htl Hnx]. specialize (Hnx a) as Ha. rewrite Hc in Ha. unfold nx in Ha.
    apply wp_bind. unfold wp at 1, get_task. destruct (tasks s1 !! a) as [t|] eqn:Ht; [|done].
    cbn in Ha. injection Ha as Ha. apply wp_bind, wp_gets. rewrite Ha, Htl.
    assert (Hb0 : b <> 0). { intros ->. apply Hn. rewrite elem_of_app, !elem_of_cons. tauto. }
    assert (Hbf : b <> task_list s).
    { destruct R as [Hh _ _ _]. destruct pre as [|c pre]; cbn in Hh; injection Hh as <-.
      - apply NoDup_cons in Hnd as [Hnd _]. intros ->. apply Hnd. by left.
      - apply NoDup_cons in Hnd as [Hnd _]. intros ->. apply Hnd. rewrite elem_of_app, !elem_of_cons. tauto. }
    rewrite (proj2 (Z.eqb_neq b 0)), (proj2 (Z.eqb_neq b _)) by done. cbn [orb].
    assert (Hassoc : (pre ++ [a]) ++ b :: suf = pre ++ a :: b :: suf) by (by rewrite <- app_assoc).
    apply (IH (pre ++ [a])).
    + rewrite Hassoc. destruct R as [Hh ? ? Hcc]. split; [by rewrite Htl|done|done|].
      rewrite Htl. eapply chain_ext; [|exact Hcc]. intros c _. apply Hnx.
    + cbn in *. lia.
    + done.
    + intros pre' c suf' x2 s2 He Hl2. rewrite Hassoc in He. apply (Hb pre' c suf' x2 s2 He).
      by eapply same_links_trans.
    + intros x2 s2 Hl2. rewrite Hassoc. apply HQ. by eapply same_links_trans.
Qed.

Lemma wp_ring_loop {A} (I : list Z -> A -> st -> Prop) l x body Q E s :
  ring s l -> I [] x s ->
  (forall pre a suf x s', l = pre ++ a :: suf -> same_links s s' -> I pre x s' ->
     wp (body a x) (fun x' s'' => I (pre ++ [a]) x' s'' /\ same_links s' s'') E s') ->
  (forall x s', same_links s s' -> I l x s' -> Q x s') ->
  wp (ring_loop (ring_fuel s) (task_list s) x body) Q E s.
Proof.
  intros R Hi Hb HQ. pose proof (ring_fuel_enough s l R) as Hf.
  destruct l as [|a l]; [by destruct R|]. assert (Hh := rg_head _ _ R). cbn in Hh. injection Hh as ->.
  by apply (wp_ring_loop_from I [] (task_list s) l).
Qed.

(** ** One task *)
Lemma wp_get_task a t Q E s : tasks s !! a = Some t -> Q t s -> wp (get_task a) Q E s.
Proof. intros Ht HQ. unfold wp, get_task. by rewrite Ht. Qed.

Lemma wp_upd_task a f t (Q : unit -> st -> Prop) E s : tasks s !! a = Some t ->
  Q tt (set_tasks (<[a := f t]> (tasks s)) s) -> wp (upd_task a f) Q E s.
Proof. intros Ht HQ. unfold wp, upd_task. by rewrite Ht. Qed.

Lemma upd_links a f t s : tasks s !! a = Some t -> next (f t) = next t ->
  same_links s (set_tasks (<[a := f t]> (tasks s)) s).
Proof.
  intros Ht Hn. split; [done|]. intros b. unfold nx. cbn [tasks set_tasks].
  destruct (decide (a = b)) as [<-|Hne]; [|by rewrite lookup_insert_ne].
  rewrite lookup_insert_eq, Ht. cbn. by rewrite Hn.
Qed.

(** ** Accounting a tick *)
Definition accounted l s s' : Prop := s' = set_tasks (tasks s') s /\
  forall a, tasks s' !! a =
    if decide (a ∈ l) then account (k64_ticks s) (current_task s) a <$> tasks s !! a else tasks s !! a.

Lemma account_next now c a t : next (account now c a t) = next t.
Proof. unfold account. repeat case_match; done. Qed.

Lemma on_tick_spec s l (Q : unit -> st -> Prop) E : ring s l ->
  (forall s', accounted l s s' -> same_links s s' -> Q tt s') -> wp on_tick_accounting Q E s.
Proof.
  intros R HQ. unfold wp, on_tick_accounting.
  assert (Hne : task_list s <> 0).
  { intros H. destruct R as [Hh _ Hn _]. rewrite H in Hh. destruct l as [|a l]; [done|].
    cbn in Hh. injection Hh as ->. apply Hn. by left. }
  rewrite (proj2 (Z.eqb_neq _ _) Hne).
  apply (wp_ring_loop (fun pre _ s' => accounted pre s s') l); [done| | |].
  - split; [by destruct s|]. intros a. rewrite decide_False; [done|apply not_elem_of_nil].
  - intros pre a suf [] s1 He Hl [Hs1 Ha].
    assert (Hnd : a ∉ pre).
    { pose proof (rg_nodup _ _ R) as Hnd. rewrite He in Hnd. apply NoDup_app in Hnd as (_ & Hnd & _).
      intros Hin. apply (Hnd a Hin). by left. }
    destruct (ring_member s l a R) as [t Ht]; [rewrite He, elem_of_app, elem_of_cons; tauto|].
    assert (Ht1 : tasks s1 !! a = Some t) by (by rewrite Ha, decide_False).
    apply (wp_upd_task a _ t _ _ _ Ht1). split; [|apply upd_links; [done|apply account_next]].
    split; [by rewrite Hs1|]. intros b. cbn [tasks set_tasks]. destruct (decide (a = b)) as [<-|Hab].
    + rewrite lookup_insert_eq, decide_True, Ht; [done|]. rewrite elem_of_app, elem_of_cons. tauto.
    + rewrite lookup_insert_ne, Ha by done. destruct (decide (b ∈ pre)) as [Hd|Hd].
      * rewrite decide_True; [done|]. rewrite elem_of_app. by left.
      * rewrite decide_False; [done|]. rewrite elem_of_app, list_elem_of_singleton. by intros [?| ->].
  - intros [] s' Hl Hacc. by apply HQ.
Qed.

(** ** The choice *)
Definition eligible t : Prop := id t <> 0 /\ state t = K64_TASK_STATE_READY.

(** The first task of [l] with the highest score among the eligible ones. *)
Definition chosen (ts : gmap Z k64_task_t) l (r : option (Z * Z)) : Prop :=
  match r with
  | Some (a, sc) => exists l1 l2 t, l = l1 ++ a :: l2 /\ ts !! a = Some t /\ eligible t /\ sc = score t /\
      (forall b u, b ∈ l1 -> ts !! b = Some u -> eligible u -> score u < sc) /\
      (forall b u, b ∈ l2 -> ts !! b = Some u -> eligible u -> score u <= sc)
  | None => forall b u, b ∈ l -> ts !! b = Some u -> ~ eligible u
  end.

Lemma chosen_snoc ts l a t r : ts !! a = Some t -> chosen ts l r -> chosen ts (l ++ [a]) (consider a t r).
Proof.
  intros Ht Hc. unfold consider.
  destruct (negb (id t =? 0) && is_state K64_TASK_STATE_READY t) eqn:He.
  - apply andb_true_iff in He as [Hid%negb_true_iff%Z.eqb_neq Hst%bool_decide_eq_true_1].
    assert (Hel : eligible t) by done.
    destruct r as [[b sc]|]; [destruct (Z.ltb_spec sc (score t)) as [Hlt|Hge]|]; cbn [chosen] in *.
    + destruct Hc as (l1 & l2 & u & -> & Hu & Helu & -> & H1 & H2).
      exists (l1 ++ b :: l2), [], t. split_and!; [done|done|done|done| |].
      * intros c v Hc Hv Hev. apply elem_of_app in Hc as [Hc|[->|Hc]%elem_of_cons].
        { specialize (H1 c v Hc Hv Hev). lia. }
        { simplify_eq. lia. }
        { specialize (H2 c v Hc Hv Hev). lia. }
      * intros c v Hc. by apply not_elem_of_nil in Hc.
    + destruct Hc as (l1 & l2 & u & -> & Hu & Helu & -> & H1 & H2).
      exists l1, (l2 ++ [a]), u. rewrite <- app_assoc. split_and!; [done|done|done|done|done|].
      intros c v [Hc|Hc%list_elem_of_singleton]%elem_of_app Hv Hev; [by eapply H2|]. simplify_eq. lia.
    + exists l, [], t. split_and!; [done|done|done|done| |].
      * intros c v Hc' Hv Hev. by destruct (Hc c v Hc' Hv).
      * intros c v Hc'. by apply not_elem_of_nil in Hc'.
  - assert (Hne : ~ eligible t).
    { intros [Hid Hst]. unfold is_state in He. rewrite (proj2 (Z.eqb_neq _ _) Hid), bool_decide_true in He by done. done. }
    destruct r as [[b sc]|]; cbn [chosen] in *.
    + destruct Hc as (l1 & l2 & u & -> & Hu & Helu & -> & H1 & H2).
      exists l1, (l2 ++ [a]), u. rewrite <- app_assoc. split_and!; [done|done|done|done|done|].
      intros c v [Hc|Hc%list_elem_of_singleton]%elem_of_app Hv Hev; [by eapply H2|].
      subst c. rewrite Ht in Hv. injection Hv as <-. by destruct Hne.
    + intros c v [Hc'|Hc'%list_elem_of_singleton]%elem_of_app Hv; [by eapply Hc|].
      subst c. rewrite Ht in Hv. by injection Hv as <-.
Qed.

Lemma select_task_spec s l Q E : ring s l ->
  (forall r, chosen (tasks s) l r -> Q r s) -> wp select_task Q E s.
Proof.
  intros R HQ. unfold wp, select_task.
  apply (wp_ring_loop (fun pre r s' => s' = s /\ chosen (tasks s) pre r) l); [done| | |].
  - split; [done|]. cbn. intros b u Hb. by apply not_elem_of_nil in Hb.
  - intros pre a suf r s1 He _ [-> Hc].
    destruct (ring_member s l a R) as [t Ht]; [rewrite He, elem_of_app, elem_of_cons; tauto|].
    apply wp_bind, (wp_get_task a t); [done|]. apply wp_ret. split; [|done].
    split; [done|]. by apply chosen_snoc.
  - intros r s' _ [-> Hc]. by apply HQ.
Qed.

(** ** The invariant *)
Record task_ok (first current next_id ticks a : Z) t : Prop := {
  tk_boot : id t = 0 <-> a = first;
  tk_id : 0 <= id t < next_id;
  tk_prio : 0 <= priority t <= K64_MAX_PRIORITY;
  tk_slice : base_timeslice t = K64_DEFAULT_TIMESLICE + priority t;
  tk_rem : 0 <= remaining_ticks t <= base_timeslice t;
  tk_wait : 0 <= wait_ticks t <= ticks;
  tk_run : state t = K64_TASK_STATE_RUNNING -> a = current
}.

(** [l] is the ring of [s], from the bootstrap task on. *)
Record sched_ok l s : Prop := {
  so_ring : ring s l;
  so_current : current_task s ∈ l;
  so_tasks : forall a t, a ∈ l -> tasks s !! a = Some t ->
    task_ok (task_list s) (current_task s) (next_task_id s) (k64_ticks s) a t;
  so_ids : forall a b t u, a ∈ l -> b ∈ l -> tasks s !! a = Some t -> tasks s !! b = Some u ->
    id t = id u -> a = b;
  so_frames : frames_ok (frames s);
  so_busy : forall a, a ∈ l -> 0 <= a /\ busy (frames s) (a / 4096) = true
}.

(** What no operation on an existing task changes. *)
Definition fixed t t' : Prop := id t' = id t /\ priority t' = priority t /\
  base_timeslice t' = base_timeslice t /\ next t' = next t.

Lemma sched_ok_change l s s' : sched_ok l s -> task_list s' = task_list s ->
  next_task_id s <= next_task_id s' -> frames_ok (frames s') ->
  (forall a, a ∈ l -> busy (frames s') (a / 4096) = true) -> k64_ticks s <= k64_ticks s' ->
  current_task s' ∈ l ->
  (forall a t, a ∈ l -> tasks s !! a = Some t -> exists t', tasks s' !! a = Some t' /\ fixed t t' /\
     0 <= remaining_ticks t' <= base_timeslice t /\ 0 <= wait_ticks t' <= k64_ticks s' /\
     (state t' = K64_TASK_STATE_RUNNING -> a = current_task s')) ->
  sched_ok l s'.
Proof.
  intros [R Hc Ht Hi Hf Hb] Hl Hn Hfr Hbusy Htk Hc' Hev.
  assert (Hback : forall a t', a ∈ l -> tasks s' !! a = Some t' -> exists t, tasks s !! a = Some t /\ fixed t t' /\
     0 <= remaining_ticks t' <= base_timeslice t /\ 0 <= wait_ticks t' <= k64_ticks s' /\
     (state t' = K64_TASK_STATE_RUNNING -> a = current_task s')).
  { intros a t' Ha Ht'. destruct (ring_member s l a R Ha) as [t Hat]. exists t. split; [done|].
    destruct (Hev a t Ha Hat) as (t2 & Ht2 & H). by simplify_eq. }
  split; [|done| | |done|].
  - destruct R as [Hh Hnd H0 Hch]. split; [by rewrite Hl|done|done|]. rewrite Hl.
    eapply chain_ext; [|exact Hch]. intros a Ha. unfold nx.
    destruct (ring_member s l a) as [t Hat]; [by split|done|].
    destruct (Hev a t Ha Hat) as (t' & Ht' & (_ & _ & _ & Hnx) & _). rewrite Hat, Ht'. cbn. by rewrite Hnx.
  - intros a t' Ha Ht'. destruct (Hback a t' Ha Ht') as (t & Hat & (H1 & H2 & H3 & H4) & Hrem & Hw & Hrun).
    destruct (Ht a t Ha Hat). rewrite Hl. split; rewrite ?H1, ?H2, ?H3; (done || lia).
  - intros a b t u Ha Hb' Hat Hbu Hid. destruct (Hback a t Ha Hat) as (t0 & Ht0 & (H1 & _) & _).
    destruct (Hback b u Hb' Hbu) as (u0 & Hu0 & (H2 & _) & _). eapply Hi; [done|done|done|done|congruence].
  - intros a Ha. split; [by apply Hb|by apply Hbusy].
Qed.

Lemma sched_ok_evolve l s s' : sched_ok l s -> task_list s' = task_list s ->
  next_task_id s' = next_task_id s -> frames s' = frames s -> k64_ticks s <= k64_ticks s' ->
  current_task s' ∈ l ->
  (forall a t, a ∈ l -> tasks s !! a = Some t -> exists t', tasks s' !! a = Some t' /\ fixed t t' /\
     0 <= remaining_ticks t' <= base_timeslice t /\ 0 <= wait_ticks t' <= k64_ticks s' /\
     (state t' = K64_TASK_STATE_RUNNING -> a = current_task s')) ->
  sched_ok l s'.
Proof.
  intros S Hl Hn Hf Htk Hc Hev. apply (sched_ok_change l s); try done.
  - lia.
  - rewrite Hf. apply S.
  - rewrite Hf. intros a Ha. by apply S.
Qed.

Lemma so_task l s a t : sched_ok l s -> a ∈ l -> tasks s !! a = Some t ->
  task_ok (task_list s) (current_task s) (next_task_id s) (k64_ticks s) a t.
Proof. intros S. apply (so_tasks _ _ S). Qed.

Lemma fixed_refl t : fixed t t.
Proof. done. Qed.

(** One task is changed. *)
Lemma sched_ok_upd l s a t t' : sched_ok l s -> a ∈ l -> tasks s !! a = Some t -> fixed t t' ->
  0 <= remaining_ticks t' <= base_timeslice t -> 0 <= wait_ticks t' <= k64_ticks s ->
  (state t' = K64_TASK_STATE_RUNNING -> a = current_task s) ->
  sched_ok l (set_tasks (<[a := t']> (tasks s)) s).
Proof.
  intros S Ha Hat Hfx Hrem Hw Hrun. apply (sched_ok_evolve l s); try done; [apply S|].
  intros b u Hb Hbu. cbn [tasks set_tasks]. destruct (decide (a = b)) as [<-|Hne].
  - exists t'. rewrite lookup_insert_eq. simplify_eq. done.
  - exists u. rewrite lookup_insert_ne by done. destruct (so_task l s b u S Hb Hbu) as [_ _ _ _ Hr2 Hw2 Hn2].
    exact (conj Hbu (conj (fixed_refl u) (conj Hr2 (conj Hw2 Hn2)))).
Qed.

(** ** Choosing and switching *)
Definition demoted s : gmap Z k64_task_t :=
  match tasks s !! current_task s with
  | Some t => if is_state K64_TASK_STATE_RUNNING t
              then <[current_task s := set_state K64_TASK_STATE_READY t]> (tasks s) else tasks s
  | None => tasks s
  end.

Definition dispatched t : k64_task_t :=
  set_wait 0 (set_remaining (base_timeslice t) (set_state K64_TASK_STATE_RUNNING t)).

(** [pick_next_rsp] answers [r]: the current task, if it was running, is ready
    again; of the tasks that are ready the first one with the highest score
    runs, with a full time slice; without one the bootstrap task does. *)
Definition picked l s (r : Z) s' : Prop := exists sel a t, chosen (demoted s) l sel /\
  a = match sel with Some (a, _) => a | None => task_list s end /\ demoted s !! a = Some t /\
  s' = mk_sched a (task_list s) (next_task_id s) (<[a := dispatched t]> (demoted s)) (stacks s) (frames s)
         (if cr3 t =? 0 then cr3_register s else cr3 t) (k64_ticks s) (user_active s) /\
  r = rsp t.

Lemma first_in l s : ring s l -> task_list s ∈ l.
Proof. intros [Hh _ _ _]. destruct l as [|a l]; [done|]. cbn in Hh. injection Hh as ->. by left. Qed.

Lemma not_null l s a : ring s l -> a ∈ l -> a <> 0.
Proof. intros R Ha ->. by apply (rg_null _ _ R). Qed.

Lemma ring_next l s a t : ring s l -> a ∈ l -> tasks s !! a = Some t -> next t ∈ l.
Proof.
  intros R (l1 & l2 & He)%list_elem_of_split Ht. assert (Hc := rg_chain _ _ R). rewrite He in Hc.
  apply chain_app in Hc as [_ [Hc _]]. unfold nx in Hc. rewrite Ht in Hc. cbn in Hc. injection Hc as ->.
  destruct l2 as [|b l2]; [by apply first_in|]. rewrite He, elem_of_app, !elem_of_cons. tauto.
Qed.

(** Demoting keeps the invariant, and then no task is running. *)
Lemma demoted_ok l s : sched_ok l s -> sched_ok l (set_tasks (demoted s) s) /\
  forall a t, a ∈ l -> demoted s !! a = Some t -> state t <> K64_TASK_STATE_RUNNING.
Proof.
  intros S. destruct (ring_member s l _ (so_ring _ _ S) (so_current _ _ S)) as [t Ht].
  pose proof (so_task l s _ t S (so_current _ _ S) Ht) as Hok.
  unfold demoted. rewrite Ht. unfold is_state. case_bool_decide as Hr.
  - split.
    + eapply sched_ok_upd; [done|apply S|done|done|apply Hok|apply Hok|done].
    + intros a u Ha Hau Hrun. destruct (decide (current_task s = a)) as [<-|Hne].
      * rewrite lookup_insert_eq in Hau. injection Hau as <-. done.
      * rewrite lookup_insert_ne in Hau by done. apply Hne. symmetry. exact (tk_run _ _ _ _ _ _ (so_task l s a u S Ha Hau) Hrun).
  - split; [by destruct s|]. intros a u Ha Hau Hrun.
    pose proof (tk_run _ _ _ _ _ _ (so_task l s a u S Ha Hau) Hrun) as ->. congruence.
Qed.

Lemma switch_to_spec l s a t (Q : Z -> st -> Prop) E : sched_ok l s -> a ∈ l -> tasks s !! a = Some t ->
  (forall b u, b ∈ l -> tasks s !! b = Some u -> state u <> K64_TASK_STATE_RUNNING) ->
  (forall s', sched_ok l s' -> s' = mk_sched a (task_list s) (next_task_id s) (<[a := dispatched t]> (tasks s))
     (stacks s) (frames s) (if cr3 t =? 0 then cr3_register s else cr3 t) (k64_ticks s) (user_active s) ->
     Q (rsp t) s') ->
  wp (switch_to a) Q E s.
Proof.
  intros S Ha Hat Hnr HQ. unfold switch_to.
  apply wp_bind, (wp_upd_task a _ t); [done|]. apply wp_bind, wp_modify.
  apply wp_bind, (wp_get_task a (dispatched t)); [apply lookup_insert_eq|].
  apply wp_bind, wp_gets. change (cr3 (dispatched t)) with (cr3 t). change (rsp (dispatched t)) with (rsp t).
  set (s1 := mk_sched a (task_list s) (next_task_id s) (<[a := dispatched t]> (tasks s))
     (stacks s) (frames s) (cr3_register s) (k64_ticks s) (user_active s)).
  change (set_current a _) with s1. change (cr3_register s1) with (cr3_register s).
  assert (Hok : forall c, sched_ok l (set_cr3 c s1)).
  { intros c. apply (sched_ok_evolve l s); try done. intros b u Hb Hbu. cbn [tasks set_cr3 s1].
    pose proof (so_task l s b u S Hb Hbu) as Hu. destruct (decide (a = b)) as [<-|Hne].
    - exists (dispatched u). simplify_eq. rewrite lookup_insert_eq. destruct Hu. cbn. split_and!; (done || lia).
    - exists u. rewrite lookup_insert_ne by done. destruct Hu as [_ _ _ _ Hr2 Hw2 _].
      split; [done|]. split; [done|]. split; [done|]. split; [done|]. intros Hrun. by destruct (Hnr b u). }
  apply wp_bind. destruct (Z.eqb_spec (cr3 t) 0) as [H0|H0].
  - rewrite Z.eqb_refl. apply wp_ret, wp_ret. apply HQ; [apply (Hok (cr3_register s))|done].
  - destruct (Z.eqb_spec (cr3 t) (cr3_register s)) as [He|He].
    + apply wp_ret, wp_ret. apply HQ; [apply (Hok (cr3_register s))|]. by rewrite He.
    + apply wp_modify, wp_ret. by apply HQ; [apply Hok|].
Qed.

Lemma chosen_in ts l sel a sc : chosen ts l sel -> sel = Some (a, sc) -> a ∈ l.
Proof. intros Hc ->. destruct Hc as (l1 & l2 & t & -> & _). rewrite elem_of_app, elem_of_cons. tauto. Qed.

Lemma pick_next_spec l s (Q : Z -> st -> Prop) E : sched_ok l s ->
  (forall r s', sched_ok l s' -> picked l s r s' -> Q r s') -> wp pick_next_rsp Q E s.
Proof.
  intros S HQ. pose proof (so_ring _ _ S) as R. pose proof (so_current _ _ S) as Hc.
  destruct (ring_member s l _ R Hc) as [t Ht]. unfold pick_next_rsp.
  apply wp_bind, wp_gets. rewrite (proj2 (Z.eqb_neq _ _)) by (by eapply not_null).
  apply wp_bind, (wp_get_task _ t); [done|].
  rewrite (proj2 (Z.eqb_neq _ _)) by (eapply not_null; [done|]; by eapply ring_next).
  destruct (demoted_ok l s S) as [S1 Hnr].
  assert (Hdem : forall Q' E', Q' tt (set_tasks (demoted s) s) ->
    wp (if is_state K64_TASK_STATE_RUNNING t then upd_task (current_task s) (set_state K64_TASK_STATE_READY)
        else mret tt) Q' E' s).
  { intros Q' E' H. unfold demoted in H. rewrite Ht in H. destruct (is_state _ t).
    - by apply (wp_upd_task _ _ t).
    - apply wp_ret. by destruct s. }
  apply wp_bind, Hdem. apply wp_bind, (select_task_spec _ l); [apply S1|]. intros sel Hsel.
  cbn [tasks set_tasks] in Hsel. apply wp_bind, wp_gets. cbn [task_list set_tasks].
  set (a := match sel with Some (a, _) => a | None => task_list s end).
  assert (Ha : a ∈ l).
  { unfold a. destruct sel as [[b sc]|]; [by eapply chosen_in|by apply first_in]. }
  destruct (ring_member _ l a (so_ring _ _ S1) Ha) as [u Hu].
  apply (switch_to_spec l _ a u); [done|done|done|done|].
  intros s' S' ->. apply HQ; [done|]. by exists sel, a, u.
Qed.

(** ** The timer *)
Lemma account_facts now c a t : 0 <= wait_ticks t < UINT64_MAX -> let t' := account now c a t in
  fixed t t' /\ rsp t' = rsp t /\ cr3 t' = cr3 t /\ remaining_ticks t' = remaining_ticks t /\
  (state t' = K64_TASK_STATE_RUNNING <-> state t = K64_TASK_STATE_RUNNING) /\
  wait_ticks t <= wait_ticks t' <= wait_ticks t + 1 /\
  (state t = K64_TASK_STATE_READY -> state t' = K64_TASK_STATE_READY /\ wait_ticks t' = wait_ticks t + 1).
Proof.
  unfold UINT64_MAX. intros Hw. unfold account, is_state.
  destruct t as [i r c3 sl sf x pr ba re ru w n]. cbn [wait_ticks state sleep_until_tick] in *.
  destruct x; cbn [set_sleep set_state state id rsp cr3 stack_frame priority base_timeslice
    remaining_ticks runtime_ticks wait_ticks next];
    repeat (rewrite (bool_decide_true (_ = _)) by done || rewrite (bool_decide_false (_ = _)) by done);
    rewrite ?andb_false_r, ?andb_true_r; cbn [andb].
  all: repeat case_match; cbn [set_sleep set_state set_runtime set_wait state id rsp cr3 stack_frame priority
    base_timeslice remaining_ticks runtime_ticks wait_ticks next fixed] in *; rewrite ?u64_small by lia.
  all: split_and!; try done; try lia.
Qed.

(** The state after the accounting of a tick in kernel mode. *)
Definition save_rsp (c old a : Z) t : k64_task_t := if a =? c then set_rsp old t else t.
Record ticked l s (old : Z) s1 : Prop := {
  ti_list : task_list s1 = task_list s;
  ti_current : current_task s1 = current_task s;
  ti_frames : frames s1 = frames s;
  ti_next : next_task_id s1 = next_task_id s;
  ti_ticks : k64_ticks s1 = k64_ticks s + 1;
  ti_user : user_active s1 = user_active s;
  ti_tasks : forall a, tasks s1 !! a = if decide (a ∈ l)
    then (fun t => account (k64_ticks s + 1) (current_task s) a (save_rsp (current_task s) old a t)) <$> tasks s !! a
    else tasks s !! a
}.

Lemma save_rsp_facts c old a t : let t' := save_rsp c old a t in fixed t t' /\ state t' = state t /\
  remaining_ticks t' = remaining_ticks t /\ wait_ticks t' = wait_ticks t /\ cr3 t' = cr3 t.
Proof. unfold save_rsp. by destruct (a =? c). Qed.

(** No counter of ticks is near its end. *)
Definition ticks_left s : Prop := 0 <= k64_ticks s < 9223372036854775808.

Lemma ticked_task l s old s1 a t1 : ticked l s old s1 -> sched_ok l s -> ticks_left s -> a ∈ l ->
  tasks s1 !! a = Some t1 -> exists t, tasks s !! a = Some t /\ fixed t t1 /\
    remaining_ticks t1 = remaining_ticks t /\ wait_ticks t <= wait_ticks t1 <= wait_ticks t + 1 /\
    (state t1 = K64_TASK_STATE_RUNNING <-> state t = K64_TASK_STATE_RUNNING) /\ cr3 t1 = cr3 t /\
    (a = current_task s -> rsp t1 = old) /\ (a <> current_task s -> rsp t1 = rsp t) /\
    (state t = K64_TASK_STATE_READY -> state t1 = K64_TASK_STATE_READY /\ wait_ticks t1 = wait_ticks t + 1).
Proof.
  intros T S HT Ha H1. rewrite (ti_tasks _ _ _ _ T a), decide_True in H1 by done.
  destruct (tasks s !! a) as [t|] eqn:Ht; [|done]. cbn [fmap option_fmap option_map] in H1. injection H1 as <-.
  exists t. split; [done|]. destruct (save_rsp_facts (current_task s) old a t) as (F & Hs & Hr & Hw & Hc).
  set (u := save_rsp (current_task s) old a t) in *.
  destruct (so_task l s a t S Ha Ht) as [_ _ _ _ _ Hwt _].
  destruct (account_facts (k64_ticks s + 1) (current_task s) a u) as (F' & Hrsp & Hc' & Hr' & Hrun & Hw' & Hrdy).
  { rewrite Hw. unfold ticks_left, UINT64_MAX in *. lia. }
  rewrite Hs, Hw in *. destruct F as (F1 & F2 & F3 & F4), F' as (G1 & G2 & G3 & G4).
  split_and!; try done; try congruence; try lia.
  - unfold fixed. split_and!; congruence.
  - intros Heq. rewrite Hrsp. unfold u, save_rsp. by rewrite (proj2 (Z.eqb_eq _ _) Heq).
  - intros Hne. rewrite Hrsp. unfold u, save_rsp. by rewrite (proj2 (Z.eqb_neq _ _) Hne).
Qed.

Lemma ticked_ok l s old s1 : ticked l s old s1 -> sched_ok l s -> ticks_left s -> sched_ok l s1.
Proof.
  intros T S HT. apply (sched_ok_evolve l s); [done|apply T|apply T|apply T| | |].
  - rewrite (ti_ticks _ _ _ _ T). lia.
  - rewrite (ti_current _ _ _ _ T). apply S.
  - intros a t Ha Hat. assert (H1 := ti_tasks _ _ _ _ T a). rewrite decide_True, Hat in H1 by done.
    eexists. split; [exact H1|].
    destruct (ticked_task l s old s1 a _ T S HT Ha H1) as (t' & Ht' & F & Hr & Hw & Hrun & _).
    rewrite Hat in Ht'. injection Ht' as <-. destruct (so_task l s a t S Ha Hat) as [_ _ _ _ Hrem Hwt Hrn].
    rewrite (ti_ticks _ _ _ _ T), (ti_current _ _ _ _ T). split_and!; try apply F; try lia.
    intros Hst. by apply Hrn, Hrun.
Qed.

(** After a tick in kernel mode: the current task goes on with its slice, or
    [pick_next_rsp] chooses. *)
Definition goes_on s1 (r : Z) s' : Prop := exists t, tasks s1 !! current_task s1 = Some t /\
  state t = K64_TASK_STATE_RUNNING /\ id t <> 0 /\ 1 < remaining_ticks t /\ r = rsp t /\
  s' = set_tasks (<[current_task s1 := set_remaining (remaining_ticks t - 1) t]> (tasks s1)) s1.

(** The slice of the current task is used up, or it does not run any more. *)
Definition slice_over s1 s2 : Prop := exists t, tasks s1 !! current_task s1 = Some t /\
  ((s2 = s1 /\ (state t = K64_TASK_STATE_RUNNING -> id t <> 0 -> remaining_ticks t = 0)) \/
   (remaining_ticks t = 1 /\ s2 = set_tasks (<[current_task s1 := set_remaining 0 t]> (tasks s1)) s1)).

Definition timer_done l s (old r : Z) s' : Prop := exists s1, ticked l s old s1 /\
  (goes_on s1 r s' \/ exists s2, slice_over s1 s2 /\ picked l s2 r s').

Lemma slice_over_ok l s1 s2 : sched_ok l s1 -> slice_over s1 s2 -> sched_ok l s2.
Proof.
  intros S (t & Ht & [[-> _]|[Hr ->]]); [done|].
  destruct (so_task l s1 _ t S (so_current _ _ S) Ht) as [_ _ _ _ Hrem Hwt Hrn].
  eapply sched_ok_upd; [done|apply S|done|done| |done|done]. cbn. lia.
Qed.

Lemma handle_timer_kernel l s old (Q : Z -> st -> Prop) E : sched_ok l s -> ticks_left s ->
  user_active s = false ->
  (forall r s', sched_ok l s' -> timer_done l s old r s' -> Q r s') ->
  wp (k64_sched_handle_timer old) Q E s.
Proof.
  intros S HT Hu HQ. pose proof (so_current _ _ S) as Hc. pose proof (so_ring _ _ S) as R.
  destruct (ring_member s l _ R Hc) as [t Ht]. unfold k64_sched_handle_timer.
  apply wp_bind, wp_gets. rewrite Hu. apply wp_bind, wp_gets.
  rewrite (proj2 (Z.eqb_neq _ _)) by (by eapply not_null).
  apply wp_bind, (wp_upd_task _ _ t); [done|]. apply wp_bind, wp_modify.
  rewrite u64_small by (unfold ticks_left, UINT64_MAX in HT; cbn; lia).
  set (s0 := set_ticks _ _). apply wp_bind. apply (on_tick_spec s0 l).
  { destruct R as [Hh Hn H0 Hch]. split; [done|done|done|]. eapply chain_ext; [|exact Hch].
    intros a _. apply (proj2 (upd_links (current_task s) (set_rsp old) t s Ht eq_refl) a). }
  intros s1 [Hs1 Hacc] Hl.
  assert (T : ticked l s old s1).
  { rewrite Hs1. split; try done. intros a. cbn [tasks set_tasks]. rewrite Hacc.
    cbn [k64_ticks current_task tasks s0 set_ticks set_tasks]. unfold save_rsp.
    destruct (Z.eqb_spec a (current_task s)) as [->|Hne].
    - rewrite lookup_insert_eq, Ht. case_decide as Hd; [done|by destruct Hd].
    - rewrite lookup_insert_ne by done. case_decide; [|done]. by destruct (tasks s !! a). }
  pose proof (ticked_ok l s old s1 T S HT) as S1.
  assert (Hc1 : current_task s1 = current_task s) by apply T. rewrite <- Hc1 in *.
  destruct (ring_member s1 l _ (so_ring _ _ S1) Hc) as [t1 Ht1].
  assert (Hpick : forall s2, slice_over s1 s2 -> wp pick_next_rsp Q E s2).
  { intros s2 Ho. apply (pick_next_spec l); [by eapply slice_over_ok|]. intros r s' S' Hp. apply HQ; [done|].
    exists s1. split; [done|]. right. by exists s2. }
  apply wp_bind, (wp_get_task _ t1); [done|]. unfold is_state. case_bool_decide as Hrun; cbn [negb].
  2: { apply Hpick. exists t1. split; [done|]. left. by split. }
  destruct (Z.eqb_spec (id t1) 0) as [Hid|Hid].
  { apply Hpick. exists t1. split; [done|]. left. by split. }
  destruct (so_task l s1 _ t1 S1 Hc Ht1) as [_ _ _ _ Hrem Hwt Hrn].
  apply wp_bind. destruct (Z.ltb_spec 0 (remaining_ticks t1)) as [Hpos|Hz].
  - apply (wp_upd_task _ _ t1); [done|]. apply wp_bind, (wp_get_task _ _ _ _ _ (lookup_insert_eq _ _ _)).
    cbn [remaining_ticks set_remaining]. destruct (Z.eqb_spec (remaining_ticks t1 - 1) 0) as [H1|H1].
    + apply Hpick. exists t1. split; [done|]. right. split; [lia|]. by rewrite H1.
    + apply wp_ret, HQ.
      * eapply sched_ok_upd; [done|done|done|done| |done|done]. cbn. lia.
      * exists s1. split; [done|]. left. exists t1. split_and!; [done|done|done|lia|done|done].
  - apply wp_ret, wp_bind, (wp_get_task _ t1); [done|].
    rewrite (proj2 (Z.eqb_eq _ _)) by lia. apply Hpick. exists t1. split; [done|]. left. split; [done|]. intros _ _. lia.
Qed.
End spec.
