(* ===== verification/SchedTask.v ===== *)
(** * Creating tasks

    [k64_task_create_arg] takes fresh frames for the task and its stack, builds
    the frame that the interrupt return pops, and links the task behind the
    current one; when memory runs out nothing stays allocated. *)
From Stdlib Require Import ZArith Lia.
From stdpp Require Import base list gmap fin_maps.
From S2P Require Import Prelude Exec Mem Pmm PmmSpec Frames Sched SchedSpec.

(** ** The initial stack *)
Lemma push_words_spec ws m sp : Forall (fun w => 0 <= w < 18446744073709551616) ws ->
  (push_words m sp ws).2 = sp - 8 * Z.of_nat (length ws) /\
  (forall i w, ws !! i = Some w -> load64 (push_words m sp ws).1 (sp - 8 * (Z.of_nat i + 1)) = w) /\
  (forall a, sp <= a \/ a + 8 <= sp - 8 * Z.of_nat (length ws) -> load64 (push_words m sp ws).1 a = load64 m a).
Proof.
  intros H. revert m sp. induction H as [|w ws Hw H IH]; intros m sp; cbn [push_words length fst snd].
  - split_and!; [lia|by intros i w Hi|done].
  - destruct (IH (store64 m (sp - 8) w) (sp - 8)) as (H1 & H2 & H3). split_and!.
    + rewrite H1. lia.
    + intros [|i] v Hv; cbn in Hv.
      * injection Hv as <-. rewrite H3 by lia. replace (sp - 8 * (Z.of_nat 0 + 1)) with (sp - 8) by lia.
        by apply load_store64_eq.
      * replace (sp - 8 * (Z.of_nat (S i) + 1)) with (sp - 8 - 8 * (Z.of_nat i + 1)) by lia. by apply H2.
    + intros a Ha. rewrite H3 by lia. apply load_store64_ne. lia.
Qed.

(** ** Linking *)
Lemma chain_insert nx nx' l1 c l2 e t : NoDup (l1 ++ c :: l2) -> t ∉ l1 ++ c :: l2 ->
  chain nx (l1 ++ c :: l2) e -> nx' c = Some t -> nx' t = nx c ->
  (forall a, a <> c -> a <> t -> nx' a = nx a) -> chain nx' (l1 ++ c :: t :: l2) e.
Proof.
  intros Hnd Ht Hc Hnc Hnt Hother.
  assert (Hin : forall a, a ∈ l1 \/ a ∈ l2 -> a <> c /\ a <> t).
  { intros a Ha. split; intros ->.
    - apply NoDup_app in Hnd as (_ & H1 & H2). apply NoDup_cons in H2 as [H2 _].
      destruct Ha as [Ha|Ha]; [apply (H1 c Ha); by left|done].
    - apply Ht. rewrite elem_of_app, elem_of_cons. tauto. }
  apply chain_app in Hc as [Hc1 [Hc2 Hc3]]. apply chain_app. split; [|split; [done|split]].
  - eapply chain_ext; [|exact Hc1]. intros a Ha. apply Hother; apply Hin; by left.
  - by rewrite Hnt.
  - eapply chain_ext; [|exact Hc3]. intros a Ha. apply Hother; apply Hin; by right.
Qed.

Section create.
Context {P : Type} `{!FrameAllocator P}.
Abbreviation st := (sched P).
Implicit Types (s : st) (t : k64_task_t) (l : list Z).

(** A task that is not in the ring is written, frames are taken. *)
Lemma sched_ok_outside l s s' a : sched_ok l s -> a ∉ l -> task_list s' = task_list s ->
  current_task s' = current_task s -> next_task_id s <= next_task_id s' -> k64_ticks s' = k64_ticks s ->
  frames_ok (frames s') -> (forall g, 0 <= g -> busy (frames s) g = true -> busy (frames s') g = true) ->
  (forall b, b <> a -> tasks s' !! b = tasks s !! b) -> sched_ok l s'.
Proof.
  intros S Ha Hl Hc Hn Hk Hf Hb Ht. apply (sched_ok_change l s); [done|done|done|done| |lia| |].
  - intros b Hbl. destruct (so_busy _ _ S b Hbl). apply Hb; [dmlia|done].
  - rewrite Hc. apply S.
  - intros b t Hbl Hbt. exists t. rewrite Ht by (by intros ->). rewrite Hk, Hc.
    destruct (so_task l s b t S Hbl Hbt) as [_ _ _ _ Hr Hw Hrn]. done.
Qed.

(** The new task is linked behind the current one. *)
Lemma sched_ok_link l1 c l2 s s' a t : sched_ok (l1 ++ c :: l2) s -> a ∉ l1 ++ c :: l2 -> a <> 0 ->
  current_task s = c -> 0 <= a -> busy (frames s) (a / 4096) = true ->
  task_ok (task_list s) c (next_task_id s) (k64_ticks s) a t ->
  (forall b u, b ∈ l1 ++ c :: l2 -> tasks s !! b = Some u -> id u <> id t) ->
  (forall cur, tasks s !! c = Some cur -> next t = next cur /\ tasks s' = <[c := set_next a cur]> (<[a := t]> (tasks s))) ->
  task_list s' = task_list s -> current_task s' = current_task s -> next_task_id s' = next_task_id s ->
  k64_ticks s' = k64_ticks s -> frames s' = frames s ->
  sched_ok (l1 ++ c :: a :: l2) s'.
Proof.
  intros S Ha Ha0 Hcur Hpos Hbusy Htok Hid Hlink Hl Hc Hn Hk Hf. set (l := l1 ++ c :: l2) in *.
  assert (Hcl : c ∈ l) by (unfold l; rewrite elem_of_app, elem_of_cons; tauto).
  assert (Hac : a <> c) by (by intros ->).
  destruct (ring_member s l c (so_ring _ _ S) Hcl) as [cur Hcc]. destruct (Hlink cur Hcc) as [Hnt Hts].
  assert (Hin : forall b, b ∈ l1 ++ c :: a :: l2 <-> b = a \/ b ∈ l).
  { intros b. unfold l. rewrite !elem_of_app, !elem_of_cons. tauto. }
  assert (Hget : forall b u, b ∈ l -> tasks s' !! b = Some u -> exists v, tasks s !! b = Some v /\
    u = if decide (b = c) then set_next a v else v).
  { intros b u Hb Hu. rewrite Hts in Hu. destruct (decide (b = c)) as [->|Hne].
    - rewrite lookup_insert_eq in Hu. exists cur. by injection Hu as <-.
    - rewrite !lookup_insert_ne in Hu by (done || by intros ->). by exists u. }
  assert (Hgeta : tasks s' !! a = Some t) by (rewrite Hts, lookup_insert_ne, lookup_insert_eq; done).
  destruct S as [R HcS HtS HiS HfS HbS]. destruct R as [Hh Hnd H0 Hch]. split.
  - split.
    + rewrite Hl. unfold l in Hh. by destruct l1.
    + replace (l1 ++ c :: a :: l2) with ((l1 ++ [c]) ++ a :: l2) by (by rewrite <- app_assoc).
      rewrite <- Permutation_middle, <- app_assoc. by constructor.
    + rewrite Hin. intros [?|?]; [by subst|done].
    + rewrite Hl. apply (chain_insert (nx s)); [done|done|done| | |].
      * unfold nx. by rewrite Hts, lookup_insert_eq.
      * unfold nx. rewrite Hgeta, Hcc. cbn. by rewrite Hnt.
      * intros b Hb1 Hb2. unfold nx. by rewrite Hts, !lookup_insert_ne.
  - rewrite Hc, Hin. by right.
  - intros b u Hb Hu. rewrite Hl, Hc, Hn, Hk. apply Hin in Hb as [->|Hb].
    + rewrite Hgeta in Hu. injection Hu as <-. by rewrite Hcur.
    + destruct (Hget b u Hb Hu) as (v & Hv & ->). specialize (HtS b v Hb Hv). by case_decide; destruct HtS.
  - assert (Hid' : forall b u, b ∈ l -> tasks s' !! b = Some u -> id u <> id t).
    { intros b u Hb Hu. destruct (Hget b u Hb Hu) as (v & Hv & ->). specialize (Hid b v Hb Hv).
      by case_decide. }
    intros b d u v Hb Hd Hu Hv Heq. apply Hin in Hb as [->|Hb], Hd as [->|Hd]; [done| | |].
    + rewrite Hgeta in Hu. injection Hu as <-. by destruct (Hid' d v).
    + rewrite Hgeta in Hv. injection Hv as <-. by destruct (Hid' b u).
    + destruct (Hget b u Hb Hu) as (u' & Hu' & ->), (Hget d v Hd Hv) as (v' & Hv' & ->).
      eapply HiS; [done|done|done|done|]. by repeat case_decide.
  - by rewrite Hf.
  - intros b. rewrite Hin, Hf. intros [->|Hb]; [done|by apply HbS].
Qed.

Definition is_word (z : Z) : Prop := 0 <= z < 18446744073709551616.

(** The task at [a] is new, ready, on top of its own stack, and linked behind
    the current task. *)
Record created (task_return entry arg prio space : Z) l1 l2 s (a : Z) s' : Prop := {
  cr_sched : sched_ok (l1 ++ current_task s :: a :: l2) s';
  cr_current : current_task s' = current_task s;
  cr_fresh : a <> 0 /\ busy (frames s) (a / 4096) = false /\ busy (frames s') (a / 4096) = true;
  cr_task : exists t base, tasks s' !! a = Some t /\ id t = next_task_id s /\
    state t = K64_TASK_STATE_READY /\ priority t = clamp_priority prio /\
    cr3 t = (if space =? 0 then cr3_register s else space) /\ stack_frame t = base /\
    rsp t = base + K64_TASK_STACK_SIZE - 152 /\
    (forall i w, initial_words task_return entry arg !! i = Some w ->
       load64 (stacks s') (base + K64_TASK_STACK_SIZE - 8 * (Z.of_nat i + 1)) = w) /\
    (forall g, in_run (base / 4096) K64_TASK_STACK_FRAMES g ->
       busy (frames s) g = false /\ busy (frames s') g = true /\ g <> a / 4096);
  cr_new : forall t, tasks s' !! a = Some t -> wait_ticks t = 0;
  cr_others : forall b, b <> a -> b <> current_task s -> tasks s' !! b = tasks s !! b;
  cr_kept : forall b t, b ∈ l1 ++ current_task s :: l2 -> tasks s !! b = Some t ->
    exists t', tasks s' !! b = Some t' /\ t' = set_next (next t') t
}.

(** Nothing changed that anyone can reach. *)
Definition not_created l s s' : Prop := sched_ok l s' /\ current_task s' = current_task s /\
  (forall b, b ∈ l -> tasks s' !! b = tasks s !! b) /\
  (forall g, 0 <= g -> busy (frames s') g = busy (frames s) g).

Lemma clamp_range p : 0 <= clamp_priority p <= K64_MAX_PRIORITY.
Proof. unfold clamp_priority, K64_MAX_PRIORITY. repeat case_match; lia. Qed.

Lemma clamp_id p : 0 <= p <= K64_MAX_PRIORITY -> clamp_priority p = p.
Proof. unfold clamp_priority, K64_MAX_PRIORITY. repeat case_match; lia. Qed.

Lemma timeslice_range p : timeslice_for_priority (clamp_priority p) = K64_DEFAULT_TIMESLICE + clamp_priority p.
Proof.
  pose proof (clamp_range p). unfold timeslice_for_priority. rewrite (clamp_id (clamp_priority p)) by done.
  unfold K64_MAX_PRIORITY, K64_DEFAULT_TIMESLICE in *. rewrite (u32_small (clamp_priority p)), u32_small by lia. done.
Qed.

Lemma wp_on_frames {A} (m : M P A) Q E s :
  wp m (fun a p => Q a (set_frames p s)) (fun p => E (set_frames p s)) (frames s) -> wp (on_frames m) Q E s.
Proof. apply wp_zoom. Qed.

Lemma initial_words_ok tr entry arg : is_word tr -> is_word entry -> is_word arg ->
  Forall (fun w => 0 <= w < 18446744073709551616) (initial_words tr entry arg).
Proof. unfold is_word, initial_words. intros. repeat (apply Forall_cons_2; [lia|]). apply Forall_nil_2. Qed.

(** [build_initial_stack] for a task [a] that is not in the ring. *)
Lemma build_initial_stack_spec tr entry arg a t s (Q : bool -> st -> Prop) E : frames_ok (frames s) ->
  is_word tr -> is_word entry -> is_word arg -> tasks s !! a = Some t ->
  Q false s ->
  (forall f p' m', 0 < f -> f + 4 <= 1048576 -> frames_ok p' ->
     (forall g, in_run f 4 g -> busy (frames s) g = false) -> frames_set busy (frames s) f 4 true p' ->
     (forall i w, initial_words tr entry arg !! i = Some w ->
        load64 m' (f * 4096 + K64_TASK_STACK_SIZE - 8 * (Z.of_nat i + 1)) = w) ->
     Q true (set_tasks (<[a := set_stack (f * 4096) (set_rsp (f * 4096 + K64_TASK_STACK_SIZE - 152) t)]> (tasks s))
               (set_stacks m' (set_frames p' s)))) ->
  wp (build_initial_stack tr a entry arg) Q E s.
Proof.
  intros Hf H1 H2 H3 Hat HQ0 HQ. unfold build_initial_stack. apply wp_bind, wp_on_frames.
  eapply wp_mono; [apply (alloc_contiguous_law (frames s) K64_TASK_STACK_FRAMES Hf); by vm_compute| |done].
  intros sb p' [Hf' [[-> ->]|(f & -> & Hpos & Hmax & Hfree & Hset)]].
  - apply wp_ret. by destruct s.
  - rewrite (proj2 (Z.eqb_neq _ _)) by lia. apply wp_bind, wp_gets. cbn [stacks set_frames].
    destruct (push_words_spec (initial_words tr entry arg) (stacks s) (f * 4096 + K64_TASK_STACK_SIZE)
      (initial_words_ok tr entry arg H1 H2 H3)) as (Hsp & Hw & _).
    destruct (push_words _ _ _) as [m' sp]. cbn [fst snd] in *. apply wp_bind, wp_modify.
    apply wp_bind, (wp_upd_task a _ t); [exact Hat|].
    apply wp_bind, (wp_upd_task a _ (set_rsp sp t)); [apply lookup_insert_eq|]. apply wp_ret.
    cbn [tasks set_tasks set_stacks set_frames]. rewrite insert_insert_eq.
    replace sp with (f * 4096 + K64_TASK_STACK_SIZE - 152) by (rewrite Hsp; done).
    by apply (HQ f p' m').
Qed.

Lemma fresh_not_in_ring l s f : sched_ok l s -> busy (frames s) f = false -> f * 4096 ∉ l.
Proof.
  intros S Hb Ha. destruct (so_busy _ _ S _ Ha) as [_ Hbusy].
  rewrite Z.div_mul in Hbusy by lia. congruence.
Qed.

Lemma create_task_spec l s tr entry arg prio space (Q : Z -> st -> Prop) E : sched_ok l s ->
  0 < next_task_id s < UINT64_MAX -> 0 <= k64_ticks s -> is_word tr -> is_word entry -> is_word arg ->
  (forall s', not_created l s s' -> Q 0 s') ->
  (forall l1 l2 a s', l = l1 ++ current_task s :: l2 -> created tr entry arg prio space l1 l2 s a s' -> Q a s') ->
  wp (k64_task_create_arg tr entry arg prio space) Q E s.
Proof.
  intros S Hn Hk H1 H2 H3 HQ0 HQ. unfold k64_task_create_arg. apply wp_bind, wp_on_frames.
  eapply wp_mono; [apply (alloc_frame_law (frames s) (so_frames _ _ S))| |done].
  intros a p1 [Hf1 [[-> ->]|(f & -> & Hpos & Hmax & Hfree & Hset)]].
  { apply wp_ret, HQ0. destruct s. by split_and!. }
  rewrite (proj2 (Z.eqb_neq _ _)) by lia. apply wp_bind, wp_gets, wp_bind, wp_modify, wp_bind, wp_gets, wp_bind, wp_modify.
  cbn [next_task_id set_frames cr3_register set_next_id tasks].
  rewrite u64_small by (unfold UINT64_MAX in Hn; lia).
  set (a := f * 4096). set (n := next_task_id s).
  set (t0 := mk_task n 0 _ 0 0 K64_TASK_STATE_READY (clamp_priority prio) _ _ 0 0 0).
  set (s1 := set_tasks (<[a := t0]> (tasks s)) (set_next_id (n + 1) (set_frames p1 s))).
  change (set_tasks _ _) with s1.
  assert (Hfa : busy (frames s) f = false) by (apply Hfree; unfold in_run; lia).
  assert (Ha : a ∉ l) by (by apply (fresh_not_in_ring l s)).
  assert (Hmono : forall g, 0 <= g -> busy (frames s) g = true -> busy p1 g = true).
  { intros g Hg Hb. rewrite Hset by done. by case_decide. }
  assert (S1 : sched_ok l s1).
  { apply (sched_ok_outside l s s1 a); try done; [cbn; lia|]. intros b Hb. cbn. by rewrite lookup_insert_ne. }
  assert (Hat : tasks s1 !! a = Some t0) by apply lookup_insert_eq.
  apply wp_bind, (build_initial_stack_spec tr entry arg a t0); [done..| |].
  - (* no stack: the frame of the task is given back *)
    cbn [negb]. apply wp_bind, wp_on_frames.
    assert (Hbf : busy (frames s1) f = true).
    { change (frames s1) with p1. rewrite Hset by lia. by rewrite decide_True by (unfold in_run; lia). }
    eapply wp_mono; [apply (free_frame_law (frames s1) f Hf1 ltac:(lia) Hbf)| |done].
    intros [] p2 [Hf2 Hset2]. apply wp_ret, HQ0.
    assert (Hsame : forall g, 0 <= g -> busy p2 g = busy (frames s) g).
    { intros g Hg. rewrite Hset2 by done. change (frames s1) with p1. rewrite Hset by done.
      case_decide as Hd; [|done]. unfold in_run in Hd. replace g with f by lia. done. }
    split_and!; [|done| |done].
    + apply (sched_ok_outside l s _ a); try done; [cbn; lia| |].
      * intros g Hg Hb. cbn. by rewrite Hsame.
      * intros b Hb. cbn. by rewrite lookup_insert_ne.
    + intros b Hb. cbn. rewrite lookup_insert_ne; [done|]. by intros ->.
  - intros f' p2 m' Hf' Hmax' Hok2 Hfree2 Hset2 Hwords. cbn [negb].
    set (t1 := set_stack _ _). set (s2 := set_tasks _ _).
    assert (Hm2 : forall g, 0 <= g -> busy (frames s) g = true -> busy p2 g = true).
    { intros g Hg Hb. rewrite Hset2 by done. case_decide; [done|]. by apply Hmono. }
    assert (S2 : sched_ok l s2).
    { apply (sched_ok_outside l s _ a); try done; [cbn; lia|]. intros b Hb. cbn. by rewrite insert_insert_eq, lookup_insert_ne. }
    destruct (list_elem_of_split _ _ (so_current _ _ S)) as (l1 & l2 & Hl).
    destruct (ring_member s2 l _ (so_ring _ _ S2) (so_current _ _ S2)) as [cur Hcur].
    assert (Hac : a <> current_task s) by (intros Heq; apply Ha; rewrite Heq; apply S).
    apply wp_bind, wp_gets, wp_bind, (wp_get_task _ cur); [exact Hcur|].
    apply wp_bind, (wp_upd_task a _ t1); [apply lookup_insert_eq|].
    apply wp_bind, (wp_upd_task _ _ cur).
    { cbn [tasks set_tasks]. by rewrite lookup_insert_ne. }
    apply wp_ret. apply (HQ l1 l2 a); [done|]. cbn [tasks set_tasks].
    set (s3 := set_tasks _ _).
    assert (Hba : busy p2 f = true).
    { rewrite Hset2 by lia. case_decide; [done|]. rewrite Hset by lia. by rewrite decide_True by (unfold in_run; lia). }
    split.
    + apply (sched_ok_link l1 (current_task s) l2 s2 s3 a (set_next (next cur) t1)); try done.
      * by rewrite <- Hl.
      * by rewrite <- Hl.
      * unfold a. lia.
      * unfold a. lia.
      * unfold a. rewrite Z.div_mul by lia. exact Hba.
      * pose proof (clamp_range prio). pose proof (timeslice_range prio). unfold K64_MAX_PRIORITY in *.
        split; cbn; try done; try (unfold n; lia).
        { split; [unfold n; lia|]. intros Heq. destruct Ha. rewrite Heq. apply first_in, S. }
        unfold K64_DEFAULT_TIMESLICE in *. lia.
      * intros b u Hb Hu. rewrite <- Hl in Hb. cbn in Hu. rewrite insert_insert_eq, lookup_insert_ne in Hu by (by intros ->).
        destruct (so_task l s b u S Hb Hu) as [_ Hid _ _ _ _ _]. cbn. lia.
      * intros cur' Hcur'. assert (cur' = cur) as ->.
        { apply (inj Some). rewrite <- Hcur'. exact Hcur. }
        split; [done|]. cbn. by rewrite !insert_insert_eq.
    + done.
    + unfold a. rewrite Z.div_mul by lia. split_and!; [lia|done|exact Hba].
    + exists (set_next (next cur) t1), (f' * 4096).
      assert (Hg : tasks s3 !! a = Some (set_next (next cur) t1)) by (cbn; by rewrite lookup_insert_ne, lookup_insert_eq).
      split; [done|]. split_and!; try done.
      unfold a. rewrite !Z.div_mul by lia. intros g Hg'. pose proof (Hfree2 g Hg') as Hb.
      change (frames s1) with p1 in Hb. assert (0 <= g) by (unfold in_run in Hg'; lia). rewrite Hset in Hb by done.
      case_decide as Hd; [done|]. split_and!; [done| |unfold in_run in Hd; lia].
      cbn. rewrite Hset2 by done. by rewrite decide_True.
    + intros u. cbn. rewrite lookup_insert_ne, lookup_insert_eq by done. intros Hu. by injection Hu as <-.
    + intros b Hb1 Hb2. cbn. by rewrite !insert_insert_eq, !lookup_insert_ne.
    + intros b u. rewrite <- Hl. intros Hb Hbu. cbn. destruct (decide (b = current_task s)) as [->|Hne].
      * rewrite lookup_insert_eq. eexists. split; [done|]. cbn in Hcur.
        rewrite insert_insert_eq, lookup_insert_ne in Hcur by done. by simplify_eq.
      * rewrite !insert_insert_eq, !lookup_insert_ne by (done || by intros ->). exists u. split; [done|by destruct u].
Qed.

(** [k64_task_create_arg] either returns [NULL], and then the ring, the
    tasks and the free frames are as before, or the address of a new ready
    task in a frame that was free, linked behind the current one, whose stack
    (four other free frames) ends with the words that the interrupt return
    pops: the general registers with the argument in RDI, the entry point, the
    code segment, the flags with interrupts enabled, and the return address. *)
Theorem k64_task_create_spec l s tr entry arg prio space : sched_ok l s ->
  0 < next_task_id s < UINT64_MAX -> 0 <= k64_ticks s -> is_word tr -> is_word entry -> is_word arg ->
  wp (k64_task_create_arg tr entry arg prio space)
    (fun a s' => if a =? 0 then not_created l s s'
       else exists l1 l2, l = l1 ++ current_task s :: l2 /\ created tr entry arg prio space l1 l2 s a s')
    (fun _ => False) s.
Proof.
  intros S Hn Hk H1 H2 H3. apply (create_task_spec l); [done..|].
  intros l1 l2 a s' Hl C. destruct (cr_fresh _ _ _ _ _ _ _ _ _ _ C) as [Ha _].
  rewrite (proj2 (Z.eqb_neq _ _) Ha). by exists l1, l2.
Qed.
End create.
