(* ===== verification/SchedInv.v ===== *)
(** * Runs of the scheduler

    Every sequence of scheduler calls, timer interrupts and uses of the frame
    allocator by other components keeps the invariant of [SchedSpec]; and a
    task that stays ready is chosen: no task starves. *)
From Stdlib Require Import ZArith Lia.
From stdpp Require Import base list gmap fin_maps.
From S2P Require Import Prelude Exec Mem Pmm PmmSpec Frames Sched SchedSpec SchedTask.

Section runs.
Context {P : Type} `{!FrameAllocator P}.
Abbreviation st := (sched P).
Implicit Types (s : st) (t : k64_task_t) (l : list Z).

(** What can happen: the timer interrupt, the calls of [k64_sched.h], another
    component allocating and freeing frames, user mode entered or left. *)
Inductive op : Type :=
  | Timer (old_rsp : Z)
  | Yield
  | Sleep (n : Z)
  | Block
  | Wake (a : Z)
  | Stop (a : Z)
  | Exit
  | Create (task_return entry arg prio space : Z)
  | OtherFrames (p : P)
  | UserMode (b : bool).

Definition set_user (b : bool) s : st := mk_sched (current_task s) (task_list s) (next_task_id s) (tasks s)
  (stacks s) (frames s) (cr3_register s) (k64_ticks s) b.

Definition step (o : op) : M st unit :=
  match o with
  | Timer old => k64_sched_handle_timer old ;; mret tt
  | Yield => k64_sched_yield
  | Sleep n => k64_sched_sleep n
  | Block => k64_sched_block_current
  | Wake a => k64_sched_wake_task a
  | Stop a => k64_task_stop a
  | Exit => k64_task_exit_current
  | Create tr entry arg prio space => k64_task_create_arg tr entry arg prio space ;; mret tt
  | OtherFrames p => modify (set_frames p)
  | UserMode b => modify (set_user b)
  end.

(** The caller passes pointers to tasks of the ring, the counters are not near
    their ends, and the other components leave the frames of tasks alone. *)
Definition op_ok l s (o : op) : Prop :=
  match o with
  | Timer _ => ticks_left s
  | Wake a | Stop a => a = 0 \/ a ∈ l
  | Create tr entry arg _ _ => 0 < next_task_id s < UINT64_MAX /\ 0 <= k64_ticks s /\
      is_word tr /\ is_word entry /\ is_word arg
  | OtherFrames p => frames_ok p /\ forall a, a ∈ l -> busy p (a / 4096) = true
  | _ => True
  end.

(** ** Each operation keeps the invariant *)

(** An operation other than a tick in kernel mode: no task is switched, nobody
    waits longer or less, a ready task stays ready unless it is stopped, and
    at most one task is added, which has not waited. *)
Definition added l s l' s' : Prop := exists a l1 l2 t, l = l1 ++ current_task s :: l2 /\
  l' = l1 ++ current_task s :: a :: l2 /\ tasks s' !! a = Some t /\ wait_ticks t = 0.
Definition like (o : op) (c a : Z) t t' : Prop := fixed t t' /\ wait_ticks t' = wait_ticks t /\
  0 <= remaining_ticks t' <= remaining_ticks t /\
  (state t' = K64_TASK_STATE_RUNNING -> state t = K64_TASK_STATE_RUNNING) /\
  (a <> c -> o <> Stop a -> state t = K64_TASK_STATE_READY -> state t' = K64_TASK_STATE_READY).
Record calm (o : op) l s l' s' : Prop := {
  cm_current : current_task s' = current_task s;
  cm_ring : l' = l \/ added l s l' s';
  cm_tasks : forall a t, a ∈ l -> tasks s !! a = Some t ->
    exists t', tasks s' !! a = Some t' /\ (id t' = id t /\ priority t' = priority t /\
      wait_ticks t' = wait_ticks t /\ remaining_ticks t' <= remaining_ticks t /\
      (a <> current_task s -> o <> Stop a -> state t = K64_TASK_STATE_READY -> state t' = K64_TASK_STATE_READY))
}.

Definition stepped (o : op) l s l' s' : Prop := sched_ok l' s' /\
  (calm o l s l' s' \/ exists old r, o = Timer old /\ user_active s = false /\ l' = l /\ timer_done l s old r s').

Lemma like_refl o c a t : 0 <= remaining_ticks t -> like o c a t t.
Proof. intros. unfold like. split_and!; done || lia. Qed.

(** The tasks are changed one by one, the counters stay. *)
Lemma stepped_like o l s s' : sched_ok l s -> task_list s' = task_list s ->
  current_task s' = current_task s -> next_task_id s' = next_task_id s -> k64_ticks s <= k64_ticks s' ->
  frames_ok (frames s') -> (forall a, a ∈ l -> busy (frames s') (a / 4096) = true) ->
  (forall a t, a ∈ l -> tasks s !! a = Some t ->
     exists t', tasks s' !! a = Some t' /\ like o (current_task s) a t t') ->
  stepped o l s l s'.
Proof.
  intros S Hl Hc Hn Hk Hf Hb Ht. split.
  - apply (sched_ok_change l s); [done|done|lia|done|done|done|rewrite Hc; apply S|].
    intros a t Ha Hat. destruct (Ht a t Ha Hat) as (t' & Ht' & F & Hw & Hr & Hrun & _). exists t'.
    destruct (so_task l s a t S Ha Hat) as [_ _ _ _ Hrem Hwt Hrn]. rewrite Hc.
    split; [done|]. split; [done|]. split; [lia|]. split; [lia|]. auto.
  - left. split; [done|by left|]. intros a t Ha Hat.
    destruct (Ht a t Ha Hat) as (t' & Ht' & (F1 & F2 & _ & _) & Hw & Hr & _ & Hrdy).
    exists t'. split_and!; try done; lia.
Qed.

Lemma stepped_refl o l s : sched_ok l s -> stepped o l s l s.
Proof.
  intros S. apply stepped_like; try done; [apply S| |].
  - intros a Ha. by apply S.
  - intros a t Ha Hat. exists t. split; [done|]. apply like_refl.
    destruct (so_task l s a t S Ha Hat) as [_ _ _ _ Hr _ _]. lia.
Qed.

Lemma stepped_upd o l s a t f : sched_ok l s -> a ∈ l -> tasks s !! a = Some t ->
  like o (current_task s) a t (f t) -> wp (upd_task a f) (fun _ s' => stepped o l s l s') (fun _ => False) s.
Proof.
  intros S Ha Hat Hlike. apply (wp_upd_task _ _ t); [done|]. apply stepped_like; try done; [apply S| |].
  - intros b Hb. by apply S.
  - intros b u Hb Hbu. cbn [tasks set_tasks]. destruct (decide (a = b)) as [<-|Hne].
    + rewrite lookup_insert_eq. exists (f t). by simplify_eq.
    + rewrite lookup_insert_ne by done. exists u. split; [done|]. apply like_refl.
      destruct (so_task l s b u S Hb Hbu) as [_ _ _ _ Hr _ _]. lia.
Qed.

Lemma current_not_null l s : sched_ok l s -> (current_task s =? 0) = false.
Proof. intros S. apply Z.eqb_neq. eapply not_null; apply S. Qed.

Lemma step_ok l s o : sched_ok l s -> op_ok l s o ->
  wp (step o) (fun _ s' => exists l', stepped o l s l' s') (fun _ => False) s.
Proof.
  intros S Ho. pose proof (current_not_null l s S) as Hnn. pose proof (so_current _ _ S) as Hcl.
  destruct (ring_member s l _ (so_ring _ _ S) Hcl) as [t Ht].
  destruct (so_task l s _ t S Hcl Ht) as [_ _ _ _ Hrem _ _].
  assert (Hkeep : forall m : M st unit, wp m (fun _ s' => stepped o l s l s') (fun _ => False) s ->
    wp m (fun _ s' => exists l', stepped o l s l' s') (fun _ => False) s).
  { intros m Hm. eapply wp_mono; [exact Hm| |done]. intros [] s' S'. by exists l. }
  assert (Hself : forall f, fixed t (f t) -> wait_ticks (f t) = wait_ticks t ->
    0 <= remaining_ticks (f t) <= remaining_ticks t -> state (f t) <> K64_TASK_STATE_RUNNING \/ state (f t) = state t ->
    wp (upd_task (current_task s) f) (fun _ s' => stepped o l s l s') (fun _ => False) s).
  { intros f F Hw Hr Hs. apply (stepped_upd o l s _ t); [done|done|done|]. split_and!; try done; try lia.
    intros Hrun. destruct Hs as [?|Hs]; [done|congruence]. }
  destruct o as [old| |n| |a|a| |tr entry arg prio space|p|b]; cbn [step op_ok] in *.
  - apply Hkeep, wp_bind. destruct (user_active s) eqn:Hu.
    + unfold k64_sched_handle_timer. apply wp_bind, wp_gets. rewrite Hu. apply wp_bind, wp_modify, wp_ret, wp_ret.
      rewrite u64_small by (unfold ticks_left in Ho; lia).
      apply stepped_like; try done; [cbn; lia|apply S|intros c Hc; by apply S|].
      intros c u Hc Hcu. exists u. split; [done|]. apply like_refl.
      destruct (so_task l s c u S Hc Hcu) as [_ _ _ _ Hr _ _]. lia.
    + apply (handle_timer_kernel l); [done|done|done|]. intros r s' S' Hd. apply wp_ret.
      split; [done|]. right. by exists old, r.
  - apply Hkeep. unfold k64_sched_yield. apply wp_bind, wp_gets. rewrite Hnn.
    apply Hself; [done|done|cbn; lia|by right].
  - apply Hkeep. unfold k64_sched_sleep. apply wp_bind, wp_gets. rewrite Hnn.
    apply wp_bind, (wp_get_task _ t); [done|]. destruct (id t =? 0); [by apply wp_ret, stepped_refl|].
    apply wp_bind, wp_gets. apply Hself; [done|done|cbn; lia|by left].
  - apply Hkeep. unfold k64_sched_block_current. apply wp_bind, wp_gets. rewrite Hnn.
    apply wp_bind, (wp_get_task _ t); [done|]. destruct (id t =? 0); [by apply wp_ret, stepped_refl|].
    apply Hself; [done|done|cbn; lia|by left].
  - apply Hkeep. unfold k64_sched_wake_task. destruct (Z.eqb_spec a 0) as [|Hne]; [by apply wp_ret, stepped_refl|].
    destruct Ho as [?|Ha]; [done|]. destruct (ring_member s l a (so_ring _ _ S) Ha) as [u Hu].
    apply wp_bind, (wp_get_task _ u); [done|]. destruct (is_state _ u); cbn [negb]; [|by apply wp_ret, stepped_refl].
    destruct (so_task l s a u S Ha Hu) as [_ _ _ _ Hr Hw _].
    apply (stepped_upd _ l s a u); [done|done|done|]. split_and!; try done; cbn; lia.
  - apply Hkeep. unfold k64_task_stop. destruct (Z.eqb_spec a 0) as [|Hne]; [by apply wp_ret, stepped_refl|].
    destruct Ho as [?|Ha]; [done|]. destruct (ring_member s l a (so_ring _ _ S) Ha) as [u Hu].
    apply wp_bind, (wp_get_task _ u); [done|]. destruct (id u =? 0); [by apply wp_ret, stepped_refl|].
    destruct (so_task l s a u S Ha Hu) as [_ _ _ _ Hr Hw _].
    apply (stepped_upd _ l s a u); [done|done|done|]. split_and!; try done; cbn; lia.
  - apply Hkeep. unfold k64_task_exit_current. apply wp_bind, wp_gets. rewrite Hnn.
    apply Hself; [done|done|cbn; lia|by left].
  - destruct Ho as (Hn & Hk & H1 & H2 & H3). apply wp_bind, (create_task_spec l); [done..| |].
    + intros s' (S' & Hc & Hts & Hbusy). apply wp_ret. exists l. split; [done|]. left. split; [done|by left|].
      intros a u Ha Hau. exists u. rewrite Hts by done. by split_and!.
    + intros l1 l2 a s' Hl C. apply wp_ret. eexists. split; [apply C|]. left. split; [apply C| |].
      * right. destruct (cr_task _ _ _ _ _ _ _ _ _ _ C) as (u & base & Hu & _ & Hs & _).
        pose proof (cr_new _ _ _ _ _ _ _ _ _ _ C u Hu). by exists a, l1, l2, u.
      * intros b u Hb Hbu. rewrite Hl in Hb.
        destruct (cr_kept _ _ _ _ _ _ _ _ _ _ C b u Hb Hbu) as (u' & Hu' & Heq).
        exists u'. split; [done|]. rewrite Heq. by split_and!.
  - destruct Ho as [Hp Hb]. apply Hkeep, wp_modify. apply stepped_like; try done.
    intros c u Hc Hcu. exists u. split; [done|]. apply like_refl.
    destruct (so_task l s c u S Hc Hcu) as [_ _ _ _ Hr _ _]. lia.
  - apply Hkeep, wp_modify. apply stepped_like; try done; [apply S|intros c Hc; by apply S|].
    intros c u Hc Hcu. exists u. split; [done|]. apply like_refl.
    destruct (so_task l s c u S Hc Hcu) as [_ _ _ _ Hr _ _]. lia.
Qed.

Lemma stepped_length o l s l' s' : stepped o l s l' s' -> (length l <= length l')%nat.
Proof.
  intros [_ [[_ [->|(a & l1 & l2 & t & -> & -> & _)] _]|(old & r & _ & _ & -> & _)]]; [done| |done].
  rewrite !length_app. cbn. lia.
Qed.

(** ** Sequences of operations *)
Lemma chain_unique nx a l l' e : e ∉ l -> e ∉ l' -> chain nx (a :: l) e -> chain nx (a :: l') e -> l = l'.
Proof.
  revert a l'. induction l as [|b l IH]; intros a [|c l'] H1 H2; cbn [chain]; intros [Ha Hc] [Hb Hc'];
    rewrite Ha in Hb; apply (inj Some) in Hb; [done| | |].
  - destruct H2. rewrite Hb. by left.
  - destruct H1. rewrite Hb. by left.
  - subst c. f_equal. apply (IH b); [| |done|done]; intros Hin; [apply H1|apply H2]; by right.
Qed.

Lemma ring_unique s l l' : ring s l -> ring s l' -> l = l'.
Proof.
  intros [Hh Hn _ Hc] [Hh' Hn' _ Hc']. destruct l as [|a l], l' as [|a' l']; try done.
  cbn in Hh, Hh'. injection Hh as ->. injection Hh' as ->. f_equal.
  apply NoDup_cons in Hn as [Hn _], Hn' as [Hn' _]. by eapply chain_unique.
Qed.

(** [runs s os n s']: the operations [os], whose callers behave, lead from [s]
    to [s'], with [n] timer ticks in kernel mode among them. *)
Definition ticks_of s (o : op) : Z :=
  match o with Timer _ => if user_active s then 0 else 1 | _ => 0 end.

Inductive runs : st -> list op -> Z -> st -> Prop :=
  | runs_nil s : runs s [] 0 s
  | runs_cons s l o s1 os n s2 : ring s l -> op_ok l s o -> step o s = Ret tt s1 ->
      runs s1 os n s2 -> runs s (o :: os) (ticks_of s o + n) s2.

Lemma runs_ok s os n s' l : runs s os n s' -> sched_ok l s ->
  exists l', sched_ok l' s' /\ (length l <= length l')%nat.
Proof.
  intros H. revert l. induction H as [|s l o s1 os n s2 R Ho Hs _ IH]; intros l0 S; [by exists l0|].
  rewrite <- (ring_unique s l0 l (so_ring _ _ S) R) in Ho.
  destruct (wp_Ret _ _ _ _ _ _ (step_ok l0 s o S Ho) Hs) as (l1 & Hl).
  destruct (IH l1 (proj1 Hl)) as (l2 & S2 & Hlen). exists l2. split; [done|].
  apply stepped_length in Hl. lia.
Qed.

(** The state that [k64_sched_init] leaves. *)
Lemma sched_init_ok s bootstrap : bootstrap <> 0 -> 0 <= bootstrap -> busy (frames s) (bootstrap / 4096) = true ->
  frames_ok (frames s) -> next_task_id s = 1 -> 0 <= k64_ticks s ->
  wp (k64_sched_init bootstrap) (fun _ s' => sched_ok [bootstrap] s') (fun _ => False) s.
Proof.
  intros Hb Hp Hbusy Hf Hn Hk. apply wp_modify.
  assert (Hl : forall a, a ∈ [bootstrap] -> a = bootstrap) by (intros a; by rewrite list_elem_of_singleton).
  split; cbn [current_task task_list next_task_id k64_ticks frames tasks].
  - split; [done|apply NoDup_singleton|rewrite list_elem_of_singleton; congruence|].
    split; [|done]. unfold nx. cbn. by rewrite lookup_insert_eq.
  - by left.
  - intros a t ->%Hl Ht. rewrite lookup_insert_eq in Ht. injection Ht as <-.
    split; cbn; try done; try lia; unfold K64_MAX_PRIORITY, K64_DEFAULT_TIMESLICE; lia.
  - by intros a b t u ->%Hl ->%Hl.
  - done.
  - by intros a ->%Hl.
Qed.

(** C12: Whatever sequence of timer interrupts, scheduler calls and uses of
    the frame allocator follows [k64_sched_init]: the tasks form one ring
    without repetition that contains the current task; at most the current
    task is running; identifiers are unique and 0 is the bootstrap task's;
    priorities and time slices are in range; and every further operation
    ends and has no undefined behaviour. *)
Theorem scheduler_invariant s0 bootstrap s1 os n s : bootstrap <> 0 -> 0 <= bootstrap ->
  busy (frames s0) (bootstrap / 4096) = true -> frames_ok (frames s0) -> next_task_id s0 = 1 ->
  0 <= k64_ticks s0 -> k64_sched_init bootstrap s0 = Ret tt s1 -> runs s1 os n s ->
  exists l, sched_ok l s /\ forall o, op_ok l s o -> exists s', step o s = Ret tt s'.
Proof.
  intros Hb Hp Hbusy Hf Hn Hk Hi Hr.
  pose proof (wp_Ret _ _ _ _ _ _ (sched_init_ok s0 bootstrap Hb Hp Hbusy Hf Hn Hk) Hi) as S1.
  destruct (runs_ok s1 os n s _ Hr S1) as (l & S & _). exists l. split; [done|]. intros o Ho.
  pose proof (step_ok l s o S Ho) as Hw. unfold wp in Hw. destruct (step o s) as [[] s'| |]; [by exists s'|done..].
Qed.

(** The task that a timer tick switches to is the first one of the
    ring, from the bootstrap task on, with the highest score (priority times
    1024 plus the ticks it has waited) among the ready tasks, the task
    interrupted included; without one the bootstrap task runs.  It is marked
    running with a full slice, its stack pointer is the one returned and its
    address space is loaded. *)
Theorem pick_next_highest_score l s : sched_ok l s ->
  wp pick_next_rsp (fun r s' => exists sel t, chosen (demoted s) l sel /\
      current_task s' = match sel with Some (a, _) => a | None => task_list s end /\
      tasks s' !! current_task s' = Some t /\ state t = K64_TASK_STATE_RUNNING /\
      remaining_ticks t = base_timeslice t /\ wait_ticks t = 0 /\ r = rsp t /\
      (cr3 t <> 0 -> cr3_register s' = cr3 t) /\
      forall b, b <> current_task s' -> tasks s' !! b = demoted s !! b) (fun _ => False) s.
Proof.
  intros S. apply (pick_next_spec l); [done|]. intros r s' S' (sel & a & t & Hc & Ha & Ht & -> & ->).
  exists sel, (dispatched t). cbn [current_task tasks cr3_register]. rewrite lookup_insert_eq.
  split_and!; try done.
  - change (cr3 (dispatched t)) with (cr3 t). intros H0. by rewrite (proj2 (Z.eqb_neq _ _) H0).
  - intros b Hb. by rewrite lookup_insert_ne.
Qed.
End runs.
