(* ===== verification/SchedFair.v ===== *)
(** * No task starves

    The ticks that a ready task waits count in its score, so that it overtakes
    every task that has run since: in any run with enough timer ticks in kernel
    mode a task that is ready, and is not stopped, becomes the current task. *)
From Stdlib Require Import ZArith Lia.
From stdpp Require Import base list gmap fin_maps.
From S2P Require Import Prelude Exec Mem Pmm PmmSpec Frames Sched SchedSpec SchedTask SchedInv.

(** Counting the elements of a list that pass a test. *)
Definition count (f : Z -> bool) (l : list Z) : nat := length (List.filter f l).

Lemma count_le f g l : (forall a, a ∈ l -> f a = true -> g a = true) -> (count f l <= count g l)%nat.
Proof.
  unfold count. induction l as [|a l IH]; intros H; cbn; [lia|].
  assert (IH' := IH (fun b Hb => H b (list_elem_of_further _ _ _ Hb))). specialize (H a (list_elem_of_here _ _)).
  destruct (f a), (g a); cbn; (lia || by specialize (H eq_refl)).
Qed.

Lemma count_lt f g l x : (forall a, a ∈ l -> f a = true -> g a = true) -> x ∈ l -> f x = false -> g x = true ->
  (count f l < count g l)%nat.
Proof.
  intros H (l1 & l2 & ->)%list_elem_of_split Hf Hg.
  assert (H1 : (count f l1 <= count g l1)%nat) by (apply count_le; intros a Ha; apply H; rewrite elem_of_app; auto).
  assert (H2 : (count f l2 <= count g l2)%nat)
    by (apply count_le; intros a Ha; apply H; rewrite elem_of_app, elem_of_cons; auto).
  unfold count in *. rewrite !List.filter_app, !length_app. cbn. rewrite Hf, Hg. cbn. lia.
Qed.

Lemma count_length f l : (count f l <= length l)%nat.
Proof. unfold count. induction l as [|a l IH]; cbn; [lia|]. destruct (f a); cbn; lia. Qed.

Lemma count_insert f l1 c a l2 : f a = false -> count f (l1 ++ c :: a :: l2) = count f (l1 ++ c :: l2).
Proof. intros Ha. unfold count. rewrite !List.filter_app. cbn. by rewrite Ha. Qed.

Section fair.
Context {P : Type} `{!FrameAllocator P}.
Abbreviation st := (sched P).
Abbreviation op := (op (P := P)).
Implicit Types (s : st) (t : k64_task_t) (l : list Z).

(** The score without its reduction to 64 bits. *)
Definition points t : Z := 1024 * priority t + wait_ticks t.
Definition points_at s (a : Z) : Z := match tasks s !! a with Some t => points t | None => -1 end.

Lemma score_points l s a t : sched_ok l s -> k64_ticks s <= 9223372036854775808 -> a ∈ l ->
  tasks s !! a = Some t -> score t = points t.
Proof.
  intros S HT Ha Hat. destruct (so_task l s a t S Ha Hat) as [_ _ Hp _ _ Hw _]. unfold K64_MAX_PRIORITY in Hp.
  unfold score, points. rewrite (u32_small (priority t)), (u64_small (_ * 1024)), u64_small by lia. lia.
Qed.

(** The most that a task has when it has just run, or is new. *)
Definition reset_points : Z := 1024 * K64_MAX_PRIORITY.

(** [x] waits: it is ready, and another task is current. *)
Definition waits l s (x : Z) : Prop := x ∈ l /\ x <> current_task s /\
  exists t, tasks s !! x = Some t /\ id t <> 0 /\ state t = K64_TASK_STATE_READY.

(** The other tasks that would be chosen rather than [x]. *)
Definition ahead s (x a : Z) : bool := negb (a =? x) && (points_at s x <=? points_at s a).

Definition slice s : Z := match tasks s !! current_task s with Some t => remaining_ticks t | None => 0 end.

(** How many ticks [x] still waits, at most, in a ring of at most [N] tasks. *)
Definition delay (N : Z) l s (x : Z) : Z :=
  if points_at s x <=? reset_points then reset_points + 1 - points_at s x + 8 * (N + 1)
  else 8 * Z.of_nat (count (ahead s x) l) + slice s.

Lemma slice_range l s : sched_ok l s -> 0 <= slice s <= 7.
Proof.
  intros S. unfold slice. destruct (ring_member s l _ (so_ring _ _ S) (so_current _ _ S)) as [t Ht].
  rewrite Ht. destruct (so_task l s _ t S (so_current _ _ S) Ht) as [_ _ Hp Hb Hr _ _].
  unfold K64_MAX_PRIORITY, K64_DEFAULT_TIMESLICE in *. lia.
Qed.

Lemma delay_bound N l s x : sched_ok l s -> (Z.of_nat (length l) <= N) ->
  reset_points < points_at s x -> delay N l s x < 8 * (N + 1).
Proof.
  intros S HN Hp. unfold delay. rewrite (proj2 (Z.leb_gt _ _)) by lia.
  pose proof (slice_range l s S). pose proof (count_length (ahead s x) l). lia.
Qed.

(** The delay goes down when the points of [x] go up and nobody gets ahead. *)
Lemma delay_down N l s l' s' x d : sched_ok l' s' -> Z.of_nat (length l') <= N -> 0 <= d ->
  points_at s' x = points_at s x + d -> d <= 1 ->
  (reset_points < points_at s x ->
     8 * Z.of_nat (count (ahead s' x) l') + slice s' + d <= 8 * Z.of_nat (count (ahead s x) l) + slice s) ->
  delay N l' s' x + d <= delay N l s x.
Proof.
  intros S' HN Hd Hp Hd1 Hdown. destruct (Z.leb_spec (points_at s x) reset_points) as [Hle|Hgt].
  - unfold delay at 2. rewrite (proj2 (Z.leb_le _ _) Hle).
    destruct (Z.leb_spec (points_at s' x) reset_points) as [Hle'|Hgt'].
    + unfold delay. rewrite (proj2 (Z.leb_le _ _) Hle'). lia.
    + pose proof (delay_bound N l' s' x S' HN Hgt'). lia.
  - unfold delay. rewrite !(proj2 (Z.leb_gt _ _)) by lia. by apply Hdown.
Qed.

Lemma ahead_mono s s' x a : points_at s a - points_at s x >= points_at s' a - points_at s' x ->
  ahead s' x a = true -> ahead s x a = true.
Proof.
  unfold ahead. rewrite !andb_true_iff, !Z.leb_le. intros H [Hne Hp]. split; [done|lia].
Qed.

Lemma slice_same s s' t t' : tasks s !! current_task s = Some t -> tasks s' !! current_task s' = Some t' ->
  slice s = remaining_ticks t /\ slice s' = remaining_ticks t'.
Proof. unfold slice. by intros -> ->. Qed.

(** Any operation but a tick in kernel mode. *)
Lemma calm_delay N o l s l' s' x : calm o l s l' s' -> sched_ok l s -> sched_ok l' s' ->
  waits l s x -> o <> Stop x -> Z.of_nat (length l') <= N ->
  waits l' s' x /\ delay N l' s' x <= delay N l s x.
Proof.
  intros [Hc Hring Hts] S S' (Hx & Hxc & t & Ht & Hid & Hst) Ho HN.
  destruct (Hts x t Hx Ht) as (t' & Ht' & Hid' & Hp' & Hw' & _ & Hrdy).
  assert (Hpts : forall a, a ∈ l -> points_at s' a = points_at s a).
  { intros a Ha. destruct (ring_member s l a (so_ring _ _ S) Ha) as [u Hu].
    destruct (Hts a u Ha Hu) as (u' & Hu' & _ & Hpu & Hwu & _). unfold points_at. rewrite Hu, Hu'.
    unfold points. congruence. }
  assert (Hx' : x ∈ l').
  { destruct Hring as [->|(a & l1 & l2 & u & -> & -> & _)]; [done|]. revert Hx.
    rewrite !elem_of_app, !elem_of_cons. tauto. }
  split.
  { split; [done|]. split; [by rewrite Hc|]. exists t'. split_and!; [done|congruence|by apply Hrdy]. }
  rewrite <- (Z.add_0_r (delay N l' s' x)). apply delay_down; [done|done|lia| |lia|].
  { rewrite Hpts by done. lia. }
  intros Hgt. destruct (ring_member s l _ (so_ring _ _ S) (so_current _ _ S)) as [c Hcur].
  destruct (Hts _ c (so_current _ _ S) Hcur) as (c' & Hcur' & _ & _ & _ & Hrem & _). rewrite <- Hc in Hcur'.
  destruct (slice_same s s' c c' Hcur Hcur') as [-> ->].
  assert (Hcnt : (count (ahead s' x) l' <= count (ahead s x) l)%nat).
  { destruct Hring as [->|(a & l1 & l2 & u & Hl & -> & Hau & Hwu)].
    - apply count_le. intros a Ha. apply ahead_mono. rewrite !Hpts by done. lia.
    - rewrite count_insert, <- Hl.
      + apply count_le. intros b Hb. apply ahead_mono. rewrite !Hpts by done. lia.
      + assert (Hain : a ∈ l1 ++ current_task s :: a :: l2) by (rewrite elem_of_app, !elem_of_cons; tauto).
        destruct (so_task _ s' a u S' Hain Hau) as [_ _ Hpu _ _ _ _].
        unfold ahead. rewrite andb_comm. rewrite (proj2 (Z.leb_gt _ _)); [done|].
        unfold points_at at 1. rewrite Hau, Hpts by done. unfold points. rewrite Hwu.
        unfold reset_points in Hgt. lia. }
  lia.
Qed.

(** ** A tick in kernel mode *)
Lemma ticked_points l s old s1 x : ticked l s old s1 -> sched_ok l s -> ticks_left s -> waits l s x ->
  waits l s1 x /\ points_at s1 x = points_at s x + 1 /\ slice s1 = slice s /\
  forall a, a ∈ l -> ahead s1 x a = true -> ahead s x a = true.
Proof.
  intros T S HT (Hx & Hxc & t & Ht & Hid & Hst). pose proof (ticked_ok l s old s1 T S HT) as S1.
  assert (Hback : forall a, a ∈ l -> exists u u1, tasks s !! a = Some u /\ tasks s1 !! a = Some u1 /\
    points u <= points u1 <= points u + 1 /\ remaining_ticks u1 = remaining_ticks u /\ id u1 = id u /\
    (state u = K64_TASK_STATE_READY -> state u1 = K64_TASK_STATE_READY /\ points u1 = points u + 1)).
  { intros a Ha. destruct (ring_member s1 l a (so_ring _ _ S1) Ha) as [u1 Hu1].
    destruct (ticked_task l s old s1 a u1 T S HT Ha Hu1) as (u & Hu & (H1 & H2 & _ & _) & Hr & Hw & _ & _ & _ & _ & Hrdy).
    exists u, u1. unfold points. split_and!; try done; try lia.
    intros Hs. destruct (Hrdy Hs) as [? ?]. split; [done|lia]. }
  assert (Hxp : points_at s1 x = points_at s x + 1 /\ waits l s1 x).
  { destruct (Hback x Hx) as (u & u1 & Hu & Hu1 & _ & _ & Hid1 & Hrdy).
    rewrite Ht in Hu. injection Hu as <-.
    destruct (Hrdy Hst) as [Hs1 Hp1]. split; [unfold points_at; by rewrite Ht, Hu1|].
    split; [done|]. split; [by rewrite (ti_current _ _ _ _ T)|]. exists u1. split_and!; [done|congruence|done]. }
  split; [apply Hxp|]. split; [apply Hxp|]. split.
  - destruct (Hback _ (so_current _ _ S)) as (u & u1 & Hu & Hu1 & _ & Hr & _).
    rewrite <- (ti_current _ _ _ _ T) in Hu1. destruct (slice_same s s1 u u1 Hu Hu1) as [-> ->]. done.
  - intros a Ha. apply ahead_mono. destruct Hxp as [-> _].
    destruct (Hback a Ha) as (u & u1 & Hu & Hu1 & Hp & _). unfold points_at at 1 3. rewrite Hu, Hu1. lia.
Qed.

(** Points do not depend on the slice. *)
Lemma points_upd s a f t x : tasks s !! a = Some t -> priority (f t) = priority t ->
  wait_ticks (f t) = wait_ticks t -> points_at (set_tasks (<[a := f t]> (tasks s)) s) x = points_at s x.
Proof.
  intros Ht Hp Hw. unfold points_at. cbn [tasks set_tasks]. destruct (decide (a = x)) as [<-|Hne].
  - rewrite lookup_insert_eq, Ht. unfold points. congruence.
  - by rewrite lookup_insert_ne.
Qed.

Lemma ahead_ext s s' x a : (forall b, points_at s' b = points_at s b) -> ahead s' x a = ahead s x a.
Proof. intros H. unfold ahead. by rewrite !H. Qed.

Lemma demoted_points s a : match demoted s !! a with Some t => points t | None => -1 end = points_at s a.
Proof.
  unfold points_at, demoted. destruct (tasks s !! current_task s) as [t|] eqn:Ht; [|done].
  destruct (is_state _ t); [|done]. destruct (decide (current_task s = a)) as [<-|Hne].
  - by rewrite lookup_insert_eq, Ht.
  - by rewrite lookup_insert_ne.
Qed.

Lemma demoted_other s a : a <> current_task s -> demoted s !! a = tasks s !! a.
Proof.
  intros Hne. unfold demoted. destruct (tasks s !! current_task s); [|done].
  destruct (is_state _ _); [|done]. by rewrite lookup_insert_ne.
Qed.

(** When another task is chosen, it was ahead and is not any more. *)
Lemma picked_delay l s r s' x : picked l s r s' -> sched_ok l s -> k64_ticks s <= 9223372036854775808 ->
  waits l s x -> current_task s' = x \/ (waits l s' x /\ points_at s' x = points_at s x /\
    (reset_points < points_at s x -> (count (ahead s' x) l < count (ahead s x) l)%nat)).
Proof.
  intros (sel & a & t & Hsel & Ha & Hat & -> & _) S HT (Hx & Hxc & u & Hu & Hid & Hst).
  cbn [current_task]. destruct (decide (x = a)) as [|Hxa]; [by left|right].
  assert (Hdx : demoted s !! x = Some u) by (by rewrite demoted_other).
  destruct (demoted_ok l s S) as [S1 _]. set (s1 := set_tasks (demoted s) s) in *.
  assert (Hsc : forall b v, b ∈ l -> demoted s !! b = Some v -> score v = points_at s b).
  { intros b v Hb Hv. rewrite <- (demoted_points s b), Hv. by apply (score_points l s1 b v). }
  assert (Hel : a ∈ l /\ points_at s x <= points_at s a).
  { destruct sel as [[b sc]|]; cbn [chosen] in Hsel.
    - subst a. destruct Hsel as (l1 & l2 & v & Hl & Hv & Hev & -> & H1 & H2).
      assert (Hbl : b ∈ l) by (rewrite Hl, elem_of_app, elem_of_cons; tauto). split; [done|].
      rewrite (Hsc b v Hbl Hv) in H1, H2. rewrite Hl, elem_of_app, elem_of_cons in Hx. rewrite <- (Hsc x u) by
        (done || by rewrite Hl, elem_of_app, elem_of_cons).
      destruct Hx as [Hx|[?|Hx]]; [|by destruct Hxa|].
      + specialize (H1 x u Hx Hdx (conj Hid Hst)). lia.
      + by apply (H2 x u).
    - destruct (Hsel x u Hx Hdx (conj Hid Hst)). }
  destruct Hel as [Hal Hpa]. set (s' := mk_sched _ _ _ _ _ _ _ _ _).
  assert (Hother : forall b, b <> a -> tasks s' !! b = demoted s !! b).
  { intros b Hb. cbn. by rewrite lookup_insert_ne. }
  assert (Hpts : forall b, b <> a -> points_at s' b = points_at s b).
  { intros b Hb. unfold points_at at 1. rewrite Hother by done. apply demoted_points. }
  split; [|split; [by apply Hpts|]].
  { split; [done|]. split; [done|]. exists u. rewrite Hother by done. done. }
  destruct (so_task l s1 a t S1 Hal Hat) as [_ _ Hp _ _ _ _].
  assert (Hreset : points_at s' a <= reset_points).
  { unfold points_at. cbn [tasks s']. rewrite lookup_insert_eq. unfold points, reset_points. cbn. lia. }
  intros Hgt. apply (count_lt _ _ l a); [|done| |].
  - intros b Hb. destruct (decide (b = a)) as [->|Hba].
    + unfold ahead. rewrite andb_true_iff, Z.leb_le, (Hpts x) by done. lia.
    + apply ahead_mono. rewrite !Hpts by done. lia.
  - unfold ahead. rewrite (proj2 (Z.leb_gt _ _)); [apply andb_false_r|]. rewrite (Hpts x) by done. lia.
  - unfold ahead. rewrite (proj2 (Z.leb_le _ _)) by done. rewrite (proj2 (Z.eqb_neq _ _)); [done|]. by intros ->.
Qed.

Lemma timer_delay N l s old r s' x : timer_done l s old r s' -> sched_ok l s -> sched_ok l s' ->
  ticks_left s -> waits l s x -> Z.of_nat (length l) <= N ->
  current_task s' = x \/ (waits l s' x /\ delay N l s' x + 1 <= delay N l s x).
Proof.
  intros (s1 & T & Hcase) S S' HT Hw HN. pose proof (ticked_ok l s old s1 T S HT) as S1.
  destruct (ticked_points l s old s1 x T S HT Hw) as (W1 & Hp1 & Hsl1 & Hah1).
  assert (HT1 : k64_ticks s1 <= 9223372036854775808).
  { rewrite (ti_ticks _ _ _ _ T). unfold ticks_left in HT. lia. }
  pose proof (count_le _ _ l Hah1) as Hc1. pose proof (slice_range l s' S') as Hs'. pose proof (slice_range l s S) as Hs.
  destruct Hcase as [(t & Ht & _ & _ & Hrem & _ & ->)|(s2 & Hover & Hpick)].
  - right. assert (Hpts : forall b, points_at (set_tasks (<[current_task s1:=set_remaining (remaining_ticks t - 1) t]>
      (tasks s1)) s1) b = points_at s1 b) by (intros b; by apply (points_upd s1 _ (set_remaining (remaining_ticks t - 1)))).
    split.
    + destruct W1 as (Hx & Hxc & u & Hu & Hrest). split; [done|]. split; [done|]. exists u. cbn.
      by rewrite lookup_insert_ne.
    + apply delay_down; [done|done|lia|by rewrite Hpts|lia|]. intros _.
      assert (Hc2 : (count (ahead (set_tasks (<[current_task s1:=set_remaining (remaining_ticks t - 1) t]> (tasks s1)) s1) x) l
        <= count (ahead s1 x) l)%nat) by (apply count_le; intros b _; by rewrite (ahead_ext s1)).
      unfold slice at 1. cbn [tasks set_tasks current_task]. rewrite lookup_insert_eq. cbn [remaining_ticks set_remaining].
      unfold slice in Hsl1 at 1. rewrite Ht in Hsl1. lia.
  - assert (H2 : sched_ok l s2) by (by eapply slice_over_ok).
    assert (Hpts : waits l s2 x /\ (forall b, points_at s2 b = points_at s1 b) /\ k64_ticks s2 = k64_ticks s1).
    { destruct Hover as (t & Ht & [[-> _]|[_ ->]]); [done|]. split_and!; [|by intros b; apply (points_upd s1 _ (set_remaining 0))|done].
      destruct W1 as (Hx & Hxc & u & Hu & Hrest). split; [done|]. split; [done|]. exists u. cbn.
      by rewrite lookup_insert_ne. }
    destruct Hpts as (W2 & Hpts & Htk).
    destruct (picked_delay l s2 r s' x Hpick H2 ltac:(lia) W2) as [?|(W' & Hp' & Hcnt)]; [by left|right].
    split; [done|]. apply delay_down; [done|done|lia|by rewrite Hp', Hpts|lia|]. intros Hgt.
    rewrite Hpts, Hp1 in Hcnt. specialize (Hcnt ltac:(lia)).
    assert (Hc2 : (count (ahead s2 x) l <= count (ahead s1 x) l)%nat)
      by (apply count_le; intros b _; by rewrite (ahead_ext s1)).
    lia.
Qed.

Lemma delay_nonneg N l s x : sched_ok l s -> 0 <= N -> 0 <= delay N l s x.
Proof.
  intros S HN. unfold delay. pose proof (slice_range l s S). destruct (Z.leb_spec (points_at s x) reset_points); lia.
Qed.

Lemma runs_delay s os n s' l l' x N : runs s os n s' -> sched_ok l s -> sched_ok l' s' ->
  Z.of_nat (length l') <= N -> waits l s x -> Stop x ∉ os ->
  (exists os1 os2 n1 s1, os = os1 ++ os2 /\ runs s os1 n1 s1 /\ current_task s1 = x) \/
  n <= delay N l s x.
Proof.
  intros H. revert l. induction H as [s|s l0 o s1 os n s2 R Ho Hs Hr IH]; intros l S S' HN Hw Hns.
  { right. apply (delay_nonneg N l s x S). lia. }
  rewrite <- (ring_unique s l l0 (so_ring _ _ S) R) in Ho.
  destruct (wp_Ret _ _ _ _ _ _ (step_ok l s o S Ho) Hs) as (l1 & S1 & Hstep).
  assert (Hl1 : Z.of_nat (length l1) <= N).
  { destruct (runs_ok s1 os n s2 l1 Hr S1) as (l2 & S2 & Hlen).
    rewrite (ring_unique s2 l2 l' (so_ring _ _ S2) (so_ring _ _ S')) in Hlen. lia. }
  assert (Hnext : current_task s1 = x \/ (waits l1 s1 x /\ delay N l1 s1 x + ticks_of s o <= delay N l s x)).
  { destruct Hstep as [C|(old & r & -> & Hu & -> & Hd)].
    - destruct (calm_delay N o l s l1 s1 x C S S1 Hw) as [W1 Hd1]; [by intros ->; apply Hns; left|done|].
      destruct (decide (ticks_of s o = 0)) as [->|Hne]; [right; split; [done|lia]|].
      destruct o; try done. unfold ticks_of in *. destruct (user_active s) eqn:Hu; [done|].
      (* a tick in kernel mode is also a [timer_done] *)
      unfold step in Hs.
      assert (Hk : wp (k64_sched_handle_timer old_rsp ;; mret tt)
        (fun _ s' => sched_ok l s' /\ exists r, timer_done l s old_rsp r s') (fun _ => False) s).
      { apply wp_bind, (handle_timer_kernel l); [done|done|done|]. intros r s'' S'' Hd. apply wp_ret. eauto. }
      destruct (wp_Ret _ _ _ _ _ _ Hk Hs) as (S1' & r & Hd).
      rewrite (ring_unique s1 l1 l (so_ring _ _ S1) (so_ring _ _ S1')) in *.
      by apply (timer_delay N l s old_rsp r s1 x).
    - unfold ticks_of. rewrite Hu. by apply (timer_delay N l s old r s1 x). }
  destruct Hnext as [Hcur|[W1 Hd1]].
  - left. exists [o], os, (ticks_of s o + 0), s1. split_and!; [done| |done].
    eapply runs_cons; [exact R|by rewrite (ring_unique s l0 l R (so_ring _ _ S))|exact Hs|constructor].
  - destruct (IH l1 S1 S' HN W1) as [(os1 & os2 & n1 & s3 & -> & Hr1 & Hcur)|Hle].
    + intros Hin. apply Hns. by right.
    + left. exists (o :: os1), os2, (ticks_of s o + n1), s3. split_and!; [done| |done].
      eapply runs_cons; [exact R|by rewrite (ring_unique s l0 l R (so_ring _ _ S))|exact Hs|exact Hr1].
    + right. lia.
Qed.

End fair.
