(* ===== verification/CoreWitness.v ===== *)
(** * The theorems on memory and scheduling applied

    A machine with 64 page frames of which frame 0 holds the kernel, a memory
    map in the format of the loader, and a scheduler with two tasks. *)
From Stdlib Require Import ZArith Lia.
From stdpp Require Import base list gmap fin_maps.
From S2P Require Import Prelude Bitmap Exec Mem Pmm PmmSpec Frames Sched SchedSpec SchedTask SchedInv SchedFair.

(** ** Page frames *)
Definition pmm0 : pmm := mk_pmm (1 :: zeros (Nat.pred PMM_BITMAP_BYTES)) 64 1.

Lemma pmm0_ok : pmm_ok pmm0.
Proof.
  split; cbn [pmm_bitmap total_frames used_frames pmm0].
  - cbn [length]. rewrite zeros_length. assert (0 < PMM_BITMAP_BYTES)%nat; [|lia].
    pose proof bitmap_bytes. rewrite max_frames in *. lia.
  - apply Forall_cons_2; [by vm_compute|apply zeros_bytes_ok].
  - lia.
  - lia.
Qed.

Lemma pmm0_frame0 : frame_used pmm0 0 = true.
Proof. reflexivity. Qed.

Lemma four_frames : 0 < 4 <= K64_MAX_FRAMES.
Proof. rewrite max_frames. lia. Qed.

Lemma pmm_client_safe_witness :
  wp (exec_all [GetFrame; GetRun 4; PutBack 1]) (fun _ c => heap pmm0 (owned c) (cl_pmm c)) (fun _ => False)
    (mk_client pmm0 []).
Proof.
  refine (pmm_client_safe pmm0 _ pmm0_ok pmm0_frame0 _).
  apply Forall_cons_2; [exact I|]. apply Forall_cons_2; [exact four_frames|].
  apply Forall_cons_2; [exact I|apply Forall_nil_2].
Defined.

Lemma alloc_contiguous_first_fit_witness :
  wp (k64_pmm_alloc_contiguous 4) (fun a p' =>
    if a =? 0 then p' = pmm0 /\ forall y, 0 <= y -> y + 4 <= frame_limit pmm0 -> ~ run_free pmm0 y 4
    else exists f, a = f * K64_FRAME_SIZE /\ 0 < f /\ f + 4 <= frame_limit pmm0 /\ run_free pmm0 f 4 /\
      (forall y, 0 <= y < f -> ~ run_free pmm0 y 4) /\ taken pmm0 f 4 p') (fun _ => False) pmm0.
Proof. exact (alloc_contiguous_first_fit pmm0 4 pmm0_ok pmm0_frame0 four_frames). Defined.

(** The boot information at 36864 and a memory map with one region, [1 MiB .. 2 MiB). *)
Definition boot_info : list Z :=
  le_bytes 4 64 ++ zeros 40 ++ le_bytes 4 24 ++ le_bytes 4 37120.
Definition boot_map : list Z :=
  le_bytes 4 20 ++ le_bytes 8 1048576 ++ le_bytes 8 1048576 ++ le_bytes 4 1.
Definition boot_mem : mem := store_bytes (store_bytes ∅ 36864 boot_info) 37120 boot_map.

Lemma empty_mem_ok : mem_ok ∅.
Proof. intros a. by vm_compute. Qed.

Lemma boot_mem_ok : mem_ok boot_mem.
Proof.
  unfold boot_mem, boot_info, boot_map.
  repeat (apply store_bytes_ok; [|repeat apply Forall_app_2; auto using le_bytes_ok, zeros_bytes_ok]).
  apply empty_mem_ok.
Qed.

Lemma boot_flags : Z.testbit (mb_flags boot_mem 36864) 6 = true.
Proof. vm_compute. reflexivity. Qed.

Lemma boot_map_read : boot_regions boot_mem 36864 = [(1048576, 2097152)].
Proof. vm_compute. reflexivity. Qed.

Lemma boot_map_aligned : Forall page_aligned (boot_regions boot_mem 36864).
Proof. rewrite boot_map_read. apply Forall_cons_2; [split; reflexivity|apply Forall_nil_2]. Qed.

(** Frame 300 is at 1.17 MiB, behind the kernel image. *)
Lemma k64_pmm_init_frames_witness :
  wp (k64_pmm_init boot_mem MULTIBOOT_MAGIC 36864 1081344) (fun _ p' => pmm_ok p' /\
    forall f, 0 <= f < K64_MAX_FRAMES ->
      (all_available boot_mem 36864 f -> ~ precious boot_mem 36864 1081344 f -> frame_used p' f = false) /\
      (frame_used p' f = false -> part_available boot_mem 36864 f /\ ~ precious boot_mem 36864 1081344 f) /\
      (Forall page_aligned (boot_regions boot_mem 36864) ->
         frame_used p' f = false <-> all_available boot_mem 36864 f /\ ~ precious boot_mem 36864 1081344 f))
    (fun _ => False) pmm0 /\
  all_available boot_mem 36864 300 /\ Forall page_aligned (boot_regions boot_mem 36864).
Proof.
  split; [|split; [|exact boot_map_aligned]].
  - exact (k64_pmm_init_frames boot_mem 36864 1081344 pmm0 boot_mem_ok pmm0_ok ltac:(lia) ltac:(lia) boot_flags).
  - unfold all_available. rewrite boot_map_read. exists (1048576, 2097152). split; [apply list_elem_of_singleton; reflexivity|].
    unfold lies_in. cbn [fst snd]. lia.
Defined.

(** ** Tasks *)
Definition sched0 : sched pmm := mk_sched 0 0 1 ∅ ∅ pmm0 4096 0 false.
(** The bootstrap task lies in the kernel image, in frame 0. *)
Definition sched1 : sched pmm :=
  mk_sched 256 256 1 (<[256 := bootstrap_task 256 4096]> ∅) ∅ pmm0 4096 0 false.

Lemma pmm0_frames : frames_ok pmm0.
Proof. split; [exact pmm0_ok|exact pmm0_frame0]. Qed.

Lemma sched1_ok : sched_ok [256] sched1.
Proof.
  refine (wp_Ret _ _ _ _ _ _ (sched_init_ok sched0 256 _ _ pmm0_frame0 pmm0_frames eq_refl _) eq_refl); done.
Qed.

Definition new_task : op (P := pmm) := Create 16 32 48 1 0.

Lemma new_task_ok : op_ok [256] sched1 new_task.
Proof. repeat split; by vm_compute. Qed.

Section steps.
Context {P : Type} `{!FrameAllocator P}.
Implicit Types s : sched P.

Lemma step_runs l s o : sched_ok l s -> op_ok l s o ->
  exists l' s', stepped o l s l' s' /\ step o s = Ret tt s'.
Proof.
  intros S Ho. pose proof (step_ok l s o S Ho) as H. unfold wp in H.
  destruct (step o s) as [[] s'| |]; [|destruct H..]. destruct H as [l' H]. by exists l', s'.
Qed.

Lemma timer_clock l s old r s' : timer_done l s old r s' ->
  k64_ticks s' = k64_ticks s + 1 /\ user_active s' = user_active s.
Proof.
  intros (s1 & T & Hcase). rewrite <- (ti_ticks _ _ _ _ T), <- (ti_user _ _ _ _ T).
  destruct Hcase as [(t & _ & _ & _ & _ & _ & ->)|(s2 & (t & _ & Hs2) & (sel & a & u & _ & _ & _ & -> & _))]; [done|].
  by destruct Hs2 as [[-> _]|[_ ->]].
Qed.

(** The timer can tick as often as its counter lasts. *)
Lemma timer_runs n l s : sched_ok l s -> user_active s = false ->
  0 <= k64_ticks s -> k64_ticks s + Z.of_nat n < 9223372036854775808 ->
  exists s', runs s (replicate n (Timer 0)) (Z.of_nat n) s' /\ sched_ok l s'.
Proof.
  revert s. induction n as [|n IH]; intros s S Hu H0 Hn; [exists s; split; [constructor|done]|].
  assert (HT : ticks_left s) by (unfold ticks_left; lia).
  assert (Hk : wp (step (Timer 0)) (fun _ s' => sched_ok l s' /\ exists r, timer_done l s 0 r s') (fun _ => False) s).
  { apply wp_bind, (handle_timer_kernel l); [done|done|done|]. intros r s' S' Hd. apply wp_ret. eauto. }
  unfold wp in Hk. destruct (step (Timer 0) s) as [[] s1| |] eqn:Hs; [|done..].
  destruct Hk as (S1 & r & Hd). destruct (timer_clock l s 0 r s1 Hd) as [Hk1 Hu1].
  destruct (IH s1 S1 ltac:(congruence) ltac:(lia) ltac:(lia)) as (s' & Hr & S').
  exists s'. split; [|done]. replace (Z.of_nat (Datatypes.S n)) with (ticks_of s (Timer 0) + Z.of_nat n).
  - eapply (runs_cons s l); [apply S|exact HT|exact Hs|exact Hr].
  - unfold ticks_of. rewrite Hu. lia.
Qed.
End steps.

Lemma scheduler_invariant_witness : exists s n, runs sched1 [new_task; Timer 7] n s /\
  exists l, sched_ok l s /\ forall o, op_ok l s o -> exists s', step o s = Ret tt s'.
Proof.
  destruct (step_runs [256] sched1 new_task sched1_ok new_task_ok) as (l2 & s2 & [S2 C2] & H2).
  assert (HT : ticks_left s2).
  { destruct C2 as [_|(old & r & He & _)]; [|discriminate He].
    assert (Hk : wp (step new_task) (fun _ s => k64_ticks s = 0) (fun _ => True) sched1) by (vm_compute; reflexivity).
    pose proof (wp_Ret _ _ _ _ _ _ Hk H2) as Hz. cbv beta in Hz. unfold ticks_left. rewrite Hz. lia. }
  destruct (step_runs l2 s2 (Timer 7) S2 HT) as (l3 & s3 & _ & H3).
  assert (Hr : runs sched1 [new_task; Timer 7] (ticks_of sched1 new_task + (ticks_of s2 (Timer 7) + 0)) s3).
  { eapply (runs_cons sched1 [256]); [apply sched1_ok|exact new_task_ok|exact H2|].
    eapply (runs_cons s2 l2); [apply S2|exact HT|exact H3|constructor]. }
  exists s3, (ticks_of sched1 new_task + (ticks_of s2 (Timer 7) + 0)). split; [exact Hr|].
  refine (scheduler_invariant sched0 256 sched1 [new_task; Timer 7] _ s3 _ _ pmm0_frame0 pmm0_frames eq_refl _ eq_refl Hr);
    [discriminate|lia|cbn; lia].
Defined.

Lemma k64_task_create_spec_witness :
  wp (k64_task_create_arg 16 32 48 1 0)
    (fun a s' => if a =? 0 then not_created [256] sched1 s'
       else exists l1 l2, [256] = l1 ++ 256 :: l2 /\ created 16 32 48 1 0 l1 l2 sched1 a s')
    (fun _ => False) sched1.
Proof.
  exact (k64_task_create_spec [256] sched1 16 32 48 1 0 sched1_ok (proj1 new_task_ok) (Z.le_refl 0)
    (proj1 (proj2 (proj2 new_task_ok))) (proj1 (proj2 (proj2 (proj2 new_task_ok))))
    (proj2 (proj2 (proj2 (proj2 new_task_ok))))).
Defined.

Definition sched2 : sched pmm := match step new_task sched1 with Ret _ s => s | _ => sched1 end.

Lemma sched2_step : step new_task sched1 = Ret tt sched2.
Proof.
  unfold sched2. destruct (step_runs [256] sched1 new_task sched1_ok new_task_ok) as (l & s & _ & ->). reflexivity.
Qed.

Lemma sched2_ring : ring sched2 [256; 4096].
Proof.
  split.
  - vm_compute. reflexivity.
  - apply (bool_decide_eq_true_1 (NoDup [256; 4096])). vm_compute. reflexivity.
  - apply (bool_decide_eq_true_1 (0 ∉ [256; 4096])). vm_compute. reflexivity.
  - split; [|split; [|exact I]]; vm_compute; reflexivity.
Qed.

Lemma sched2_ok : sched_ok [256; 4096] sched2.
Proof.
  destruct (step_runs [256] sched1 new_task sched1_ok new_task_ok) as (l & s & [S _] & H).
  rewrite sched2_step in H. injection H as <-.
  rewrite <- (ring_unique sched2 l [256; 4096] (so_ring _ _ S) sched2_ring). exact S.
Qed.

Lemma sched2_waits : waits [256; 4096] sched2 4096.
Proof.
  split; [right; left|]. split; [vm_compute; discriminate|].
  assert (H : match tasks sched2 !! 4096 with
              | Some t => negb (id t =? 0) && is_state K64_TASK_STATE_READY t | None => false end = true)
    by (vm_compute; reflexivity).
  revert H. generalize (tasks sched2 !! 4096). intros [t|] H; [|discriminate H]. exists t.
  apply andb_true_iff in H as [Hi Hs]. split; [reflexivity|].
  split; [by apply Z.eqb_neq, negb_true_iff|by apply bool_decide_eq_true_1 in Hs].
Qed.

Lemma sched2_clock : k64_ticks sched2 = 0 /\ user_active sched2 = false.
Proof. split; vm_compute; reflexivity. Qed.

#[local] Opaque sched2.

Lemma pick_next_highest_score_witness :
  wp pick_next_rsp (fun r s' => exists sel t, chosen (demoted sched2) [256; 4096] sel /\
    current_task s' = match sel with Some (a, _) => a | None => task_list sched2 end /\
    tasks s' !! current_task s' = Some t /\ state t = K64_TASK_STATE_RUNNING /\
    remaining_ticks t = base_timeslice t /\ wait_ticks t = 0 /\ r = rsp t /\
    (cr3 t <> 0 -> cr3_register s' = cr3 t) /\
    forall b, b <> current_task s' -> tasks s' !! b = demoted sched2 !! b) (fun _ => False) sched2.
Proof. exact (pick_next_highest_score [256; 4096] sched2 sched2_ok). Defined.

