(* ===== verification/Shell.v ===== *)
(** * The command parser of the shell ([k64_shell_cmd.c])

    A line is a C string (its bytes, without the terminator; [None] for NULL).
    The parser returns the command and, through [arg_out], its argument: the
    rest of the line for the commands that take one, the empty string for the
    others. *)
From Stdlib Require Import ZArith Lia.
From stdpp Require Import base list.
From S2P Require Import Prelude.

Inductive k64_shell_cmd_t : Set :=
  | K64_SHELL_CMD_EMPTY
  | K64_SHELL_CMD_HELP
  | K64_SHELL_CMD_CLEAR
  | K64_SHELL_CMD_SYSFETCH
  | K64_SHELL_CMD_UNAME
  | K64_SHELL_CMD_TICKS
  | K64_SHELL_CMD_TASK
  | K64_SHELL_CMD_PS
  | K64_SHELL_CMD_SERIAL
  | K64_SHELL_CMD_SCHED
  | K64_SHELL_CMD_PANIC
  | K64_SHELL_CMD_ECHO
  | K64_SHELL_CMD_ELFRUN
  | K64_SHELL_CMD_YIELD
  | K64_SHELL_CMD_LAYOUT
  | K64_SHELL_CMD_SERVICECTL
  | K64_SHELL_CMD_DRIVERCTL
  | K64_SHELL_CMD_RELOAD
  | K64_SHELL_CMD_REBOOT
  | K64_SHELL_CMD_SHUTDOWN
  | K64_SHELL_CMD_SUDO
  | K64_SHELL_CMD_SYNC
  | K64_SHELL_CMD_UNKNOWN.

(** [c == ' ' || c == '\t' || c == '\n' || c == '\r'] *)
Definition is_space (c : Z) : bool := (c =? 32) || (c =? 9) || (c =? 10) || (c =? 13).

(** [while (is_space( *p)) p++;] *)
Fixpoint skip_spaces (p : list Z) : list Z :=
  match p with
  | c :: t => if is_space c then skip_spaces t else p
  | [] => []
  end.

Fixpoint starts_with_word (s word : list Z) : bool :=
  match word with
  | [] => match s with [] => true | c :: _ => is_space c end
  | w :: word =>
      match s with
      | c :: s => if c =? w then starts_with_word s word else false
      | [] => false
      end
  end.

Definition k64_shell_parse_command (line : option (list Z)) : k64_shell_cmd_t * list Z :=
  match line with
  | None => (K64_SHELL_CMD_EMPTY, [])
  | Some line =>
      let line := skip_spaces line in
      match line with
      | [] => (K64_SHELL_CMD_EMPTY, [])
      | _ =>
          if starts_with_word line (str "help") then (K64_SHELL_CMD_HELP, []) else
          if starts_with_word line (str "clear") then (K64_SHELL_CMD_CLEAR, []) else
          if starts_with_word line (str "sysfetch") then (K64_SHELL_CMD_SYSFETCH, []) else
          if starts_with_word line (str "uname") then (K64_SHELL_CMD_UNAME, []) else
          if starts_with_word line (str "ticks") then (K64_SHELL_CMD_TICKS, []) else
          if starts_with_word line (str "task") then (K64_SHELL_CMD_TASK, []) else
          if starts_with_word line (str "ps") then (K64_SHELL_CMD_PS, []) else
          if starts_with_word line (str "serial") then (K64_SHELL_CMD_SERIAL, []) else
          if starts_with_word line (str "sched") then (K64_SHELL_CMD_SCHED, []) else
          if starts_with_word line (str "panic") then (K64_SHELL_CMD_PANIC, []) else
          if starts_with_word line (str "elfrun") then (K64_SHELL_CMD_ELFRUN, skip_spaces (drop 6 line)) else
          if starts_with_word line (str "yield") then (K64_SHELL_CMD_YIELD, []) else
          if starts_with_word line (str "layout") then (K64_SHELL_CMD_LAYOUT, skip_spaces (drop 6 line)) else
          if starts_with_word line (str "servicectl")
          then (K64_SHELL_CMD_SERVICECTL, skip_spaces (drop 10 line)) else
          if starts_with_word line (str "driverctl") then (K64_SHELL_CMD_DRIVERCTL, skip_spaces (drop 9 line)) else
          if starts_with_word line (str "reload") then (K64_SHELL_CMD_RELOAD, skip_spaces (drop 6 line)) else
          if starts_with_word line (str "sudo") then (K64_SHELL_CMD_SUDO, skip_spaces (drop 4 line)) else
          if starts_with_word line (str "sync") then (K64_SHELL_CMD_SYNC, []) else
          if starts_with_word line (str "reboot") then (K64_SHELL_CMD_REBOOT, []) else
          if starts_with_word line (str "shutdown") then (K64_SHELL_CMD_SHUTDOWN, []) else
          if starts_with_word line (str "echo") then (K64_SHELL_CMD_ECHO, skip_spaces (drop 4 line)) else
          (K64_SHELL_CMD_UNKNOWN, [])
      end
  end.

(** ** The specification: the first word of the line, looked up in a table *)
Fixpoint first_word (s : list Z) : list Z :=
  match s with
  | c :: t => if is_space c then [] else c :: first_word t
  | [] => []
  end.

(** The command words; the flag says that the rest of the line is an
    argument. *)
Definition commands : list (list Z * (k64_shell_cmd_t * bool)) :=
  [(str "help", (K64_SHELL_CMD_HELP, false)); (str "clear", (K64_SHELL_CMD_CLEAR, false));
   (str "sysfetch", (K64_SHELL_CMD_SYSFETCH, false)); (str "uname", (K64_SHELL_CMD_UNAME, false));
   (str "ticks", (K64_SHELL_CMD_TICKS, false)); (str "task", (K64_SHELL_CMD_TASK, false));
   (str "ps", (K64_SHELL_CMD_PS, false)); (str "serial", (K64_SHELL_CMD_SERIAL, false));
   (str "sched", (K64_SHELL_CMD_SCHED, false)); (str "panic", (K64_SHELL_CMD_PANIC, false));
   (str "elfrun", (K64_SHELL_CMD_ELFRUN, true)); (str "yield", (K64_SHELL_CMD_YIELD, false));
   (str "layout", (K64_SHELL_CMD_LAYOUT, true)); (str "servicectl", (K64_SHELL_CMD_SERVICECTL, true));
   (str "driverctl", (K64_SHELL_CMD_DRIVERCTL, true)); (str "reload", (K64_SHELL_CMD_RELOAD, true));
   (str "sudo", (K64_SHELL_CMD_SUDO, true)); (str "sync", (K64_SHELL_CMD_SYNC, false));
   (str "reboot", (K64_SHELL_CMD_REBOOT, false)); (str "shutdown", (K64_SHELL_CMD_SHUTDOWN, false));
   (str "echo", (K64_SHELL_CMD_ECHO, true))].

Fixpoint find_command (w : list Z) (l : list (list Z * (k64_shell_cmd_t * bool))) : option (k64_shell_cmd_t * bool) :=
  match l with
  | [] => None
  | (w', c) :: l => if bool_decide (w = w') then Some c else find_command w l
  end.

(** The argument is what follows the command word, without leading blanks. *)
Definition command_of (line : list Z) : k64_shell_cmd_t * list Z :=
  let line := skip_spaces line in
  if bool_decide (line = []) then (K64_SHELL_CMD_EMPTY, []) else
  let w := first_word line in
  match find_command w commands with
  | Some (c, arg) => (c, if arg : bool then skip_spaces (drop (length w) line) else [])
  | None => (K64_SHELL_CMD_UNKNOWN, [])
  end.

Definition no_space (w : list Z) : bool := forallb (fun c => negb (is_space c)) w.

(** A line starts with a word exactly when that is its first word. *)
Lemma starts_with_word_first s w : no_space w = true -> starts_with_word s w = bool_decide (first_word s = w).
Proof.
  revert s. induction w as [|x w IH]; intros s Hw.
  - destruct s as [|c s]; [done|]. cbn [starts_with_word first_word].
    destruct (is_space c); symmetry; [by apply bool_decide_eq_true|by apply bool_decide_eq_false].
  - cbn [no_space forallb] in Hw. apply andb_true_iff in Hw as [Hx Hw]. destruct s as [|c s]; [done|]. cbn [starts_with_word first_word].
    destruct (Z.eqb_spec c x) as [->|Hne].
    + rewrite IH by done. destruct (is_space x); [done|]. apply bool_decide_ext. split; congruence.
    + symmetry. apply bool_decide_eq_false. destruct (is_space c); congruence.
Qed.

(** The parser decides by the first word of the line alone: it returns the
    command of the table whose word it is, with the rest of the line as the
    argument of the commands that take one; it never confuses a word with a
    longer one that it begins. *)
Theorem parse_command_first_word line : k64_shell_parse_command (Some line) = command_of line.
Proof.
  unfold k64_shell_parse_command, command_of. destruct (skip_spaces line) as [|c t] eqn:E; [done|].
  rewrite bool_decide_eq_false_2 by done. cbv zeta. rewrite !starts_with_word_first by reflexivity.
  generalize (c :: t). intros l. unfold commands. cbn [find_command].
  repeat match goal with
  | |- context [bool_decide (first_word l = ?w)] =>
      let H := fresh "H" in destruct (bool_decide_reflect (first_word l = w)) as [H|H]; [try rewrite H; reflexivity|clear H]
  end. done.
Qed.

Example parse_examples :
  k64_shell_parse_command (Some (str "  echo  hi there ")) = (K64_SHELL_CMD_ECHO, str "hi there ") /\
  k64_shell_parse_command (Some (str "psx")) = (K64_SHELL_CMD_UNKNOWN, []) /\
  k64_shell_parse_command None = (K64_SHELL_CMD_EMPTY, []).
Proof. by vm_compute. Qed.
