(* ===== verification/Config.v ===== *)
(** * The boot configuration ([k64_config.c], [k64_config.h])

    The settings [key=value] of the kernel command line.  Strings are the bytes
    before the terminator; [boot_mode] is the string in the array of that name.
    Of the terminal output only the keys reported as unknown are kept. *)
From Stdlib Require Import ZArith Lia.
From stdpp Require Import base list.
From S2P Require Import Prelude KString Shell.

Inductive k64_loglevel_t : Set :=
  | K64_LOGLEVEL_DEBUG
  | K64_LOGLEVEL_INFO
  | K64_LOGLEVEL_WARN
  | K64_LOGLEVEL_ERROR.

Record k64_config_t := mk_config {
  pit_hz : Z;
  log_level : k64_loglevel_t;
  boot_mode : list Z
}.

(** The configuration and the unknown keys reported so far. *)
Record config_state := mk_config_state {
  k64_config : k64_config_t;
  unknown_keys : list (list Z)
}.

Fixpoint parse_digits (v : Z) (s : list Z) : Z :=
  match s with
  | c :: s => if (48 <=? c) && (c <=? 57) then parse_digits (u32 (v * 10 + (c - 48))) s else v
  | [] => v
  end.
Definition parse_uint (s : list Z) : Z := parse_digits 0 s.

Definition parse_loglevel (v : list Z) : k64_loglevel_t :=
  if streq v (str "debug") then K64_LOGLEVEL_DEBUG else
  if streq v (str "info") then K64_LOGLEVEL_INFO else
  if streq v (str "warn") then K64_LOGLEVEL_WARN else
  if streq v (str "error") then K64_LOGLEVEL_ERROR else
  K64_LOGLEVEL_INFO.

(** One setting, with the key and the value as they lie in the two buffers. *)
Definition apply_setting (key val : list Z) (s : config_state) : config_state :=
  let c := k64_config s in
  if streq key (str "pit_hz") then
    let hz := parse_uint val in
    let hz := if hz =? 0 then 1000 else hz in
    mk_config_state (mk_config hz (log_level c) (boot_mode c)) (unknown_keys s)
  else if streq key (str "log_level") then
    mk_config_state (mk_config (pit_hz c) (parse_loglevel val) (boot_mode c)) (unknown_keys s)
  else if streq key (str "boot_mode") then
    mk_config_state (mk_config (pit_hz c) (log_level c) (bounded_copy 16 (Some val))) (unknown_keys s)
  else mk_config_state c (unknown_keys s ++ [key]).

(** [while ( *p && f( *p)) p++;]: the bytes passed, and the rest. *)
Fixpoint span (f : Z -> bool) (p : list Z) : list Z * list Z :=
  match p with
  | c :: t => if f c then let '(a, r) := span f t in (c :: a, r) else ([], p)
  | [] => ([], [])
  end.

(** The two buffers hold 31 and 63 bytes and a terminator. *)
Definition clamp (size : Z) (l : list Z) : list Z :=
  let len := Z.of_nat (length l) in
  take (Z.to_nat (if size <=? len then size - 1 else len)) l.

Fixpoint parse_loop (fuel : nat) (p : list Z) (s : config_state) : option config_state :=
  match fuel with
  | O => None
  | S fuel =>
      match skip_spaces p with
      | [] => Some s
      | p =>
          let '(key, p) := span (fun c => negb (c =? 61) && negb (is_space c)) p in
          match p with
          | c :: t =>
              if c =? 61 then
                let '(val, p) := span (fun c => negb (is_space c)) t in
                parse_loop fuel p (apply_setting (clamp 32 key) (clamp 64 val) s)
              else
                let '(_, p) := span (fun c => negb (is_space c)) p in
                parse_loop fuel p s
          | [] => parse_loop fuel [] s
          end
      end
  end.

(** Every round passes at least one byte. *)
Definition parse_cmdline (cmdline : list Z) (s : config_state) : option config_state :=
  parse_loop (S (length cmdline)) cmdline s.

Definition default_config : k64_config_t := mk_config 1000 K64_LOGLEVEL_DEBUG (str "live").

(** [flags] and [cmdline] are those of the boot information. *)
Definition k64_config_init (magic flags : Z) (cmdline : option (list Z)) (s : config_state)
    : option config_state :=
  let s := mk_config_state default_config (unknown_keys s) in
  if negb (magic =? 0x2BADB002) then Some s else
  if negb (Z.land flags (Z.shiftl 1 2) =? 0) then
    match cmdline with
    | Some (c :: t) => parse_cmdline (c :: t) s
    | _ => Some s
    end
  else Some s.

Definition k64_config_is_installer_mode (s : config_state) : bool :=
  streq (boot_mode (k64_config s)) (str "installer") || streq (boot_mode (k64_config s)) (str "install").

(** ** The specification: word by word *)

(** The words of a line: the maximal runs of bytes that are no blanks. *)
Definition flush (w : list Z) (ws : list (list Z)) : list (list Z) :=
  match w with [] => ws | _ => w :: ws end.
Fixpoint words_from (w l : list Z) : list (list Z) :=
  match l with
  | [] => flush w []
  | c :: l => if is_space c then flush w (words_from [] l) else words_from (w ++ [c]) l
  end.
Definition words (l : list Z) : list (list Z) := words_from [] l.

(** A word is a setting when it has a [=]: the first one ends the key. *)
Fixpoint split_setting (w : list Z) : option (list Z * list Z) :=
  match w with
  | [] => None
  | c :: w =>
      if c =? 61 then Some ([], w)
      else '(k, v) ← split_setting w; Some (c :: k, v)
  end.

Definition apply_word (s : config_state) (w : list Z) : config_state :=
  match split_setting w with
  | Some (key, val) => apply_setting (take 31 key) (take 63 val) s
  | None => s
  end.

Definition not_blank (c : Z) : bool := negb (is_space c).

Lemma clamp_take size l : 1 <= size -> clamp size l = take (Z.to_nat (size - 1)) l.
Proof.
  intros H. unfold clamp. destruct (Z.leb_spec size (Z.of_nat (length l))); [done|].
  rewrite !take_ge by lia. done.
Qed.

Lemma span_spec f l : let '(a, r) := span f l in l = a ++ r /\ forallb f a = true /\
  match r with [] => True | c :: _ => f c = false end.
Proof.
  induction l as [|c l IH]; cbn [span]; [done|]. destruct (f c) eqn:Hc; [|done].
  destruct (span f l) as [a r]. destruct IH as (-> & Ha & Hr). split_and!; [done|cbn; by rewrite Hc|done].
Qed.

Lemma words_word w w' r : forallb not_blank w = true -> words_from w' (w ++ r) = words_from (w' ++ w) r.
Proof.
  revert w'. induction w as [|c w IH]; intros w' H; [by rewrite app_nil_r|].
  cbn in H. apply andb_true_iff in H as [Hc Hw]. cbn [app words_from]. unfold not_blank in Hc.
  apply negb_true_iff in Hc. rewrite Hc, IH by done. by rewrite <- app_assoc.
Qed.

Lemma words_skip l : words (skip_spaces l) = words l.
Proof. induction l as [|c l IH]; [done|]. cbn [skip_spaces]. unfold words. cbn [words_from]. by destruct (is_space c) eqn:E; [|cbn [words_from]; rewrite E]. Qed.

(** A word at the front. *)
Lemma words_front w r : forallb not_blank w = true -> w <> [] ->
  match r with [] => True | c :: _ => not_blank c = false end -> words (w ++ r) = w :: words r.
Proof.
  intros Hw Hne Hr. unfold words. rewrite words_word by done. cbn [app]. destruct w as [|x w]; [done|].
  destruct r as [|c r]; [done|]. cbn [words_from]. apply negb_false_iff in Hr. by rewrite Hr.
Qed.

Lemma split_setting_app k v : forallb (fun c => negb (c =? 61)) k = true -> split_setting (k ++ 61 :: v) = Some (k, v).
Proof.
  induction k as [|c k IH]; intros H; [done|]. cbn in H. apply andb_true_iff in H as [Hc Hk].
  cbn [app split_setting]. apply negb_true_iff in Hc. rewrite Hc, IH by done. done.
Qed.

Lemma split_setting_none w : forallb (fun c => negb (c =? 61)) w = true -> split_setting w = None.
Proof.
  induction w as [|c w IH]; intros H; [done|]. cbn in H. apply andb_true_iff in H as [Hc Hw].
  cbn [split_setting]. apply negb_true_iff in Hc. by rewrite Hc, IH.
Qed.

Lemma forallb_key k : forallb (fun c => negb (c =? 61) && negb (is_space c)) k = true ->
  forallb (fun c => negb (c =? 61)) k = true /\ forallb not_blank k = true.
Proof.
  induction k as [|c k IH]; [done|]. cbn [forallb]. rewrite !andb_true_iff. intros [[H1 H2] H3].
  destruct (IH H3). by split_and!.
Qed.

Lemma skip_spaces_shape l : (length (skip_spaces l) <= length l)%nat /\
  match skip_spaces l with [] => True | c :: _ => is_space c = false end.
Proof.
  induction l as [|c l [IH1 IH2]]; [done|]. cbn [skip_spaces]. destruct (is_space c) eqn:E; [|done].
  split; [cbn; lia|done].
Qed.

(** The loop handles the words in order, and its fuel is enough. *)
Lemma parse_loop_words fuel p s : (length p < fuel)%nat -> parse_loop fuel p s = Some (fold_left apply_word (words p) s).
Proof.
  revert p s. induction fuel as [|fuel IH]; intros p s Hf; [lia|]. cbn [parse_loop]. rewrite <- (words_skip p).
  destruct (skip_spaces_shape p) as [Hl Hc]. destruct (skip_spaces p) as [|c t]; [done|].
  set (q := c :: t) in *. pose proof (span_spec (fun c => negb (c =? 61) && negb (is_space c)) q) as HS.
  destruct (span _ q) as [key r]. destruct HS as (Hq & Hk & Hr). apply forallb_key in Hk as [Hk1 Hk2].
  assert (Hlen : length q = (length key + length r)%nat) by (rewrite Hq; apply length_app).
  destruct r as [|d r].
  - rewrite IH by (cbn; unfold q in *; cbn in *; lia). rewrite app_nil_r in Hq.
    rewrite Hq, <- (app_nil_r key), words_front; [|done| |done]; [|intros ->; done].
    cbn. unfold apply_word. by rewrite split_setting_none.
  - destruct (Z.eqb_spec d 61) as [->|Hd].
    + pose proof (span_spec (fun c => negb (is_space c)) r) as HV. destruct (span _ r) as [val r2].
      destruct HV as (-> & Hv & Hr2). cbn [length] in Hlen. rewrite length_app in Hlen. rewrite IH by lia.
      rewrite Hq. replace (key ++ 61 :: val ++ r2) with ((key ++ 61 :: val) ++ r2) by (by rewrite <- app_assoc).
      rewrite words_front; [|rewrite forallb_app; apply andb_true_iff; by split|by destruct key|done].
      cbn [fold_left]. unfold apply_word at 3. rewrite split_setting_app by done. by rewrite !clamp_take by lia.
    + cbn [negb andb] in Hr. apply negb_false_iff in Hr. cbn [span]. rewrite Hr. cbn [negb].
      assert (Hne : key <> []). { intros ->. injection Hq as -> ->. congruence. }
      assert (0 < length key)%nat by (destruct key; [done|cbn; lia]). rewrite IH by lia.
      rewrite Hq, words_front; [|done|done|unfold not_blank; by rewrite Hr].
      cbn [fold_left]. unfold apply_word at 3. by rewrite split_setting_none.
Qed.

(** ** The configuration is well-formed *)
Record config_ok (c : k64_config_t) : Prop := {
  hz_range : 1 <= pit_hz c < 4294967296;
  mode_fits : (length (boot_mode c) <= 15)%nat
}.

Lemma parse_digits_range v s : 0 <= v < 4294967296 -> 0 <= parse_digits v s < 4294967296.
Proof.
  revert v. induction s as [|c s IH]; intros v Hv; cbn [parse_digits]; [done|].
  destruct (_ && _); [|done]. apply IH. apply u32_range.
Qed.

Lemma apply_setting_ok k v s : config_ok (k64_config s) -> config_ok (k64_config (apply_setting k v s)).
Proof.
  intros [H1 H2]. unfold apply_setting. pose proof (parse_digits_range 0 v ltac:(lia)) as Hv.
  repeat match goal with |- context [if streq ?a ?b then _ else _] => destruct (streq a b) end; split; cbn; try done.
  - unfold parse_uint. destruct (Z.eqb_spec (parse_digits 0 v) 0); lia.
  - rewrite copy_chars_take, length_take. lia.
Qed.

Lemma fold_words_ok ws s : config_ok (k64_config s) -> config_ok (k64_config (fold_left apply_word ws s)).
Proof.
  revert s. induction ws as [|w ws IH]; intros s H; [done|]. cbn [fold_left]. apply IH. unfold apply_word.
  destruct (split_setting w) as [[k v]|]; [by apply apply_setting_ok|done].
Qed.

(** Booting with a command line: the configuration is the defaults changed by
    the words of the line from left to right, each word with a [=] a setting;
    the parser always ends; and the timer frequency is a positive 32-bit number
    and the boot mode fits its buffer, whatever the line says. *)
Theorem k64_config_init_words flags line s : Z.testbit flags 2 = true ->
  exists s', k64_config_init 0x2BADB002 flags (Some line) s = Some s' /\
    s' = fold_left apply_word (words line) (mk_config_state default_config (unknown_keys s)) /\
    config_ok (k64_config s').
Proof.
  intros Hf. unfold k64_config_init. rewrite Z.eqb_refl. cbn [negb].
  assert (Hn : Z.land flags (Z.shiftl 1 2) <> 0).
  { intros H. apply (f_equal (fun z => Z.testbit z 2)) in H. rewrite Z.land_spec, Hf in H. discriminate H. }
  rewrite (proj2 (Z.eqb_neq _ _) Hn). cbn [negb]. eexists. split; [|split; [reflexivity|]].
  - destruct line as [|c t]; [done|]. apply parse_loop_words. lia.
  - apply fold_words_ok. split; cbn; lia.
Qed.

(** ** Writing a configuration as a command line *)
Fixpoint digits (fuel : nat) (n : Z) : list Z :=
  match fuel with
  | O => []
  | S fuel => if n <? 10 then [48 + n] else digits fuel (n / 10) ++ [48 + n mod 10]
  end.

Lemma parse_digits_snoc v ds d : forallb (fun c => (48 <=? c) && (c <=? 57)) ds = true -> 0 <= d < 10 ->
  parse_digits v (ds ++ [48 + d]) = u32 (parse_digits v ds * 10 + d).
Proof.
  revert v. induction ds as [|c ds IH]; intros v H Hd; cbn [app parse_digits].
  - rewrite (proj2 (Z.leb_le _ _)), (proj2 (Z.leb_le _ _)) by lia. cbn [andb]. f_equal. lia.
  - cbn in H. apply andb_true_iff in H as [Hc H]. rewrite Hc. by apply IH.
Qed.

Lemma digits_spec fuel n : 0 <= n < 10 ^ Z.of_nat fuel ->
  forallb (fun c => (48 <=? c) && (c <=? 57)) (digits fuel n) = true /\
  (n < 4294967296 -> parse_uint (digits fuel n) = n).
Proof.
  revert n. induction fuel as [|fuel IH]; intros n Hn; [cbn in *; split; [done|lia]|].
  rewrite Nat2Z.inj_succ, Z.pow_succ_r in Hn by lia. cbn [digits]. destruct (Z.ltb_spec n 10) as [H|H].
  - split.
    + cbn. by rewrite (proj2 (Z.leb_le 48 _)), (proj2 (Z.leb_le _ 57)) by lia.
    + intros _. change (parse_uint [48 + n]) with (parse_digits 0 ([] ++ [48 + n])).
      rewrite parse_digits_snoc by (done || lia). apply u32_small. cbn. lia.
  - destruct (IH (n / 10)) as [H1 H2]; [dmlia|]. pose proof (Z.mod_pos_bound n 10 ltac:(lia)). split.
    + rewrite forallb_app, H1. cbn. by rewrite (proj2 (Z.leb_le 48 _)), (proj2 (Z.leb_le _ 57)) by lia.
    + intros Hlt. unfold parse_uint in *. rewrite parse_digits_snoc, H2 by (done || dmlia). unfold u32. dmlia.
Qed.

Lemma digits_length fuel n : (length (digits fuel n) <= fuel)%nat.
Proof.
  revert n. induction fuel as [|fuel IH]; intros n; cbn [digits]; [done|].
  destruct (n <? 10); [cbn; lia|]. rewrite length_app. specialize (IH (n / 10)). cbn. lia.
Qed.

Definition level_name (l : k64_loglevel_t) : list Z :=
  match l with
  | K64_LOGLEVEL_DEBUG => str "debug"
  | K64_LOGLEVEL_INFO => str "info"
  | K64_LOGLEVEL_WARN => str "warn"
  | K64_LOGLEVEL_ERROR => str "error"
  end.

(** A command line for a configuration. *)
Definition render (c : k64_config_t) : list Z :=
  (str "pit_hz" ++ 61 :: digits 10 (pit_hz c)) ++ 32 ::
  (str "log_level" ++ 61 :: level_name (log_level c)) ++ 32 ::
  (str "boot_mode" ++ 61 :: boot_mode c).

Lemma digit_not_blank ds : forallb (fun c => (48 <=? c) && (c <=? 57)) ds = true -> forallb not_blank ds = true.
Proof.
  induction ds as [|c ds IH]; [done|]. cbn [forallb]. rewrite !andb_true_iff. intros [[H1%Z.leb_le H2%Z.leb_le] H].
  split; [|by apply IH]. unfold not_blank, is_space. by rewrite !(proj2 (Z.eqb_neq _ _)) by lia.
Qed.

Lemma words_blank l : words (32 :: l) = words l.
Proof. done. Qed.

(** A configuration written as a command line is read back, whatever the
    configuration was before. *)
Theorem config_roundtrip c s : config_ok c -> forallb not_blank (boot_mode c) = true ->
  parse_cmdline (render c) s = Some (mk_config_state c (unknown_keys s)).
Proof.
  intros [Hz Hm] Hb. unfold parse_cmdline. rewrite parse_loop_words by lia. f_equal. unfold render.
  destruct (digits_spec 10 (pit_hz c) ltac:(cbn; lia)) as [Hd Hp]. pose proof (digits_length 10 (pit_hz c)) as Hl.
  rewrite words_front, words_blank; [|rewrite forallb_app; cbn [forallb]; rewrite (digit_not_blank _ Hd); reflexivity|done|done].
  rewrite words_front, words_blank; [|by destruct (log_level c)|done|done].
  rewrite <- (app_nil_r (str "boot_mode" ++ _)), words_front; [|rewrite forallb_app; cbn [forallb]; rewrite Hb; reflexivity|done|done].
  cbn [fold_left words words_from flush]. unfold apply_word. rewrite !split_setting_app by reflexivity.
  rewrite (take_ge (digits _ _)), (take_ge (boot_mode c)) by lia. unfold apply_setting.
  replace (streq (take 31 (str "pit_hz")) (str "pit_hz")) with true by reflexivity.
  replace (streq (take 31 (str "log_level")) (str "pit_hz")) with false by reflexivity.
  replace (streq (take 31 (str "log_level")) (str "log_level")) with true by reflexivity.
  replace (streq (take 31 (str "boot_mode")) (str "pit_hz")) with false by reflexivity.
  replace (streq (take 31 (str "boot_mode")) (str "log_level")) with false by reflexivity.
  replace (streq (take 31 (str "boot_mode")) (str "boot_mode")) with true by reflexivity.
  cbn [k64_config unknown_keys pit_hz log_level boot_mode]. rewrite Hp by lia. rewrite (proj2 (Z.eqb_neq _ _)) by lia.
  rewrite bounded_copy_Some, (take_ge (boot_mode c)) by lia. destruct c as [hz l m]. cbn. by destruct l.
Qed.

(** A boot of the installer. *)
Definition installer_line : list Z := str "pit_hz=250 quiet  boot_mode=installer color=red".

Lemma k64_config_init_words_witness : exists s', k64_config_init 0x2BADB002 4 (Some installer_line) (mk_config_state default_config []) = Some s' /\
  s' = mk_config_state (mk_config 250 K64_LOGLEVEL_DEBUG (str "installer")) [str "color"] /\
  k64_config_is_installer_mode s' = true.
Proof.
  destruct (k64_config_init_words 4 installer_line (mk_config_state default_config []) eq_refl) as (s' & H & E & _).
  exists s'. split; [exact H|]. split; [rewrite E; vm_compute; reflexivity|]. rewrite E. vm_compute. reflexivity.
Defined.
