(* ===== verification/Keyboard.v ===== *)
(** * The keyboard driver ([k64_keyboard.c], [k64_keyboard.h])

    Scan codes arrive by interrupt, are translated with the state of the
    modifier keys and one of two layouts, and wait as key events in a ring
    buffer for their readers.  The port that delivers the scan code is an
    argument of the handler; what the driver asks of the interrupt controller is
    recorded in [pic]. *)
From Stdlib Require Import ZArith Lia.
From stdpp Require Import base list.
From S2P Require Import Prelude Exec.

Inductive k64_key_type_t : Set :=
  | K64_KEY_NONE
  | K64_KEY_CHAR
  | K64_KEY_ENTER
  | K64_KEY_BACKSPACE
  | K64_KEY_DELETE
  | K64_KEY_LEFT
  | K64_KEY_RIGHT
  | K64_KEY_UP
  | K64_KEY_DOWN
  | K64_KEY_TAB
  | K64_KEY_ESCAPE.

#[global] Instance key_type_eq_dec : EqDecision k64_key_type_t.
Proof. solve_decision. Defined.

Record k64_key_event_t := mk_event { type : k64_key_type_t; ch : Z }.

(** The values of the enumeration; the setter takes any [int]. *)
Definition K64_KEYBOARD_LAYOUT_US : Z := 0.
Definition K64_KEYBOARD_LAYOUT_DE : Z := 1.

Definition KBD_BUF_SIZE : Z := 128.
Definition KBD_IRQ : Z := 1.

Record k64_keyboard_map_t := mk_map {
  name : list Z;
  normal : list Z;
  shifted : list Z;
  altgr : list Z
}.

(** An array of 128 characters, zero but for the given runs: the index of the
    first key and the characters from there on. *)
Definition keys (rows : list (nat * list Z)) : list Z :=
  fold_left (fun l r => splice l r.1 r.2) rows (zeros 128).

Definition us_normal : list Z := keys
  [(1%nat, [27]); (2%nat, str "1234567890-="); (14%nat, [8; 9]); (16%nat, str "qwertyuiop[]"); (28%nat, [10]);
   (30%nat, str "asdfghjkl;'`"); (43%nat, str "\zxcvbnm,./"); (55%nat, str "*"); (57%nat, str " ")].
Definition us_shifted : list Z := keys
  [(1%nat, [27]); (2%nat, str "!@#$%^&*()_+"); (14%nat, [8; 9]); (16%nat, str "QWERTYUIOP{}"); (28%nat, [10]);
   (30%nat, str "ASDFGHJKL:"); (40%nat, [34]); (41%nat, str "~"); (43%nat, str "|ZXCVBNM<>?"); (55%nat, str "*");
   (57%nat, str " ")].
Definition de_normal : list Z := keys
  [(1%nat, [27]); (2%nat, str "1234567890'"); (14%nat, [8; 9]); (16%nat, str "qwertzuiop"); (27%nat, str "+");
   (28%nat, [10]); (30%nat, str "asdfghjkl"); (41%nat, str "^"); (43%nat, str "#yxcvbnm,.-"); (55%nat, str "*");
   (57%nat, str " ")].
Definition de_shifted : list Z := keys
  [(1%nat, [27]); (2%nat, str "!"); (3%nat, [34; 21]); (5%nat, str "$%&/()=?`"); (14%nat, [8; 9]);
   (16%nat, str "QWERTZUIOP"); (27%nat, str "*"); (28%nat, [10]); (30%nat, str "ASDFGHJKL"); (43%nat, str "'YXCVBNM;:_");
   (55%nat, str "*"); (57%nat, str " ")].
Definition de_altgr : list Z := keys
  [(8%nat, str "{[]}\"); (16%nat, str "@"); (27%nat, str "~"); (43%nat, str "'"); (51%nat, str "|")].

Definition keyboard_maps : list k64_keyboard_map_t :=
  [mk_map (str "us") us_normal us_shifted (keys []); mk_map (str "de") de_normal de_shifted de_altgr].

(** ** State *)

Record modifiers := mk_modifiers {
  shift_pressed : bool;
  ctrl_pressed : bool;
  altgr_pressed : bool;
  extended_scancode : bool
}.
Definition set_shift (b : bool) (m : modifiers) : modifiers :=
  mk_modifiers b (ctrl_pressed m) (altgr_pressed m) (extended_scancode m).
Definition set_ctrl (b : bool) (m : modifiers) : modifiers :=
  mk_modifiers (shift_pressed m) b (altgr_pressed m) (extended_scancode m).
Definition set_altgr (b : bool) (m : modifiers) : modifiers :=
  mk_modifiers (shift_pressed m) (ctrl_pressed m) b (extended_scancode m).
Definition set_extended (b : bool) (m : modifiers) : modifiers :=
  mk_modifiers (shift_pressed m) (ctrl_pressed m) (altgr_pressed m) b.
Definition released : modifiers := mk_modifiers false false false false.

(** Calls to the interrupt controller and the interrupt table, oldest first. *)
Inductive pic_call : Set :=
  | SetGate (vector : Z)
  | EnableIrq (irq : Z)
  | DisableIrq (irq : Z)
  | SendEoi (irq : Z).

Record kbd := mk_kbd {
  kbd_buf : list k64_key_event_t;
  kbd_head : Z;
  kbd_tail : Z;
  mods : modifiers;
  current_layout : Z;
  keyboard_enabled : bool;
  pic : list pic_call
}.

Definition set_ring (buf : list k64_key_event_t) (head tail : Z) (s : kbd) : kbd :=
  mk_kbd buf head tail (mods s) (current_layout s) (keyboard_enabled s) (pic s).
Definition set_mods (m : modifiers) (s : kbd) : kbd :=
  mk_kbd (kbd_buf s) (kbd_head s) (kbd_tail s) m (current_layout s) (keyboard_enabled s) (pic s).
Definition set_layout (l : Z) (s : kbd) : kbd :=
  mk_kbd (kbd_buf s) (kbd_head s) (kbd_tail s) (mods s) l (keyboard_enabled s) (pic s).
Definition set_enabled (b : bool) (s : kbd) : kbd :=
  mk_kbd (kbd_buf s) (kbd_head s) (kbd_tail s) (mods s) (current_layout s) b (pic s).
Definition call_pic (c : pic_call) : M kbd unit := modify (fun s =>
  mk_kbd (kbd_buf s) (kbd_head s) (kbd_tail s) (mods s) (current_layout s) (keyboard_enabled s) (pic s ++ [c])).

(** The static storage at boot. *)
Definition kbd_boot : kbd :=
  mk_kbd (replicate (Z.to_nat KBD_BUF_SIZE) (mk_event K64_KEY_NONE 0)) 0 0 released K64_KEYBOARD_LAYOUT_US false [].

(** ** Operations *)

Definition queue_event (event : k64_key_event_t) : M kbd unit :=
  s ← gets id;
  let next := (kbd_head s + 1) mod KBD_BUF_SIZE in
  if negb (next =? kbd_tail s) then
    buf ← deref (setZ (kbd_buf s) (kbd_head s) event);
    modify (set_ring buf next (kbd_tail s))
  else mret tt.

(** The [switch] on the second byte of an extended code. *)
Definition extended_key (sc : Z) : k64_key_type_t :=
  if sc =? 0x48 then K64_KEY_UP else
  if sc =? 0x50 then K64_KEY_DOWN else
  if sc =? 0x4B then K64_KEY_LEFT else
  if sc =? 0x4D then K64_KEY_RIGHT else
  if sc =? 0x53 then K64_KEY_DELETE else K64_KEY_NONE.

(** The character with the control key held. *)
Definition control_char (c : Z) : Z :=
  if (97 <=? c) && (c <=? 122) then c - 97 + 1 else
  if (65 <=? c) && (c <=? 90) then c - 65 + 1 else
  if c =? 91 then 27 else
  if c =? 92 then 28 else
  if c =? 93 then 29 else c.

(** The event of a scan code and the modifiers after it; [None] is an array
    access out of bounds. *)
Definition translate_scancode (layout : Z) (m : modifiers) (sc : Z) : option (k64_key_event_t * modifiers) :=
  let none := mk_event K64_KEY_NONE 0 in
  if sc =? 0xE0 then Some (none, set_extended true m) else
  let extended := extended_scancode m in
  if negb (Z.land sc 0x80 =? 0) then
    let make := Z.land sc 0x7F in
    let m := if (make =? 42) || (make =? 54) then set_shift false m else m in
    let m := if make =? 29 then set_ctrl false m else m in
    let m := if make =? 56 then if extended then set_altgr false m else m else m in
    Some (none, set_extended false m)
  else if (sc =? 42) || (sc =? 54) then Some (none, set_shift true m)
  else if sc =? 29 then Some (none, set_extended false (set_ctrl true m))
  else if sc =? 56 then Some (none, set_extended false (if extended then set_altgr true m else m))
  else if extended then Some (mk_event (extended_key sc) 0, set_extended false m)
  else if sc =? 1 then Some (mk_event K64_KEY_ESCAPE 27, m)
  else if sc =? 14 then Some (mk_event K64_KEY_BACKSPACE 8, m)
  else if sc =? 15 then Some (mk_event K64_KEY_TAB 9, m)
  else if sc =? 28 then Some (mk_event K64_KEY_ENTER 10, m)
  else if sc <? 128 then
    map ← getZ keyboard_maps layout;
    alt ← getZ (altgr map) sc;
    c ← (if altgr_pressed m && negb (alt =? 0) then Some alt
         else if shift_pressed m then getZ (shifted map) sc else getZ (normal map) sc);
    if c =? 0 then Some (none, m)
    else Some (mk_event K64_KEY_CHAR (if ctrl_pressed m then control_char c else c), m)
  else Some (none, m).

(** [sc] is the byte read from the data port. *)
Definition k64_keyboard_on_interrupt (sc : Z) : M kbd unit :=
  s ← gets id;
  if negb (keyboard_enabled s) then call_pic (SendEoi KBD_IRQ) else
  '(event, m) ← deref (translate_scancode (current_layout s) (mods s) sc);
  modify (set_mods m) ;;
  (if bool_decide (type event <> K64_KEY_NONE) then queue_event event else mret tt) ;;
  call_pic (SendEoi KBD_IRQ).

(** The out pointer is not NULL. *)
Definition k64_keyboard_get_event : M kbd k64_key_event_t :=
  s ← gets id;
  check (keyboard_enabled s && negb (kbd_head s =? kbd_tail s)) ;;
  e ← deref (getZ (kbd_buf s) (kbd_tail s));
  modify (set_ring (kbd_buf s) (kbd_head s) ((kbd_tail s + 1) mod KBD_BUF_SIZE)) ;;
  mret e.

(** The types of event that have a character for [k64_keyboard_get_char]. *)
Definition has_char (t : k64_key_type_t) : bool :=
  match t with K64_KEY_CHAR | K64_KEY_ENTER | K64_KEY_BACKSPACE | K64_KEY_ESCAPE => true | _ => false end.

Fixpoint get_char_loop (fuel : nat) : M kbd Z :=
  match fuel with
  | O => ub
  | S fuel =>
      e ← try k64_keyboard_get_event;
      match e with
      | None => fail
      | Some e => if has_char (type e) then mret (ch e) else get_char_loop fuel
      end
  end.

(** The buffer holds at most 127 events. *)
Definition k64_keyboard_get_char : M kbd Z :=
  s ← gets id;
  check (keyboard_enabled s) ;;
  get_char_loop (Z.to_nat KBD_BUF_SIZE).

Definition k64_keyboard_set_layout (layout : Z) : M kbd unit :=
  if (layout <? 0) || (Z.of_nat (length keyboard_maps) <=? layout) then mret tt
  else modify (set_layout layout).

Definition k64_keyboard_get_layout : M kbd Z := gets current_layout.

Definition k64_keyboard_layout_name : M kbd (list Z) :=
  s ← gets id;
  map ← deref (getZ keyboard_maps (current_layout s));
  mret (name map).

Definition k64_keyboard_driver_start : M kbd unit :=
  call_pic (SetGate 33) ;;
  call_pic (EnableIrq KBD_IRQ) ;;
  modify (set_enabled true).

Definition k64_keyboard_driver_stop : M kbd unit :=
  modify (set_enabled false) ;;
  modify (fun s => set_mods released (set_ring (kbd_buf s) 0 0 s)) ;;
  call_pic (DisableIrq KBD_IRQ).

Definition k64_keyboard_driver_running : M kbd bool := gets keyboard_enabled.
