(* ===== verification/KeyboardSpec.v ===== *)
(** * The keyboard driver refines a bounded queue

    Its clients see a first-in-first-out queue of at most 127 key events; the
    ring buffer and its two indices are not visible. *)
From Stdlib Require Import ZArith Lia.
From stdpp Require Import base list.
From S2P Require Import Prelude Exec Keyboard.

(** ** The specification *)
Record keyboard := mk_keyboard {
  waiting : list k64_key_event_t;
  held : modifiers;
  layout : Z;
  running : bool;
  calls : list pic_call
}.
Definition keyboard_boot : keyboard := mk_keyboard [] released K64_KEYBOARD_LAYOUT_US false [].

Definition CAPACITY : nat := 127.

(** An event that does not fit is dropped; so is the absence of one. *)
Definition enqueue (e : k64_key_event_t) (q : list k64_key_event_t) : list k64_key_event_t :=
  if bool_decide (type e <> K64_KEY_NONE /\ (length q < CAPACITY)%nat) then q ++ [e] else q.

(** The first event with a character; those before it are discarded. *)
Fixpoint next_char (q : list k64_key_event_t) : option Z * list k64_key_event_t :=
  match q with
  | [] => (None, [])
  | e :: q => if has_char (type e) then (Some (ch e), q) else next_char q
  end.

Inductive request : Set :=
  | Interrupt (sc : Z)
  | GetEvent
  | GetChar
  | SetLayout (l : Z)
  | GetLayout
  | LayoutName
  | DriverStart
  | DriverStop
  | DriverRunning.

Inductive answer : Set :=
  | Done
  | Event (e : option k64_key_event_t)
  | Char (c : option Z)
  | Layout (l : Z)
  | Name (n : list Z)
  | Running (b : bool).

Definition with_waiting (q : list k64_key_event_t) (a : keyboard) : keyboard :=
  mk_keyboard q (held a) (layout a) (running a) (calls a).

Definition answer_of (r : request) (a : keyboard) : answer * keyboard :=
  match r with
  | Interrupt sc =>
      let called := calls a ++ [SendEoi KBD_IRQ] in
      if running a then
        match translate_scancode (layout a) (held a) sc with
        | Some (e, m) => (Done, mk_keyboard (enqueue e (waiting a)) m (layout a) true called)
        | None => (Done, a)
        end
      else (Done, mk_keyboard (waiting a) (held a) (layout a) false called)
  | GetEvent =>
      if running a then (Event (head (waiting a)), with_waiting (tail (waiting a)) a) else (Event None, a)
  | GetChar =>
      if running a then let '(c, q) := next_char (waiting a) in (Char c, with_waiting q a) else (Char None, a)
  | SetLayout l =>
      (Done, mk_keyboard (waiting a) (held a) (if decide (0 <= l <= 1) then l else layout a) (running a) (calls a))
  | GetLayout => (Layout (layout a), a)
  | LayoutName => (Name (if layout a =? 0 then str "us" else str "de"), a)
  | DriverStart => (Done, mk_keyboard (waiting a) (held a) (layout a) true (calls a ++ [SetGate 33; EnableIrq KBD_IRQ]))
  | DriverStop => (Done, mk_keyboard [] released (layout a) false (calls a ++ [DisableIrq KBD_IRQ]))
  | DriverRunning => (Running (running a), a)
  end.

Fixpoint answers_of (rs : list request) (a : keyboard) : list answer * keyboard :=
  match rs with
  | [] => ([], a)
  | r :: rs => let '(x, a) := answer_of r a in let '(xs, a) := answers_of rs a in (x :: xs, a)
  end.

(** ** The driver *)
Definition serve (r : request) : M kbd answer :=
  match r with
  | Interrupt sc => k64_keyboard_on_interrupt sc ;; mret Done
  | GetEvent => e ← try k64_keyboard_get_event; mret (Event e)
  | GetChar => c ← try k64_keyboard_get_char; mret (Char c)
  | SetLayout l => k64_keyboard_set_layout l ;; mret Done
  | GetLayout => l ← k64_keyboard_get_layout; mret (Layout l)
  | LayoutName => n ← k64_keyboard_layout_name; mret (Name n)
  | DriverStart => k64_keyboard_driver_start ;; mret Done
  | DriverStop => k64_keyboard_driver_stop ;; mret Done
  | DriverRunning => b ← k64_keyboard_driver_running; mret (Running b)
  end.

Fixpoint serve_all (rs : list request) : M kbd (list answer) :=
  match rs with
  | [] => mret []
  | r :: rs => x ← serve r; xs ← serve_all rs; mret (x :: xs)
  end.

Definition request_ok (r : request) : Prop := match r with Interrupt sc => byte_ok sc | _ => True end.

(** ** The ring buffer *)

(** The [i]-th waiting event lies [i] places behind [kbd_tail]. *)
Definition place (s : kbd) (i : Z) : nat := Z.to_nat ((kbd_tail s + i) mod 128).

Record ring (s : kbd) (q : list k64_key_event_t) : Prop := {
  ring_buf : length (kbd_buf s) = 128%nat;
  ring_tail : 0 <= kbd_tail s < 128;
  ring_head : kbd_head s = (kbd_tail s + Z.of_nat (length q)) mod 128;
  ring_length : (length q <= CAPACITY)%nat;
  ring_events i e : q !! i = Some e -> kbd_buf s !! place s (Z.of_nat i) = Some e
}.

Lemma ring_ext s s' q : kbd_buf s' = kbd_buf s -> kbd_head s' = kbd_head s -> kbd_tail s' = kbd_tail s ->
  ring s q -> ring s' q.
Proof.
  intros E1 E2 E3 [B T H L E]. split; [congruence|congruence|congruence|done|].
  intros i e Hi. unfold place. rewrite E1, E3. by apply E.
Qed.

Lemma ring_empty s q : ring s q -> (kbd_head s =? kbd_tail s) = bool_decide (q = []).
Proof.
  intros [B T H L E]. unfold CAPACITY in L. destruct q as [|e q]; cbn [length] in *.
  - rewrite bool_decide_eq_true_2 by done. apply Z.eqb_eq. dmlia.
  - rewrite bool_decide_eq_false_2 by done. apply Z.eqb_neq. dmlia.
Qed.

Lemma queue_event_spec s q e : ring s q -> type e <> K64_KEY_NONE ->
  wp (queue_event e) (fun _ s' => exists buf head, s' = set_ring buf head (kbd_tail s) s /\ ring s' (enqueue e q))
    (fun _ => False) s.
Proof.
  intros [B T H L E] He. unfold queue_event. wp_step. wp_step. cbn [id]. unfold id.
  unfold CAPACITY in L. change KBD_BUF_SIZE with 128. unfold enqueue.
  destruct (Z.eqb_spec ((kbd_head s + 1) mod 128) (kbd_tail s)) as [Hn|Hn]; cbn [negb].
  - wp_step. exists (kbd_buf s), (kbd_head s). split; [by destruct s|]. rewrite bool_decide_eq_false_2; [by split|].
    unfold CAPACITY. intros [_ Hl]. dmlia.
  - wp_step. eapply wp_deref; [apply setZ_Some; split; [rewrite B, H; dmlia|reflexivity]|].
    wp_step. eexists _, _. split; [reflexivity|].
    rewrite bool_decide_eq_true_2 by (split; [done|unfold CAPACITY; dmlia]).
    split; cbn [set_ring kbd_buf kbd_head kbd_tail].
    + by rewrite length_insert.
    + done.
    + rewrite length_app. cbn [length]. dmlia.
    + rewrite length_app. unfold CAPACITY. cbn [length]. dmlia.
    + intros i x Hi. unfold place. cbn [kbd_tail set_ring]. apply lookup_app_Some in Hi as [Hi|[Hi1 Hi2]].
      * pose proof (lookup_lt_Some _ _ _ Hi). rewrite list_lookup_insert_ne by dmlia. by apply E.
      * apply list_lookup_singleton_Some in Hi2 as [Hi2 <-]. assert (i = length q) as -> by lia.
        rewrite <- H. apply list_lookup_insert_eq. rewrite B, H. dmlia.
Qed.

Lemma get_event_spec s q : ring s q ->
  wp k64_keyboard_get_event
    (fun e s' => exists q' t, keyboard_enabled s = true /\ q = e :: q' /\ s' = set_ring (kbd_buf s) (kbd_head s) t s /\ ring s' q')
    (fun s' => s' = s /\ (keyboard_enabled s = true -> q = [])) s.
Proof.
  intros R. pose proof R as [B T H L E]. unfold k64_keyboard_get_event. wp_step. wp_step. unfold id. wp_step.
  rewrite (ring_empty s q R). apply wp_check.
  - intros [He Hq]%andb_true_iff. apply negb_true_iff, bool_decide_eq_false in Hq. destruct q as [|e q']; [done|].
    specialize (E 0%nat e eq_refl) as E0. unfold place in E0. rewrite Z.add_0_r, Z.mod_small in E0 by lia.
    wp_step. eapply wp_deref; [apply getZ_Some; split; [lia|exact E0]|]. wp_steps.
    exists q'. eexists. split; [done|]. split; [done|]. split; [reflexivity|]. change KBD_BUF_SIZE with 128.
    split; cbn [set_ring kbd_buf kbd_head kbd_tail].
    + done.
    + apply Z.mod_pos_bound. lia.
    + rewrite H. cbn [length]. dmlia.
    + cbn [length] in L. lia.
    + intros i x Hi. specialize (E (S i) x Hi). unfold place in *. cbn [kbd_tail set_ring].
      replace (((kbd_tail s + 1) mod 128 + Z.of_nat i) mod 128) with ((kbd_tail s + Z.of_nat (S i)) mod 128) by dmlia.
      done.
  - intros Hf. split; [done|]. intros He. rewrite He in Hf. apply negb_false_iff, bool_decide_eq_true in Hf. done.
Qed.

Lemma get_char_loop_spec fuel s q : ring s q -> keyboard_enabled s = true -> (length q < fuel)%nat ->
  wp (get_char_loop fuel)
    (fun c s' => exists q' t, next_char q = (Some c, q') /\ s' = set_ring (kbd_buf s) (kbd_head s) t s /\ ring s' q')
    (fun s' => exists t, next_char q = (None, []) /\ s' = set_ring (kbd_buf s) (kbd_head s) t s /\ ring s' []) s.
Proof.
  revert s q. induction fuel as [|fuel IH]; intros s q R He Hf; [lia|]. cbn [get_char_loop]. wp_step. wp_step.
  eapply wp_mono; [by apply get_event_spec| |].
  - intros e s' (q' & t & _ & -> & -> & R'). cbn [next_char]. destruct (has_char (type e)).
    { wp_step. by exists q', t. }
    cbn [length] in Hf. eapply wp_mono; [apply (IH _ q' R' He); lia| |].
    + intros c s'' (q'' & t' & Hc & -> & R''). by exists q'', t'.
    + intros s'' (t' & Hc & -> & R''). by exists t'.
  - intros s' [-> Hq]. rewrite (Hq He) in *. wp_step. exists (kbd_tail s). split; [done|]. split; [by destruct s|done].
Qed.

(** ** Translation never leaves its tables *)
Lemma map_lookup l : 0 <= l <= 1 -> exists map, getZ keyboard_maps l = Some map /\
  length (normal map) = 128%nat /\ length (shifted map) = 128%nat /\ length (altgr map) = 128%nat.
Proof. intros H. assert (l = 0 \/ l = 1) as [->| ->] by lia; by eexists. Qed.

Lemma translate_total l m sc : 0 <= l <= 1 -> 0 <= sc -> exists e m', translate_scancode l m sc = Some (e, m').
Proof.
  intros Hl Hsc. unfold translate_scancode. destruct (map_lookup l Hl) as (map & -> & L1 & L2 & L3).
  repeat match goal with |- context [if ?b then Some _ else _] => destruct b; [by eexists _, _|] end.
  destruct (Z.ltb_spec sc 128); [|by eexists _, _].
  destruct (getZ_is_Some (normal map) sc) as [c1 E1]; [lia|]. destruct (getZ_is_Some (shifted map) sc) as [c2 E2]; [lia|].
  destruct (getZ_is_Some (altgr map) sc) as [c3 E3]; [lia|].
  cbn [mbind option_bind]. rewrite E3. cbn [mbind option_bind]. rewrite E1, E2.
  destruct (altgr_pressed m && negb (c3 =? 0)); [|destruct (shift_pressed m)]; cbn [mbind option_bind];
    (match goal with |- context [?c =? 0] => destruct (c =? 0) end); by eexists _, _.
Qed.

(** ** The refinement *)
Record refines (s : kbd) (a : keyboard) : Prop := {
  rf_ring : ring s (waiting a);
  rf_mods : mods s = held a;
  rf_layout : current_layout s = layout a;
  rf_range : 0 <= layout a <= 1;
  rf_running : keyboard_enabled s = running a;
  rf_calls : pic s = calls a
}.

Lemma boot_refines : refines kbd_boot keyboard_boot.
Proof. split; [split|..]; try done; cbn; unfold CAPACITY; lia. Qed.

Lemma interrupt_refines s a sc : refines s a -> byte_ok sc ->
  wp (serve (Interrupt sc)) (fun x s' => exists a', answer_of (Interrupt sc) a = (x, a') /\ refines s' a')
    (fun _ => False) s.
Proof.
  intros [R Hm Hl Hr Hen Hc] [Hsc _]. cbn [serve answer_of]. unfold k64_keyboard_on_interrupt, call_pic.
  wp_step. wp_step. wp_step. unfold id. rewrite Hen. destruct (running a) eqn:Hrun; cbn [negb].
  - destruct (translate_total (layout a) (held a) sc Hr Hsc) as (e & m & Ht). rewrite Hl, Hm, Ht.
    wp_step. eapply wp_deref; [reflexivity|]. cbv beta iota. wp_step. wp_step. wp_step.
    assert (R1 : ring (set_mods m s) (waiting a)) by (by apply (ring_ext s)).
    case_bool_decide as He.
    + eapply wp_mono; [by apply queue_event_spec| |done]. intros [] s' (buf & h & -> & R2). wp_steps.
      eexists. split; [reflexivity|]. split; try done; cbn; [|congruence]. by eapply ring_ext; [..|exact R2].
    + wp_steps. eexists. split; [reflexivity|]. split; try done; cbn; [|congruence].
      unfold enqueue. rewrite bool_decide_eq_false_2 by tauto. by apply (ring_ext s).
  - wp_steps. eexists. split; [reflexivity|]. split; try done; cbn; [|congruence]. by apply (ring_ext s).
Qed.

Lemma get_event_refines s a : refines s a ->
  wp (serve GetEvent) (fun x s' => exists a', answer_of GetEvent a = (x, a') /\ refines s' a') (fun _ => False) s.
Proof.
  intros S. pose proof S as [R Hm Hl Hr Hen Hc]. cbn [serve answer_of]. wp_step. wp_step.
  eapply wp_mono; [by apply get_event_spec| |].
  - intros e s' (q' & t & He & Hq & -> & R'). wp_step. rewrite <- Hen, He, Hq. eexists. split; [reflexivity|]. by split.
  - intros s' [-> Hq]. wp_step. rewrite <- Hen. destruct (keyboard_enabled s) eqn:He; [|by exists a].
    rewrite (Hq eq_refl) in *. eexists. split; [reflexivity|]. split; try done. cbn. congruence.
Qed.

Lemma get_char_refines s a : refines s a ->
  wp (serve GetChar) (fun x s' => exists a', answer_of GetChar a = (x, a') /\ refines s' a') (fun _ => False) s.
Proof.
  intros S. pose proof S as [R Hm Hl Hr Hen Hc]. cbn [serve answer_of]. unfold k64_keyboard_get_char.
  wp_step. wp_step. wp_step. wp_step. unfold id. wp_step. rewrite <- Hen. apply wp_check; intros He; rewrite He.
  - eapply wp_mono; [apply (get_char_loop_spec _ s _ R He)| |].
    + pose proof (ring_length _ _ R). unfold CAPACITY in *. change (Z.to_nat KBD_BUF_SIZE) with 128%nat. lia.
    + intros c s' (q' & t & -> & -> & R'). wp_step. eexists. split; [reflexivity|]. by split.
    + intros s' (t & -> & -> & R'). wp_step. eexists. split; [reflexivity|]. by split.
  - wp_step. by exists a.
Qed.

Lemma request_refines r s a : refines s a -> request_ok r ->
  wp (serve r) (fun x s' => exists a', answer_of r a = (x, a') /\ refines s' a') (fun _ => False) s.
Proof.
  intros S Hr. destruct r as [sc| | |l| | | | |].
  1: by apply interrupt_refines.
  1: by apply get_event_refines.
  1: by apply get_char_refines.
  all: pose proof S as [R Hm Hl Hrg Hen Hc]; cbn [serve answer_of]; wp_step.
  - unfold k64_keyboard_set_layout. change (Z.of_nat (length keyboard_maps)) with 2.
    destruct (decide (0 <= l <= 1)) as [Hd|Hd].
    + rewrite (proj2 (Z.ltb_ge l 0)), (proj2 (Z.leb_gt 2 l)) by lia. cbn [orb]. wp_steps.
      eexists. split; [reflexivity|]. split; try done. by apply (ring_ext s).
    + assert ((l <? 0) || (2 <=? l) = true) as ->. { destruct (Z.ltb_spec l 0), (Z.leb_spec 2 l); [done..|lia]. }
      wp_steps. eexists. split; [reflexivity|]. by split.
  - wp_steps. exists a. by rewrite Hl.
  - unfold k64_keyboard_layout_name. wp_step. wp_step. wp_step. unfold id. rewrite Hl.
    assert (layout a = 0 \/ layout a = 1) as [E|E] by lia; rewrite E; (eapply wp_deref; [reflexivity|]); wp_steps;
      (exists a; by split).
  - unfold k64_keyboard_driver_start, call_pic. wp_steps. eexists. split; [reflexivity|].
    split; try done; cbn; [by apply (ring_ext s)|by rewrite Hc, <- app_assoc].
  - unfold k64_keyboard_driver_stop, call_pic. wp_steps. eexists. split; [reflexivity|].
    split; try done; cbn; [|by rewrite Hc]. split; try done; cbn; [apply R|unfold CAPACITY; lia].
  - wp_steps. exists a. by rewrite Hen.
Qed.

(** C34: The driver refines a bounded first-in-first-out queue: for every sequence of
    interrupts and calls from boot it gives the answers the queue gives, drops
    events only when 127 are waiting, acknowledges every interrupt once, and has
    no undefined behaviour. *)
Theorem keyboard_refines_queue rs : Forall request_ok rs ->
  wp (serve_all rs) (fun xs s' => exists a', answers_of rs keyboard_boot = (xs, a') /\ refines s' a')
    (fun _ => False) kbd_boot.
Proof.
  intros Hrs. generalize boot_refines. generalize kbd_boot keyboard_boot. induction Hrs as [|r rs Hr _ IH]; intros s a S.
  - cbn [serve_all answers_of]. wp_step. by exists a.
  - cbn [serve_all answers_of]. wp_step. eapply wp_mono; [by apply request_refines| |done].
    intros x s1 (a1 & -> & S1). wp_step. eapply wp_mono; [by apply IH| |done].
    intros xs s2 (a2 & -> & S2). wp_step. by exists a2.
Qed.

(** Typing an [H], an arrow and an enter, and reading the characters. *)
Definition typing : list request :=
  [DriverStart; Interrupt 42; Interrupt 35; Interrupt 170; Interrupt 0xE0; Interrupt 0x48; Interrupt 28;
   GetChar; GetChar; GetChar].

Lemma keyboard_refines_queue_witness : exists s', serve_all typing kbd_boot =
  Ret [Done; Done; Done; Done; Done; Done; Done; Char (Some 72); Char (Some 10); Char None] s'.
Proof.
  assert (H : Forall request_ok typing) by (repeat constructor; cbn; unfold byte_ok; lia).
  pose proof (keyboard_refines_queue typing H) as W. unfold wp in W.
  destruct (serve_all typing kbd_boot) as [xs s'| |]; [|destruct W..].
  destruct W as (a' & E & _). exists s'. apply (f_equal fst) in E. vm_compute in E. rewrite <- E. reflexivity.
Defined.
