(* ===== verification/NetBytes.v ===== *)
(** * Packets as bytes ([k64_net.c], lines 88-172)

    A pointer to received data is the list of the bytes from there to the end of
    the frame: reading past it is [None].  A buffer for a packet is a list of the
    length of the C array, and writing past it is [None].  Fields of packets are
    big-endian. *)
From Stdlib Require Import ZArith Lia.
From stdpp Require Import base list.
From S2P Require Import Prelude.

(** ** Definitions *)

(** Storing bytes in a buffer. *)
Definition put (buf : list Z) (off : Z) (bytes : list Z) : option (list Z) :=
  if decide (0 <= off /\ off + Z.of_nat (length bytes) <= Z.of_nat (length buf))
  then Some (splice buf (Z.to_nat off) bytes) else None.

Definition be16 (v : Z) : list Z := [u8 (Z.shiftr v 8); u8 (Z.land v 0xFF)].
Definition be32 (v : Z) : list Z :=
  [u8 (Z.land (Z.shiftr v 24) 0xFF); u8 (Z.land (Z.shiftr v 16) 0xFF);
   u8 (Z.land (Z.shiftr v 8) 0xFF); u8 (Z.land v 0xFF)].

Definition rd16be (p : list Z) (off : Z) : option Z :=
  a ← getZ p off; b ← getZ p (off + 1);
  Some (u16 (Z.lor (Z.shiftl a 8) b)).

Definition rd32be (p : list Z) (off : Z) : option Z :=
  a ← getZ p off; b ← getZ p (off + 1); c ← getZ p (off + 2); d ← getZ p (off + 3);
  Some (Z.lor (Z.lor (Z.lor (u32 (Z.shiftl a 24)) (Z.shiftl b 16)) (Z.shiftl c 8)) d).

Definition wr16be (buf : list Z) (off v : Z) : option (list Z) := put buf off (be16 v).
Definition wr32be (buf : list Z) (off v : Z) : option (list Z) := put buf off (be32 v).

(** The loop over 16-bit words and the odd byte behind them. *)
Fixpoint csum_words (sum : Z) (data : list Z) : Z :=
  match data with
  | a :: b :: data => csum_words (u32 (sum + u16 (Z.lor (Z.shiftl a 8) b))) data
  | [a] => u32 (sum + Z.shiftl a 8)
  | [] => sum
  end.

Definition csum_add_bytes (sum : Z) (data : list Z) (len : Z) : option Z :=
  bytes ← take_bytes data 0 len; Some (csum_words sum bytes).

(** [while (sum >> 16) sum = (sum & 0xFFFF) + (sum >> 16);] *)
Fixpoint fold_carries (fuel : nat) (sum : Z) : option Z :=
  if Z.shiftr sum 16 =? 0 then Some sum else
  match fuel with
  | O => None
  | S fuel => fold_carries fuel (u32 (Z.land sum 0xFFFF + Z.shiftr sum 16))
  end.

(** Two rounds leave no carry. *)
Definition csum_finish (sum : Z) : option Z :=
  sum ← fold_carries 2 sum; Some (u16 (Z.lnot sum)).

Definition csum16 (data : list Z) (len : Z) : option Z :=
  sum ← csum_add_bytes 0 data len; csum_finish sum.

Definition IP_PROTO_ICMP : Z := 1.
Definition IP_PROTO_TCP : Z := 6.
Definition IP_PROTO_UDP : Z := 17.

(** The header that the transport checksums cover besides the packet. *)
Definition pseudo_header (src_ip dst_ip proto len : Z) : list Z :=
  be32 src_ip ++ be32 dst_ip ++ [0; proto] ++ be16 len.

Definition tcp_checksum (src_ip dst_ip : Z) (tcp : list Z) (tcp_len : Z) : option Z :=
  sum ← csum_add_bytes 0 (pseudo_header src_ip dst_ip IP_PROTO_TCP tcp_len) 12;
  sum ← csum_add_bytes sum tcp tcp_len;
  csum_finish sum.

Definition udp_checksum (src_ip dst_ip : Z) (udp : list Z) (udp_len : Z) : option Z :=
  sum ← csum_add_bytes 0 (pseudo_header src_ip dst_ip IP_PROTO_UDP udp_len) 12;
  sum ← csum_add_bytes sum udp udp_len;
  result ← csum_finish sum;
  Some (if result =? 0 then 0xFFFF else result).

(** ** Big-endian fields *)

Lemma lor_low k a b : 0 <= k -> 0 <= b < 2 ^ k -> Z.lor (Z.shiftl a k) b = a * 2 ^ k + b.
Proof.
  intros Hk Hb. rewrite <- Z.shiftl_mul_pow2 by lia.
  assert (H : Z.land (Z.shiftl a k) b = 0).
  { apply Z.bits_inj'. intros n Hn. rewrite Z.land_spec, Z.bits_0, Z.shiftl_spec by lia.
    destruct (decide (n < k)); [by rewrite Z.testbit_neg_r by lia|]. apply andb_false_iff. right.
    destruct (decide (b = 0)) as [->|]; [apply Z.bits_0|]. apply Z.bits_above_log2; [lia|].
    assert (Z.log2 b < k) by (apply Z.log2_lt_pow2; lia). lia. }
  rewrite Z.add_nocarry_lxor by done. by rewrite Z.lxor_lor.
Qed.

(** The value of bytes, most significant first. *)
Definition be_value (l : list Z) : Z := fold_left (fun v b => v * 256 + b) l 0.

Lemma rd16be_value p off : bytes_ok p -> rd16be p off =
  match getZ p off, getZ p (off + 1) with Some a, Some b => Some (be_value [a; b]) | _, _ => None end.
Proof.
  intros Hp. unfold rd16be. destruct (getZ p off) as [a|] eqn:Ea; [|done]. destruct (getZ p (off + 1)) as [b|] eqn:Eb; [|done].
  apply getZ_Some in Ea as [_ Ea], Eb as [_ Eb]. pose proof (Forall_lookup_1 _ _ _ _ Hp Ea) as Ha.
  pose proof (Forall_lookup_1 _ _ _ _ Hp Eb) as Hb. unfold byte_ok in *. cbn [mbind option_bind]. f_equal.
  rewrite lor_low by lia. unfold u16, be_value. cbn [fold_left]. change (2 ^ 8) with 256. rewrite Z.mod_small by lia. lia.
Qed.

Lemma rd32be_value p off : bytes_ok p -> rd32be p off =
  match getZ p off, getZ p (off + 1), getZ p (off + 2), getZ p (off + 3) with
  | Some a, Some b, Some c, Some d => Some (be_value [a; b; c; d]) | _, _, _, _ => None end.
Proof.
  intros Hp. unfold rd32be.
  destruct (getZ p off) as [a|] eqn:Ea, (getZ p (off + 1)) as [b|] eqn:Eb, (getZ p (off + 2)) as [c|] eqn:Ec,
    (getZ p (off + 3)) as [d|] eqn:Ed; try done.
  apply getZ_Some in Ea as [_ Ea], Eb as [_ Eb], Ec as [_ Ec], Ed as [_ Ed].
  pose proof (Forall_lookup_1 _ _ _ _ Hp Ea) as Ha. pose proof (Forall_lookup_1 _ _ _ _ Hp Eb) as Hb.
  pose proof (Forall_lookup_1 _ _ _ _ Hp Ec) as Hc. pose proof (Forall_lookup_1 _ _ _ _ Hp Ed) as Hd. unfold byte_ok in *.
  cbn [mbind option_bind]. f_equal. rewrite (u32_small (Z.shiftl a 24)) by (rewrite Z.shiftl_mul_pow2 by lia; lia).
  rewrite !(Z.shiftl_mul_pow2 _ 16), !(Z.shiftl_mul_pow2 _ 8) by lia.
  rewrite (lor_low 24 a) by (change (2 ^ 24) with 16777216; change (2 ^ 16) with 65536; lia).
  replace (a * 2 ^ 24 + b * 2 ^ 16) with (Z.shiftl (a * 256 + b) 16) by (rewrite Z.shiftl_mul_pow2 by lia; lia).
  rewrite lor_low by (change (2 ^ 16) with 65536; lia).
  replace ((a * 256 + b) * 2 ^ 16 + c * 2 ^ 8) with (Z.shiftl ((a * 256 + b) * 256 + c) 8) by (rewrite Z.shiftl_mul_pow2 by lia; lia).
  rewrite lor_low by (change (2 ^ 8) with 256; lia). unfold be_value. cbn [fold_left]. lia.
Qed.

Lemma be16_eq v : be16 v = [(v / 256) mod 256; v mod 256].
Proof.
  unfold be16, u8. rewrite Z.shiftr_div_pow2 by lia. change 0xFF with (Z.ones 8). rewrite Z.land_ones by lia.
  change (2 ^ 8) with 256. by rewrite Z.mod_mod by lia.
Qed.

Lemma be32_eq v : be32 v = [(v / 16777216) mod 256; (v / 65536) mod 256; (v / 256) mod 256; v mod 256].
Proof.
  unfold be32, u8. rewrite !Z.shiftr_div_pow2 by lia. change 0xFF with (Z.ones 8). rewrite !Z.land_ones by lia.
  change (2 ^ 8) with 256. change (2 ^ 16) with 65536. change (2 ^ 24) with 16777216. by rewrite !Z.mod_mod by lia.
Qed.

Lemma be16_value v : 0 <= v < 65536 -> be_value (be16 v) = v.
Proof. intros H. rewrite be16_eq. unfold be_value. cbn [fold_left]. dmlia. Qed.
Lemma be32_value v : 0 <= v < 4294967296 -> be_value (be32 v) = v.
Proof. intros H. rewrite be32_eq. unfold be_value. cbn [fold_left]. dmlia. Qed.

Lemma be16_bytes v : bytes_ok (be16 v).
Proof. rewrite be16_eq. repeat constructor; unfold byte_ok; dmlia. Qed.
Lemma be32_bytes v : bytes_ok (be32 v).
Proof. rewrite be32_eq. repeat constructor; unfold byte_ok; dmlia. Qed.
#[export] Hint Resolve be16_bytes be32_bytes : k64.

Lemma be_value_pair a b : be_value [a; b] = 256 * a + b.
Proof. unfold be_value. cbn. lia. Qed.

(** ** Buffers *)
Lemma put_Some buf off bytes : 0 <= off -> off + Z.of_nat (length bytes) <= Z.of_nat (length buf) ->
  put buf off bytes = Some (splice buf (Z.to_nat off) bytes).
Proof. intros H1 H2. unfold put. by rewrite decide_True. Qed.

Lemma put_inv buf off bytes buf' : put buf off bytes = Some buf' -> length buf' = length buf /\
  buf' = splice buf (Z.to_nat off) bytes /\ 0 <= off /\ off + Z.of_nat (length bytes) <= Z.of_nat (length buf).
Proof.
  unfold put. case_decide as H; [|done]. intros [= <-]. split_and!; [|done|lia|lia]. apply splice_length. lia.
Qed.

(** ** The Internet checksum

    The sum of the 16-bit words of a packet, the odd byte padded with zero. *)
Fixpoint word_sum (data : list Z) : Z :=
  match data with
  | a :: b :: data => 256 * a + b + word_sum data
  | [a] => 256 * a
  | [] => 0
  end.

Lemma two_step (P : list Z -> Prop) : P [] -> (forall a, P [a]) -> (forall a b l, P l -> P (a :: b :: l)) -> forall l, P l.
Proof.
  intros H0 H1 H2 l. cut (P l /\ forall a, P (a :: l)); [tauto|]. induction l as [|x l [IH1 IH2]]; [by split|].
  split; [done|]. intros a. by apply H2.
Qed.

Lemma word_sum_range l : bytes_ok l -> 0 <= word_sum l <= 65280 * Z.of_nat (length l).
Proof.
  induction l as [|a|a b l IH] using two_step; intros H; [done|..].
  - apply Forall_cons in H as [Ha _]. cbn. unfold byte_ok in Ha. lia.
  - apply Forall_cons in H as [Ha H]. apply Forall_cons in H as [Hb H].
    specialize (IH H). cbn [word_sum length]. unfold byte_ok in *. lia.
Qed.

Lemma word_sum_app x y : Nat.Even (length x) -> word_sum (x ++ y) = word_sum x + word_sum y.
Proof.
  induction x as [|a|a b x IH] using two_step; intros H; [done|by destruct H as [k H]; cbn in H; lia|].
  cbn [app word_sum]. rewrite IH; [lia|]. destruct H as [k H]. exists (k - 1)%nat. cbn in H. lia.
Qed.

Lemma csum_words_sum l sum : bytes_ok l -> 0 <= sum -> sum + word_sum l < 4294967296 -> csum_words sum l = sum + word_sum l.
Proof.
  revert sum. induction l as [|a|a b l IH] using two_step; intros sum H Hs Hlt; cbn [csum_words word_sum] in *; [lia|..].
  - apply Forall_cons in H as [Ha _]. unfold byte_ok in Ha. rewrite Z.shiftl_mul_pow2 by lia. rewrite u32_small; lia.
  - apply Forall_cons in H as [Ha H]. apply Forall_cons in H as [Hb H]. pose proof (word_sum_range l H).
    unfold byte_ok in *. rewrite lor_low by lia. change (2 ^ 8) with 256. rewrite (u16_small (a * 256 + b)) by lia.
    rewrite u32_small, IH by (done || lia). lia.
Qed.

(** Folding keeps the sum modulo 65535, and a sum that is not zero stays so. *)
Lemma fold_carries_spec s : 0 <= s < 4294967296 -> exists f, fold_carries 2 s = Some f /\ 0 <= f < 65536 /\
  f mod 65535 = s mod 65535 /\ (f = 0 -> s = 0).
Proof.
  intros Hs. assert (Hstep : forall x, 0 <= x < 4294967296 ->
    u32 (Z.land x 0xFFFF + Z.shiftr x 16) = x mod 65536 + x / 65536).
  { intros x Hx. change 0xFFFF with (Z.ones 16). rewrite Z.land_ones, Z.shiftr_div_pow2 by lia. apply u32_small. dmlia. }
  assert (Hz : forall x, 0 <= x -> (Z.shiftr x 16 =? 0) = (x <? 65536)).
  { intros x Hx. rewrite Z.shiftr_div_pow2 by lia. change (2 ^ 16) with 65536.
    destruct (Z.ltb_spec x 65536); [apply Z.eqb_eq|apply Z.eqb_neq]; dmlia. }
  cbn [fold_carries]. rewrite Hz by lia. destruct (Z.ltb_spec s 65536); [exists s; split_and!; [done|lia|lia|done|done]|].
  rewrite Hstep by done. set (t := s mod 65536 + s / 65536).
  assert (Ht : 0 < t < 131071 /\ t mod 65535 = s mod 65535) by (unfold t; split; dmlia). destruct Ht as [Ht Hmod].
  rewrite Hz by lia. destruct (Z.ltb_spec t 65536); [exists t; split_and!; [done|lia|lia|done|lia]|].
  rewrite Hstep by lia. set (r := t mod 65536 + t / 65536).
  assert (Hr : 0 < r < 65536 /\ r mod 65535 = t mod 65535) by (unfold r; split; dmlia). destruct Hr as [Hr Hmod'].
  rewrite Hz by lia. rewrite (proj2 (Z.ltb_lt r 65536)) by lia. exists r. split_and!; [done|lia|lia|congruence|lia].
Qed.

Lemma csum_finish_spec s : 0 <= s < 4294967296 -> exists c, csum_finish s = Some c /\ 0 <= c < 65536 /\
  (c + s) mod 65535 = 0 /\ (c = 65535 -> s = 0).
Proof.
  intros Hs. destruct (fold_carries_spec s Hs) as (f & Hf & Hr & Hm & H0). exists (65535 - f). unfold csum_finish. rewrite Hf.
  cbn [mbind option_bind]. split_and!; [|lia|lia| |intros ?; apply H0; lia].
  - f_equal. unfold u16, Z.lnot. dmlia.
  - dmlia.
Qed.

(** A sum that is a positive multiple of 65535 checks. *)
Lemma csum_finish_zero s : 0 < s < 4294967296 -> s mod 65535 = 0 -> csum_finish s = Some 0.
Proof.
  intros Hs Hm. destruct (csum_finish_spec s ltac:(lia)) as (c & -> & Hc & Hsum & H0). f_equal.
  assert (c = 0 \/ c = 65535) as [->|Hc']; [dmlia|done|]. specialize (H0 Hc'). lia.
Qed.

(** A packet with its checksum in place of a zero word: its sum checks. *)
Lemma checksum_in_place pre x y c : bytes_ok x -> bytes_ok y -> Nat.Even (length x) -> 0 <= pre ->
  pre + word_sum (x ++ [0; 0] ++ y) + 65535 < 4294967296 ->
  csum_finish (pre + word_sum (x ++ [0; 0] ++ y)) = Some c ->
  csum_finish (pre + word_sum (x ++ be16 c ++ y)) = Some 0.
Proof.
  intros Hx Hy He Hp Hlt Hc. pose proof (word_sum_range x Hx) as Rx. pose proof (word_sum_range y Hy) as Ry.
  assert (E : forall a b, word_sum (x ++ [a; b] ++ y) = word_sum x + (256 * a + b) + word_sum y).
  { intros a b. rewrite word_sum_app by done. cbn [app word_sum]. lia. }
  rewrite E in Hlt, Hc. destruct (csum_finish_spec (pre + (word_sum x + (256 * 0 + 0) + word_sum y)) ltac:(lia)) as (c' & Hc' & Hr & Hm & H0).
  rewrite Hc in Hc'. injection Hc' as <-. rewrite be16_eq, E.
  replace (256 * ((c / 256) mod 256) + c mod 256) with c by dmlia.
  apply csum_finish_zero; [|dmlia]. split; [|lia].
  destruct (decide (c = 0)); [|lia]. destruct (decide (pre + (word_sum x + word_sum y) = 0)); [|lia].
  exfalso. assert (Hz : csum_finish 0 = Some 65535) by reflexivity. replace (pre + _) with 0 in Hc by lia. congruence.
Qed.

Lemma csum16_sum l : bytes_ok l -> Z.of_nat (length l) < 65536 -> csum16 l (Z.of_nat (length l)) = csum_finish (word_sum l).
Proof.
  intros H Hl. unfold csum16, csum_add_bytes. rewrite take_all. cbn [mbind option_bind].
  pose proof (word_sum_range l H). by rewrite csum_words_sum by (done || lia).
Qed.
