(* ===== verification/Net.v ===== *)
(** * The network stack ([k64_net.c], [k64_net.h])

    Ethernet, ARP, IPv4, ICMP, UDP with the DNS and DHCP clients, and the TCP
    connection of the HTTP client.  The stack is one static structure; a network
    driver is a function that gets a frame and says whether it took it, with a
    state of its own ([D]).  Functions that return nothing never fail here; a
    result of [Ub] is an access outside of a frame or of a buffer. *)
From Stdlib Require Import ZArith Lia.
From stdpp Require Import base list.
From S2P Require Import Prelude Exec KString NetBytes.

Definition ETH_TYPE_ARP : Z := 0x0806.
Definition ETH_TYPE_IPV4 : Z := 0x0800.
Definition DHCP_CLIENT_PORT : Z := 68.
Definition DHCP_SERVER_PORT : Z := 67.
Definition DHCP_MAGIC : Z := 0x63825363.
Definition TCP_FLAG_FIN : Z := 0x01.
Definition TCP_FLAG_SYN : Z := 0x02.
Definition TCP_FLAG_RST : Z := 0x04.
Definition TCP_FLAG_PSH : Z := 0x08.
Definition TCP_FLAG_ACK : Z := 0x10.
Definition DNS_PORT : Z := 53.
Definition DNS_SRC_PORT : Z := 49153.
Definition HTTP_BUF_SIZE : Z := 16 * 1024 * 1024.

(** ** State *)

Inductive http_state_t : Set :=
  | HTTP_IDLE
  | HTTP_RESOLVE
  | HTTP_ARP
  | HTTP_SYN_SENT
  | HTTP_ESTABLISHED
  | HTTP_REQUEST_SENT
  | HTTP_DONE
  | HTTP_ERROR.

#[global] Instance http_state_eq_dec : EqDecision http_state_t.
Proof. solve_decision. Defined.

(** [response] is the part of the array below [response_len]; behind it the
    array is zero. *)
Record http_client_t := mk_http {
  state : http_state_t;
  host : list Z;
  path : list Z;
  h_ip : Z;
  port : Z;
  local_port : Z;
  use_range : bool;
  range_start : Z;
  range_end : Z;
  seq : Z;
  ack : Z;
  response : list Z
}.

(** The counters of [k64_net_status_t]. *)
Inductive counter : Set :=
  | tx_frames | rx_frames | rx_arp | rx_ipv4 | rx_udp | rx_icmp | rx_tcp | rx_dns | ping_replies.

#[global] Instance counter_eq_dec : EqDecision counter.
Proof. solve_decision. Defined.

Record k64_net_status_t := mk_status {
  link_up : bool;
  st_driver : list Z;
  st_mac : list Z;
  st_ipv4 : Z;
  st_gateway : Z;
  st_netmask : Z;
  st_dns_server : Z;
  counts : counter -> Z;
  last_ethertype : Z;
  last_rx_len : Z
}.

(** The addresses in use. *)
Record net_config := mk_config {
  ipv4 : Z;
  gateway : Z;
  netmask : Z;
  dns_server : Z
}.

Record dhcp_client := mk_dhcp { dhcp_xid : Z; dhcp_server : Z; dhcp_offer : Z }.

Record arp_table := mk_arp { arp_ip : list (list Z); arp_mac : list (list Z); arp_count : Z }.

Record dns_client := mk_dns {
  next_dns_id : Z;
  dns_cache : list (list Z * Z);
  dns_count : Z;
  pending_dns_id : Z;
  pending_dns_waits : Z;
  pending_dns_name : list Z
}.

Section net.
Context {D : Type}.

(** [k64_net_send_frame_fn] *)
Definition send_fn : Type := list Z -> D -> bool * D.

Record net := mk_net {
  ready : bool;
  driver : list Z;
  mac : list Z;
  config : net_config;
  send : option send_fn;
  stats : k64_net_status_t;
  next_ip_id : Z;
  next_icmp_id : Z;
  next_tcp_port : Z;
  dhcp : dhcp_client;
  arp : arp_table;
  dns : dns_client;
  http : http_client_t;
  device : D
}.

Abbreviation N := (M net).
Implicit Types s : net.

Definition set_config c s : net := mk_net (ready s) (driver s) (mac s) c (send s) (stats s) (next_ip_id s)
  (next_icmp_id s) (next_tcp_port s) (dhcp s) (arp s) (dns s) (http s) (device s).
Definition set_stats x s : net := mk_net (ready s) (driver s) (mac s) (config s) (send s) x (next_ip_id s)
  (next_icmp_id s) (next_tcp_port s) (dhcp s) (arp s) (dns s) (http s) (device s).
Definition set_ip_id i s : net := mk_net (ready s) (driver s) (mac s) (config s) (send s) (stats s) i
  (next_icmp_id s) (next_tcp_port s) (dhcp s) (arp s) (dns s) (http s) (device s).
Definition set_tcp_port p s : net := mk_net (ready s) (driver s) (mac s) (config s) (send s) (stats s)
  (next_ip_id s) (next_icmp_id s) p (dhcp s) (arp s) (dns s) (http s) (device s).
Definition set_dhcp d s : net := mk_net (ready s) (driver s) (mac s) (config s) (send s) (stats s)
  (next_ip_id s) (next_icmp_id s) (next_tcp_port s) d (arp s) (dns s) (http s) (device s).
Definition set_arp a s : net := mk_net (ready s) (driver s) (mac s) (config s) (send s) (stats s)
  (next_ip_id s) (next_icmp_id s) (next_tcp_port s) (dhcp s) a (dns s) (http s) (device s).
Definition set_dns d s : net := mk_net (ready s) (driver s) (mac s) (config s) (send s) (stats s)
  (next_ip_id s) (next_icmp_id s) (next_tcp_port s) (dhcp s) (arp s) d (http s) (device s).
Definition set_http h s : net := mk_net (ready s) (driver s) (mac s) (config s) (send s) (stats s)
  (next_ip_id s) (next_icmp_id s) (next_tcp_port s) (dhcp s) (arp s) (dns s) h (device s).
Definition set_device d s : net := mk_net (ready s) (driver s) (mac s) (config s) (send s) (stats s)
  (next_ip_id s) (next_icmp_id s) (next_tcp_port s) (dhcp s) (arp s) (dns s) (http s) d.

(** [net.stats.c++;] *)
Definition count (c : counter) : N unit := modify (fun s =>
  let x := stats s in
  set_stats (mk_status (link_up x) (st_driver x) (st_mac x) (st_ipv4 x) (st_gateway x) (st_netmask x) (st_dns_server x)
    (fun c' => if decide (c' = c) then u64 (counts x c + 1) else counts x c') (last_ethertype x) (last_rx_len x)) s).

Definition get : N net := gets (fun s => s).

(** ** Addresses *)

Definition copy_text (dst_size : Z) (src : option (list Z)) : list Z := bounded_copy dst_size src.
(** Text with its terminator in an array of [cap] bytes; [None] when it is
    written past the end. *)
Definition fill (cap : Z) (l : list Z) : option (list Z) := if Z.of_nat (length l) <? cap then Some l else None.
Definition text_eq (a b : option (list Z)) : bool := streq (default [] a) (default [] b).

Definition BROADCAST : list Z := [0xFF; 0xFF; 0xFF; 0xFF; 0xFF; 0xFF].

(** The six bytes a MAC parameter points to. *)
Definition mac_at (p : list Z) (off : Z) : N (list Z) := deref (take_bytes p off 6).

Definition mac_is_broadcast (m : list Z) : bool := forallb (fun b => b =? 0xFF) m.
Definition mac_eq (a b : list Z) : bool := bool_decide (a = b).

(** The index of the entry for [ip] below [n], if any. *)
Fixpoint arp_find (n : nat) (i : Z) (ip : Z) : N (option Z) :=
  match n with
  | O => mret None
  | S n =>
      s ← get;
      e ← deref (getZ (arp_ip (arp s)) i);
      v ← deref (rd32be e 0);
      if v =? ip then mret (Some i) else arp_find n (i + 1) ip
  end.

Definition arp_remember (ip : Z) (m : list Z) : N unit :=
  s ← get;
  found ← arp_find (Z.to_nat (arp_count (arp s))) 0 ip;
  slot ← match found with
         | Some i => mret i
         | None =>
             if arp_count (arp s) <? 8 then
               modify (fun s => set_arp (mk_arp (arp_ip (arp s)) (arp_mac (arp s)) (u8 (arp_count (arp s) + 1))) s) ;;
               mret (arp_count (arp s))
             else mret 0
         end;
  s ← get;
  ips ← deref (setZ (arp_ip (arp s)) slot (be32 ip));
  macs ← deref (setZ (arp_mac (arp s)) slot m);
  modify (set_arp (mk_arp ips macs (arp_count (arp s)))).

(** The MAC address, or [return false]. *)
Definition arp_lookup (ip : Z) : N (list Z) :=
  s ← get;
  found ← arp_find (Z.to_nat (arp_count (arp s))) 0 ip;
  match found with
  | Some i => deref (getZ (arp_mac (arp s)) i)
  | None => fail
  end.

Fixpoint dns_find (n : nat) (i : Z) (name : list Z) : N (option Z) :=
  match n with
  | O => mret None
  | S n =>
      s ← get;
      e ← deref (getZ (dns_cache (dns s)) i);
      if text_eq (Some e.1) (Some name) then mret (Some i) else dns_find n (i + 1) name
  end.

Definition with_cache (l : list (list Z * Z)) (n : Z) (d : dns_client) : dns_client :=
  mk_dns (next_dns_id d) l n (pending_dns_id d) (pending_dns_waits d) (pending_dns_name d).

Definition dns_cache_put (name : list Z) (ip : Z) : N unit :=
  if bool_decide (name = []) || (ip =? 0) then mret tt else
  s ← get;
  found ← dns_find (Z.to_nat (dns_count (dns s))) 0 name;
  slot ← match found with
         | Some i => mret i
         | None =>
             if dns_count (dns s) <? 8 then
               modify (fun s => set_dns (with_cache (dns_cache (dns s)) (u8 (dns_count (dns s) + 1)) (dns s)) s) ;;
               mret (dns_count (dns s))
             else mret 0
         end;
  s ← get;
  text ← deref (fill 64 (copy_text 64 (Some name)));
  l ← deref (setZ (dns_cache (dns s)) slot (text, ip));
  modify (set_dns (with_cache l (dns_count (dns s)) (dns s))).

Definition dns_cache_lookup (name : list Z) : N Z :=
  s ← get;
  found ← dns_find (Z.to_nat (dns_count (dns s))) 0 name;
  match found with
  | Some i => e ← deref (getZ (dns_cache (dns s)) i); mret e.2
  | None => fail
  end.

(** ** Sending *)

Definition send_frame (frame : list Z) (len : Z) : N unit :=
  s ← get;
  check (ready s) ;;
  match send s with
  | None => fail
  | Some f =>
      bytes ← deref (take_bytes frame 0 len);
      let '(ok, d) := f bytes (device s) in
      modify (set_device d) ;;
      check ok ;;
      count tx_frames
  end.

(** An ARP packet of operation [op]. *)
Definition arp_packet (dst src : list Z) (op src_ip : Z) (target_mac : list Z) (target_ip : Z) : option (list Z) :=
  let frame := zeros 42 in
  frame ← put frame 0 dst;
  frame ← put frame 6 src;
  frame ← wr16be frame 12 ETH_TYPE_ARP;
  frame ← wr16be frame 14 1;
  frame ← wr16be frame 16 ETH_TYPE_IPV4;
  frame ← put frame 18 [6];
  frame ← put frame 19 [4];
  frame ← wr16be frame 20 op;
  frame ← put frame 22 src;
  frame ← wr32be frame 28 src_ip;
  frame ← put frame 32 target_mac;
  wr32be frame 38 target_ip.

Definition send_arp_reply (target_mac : list Z) (target_ip : Z) : N unit :=
  s ← get;
  frame ← deref (arp_packet target_mac (mac s) 2 (ipv4 (config s)) target_mac target_ip);
  send_frame frame 42.

(** The whole array of a frame with an IPv4 packet. *)
Definition ipv4_frame (dst_mac src_mac : list Z) (ip_len ip_id proto src_ip dst_ip : Z) (payload : list Z)
    : option (list Z) :=
  let frame := zeros 1514 in
  frame ← put frame 0 dst_mac;
  frame ← put frame 6 src_mac;
  frame ← wr16be frame 12 ETH_TYPE_IPV4;
  frame ← put frame 14 [0x45];
  frame ← put frame 15 [0];
  frame ← wr16be frame 16 ip_len;
  frame ← wr16be frame 18 ip_id;
  frame ← wr16be frame 20 0x4000;
  frame ← put frame 22 [64];
  frame ← put frame 23 [proto];
  frame ← wr16be frame 24 0;
  frame ← wr32be frame 26 src_ip;
  frame ← wr32be frame 30 dst_ip;
  sum ← csum16 (drop 14 frame) 20;
  frame ← wr16be frame 24 sum;
  put frame 34 payload.

(** The payload is the first [payload_len] bytes of the caller's buffer. *)
Definition send_ipv4_from (dst_mac : list Z) (src_ip dst_ip proto : Z) (payload : list Z) (payload_len : Z) : N unit :=
  let ip_len := u16 (20 + payload_len) in
  check (negb (1500 <? ip_len)) ;;
  s ← get;
  modify (set_ip_id (u16 (next_ip_id s + 1))) ;;
  bytes ← deref (take_bytes payload 0 payload_len);
  frame ← deref (ipv4_frame dst_mac (mac s) ip_len (next_ip_id s) proto src_ip dst_ip bytes);
  send_frame frame (u16 (14 + ip_len)).

Definition send_ipv4 (dst_mac : list Z) (dst_ip proto : Z) (payload : list Z) (payload_len : Z) : N unit :=
  s ← get;
  send_ipv4_from dst_mac (ipv4 (config s)) dst_ip proto payload payload_len.

Definition k64_net_send_arp_request (target_ip : Z) : N unit :=
  s ← get;
  check (ready s) ;;
  frame ← deref (arp_packet BROADCAST (mac s) 1 (ipv4 (config s)) (zeros 6) target_ip);
  send_frame frame 42.

Definition resolve_mac (dst_ip : Z) : N (list Z) :=
  s ← get;
  let c := config s in
  let target := if Z.land dst_ip (netmask c) =? Z.land (ipv4 c) (netmask c) then dst_ip else gateway c in
  m ← try (arp_lookup target);
  match m with
  | Some m => mret m
  | None => try (k64_net_send_arp_request target) ;; fail
  end.

Definition tcp_packet (src_ip dst_ip src_port dst_port seq ack flags : Z) (payload : list Z) (tcp_len : Z)
    : option (list Z) :=
  let packet := zeros 1480 in
  packet ← wr16be packet 0 src_port;
  packet ← wr16be packet 2 dst_port;
  packet ← wr32be packet 4 seq;
  packet ← wr32be packet 8 ack;
  packet ← put packet 12 [Z.shiftl 5 4];
  packet ← put packet 13 [flags];
  packet ← wr16be packet 14 4096;
  packet ← put packet 20 payload;
  sum ← tcp_checksum src_ip dst_ip packet tcp_len;
  wr16be packet 16 sum.

Definition send_tcp (dst_ip dst_port src_port seq ack flags : Z) (payload : list Z) : N unit :=
  let payload_len := Z.of_nat (length payload) in
  let tcp_len := u16 (20 + payload_len) in
  check (negb (1480 <? tcp_len)) ;;
  dst_mac ← resolve_mac dst_ip;
  s ← get;
  packet ← deref (tcp_packet (ipv4 (config s)) dst_ip src_port dst_port seq ack flags payload tcp_len);
  send_ipv4 dst_mac dst_ip IP_PROTO_TCP packet tcp_len.
End net.
