(* ===== verification/NetUdp.v ===== *)
(** * The DNS and DHCP clients ([k64_net.c], lines 361-630) *)
From Stdlib Require Import ZArith Lia.
From stdpp Require Import base list.
From S2P Require Import Prelude Exec KString NetBytes Net.

(** ** DNS messages *)

(** The loop over the characters of the host name: the packet, the write
    position, the position of the length byte of the current label and the
    start of the label. *)
Fixpoint dns_labels (host : list Z) (packet : list Z) (len label_len_pos label_start : Z)
    : option (list Z * Z * Z * Z) :=
  match host with
  | [] => Some (packet, len, label_len_pos, label_start)
  | c :: host =>
      if len + 6 <? 512 then
        if c =? 46 then
          packet ← put packet label_len_pos [u8 (len - label_start)];
          dns_labels host packet (len + 1) len (len + 1)
        else
          packet ← put packet len [u8 c];
          dns_labels host packet (len + 1) label_len_pos label_start
      else Some (packet, len, label_len_pos, label_start)
  end.

(** The query without its checksum, and its length. *)
Definition dns_query (host : list Z) (dns_id : Z) : option (list Z * Z) :=
  let packet := zeros 512 in
  packet ← wr16be packet 0 DNS_SRC_PORT;
  packet ← wr16be packet 2 DNS_PORT;
  packet ← wr16be packet 8 dns_id;
  packet ← wr16be packet 10 0x0100;
  packet ← wr16be packet 12 1;
  '(packet, len, label_len_pos, label_start) ← dns_labels host packet 21 20 21;
  packet ← put packet label_len_pos [u8 (len - label_start)];
  packet ← put packet len [0];
  packet ← wr16be packet (len + 1) 1;
  packet ← wr16be packet (len + 3) 1;
  let len := len + 5 in
  packet ← wr16be packet 4 len;
  packet ← wr16be packet 6 0;
  Some (packet, len).

(** [wr16be(packet + 6, 0); wr16be(packet + 6, udp_checksum(...));] *)
Definition udp_seal (src_ip dst_ip : Z) (packet : list Z) (len : Z) : option (list Z) :=
  packet ← wr16be packet 6 0;
  sum ← udp_checksum src_ip dst_ip packet len;
  wr16be packet 6 sum.

(** The position behind a name; behind the end of the message if there is
    none. *)
Fixpoint dns_skip_name (fuel : nat) (dns : list Z) (dns_len pos : Z) : option Z :=
  if pos <? dns_len then
    match fuel with
    | O => None
    | S fuel =>
        len ← getZ dns pos;
        let pos := pos + 1 in
        if len =? 0 then Some pos
        else if Z.land len 0xC0 =? 0xC0 then Some (if pos + 1 <=? dns_len then pos + 1 else dns_len + 1)
        else dns_skip_name fuel dns dns_len (pos + len)
    end
  else Some (dns_len + 1).

(** Every round passes a byte of the message. *)
Definition skip_fuel (dns_len : Z) : nat := Z.to_nat dns_len.

(** [while (qd-- && pos < dns_len)] *)
Fixpoint skip_questions (qd : nat) (dns : list Z) (dns_len pos : Z) : option Z :=
  match qd with
  | O => Some pos
  | S qd =>
      if pos <? dns_len then
        pos ← dns_skip_name (skip_fuel dns_len) dns dns_len pos;
        skip_questions qd dns dns_len (pos + 4)
      else Some pos
  end.

(** [while (an-- && pos + 12 <= dns_len)]: the address of the first answer that
    is one, if any. *)
Fixpoint find_answer (an : nat) (dns : list Z) (dns_len pos : Z) : option (option Z) :=
  match an with
  | O => Some None
  | S an =>
      if pos + 12 <=? dns_len then
        pos ← dns_skip_name (skip_fuel dns_len) dns dns_len pos;
        if dns_len <? pos + 10 then Some None else
        type ← rd16be dns pos;
        class_id ← rd16be dns (pos + 2);
        rdlen ← rd16be dns (pos + 8);
        let pos := pos + 10 in
        if dns_len <? pos + rdlen then Some None else
        if (type =? 1) && (class_id =? 1) && (rdlen =? 4) then ip ← rd32be dns pos; Some (Some ip)
        else find_answer an dns dns_len (pos + rdlen)
      else Some None
  end.

(** ** DHCP messages *)

(** Writing bytes at the position [opt], which moves behind them. *)
Definition emit (bytes : list Z) (st : list Z * Z) : option (list Z * Z) :=
  let '(packet, opt) := st in
  packet ← put packet opt bytes; Some (packet, opt + Z.of_nat (length bytes)).

Definition dhcp_message (m : list Z) (xid msg_type requested_ip server_ip : Z) : option (list Z * Z) :=
  let packet := zeros 548 in
  packet ← wr16be packet 0 DHCP_CLIENT_PORT;
  packet ← wr16be packet 2 DHCP_SERVER_PORT;
  packet ← put packet 8 [1; 1; 6; 0];
  packet ← wr32be packet 12 xid;
  packet ← wr16be packet 18 0x8000;
  packet ← put packet 36 m;
  packet ← wr32be packet 244 DHCP_MAGIC;
  st ← emit [53; 1; msg_type] (packet, 248);
  st ← (if requested_ip =? 0 then Some st else emit ([50; 4] ++ be32 requested_ip) st);
  st ← (if server_ip =? 0 then Some st else emit ([54; 4] ++ be32 server_ip) st);
  '(packet, opt) ← emit [55; 3; 1; 3; 6; 255] st;
  let udp_len := u16 opt in
  packet ← wr16be packet 4 udp_len;
  packet ← wr16be packet 6 0;
  Some (packet, udp_len).

(** What the options of an answer say. *)
Record dhcp_options := mk_options {
  o_msg_type : Z; o_server : Z; o_router : Z; o_mask : Z; o_dns : Z
}.

(** One option, of [len] bytes at [pos]. *)
Definition read_option (opt len : Z) (bootp : list Z) (pos : Z) (o : dhcp_options) : option dhcp_options :=
  if (opt =? 53) && (1 <=? len) then
    v ← getZ bootp pos; Some (mk_options v (o_server o) (o_router o) (o_mask o) (o_dns o))
  else if (opt =? 54) && (4 <=? len) then
    v ← rd32be bootp pos; Some (mk_options (o_msg_type o) v (o_router o) (o_mask o) (o_dns o))
  else if (opt =? 1) && (4 <=? len) then
    v ← rd32be bootp pos; Some (mk_options (o_msg_type o) (o_server o) (o_router o) v (o_dns o))
  else if (opt =? 3) && (4 <=? len) then
    v ← rd32be bootp pos; Some (mk_options (o_msg_type o) (o_server o) v (o_mask o) (o_dns o))
  else if (opt =? 6) && (4 <=? len) then
    v ← rd32be bootp pos; Some (mk_options (o_msg_type o) (o_server o) (o_router o) (o_mask o) v)
  else Some o.

(** [while (pos + 1 < bootp_len)] *)
Fixpoint read_options (fuel : nat) (bootp : list Z) (bootp_len pos : Z) (o : dhcp_options) : option dhcp_options :=
  if pos + 1 <? bootp_len then
    match fuel with
    | O => None
    | S fuel =>
        opt ← getZ bootp pos;
        let pos := pos + 1 in
        if opt =? 255 then Some o
        else if opt =? 0 then read_options fuel bootp bootp_len pos o
        else
          len ← getZ bootp pos;
          let pos := pos + 1 in
          if bootp_len <? pos + len then Some o else
          o ← read_option opt len bootp pos o;
          read_options fuel bootp bootp_len (pos + len) o
    end
  else Some o.

(** ** The clients *)
Section clients.
Context {D : Type}.
Abbreviation N := (M (net (D := D))).

Definition with_query (id next : Z) (name : list Z) (d : dns_client) : dns_client :=
  mk_dns next (dns_cache d) (dns_count d) id 0 name.

Definition send_dns_query (host : option (list Z)) : N unit :=
  match host with
  | None | Some [] => fail
  | Some host =>
      s ← get;
      dst_mac ← resolve_mac (gateway (config s));
      s ← get;
      let dns_id := next_dns_id (dns s) in
      let c := config s in
      '(packet, len) ← deref (dns_query host dns_id);
      packet ← deref (udp_seal (ipv4 c) (dns_server c) packet (u16 len));
      name ← deref (fill 64 (copy_text 64 (Some host)));
      modify (fun s => set_dns (with_query dns_id (u16 (dns_id + 1)) name (dns s)) s) ;;
      sent ← try (send_ipv4 dst_mac (dns_server c) IP_PROTO_UDP packet (u16 len));
      if negb (gateway c =? 0) && negb (gateway c =? dns_server c) then
        packet ← deref (udp_seal (ipv4 c) (gateway c) packet (u16 len));
        sent' ← try (send_ipv4 dst_mac (gateway c) IP_PROTO_UDP packet (u16 len));
        check (negb (absent sent') || negb (absent sent))
      else check (negb (absent sent))
  end.

Definition answered (d : dns_client) : dns_client :=
  mk_dns (next_dns_id d) (dns_cache d) (dns_count d) (pending_dns_id d) 0 [].

Definition handle_dns_payload (udp : list Z) (udp_len : Z) : N unit :=
  if udp_len <? 20 then mret tt else
  src_port ← deref (rd16be udp 0);
  dst_port ← deref (rd16be udp 2);
  if negb (src_port =? DNS_PORT) || negb (dst_port =? DNS_SRC_PORT) then mret tt else
  let dns_p := drop 8 udp in
  let dns_len := u16 (udp_len - 8) in
  id ← deref (rd16be dns_p 0);
  s ← get;
  if negb (id =? pending_dns_id (dns s)) then mret tt else
  qd ← deref (rd16be dns_p 4);
  an ← deref (rd16be dns_p 6);
  pos ← deref (skip_questions (Z.to_nat qd) dns_p dns_len 12);
  answer ← deref (find_answer (Z.to_nat an) dns_p dns_len pos);
  match answer with
  | None => mret tt
  | Some ip =>
      dns_cache_put (pending_dns_name (dns s)) ip ;;
      modify (fun s => set_dns (answered (dns s)) s) ;;
      count rx_dns
  end.

Definition send_dhcp_message (msg_type requested_ip server_ip : Z) : N unit :=
  s ← get;
  check (ready s) ;;
  '(packet, udp_len) ← deref (dhcp_message (mac s) (dhcp_xid (dhcp s)) msg_type requested_ip server_ip);
  packet ← deref (udp_seal 0 0xFFFFFFFF packet udp_len);
  send_ipv4_from BROADCAST 0 0xFFFFFFFF IP_PROTO_UDP packet udp_len.

Definition send_dhcp_discover : N unit :=
  modify (fun s => set_dhcp (mk_dhcp (u32 (dhcp_xid (dhcp s) + 1)) 0 0) s) ;;
  send_dhcp_message 1 0 0.

Definition send_dhcp_request (requested_ip server_ip : Z) : N unit :=
  send_dhcp_message 3 requested_ip server_ip.

(** [net.stats.ipv4 = net.ipv4; ...] *)
Definition copy_config : N unit := modify (fun s =>
  let x := stats s in let c := config s in
  set_stats (mk_status (link_up x) (st_driver x) (st_mac x) (ipv4 c) (gateway c) (netmask c) (dns_server c)
    (counts x) (last_ethertype x) (last_rx_len x)) s).

Definition handle_dhcp_payload (udp : list Z) (udp_len : Z) : N unit :=
  if udp_len <? 252 then mret tt else
  src_port ← deref (rd16be udp 0);
  dst_port ← deref (rd16be udp 2);
  if negb (src_port =? DHCP_SERVER_PORT) || negb (dst_port =? DHCP_CLIENT_PORT) then mret tt else
  let bootp := drop 8 udp in
  let bootp_len := u16 (udp_len - 8) in
  xid ← deref (rd32be bootp 4);
  s ← get;
  if negb (xid =? dhcp_xid (dhcp s)) then mret tt else
  magic ← deref (rd32be bootp 236);
  if negb (magic =? DHCP_MAGIC) then mret tt else
  yiaddr ← deref (rd32be bootp 16);
  o ← deref (read_options (Z.to_nat bootp_len) bootp bootp_len 240 (mk_options 0 0 0 0 0));
  if (o_msg_type o =? 2) && negb (yiaddr =? 0) then
    modify (fun s => set_dhcp (mk_dhcp (dhcp_xid (dhcp s)) (o_server o) yiaddr) s) ;;
    try (send_dhcp_request yiaddr (o_server o)) ;;
    mret tt
  else if (o_msg_type o =? 5) && negb (yiaddr =? 0) then
    modify (fun s => let c := config s in set_config (mk_config yiaddr
      (if o_router o =? 0 then gateway c else o_router o)
      (if o_mask o =? 0 then netmask c else o_mask o)
      (if o_dns o =? 0 then dns_server c else o_dns o)) s) ;;
    copy_config
  else mret tt.
End clients.
