(* ===== verification/NetHttp.v ===== *)
(** * The TCP connection and the HTTP client ([k64_net.c], lines 632-834, 1034-1297) *)
From Stdlib Require Import ZArith Lia.
From stdpp Require Import base list.
From S2P Require Import Prelude Exec KString NetBytes Net NetUdp.

(** ** The response buffer *)

(** [net.http.response[i]]; [None] behind the bytes that have been received. *)
Definition at_ (r : list Z) (i : Z) : option Z := getZ r i.

(** The buffer after a segment has been appended, as far as there is room. *)
Definition http_append (r payload : list Z) : list Z :=
  let len := Z.of_nat (length payload) in
  let response_len := Z.of_nat (length r) in
  if (len =? 0) || (HTTP_BUF_SIZE <=? response_len + 1) then r else
  let room := HTTP_BUF_SIZE - 1 - response_len in
  let len := if room <? len then u16 room else len in
  r ++ take (Z.to_nat len) payload.

(** [while (pos < i && f(response[pos])) pos++;] *)
Fixpoint skip_while (n : nat) (f : Z -> bool) (r : list Z) (pos : Z) : option Z :=
  match n with
  | O => Some pos
  | S n => c ← at_ r pos; if f c then skip_while n f r (pos + 1) else Some pos
  end.
Definition skip_to (f : Z -> bool) (r : list Z) (i pos : Z) : option Z := skip_while (Z.to_nat (i - pos)) f r pos.

Definition blank (c : Z) : bool := (c =? 32) || (c =? 9).
Definition digit (c : Z) : bool := (48 <=? c) && (c <=? 57).

(** The position of the first empty line, if there is one. *)
Fixpoint find_blank_line (n : nat) (r : list Z) (i : Z) : option (option Z) :=
  match n with
  | O => Some None
  | S n =>
      if i + 3 <? Z.of_nat (length r) then
        a ← at_ r i; b ← at_ r (i + 1); c ← at_ r (i + 2); d ← at_ r (i + 3);
        if (a =? 13) && (b =? 10) && (c =? 13) && (d =? 10) then Some (Some i)
        else find_blank_line n r (i + 1)
      else Some None
  end.

Definition http_status (r : list Z) (i : Z) : option Z :=
  if 12 <=? Z.of_nat (length r) then
    a ← at_ r 0; b ← at_ r 1; c ← at_ r 2; d ← at_ r 3;
    if (a =? 72) && (b =? 84) && (c =? 84) && (d =? 80) then
      code_pos ← skip_to (fun c => negb (blank c)) r i 0;
      code_pos ← skip_to blank r i code_pos;
      if code_pos + 2 <? i then
        x ← at_ r code_pos; y ← at_ r (code_pos + 1); z ← at_ r (code_pos + 2);
        Some (if digit x && digit y && digit z then u16 ((x - 48) * 100 + (y - 48) * 10 + (z - 48)) else 0)
      else Some 0
    else Some 0
  else Some 0.

(** Letter [c] (lower case) in either case. *)
Definition letter (c x : Z) : bool := (x =? c) || (x =? c - 32).

(** The line at [pos] starts with [Content-L], in any case but for the dash. *)
Definition content_length_line (r : list Z) (pos : Z) : option bool :=
  c0 ← at_ r pos; c1 ← at_ r (pos + 1); c2 ← at_ r (pos + 2); c3 ← at_ r (pos + 3); c4 ← at_ r (pos + 4);
  c5 ← at_ r (pos + 5); c6 ← at_ r (pos + 6); c7 ← at_ r (pos + 7); c8 ← at_ r (pos + 8);
  Some (letter 99 c0 && letter 111 c1 && letter 110 c2 && letter 116 c3 && letter 101 c4 && letter 110 c5 &&
        letter 116 c6 && (c7 =? 45) && letter 108 c8).

(** A decimal number from [pos] on: its value and the position behind it. *)
Fixpoint read_decimal (n : nat) (r : list Z) (pos value : Z) : option (Z * Z) :=
  match n with
  | O => Some (value, pos)
  | S n =>
      c ← at_ r pos;
      if digit c then read_decimal n r (pos + 1) (u64 (value * 10 + (c - 48))) else Some (value, pos)
  end.

(** The value behind the colon of a [Content-Length] line at [pos]: the position
    and the content length found so far. *)
Definition length_field (r : list Z) (i pos : Z) (length_ : option Z) : option (Z * option Z) :=
  pos ← skip_to (fun c => negb (c =? 58)) r i pos;
  if pos <? i then
    c ← at_ r pos;
    if c =? 58 then
      pos ← skip_to blank r i (pos + 1);
      '(value, pos) ← read_decimal (Z.to_nat (i - pos)) r pos 0;
      Some (pos, Some value)
    else Some (pos, length_)
  else Some (pos, length_).

(** The loop over the header lines: the content length, if one has been
    found. *)
Fixpoint header_lines (fuel : nat) (r : list Z) (i pos : Z) (length_ : option Z) : option (option Z) :=
  if pos + 16 <? i then
    match fuel with
    | O => None
    | S fuel =>
        at_line ← (if pos =? 0 then Some true else c ← at_ r (pos - 1); Some (c =? 10));
        hit ← content_length_line r pos;
        '(pos, length_) ← (if at_line && hit then length_field r i pos length_ else Some (pos, length_));
        pos ← skip_to (fun c => negb (c =? 10)) r i pos;
        header_lines fuel r i (if pos <? i then pos + 1 else pos) length_
    end
  else Some length_.

(** What [http_find_body] stores through its pointers when it returns true. *)
Record http_info := mk_info { header_size : Z; status : Z; content_length : Z; has_content_length : bool }.

(** The outer [None] is a read outside of the response or the end of the fuel,
    the inner one the return of false. *)
Definition http_find_body (r : list Z) : option (option http_info) :=
  line ← find_blank_line (length r) r 0;
  match line with
  | None => Some None
  | Some i =>
      st ← http_status r i;
      l ← header_lines (Z.to_nat i) r i 0 None;
      Some (Some (mk_info (i + 4) st (default 0 l) (negb (absent l))))
  end.

Definition http_response_has_complete_body (r : list Z) : option bool :=
  o ← http_find_body r;
  Some match o with
       | None => false
       | Some info => has_content_length info && (u64 (header_size info + content_length info) <=? Z.of_nat (length r))
       end.

(** The digits of [value], last one first, at most [n]. *)
Fixpoint digits_rev (n : nat) (value : Z) : list Z :=
  match n with
  | O => []
  | S n => if value =? 0 then [] else (48 + value mod 10) :: digits_rev n (value / 10)
  end.

(** The text written to [out], an array of [out_size] bytes. *)
Definition http_append_dec (out_size value : Z) : list Z :=
  if value =? 0 then (if 1 <? out_size then [48] else [])
  else take (Z.to_nat (out_size - 1)) (rev (digits_rev 24 value)).

(** ** TCP *)
Definition with_state (x : http_state_t) (h : http_client_t) : http_client_t :=
  mk_http x (host h) (path h) (h_ip h) (port h) (local_port h) (use_range h) (range_start h) (range_end h)
    (seq h) (ack h) (response h).
Definition with_seq (a b : Z) (h : http_client_t) : http_client_t :=
  mk_http (state h) (host h) (path h) (h_ip h) (port h) (local_port h) (use_range h) (range_start h) (range_end h)
    a b (response h).
Definition with_ip (a : Z) (h : http_client_t) : http_client_t :=
  mk_http (state h) (host h) (path h) a (port h) (local_port h) (use_range h) (range_start h) (range_end h)
    (seq h) (ack h) (response h).
Definition with_response (r : list Z) (h : http_client_t) : http_client_t :=
  mk_http (state h) (host h) (path h) (h_ip h) (port h) (local_port h) (use_range h) (range_start h) (range_end h)
    (seq h) (ack h) r.

(** The data of a segment, as far as it continues what has been received. *)
Definition accept_data (h : http_client_t) (sq : Z) (data : list Z) : http_client_t :=
  let data_len := Z.of_nat (length data) in
  if sq =? ack h then with_seq (seq h) (u32 (sq + data_len)) (with_response (http_append (response h) data) h)
  else if sq <? ack h then
    let seen := ack h - sq in
    if seen <? data_len then
      with_seq (seq h) (u32 (ack h + (data_len - seen)))
        (with_response (http_append (response h) (drop (Z.to_nat seen) data)) h)
    else h
  else h.

Section http.
Context {D : Type}.
Abbreviation N := (M (net (D := D))).

Definition upd_http (f : http_client_t -> http_client_t) : N unit := modify (fun s => set_http (f (http s)) s).

(** A segment of the connection with the given flags. *)
Definition send_segment (flags : Z) (payload : list Z) : N unit :=
  s ← get;
  let h := http s in
  send_tcp (h_ip h) (port h) (local_port h) (seq h) (ack h) flags payload.

Definition handle_tcp_payload (p : list Z) (payload_len src_ip : Z) : N unit :=
  if payload_len <? 20 then mret tt else
  src_port ← deref (rd16be p 0);
  dst_port ← deref (rd16be p 2);
  s ← get;
  let h := http s in
  if bool_decide (state h = HTTP_IDLE) || negb (src_ip =? h_ip h) || negb (src_port =? port h) ||
     negb (dst_port =? local_port h) then mret tt else
  sq ← deref (rd32be p 4);
  ak ← deref (rd32be p 8);
  b ← deref (getZ p 12);
  let hdr_len := u8 (Z.shiftr b 4 * 4) in
  flags ← deref (getZ p 13);
  if (hdr_len <? 20) || (payload_len <? hdr_len) then mret tt else
  let data_len := u16 (payload_len - hdr_len) in
  if negb (Z.land flags TCP_FLAG_RST =? 0) then upd_http (with_state HTTP_ERROR) else
  let syn_ack := Z.lor TCP_FLAG_SYN TCP_FLAG_ACK in
  if bool_decide (state h = HTTP_SYN_SENT) && (Z.land flags syn_ack =? syn_ack) && (ak =? u32 (seq h + 1)) then
    upd_http (fun h => with_seq (u32 (seq h + 1)) (u32 (sq + 1)) h) ;;
    try (send_segment TCP_FLAG_ACK []) ;;
    upd_http (with_state HTTP_ESTABLISHED)
  else
    (if (bool_decide (state h = HTTP_REQUEST_SENT) || bool_decide (state h = HTTP_ESTABLISHED)) && negb (data_len =? 0) then
       data ← deref (take_bytes p hdr_len data_len);
       upd_http (fun h => accept_data h sq data) ;;
       s ← get;
       complete ← deref (http_response_has_complete_body (response (http s)));
       (if complete : bool then upd_http (with_state HTTP_DONE) else mret tt) ;;
       try (send_segment TCP_FLAG_ACK []) ;;
       mret tt
     else mret tt) ;;
    if negb (Z.land flags TCP_FLAG_FIN =? 0) then
      s ← get;
      (if u32 (sq + data_len) =? ack (http s) then upd_http (fun h => with_seq (seq h) (u32 (ack h + 1)) h) else mret tt) ;;
      try (send_segment TCP_FLAG_ACK []) ;;
      upd_http (with_state HTTP_DONE)
    else mret tt.
End http.
