(* ===== verification/NetApi.v ===== *)
(** * Receiving frames and the public operations ([k64_net.c], lines 846-1373) *)
From Stdlib Require Import ZArith Lia.
From stdpp Require Import base list.
From S2P Require Import Prelude Exec KString NetBytes Net NetUdp NetHttp.

(** ** Addresses as text *)

(** The loop of [k64_net_parse_ipv4]; the end of [text] is its terminator. *)
Fixpoint parse_parts (text : list Z) (parts : list Z) (part : Z) (saw_digit : bool) : option Z :=
  match text with
  | [] =>
      if (part =? 3) && saw_digit then
        a ← getZ parts 0; b ← getZ parts 1; c ← getZ parts 2; d ← getZ parts 3;
        Some (Z.lor (Z.lor (Z.lor (u32 (Z.shiftl a 24)) (u32 (Z.shiftl b 16))) (u32 (Z.shiftl c 8))) d)
      else None
  | ch :: text =>
      if digit ch then
        v ← getZ parts part;
        let v := u32 (v * 10 + (ch - 48)) in
        if 255 <? v then None else
        parts ← setZ parts part v;
        parse_parts text parts part true
      else if (ch =? 46) && (part <? 3) && saw_digit then parse_parts text parts (part + 1) false
      else None
  end.

Definition k64_net_parse_ipv4 (text : option (list Z)) : option Z :=
  text ← text; parse_parts text [0; 0; 0; 0] 0 false.

(** Writing a character when there is room for it and the terminator. *)
Definition push (size : Z) (out : list Z) (c : Z) : list Z :=
  if Z.of_nat (length out) + 1 <? size then out ++ [c] else out.

Definition part_digits (part : Z) : list Z :=
  if 100 <=? part then [48 + part / 100; 48 + part mod 100 / 10; 48 + part mod 100 mod 10]
  else if 10 <=? part then [48 + part / 10; 48 + part mod 10]
  else [48 + part].

(** The part of the address at bit [8 * i], with the dot behind it. *)
Definition format_part (ip size : Z) (out : list Z) (i : Z) : list Z :=
  let part := u8 (Z.land (Z.shiftr ip (i * 8)) 0xFF) in
  let out := fold_left (push size) (part_digits part) out in
  if 0 <? i then push size out 46 else out.

(** The text in an array of [out_size > 0] bytes. *)
Definition k64_net_format_ipv4 (ip out_size : Z) : list Z :=
  fold_left (format_part ip out_size) [3; 2; 1; 0] [].

(** ** The HTTP client *)

(** [k64_net_http_get_range_raw] returns a flag and stores the body, its size
    and a message. *)
Record http_reply := mk_reply { r_ok : bool; r_out : list Z; r_size : Z; r_state : list Z }.
Definition failed (msg : list Z) : http_reply := mk_reply false [] 0 msg.

(** [if (len + 1 < size) request[len++] = c;], where [request] has [cap] bytes. *)
Definition put_char (cap : Z) (out : list Z) (c : Z) : option (list Z) :=
  if Z.of_nat (length out) <? cap then Some (out ++ [c]) else None.
Definition push_char (cap size : Z) (out : list Z) (c : Z) : option (list Z) :=
  if Z.of_nat (length out) + 1 <? size then put_char cap out c else Some out.
Fixpoint push_text (cap size : Z) (l out : list Z) : option (list Z) :=
  match l with
  | [] => Some out
  | c :: l => out ← push_char cap size out c; push_text cap size l out
  end.

(** [char request[256];] *)
Definition REQUEST_BYTES : Z := 256.

(** The text of the request; [None] when it is written outside of its array. *)
Definition http_request (h : http_client_t) : option (list Z) :=
  let add := push_text REQUEST_BYTES 256 in
  let crlf := [13; 10] in
  r ← add (str "GET ") [];
  r ← add (path h) r;
  r ← add (str " HTTP/1.0" ++ crlf ++ str "Host: ") r;
  r ← add (host h) r;
  r ← add (crlf ++ str "User-Agent: K64-kcurl/1.0" ++ crlf) r;
  r ← (if use_range h && (Z.of_nat (length r) + 48 <? 256) then
         r ← add (str "Range: bytes=") r;
         num ← fill 24 (http_append_dec 24 (range_start h));
         r ← add num r;
         r ← push_char REQUEST_BYTES 256 r 45;
         num ← fill 24 (http_append_dec 24 (range_end h));
         r ← add num r;
         if Z.of_nat (length r) + 2 <? 256 then r ← put_char REQUEST_BYTES r 13; put_char REQUEST_BYTES r 10 else Some r
       else Some r);
  r ← add (str "Connection: close" ++ crlf ++ crlf) r;
  fill REQUEST_BYTES r.

(** ** Datagrams and echo requests *)
Definition udp_packet (src_ip dst_ip dst_port : Z) (payload : list Z) (udp_len : Z) : option (list Z) :=
  let packet := zeros 1480 in
  packet ← wr16be packet 0 49152;
  packet ← wr16be packet 2 dst_port;
  packet ← wr16be packet 4 udp_len;
  packet ← wr16be packet 6 0;
  packet ← put packet 8 payload;
  sum ← udp_checksum src_ip dst_ip packet udp_len;
  wr16be packet 6 sum.

Definition ping_packet (id sequence : Z) : option (list Z) :=
  let packet := zeros 32 in
  packet ← put packet 0 [8];
  packet ← put packet 1 [0];
  packet ← wr16be packet 4 id;
  packet ← wr16be packet 6 sequence;
  packet ← put packet 8 (map Z.of_nat (List.seq 8 24));
  sum ← csum16 packet 32;
  wr16be packet 2 sum.

Section api.
Context {D : Type}.
Abbreviation N := (M (net (D := D))).
Implicit Types s : net (D := D).

(** The label [done]: [cap] is the size of the output array, [None] without
    one. *)
Definition http_done (cap : option Z) : N http_reply :=
  s ← get;
  let r := response (http s) in
  let broken msg := upd_http (with_state HTTP_ERROR) ;; mret (failed msg) in
  found ← deref (http_find_body r);
  match found with
  | None => broken (str "bad http response")
  | Some info =>
      if (status info <? 200) || (300 <=? status info) then broken (str "http status error")
      else if use_range (http s) && negb (status info =? 206) then broken (str "range unsupported")
      else if has_content_length info && negb (u64 (Z.of_nat (length r) - header_size info) =? content_length info)
      then broken (str "incomplete download")
      else if Z.of_nat (length r) <? header_size info then mret (failed (str "idle"))
      else
        let content_length := Z.of_nat (length r) - header_size info in
        let body := drop (Z.to_nat (header_size info)) r in
        match cap with
        | Some cap =>
            if cap =? 0 then mret (mk_reply true [] content_length (str "done")) else
            let copy := if content_length <? cap then content_length else cap in
            let out := take (Z.to_nat copy) body in
            if copy <? content_length then
              upd_http (with_state HTTP_ERROR) ;;
              mret (mk_reply false out content_length (str "buffer too small"))
            else mret (mk_reply true out content_length (str "done"))
        | None => mret (mk_reply true [] content_length (str "done"))
        end
  end.

(** [k64_net_resolve_host]: the address, or whether an answer is pending. *)
Definition k64_net_resolve_host (name : option (list Z)) : N (Z + bool) :=
  match name with
  | None | Some [] => mret (inr false)
  | Some name =>
      match k64_net_parse_ipv4 (Some name) with
      | Some ip => mret (inl ip)
      | None =>
          cached ← try (dns_cache_lookup name);
          match cached with
          | Some ip => mret (inl ip)
          | None =>
              s ← get;
              let d := dns s in
              if text_eq (Some (pending_dns_name d)) (Some name) && (pending_dns_waits d <? 8) then
                modify (fun s => let d := dns s in set_dns (mk_dns (next_dns_id d) (dns_cache d) (dns_count d)
                  (pending_dns_id d) (u8 (pending_dns_waits d + 1)) (pending_dns_name d)) s) ;;
                mret (inr true)
              else
                sent ← try (send_dns_query (Some name));
                mret (inr (negb (absent sent)))
          end
      end
  end.

(** The request is the one the client is working on. *)
Definition same_request (h : http_client_t) (hst pth : list Z) (prt : Z) (rng : bool) (a b : Z) : bool :=
  text_eq (Some (host h)) (Some hst) && text_eq (Some (path h)) (Some pth) && (port h =? prt) &&
  Bool.eqb (use_range h) rng && (negb rng || ((range_start h =? a) && (range_end h =? b))).

Definition new_request (hst pth : list Z) (prt : Z) (rng : bool) (a b : Z) : N unit :=
  s ← get;
  let p := next_tcp_port s in
  hst ← deref (fill 64 (copy_text 64 (Some hst)));
  pth ← deref (fill 128 (copy_text 128 (Some pth)));
  modify (set_tcp_port (u16 (p + 1))) ;;
  upd_http (fun _ => mk_http HTTP_RESOLVE hst pth 0 prt p rng a b (u32 (0x4B640000 + p)) 0 []).

(** The states [HTTP_RESOLVE] and [HTTP_ARP]; the answer is the reply of an
    early return. *)
Definition http_connect : N (option http_reply) :=
  s ← get;
  r ← (if bool_decide (state (http s) = HTTP_RESOLVE) then
         a ← k64_net_resolve_host (Some (host (http s)));
         match a with
         | inr pending => mret (Some (failed (if pending : bool then str "resolving dns" else str "dns failed")))
         | inl ip => upd_http (fun h => with_state HTTP_ARP (with_ip ip h)) ;; mret None
         end
       else mret None);
  match r with
  | Some r => mret (Some r)
  | None =>
      s ← get;
      if bool_decide (state (http s) = HTTP_ARP) then
        m ← try (resolve_mac (h_ip (http s)));
        if absent m then mret (Some (failed (str "resolving arp"))) else
        let h := http s in
        sent ← try (send_tcp (h_ip h) (port h) (local_port h) (seq h) 0 TCP_FLAG_SYN []);
        if absent sent then mret (Some (failed (str "tcp send failed"))) else
        upd_http (with_state HTTP_SYN_SENT) ;;
        mret None
      else mret None
  end.

(** The states from [HTTP_SYN_SENT] on. *)
Definition http_progress (cap : option Z) : N http_reply :=
  s ← get;
  if bool_decide (state (http s) = HTTP_SYN_SENT) then mret (failed (str "connecting")) else
  r ← (if bool_decide (state (http s) = HTTP_ESTABLISHED) then
         request ← deref (http_request (http s));
         sent ← try (send_segment (Z.lor TCP_FLAG_PSH TCP_FLAG_ACK) request);
         if absent sent then mret (Some (failed (str "request send failed"))) else
         upd_http (fun h => with_state HTTP_REQUEST_SENT
           (with_seq (u32 (seq h + Z.of_nat (length request))) (ack h) h)) ;;
         mret None
       else mret None);
  match r with
  | Some r => mret r
  | None =>
      s ← get;
      if bool_decide (state (http s) = HTTP_REQUEST_SENT) then
        mret (failed (if bool_decide (response (http s) = []) then str "waiting" else str "receiving"))
      else if bool_decide (state (http s) = HTTP_DONE) then http_done cap
      else mret (failed (str "error"))
  end.

Definition k64_net_http_get_range_raw (hst pth : option (list Z)) (prt a b : Z) (cap : option Z) : N http_reply :=
  let rng := (a <=? b) && (negb (a =? 0) || negb (b =? 0)) in
  match hst with
  | None | Some [] => mret (failed (str "bad host"))
  | Some hst =>
      let pth := match pth with None | Some [] => str "/" | Some p => p end in
      let prt := if prt =? 0 then 80 else prt in
      s ← get;
      let same := same_request (http s) hst pth prt rng a b in
      if bool_decide (state (http s) = HTTP_DONE) && same then http_done cap else
      (if bool_decide (state (http s) = HTTP_IDLE) || bool_decide (state (http s) = HTTP_ERROR) || negb same
       then new_request hst pth prt rng a b else mret tt) ;;
      r ← http_connect;
      match r with
      | Some r => mret r
      | None => http_progress cap
      end
  end.

Definition k64_net_http_get_raw (hst pth : option (list Z)) (prt : Z) (cap : option Z) : N http_reply :=
  k64_net_http_get_range_raw hst pth prt 0 0 cap.

(** The text stored in an array of [out_size > 0] bytes; [r_out] holds the bytes
    that have been written to [raw], an array of 1024 bytes. *)
Definition k64_net_http_get (hst pth : option (list Z)) (prt out_size : Z) : N http_reply :=
  r ← k64_net_http_get_raw hst pth prt (Some 1024);
  deref (fill 1025 (r_out r)) ;;
  let copy := if r_size r + 1 <? out_size then r_size r else out_size - 1 in
  out ← deref (take_bytes (r_out r) 0 copy);
  mret (mk_reply (r_ok r) out (r_size r) (r_state r)).

(** [write] is [k64_fs_write_file_raw]. *)
Definition k64_net_http_download_to_file (write : list Z -> list Z -> bool) (hst pth : option (list Z))
    (prt : Z) (dst : list Z) (max_size_or_0 : Z) : N http_reply :=
  r ← k64_net_http_get_raw hst pth prt None;
  if negb (r_ok r) then mret r else
  if negb (max_size_or_0 =? 0) && (max_size_or_0 <? r_size r)
  then mret (mk_reply false [] (r_size r) (str "download too large")) else
  s ← get;
  let body := response (http s) in
  bytes ← deref (take_bytes body (Z.of_nat (length body) - r_size r) (r_size r));
  if write dst bytes then mret (mk_reply true [] (r_size r) (str "done"))
  else mret (mk_reply false [] (r_size r) (str "write failed")).

(** ** Devices *)
Definition zero_http : http_client_t := mk_http HTTP_IDLE [] [] 0 0 0 false 0 0 0 0 [].
Definition zero_status : k64_net_status_t := mk_status false [] (zeros 6) 0 0 0 0 (fun _ => 0) 0 0.

(** The device keeps its state. *)
Definition k64_net_init : N unit := modify (fun s =>
  mk_net false [] (zeros 6) (mk_config 0x0A00020F 0x0A000202 0xFFFFFF00 0x0A000203) None zero_status 1 1 40000
    (mk_dhcp 0x4B363400 0 0) (mk_arp (replicate 8 (zeros 4)) (replicate 8 (zeros 6)) 0)
    (mk_dns 1 (replicate 8 ([], 0)) 0 0 0 []) zero_http (device s)).

Definition k64_net_register_device (drv : option (list Z)) (m : option (list Z)) (f : option (send_fn (D := D))) : N unit :=
  match m, f with
  | Some m, Some f =>
      s ← get;
      check (negb (ready s)) ;;
      modify (fun s =>
        let c := config s in
        mk_net true (match drv with Some (x :: t) => take 23 (x :: t) | _ => driver s end) m c (Some f)
          (mk_status true [] m (ipv4 c) (gateway c) (netmask c) (dns_server c) (fun _ => 0) 0 0)
          (next_ip_id s) (next_icmp_id s) (next_tcp_port s) (dhcp s) (arp s) (dns s) (http s) (device s))
  | _, _ => fail
  end.

Definition with_link (b : bool) (x : k64_net_status_t) : k64_net_status_t :=
  mk_status b (st_driver x) (st_mac x) (st_ipv4 x) (st_gateway x) (st_netmask x) (st_dns_server x) (counts x)
    (last_ethertype x) (last_rx_len x).

Definition k64_net_unregister_device : N unit := modify (fun s =>
  mk_net false (driver s) (mac s) (config s) None (with_link false (stats s)) (next_ip_id s) (next_icmp_id s)
    (next_tcp_port s) (dhcp s) (arp s) (dns s) (http s) (device s)).

Definition k64_net_is_ready : N bool := gets ready.

Definition k64_net_status : N k64_net_status_t := gets (fun s =>
  let x := stats s in let c := config s in
  mk_status (ready s) (match driver s with [] => st_driver x | d => take 23 d end) (st_mac x) (ipv4 c) (gateway c) (netmask c)
    (dns_server c) (counts x) (last_ethertype x) (last_rx_len x)).

Definition k64_net_dhcp_discover : N unit := send_dhcp_discover.

Definition k64_net_send_udp (dst_ip dst_port : Z) (payload : option (list Z)) : N unit :=
  let payload_len := u16 (Z.of_nat (length (default [] payload))) in
  check (negb (1400 <? payload_len)) ;;
  dst_mac ← resolve_mac dst_ip;
  let udp_len := u16 (8 + payload_len) in
  s ← get;
  packet ← deref (udp_packet (ipv4 (config s)) dst_ip dst_port (take (Z.to_nat payload_len) (default [] payload)) udp_len);
  send_ipv4 dst_mac dst_ip IP_PROTO_UDP packet udp_len.

Definition k64_net_send_ping (dst_ip sequence : Z) : N unit :=
  dst_mac ← resolve_mac dst_ip;
  s ← get;
  packet ← deref (ping_packet (next_icmp_id s) sequence);
  send_ipv4 dst_mac dst_ip IP_PROTO_ICMP packet 32.

(** ** Receiving *)
Definition note_frame (type len : Z) : N unit :=
  count rx_frames ;;
  modify (fun s => let x := stats s in
    set_stats (mk_status (link_up x) (st_driver x) (st_mac x) (st_ipv4 x) (st_gateway x) (st_netmask x)
      (st_dns_server x) (counts x) type len) s).

(** [memcpy(reply, icmp, icmp_len)] into an array of 1480 bytes, and the header
    of an echo reply. *)
Definition echo_reply (icmp : list Z) (icmp_len : Z) : option (list Z) :=
  bytes ← take_bytes icmp 0 icmp_len;
  reply ← put (zeros 1480) 0 bytes;
  reply ← put reply 0 [0];
  reply ← put reply 2 [0];
  reply ← put reply 3 [0];
  sum ← csum16 reply icmp_len;
  wr16be reply 2 sum.

Definition handle_icmp (src_mac : list Z) (src_ip : Z) (icmp : list Z) (icmp_len : Z) : N unit :=
  if icmp_len <? 8 then mret tt else
  t ← deref (getZ icmp 0);
  (if t =? 0 then count ping_replies else mret tt) ;;
  if t =? 8 then
    reply ← deref (echo_reply icmp icmp_len);
    try (send_ipv4 src_mac src_ip IP_PROTO_ICMP reply icmp_len) ;;
    mret tt
  else mret tt.

Definition handle_arp (frame : list Z) : N unit :=
  op ← deref (rd16be frame 20);
  sender_ip ← deref (rd32be frame 28);
  target_ip ← deref (rd32be frame 38);
  count rx_arp ;;
  m ← mac_at frame 22;
  arp_remember sender_ip m ;;
  s ← get;
  if (op =? 1) && (target_ip =? ipv4 (config s)) then
    try (send_arp_reply m sender_ip) ;; mret tt
  else mret tt.

Definition handle_ipv4 (frame : list Z) (len : Z) : N unit :=
  b ← deref (getZ frame 14);
  let ihl := u8 (Z.land b 0x0F * 4) in
  ip_len ← deref (rd16be frame 16);
  proto ← deref (getZ frame 23);
  src_ip ← deref (rd32be frame 26);
  dst_ip ← deref (rd32be frame 30);
  s ← get;
  if (ihl <? 20) || (ip_len <? ihl) || (len <? u16 (14 + ip_len)) ||
     (negb (dst_ip =? ipv4 (config s)) && negb (dst_ip =? 0xFFFFFFFF)) then mret tt else
  m ← mac_at frame 6;
  arp_remember src_ip m ;;
  count rx_ipv4 ;;
  let p := drop (Z.to_nat (14 + ihl)) frame in
  let p_len := u16 (ip_len - ihl) in
  if proto =? IP_PROTO_UDP then
    count rx_udp ;;
    handle_dns_payload p p_len ;;
    handle_dhcp_payload p p_len
  else if proto =? IP_PROTO_ICMP then
    count rx_icmp ;;
    handle_icmp m src_ip p p_len
  else if proto =? IP_PROTO_TCP then
    count rx_tcp ;;
    handle_tcp_payload p p_len src_ip
  else mret tt.

(** [frame] is the memory from the pointer on; [len] is the length the driver
    says. *)
Definition k64_net_receive_frame (frame : list Z) (len : Z) : N unit :=
  s ← get;
  if negb (ready s) || (len <? 14) then mret tt else
  dst ← mac_at frame 0;
  if negb (mac_eq dst (mac s)) && negb (mac_is_broadcast dst) then mret tt else
  type ← deref (rd16be frame 12);
  note_frame type len ;;
  if (type =? ETH_TYPE_ARP) && (42 <=? len) then handle_arp frame else
  if (type =? ETH_TYPE_IPV4) && (34 <=? len) then
    b ← deref (getZ frame 14);
    if Z.shiftr b 4 =? 4 then handle_ipv4 frame len else mret tt
  else mret tt.
End api.
