(* ===== verification/NetFrames.v ===== *)
(** * What the stack puts on the wire

    The layout of the frames that [send_arp_reply], [k64_net_send_arp_request]
    and [send_ipv4_from] build, and the checksums inside of them: the sum of
    the words of the header and of the segment, as RFC 1071 defines it. *)
From Stdlib Require Import ZArith Lia.
From stdpp Require Import base list.
From S2P Require Import Prelude Exec KString NetBytes Net NetUdp NetHttp NetApi.

(** ** Frames *)

(** The words that the checksum of a segment covers besides it. *)
Definition cover (src_ip dst_ip proto len : Z) : list Z :=
  if proto =? IP_PROTO_ICMP then [] else pseudo_header src_ip dst_ip proto len.

(** The checksum inside of a segment is right. *)
Definition sealed (src_ip dst_ip proto : Z) (seg : list Z) : Prop :=
  csum_finish (word_sum (cover src_ip dst_ip proto (Z.of_nat (length seg))) + word_sum seg) = Some 0.

Definition ip_header (len id proto c src_ip dst_ip : Z) : list Z :=
  [0x45; 0] ++ be16 (20 + len) ++ be16 id ++ be16 0x4000 ++ [64; proto] ++ be16 c ++ be32 src_ip ++ be32 dst_ip.

Definition mac_ok (m : list Z) : Prop := length m = 6%nat /\ bytes_ok m.

(** A frame from the station [m]. *)
Inductive good_frame (m : list Z) : list Z -> Prop :=
  | good_arp dst op ip target_mac target_ip :
      mac_ok dst -> mac_ok target_mac -> op = 1 \/ op = 2 ->
      good_frame m (dst ++ m ++ be16 ETH_TYPE_ARP ++ be16 1 ++ be16 ETH_TYPE_IPV4 ++ [6; 4] ++ be16 op ++
        m ++ be32 ip ++ target_mac ++ be32 target_ip)
  | good_ipv4 dst id proto c src_ip dst_ip seg :
      mac_ok dst -> bytes_ok seg -> 20 + Z.of_nat (length seg) <= 1500 ->
      csum_finish (word_sum (ip_header (Z.of_nat (length seg)) id proto c src_ip dst_ip)) = Some 0 ->
      sealed src_ip dst_ip proto seg ->
      good_frame m (dst ++ m ++ be16 ETH_TYPE_IPV4 ++ ip_header (Z.of_nat (length seg)) id proto c src_ip dst_ip ++ seg).

(** ** Building packets: computations that do not leave their buffers *)
Definition opt_ok {A} (o : option A) (P : A -> Prop) : Prop := exists a, o = Some a /\ P a.

Lemma opt_bind {A B} (o : option A) (k : A -> option B) P : opt_ok o (fun a => opt_ok (k a) P) -> opt_ok (o ≫= k) P.
Proof. by intros (a & -> & H). Qed.
Lemma opt_ret {A} (a : A) (P : A -> Prop) : P a -> opt_ok (Some a) P.
Proof. intros H. by exists a. Qed.
Lemma opt_mono {A} (o : option A) (P Q : A -> Prop) : opt_ok o P -> (forall a, P a -> Q a) -> opt_ok o Q.
Proof. intros (a & -> & H) HPQ. exists a. auto. Qed.
Lemma wp_opt {S A} (o : option A) (P : A -> Prop) Q E (s : S) : opt_ok o P -> (forall a, P a -> Q a s) -> wp (deref o) Q E s.
Proof. intros (a & -> & H) HQ. apply wp_ret. auto. Qed.

(** A buffer of [n] bytes. *)
Definition buf_ok (n : nat) (l : list Z) : Prop := length l = n /\ bytes_ok l.

Lemma buf_zeros n : buf_ok n (zeros n).
Proof. split; [len|auto with k64]. Qed.

Lemma be16_length v : length (be16 v) = 2%nat.
Proof. done. Qed.
Lemma be32_length v : length (be32 v) = 4%nat.
Proof. done. Qed.
#[export] Hint Rewrite be16_length be32_length : k64len.

Lemma put_ok n buf off bs (P : list Z -> Prop) : buf_ok n buf -> bytes_ok bs -> 0 <= off -> off + Z.of_nat (length bs) <= Z.of_nat n ->
  (forall buf', buf_ok n buf' -> P buf') -> opt_ok (put buf off bs) P.
Proof.
  intros [Hl Hb] Hbs H0 H1 HP. rewrite put_Some by lia. apply opt_ret, HP. split; [|auto with k64].
  rewrite splice_length; [done|lia].
Qed.
Lemma wr16_ok n buf off v (P : list Z -> Prop) : buf_ok n buf -> 0 <= off -> off + 2 <= Z.of_nat n ->
  (forall buf', buf_ok n buf' -> P buf') -> opt_ok (wr16be buf off v) P.
Proof. intros H H0 H1 HP. by apply put_ok with n; auto with k64. Qed.
Lemma wr32_ok n buf off v (P : list Z -> Prop) : buf_ok n buf -> 0 <= off -> off + 4 <= Z.of_nat n ->
  (forall buf', buf_ok n buf' -> P buf') -> opt_ok (wr32be buf off v) P.
Proof. intros H H0 H1 HP. by apply put_ok with n; auto with k64. Qed.

(** Writing behind what has been written. *)
Lemma put_gap l k off bs : Z.of_nat (length l) <= off -> off + Z.of_nat (length bs) <= Z.of_nat (length l + k) ->
  put (l ++ zeros k) off bs =
  Some ((l ++ zeros (Z.to_nat off - length l) ++ bs) ++ zeros (k - (Z.to_nat off - length l) - length bs)).
Proof.
  intros H0 H1. rewrite put_Some by len. unfold splice. f_equal. rewrite take_app_ge by lia. rewrite take_zeros.
  rewrite Nat.min_l by lia. rewrite drop_app_ge by lia. rewrite drop_zeros. rewrite <- !app_assoc. do 4 f_equal. lia.
Qed.

Lemma put_next l k off bs : off = Z.of_nat (length l) -> (length bs <= k)%nat ->
  put (l ++ zeros k) off bs = Some ((l ++ bs) ++ zeros (k - length bs)).
Proof.
  intros -> H. rewrite put_gap by lia. rewrite Nat2Z.id, Nat.sub_diag. rewrite Nat.sub_0_r. done.
Qed.

(** Writing over bytes in the middle. *)
Lemma put_mid x y z off bs : off = Z.of_nat (length x) -> length y = length bs ->
  put (x ++ y ++ z) off bs = Some (x ++ bs ++ z).
Proof.
  intros -> H. rewrite put_Some by len. unfold splice. f_equal. rewrite Nat2Z.id. rewrite take_app_length.
  do 2 f_equal. rewrite drop_app_ge by lia. rewrite drop_app_ge by lia. replace (_ - _ - _)%nat with O by lia. apply drop_0.
Qed.

(** One write of a packet that is filled from the front. *)
Ltac plen := autorewrite with k64len; cbn [length]; lia.
Ltac put_step := unfold wr16be, wr32be; rewrite put_next by plen; cbn [mbind option_bind].

Lemma arp_packet_eq dst src op src_ip target_mac target_ip : length dst = 6%nat -> length src = 6%nat -> length target_mac = 6%nat ->
  arp_packet dst src op src_ip target_mac target_ip =
  Some (dst ++ src ++ be16 ETH_TYPE_ARP ++ be16 1 ++ be16 ETH_TYPE_IPV4 ++ [6; 4] ++ be16 op ++ src ++ be32 src_ip ++ target_mac ++ be32 target_ip).
Proof.
  intros Hd Hs Ht. unfold arp_packet. change (zeros 42) with ([] ++ zeros 42). do 12 put_step.
  autorewrite with k64len. rewrite Hd, Hs, Ht. cbn [length Nat.sub]. change (zeros 0) with (@nil Z).
  rewrite app_nil_r. rewrite <- !app_assoc. done.
Qed.

Lemma ip_header_length len_ id proto c a b : length (ip_header len_ id proto c a b) = 20%nat.
Proof. done. Qed.
#[export] Hint Rewrite ip_header_length : k64len.

Lemma ip_header_bytes len_ id proto c a b : byte_ok proto -> bytes_ok (ip_header len_ id proto c a b).
Proof.
  intros H. unfold ip_header. repeat (apply Forall_app_2; auto with k64); repeat constructor; unfold byte_ok in *; lia.
Qed.
#[export] Hint Resolve ip_header_bytes : k64.

(** The checksum of a header. *)
Lemma ip_header_checksum len_ id proto a b : byte_ok proto -> exists c,
  csum16 (ip_header len_ id proto 0 a b) 20 = Some c /\ csum_finish (word_sum (ip_header len_ id proto c a b)) = Some 0.
Proof.
  intros Hp. pose proof (ip_header_bytes len_ id proto 0 a b Hp) as Hb. pose proof (word_sum_range _ Hb) as Hr.
  rewrite ip_header_length in Hr.
  change 20 with (Z.of_nat (length (ip_header len_ id proto 0 a b))) at 1. rewrite csum16_sum by (done || len).
  destruct (csum_finish_spec (word_sum (ip_header len_ id proto 0 a b)) ltac:(lia)) as (c & Hc & _). exists c. split; [done|].
  set (x := [0x45; 0] ++ be16 (20 + len_) ++ be16 id ++ be16 0x4000 ++ [64; proto]). set (y := be32 a ++ be32 b).
  assert (E : forall c, ip_header len_ id proto c a b = x ++ be16 c ++ y) by done. rewrite E in *.
  apply (checksum_in_place 0 x y c); [|apply Forall_app_2; auto with k64|by exists 5%nat|lia| |done].
  - unfold x. repeat (apply Forall_app_2; auto with k64); repeat constructor; unfold byte_ok in *; lia.
  - change [0; 0] with (be16 0). lia.
Qed.

Lemma ipv4_frame_eq dst src id proto src_ip dst_ip seg : length dst = 6%nat -> length src = 6%nat -> byte_ok proto ->
  20 + Z.of_nat (length seg) <= 1500 -> exists c k,
  ipv4_frame dst src (20 + Z.of_nat (length seg)) id proto src_ip dst_ip seg =
    Some ((dst ++ src ++ be16 ETH_TYPE_IPV4 ++ ip_header (Z.of_nat (length seg)) id proto c src_ip dst_ip ++ seg) ++ zeros k) /\
  csum_finish (word_sum (ip_header (Z.of_nat (length seg)) id proto c src_ip dst_ip)) = Some 0.
Proof.
  intros Hd Hs Hp Hl. destruct (ip_header_checksum (Z.of_nat (length seg)) id proto src_ip dst_ip Hp) as (c & Hc & Hsum).
  exists c, (1480 - length seg)%nat. split; [|done]. unfold ipv4_frame. change (zeros 1514) with ([] ++ zeros 1514). do 13 put_step.
  autorewrite with k64len. rewrite Hd, Hs. cbn [length Nat.sub].
  set (h0 := ip_header _ _ _ _ _ _) in Hc.
  replace (drop 14 _) with (h0 ++ zeros 1480)
    by (rewrite <- (drop_app_length' (dst ++ src ++ be16 ETH_TYPE_IPV4) (h0 ++ zeros 1480) 14) by len; unfold h0, ip_header; rewrite <- !app_assoc; done).
  assert (Hc' : csum16 (h0 ++ zeros 1480) 20 = Some c).
  { rewrite <- Hc. unfold csum16, csum_add_bytes. rewrite !take_bytes_Some by (unfold h0; len). cbn [mbind option_bind].
    unfold slice. rewrite !drop_0. by rewrite (take_app_le h0) by (unfold h0; len). }
  rewrite Hc'. cbn [mbind option_bind].
  set (x := dst ++ src ++ be16 ETH_TYPE_IPV4 ++ [0x45; 0] ++ be16 (20 + Z.of_nat (length seg)) ++ be16 id ++ be16 0x4000 ++ [64; proto]).
  set (y := be32 src_ip ++ be32 dst_ip).
  transitivity (frame ← put (x ++ be16 0 ++ (y ++ zeros 1480)) 24 (be16 c); put frame 34 seg).
  { do 2 f_equal. unfold x, y. rewrite <- !app_assoc. done. }
  rewrite put_mid by (unfold x; plen). cbn [mbind option_bind]. rewrite !app_assoc. rewrite put_next by (unfold x, y; plen).
  unfold x, y, ip_header. rewrite <- !app_assoc. done.
Qed.

(** Closes a goal that says that a packet written out consists of bytes. *)
Ltac bytes :=
  repeat match goal with |- bytes_ok (_ ++ _) => apply Forall_app_2 end;
  auto with k64; repeat (apply Forall_nil_2 || apply Forall_cons_2); unfold byte_ok in *; cbn; lia.

(** ** Checksums of segments *)
Lemma pseudo_bytes a b proto len_ : byte_ok proto -> bytes_ok (pseudo_header a b proto len_).
Proof.
  intros H. unfold pseudo_header. repeat (apply Forall_app_2; auto with k64); repeat constructor; unfold byte_ok in *; lia.
Qed.
Lemma pseudo_length a b proto len_ : length (pseudo_header a b proto len_) = 12%nat.
Proof. done. Qed.
#[export] Hint Resolve pseudo_bytes : k64.

Lemma cover_bytes a b proto len_ : byte_ok proto -> bytes_ok (cover a b proto len_).
Proof. intros H. unfold cover. destruct (_ =? _); [constructor|auto with k64]. Qed.

Lemma cover_range a b proto len_ : byte_ok proto -> 0 <= word_sum (cover a b proto len_) <= 783360.
Proof.
  intros H. pose proof (word_sum_range _ (cover_bytes a b proto len_ H)) as Hr.
  assert (length (cover a b proto len_) <= 12)%nat by (unfold cover; destruct (_ =? _); cbn; lia). lia.
Qed.

(** The sum over the header and then over the segment. *)
Lemma covered_sum a b proto p n len_ : byte_ok proto -> buf_ok n p -> 0 <= len_ <= Z.of_nat n -> len_ < 65536 ->
  (sum ← csum_add_bytes 0 (pseudo_header a b proto len_) 12; csum_add_bytes sum p len_) =
  Some (word_sum (pseudo_header a b proto len_) + word_sum (take (Z.to_nat len_) p)).
Proof.
  intros Hp [Hn Hb] Hl Hlt. unfold csum_add_bytes. change 12 with (Z.of_nat (length (pseudo_header a b proto len_))).
  rewrite take_all. cbn [mbind option_bind]. pose proof (pseudo_bytes a b proto len_ Hp) as Hpb.
  pose proof (word_sum_range _ Hpb) as Hr. rewrite pseudo_length in Hr. rewrite csum_words_sum by (done || lia).
  rewrite take_bytes_Some by lia. cbn [mbind option_bind]. unfold slice. rewrite drop_0.
  pose proof (Forall_take _ (Z.to_nat len_) _ Hb) as Ht. pose proof (word_sum_range _ Ht) as Hr'. rewrite length_take in Hr'.
  rewrite csum_words_sum by (done || lia). done.
Qed.

Lemma tcp_checksum_eq a b p n len_ : buf_ok n p -> 0 <= len_ <= Z.of_nat n -> len_ < 65536 ->
  tcp_checksum a b p len_ = csum_finish (word_sum (pseudo_header a b IP_PROTO_TCP len_) + word_sum (take (Z.to_nat len_) p)).
Proof.
  intros Hp Hl Hlt. pose proof (covered_sum a b IP_PROTO_TCP p n len_ ltac:(unfold byte_ok, IP_PROTO_TCP; lia) Hp Hl Hlt) as H.
  unfold tcp_checksum. destruct (csum_add_bytes 0 _ 12) as [s|]; [|done]. cbn [mbind option_bind] in *. by rewrite H.
Qed.

Lemma udp_checksum_eq a b p n len_ : buf_ok n p -> 0 <= len_ <= Z.of_nat n -> len_ < 65536 ->
  udp_checksum a b p len_ =
  c ← csum_finish (word_sum (pseudo_header a b IP_PROTO_UDP len_) + word_sum (take (Z.to_nat len_) p));
  Some (if c =? 0 then 0xFFFF else c).
Proof.
  intros Hp Hl Hlt. pose proof (covered_sum a b IP_PROTO_UDP p n len_ ltac:(unfold byte_ok, IP_PROTO_UDP; lia) Hp Hl Hlt) as H.
  unfold udp_checksum. destruct (csum_add_bytes 0 _ 12) as [s|]; [|done]. cbn [mbind option_bind] in *. by rewrite H.
Qed.

(** A checksum of zero is sent as ones, which checks as well. *)
Lemma checksum_ones pre x y : bytes_ok x -> bytes_ok y -> Nat.Even (length x) -> 0 <= pre ->
  pre + word_sum (x ++ [0; 0] ++ y) + 65535 < 4294967296 ->
  csum_finish (pre + word_sum (x ++ [0; 0] ++ y)) = Some 0 ->
  csum_finish (pre + word_sum (x ++ be16 0xFFFF ++ y)) = Some 0.
Proof.
  intros Hx Hy He Hp Hlt Hc. pose proof (word_sum_range x Hx) as Rx. pose proof (word_sum_range y Hy) as Ry.
  assert (E : forall a b, word_sum (x ++ [a; b] ++ y) = word_sum x + (256 * a + b) + word_sum y).
  { intros a b. rewrite word_sum_app by done. cbn [app word_sum]. lia. }
  rewrite E in Hlt, Hc. destruct (csum_finish_spec (pre + (word_sum x + (256 * 0 + 0) + word_sum y)) ltac:(lia)) as (c' & Hc' & _ & Hm & _).
  rewrite Hc in Hc'. injection Hc' as <-. change (be16 0xFFFF) with [255; 255]. rewrite E.
  apply csum_finish_zero; [lia|dmlia].
Qed.

(** Storing the checksum of a segment in place of its zero word. *)
Lemma seal_at src dst proto x y z c c' len_ : byte_ok proto -> bytes_ok x -> bytes_ok y -> Nat.Even (length x) ->
  len_ = Z.of_nat (length x + 2 + length y) -> len_ < 65000 ->
  csum_finish (word_sum (cover src dst proto len_) + word_sum (take (Z.to_nat len_) (x ++ [0; 0] ++ (y ++ z)))) = Some c ->
  c' = c \/ c = 0 /\ c' = 0xFFFF ->
  wr16be (x ++ [0; 0] ++ (y ++ z)) (Z.of_nat (length x)) c' = Some ((x ++ be16 c' ++ y) ++ z) /\
  sealed src dst proto (x ++ be16 c' ++ y).
Proof.
  intros Hp Hx Hy He -> Hl Hc Hc'. split; [unfold wr16be; rewrite put_mid by done; by rewrite <- !app_assoc|].
  assert (Hn : length (x ++ be16 c' ++ y) = (length x + 2 + length y)%nat) by plen. unfold sealed. rewrite Hn.
  assert (Hb : bytes_ok (x ++ [0; 0] ++ y)) by (repeat apply Forall_app_2; auto; repeat constructor; unfold byte_ok; lia).
  pose proof (word_sum_range _ Hb) as Hr. rewrite !length_app in Hr. cbn [length] in Hr.
  pose proof (cover_range src dst proto (Z.of_nat (length x + 2 + length y)) Hp) as Hr'.
  replace (take _ _) with (x ++ [0; 0] ++ y) in Hc
    by (rewrite !app_assoc, take_app_length' by plen; by rewrite <- !app_assoc).
  destruct Hc' as [->|[-> ->]]; [eapply checksum_in_place|eapply checksum_ones]; try done; lia.
Qed.

(** What a builder of segments promises: a packet buffer of [n] bytes whose
    first [len] are a segment with the right checksum. *)
Definition segment_ok (n : nat) (src dst proto len_ : Z) (p : list Z) : Prop :=
  buf_ok n p /\ sealed src dst proto (take (Z.to_nat len_) p).

Lemma segment_intro src dst proto n x y z c len_ p : bytes_ok x -> bytes_ok y -> bytes_ok z ->
  len_ = Z.of_nat (length x + 2 + length y) -> (length x + 2 + length y + length z = n)%nat ->
  p = Some ((x ++ be16 c ++ y) ++ z) /\ sealed src dst proto (x ++ be16 c ++ y) ->
  opt_ok p (segment_ok n src dst proto len_).
Proof.
  intros Hx Hy Hz -> Hn [-> Hs]. apply opt_ret. split.
  - split; [plen|]. repeat (apply Forall_app_2; auto with k64).
  - rewrite take_app_length' by plen. done.
Qed.

Lemma covered a b proto n p len_ : byte_ok proto -> buf_ok n p -> len_ < 65536 ->
  0 <= word_sum (cover a b proto len_) + word_sum (take (Z.to_nat len_) p) < 4294967296.
Proof.
  intros Hp [Hn Hb] Hl. pose proof (cover_range a b proto len_ Hp). pose proof (Forall_take _ (Z.to_nat len_) _ Hb) as Ht.
  pose proof (word_sum_range _ Ht) as Hr. rewrite length_take in Hr. lia.
Qed.

Lemma udp_sealed src dst n x y z len_ : bytes_ok x -> bytes_ok y -> bytes_ok z -> length x = 6%nat ->
  len_ = Z.of_nat (length x + 2 + length y) -> (length x + 2 + length y + length z = n)%nat -> len_ < 65000 ->
  opt_ok (sum ← udp_checksum src dst (x ++ [0; 0] ++ (y ++ z)) len_; wr16be (x ++ [0; 0] ++ (y ++ z)) 6 sum)
    (segment_ok n src dst IP_PROTO_UDP len_).
Proof.
  intros Hx Hy Hz Hl6 Hlen Hn Hlt. assert (Hu : byte_ok IP_PROTO_UDP) by (unfold byte_ok, IP_PROTO_UDP; lia).
  assert (Hb : buf_ok n (x ++ [0; 0] ++ (y ++ z))).
  { split; [plen|]. repeat apply Forall_app_2; auto. repeat constructor; unfold byte_ok; lia. }
  rewrite (udp_checksum_eq _ _ _ n) by (done || lia).
  destruct (csum_finish_spec _ (covered src dst IP_PROTO_UDP n _ len_ Hu Hb ltac:(lia))) as (c & Hc & _).
  change (cover src dst IP_PROTO_UDP len_) with (pseudo_header src dst IP_PROTO_UDP len_) in Hc. rewrite Hc. cbn [mbind option_bind].
  change 6 with (Z.of_nat 6). rewrite <- Hl6. eapply segment_intro; [exact Hx|exact Hy|exact Hz|done|done|].
  apply (seal_at src dst IP_PROTO_UDP x y z c _ len_); try done; [rewrite Hl6; by exists 3%nat|].
  destruct (Z.eqb_spec c 0); [right; lia|by left].
Qed.

Lemma udp_seal_ok n src dst p len_ : buf_ok n p -> 8 <= len_ <= Z.of_nat n -> len_ < 65000 ->
  opt_ok (udp_seal src dst p len_) (segment_ok n src dst IP_PROTO_UDP len_).
Proof.
  intros [Hn Hb] Hl Hlt. unfold udp_seal. set (x := take 6 p). set (y := slice p 8 (Z.to_nat len_ - 8)). set (z := drop (Z.to_nat len_) p).
  assert (E : p = x ++ slice p 6 2 ++ y ++ z).
  { unfold x, y, z, slice. rewrite <- (take_drop 6 p) at 1. f_equal. rewrite <- (take_drop 2 (drop 6 p)) at 1. f_equal.
    rewrite drop_drop. change (6 + 2)%nat with 8%nat. rewrite <- (take_drop (Z.to_nat len_ - 8) (drop 8 p)) at 1.
    f_equal. rewrite drop_drop. f_equal. lia. }
  assert (Hx : length x = 6%nat) by (unfold x; len). assert (Hy : length y = (Z.to_nat len_ - 8)%nat) by (apply slice_length; lia).
  assert (Hz : length z = (n - Z.to_nat len_)%nat) by (unfold z; len).
  assert (Hw : length (slice p 6 2) = 2%nat) by (apply slice_length; lia).
  rewrite E at 1. unfold wr16be. rewrite put_mid by (rewrite ?Hx, ?Hw; done). cbn [mbind option_bind].
  change (be16 0) with [0; 0]. apply udp_sealed; try lia; unfold x, y, z; auto using Forall_take, Forall_drop with k64.
Qed.

Lemma udp_packet_ok src dst port payload : bytes_ok payload -> Z.of_nat (length payload) <= 1400 ->
  let len_ := 8 + Z.of_nat (length payload) in
  opt_ok (udp_packet src dst port payload len_) (segment_ok 1480 src dst IP_PROTO_UDP len_).
Proof.
  intros Hp Hl. cbn zeta. unfold udp_packet. change (zeros 1480) with ([] ++ zeros 1480). do 5 put_step.
  autorewrite with k64len. cbn [length Nat.sub]. set (len_ := 8 + Z.of_nat (length payload)).
  match goal with |- context [udp_checksum _ _ ?b _] =>
    replace b with ((be16 49152 ++ be16 port ++ be16 len_) ++ [0; 0] ++ (payload ++ zeros (1472 - length payload)))
      by (rewrite <- !app_assoc; done) end.
  apply udp_sealed; [| | |done| | |unfold len_; lia];
    [repeat apply Forall_app_2; auto with k64|done|apply zeros_bytes_ok|unfold len_; plen|plen].
Qed.

Lemma tcp_packet_ok src dst sport dport sq ak flags payload : byte_ok flags -> bytes_ok payload -> Z.of_nat (length payload) <= 1460 ->
  let len_ := 20 + Z.of_nat (length payload) in
  opt_ok (tcp_packet src dst sport dport sq ak flags payload len_) (segment_ok 1480 src dst IP_PROTO_TCP len_).
Proof.
  intros Hf Hp Hl. cbn zeta. unfold tcp_packet. change (zeros 1480) with ([] ++ zeros 1480). do 7 put_step.
  rewrite put_gap by plen. cbn [mbind option_bind]. autorewrite with k64len. cbn [length Nat.sub].
  set (len_ := 20 + Z.of_nat (length payload)).
  set (x := be16 sport ++ be16 dport ++ be32 sq ++ be32 ak ++ [Z.shiftl 5 4; flags] ++ be16 4096).
  set (z := zeros (1460 - length payload)). set (y := [0; 0] ++ payload).
  match goal with |- context [tcp_checksum _ _ ?b _] =>
    replace b with (x ++ [0; 0] ++ (y ++ z)) by (unfold x, y, z; rewrite <- !app_assoc; done) end.
  assert (Hz2 : bytes_ok [0; 0]) by (repeat constructor; unfold byte_ok; lia).
  assert (Hx : bytes_ok x) by (unfold x; change (Z.shiftl 5 4) with 80; bytes).
  assert (Hy : bytes_ok y) by (by apply Forall_app_2).
  assert (Hlen : len_ = Z.of_nat (length x + 2 + length y)) by (unfold len_, x, y; plen).
  assert (Hb : buf_ok 1480 (x ++ [0; 0] ++ (y ++ z))).
  { split; [unfold x, y, z; plen|]. do 3 (apply Forall_app_2; [done|]). apply zeros_bytes_ok. }
  assert (Hu : byte_ok IP_PROTO_TCP) by (unfold byte_ok, IP_PROTO_TCP; lia).
  rewrite (tcp_checksum_eq _ _ _ 1480) by (done || lia).
  destruct (csum_finish_spec _ (covered src dst IP_PROTO_TCP _ _ len_ Hu Hb ltac:(lia))) as (c & Hc & _).
  change (cover src dst IP_PROTO_TCP len_) with (pseudo_header src dst IP_PROTO_TCP len_) in Hc. rewrite Hc. cbn [mbind option_bind].
  apply (segment_intro src dst IP_PROTO_TCP 1480 x y z c); [done|done|apply zeros_bytes_ok|done|unfold x, y, z; plen|].
  eapply (seal_at src dst IP_PROTO_TCP x y z c _ len_); try done; [by exists 8%nat|lia|by left].
Qed.

(** The checksum of ICMP covers the packet only. *)
Lemma icmp_sealed src dst n x y z len_ : bytes_ok x -> bytes_ok y -> bytes_ok z -> length x = 2%nat ->
  len_ = Z.of_nat (length x + 2 + length y) -> (length x + 2 + length y + length z = n)%nat -> len_ < 65000 ->
  opt_ok (sum ← csum16 (x ++ [0; 0] ++ (y ++ z)) len_; wr16be (x ++ [0; 0] ++ (y ++ z)) 2 sum)
    (segment_ok n src dst IP_PROTO_ICMP len_).
Proof.
  intros Hx Hy Hz Hl2 Hlen Hn Hlt. assert (Hu : byte_ok IP_PROTO_ICMP) by (unfold byte_ok, IP_PROTO_ICMP; lia).
  assert (Hb : buf_ok n (x ++ [0; 0] ++ (y ++ z))).
  { split; [plen|]. repeat apply Forall_app_2; auto. repeat constructor; unfold byte_ok; lia. }
  pose proof (covered src dst IP_PROTO_ICMP n _ len_ Hu Hb ltac:(lia)) as Hr. change (cover src dst IP_PROTO_ICMP len_) with (@nil Z) in Hr.
  destruct Hb as [Hbl Hbb]. unfold csum16, csum_add_bytes. rewrite take_bytes_Some by lia. cbn [mbind option_bind]. unfold slice. rewrite drop_0.
  rewrite csum_words_sum by (auto using Forall_take; cbn [word_sum] in Hr; lia).
  destruct (csum_finish_spec _ Hr) as (c & Hc & _). cbn [word_sum] in Hc. rewrite Hc. cbn [mbind option_bind].
  change 2 with (Z.of_nat 2). rewrite <- Hl2. eapply segment_intro; [exact Hx|exact Hy|exact Hz|done|done|].
  apply (seal_at src dst IP_PROTO_ICMP x y z c c len_); try done; [rewrite Hl2; by exists 1%nat|by left].
Qed.

Lemma ping_body id sequence : (packet ← put (zeros 32) 0 [8]; packet ← put packet 1 [0]; packet ← put packet 4 (be16 id);
    packet ← put packet 6 (be16 sequence); put packet 8 (map Z.of_nat (List.seq 8 24))) =
  Some ([8; 0] ++ [0; 0] ++ ((be16 id ++ be16 sequence ++ map Z.of_nat (List.seq 8 24)) ++ [])).
Proof. unfold be16. generalize (u8 (Z.shiftr id 8)), (u8 (Z.land id 0xFF)), (u8 (Z.shiftr sequence 8)), (u8 (Z.land sequence 0xFF)). by vm_compute. Qed.

Lemma ping_packet_ok src dst id sequence : opt_ok (ping_packet id sequence) (segment_ok 32 src dst IP_PROTO_ICMP 32).
Proof.
  assert (Hb : bytes_ok (map Z.of_nat (List.seq 8 24))) by (apply Forall_map, Forall_seq; unfold compose, byte_ok; lia).
  pose proof (ping_body id sequence) as E. unfold ping_packet, wr16be.
  set (y := be16 id ++ be16 sequence ++ map Z.of_nat (List.seq 8 24)) in E. assert (Hy : bytes_ok y) by (unfold y; bytes).
  assert (Hl : length y = 28%nat) by done. clearbody y.
  repeat (destruct (put _ _ _); cbn [mbind option_bind] in *; [|done]). injection E as ->.
  apply (icmp_sealed src dst 32 [8; 0] y [] 32); [bytes|done|constructor|done|rewrite Hl; done|rewrite Hl; done|done].
Qed.

(** The request with its type and checksum zeroed, and then the checksum. *)
Lemma echo_reply_ok src dst icmp len_ : bytes_ok icmp -> 8 <= len_ <= 1480 -> len_ <= Z.of_nat (length icmp) ->
  opt_ok (echo_reply icmp len_) (segment_ok 1480 src dst IP_PROTO_ICMP len_).
Proof.
  intros Hb Hl Hn. unfold echo_reply. rewrite take_bytes_Some by lia. cbn [mbind option_bind].
  assert (Hsl : length (slice icmp (Z.to_nat 0) (Z.to_nat len_)) = Z.to_nat len_) by (apply slice_length; lia).
  assert (Hsb : bytes_ok (slice icmp (Z.to_nat 0) (Z.to_nat len_))) by auto with k64.
  revert Hsl Hsb. generalize (slice icmp (Z.to_nat 0) (Z.to_nat len_)) as l. intros [|a [|b [|c [|d y]]]] Hsl Hsb; cbn [length] in Hsl; try lia.
  change (zeros 1480) with ([] ++ zeros 1480). put_step. cbn [app length]. set (z := zeros _).
  change (a :: b :: c :: d :: y ++ z) with ([] ++ [a] ++ ([b; c; d] ++ y ++ z)). rewrite put_mid by done. cbn [mbind option_bind].
  change ([] ++ [0] ++ ([b; c; d] ++ y ++ z)) with ([0; b] ++ [c] ++ ([d] ++ y ++ z)). rewrite put_mid by done. cbn [mbind option_bind].
  change ([0; b] ++ [0] ++ ([d] ++ y ++ z)) with ([0; b; 0] ++ [d] ++ (y ++ z)). rewrite put_mid by done. cbn [mbind option_bind].
  change ([0; b; 0] ++ [0] ++ (y ++ z)) with ([0; b] ++ [0; 0] ++ (y ++ z)).
  do 4 (apply Forall_cons in Hsb as [? Hsb]).
  apply icmp_sealed; [repeat constructor; unfold byte_ok in *; lia|done|apply zeros_bytes_ok|done|cbn; lia|unfold z; cbn; len|lia].
Qed.

(** ** The messages of the DNS and DHCP clients *)
Lemma u8_byte v : byte_ok (u8 v).
Proof. apply u8_range. Qed.
#[export] Hint Resolve u8_byte : k64.

Lemma dns_labels_ok h : forall p len_ llp ls, buf_ok 512 p -> 20 <= llp < len_ -> len_ <= 506 ->
  opt_ok (dns_labels h p len_ llp ls) (fun '(p, len_, llp, _) => buf_ok 512 p /\ 20 <= llp < len_ /\ len_ <= 506).
Proof.
  induction h as [|c h IH]; intros p len_ llp ls Hp Hl Hm; cbn [dns_labels]; [by apply opt_ret|].
  destruct (Z.ltb_spec (len_ + 6) 512); [|by apply opt_ret].
  destruct (c =? 46); apply opt_bind; (eapply put_ok; [exact Hp|auto with k64|lia|cbn; lia|]); intros p' Hp'; apply IH; try done; lia.
Qed.

(** The next write of a packet. *)
Ltac put_safe :=
  apply opt_bind; first [eapply wr16_ok | eapply wr32_ok | eapply put_ok];
  [eassumption | solve [lia | bytes | assumption] .. | intros ? ?].

Lemma dns_query_ok h id : opt_ok (dns_query h id) (fun '(p, len_) => buf_ok 512 p /\ 26 <= len_ <= 511).
Proof.
  pose proof (buf_zeros 512) as H0. unfold dns_query. do 5 put_safe. apply opt_bind.
  eapply opt_mono; [by apply dns_labels_ok|]. intros [[[p len_] llp] ls] (Hp & Hl & Hm).
  do 6 put_safe. apply opt_ret. split; [done|lia].
Qed.

Lemma emit_ok bs p opt : bytes_ok bs -> buf_ok 548 p -> 0 <= opt -> opt + Z.of_nat (length bs) <= 548 ->
  opt_ok (emit bs (p, opt)) (fun '(p, o) => buf_ok 548 p /\ o = opt + Z.of_nat (length bs)).
Proof. intros Hb Hp H0 H1. unfold emit. apply opt_bind. eapply put_ok; eauto. intros p' Hp'. by apply opt_ret. Qed.

Lemma dhcp_message_ok m xid ty rip sip : mac_ok m -> byte_ok ty ->
  opt_ok (dhcp_message m xid ty rip sip) (fun '(p, len_) => buf_ok 548 p /\ 257 <= len_ <= 269).
Proof.
  intros [Hm Hb] Ht. pose proof (buf_zeros 548) as H0. unfold dhcp_message. do 7 put_safe. apply opt_bind.
  eapply opt_mono; [apply emit_ok; [bytes|done|lia|cbn; lia]|]. intros [p o] [Hp Ho].
  apply opt_bind. apply opt_mono with (fun '(p, o) => buf_ok 548 p /\ 251 <= o <= 257).
  { destruct (rip =? 0); [apply opt_ret; cbn in Ho; split; [done|lia]|].
    eapply opt_mono; [apply emit_ok; [bytes|done|lia|cbn in *; lia]|]. intros [p' o'] [Hp' Ho']. cbn in *. split; [done|lia]. }
  intros [p1 o1] [Hp1 Ho1]. apply opt_bind. apply opt_mono with (fun '(p, o) => buf_ok 548 p /\ 251 <= o <= 263).
  { destruct (sip =? 0); [apply opt_ret; split; [done|lia]|].
    eapply opt_mono; [apply emit_ok; [bytes|done|lia|cbn in *; lia]|]. intros [p' o'] [Hp' Ho']. cbn in *. split; [done|lia]. }
  intros [p2 o2] [Hp2 Ho2]. apply opt_bind. eapply opt_mono; [apply emit_ok; [bytes|done|lia|cbn in *; lia]|].
  intros [p3 o3] [Hp3 Ho3]. do 2 put_safe. apply opt_ret. cbn in Ho3. rewrite u16_small by lia. split; [done|lia].
Qed.
