(* ===== verification/NetSafe.v ===== *)
(** * The network stack stays inside of its buffers

    An invariant of the stack, and that every operation keeps it: whatever frame
    arrives, no operation reads or writes outside of an array, and every frame
    that is handed to the driver is well formed, with its checksums right.  The
    driver is known by its contract only: it keeps a property [DI] of its state
    when it is given well-formed frames. *)
From Stdlib Require Import ZArith Lia.
From stdpp Require Import base list.
From S2P Require Import Prelude Exec KString NetBytes Net NetUdp NetHttp NetApi NetFrames.

(** ** Reading received data *)
Lemma byte_ok_opt p off : bytes_ok p -> 0 <= off < Z.of_nat (length p) -> opt_ok (getZ p off) byte_ok.
Proof.
  intros Hp Ho. destruct (getZ_is_Some p off Ho) as [a Ha]. exists a. split; [done|].
  apply getZ_Some in Ha as [_ Ha]. by eapply Forall_lookup_1.
Qed.

Lemma rd16_ok p off : bytes_ok p -> 0 <= off -> off + 2 <= Z.of_nat (length p) -> opt_ok (rd16be p off) (fun v => 0 <= v < 65536).
Proof.
  intros Hp H0 H1. rewrite rd16be_value by done. destruct (byte_ok_opt p off Hp ltac:(lia)) as (a & -> & Ha).
  destruct (byte_ok_opt p (off + 1) Hp ltac:(lia)) as (b & -> & Hb). apply opt_ret. unfold be_value, byte_ok in *. cbn. lia.
Qed.

Lemma rd32_ok p off : bytes_ok p -> 0 <= off -> off + 4 <= Z.of_nat (length p) -> opt_ok (rd32be p off) (fun v => 0 <= v < 4294967296).
Proof.
  intros Hp H0 H1. rewrite rd32be_value by done. destruct (byte_ok_opt p off Hp ltac:(lia)) as (a & -> & Ha).
  destruct (byte_ok_opt p (off + 1) Hp ltac:(lia)) as (b & -> & Hb). destruct (byte_ok_opt p (off + 2) Hp ltac:(lia)) as (c & -> & Hc).
  destruct (byte_ok_opt p (off + 3) Hp ltac:(lia)) as (d & -> & Hd). apply opt_ret. unfold be_value, byte_ok in *. cbn. lia.
Qed.

Lemma take_bytes_ok p off n : bytes_ok p -> 0 <= off -> 0 <= n -> off + n <= Z.of_nat (length p) ->
  opt_ok (take_bytes p off n) (fun l => Z.of_nat (length l) = n /\ bytes_ok l).
Proof.
  intros Hp H0 Hn H1. rewrite take_bytes_Some by done. apply opt_ret. split; [rewrite slice_length; lia|auto with k64].
Qed.

Lemma dns_skip_name_ok fuel p len_ pos : bytes_ok p -> len_ <= Z.of_nat (length p) -> 0 <= pos -> len_ - pos <= Z.of_nat fuel ->
  0 <= len_ -> opt_ok (dns_skip_name fuel p len_ pos) (fun pos' => 0 <= pos').
Proof.
  revert pos. induction fuel as [|fuel IH]; intros pos Hp Hl H0 Hf Hln; cbn [dns_skip_name];
    destruct (Z.ltb_spec pos len_); try lia; try (apply opt_ret; lia).
  apply opt_bind. eapply opt_mono; [apply byte_ok_opt; [done|lia]|]; cbv beta; intros b Hb. unfold byte_ok in Hb. cbv zeta.
  destruct (Z.eqb_spec b 0); [apply opt_ret; lia|].
  destruct (Z.land b 0xC0 =? 0xC0); [apply opt_ret; destruct (Z.leb_spec (pos + 1 + 1) len_); lia|].
  apply IH; done || lia.
Qed.

Section parsing.
Context (p : list Z) (len_ : Z).
Context (Hp : bytes_ok p) (Hlen : 0 <= len_ <= Z.of_nat (length p)).

Lemma skip_name_ok pos : 0 <= pos -> opt_ok (dns_skip_name (skip_fuel len_) p len_ pos) (fun pos' => 0 <= pos').
Proof. intros. apply dns_skip_name_ok; unfold skip_fuel; done || lia. Qed.

Lemma skip_questions_ok qd pos : 0 <= pos -> opt_ok (skip_questions qd p len_ pos) (fun pos' => 0 <= pos').
Proof.
  revert pos. induction qd as [|qd IH]; intros pos H0; cbn [skip_questions]; [by apply opt_ret|].
  destruct (_ <? _); [|by apply opt_ret]. apply opt_bind. eapply opt_mono; [by apply skip_name_ok|]; cbv beta; intros pos' H'. apply IH. lia.
Qed.

Lemma find_answer_ok an pos : 0 <= pos -> opt_ok (find_answer an p len_ pos) (fun _ => True).
Proof.
  revert pos. induction an as [|an IH]; intros pos H0; cbn [find_answer]; [by apply opt_ret|].
  destruct (_ <=? _); [|by apply opt_ret]. apply opt_bind. eapply opt_mono; [by apply skip_name_ok|]; cbv beta; intros q Hq.
  destruct (Z.ltb_spec len_ (q + 10)); [by apply opt_ret|].
  do 3 (apply opt_bind; eapply opt_mono; [apply rd16_ok; [done|lia|lia]|]; cbv beta; intros ? ?). cbv zeta.
  destruct (Z.ltb_spec len_ (q + 10 + a1)); [by apply opt_ret|].
  destruct (_ && _) eqn:E; [|apply IH; lia]. apply andb_true_iff in E as [_ E%Z.eqb_eq]. apply opt_bind.
  eapply opt_mono; [apply rd32_ok; [done|lia|lia]|]; cbv beta; intros. by apply opt_ret.
Qed.

Lemma read_option_ok opt l pos o : 0 <= pos -> 0 <= l -> pos + l <= len_ -> opt_ok (read_option opt l p pos o) (fun _ => True).
Proof.
  intros H0 Hl H1. unfold read_option. destruct (_ && (1 <=? l)) eqn:E.
  { apply andb_true_iff in E as [_ E%Z.leb_le]. apply opt_bind. eapply opt_mono; [apply byte_ok_opt; [done|lia]|]; cbv beta; intros. by apply opt_ret. }
  assert (H4 : forall (g : bool) (f : Z -> dhcp_options) k, opt_ok k (fun _ => True) ->
    opt_ok (if g && (4 <=? l) then v ← rd32be p pos; Some (f v) else k) (fun _ => True)).
  { intros g f k Hk. destruct (g && (4 <=? l)) eqn:G; [|exact Hk]. apply andb_true_iff in G as [_ G%Z.leb_le]. apply opt_bind.
    eapply opt_mono; [apply rd32_ok; [done|lia|lia]|]; cbv beta; intros. by apply opt_ret. }
  do 4 apply H4. by apply opt_ret.
Qed.

Lemma read_options_ok fuel pos o : 0 <= pos -> len_ - pos <= Z.of_nat fuel -> opt_ok (read_options fuel p len_ pos o) (fun _ => True).
Proof.
  revert pos o. induction fuel as [|fuel IH]; intros pos o H0 Hf; cbn [read_options]; destruct (Z.ltb_spec (pos + 1) len_);
    try lia; try by apply opt_ret.
  apply opt_bind. eapply opt_mono; [apply byte_ok_opt; [done|lia]|]; cbv beta; intros b Hb. cbv zeta.
  destruct (_ =? 255); [by apply opt_ret|]. destruct (_ =? 0); [apply IH; lia|].
  apply opt_bind. eapply opt_mono; [apply byte_ok_opt; [done|lia]|]; cbv beta; intros l Hl. unfold byte_ok in Hl.
  destruct (Z.ltb_spec len_ (pos + 1 + 1 + l)); [by apply opt_ret|]. apply opt_bind.
  eapply opt_mono; [apply read_option_ok; lia|]; cbv beta; intros o' _. apply IH; lia.
Qed.
End parsing.

(** ** The header of a response: the scan ends and stays in the response *)
Section header.
Context (r : list Z) (i : Z) (Hi : i <= Z.of_nat (length r)).

Lemma at_ok pos : 0 <= pos < Z.of_nat (length r) -> opt_ok (at_ r pos) (fun _ => True).
Proof. intros H. destruct (getZ_is_Some r pos H) as [c Hc]. by exists c. Qed.

(** Reads the next character of the response. *)
Ltac read_char := apply opt_bind; eapply opt_mono; [apply at_ok; lia|]; cbv beta; intros ? _.

Lemma skip_while_ok n f pos : 0 <= pos -> pos + Z.of_nat n <= Z.of_nat (length r) ->
  opt_ok (skip_while n f r pos) (fun q => pos <= q <= pos + Z.of_nat n).
Proof.
  revert pos. induction n as [|n IH]; intros pos H0 Hn; cbn [skip_while]; [apply opt_ret; lia|]. read_char.
  destruct (f _); [|apply opt_ret; lia]. eapply opt_mono; [apply IH; lia|]; cbv beta. lia.
Qed.
Lemma skip_to_ok f pos : 0 <= pos <= i -> opt_ok (skip_to f r i pos) (fun q => pos <= q <= i).
Proof. intros H. unfold skip_to. eapply opt_mono; [apply skip_while_ok; lia|]; cbv beta. lia. Qed.

Lemma read_decimal_ok n pos v : 0 <= pos -> pos + Z.of_nat n <= Z.of_nat (length r) ->
  opt_ok (read_decimal n r pos v) (fun x => pos <= x.2 <= pos + Z.of_nat n).
Proof.
  revert pos v. induction n as [|n IH]; intros pos v H0 Hn; cbn [read_decimal]; [apply opt_ret; cbn; lia|]. read_char.
  destruct (digit _); [|apply opt_ret; cbn; lia]. eapply opt_mono; [apply IH; lia|]; cbv beta. lia.
Qed.

Lemma find_blank_line_ok n pos : 0 <= pos ->
  opt_ok (find_blank_line n r pos) (fun o => forall j, o = Some j -> 0 <= j /\ j + 3 < Z.of_nat (length r)).
Proof.
  revert pos. induction n as [|n IH]; intros pos H0; cbn [find_blank_line]; [by apply opt_ret|].
  destruct (Z.ltb_spec (pos + 3) (Z.of_nat (length r))); [|by apply opt_ret]. do 4 read_char.
  destruct (_ && _); [apply opt_ret; intros j [= <-]; lia|]. apply IH. lia.
Qed.

Lemma http_status_ok : 0 <= i -> opt_ok (http_status r i) (fun _ => True).
Proof.
  intros H0. unfold http_status. destruct (Z.leb_spec 12 (Z.of_nat (length r))); [|by apply opt_ret]. do 4 read_char.
  destruct (_ && _); [|by apply opt_ret]. apply opt_bind. eapply opt_mono; [apply skip_to_ok; lia|]; cbv beta; intros p Hp.
  apply opt_bind. eapply opt_mono; [apply skip_to_ok; lia|]; cbv beta; intros q Hq.
  destruct (Z.ltb_spec (q + 2) i); [|by apply opt_ret]. do 3 read_char. by apply opt_ret.
Qed.

Lemma content_length_line_ok pos : 0 <= pos -> pos + 16 < i -> opt_ok (content_length_line r pos) (fun _ => True).
Proof. intros H0 H. unfold content_length_line. do 9 read_char. by apply opt_ret. Qed.

Lemma length_field_ok pos l : 0 <= pos <= i -> opt_ok (length_field r i pos l) (fun x => pos <= x.1 <= i).
Proof.
  intros H. unfold length_field. apply opt_bind. eapply opt_mono; [apply skip_to_ok; lia|]; cbv beta; intros q Hq.
  destruct (Z.ltb_spec q i); [|apply opt_ret; cbn; lia]. read_char. destruct (_ =? 58); [|apply opt_ret; cbn; lia].
  apply opt_bind. eapply opt_mono; [apply skip_to_ok; lia|]; cbv beta; intros q' Hq'.
  apply opt_bind. eapply opt_mono; [apply read_decimal_ok; lia|]; cbv beta; intros [v e] He. apply opt_ret. cbn in *. lia.
Qed.

Lemma header_lines_ok fuel pos l : 0 <= pos <= i -> i - pos <= Z.of_nat fuel -> opt_ok (header_lines fuel r i pos l) (fun _ => True).
Proof.
  revert pos l. induction fuel as [|fuel IH]; intros pos l Hp Hf; cbn [header_lines]; destruct (Z.ltb_spec (pos + 16) i); try lia; try by apply opt_ret.
  apply opt_bind. eapply (opt_mono _ (fun _ => True)).
  { destruct (Z.eqb_spec pos 0); [by apply opt_ret|]. read_char. by apply opt_ret. }
  intros at_line _. apply opt_bind. eapply opt_mono; [apply content_length_line_ok; lia|]; cbv beta; intros hit _.
  apply opt_bind. eapply (opt_mono _ (fun x => pos <= x.1 <= i)).
  { destruct (_ && _); [by apply length_field_ok|]. apply opt_ret. cbn. lia. }
  intros [q l'] Hq. cbn in Hq. apply opt_bind. eapply opt_mono; [apply skip_to_ok; lia|]; cbv beta; intros e He.
  destruct (Z.ltb_spec e i); apply IH; lia.
Qed.
End header.

Lemma http_find_body_ok r : opt_ok (http_find_body r) (fun o => forall info, o = Some info -> 4 <= header_size info <= Z.of_nat (length r)).
Proof.
  unfold http_find_body. apply opt_bind. eapply opt_mono; [by apply find_blank_line_ok|]; cbv beta. intros [i|] Hi; [|by apply opt_ret].
  specialize (Hi i eq_refl). apply opt_bind. eapply opt_mono; [apply http_status_ok; lia|]; cbv beta; intros st _.
  apply opt_bind. eapply opt_mono; [apply header_lines_ok; lia|]; cbv beta; intros l _. apply opt_ret. intros info [= <-]. cbn. lia.
Qed.

Lemma complete_body_ok r : opt_ok (http_response_has_complete_body r) (fun _ => True).
Proof.
  unfold http_response_has_complete_body. apply opt_bind. eapply opt_mono; [apply http_find_body_ok|]; cbv beta; intros. by apply opt_ret.
Qed.

(** ** Text in arrays *)
Lemma fill_Some cap l : Z.of_nat (length l) < cap -> fill cap l = Some l.
Proof. intros H. unfold fill. by rewrite (proj2 (Z.ltb_lt _ _)). Qed.
Lemma fill_copy n src : 0 < n -> fill n (copy_text n (Some src)) = Some (copy_text n (Some src)).
Proof. intros H. apply fill_Some. unfold copy_text. rewrite bounded_copy_Some, length_take. lia. Qed.

(** ** The invariant *)
Definition arp_ok (a : arp_table) : Prop :=
  length (arp_ip a) = 8%nat /\ Forall (fun e => buf_ok 4 e) (arp_ip a) /\
  length (arp_mac a) = 8%nat /\ Forall mac_ok (arp_mac a) /\ 0 <= arp_count a <= 8.

Definition dns_ok (d : dns_client) : Prop := length (dns_cache d) = 8%nat /\ 0 <= dns_count d <= 8.

Definition http_ok (h : http_client_t) : Prop :=
  bytes_ok (host h) /\ bytes_ok (path h) /\ (0 <= range_start h /\ 0 <= range_end h) /\ bytes_ok (response h) /\ Z.of_nat (length (response h)) < HTTP_BUF_SIZE.

(** The property of the driver's state that its contract is about. *)
Class DeviceInv (D : Type) : Type := DI : D -> Prop.

Section invariant.
Context {D : Type} `{!DeviceInv D}.
Abbreviation N := (M (net (D := D))).
Implicit Types s : net (D := D).

(** The driver of the station [m] keeps [DI]. *)
Definition driver_ok (m : list Z) (f : send_fn (D := D)) : Prop :=
  forall fr d, good_frame m fr -> DI d -> DI (f fr d).2.

Record net_ok s : Prop := mk_net_ok {
  ok_mac : mac_ok (mac s);
  ok_driver : forall f, send s = Some f -> driver_ok (mac s) f;
  ok_device : DI (device s);
  ok_arp : arp_ok (arp s);
  ok_dns : dns_ok (dns s);
  ok_http : http_ok (http s)
}.

(** The operation keeps the invariant, and its result has a property. *)
Definition gives {A} (m : N A) (P : A -> Prop) : Prop :=
  forall s, net_ok s -> wp m (fun a s => net_ok s /\ P a) net_ok s.

Lemma gives_bind {A B} (m : N A) (k : A -> N B) P Q : gives m P -> (forall a, P a -> gives (k a) Q) -> gives (m ≫= k) Q.
Proof. intros Hm Hk s Hs. apply wp_bind. eapply wp_mono; [by apply Hm| |done]. intros a s' [Hs' Ha]. by apply Hk. Qed.
Lemma gives_ret {A} (a : A) (P : A -> Prop) : P a -> gives (mret a) P.
Proof. intros H s Hs. by apply wp_ret. Qed.
Lemma gives_fail {A} (P : A -> Prop) : gives fail P.
Proof. intros s Hs. by apply wp_fail. Qed.
Lemma gives_check b : gives (check b) (fun _ => b = true).
Proof. destruct b; [by apply gives_ret|apply gives_fail]. Qed.
Lemma gives_get : gives get net_ok.
Proof. intros s Hs. by apply wp_gets. Qed.
Lemma gives_opt {A} (o : option A) P : opt_ok o P -> gives (deref o) P.
Proof. intros (a & -> & Ha). by apply gives_ret. Qed.
Lemma gives_try {A} (m : N A) P : gives m P -> gives (try m) (fun o => forall a, o = Some a -> P a).
Proof.
  intros Hm s Hs. apply wp_try. eapply wp_mono; [by apply Hm| |].
  - intros a s' [Hs' Ha]. split; [done|]. by intros ? [= <-].
  - intros s' Hs'. split; [done|]. done.
Qed.
Lemma gives_modify f : (forall s, net_ok s -> net_ok (f s)) -> gives (modify f) (fun _ => True).
Proof. intros Hf s Hs. apply wp_modify. auto. Qed.
Lemma gives_mono {A} (m : N A) (P Q : A -> Prop) : gives m P -> (forall a, P a -> Q a) -> gives m Q.
Proof. intros Hm HPQ s Hs. eapply wp_mono; [by apply Hm| |done]. cbv beta. intros a s' [H1 H2]. auto. Qed.

(** Operations that change a part of the stack the invariant does not look at. *)
Lemma keeps_count c : gives (count c) (fun _ => True).
Proof. apply gives_modify. by intros s []. Qed.

End invariant.

Abbreviation keeps m := (gives m (fun _ => True)).

(** One step of a proof that an operation keeps the invariant. *)
Ltac keep := lazymatch goal with
  | |- gives (mret _) _ => apply gives_ret; done
  | |- gives fail _ => apply gives_fail
  | |- gives (get ≫= _) _ => eapply gives_bind; [apply gives_get | intros ? ?]
  | |- gives (check _ ≫= _) _ => eapply gives_bind; [apply gives_check | cbv beta; intros ? ?]
  | |- gives (count _ ≫= _) _ => eapply gives_bind; [apply keeps_count | intros _ _]
  | |- gives (if ?b then _ else _) _ => destruct b eqn:?
  end.

Section safety.
Context {D : Type} `{!DeviceInv D}.
Abbreviation N := (M (net (D := D))).
Implicit Types s : net (D := D).

(** ** The ARP table and the DNS cache *)
Lemma arp_find_ok ip n i s : net_ok s -> 0 <= i -> i + Z.of_nat n <= 8 ->
  wp (arp_find n i ip) (fun r s' => s' = s /\ forall j, r = Some j -> 0 <= j < 8) (fun _ => False) s.
Proof.
  revert i. induction n as [|n IH]; intros i Hs H0 Hn; cbn [arp_find]; [by apply wp_ret|].
  destruct (ok_arp s Hs) as (Hl & He & _). apply wp_bind, wp_gets.
  destruct (getZ_is_Some (arp_ip (arp s)) i) as [e Hge]; [lia|]. apply wp_bind. eapply wp_deref; [exact Hge|].
  apply getZ_Some in Hge as [_ Hge]. destruct (Forall_lookup_1 _ _ _ _ He Hge) as [Hel Heb].
  destruct (rd32_ok e 0 Heb) as (v & Hv & _); [lia..|]. apply wp_bind. eapply wp_deref; [exact Hv|].
  destruct (v =? ip); [apply wp_ret; split; [done|]; intros j [= <-]; lia|]. apply IH; [done|lia|lia].
Qed.

Lemma keeps_arp_remember ip m : mac_ok m -> keeps (arp_remember ip m).
Proof.
  intros Hm s Hs. pose proof (ok_arp s Hs) as (Hl1 & He & Hl2 & Hf & Hc). unfold arp_remember.
  apply wp_bind, wp_gets. apply wp_bind. eapply wp_mono; [apply arp_find_ok; [done|lia|lia]| |done].
  intros r s' [-> Hr].
  assert (Hstore : forall a slot s, net_ok s -> 0 <= slot < 8 -> arp_ip (arp s) = a.1 -> arp_mac (arp s) = a.2 -> length a.1 = 8%nat ->
    Forall (fun e => buf_ok 4 e) a.1 -> length a.2 = 8%nat -> Forall mac_ok a.2 ->
    wp (s ← get; ips ← deref (setZ (arp_ip (arp s)) slot (be32 ip)); macs ← deref (setZ (arp_mac (arp s)) slot m);
        modify (set_arp (mk_arp ips macs (arp_count (arp s))))) (fun _ s => net_ok s /\ True) net_ok s).
  { intros a slot t Ht Hsl Ea Eb H1 H2 H3 H4. apply wp_bind, wp_gets. apply wp_bind. rewrite Ea, Eb.
    eapply wp_deref; [apply setZ_is_Some; lia|]. apply wp_bind. eapply wp_deref; [apply setZ_is_Some; lia|]. apply wp_modify.
    split; [|done]. destruct Ht as [A1 A2 A3 (_ & _ & _ & _ & A4) A5 A6]. split; try done. cbn. unfold arp_ok. cbn.
    split_and!; [len|apply Forall_insert; [done|split; [done|auto with k64]]|len|by apply Forall_insert|lia|lia]. }
  destruct r as [i|].
  - apply wp_bind, wp_ret. by apply (Hstore (arp_ip (arp s), arp_mac (arp s))); auto.
  - apply wp_bind. destruct (Z.ltb_spec (arp_count (arp s)) 8).
    + apply wp_bind, wp_modify. apply wp_ret. apply (Hstore (arp_ip (arp s), arp_mac (arp s))); try done; [|lia].
      destruct Hs as [A1 A2 A3 A4 A5 A6]. split; try done. unfold arp_ok. cbn. rewrite u8_small by lia. split_and!; done || lia.
    + apply wp_ret. apply (Hstore (arp_ip (arp s), arp_mac (arp s))); done || lia.
Qed.

Lemma dns_find_ok name n i s : net_ok s -> 0 <= i -> i + Z.of_nat n <= 8 ->
  wp (dns_find n i name) (fun r s' => s' = s /\ forall j, r = Some j -> 0 <= j < 8) (fun _ => False) s.
Proof.
  revert i. induction n as [|n IH]; intros i Hs H0 Hn; cbn [dns_find]; [by apply wp_ret|].
  destruct (ok_dns s Hs) as [Hl _]. apply wp_bind, wp_gets.
  destruct (getZ_is_Some (dns_cache (dns s)) i) as [e Hge]; [lia|]. apply wp_bind. eapply wp_deref; [exact Hge|].
  destruct (text_eq _ _); [apply wp_ret; split; [done|]; intros j [= <-]; lia|]. apply IH; [done|lia|lia].
Qed.

Lemma keeps_dns_cache_put name ip : keeps (dns_cache_put name ip).
Proof.
  unfold dns_cache_put. destruct (_ || _); [by apply gives_ret|].
  intros s Hs. pose proof (ok_dns s Hs) as (Hl & Hc).
  apply wp_bind, wp_gets. apply wp_bind. eapply wp_mono; [apply dns_find_ok; [done|lia|lia]| |done].
  intros r s' [-> Hr].
  assert (Hstore : forall slot s, net_ok s -> 0 <= slot < 8 ->
    wp (s ← get; text ← deref (fill 64 (copy_text 64 (Some name)));
        l ← deref (setZ (dns_cache (dns s)) slot (text, ip));
        modify (set_dns (with_cache l (dns_count (dns s)) (dns s)))) (fun _ s => net_ok s /\ True) net_ok s).
  { intros slot t Ht Hsl. pose proof (ok_dns t Ht) as (Hl' & Hc'). apply wp_bind, wp_gets. apply wp_bind.
    eapply wp_deref; [by apply fill_copy|]. apply wp_bind. eapply wp_deref; [apply setZ_is_Some; lia|]. apply wp_modify.
    split; [|done]. destruct Ht as [A1 A2 A3 A4 A5 A6]. split; try done. split; cbn; [len|lia]. }
  destruct r as [i|]; [apply wp_bind, wp_ret, Hstore; auto|]. apply wp_bind. destruct (Z.ltb_spec (dns_count (dns s)) 8).
  - apply wp_bind, wp_modify, wp_ret. apply Hstore; [|lia]. destruct Hs as [A1 A2 A3 A4 A5 A6]. split; try done.
    split; cbn; [done|]. rewrite u8_small by lia. lia.
  - apply wp_ret, Hstore; [done|lia].
Qed.

Lemma gives_dns_cache_lookup name : keeps (dns_cache_lookup name).
Proof.
  intros s Hs. pose proof (ok_dns s Hs) as (Hl & Hc). unfold dns_cache_lookup.
  apply wp_bind, wp_gets. apply wp_bind. eapply wp_mono; [apply dns_find_ok; [done|lia|lia]| |done].
  intros [i|] s' [-> Hr]; [|by apply wp_fail]. destruct (getZ_is_Some (dns_cache (dns s)) i) as [m Hm]; [specialize (Hr i eq_refl); lia|].
  apply wp_bind. eapply wp_deref; [exact Hm|]. by apply wp_ret.
Qed.

(** ** Sending *)

(** Sending leaves the addresses and the connection. *)
Definition sent_from s s' : Prop := net_ok s' /\ config s' = config s /\ http s' = http s.

Lemma sent_refl s : net_ok s -> sent_from s s.
Proof. done. Qed.
Lemma sent_trans s1 s2 s3 : sent_from s1 s2 -> sent_from s2 s3 -> sent_from s1 s3.
Proof. intros (_ & H1 & H2) (H3 & H4 & H5). split_and!; [done|congruence|congruence]. Qed.

(** A computation that only sends. *)
Definition sends {A} (m : N A) (P : A -> Prop) s : Prop := wp m (fun a s' => sent_from s s' /\ P a) (sent_from s) s.

Lemma sends_gives {A} (m : N A) P : (forall s, net_ok s -> sends m P s) -> gives m P.
Proof. intros H s Hs. eapply wp_mono; [by apply H|by intros a s' [[Hs' _] Ha]|by intros s' [Hs' _]]. Qed.
Lemma sends_keeps {A} (m : N A) P s : sends m P s -> wp m (fun _ s => net_ok s /\ True) net_ok s.
Proof. intros H. eapply wp_mono; [exact H|by intros a s' [[Hs' _] Ha]|by intros s' [Hs' _]]. Qed.
Lemma sends_bind {A B} (m : N A) (k : A -> N B) P Q s : sends m P s ->
  (forall a s', sent_from s s' -> P a -> sends (k a) Q s') -> sends (m ≫= k) Q s.
Proof.
  intros Hm Hk. apply wp_bind. eapply wp_mono; [exact Hm| |done]. intros a s' [Hs' Ha].
  eapply wp_mono; [by apply Hk|..]; [intros b s2 [H2 Hb]; split; [by eapply sent_trans|done]|]. intros s2 H2. by eapply sent_trans.
Qed.

Lemma send_frame_ok fr n s : net_ok s -> 0 <= n <= Z.of_nat (length fr) -> good_frame (mac s) (take (Z.to_nat n) fr) ->
  sends (send_frame fr n) (fun _ => True) s.
Proof.
  intros Hs Hn Hg. unfold send_frame. apply wp_bind, wp_gets. apply wp_bind, wp_check; intros _; [|done].
  destruct (send s) as [f|] eqn:Ef; [|by apply wp_fail]. apply wp_bind. eapply wp_deref; [apply take_bytes_Some; lia|].
  unfold slice. rewrite drop_0. destruct (f _ _) as [ok d] eqn:Eo. apply wp_bind, wp_modify.
  assert (Hs' : net_ok (set_device d s)).
  { destruct Hs as [A1 A2 A3 A4 A5 A6]. split; try done. cbn. change d with ((ok, d).2). rewrite <- Eo. by apply A2. }
  apply wp_bind, wp_check; intros _; [|done]. apply wp_modify. by destruct Hs'.
Qed.

Lemma arp_packet_sent dst tm op ip tip s : net_ok s -> mac_ok dst -> mac_ok tm -> op = 1 \/ op = 2 ->
  sends (frame ← deref (arp_packet dst (mac s) op ip tm tip); send_frame frame 42) (fun _ => True) s.
Proof.
  intros Hs Hd Ht Hop. pose proof (ok_mac s Hs) as Hm. destruct Hd as [Hd Hdb], Ht as [Ht Htb], Hm as [Hm Hmb].
  apply wp_bind. eapply wp_deref; [by apply arp_packet_eq|]. apply send_frame_ok; [done|plen|]. rewrite take_ge by plen.
  by apply good_arp.
Qed.

Lemma keeps_send_arp_reply m ip : mac_ok m -> keeps (send_arp_reply m ip).
Proof. intros Hm. apply sends_gives. intros s Hs. unfold send_arp_reply. apply wp_bind, wp_gets. apply arp_packet_sent; auto. Qed.

Lemma broadcast_ok : mac_ok BROADCAST.
Proof. split; [done|]. unfold BROADCAST. bytes. Qed.

Lemma send_arp_request_ok ip s : net_ok s -> sends (k64_net_send_arp_request ip) (fun _ => True) s.
Proof.
  intros Hs. unfold k64_net_send_arp_request. apply wp_bind, wp_gets. apply wp_bind, wp_check; intros _; [|done].
  apply arp_packet_sent; auto using broadcast_ok. split; [done|auto with k64].
Qed.

Lemma keeps_send_arp_request ip : keeps (k64_net_send_arp_request ip).
Proof. apply sends_gives, send_arp_request_ok. Qed.

(** A segment in the first [n] bytes of the caller's buffer. *)
Lemma send_ipv4_from_ok dst src_ip dst_ip proto k p n s : net_ok s -> mac_ok dst -> byte_ok proto -> segment_ok k src_ip dst_ip proto n p ->
  0 <= n <= Z.of_nat k -> n <= 1480 -> sends (send_ipv4_from dst src_ip dst_ip proto p n) (fun _ => True) s.
Proof.
  intros Hok [Hd Hdb] Hp [[Hk Hb] Hs] Hn Hn'. pose proof (ok_mac s Hok) as [Hm Hmb]. unfold send_ipv4_from. rewrite (u16_small (20 + n)) by lia.
  apply wp_bind, wp_check; intros Hc; [|done]. apply wp_bind, wp_gets. apply wp_bind, wp_modify. apply wp_bind.
  eapply wp_deref; [apply take_bytes_Some; lia|]. unfold slice. rewrite drop_0. set (seg := take (Z.to_nat n) p) in *.
  assert (Hl : Z.of_nat (length seg) = n) by (unfold seg; len).
  assert (Hsb : bytes_ok seg) by (unfold seg; auto using Forall_take). apply wp_bind.
  pose proof (ipv4_frame_eq dst (mac s) (next_ip_id s) proto src_ip dst_ip seg Hd Hm Hp ltac:(lia)) as (c & z & He & Hsum).
  rewrite Hl in He. eapply wp_deref; [exact He|]. rewrite u16_small by lia.
  assert (Hlen : Z.of_nat (length (dst ++ mac s ++ be16 ETH_TYPE_IPV4 ++ ip_header n (next_ip_id s) proto c src_ip dst_ip ++ seg)) =
    34 + n) by plen.
  apply (send_frame_ok _ _ (set_ip_id _ s)); [by destruct Hok| |].
  - rewrite length_app. lia.
  - rewrite take_app_length' by lia. cbn [mac set_ip_id]. rewrite <- Hl. apply good_ipv4; done || lia.
Qed.

Lemma send_ipv4_ok dst dst_ip proto k p n s : net_ok s -> mac_ok dst -> byte_ok proto -> segment_ok k (ipv4 (config s)) dst_ip proto n p ->
  0 <= n <= Z.of_nat k -> n <= 1480 -> sends (send_ipv4 dst dst_ip proto p n) (fun _ => True) s.
Proof. intros Hs Hd Hp Hseg Hn Hn'. unfold send_ipv4. apply wp_bind, wp_gets. by apply send_ipv4_from_ok with k. Qed.

Lemma arp_lookup_ok ip s : net_ok s -> sends (arp_lookup ip) mac_ok s.
Proof.
  intros Hs. pose proof (ok_arp s Hs) as (Hl1 & He & Hl2 & Hf & Hc). unfold arp_lookup.
  apply wp_bind, wp_gets. apply wp_bind. eapply wp_mono; [apply arp_find_ok; [done|lia|lia]| |done].
  intros [i|] s' [-> Hr]; [|by apply wp_fail]. destruct (getZ_is_Some (arp_mac (arp s)) i) as [m Hm]; [specialize (Hr i eq_refl); lia|].
  eapply wp_deref; [exact Hm|]. split; [done|]. apply getZ_Some in Hm as [_ Hm]. by eapply Forall_lookup_1.
Qed.

Lemma resolve_mac_ok ip s : net_ok s -> sends (resolve_mac ip) mac_ok s.
Proof.
  intros Hs. unfold resolve_mac. apply wp_bind, wp_gets. cbv zeta. apply wp_bind, wp_try.
  eapply wp_mono; [by apply arp_lookup_ok|by intros m s' [Hs' Hm]; apply wp_ret|]. intros s' Hs'. apply wp_bind, wp_try.
  eapply wp_mono; [apply send_arp_request_ok, Hs'|..]; [intros a s2 [H2 _]|intros s2 H2]; apply wp_fail; by eapply sent_trans.
Qed.

Lemma gives_resolve_mac ip : gives (resolve_mac ip) mac_ok.
Proof. apply sends_gives, resolve_mac_ok. Qed.

Lemma byte_const z : (0 <=? z) && (z <? 256) = true -> byte_ok z.
Proof. intros [?%Z.leb_le ?%Z.ltb_lt]%andb_true_iff. split; lia. Qed.

Lemma send_tcp_ok ip dport sport sq ak flags payload s : net_ok s -> byte_ok flags -> bytes_ok payload -> Z.of_nat (length payload) <= 1460 ->
  sends (send_tcp ip dport sport sq ak flags payload) (fun _ => True) s.
Proof.
  intros Hs Hf Hp Hl. unfold send_tcp. cbv zeta. rewrite (u16_small (20 + _)) by lia. apply wp_bind, wp_check; intros _; [|done].
  eapply sends_bind; [by apply resolve_mac_ok|]. intros m s1 [Hs1 _] Hm. apply wp_bind, wp_gets. apply wp_bind.
  eapply wp_opt; [by apply tcp_packet_ok|]. intros pk Hpk. eapply send_ipv4_ok; [done|done|by apply byte_const|exact Hpk|lia|lia].
Qed.

Lemma keeps_send_tcp ip dport sport sq ak flags payload : byte_ok flags -> bytes_ok payload -> Z.of_nat (length payload) <= 1460 ->
  keeps (send_tcp ip dport sport sq ak flags payload).
Proof. intros. apply sends_gives. intros. by apply send_tcp_ok. Qed.

(** ** The DNS and DHCP clients *)
Lemma keeps_set_dns f : (forall d, dns_ok d -> dns_ok (f d)) -> keeps (modify (fun s => set_dns (f (dns s)) s)).
Proof. intros Hf. apply gives_modify. intros s [A1 A2 A3 A4 A5 A6]. split; try done. by apply Hf. Qed.

Lemma udp_byte : byte_ok IP_PROTO_UDP.
Proof. by apply byte_const. Qed.

Lemma keeps_send_dns_query h : keeps (send_dns_query h).
Proof.
  unfold send_dns_query. destruct h as [[|c h]|]; [apply gives_fail| |apply gives_fail]. set (name := c :: h). keep.
  eapply gives_bind; [apply gives_resolve_mac|]. intros m Hm s Hs. apply wp_bind, wp_gets. cbv zeta. set (cf := config s).
  apply wp_bind. eapply wp_opt; [apply dns_query_ok|]. intros [p len_] [Hp Hl]. cbv beta iota. rewrite u16_small by lia.
  apply wp_bind. eapply wp_opt; [apply udp_seal_ok; [exact Hp|lia|lia]|]. intros p1 Hp1.
  apply wp_bind. eapply wp_deref; [by apply fill_copy|]. apply wp_bind, wp_modify. set (s1 := set_dns _ s). assert (Hs1 : net_ok s1) by (by destruct Hs).
  apply wp_bind, wp_try.
  assert (Hrest : forall (sent : option unit) s', sent_from s1 s' -> wp (if negb (gateway cf =? 0) && negb (gateway cf =? dns_server cf) then
      packet ← deref (udp_seal (ipv4 cf) (gateway cf) p1 len_);
      sent' ← try (send_ipv4 m (gateway cf) IP_PROTO_UDP packet len_); check (negb (absent sent') || negb (absent sent))
    else check (negb (absent sent))) (fun _ s => net_ok s /\ True) net_ok s').
  { intros sent s' (Hs' & Hcf & _). destruct (_ && _); [|by apply wp_check]. apply wp_bind.
    eapply wp_opt; [apply udp_seal_ok; [apply Hp1|lia|lia]|]. intros p2 Hp2. apply wp_bind, wp_try.
    change (ipv4 cf) with (ipv4 (config s1)) in Hp2. rewrite <- Hcf in Hp2.
    eapply wp_mono; [eapply send_ipv4_ok; [done|done|apply udp_byte|exact Hp2|lia|lia]|..].
    - intros ? s2 [[Hs2 _] _]. by apply wp_check.
    - intros s2 [Hs2 _]. by apply wp_check. }
  eapply wp_mono; [eapply send_ipv4_ok; [done|done|apply udp_byte|exact Hp1|lia|lia]|..]; [intros ? s' [Hs' _]|intros s' Hs']; by apply Hrest.
Qed.

Lemma keeps_set_dhcp f : keeps (modify (fun s => set_dhcp (f s) s)).
Proof. apply gives_modify. by intros s []. Qed.

Lemma keeps_send_dhcp_message ty rip sip : byte_ok ty -> keeps (send_dhcp_message ty rip sip).
Proof.
  intros Ht s Hs. unfold send_dhcp_message. apply wp_bind, wp_gets. apply wp_bind, wp_check; intros _; [|done]. apply wp_bind.
  eapply wp_opt; [apply dhcp_message_ok; [apply (ok_mac s Hs)|done]|]. intros [p len_] [Hp Hl]. cbv beta iota. apply wp_bind.
  eapply wp_opt; [apply udp_seal_ok; [exact Hp|lia|lia]|]. intros p1 Hp1. eapply sends_keeps.
  eapply send_ipv4_from_ok; [done|apply broadcast_ok|apply udp_byte|exact Hp1|lia|lia].
Qed.

Lemma keeps_send_dhcp_discover : keeps send_dhcp_discover.
Proof.
  unfold send_dhcp_discover. eapply gives_bind; [apply keeps_set_dhcp|]. intros _ _. apply keeps_send_dhcp_message. by apply byte_const.
Qed.

Section received.
Context (p : list Z) (n : Z).
Context (Hp : bytes_ok p) (Hn : 0 <= n <= Z.of_nat (length p)) (H16 : n < 65536).

Lemma keeps_handle_dns : keeps (handle_dns_payload p n).
Proof.
  unfold handle_dns_payload. destruct (Z.ltb_spec n 20); [by apply gives_ret|].
  do 2 (eapply gives_bind; [apply gives_opt, rd16_ok; [done|lia|lia]|]; cbv beta; intros ? ?).
  keep; [by apply gives_ret|]. cbv zeta. rewrite u16_small by lia.
  assert (Hd : bytes_ok (drop 8 p)) by auto using Forall_drop.
  assert (Hl : Z.of_nat (length (drop 8 p)) = Z.of_nat (length p) - 8) by len.
  eapply gives_bind; [apply gives_opt, rd16_ok; [done|lia|lia]|]; cbv beta; intros ? ?. keep. keep; [by apply gives_ret|].
  do 2 (eapply gives_bind; [apply gives_opt, rd16_ok; [done|lia|lia]|]; cbv beta; intros ? ?).
  eapply gives_bind; [apply gives_opt, skip_questions_ok; done || lia|]. cbv beta. intros pos Hpos.
  eapply gives_bind; [apply gives_opt, find_answer_ok; done || lia|]. intros [ip|] _; [|by apply gives_ret].
  eapply gives_bind; [apply keeps_dns_cache_put|]. intros _ _.
  eapply gives_bind; [apply (keeps_set_dns answered); by intros d []|]. intros _ _. apply keeps_count.
Qed.

Lemma keeps_handle_dhcp : keeps (handle_dhcp_payload p n).
Proof.
  unfold handle_dhcp_payload. destruct (Z.ltb_spec n 252); [by apply gives_ret|].
  do 2 (eapply gives_bind; [apply gives_opt, rd16_ok; [done|lia|lia]|]; cbv beta; intros ? ?).
  keep; [by apply gives_ret|]. cbv zeta. rewrite u16_small by lia.
  assert (Hd : bytes_ok (drop 8 p)) by auto using Forall_drop.
  assert (Hl : Z.of_nat (length (drop 8 p)) = Z.of_nat (length p) - 8) by len.
  eapply gives_bind; [apply gives_opt, rd32_ok; [done|lia|lia]|]; cbv beta; intros ? ?. keep. keep; [by apply gives_ret|].
  eapply gives_bind; [apply gives_opt, rd32_ok; [done|lia|lia]|]; cbv beta; intros ? ?. keep; [by apply gives_ret|].
  eapply gives_bind; [apply gives_opt, rd32_ok; [done|lia|lia]|]; cbv beta; intros yi ?.
  eapply gives_bind; [apply gives_opt, read_options_ok; done || lia|]. intros o _. keep; [|keep].
  - eapply gives_bind; [apply keeps_set_dhcp|]. intros _ _.
    eapply gives_bind; [apply gives_try, keeps_send_dhcp_message; by apply byte_const|]. intros _ _. by apply gives_ret.
  - eapply gives_bind; [apply gives_modify; by intros ? []|]. intros _ _. apply gives_modify. by intros ? [].
  - by apply gives_ret.
Qed.
End received.

(** ** TCP *)
Lemma http_append_spec r data : Z.of_nat (length r) < HTTP_BUF_SIZE -> Z.of_nat (length data) < 65536 ->
  http_append r data = take (Z.to_nat (HTTP_BUF_SIZE - 1)) (r ++ data).
Proof.
  intros Hr Hd. unfold http_append. set (B := HTTP_BUF_SIZE) in *. assert (HB : B = 16777216) by done. clearbody B.
  destruct (Z.eqb_spec (Z.of_nat (length data)) 0) as [E|E]; cbn [orb].
  { destruct data; [|cbn in E; lia]. rewrite app_nil_r. rewrite take_ge by lia. done. }
  destruct (Z.leb_spec B (Z.of_nat (length r) + 1)); [rewrite take_app_le by lia; by rewrite take_ge by lia|].
  rewrite take_app_ge by lia. f_equal. destruct (Z.ltb_spec (B - 1 - Z.of_nat (length r)) (Z.of_nat (length data))).
  - rewrite u16_small by lia. f_equal. lia.
  - rewrite !take_ge by lia. done.
Qed.

Lemma http_append_ok r data : bytes_ok r -> bytes_ok data -> Z.of_nat (length r) < HTTP_BUF_SIZE -> Z.of_nat (length data) < 65536 ->
  bytes_ok (http_append r data) /\ Z.of_nat (length (http_append r data)) < HTTP_BUF_SIZE.
Proof.
  intros Hr Hd Hl Hl'. rewrite http_append_spec by done. split; [by apply Forall_take, Forall_app_2|].
  rewrite length_take. assert (HTTP_BUF_SIZE = 16777216) by done. lia.
Qed.

Lemma accept_data_ok h sq data : http_ok h -> bytes_ok data -> Z.of_nat (length data) < 65536 -> http_ok (accept_data h sq data).
Proof.
  intros (A1 & A2 & A2' & A3 & A4) Hd Hl. unfold accept_data. destruct (sq =? ack h).
  - pose proof (http_append_ok (response h) data A3 Hd A4 Hl) as []. done.
  - destruct (Z.ltb_spec sq (ack h)); [|done]. destruct (Z.ltb_spec (ack h - sq) (Z.of_nat (length data))); [|done].
    pose proof (http_append_ok (response h) (drop (Z.to_nat (ack h - sq)) data) A3) as [B1 B2]; [auto using Forall_drop|done|len|done].
Qed.

Lemma keeps_upd_http f : (forall h, http_ok h -> http_ok (f h)) -> keeps (upd_http f).
Proof. intros Hf. apply gives_modify. intros s [A1 A2 A3 A4 A5 A6]. split; try done. by apply Hf. Qed.

Lemma keeps_send_segment flags payload : byte_ok flags -> bytes_ok payload -> Z.of_nat (length payload) <= 1460 -> keeps (send_segment flags payload).
Proof. intros H1 H2 H3. unfold send_segment. keep. by apply keeps_send_tcp. Qed.

Lemma keeps_ack : keeps (try (send_segment TCP_FLAG_ACK [])).
Proof. eapply gives_mono; [apply gives_try, keeps_send_segment; [by apply byte_const|constructor|done]|done]. Qed.

Lemma keeps_handle_tcp p n src_ip : bytes_ok p -> 0 <= n <= Z.of_nat (length p) -> n < 65536 -> keeps (handle_tcp_payload p n src_ip).
Proof.
  intros Hp Hn H16. unfold handle_tcp_payload. destruct (Z.ltb_spec n 20); [by apply gives_ret|].
  do 2 (eapply gives_bind; [apply gives_opt, rd16_ok; [done|lia|lia]|]; cbv beta; intros ? ?). keep. keep; [by apply gives_ret|].
  do 2 (eapply gives_bind; [apply gives_opt, rd32_ok; [done|lia|lia]|]; cbv beta; intros ? ?).
  do 2 (eapply gives_bind; [apply gives_opt, byte_ok_opt; [done|lia]|]; intros ? ?). cbv zeta.
  set (hl := u8 _). keep; [by apply gives_ret|]. pose proof (u8_range (Z.shiftr a4 4 * 4)) as Hhl. fold hl in Hhl. clearbody hl.
  apply orb_false_iff in Heqb0 as [?%Z.ltb_ge ?%Z.ltb_ge]. rewrite u16_small by lia.
  keep; [by apply keeps_upd_http|]. keep.
  { eapply gives_bind; [by apply keeps_upd_http|]. intros _ _. eapply gives_bind; [apply keeps_ack|]. intros _ _. by apply keeps_upd_http. }
  eapply (gives_bind _ _ (fun _ => True)).
  - keep; [|by apply gives_ret]. eapply gives_bind; [apply gives_opt, take_bytes_ok; [done|lia|lia|lia]|]. intros data [Hdl Hdb].
    eapply gives_bind; [apply keeps_upd_http; intros; apply accept_data_ok; [done|done|lia]|]. intros _ _. keep.
    eapply gives_bind; [apply gives_opt, complete_body_ok|]. intros b _.
    eapply (gives_bind _ _ (fun _ => True)); [destruct b; [by apply keeps_upd_http|by apply gives_ret]|]. intros _ _.
    eapply gives_bind; [apply keeps_ack|]. intros _ _. by apply gives_ret.
  - intros _ _. keep; [|by apply gives_ret]. keep.
    eapply (gives_bind _ _ (fun _ => True)); [keep; [by apply keeps_upd_http|by apply gives_ret]|]. intros _ _.
    eapply gives_bind; [apply keeps_ack|]. intros _ _. by apply keeps_upd_http.
Qed.

(** ** Receiving a frame *)
Lemma mac_at_ok p off : bytes_ok p -> 0 <= off -> off + 6 <= Z.of_nat (length p) -> gives (mac_at p off) mac_ok.
Proof.
  intros Hp H0 H1. unfold mac_at. eapply gives_mono; [apply gives_opt, take_bytes_ok; done || lia|].
  intros m [Hl Hb]. split; [lia|done].
Qed.

Lemma keeps_handle_icmp m ip p n : mac_ok m -> bytes_ok p -> 0 <= n <= Z.of_nat (length p) -> n <= 1480 -> keeps (handle_icmp m ip p n).
Proof.
  intros Hm Hp Hn Hn'. unfold handle_icmp. destruct (Z.ltb_spec n 8); [by apply gives_ret|].
  eapply gives_bind; [apply gives_opt, byte_ok_opt; [done|lia]|]. intros t _.
  eapply (gives_bind _ _ (fun _ => True)); [destruct (t =? 0); [apply keeps_count|by apply gives_ret]|]. intros _ _.
  destruct (t =? 8); [|by apply gives_ret]. intros s Hs. apply wp_bind.
  eapply wp_opt; [apply (echo_reply_ok (ipv4 (config s)) ip); done || lia|]. intros r Hr. apply wp_bind, wp_try.
  eapply wp_mono; [eapply send_ipv4_ok; [done|done|by apply byte_const|exact Hr|lia|lia]|..].
  - by intros ? s' [[Hs' _] _].
  - by intros s' [Hs' _].
Qed.

Lemma keeps_handle_arp p : bytes_ok p -> 42 <= Z.of_nat (length p) -> keeps (handle_arp p).
Proof.
  intros Hp Hl. unfold handle_arp. eapply gives_bind; [apply gives_opt, rd16_ok; [done|lia|lia]|]. cbv beta. intros op _.
  do 2 (eapply gives_bind; [apply gives_opt, rd32_ok; [done|lia|lia]|]; cbv beta; intros ? ?). keep.
  eapply gives_bind; [apply mac_at_ok; [done|lia|lia]|]. intros m Hm. eapply gives_bind; [by apply keeps_arp_remember|]. intros _ _.
  keep. keep; [|by apply gives_ret]. eapply gives_bind; [apply gives_try; by apply keeps_send_arp_reply|]. intros _ _. by apply gives_ret.
Qed.

(** The total length behind the Ethernet header does not wrap. *)
Definition length_fits (frame : list Z) : Prop := forall v, rd16be frame 16 = Some v -> 14 + v < 65536.

Lemma keeps_handle_ipv4 p n : bytes_ok p -> 34 <= n <= Z.of_nat (length p) -> n <= 1514 -> length_fits p -> keeps (handle_ipv4 p n).
Proof.
  intros Hp Hn Hmax Hfit. unfold handle_ipv4. eapply gives_bind; [apply gives_opt, byte_ok_opt; [done|lia]|]. intros b Hb. cbv zeta.
  pose proof (u8_range (Z.land b 15 * 4)) as Hi. set (ihl := u8 (Z.land b 15 * 4)) in *.
  destruct (rd16_ok p 16 Hp) as (v & Hv & Hr); [lia..|]. pose proof (Hfit v Hv) as Hw. rewrite Hv.
  eapply (gives_bind _ _ (fun x => x = v)); [by apply gives_ret|]. intros ? ->.
  eapply gives_bind; [apply gives_opt, byte_ok_opt; [done|lia]|]. intros proto _.
  do 2 (eapply gives_bind; [apply gives_opt, rd32_ok; [done|lia|lia]|]; cbv beta; intros ? ?). keep.
  keep; [by apply gives_ret|]. rewrite (u16_small (14 + v)) in * by lia.
  apply orb_false_iff in Heqb0 as [Heqb0 _]. apply orb_false_iff in Heqb0 as [Heqb0 ?%Z.ltb_ge].
  apply orb_false_iff in Heqb0 as [?%Z.ltb_ge ?%Z.ltb_ge]. rewrite u16_small by lia. clearbody ihl.
  set (q := drop (Z.to_nat (14 + ihl)) p). assert (Hq : bytes_ok q) by (unfold q; auto using Forall_drop).
  assert (Hql : v - ihl <= Z.of_nat (length q)) by (unfold q; len).
  eapply gives_bind; [apply mac_at_ok; [done|lia|lia]|]. intros m Hm. eapply gives_bind; [by apply keeps_arp_remember|]. intros _ _.
  keep. keep; [|keep; [|keep; [|by apply gives_ret]]]; keep.
  - eapply gives_bind; [apply keeps_handle_dns; done || lia|]. intros _ _. apply keeps_handle_dhcp; done || lia.
  - apply keeps_handle_icmp; done || lia.
  - apply keeps_handle_tcp; done || lia.
Qed.

Lemma keeps_receive p n : bytes_ok p -> n <= Z.of_nat (length p) -> n <= 1514 -> length_fits p -> keeps (k64_net_receive_frame p n).
Proof.
  intros Hp Hn Hmax Hfit. unfold k64_net_receive_frame. keep.
  destruct (negb (ready a) || (n <? 14)) eqn:E; [by apply gives_ret|]. apply orb_false_iff in E as [_ E%Z.ltb_ge].
  eapply gives_bind; [apply mac_at_ok; [done|lia|lia]|]. intros m Hm. keep; [by apply gives_ret|].
  eapply gives_bind; [apply gives_opt, rd16_ok; [done|lia|lia]|]. cbv beta. intros ty _.
  eapply (gives_bind _ _ (fun _ => True)).
  { unfold note_frame. keep. apply gives_modify. by intros ? []. }
  intros _ _. destruct (_ && (42 <=? n)) eqn:E1.
  { apply andb_true_iff in E1 as [_ E1%Z.leb_le]. apply keeps_handle_arp; [done|lia]. }
  destruct (_ && (34 <=? n)) eqn:E2; [|by apply gives_ret]. apply andb_true_iff in E2 as [_ E2%Z.leb_le].
  eapply gives_bind; [apply gives_opt, byte_ok_opt; [done|lia]|]. intros b _. keep; [|by apply gives_ret]. apply keeps_handle_ipv4; done || lia.
Qed.
End safety.
