(* ===== verification/NetRun.v ===== *)
(** * Every use of the network stack

    The public operations of [k64_net.c] keep the invariant of [NetSafe], and so
    does every sequence of calls and received frames. *)
From Stdlib Require Import ZArith Lia.
From stdpp Require Import base list.
From S2P Require Import Prelude Exec KString NetBytes Net NetUdp NetHttp NetApi NetFrames NetSafe.

(** ** The request *)
Definition text_ok (n : Z) (l : list Z) : Prop := bytes_ok l /\ Z.of_nat (length l) < n.

Lemma push_char_ok n out c : text_ok n out -> byte_ok c -> opt_ok (push_char n n out c) (text_ok n).
Proof.
  intros [Hb Hl] Hc. unfold push_char, put_char. destruct (Z.ltb_spec (Z.of_nat (length out) + 1) n); [|by apply opt_ret].
  rewrite (proj2 (Z.ltb_lt _ _)) by lia. apply opt_ret. split; [apply Forall_app_2; auto|rewrite length_app; cbn [length]; lia].
Qed.

Lemma push_text_ok n l out : text_ok n out -> bytes_ok l -> opt_ok (push_text n n l out) (text_ok n).
Proof.
  revert out. induction l as [|c l IH]; intros out Ho Hl; [by apply opt_ret|]. apply Forall_cons in Hl as [Hc Hl]. cbn [push_text].
  apply opt_bind. eapply opt_mono; [by apply push_char_ok|]; cbv beta; intros o' Ho'. by apply IH.
Qed.

Lemma str_bytes l : bytes_ok (str l).
Proof.
  unfold str. apply Forall_map. apply Forall_forall. intros a _. unfold byte_ok, compose. pose proof (Ascii.N_ascii_bounded a). lia.
Qed.

Lemma digits_rev_ok n v : 0 <= v -> bytes_ok (digits_rev n v).
Proof.
  revert v. induction n as [|n IH]; intros v Hv; cbn [digits_rev]; [constructor|]. destruct (v =? 0); [constructor|].
  constructor; [unfold byte_ok; dmlia|apply IH; dmlia].
Qed.

Lemma http_append_dec_ok n v : 0 <= v -> bytes_ok (http_append_dec n v).
Proof.
  intros Hv. unfold http_append_dec. destruct (v =? 0); [destruct (1 <? n); [bytes|constructor]|].
  apply Forall_take, Forall_rev. by apply digits_rev_ok.
Qed.

Lemma http_append_dec_fill v : 0 <= v -> opt_ok (fill 24 (http_append_dec 24 v)) bytes_ok.
Proof.
  intros Hv. rewrite fill_Some; [apply opt_ret; by apply http_append_dec_ok|]. unfold http_append_dec.
  destruct (v =? 0); [done|]. rewrite length_take. lia.
Qed.

Ltac add_text := apply opt_bind; eapply opt_mono; [apply push_text_ok; [done|by repeat apply Forall_app_2]|]; cbv beta; intros ? ?.

Lemma range_header_ok h r crlf : 0 <= range_start h -> 0 <= range_end h -> text_ok 256 r ->
  opt_ok (r ← push_text 256 256 (str "Range: bytes=") r;
          num ← fill 24 (http_append_dec 24 (range_start h));
          r ← push_text 256 256 num r;
          r ← push_char 256 256 r 45;
          num ← fill 24 (http_append_dec 24 (range_end h));
          r ← push_text 256 256 num r;
          if Z.of_nat (length r) + 2 <? 256 then r ← put_char 256 r 13; put_char 256 r crlf else Some r)
    (fun q => byte_ok crlf -> text_ok 256 q).
Proof.
  intros H1 H2 Hr. apply opt_bind. eapply opt_mono; [apply push_text_ok; [done|apply str_bytes]|]; cbv beta; intros r1 Hr1.
  apply opt_bind. eapply opt_mono; [by apply http_append_dec_fill|]; cbv beta; intros n1 Hn1. add_text.
  apply opt_bind. eapply opt_mono; [apply push_char_ok; [done|by apply byte_const]|]; cbv beta; intros r3 Hr3.
  apply opt_bind. eapply opt_mono; [by apply http_append_dec_fill|]; cbv beta; intros n2 Hn2.
  apply opt_bind. eapply opt_mono; [by apply push_text_ok|]; cbv beta; intros q [Hq Hl].
  destruct (Z.ltb_spec (Z.of_nat (length q) + 2) 256); [|by apply opt_ret].
  apply opt_bind. unfold put_char at 1. rewrite (proj2 (Z.ltb_lt _ _)) by lia. apply opt_ret.
  unfold put_char. rewrite (proj2 (Z.ltb_lt _ _)) by (rewrite length_app; cbn [length]; lia). apply opt_ret. intros Hc. split.
  - apply Forall_app_2; [apply Forall_app_2; [done|bytes]|]. by apply Forall_cons_2; [|apply Forall_nil_2].
  - rewrite !length_app. cbn [length]. lia.
Qed.

Lemma http_request_ok h : bytes_ok (host h) -> bytes_ok (path h) -> 0 <= range_start h -> 0 <= range_end h ->
  opt_ok (http_request h) (text_ok 256).
Proof.
  intros Hh Hp H1 H2. unfold http_request, REQUEST_BYTES. cbv zeta.
  assert (Hc : bytes_ok [13; 10]) by bytes. assert (H0 : text_ok 256 []) by (split; [constructor|done]).
  assert (Hs : forall l, bytes_ok (str l)) by apply str_bytes. do 5 add_text.
  apply opt_bind. eapply (opt_mono _ (text_ok 256)).
  - destruct (use_range h && _); [|by apply opt_ret]. eapply opt_mono; [by apply range_header_ok|]; cbv beta. intros q Hq. apply Hq. by apply byte_const.
  - intros q Hq. apply opt_bind. eapply opt_mono; [apply push_text_ok; [done|by repeat apply Forall_app_2]|]; cbv beta; intros t [Ht Hl].
    rewrite fill_Some by done. by apply opt_ret.
Qed.

Section run.
Context {D : Type} `{!DeviceInv D}.
Abbreviation N := (M (net (D := D))).
Implicit Types s : net (D := D).

(** ** The HTTP client *)

(** The reply of a finished request says how much of the buffer is the body, and
    holds as much of it as the caller has room for. *)
Definition reply_ok (cap : option Z) (r : http_reply) s : Prop :=
  0 <= r_size r /\ (r_ok r = true -> r_size r <= Z.of_nat (length (response (http s)))) /\
  forall c, cap = Some c -> 0 < c -> Z.of_nat (length (r_out r)) = Z.min c (r_size r).

Lemma failed_ok cap msg s : reply_ok cap (failed msg) s.
Proof. split_and!; [done|done|]. intros c _ Hc. cbn. lia. Qed.

Definition replies (cap : option Z) (m : N http_reply) : Prop :=
  forall s, net_ok s -> wp m (fun r s => net_ok s /\ reply_ok cap r s) net_ok s.

Lemma wp_upd_http f Q E s : Q tt (set_http (f (http s)) s) -> wp (upd_http f) Q E s.
Proof. intros H. by apply wp_modify. Qed.

Lemma set_http_ok f s : net_ok s -> (forall h, http_ok h -> http_ok (f h)) -> net_ok (set_http (f (http s)) s).
Proof. intros [A1 A2 A3 A4 A5 A6] Hf. split; try done. by apply Hf. Qed.

Lemma replies_done cap : replies cap (http_done cap).
Proof.
  intros s Hs. unfold http_done. apply wp_bind, wp_gets. cbv zeta. set (r := response (http s)).
  assert (Hbroken : forall msg, wp (upd_http (with_state HTTP_ERROR) ;; mret (failed msg)) (fun r s => net_ok s /\ reply_ok cap r s) net_ok s).
  { intros msg. apply wp_bind, wp_upd_http, wp_ret. split; [by apply set_http_ok|apply failed_ok]. }
  destruct (http_find_body_ok r) as (o & Eo & Hh). apply wp_bind. eapply wp_deref; [exact Eo|].
  destruct o as [info|]; [|apply Hbroken]. specialize (Hh info eq_refl).
  destruct (_ || _); [apply Hbroken|]. destruct (_ && _); [apply Hbroken|]. destruct (_ && _); [apply Hbroken|].
  destruct (_ <? header_size info); [apply wp_ret; split; [done|apply failed_ok]|].
  set (cl := Z.of_nat (length r) - header_size info). assert (Hcl : 0 <= cl <= Z.of_nat (length r)) by (unfold cl; lia).
  assert (Hb : length (drop (Z.to_nat (header_size info)) r) = Z.to_nat cl) by (unfold cl; len).
  assert (Hr : Z.of_nat (length r) = Z.of_nat (length (response (http s)))) by done. clearbody cl r.
  destruct cap as [cap|]; [|apply wp_ret; split; [done|]; split_and!; cbn; done || lia].
  destruct (Z.eqb_spec cap 0); [apply wp_ret; split; [done|]; split_and!; cbn; [lia|intros _; lia|intros ? [= <-] ?; lia]|].
  set (copy := if cl <? cap then cl else cap). assert (Hcopy : copy = Z.min cap cl) by (unfold copy; destruct (Z.ltb_spec cl cap); lia).
  assert (Hout : forall c, Some cap = Some c -> 0 < c -> Z.of_nat (length (take (Z.to_nat copy) (drop (Z.to_nat (header_size info)) r))) = Z.min c cl).
  { intros c [= <-] Hc. rewrite length_take, Hb. lia. }
  destruct (copy <? cl).
  - apply wp_bind, wp_upd_http, wp_ret. split; [by apply set_http_ok|]. split_and!; cbn [r_size r_ok r_out]; [lia|done|done].
  - apply wp_ret. split; [done|]. split_and!; cbn [r_size r_ok r_out]; [lia|intros _; lia|done].
Qed.

Lemma keeps_resolve_host name : keeps (k64_net_resolve_host name).
Proof.
  unfold k64_net_resolve_host. destruct name as [[|c h]|]; [by apply gives_ret| |by apply gives_ret]. set (name := c :: h).
  destruct (k64_net_parse_ipv4 _); [by apply gives_ret|]. eapply gives_bind; [apply gives_try, gives_dns_cache_lookup|].
  intros [ip|] _; [by apply gives_ret|]. keep. cbv zeta. keep.
  - eapply gives_bind; [|intros _ _; by apply gives_ret]. apply gives_modify. intros s [A1 A2 A3 A4 A5 A6]. by split.
  - eapply gives_bind; [apply gives_try, keeps_send_dns_query|]. intros. by apply gives_ret.
Qed.

Lemma keeps_connect : gives http_connect (fun r => forall x, r = Some x -> exists msg, x = failed msg).
Proof.
  unfold http_connect. keep. eapply (gives_bind _ _ (fun r => forall x, r = Some x -> exists msg, x = failed msg)).
  - keep; [|apply gives_ret; done]. eapply gives_bind; [apply keeps_resolve_host|]. intros [ip|b] _.
    + eapply gives_bind; [by apply keeps_upd_http|]. intros _ _. by apply gives_ret.
    + apply gives_ret. intros x [= <-]. by eexists.
  - intros [x|] Hx; [by apply gives_ret|]. keep. keep; [|by apply gives_ret].
    eapply gives_bind; [apply gives_try, gives_resolve_mac|]. intros m _. keep; [apply gives_ret; intros x [= <-]; by eexists|]. cbv zeta.
    eapply gives_bind; [apply gives_try, keeps_send_tcp; [by apply byte_const|constructor|done]|]. intros o _.
    keep; [apply gives_ret; intros x [= <-]; by eexists|]. eapply gives_bind; [by apply keeps_upd_http|]. intros _ _. by apply gives_ret.
Qed.

Lemma replies_failed cap msg : replies cap (mret (failed msg)).
Proof. intros s Hs. apply wp_ret. split; [done|apply failed_ok]. Qed.

Lemma replies_bind {A} cap (m : N A) k P : gives m P -> (forall a, P a -> replies cap (k a)) -> replies cap (m ≫= k).
Proof. intros Hm Hk s Hs. apply wp_bind. eapply wp_mono; [by apply Hm| |done]. intros a s' [Hs' Ha]. by apply Hk. Qed.

Lemma replies_progress cap : replies cap (http_progress cap).
Proof.
  unfold http_progress. eapply replies_bind; [apply gives_get|]. intros s0 Hs0. destruct (bool_decide _); [apply replies_failed|].
  eapply (replies_bind _ _ _ (fun r => forall x, r = Some x -> exists msg, x = failed msg)).
  - keep; [|by apply gives_ret]. destruct (ok_http s0 Hs0) as (B1 & B2 & [B3 B4] & _).
    destruct (http_request_ok (http s0) B1 B2 B3 B4) as (rq & Erq & Hr & Hrl). rewrite Erq. cbn [deref].
    eapply gives_bind; [by apply (gives_ret rq (fun x => x = rq))|]. intros ? ->.
    eapply gives_bind; [apply gives_try, keeps_send_segment; [by apply byte_const|done|lia]|]. intros o _.
    keep; [apply gives_ret; intros x [= <-]; by eexists|]. eapply gives_bind; [by apply keeps_upd_http|]. intros _ _. by apply gives_ret.
  - intros [x|] Hx; [destruct (Hx x eq_refl) as [msg ->]; apply replies_failed|].
    eapply replies_bind; [apply gives_get|]. intros s1 Hs1. destruct (bool_decide _); [apply replies_failed|].
    destruct (bool_decide _); [apply replies_done|apply replies_failed].
Qed.

Lemma copy_text_bytes n l : bytes_ok l -> bytes_ok (copy_text n (Some l)).
Proof. intros H. unfold copy_text. rewrite bounded_copy_Some. by apply Forall_take. Qed.

(** The arguments of a call. *)
Definition arg_ok (o : option (list Z)) : Prop := forall l, o = Some l -> bytes_ok l.

Lemma replies_get_range h p port a b cap : arg_ok h -> arg_ok p -> 0 <= a -> 0 <= b ->
  replies cap (k64_net_http_get_range_raw h p port a b cap).
Proof.
  intros Hh Hp Ha Hb. unfold k64_net_http_get_range_raw. cbv zeta. destruct h as [[|c h]|]; [apply replies_failed| |apply replies_failed].
  specialize (Hh _ eq_refl). set (h' := c :: h) in *. set (p' := match p with None | Some [] => str "/" | Some p0 => p0 end).
  assert (Hp' : bytes_ok p') by (unfold p'; destruct p as [[|x p]|]; auto using str_bytes). clearbody p'.
  eapply replies_bind; [apply gives_get|]. intros s0 Hs0. destruct (_ && _); [apply replies_done|].
  eapply (replies_bind _ _ _ (fun _ => True)).
  - keep; [|by apply gives_ret]. unfold new_request. keep. cbv zeta. rewrite !fill_copy by done. cbn [deref].
    eapply gives_bind; [by apply (gives_ret _ (fun x => x = copy_text 64 (Some h')))|]. intros ? ->.
    eapply gives_bind; [by apply (gives_ret _ (fun x => x = copy_text 128 (Some p')))|]. intros ? ->.
    eapply gives_bind; [apply gives_modify; by intros s []|]. intros _ _. apply keeps_upd_http. intros _ _.
    split_and!; cbn -[HTTP_BUF_SIZE copy_text]; auto using copy_text_bytes. unfold HTTP_BUF_SIZE. lia.
  - intros _ _. eapply replies_bind; [apply keeps_connect|]. intros [x|] Hx; [|apply replies_progress].
    destruct (Hx x eq_refl) as [msg ->]. apply replies_failed.
Qed.

Lemma replies_keeps cap m : replies cap m -> keeps m.
Proof. intros H s Hs. eapply wp_mono; [by apply H| |done]. by intros r s' [Hs' _]. Qed.

Lemma keeps_http_get h p port n : arg_ok h -> arg_ok p -> 0 < n <= 1025 -> keeps (k64_net_http_get h p port n).
Proof.
  intros Hh Hp Hn s Hs. unfold k64_net_http_get. apply wp_bind.
  eapply wp_mono; [by apply (replies_get_range h p port 0 0 (Some 1024))| |done]. intros r s' (Hs' & H0 & _ & Hout). cbv zeta.
  specialize (Hout 1024 eq_refl ltac:(lia)). apply wp_bind. eapply wp_deref; [apply fill_Some; lia|].
  apply wp_bind. eapply wp_deref; [apply take_bytes_Some|by apply wp_ret].
  - lia.
  - destruct (Z.ltb_spec (r_size r + 1) n); lia.
  - destruct (Z.ltb_spec (r_size r + 1) n); lia.
Qed.

Lemma keeps_download write h p port dst mx : arg_ok h -> arg_ok p -> keeps (k64_net_http_download_to_file write h p port dst mx).
Proof.
  intros Hh Hp s Hs. unfold k64_net_http_download_to_file. apply wp_bind.
  eapply wp_mono; [by apply (replies_get_range h p port 0 0 None)| |done]. intros r s' (Hs' & H0 & Hsz & _). cbv beta.
  destruct (r_ok r) eqn:E; cbn [negb]; [|by apply wp_ret]. specialize (Hsz eq_refl). destruct (_ && _); [by apply wp_ret|].
  apply wp_bind, wp_gets. cbv zeta. apply wp_bind. eapply wp_deref; [apply take_bytes_Some; lia|]. destruct (write _ _); by apply wp_ret.
Qed.

(** ** Datagrams, echo requests and devices *)
Lemma keeps_send_udp ip port payload : arg_ok payload -> keeps (k64_net_send_udp ip port payload).
Proof.
  intros Hp. unfold k64_net_send_udp. cbv zeta. set (l := default [] payload). set (n := u16 (Z.of_nat (length l))).
  assert (Hn : 0 <= n <= Z.of_nat (length l)) by (unfold n, u16; split; [dmlia|apply Z.mod_le; lia]).
  assert (Hl : bytes_ok l) by (unfold l; destruct payload; cbn; [by apply Hp|constructor]). clearbody n l.
  keep. apply negb_true_iff, Z.ltb_ge in H. rewrite u16_small by lia.
  eapply gives_bind; [apply gives_resolve_mac|]. intros m Hm s Hs. apply wp_bind, wp_gets. apply wp_bind.
  assert (Ht : Z.of_nat (length (take (Z.to_nat n) l)) = n) by len.
  pose proof (udp_packet_ok (ipv4 (config s)) ip port (take (Z.to_nat n) l) ltac:(by apply Forall_take) ltac:(lia)) as Hu.
  rewrite Ht in Hu. eapply wp_opt; [exact Hu|]. intros pk Hpk. eapply sends_keeps.
  eapply send_ipv4_ok; [done|done|apply udp_byte|exact Hpk|lia|lia].
Qed.

Lemma keeps_send_ping ip seq : keeps (k64_net_send_ping ip seq).
Proof.
  unfold k64_net_send_ping. eapply gives_bind; [apply gives_resolve_mac|]. intros m Hm s Hs. apply wp_bind, wp_gets. apply wp_bind.
  eapply wp_opt; [apply (ping_packet_ok (ipv4 (config s)) ip)|]. intros pk Hpk. eapply sends_keeps.
  eapply send_ipv4_ok; [done|done|by apply byte_const|exact Hpk|lia|lia].
Qed.

Lemma init_ok s : DI (device s) -> wp k64_net_init (fun _ => net_ok) (fun _ => False) s.
Proof.
  intros Hd. apply wp_modify. split; try done; cbn [mac arp dns http send].
  - split; [done|auto with k64].
  - split_and!; cbn [arp_ip arp_mac arp_count]; [done|apply Forall_replicate, buf_zeros|done|apply Forall_replicate, buf_zeros|lia|lia].
Qed.

Lemma keeps_register drv m f : (forall m0, m = Some m0 -> mac_ok m0 /\ forall f0, f = Some f0 -> driver_ok m0 f0) ->
  keeps (k64_net_register_device drv m f).
Proof.
  intros H. unfold k64_net_register_device. destruct m as [m|]; [|apply gives_fail]. destruct f as [f|]; [|apply gives_fail].
  destruct (H m eq_refl) as [Hm Hf]. keep. keep. apply gives_modify. intros s [A1 A2 A3 A4 A5 A6]. split; try done.
Qed.

Lemma keeps_unregister : keeps k64_net_unregister_device.
Proof. apply gives_modify. intros s []. by split. Qed.

(** ** Sequences of calls *)
Inductive net_op :=
  | op_register (drv m : option (list Z)) (f : option (send_fn (D := D)))
  | op_unregister
  | op_receive (frame : list Z) (len : Z)
  | op_arp_request (ip : Z)
  | op_dhcp_discover
  | op_send_udp (ip port : Z) (payload : option (list Z))
  | op_send_ping (ip sequence : Z)
  | op_resolve (name : option (list Z))
  | op_http_get (h p : option (list Z)) (port out_size : Z)
  | op_http_range (h p : option (list Z)) (port a b : Z) (cap : option Z)
  | op_download (write : list Z -> list Z -> bool) (h p : option (list Z)) (port : Z) (dst : list Z) (max_size : Z).

(** The call; its result is not used. *)
Definition call {A} (m : N A) : N unit := try m ;; mret tt.

Definition run_op (o : net_op) : N unit :=
  match o with
  | op_register drv m f => call (k64_net_register_device drv m f)
  | op_unregister => call k64_net_unregister_device
  | op_receive frame len => call (k64_net_receive_frame frame len)
  | op_arp_request ip => call (k64_net_send_arp_request ip)
  | op_dhcp_discover => call k64_net_dhcp_discover
  | op_send_udp ip port payload => call (k64_net_send_udp ip port payload)
  | op_send_ping ip sequence => call (k64_net_send_ping ip sequence)
  | op_resolve name => call (k64_net_resolve_host name)
  | op_http_get h p port n => call (k64_net_http_get h p port n)
  | op_http_range h p port a b cap => call (k64_net_http_get_range_raw h p port a b cap)
  | op_download write h p port dst mx => call (k64_net_http_download_to_file write h p port dst mx)
  end.

Fixpoint run_ops (ops : list net_op) : N unit :=
  match ops with
  | [] => mret tt
  | o :: ops => run_op o ;; run_ops ops
  end.

(** What the callers guarantee: arguments are bytes, a driver honours its
    contract and passes on frames as long as they are, of at most 1514 bytes,
    whose IPv4 length does not wrap. *)
Definition op_ok (o : net_op) : Prop :=
  match o with
  | op_register _ m f => forall m0, m = Some m0 -> mac_ok m0 /\ forall f0, f = Some f0 -> driver_ok m0 f0
  | op_receive frame len => bytes_ok frame /\ len <= Z.of_nat (length frame) /\ len <= 1514 /\ length_fits frame
  | op_send_udp _ _ payload => arg_ok payload
  | op_http_get h p _ n => arg_ok h /\ arg_ok p /\ 0 < n <= 1025
  | op_http_range h p _ a b _ => arg_ok h /\ arg_ok p /\ 0 <= a /\ 0 <= b
  | op_download _ h p _ _ _ => arg_ok h /\ arg_ok p
  | _ => True
  end.

Lemma call_ok {A} (m : N A) s : keeps m -> net_ok s -> wp (call m) (fun _ => net_ok) (fun _ => False) s.
Proof. intros Hm Hs. apply wp_bind, wp_try. eapply wp_mono; [by apply Hm|by intros ? s' [Hs' _]|done]. Qed.

Lemma run_op_ok o s : op_ok o -> net_ok s -> wp (run_op o) (fun _ => net_ok) (fun _ => False) s.
Proof.
  intros Ho Hs. destruct o; cbn [op_ok run_op] in *; apply call_ok; try done; destruct_and?.
  - by apply keeps_register.
  - apply keeps_unregister.
  - by apply keeps_receive.
  - apply keeps_send_arp_request.
  - apply keeps_send_dhcp_discover.
  - by apply keeps_send_udp.
  - apply keeps_send_ping.
  - apply keeps_resolve_host.
  - by apply keeps_http_get.
  - eapply replies_keeps. by apply replies_get_range.
  - by apply keeps_download.
Qed.

(** C15: From initialisation on, no sequence of received frames and calls reads or
    writes outside of an array (the tables, the packets, the response, the
    request and the text fields of the client), and every frame handed to the driver is well
    formed with its checksums right: the driver's contract is only about such
    frames, and its property [DI] holds at the end. *)
Theorem net_stack_safe ops s : DI (device s) -> Forall op_ok ops ->
  wp (k64_net_init ;; run_ops ops) (fun _ => net_ok) (fun _ => False) s.
Proof.
  intros Hd Hops. apply wp_bind. eapply wp_mono; [by apply init_ok| |done]. cbv beta. intros _ s1 Hs1. clear Hd s.
  revert s1 Hs1. induction Hops as [|o ops Ho _ IH]; intros s Hs; cbn [run_ops]; [by apply wp_ret|].
  apply wp_bind. eapply wp_mono; [by apply run_op_ok| |done]. auto.
Qed.
End run.
