(* ===== verification/NetTcp.v ===== *)
(** * The TCP receiver puts the stream together

    Segments of a stream may be lost, repeated, overlap and arrive in any order:
    the response is always the part of the stream up to the acknowledged
    position, which moves as that of an ideal receiver that keeps no segments
    aside. *)
From Stdlib Require Import ZArith Lia.
From stdpp Require Import base list.
From S2P Require Import Prelude Exec KString NetBytes Net NetUdp NetHttp NetApi NetFrames NetSafe.

(** ** The ideal receiver *)

(** It has the first [k] bytes of the stream; a segment brings those from [off]
    to [off + n]. *)
Definition recv (k : Z) (seg : Z * Z) : Z :=
  let '(off, n) := seg in if (off <=? k) && (k <? off + n) then off + n else k.

Lemma recv_range k off n len_ : 0 <= k <= len_ -> 0 <= n -> off + n <= len_ -> 0 <= recv k (off, n) <= len_.
Proof. intros H1 H2 H3. unfold recv. destruct (_ && _) eqn:E; [|lia]. apply andb_true_iff in E as [?%Z.leb_le ?%Z.ltb_lt]. lia. Qed.

Lemma recv_mono k seg : k <= recv k seg.
Proof. destruct seg as [off n]. unfold recv. destruct (_ && _) eqn:E; [|lia]. apply andb_true_iff in E as [?%Z.leb_le ?%Z.ltb_lt]. lia. Qed.

Lemma take_slice (l : list Z) (k n : nat) : take k l ++ slice l k n = take (k + n) l.
Proof. unfold slice. by rewrite take_take_drop. Qed.

Lemma drop_slice (l : list Z) (i off n : nat) : drop i (slice l off n) = slice l (off + i) (n - i).
Proof. unfold slice. by rewrite skipn_firstn_comm, drop_drop. Qed.

(** ** A segment of the stream *)
Section stream.
Context (st : list Z) (start : Z).
Context (Hbytes : bytes_ok st) (Hfits : Z.of_nat (length st) < HTTP_BUF_SIZE).
Context (Hstart : 0 <= start) (Hwrap : start + Z.of_nat (length st) < 4294967296).

(** The client has the first [k] bytes. *)
Definition received (k : Z) (h : http_client_t) : Prop :=
  0 <= k <= Z.of_nat (length st) /\ response h = take (Z.to_nat k) st /\ ack h = start + k.

Lemma accept_data_recv h k off n : received k h -> 0 <= off -> 0 <= n < 65536 -> off + n <= Z.of_nat (length st) ->
  exists h', accept_data h (start + off) (slice st (Z.to_nat off) (Z.to_nat n)) = h' /\ received (recv k (off, n)) h' /\
    state h' = state h /\ h_ip h' = h_ip h /\ port h' = port h /\ local_port h' = local_port h.
Proof.
  intros (Hk & Hr & Ha) Ho Hn Hl. eexists. split; [done|]. pose proof (recv_range k off n _ Hk ltac:(lia) Hl) as Hrange.
  assert (Hlen : length (slice st (Z.to_nat off) (Z.to_nat n)) = Z.to_nat n) by (apply slice_length; lia).
  assert (Happ : forall d m, d = slice st (Z.to_nat k) m -> Z.of_nat m < 65536 -> (Z.to_nat k + m <= length st)%nat ->
    http_append (response h) d = take (Z.to_nat k + m) st).
  { intros d m -> Hm Hkm. rewrite http_append_spec.
    - rewrite Hr, take_slice. rewrite take_take. f_equal. assert (HTTP_BUF_SIZE = 16777216) by done. lia.
    - rewrite Hr, length_take. lia.
    - rewrite slice_length by lia. lia. }
  assert (Hcase : forall a' r' h', h' = with_seq (seq h) a' (with_response r' h) -> r' = take (Z.to_nat (recv k (off, n))) st ->
    a' = start + recv k (off, n) -> received (recv k (off, n)) h' /\ state h' = state h /\ h_ip h' = h_ip h /\ port h' = port h /\ local_port h' = local_port h).
  { by intros a' r' h' -> -> ->. }
  unfold accept_data. rewrite Hlen, Ha. destruct (Z.eqb_spec (start + off) (start + k)) as [E|E].
  { assert (off = k) as -> by lia. eapply Hcase; [done|..].
    - rewrite (Happ _ (Z.to_nat n)) by (done || lia). f_equal. unfold recv. destruct (_ && _) eqn:F; [lia|].
      apply andb_false_iff in F as [F%Z.leb_gt|F%Z.ltb_ge]; lia.
    - rewrite u32_small by lia. unfold recv. destruct (_ && _) eqn:F; [lia|]. apply andb_false_iff in F as [F%Z.leb_gt|F%Z.ltb_ge]; lia. }
  destruct (Z.ltb_spec (start + off) (start + k)).
  - destruct (Z.ltb_spec (start + k - (start + off)) (Z.of_nat (Z.to_nat n))).
    + assert (Hrecv : recv k (off, n) = off + n).
      { unfold recv. rewrite (proj2 (Z.leb_le off k)), (proj2 (Z.ltb_lt k (off + n))) by lia. done. }
      eapply Hcase; [done|..]; rewrite Hrecv.
      * rewrite drop_slice. rewrite (Happ _ (Z.to_nat n - Z.to_nat (start + k - (start + off)))%nat); [f_equal; lia|f_equal; lia|lia|lia].
      * rewrite u32_small by lia. lia.
    + assert (Hrecv : recv k (off, n) = k).
      { unfold recv. destruct (_ && _) eqn:F; [|done]. apply andb_true_iff in F as [F1%Z.leb_le F2%Z.ltb_lt]. lia. }
      rewrite Hrecv. done.
  - assert (Hrecv : recv k (off, n) = k).
    { unfold recv. destruct (_ && _) eqn:F; [|done]. apply andb_true_iff in F as [F1%Z.leb_le F2%Z.ltb_lt]. lia. }
    rewrite Hrecv. done.
Qed.

(** The bytes of an IPv4 payload with a segment for the connection: a header,
    with options or without, that sets neither [RST] nor [FIN], and [n] bytes of
    the stream from [off] on. *)
Definition is_segment (h : http_client_t) (p : list Z) (seg : Z * Z) : Prop :=
  let '(off, n) := seg in
  exists b flags ak, bytes_ok p /\ Z.of_nat (length p) < 65536 /\ 0 <= off /\ 0 <= n /\ off + n <= Z.of_nat (length st) /\
    rd16be p 0 = Some (port h) /\ rd16be p 2 = Some (local_port h) /\ rd32be p 4 = Some (start + off) /\ rd32be p 8 = Some ak /\
    getZ p 12 = Some b /\ getZ p 13 = Some flags /\
    20 <= Z.shiftr b 4 * 4 < 256 /\ Z.shiftr b 4 * 4 + n = Z.of_nat (length p) /\
    Z.land flags TCP_FLAG_RST = 0 /\ Z.land flags TCP_FLAG_FIN = 0 /\
    drop (Z.to_nat (Z.shiftr b 4 * 4)) p = slice st (Z.to_nat off) (Z.to_nat n).

(** ** The client *)
Definition live (h : http_client_t) : Prop := state h = HTTP_REQUEST_SENT \/ state h = HTTP_ESTABLISHED.
Definition finished (h : http_client_t) : Prop :=
  state h = HTTP_DONE /\ http_response_has_complete_body (response h) = Some true.
Definition same_conn (h h' : http_client_t) : Prop := h_ip h' = h_ip h /\ port h' = port h /\ local_port h' = local_port h.

Context {D : Type} `{!DeviceInv D}.
Abbreviation N := (M (net (D := D))).
Implicit Types s : net (D := D).

(** An acknowledgement is sent or not; either way the connection is as before. *)
Lemma ack_sent s (k : option unit -> N unit) Q : net_ok s -> (forall o s', sent_from s s' -> wp (k o) Q (fun _ => False) s') ->
  wp (try (send_segment TCP_FLAG_ACK []) ≫= k) Q (fun _ => False) s.
Proof.
  intros Hs Hk. apply wp_bind, wp_try. unfold send_segment. apply wp_bind, wp_gets. cbv zeta.
  eapply wp_mono; [apply send_tcp_ok; [done|by apply byte_const|constructor|done]|..]; [intros ? s' [Hs' _]|intros s' Hs']; by apply Hk.
Qed.

(** What one segment does to a client that waits for data. *)
Lemma handle_segment s p seg k : net_ok s -> live (http s) -> received k (http s) -> is_segment (http s) p seg ->
  wp (handle_tcp_payload p (Z.of_nat (length p)) (h_ip (http s)))
    (fun _ s' => net_ok s' /\ same_conn (http s) (http s') /\ received (recv k seg) (http s') /\ (live (http s') \/ finished (http s')))
    (fun _ => False) s.
Proof.
  intros Hs Hlive Hrec Hseg. destruct seg as [off n].
  destruct Hseg as (b & flags & ak & Hp & Hlen & Ho & Hn & Hon & E0 & E2 & E4 & E8 & E12 & E13 & Hh & Hhn & Hrst & Hfin & Hdata).
  unfold handle_tcp_payload. destruct (Z.ltb_spec (Z.of_nat (length p)) 20); [lia|]. rewrite E0, E2.
  do 2 (apply wp_bind; eapply wp_deref; [reflexivity|]). apply wp_bind, wp_gets. rewrite !Z.eqb_refl. cbn [negb]. rewrite !orb_false_r.
  rewrite bool_decide_eq_false_2 by (destruct Hlive; congruence). rewrite E4, E8, E12, E13.
  do 4 (apply wp_bind; eapply wp_deref; [reflexivity|]). cbv zeta. rewrite u8_small by lia. set (hl := Z.shiftr b 4 * 4) in *. clearbody hl.
  destruct (Z.ltb_spec hl 20); [lia|]. destruct (Z.ltb_spec (Z.of_nat (length p)) hl); [lia|]. cbn [orb]. rewrite u16_small by lia.
  rewrite Hrst. cbn [Z.eqb negb]. rewrite (bool_decide_eq_false_2 (state (http s) = HTTP_SYN_SENT)) by (destruct Hlive; congruence). cbn [andb].
  assert (Hl2 : bool_decide (state (http s) = HTTP_REQUEST_SENT) || bool_decide (state (http s) = HTTP_ESTABLISHED) = true).
  { apply orb_true_iff. destruct Hlive; [left|right]; by apply bool_decide_eq_true_2. }
  rewrite Hl2. cbn [andb]. clear Hl2. apply wp_bind.
  assert (Hend : forall s', net_ok s' -> same_conn (http s) (http s') -> received (recv k (off, n)) (http s') -> live (http s') \/ finished (http s') ->
    wp (if negb (Z.land flags TCP_FLAG_FIN =? 0) then
          s0 ← get; (if u32 (start + off + (Z.of_nat (length p) - hl)) =? ack (http s0) then upd_http (fun h => with_seq (seq h) (u32 (ack h + 1)) h) else mret tt) ;;
          try (send_segment TCP_FLAG_ACK []) ;; upd_http (with_state HTTP_DONE)
        else mret tt)
      (fun _ s' => net_ok s' /\ same_conn (http s) (http s') /\ received (recv k (off, n)) (http s') /\ (live (http s') \/ finished (http s')))
      (fun _ => False) s').
  { intros s' T1 T2 T3 T4. rewrite Hfin. cbn [Z.eqb negb]. by apply wp_ret. }
  destruct (Z.eqb_spec (Z.of_nat (length p) - hl) 0) as [E|E]; cbn [negb].
  { apply wp_ret. apply Hend; try done; [|by left]. replace (recv k (off, n)) with k; [done|]. unfold recv.
    destruct (_ && _) eqn:F; [|done]. apply andb_true_iff in F as [F1%Z.leb_le F2%Z.ltb_lt]. lia. }
  apply wp_bind. eapply wp_deref; [apply take_bytes_Some; lia|]. unfold slice at 1. rewrite Hdata.
  rewrite take_ge by (rewrite slice_length; lia).
  destruct (accept_data_recv (http s) k off n Hrec Ho ltac:(lia) Hon) as (h' & Hacc & Hrec' & Hst & Hc1 & Hc2 & Hc3).
  apply wp_bind. apply wp_modify. rewrite Hacc. set (s1 := set_http h' s).
  assert (Hs1 : net_ok s1).
  { destruct Hs as [A1 A2 A3 A4 A5 A6]. split; try done. cbn. rewrite <- Hacc. apply accept_data_ok; [done|auto with k64|rewrite slice_length; lia]. }
  apply wp_bind, wp_gets. apply wp_bind. destruct (complete_body_ok (response (http s1))) as (done_ & Hdone & _). eapply wp_deref; [exact Hdone|].
  apply wp_bind. destruct done_.
  - apply wp_modify. cbv beta. set (s2 := set_http _ s1). apply ack_sent; [by destruct Hs1|]. intros o s3 (Hs3 & _ & Hh3). apply wp_ret.
    apply Hend; [done|rewrite Hh3; done|rewrite Hh3; done|]. right. rewrite Hh3. by split.
  - apply wp_ret. apply ack_sent; [done|]. intros o s3 (Hs3 & _ & Hh3). apply wp_ret.
    apply Hend; [done|rewrite Hh3; done|rewrite Hh3; done|]. left. rewrite Hh3. unfold live in *. cbn. by rewrite Hst.
Qed.

(** A client that has finished ignores the data of further segments. *)
Lemma handle_finished s p seg : net_ok s -> finished (http s) -> is_segment (http s) p seg ->
  wp (handle_tcp_payload p (Z.of_nat (length p)) (h_ip (http s))) (fun _ s' => s' = s) (fun _ => False) s.
Proof.
  intros Hs [Hst _] Hseg. destruct seg as [off n].
  destruct Hseg as (b & flags & ak & Hp & Hlen & Ho & Hn & Hon & E0 & E2 & E4 & E8 & E12 & E13 & Hh & Hhn & Hrst & Hfin & Hdata).
  unfold handle_tcp_payload. destruct (Z.ltb_spec (Z.of_nat (length p)) 20); [lia|]. rewrite E0, E2.
  do 2 (apply wp_bind; eapply wp_deref; [reflexivity|]). apply wp_bind, wp_gets. rewrite !Z.eqb_refl. cbn [negb]. rewrite !orb_false_r.
  rewrite Hst. cbn. rewrite E4, E8, E12, E13.
  do 4 (apply wp_bind; eapply wp_deref; [reflexivity|]). cbv zeta. rewrite u8_small by lia. set (hl := Z.shiftr b 4 * 4) in *. clearbody hl.
  destruct (Z.ltb_spec hl 20); [lia|]. destruct (Z.ltb_spec (Z.of_nat (length p)) hl); [lia|]. cbn [orb].
  rewrite Hrst. cbn [Z.eqb negb andb]. apply wp_bind, wp_ret. rewrite Hfin. cbn [Z.eqb negb]. by apply wp_ret.
Qed.

(** Segments as they arrive, from the address [ip]. *)
Fixpoint deliver (ip : Z) (ps : list (list Z)) : N unit :=
  match ps with
  | [] => mret tt
  | p :: ps => handle_tcp_payload p (Z.of_nat (length p)) ip ;; deliver ip ps
  end.

Lemma same_conn_segment h h' p seg : same_conn h h' -> is_segment h p seg -> is_segment h' p seg.
Proof. intros (_ & H2 & H3). destruct seg as [off n]. unfold is_segment. by rewrite H2, H3. Qed.

Lemma deliver_finished ps segs s k : net_ok s -> received k (http s) -> finished (http s) ->
  Forall2 (is_segment (http s)) ps segs ->
  wp (deliver (h_ip (http s)) ps) (fun _ s' => s' = s) (fun _ => False) s.
Proof.
  intros Hs Hk Hf Hps. induction Hps as [|p seg ps segs Hp _ IH]; cbn [deliver]; [by apply wp_ret|].
  apply wp_bind. eapply wp_mono; [by apply (handle_finished s p seg)| |done]. intros ? s' ->. apply IH.
Qed.

Lemma deliver_live ps segs s k : net_ok s -> received k (http s) -> live (http s) ->
  Forall2 (is_segment (http s)) ps segs ->
  wp (deliver (h_ip (http s)) ps) (fun _ s' => exists k', received k' (http s') /\
      (live (http s') /\ k' = fold_left recv segs k \/ finished (http s'))) (fun _ => False) s.
Proof.
  intros Hs Hk Hl Hps. remember (h_ip (http s)) as ip eqn:Eip. revert s k Hs Hk Hl Hps Eip.
  revert segs. induction ps as [|p ps IH]; intros segs s k Hs Hk Hl Hps Eip; apply Forall2_cons_inv_l in Hps || apply Forall2_nil_inv_l in Hps.
  - subst segs. apply wp_ret. exists k. by split; [|left].
  - destruct Hps as (seg & segs' & Hp & Hps & ->). cbn [deliver fold_left]. apply wp_bind. subst ip.
    eapply wp_mono; [by apply (handle_segment s p seg k)| |done]. intros ? s' (Hs' & Hc & Hk' & Hor).
    assert (Hps' : Forall2 (is_segment (http s')) ps segs').
    { eapply Forall2_impl; [exact Hps|]. intros. by eapply same_conn_segment. }
    assert (Hip : h_ip (http s) = h_ip (http s')) by (by destruct Hc). destruct Hor as [Hl'|Hf].
    + by apply IH.
    + rewrite Hip. eapply wp_mono; [by eapply deliver_finished| |done]. intros ? s2 ->. exists (recv k seg). split; [done|by right].
Qed.
End stream.

