(* ===== verification/NetArp.v ===== *)
(** * IPv4 addresses as text: [k64_net_parse_ipv4] reads what
    [k64_net_format_ipv4] writes

    The ARP table as a map from addresses to stations, and the exchange of a
    request and a reply between two machines. *)
From Stdlib Require Import ZArith Lia.
From stdpp Require Import base list.
From S2P Require Import Prelude Exec KString NetBytes Net NetUdp NetHttp NetApi NetFrames NetSafe.

(** ** Writing *)
Lemma pushes_app n l out : Z.of_nat (length out + length l) < n -> fold_left (push n) l out = out ++ l.
Proof.
  revert out. induction l as [|c l IH]; intros out H; cbn [fold_left]; [by rewrite app_nil_r|]. cbn [length] in H.
  unfold push at 2. rewrite (proj2 (Z.ltb_lt _ _)) by lia. rewrite IH by (rewrite length_app; cbn [length]; lia). by rewrite <- app_assoc.
Qed.

Lemma part_digits_length v : (length (part_digits v) <= 3)%nat.
Proof. unfold part_digits. destruct (100 <=? v); [done|]. destruct (10 <=? v); cbn; lia. Qed.

(** The part of an address at bit [8 * i]. *)
Definition part_of (ip i : Z) : Z := ip / 2 ^ (i * 8) mod 256.

Lemma format_part_eq ip out i : 0 <= i -> (length out <= (3 - Z.to_nat i) * 4)%nat -> (Z.to_nat i <= 3)%nat ->
  format_part ip 16 out i = out ++ part_digits (part_of ip i) ++ (if 0 <? i then [46] else []).
Proof.
  intros Hi Hl H3. unfold format_part, part_of, u8. rewrite Z.shiftr_div_pow2 by lia. change 0xFF with (Z.ones 8). rewrite Z.land_ones by lia.
  change (2 ^ 8) with 256. rewrite Z.mod_mod by lia. set (v := _ mod 256). pose proof (part_digits_length v) as Hd.
  cbv zeta. rewrite pushes_app by lia. destruct (Z.ltb_spec 0 i); [|by rewrite app_nil_r].
  unfold push. rewrite (proj2 (Z.ltb_lt _ _)) by (rewrite length_app; lia). by rewrite <- app_assoc.
Qed.

Lemma format_eq ip : k64_net_format_ipv4 ip 16 =
  part_digits (part_of ip 3) ++ [46] ++ part_digits (part_of ip 2) ++ [46] ++ part_digits (part_of ip 1) ++ [46] ++ part_digits (part_of ip 0).
Proof.
  unfold k64_net_format_ipv4. pose proof (part_digits_length (part_of ip 3)). pose proof (part_digits_length (part_of ip 2)).
  pose proof (part_digits_length (part_of ip 1)). cbn [fold_left].
  rewrite (format_part_eq ip [] 3) by (cbn; lia). rewrite (format_part_eq ip _ 2) by (rewrite ?length_app; cbn [length Z.to_nat Nat.sub Nat.mul Z.ltb Z.compare]; lia).
  rewrite (format_part_eq ip _ 1) by (rewrite ?length_app; cbn [length Z.to_nat Nat.sub Nat.mul Z.ltb Z.compare]; lia).
  rewrite (format_part_eq ip _ 0) by (rewrite ?length_app; cbn [length Z.to_nat Nat.sub Nat.mul Z.ltb Z.compare]; lia).
  cbn [Z.ltb Z.compare]. rewrite app_nil_r. rewrite <- !app_assoc. done.
Qed.

(** ** Reading *)
Lemma parse_digit d v rest parts part saw : 0 <= d <= 9 -> getZ parts part = Some v -> 0 <= v -> v * 10 + d <= 255 ->
  parse_parts ((48 + d) :: rest) parts part saw = parse_parts rest (<[Z.to_nat part := v * 10 + d]> parts) part true.
Proof.
  intros Hd Hg Hv Hle. pose proof (getZ_lt _ _ _ Hg) as Hp. cbn [parse_parts]. unfold digit.
  rewrite (proj2 (Z.leb_le 48 (48 + d))), (proj2 (Z.leb_le (48 + d) 57)) by lia. cbn [andb]. rewrite Hg. cbn [mbind option_bind]. cbv zeta.
  replace (v * 10 + (48 + d - 48)) with (v * 10 + d) by lia. rewrite u32_small by lia. rewrite (proj2 (Z.ltb_ge 255 _)) by lia.
  by rewrite setZ_is_Some by lia.
Qed.

Lemma getZ_insert_eq (l : list Z) i x : 0 <= i < Z.of_nat (length l) -> getZ (<[Z.to_nat i := x]> l) i = Some x.
Proof. intros H. apply getZ_setZ_eq with l. by apply setZ_is_Some. Qed.

Ltac part_goal := first [apply getZ_insert_eq; rewrite ?length_insert; lia | dmlia].

Lemma parse_part v rest parts part saw : 0 <= v < 256 -> getZ parts part = Some 0 ->
  parse_parts (part_digits v ++ rest) parts part saw = parse_parts rest (<[Z.to_nat part := v]> parts) part true.
Proof.
  intros Hv Hg. pose proof (getZ_lt _ _ _ Hg) as Hp. unfold part_digits.
  destruct (Z.leb_spec 100 v); [|destruct (Z.leb_spec 10 v)]; cbn [app].
  - rewrite (parse_digit (v / 100) 0) by (done || dmlia). rewrite (parse_digit _ (0 * 10 + v / 100)) by part_goal.
    rewrite (parse_digit _ ((0 * 10 + v / 100) * 10 + v mod 100 / 10)) by part_goal.
    rewrite !list_insert_insert_eq. do 2 f_equal. dmlia.
  - rewrite (parse_digit (v / 10) 0) by (done || dmlia). rewrite (parse_digit _ (0 * 10 + v / 10)) by part_goal.
    rewrite !list_insert_insert_eq. do 2 f_equal. dmlia.
  - rewrite (parse_digit v 0) by (done || lia). do 2 f_equal. 
Qed.

Lemma parse_dot rest parts part : part < 3 -> parse_parts (46 :: rest) parts part true = parse_parts rest parts (part + 1) false.
Proof. intros H. cbn [parse_parts]. unfold digit. cbn. by rewrite (proj2 (Z.ltb_lt part 3)). Qed.

Lemma parse_end a b c d : 0 <= a < 256 -> 0 <= b < 256 -> 0 <= c < 256 -> 0 <= d < 256 ->
  parse_parts [] [a; b; c; d] 3 true = Some (a * 16777216 + b * 65536 + c * 256 + d).
Proof.
  intros Ha Hb Hc Hd. cbn [parse_parts]. change (getZ [a; b; c; d] 0) with (Some a). change (getZ [a; b; c; d] 1) with (Some b).
  change (getZ [a; b; c; d] 2) with (Some c). change (getZ [a; b; c; d] 3) with (Some d). cbn [Z.eqb Pos.eqb andb mbind option_bind].
  rewrite !u32_small by (rewrite Z.shiftl_mul_pow2 by lia; lia). f_equal.
  rewrite (Z.shiftl_mul_pow2 b), (Z.shiftl_mul_pow2 c) by lia. rewrite lor_low by lia.
  replace (a * 2 ^ 24 + b * 2 ^ 16) with (Z.shiftl (a * 256 + b) 16) by (rewrite Z.shiftl_mul_pow2 by lia; lia). rewrite lor_low by lia.
  replace ((a * 256 + b) * 2 ^ 16 + c * 2 ^ 8) with (Z.shiftl ((a * 256 + b) * 256 + c) 8) by (rewrite Z.shiftl_mul_pow2 by lia; lia).
  rewrite lor_low by lia. lia.
Qed.

(** The text of an address reads back as the address. *)
Theorem format_parse_ipv4 ip : 0 <= ip < 4294967296 -> k64_net_parse_ipv4 (Some (k64_net_format_ipv4 ip 16)) = Some ip.
Proof.
  intros Hip. unfold k64_net_parse_ipv4. cbn [mbind option_bind]. rewrite format_eq.
  assert (Hr : forall i, 0 <= part_of ip i < 256) by (intros; unfold part_of; dmlia).
  do 3 (rewrite parse_part by (done || apply Hr); cbn [app]; rewrite parse_dot by lia).
  rewrite <- (app_nil_r (part_digits (part_of ip 0))). rewrite parse_part by (done || apply Hr).
  etransitivity; [apply (parse_end (part_of ip 3) (part_of ip 2) (part_of ip 1) (part_of ip 0)); apply Hr|]. f_equal. unfold part_of.
  change (2 ^ (3 * 8)) with 16777216. change (2 ^ (2 * 8)) with 65536. change (2 ^ (1 * 8)) with 256. change (2 ^ (0 * 8)) with 1. dmlia.
Qed.

(** * Address resolution *)
(** ** The table as a map *)

(** The address in slot [j]. *)
Definition key (a : arp_table) (j : nat) : option Z := be_value <$> (arp_ip a !! j).

(** The table says that [ip] is at [m]: the first slot in use for [ip]. *)
Definition knows (a : arp_table) (ip : Z) (m : list Z) : Prop :=
  exists j, Z.of_nat j < arp_count a /\ key a j = Some ip /\ (forall i, (i < j)%nat -> key a i <> Some ip) /\ arp_mac a !! j = Some m.

Definition unknown (a : arp_table) (ip : Z) : Prop := forall j, Z.of_nat j < arp_count a -> key a j <> Some ip.

Lemma knows_fun a ip m m' : knows a ip m -> knows a ip m' -> m = m'.
Proof.
  intros (j & Hj & Kj & Fj & Mj) (i & Hi & Ki & Fi & Mi). destruct (decide (i < j)%nat) as [H|H]; [by destruct (Fj i H)|].
  destruct (decide (j < i)%nat) as [H'|H']; [by destruct (Fi j H')|]. replace i with j in Mi by lia. congruence.
Qed.

Section table.
Context {D : Type} `{!DeviceInv D}.
Abbreviation N := (M (net (D := D))).
Implicit Types s : net (D := D).

Lemma arp_find_spec ip n i s : net_ok s -> (i + n <= 8)%nat ->
  wp (arp_find n (Z.of_nat i) ip) (fun r s' => s' = s /\
    match r with
    | Some z => exists j, z = Z.of_nat j /\ (i <= j < i + n)%nat /\ key (arp s) j = Some ip /\
                  forall k, (i <= k < j)%nat -> key (arp s) k <> Some ip
    | None => forall k, (i <= k < i + n)%nat -> key (arp s) k <> Some ip
    end) (fun _ => False) s.
Proof.
  revert i. induction n as [|n IH]; intros i Hs Hn; cbn [arp_find]; [apply wp_ret; split; [done|]; intros; lia|].
  destruct (ok_arp s Hs) as (Hl & He & _). apply wp_bind, wp_gets.
  destruct (lookup_lt_is_Some_2 (arp_ip (arp s)) i) as [e Hge]; [lia|]. destruct (Forall_lookup_1 _ _ _ _ He Hge) as [Hel Heb].
  apply wp_bind. eapply wp_deref; [apply getZ_Some; split; [lia|]; rewrite Nat2Z.id; exact Hge|].
  assert (Hrd : rd32be e 0 = Some (be_value e)).
  { rewrite rd32be_value by done. destruct e as [|a [|b [|c [|d [|]]]]]; by cbn in Hel. }
  assert (Hk : key (arp s) i = Some (be_value e)) by (unfold key; by rewrite Hge).
  apply wp_bind. eapply wp_deref; [exact Hrd|]. destruct (Z.eqb_spec (be_value e) ip) as [E|E].
  { apply wp_ret. split; [done|]. exists i. split_and!; [done|lia|lia|by rewrite Hk, E|]. intros; lia. }
  replace (Z.of_nat i + 1) with (Z.of_nat (S i)) by lia. eapply wp_mono; [apply (IH (S i)); [done|lia]| |done].
  intros r s' [-> Hr]. split; [done|]. assert (Hi : key (arp s) i <> Some ip) by (rewrite Hk; congruence). destruct r as [z|].
  - destruct Hr as (j & -> & Hj & Kj & Fj). exists j. split_and!; [done|lia|lia|done|]. intros k Hkj. destruct (decide (k = i)) as [->|]; [done|apply Fj; lia].
  - intros k Hkj. destruct (decide (k = i)) as [->|]; [done|apply Hr; lia].
Qed.

Lemma arp_lookup_spec ip s : net_ok s ->
  wp (arp_lookup ip) (fun m s' => s' = s /\ knows (arp s) ip m) (fun s' => s' = s /\ unknown (arp s) ip) s.
Proof.
  intros Hs. pose proof (ok_arp s Hs) as (Hl1 & He & Hl2 & Hf & Hc). unfold arp_lookup. apply wp_bind, wp_gets. apply wp_bind.
  eapply wp_mono; [apply (arp_find_spec ip _ 0 s Hs); lia| |done]. intros [z|] s' [-> Hr].
  - destruct Hr as (j & -> & Hj & Kj & Fj). destruct (lookup_lt_is_Some_2 (arp_mac (arp s)) j) as [m Hm]; [lia|].
    eapply wp_deref; [apply getZ_Some; split; [lia|]; rewrite Nat2Z.id; exact Hm|]. split; [done|]. exists j.
    split_and!; [lia|done| |done]. intros i Hi. apply Fj. lia.
  - apply wp_fail. split; [done|]. intros j Hj. apply Hr. lia.
Qed.

(** ** Remembering *)

Lemma key_insert a j ip n : (j < length (arp_ip a))%nat -> 0 <= ip < 4294967296 ->
  forall macs i, key (mk_arp (<[j := be32 ip]> (arp_ip a)) macs n) i = if decide (i = j) then Some ip else key a i.
Proof.
  intros Hj Hip macs i. unfold key. cbn [arp_ip]. destruct (decide (i = j)) as [->|].
  - rewrite list_lookup_insert_eq by done. cbn [fmap option_fmap option_map]. by rewrite be32_value.
  - by rewrite list_lookup_insert_ne by done.
Qed.

(** The slot [j] now holds [ip] and [m]. *)
Definition store (a : arp_table) (j : nat) (ip : Z) (m : list Z) (n : Z) : arp_table :=
  mk_arp (<[j := be32 ip]> (arp_ip a)) (<[j := m]> (arp_mac a)) n.

Lemma store_knows a j ip m n : (j < length (arp_ip a))%nat -> (j < length (arp_mac a))%nat -> 0 <= ip < 4294967296 -> Z.of_nat j < n ->
  (forall i, (i < j)%nat -> key a i <> Some ip) -> knows (store a j ip m n) ip m.
Proof.
  intros H1 H2 Hip Hn Hf. exists j. cbn [arp_count store arp_mac]. split_and!; [done| | |by apply list_lookup_insert_eq].
  - unfold store. rewrite key_insert by done. by rewrite decide_True.
  - intros i Hi. unfold store. rewrite key_insert by done. rewrite decide_False by lia. by apply Hf.
Qed.

Lemma store_keeps a j ip m n ip' m' : (j < length (arp_ip a))%nat -> 0 <= ip < 4294967296 -> arp_count a <= n ->
  ip' <> ip -> knows a ip' m' -> (Z.of_nat j < arp_count a -> key a j <> Some ip') -> knows (store a j ip m n) ip' m'.
Proof.
  intros Hj Hip Hn Hne (i & Hi & Ki & Fi & Mi) Hk. assert (i <> j) by (intros ->; by apply Hk). exists i. cbn [arp_count store arp_mac].
  split_and!; [lia| | |by rewrite list_lookup_insert_ne].
  - unfold store. rewrite key_insert by done. by rewrite decide_False.
  - intros x Hx. unfold store. rewrite key_insert by done. destruct (decide (x = j)); [congruence|by apply Fi].
Qed.

(** The table after [arp_remember]: it knows the new station, and everything it
    knew before but for the address in the first slot when it was full. *)
Definition learned (a a' : arp_table) (ip : Z) (m : list Z) : Prop :=
  knows a' ip m /\ forall ip' m', ip' <> ip -> knows a ip' m' ->
    knows a' ip' m' \/ arp_count a = 8 /\ unknown a ip /\ key a 0 = Some ip'.

Lemma arp_remember_spec ip m s : net_ok s -> mac_ok m -> 0 <= ip < 4294967296 ->
  wp (arp_remember ip m) (fun _ s' => exists a', s' = set_arp a' s /\ net_ok s' /\ learned (arp s) a' ip m) (fun _ => False) s.
Proof.
  intros Hs Hm Hip. pose proof (ok_arp s Hs) as (Hl1 & He & Hl2 & Hf & Hc). unfold arp_remember. apply wp_bind, wp_gets. apply wp_bind.
  eapply wp_mono; [apply (arp_find_spec ip _ 0 s Hs); lia| |done]. intros r s' [-> Hr].
  assert (Hstore : forall z j n, z = Z.of_nat j -> (j < 8)%nat -> 0 <= n <= 8 -> learned (arp s) (store (arp s) j ip m n) ip m -> forall s', s' = set_arp (mk_arp (arp_ip (arp s)) (arp_mac (arp s)) n) s ->
    wp (s ← get; ips ← deref (setZ (arp_ip (arp s)) z (be32 ip)); macs ← deref (setZ (arp_mac (arp s)) z m);
        modify (set_arp (mk_arp ips macs (arp_count (arp s)))))
      (fun _ s' => exists a', s' = set_arp a' s /\ net_ok s' /\ learned (arp s) a' ip m) (fun _ => False) s').
  { intros z j n -> Hj Hn Hlearn s' ->. apply wp_bind, wp_gets. cbn [arp set_arp arp_ip arp_mac arp_count].
    apply wp_bind. eapply wp_deref; [apply setZ_is_Some; lia|]. apply wp_bind. eapply wp_deref; [apply setZ_is_Some; lia|].
    rewrite Nat2Z.id. apply wp_modify. exists (store (arp s) j ip m n). split_and!; [done| |done].
    destruct Hs as [A1 A2 A3 A4 A5 A6]. split; try done. unfold arp_ok. cbn.
    split_and!; [len|apply Forall_insert; [done|split; [done|auto with k64]]|len|by apply Forall_insert|lia|lia]. }
  assert (Hid : s = set_arp (mk_arp (arp_ip (arp s)) (arp_mac (arp s)) (arp_count (arp s))) s) by (by destruct s as [? ? ? ? ? ? ? ? ? ? [] ? ? ?]).
  destruct r as [z|].
  - destruct Hr as (j & -> & Hj & Kj & Fj). apply wp_bind, wp_ret. apply (Hstore _ j (arp_count (arp s))); [done|lia|lia| |done]. split.
    + apply store_knows; [lia|lia|done|lia|]. intros i Hi. apply Fj. lia.
    + intros ip' m' Hne Hk. left. apply store_keeps; [lia|done|lia|done|done|]. intros _. congruence.
  - apply wp_bind. destruct (Z.ltb_spec (arp_count (arp s)) 8).
    + apply wp_bind, wp_modify, wp_ret. rewrite u8_small by lia.
      apply (Hstore _ (Z.to_nat (arp_count (arp s))) (arp_count (arp s) + 1)); [lia|lia|lia| |done]. split.
      * apply store_knows; [lia|lia|done|lia|]. intros i Hi. apply Hr. lia.
      * intros ip' m' Hne Hk. left. apply store_keeps; [lia|done|lia|done|done|lia].
    + apply wp_ret. apply (Hstore _ 0%nat (arp_count (arp s))); [done|lia|lia| |done]. split.
      * apply store_knows; [lia|lia|done|lia|]. intros; lia.
      * intros ip' m' Hne Hk. destruct (decide (key (arp s) 0 = Some ip')).
        -- right. split_and!; [lia| |done]. intros j Hj. apply Hr. lia.
        -- left. by apply store_keeps; [lia|done|lia|done|done|].
Qed.
End table.

(** ** Fields of a frame *)
Lemma getZ_skip {A} (x y : list A) k : 0 <= k -> getZ (x ++ y) (Z.of_nat (length x) + k) = getZ y k.
Proof.
  intros H. unfold getZ. rewrite !decide_True by lia. rewrite lookup_app_r by lia. f_equal. lia.
Qed.

Lemma rd16be_at x v y off : off = Z.of_nat (length x) -> 0 <= v < 65536 -> rd16be (x ++ be16 v ++ y) off = Some v.
Proof.
  intros -> Hv. unfold rd16be. pose proof (getZ_skip x (be16 v ++ y) 0 ltac:(lia)) as H0. rewrite Z.add_0_r in H0. rewrite H0.
  rewrite getZ_skip by lia. change (rd16be (be16 v ++ y) 0 = Some v). transitivity (rd16be (be16 v) 0); [done|].
  rewrite rd16be_value by auto with k64. transitivity (Some (be_value (be16 v))); [done|by rewrite be16_value].
Qed.

Lemma rd32be_at x v y off : off = Z.of_nat (length x) -> 0 <= v < 4294967296 -> rd32be (x ++ be32 v ++ y) off = Some v.
Proof.
  intros -> Hv. unfold rd32be. pose proof (getZ_skip x (be32 v ++ y) 0 ltac:(lia)) as H0. rewrite Z.add_0_r in H0. rewrite H0.
  rewrite !getZ_skip by lia. change (rd32be (be32 v ++ y) 0 = Some v). transitivity (rd32be (be32 v) 0); [done|].
  rewrite rd32be_value by auto with k64. transitivity (Some (be_value (be32 v))); [done|by rewrite be32_value].
Qed.

Lemma take_bytes_at x z y off n : off = Z.of_nat (length x) -> n = Z.of_nat (length z) -> take_bytes (x ++ z ++ y) off n = Some z.
Proof.
  intros -> ->. rewrite take_bytes_Some by (rewrite ?length_app; lia). unfold slice. rewrite !Nat2Z.id. rewrite drop_app_length. by rewrite take_app_length.
Qed.

(** The frame of [arp_packet]. *)
Definition arp_frame (dst src : list Z) (op ip : Z) (tm : list Z) (tip : Z) : list Z :=
  dst ++ src ++ be16 ETH_TYPE_ARP ++ be16 1 ++ be16 ETH_TYPE_IPV4 ++ [6; 4] ++ be16 op ++ src ++ be32 ip ++ tm ++ be32 tip.

Section fields.
Context (dst src tm : list Z) (op ip tip : Z).
Context (Hd : length dst = 6%nat) (Hs : length src = 6%nat) (Ht : length tm = 6%nat).
Context (Hop : 0 <= op < 65536) (Hip : 0 <= ip < 4294967296) (Htip : 0 <= tip < 4294967296).
Abbreviation f := (arp_frame dst src op ip tm tip).

Lemma arp_frame_dst : take_bytes f 0 6 = Some dst.
Proof. unfold arp_frame. apply (take_bytes_at [] dst); [done|lia]. Qed.
Lemma arp_frame_type : rd16be f 12 = Some ETH_TYPE_ARP.
Proof. unfold arp_frame. rewrite (app_assoc dst src). apply rd16be_at; [len|done]. Qed.
Lemma arp_frame_op : rd16be f 20 = Some op.
Proof.
  unfold arp_frame. rewrite (app_assoc dst src), (app_assoc (dst ++ src)), (app_assoc (_ ++ be16 ETH_TYPE_ARP)), (app_assoc (_ ++ be16 1)), (app_assoc (_ ++ be16 ETH_TYPE_IPV4)).
  apply rd16be_at; [plen|done].
Qed.
Lemma arp_frame_sender : take_bytes f 22 6 = Some src.
Proof.
  transitivity (take_bytes ((dst ++ src ++ be16 ETH_TYPE_ARP ++ be16 1 ++ be16 ETH_TYPE_IPV4 ++ [6; 4] ++ be16 op) ++ src ++ be32 ip ++ tm ++ be32 tip) 22 6).
  - unfold arp_frame. by rewrite <- !app_assoc.
  - apply take_bytes_at; plen.
Qed.
Lemma arp_frame_sender_ip : rd32be f 28 = Some ip.
Proof.
  transitivity (rd32be ((dst ++ src ++ be16 ETH_TYPE_ARP ++ be16 1 ++ be16 ETH_TYPE_IPV4 ++ [6; 4] ++ be16 op ++ src) ++ be32 ip ++ tm ++ be32 tip) 28).
  - unfold arp_frame. by rewrite <- !app_assoc.
  - apply rd32be_at; [plen|done].
Qed.
Lemma arp_frame_target_ip : rd32be f 38 = Some tip.
Proof.
  transitivity (rd32be ((dst ++ src ++ be16 ETH_TYPE_ARP ++ be16 1 ++ be16 ETH_TYPE_IPV4 ++ [6; 4] ++ be16 op ++ src ++ be32 ip ++ tm) ++ be32 tip ++ []) 38).
  - unfold arp_frame. rewrite <- !app_assoc. by rewrite app_nil_r.
  - apply rd32be_at; [plen|done].
Qed.
End fields.

(** ** Two machines on a wire *)

(** A device that takes every frame; its state is the list of them. *)
Definition wire : send_fn (D := list (list Z)) := fun fr d => (true, d ++ [fr]).
#[local] Instance wire_inv : DeviceInv (list (list Z)) := fun _ => True.
Abbreviation host := (net (D := list (list Z))).

Definition online (s : host) : Prop := ready s = true /\ send s = Some wire /\ net_ok s /\ 0 <= ipv4 (config s) < 4294967296.

Lemma online_stats x s : online s -> online (set_stats x s).
Proof. intros (H1 & H2 & H3 & H4). split; [done|]. split; [done|]. split; [by destruct H3|exact H4]. Qed.

(** The same machine, with [frames] sent. *)
Definition sent (s : host) (frames : list (list Z)) (s' : host) : Prop :=
  online s' /\ mac s' = mac s /\ config s' = config s /\ device s' = device s ++ frames.

Lemma wp_run {S A} (m : M S A) Q s : wp m Q (fun _ => False) s -> exists a s', m s = Ret a s' /\ Q a s'.
Proof. unfold wp. destruct (m s) as [a s'|s'|]; [|done..]. by exists a, s'. Qed.

Lemma send_frame_wire fr n s : online s -> 0 <= n <= Z.of_nat (length fr) ->
  wp (send_frame fr n) (fun _ s' => sent s [take (Z.to_nat n) fr] s' /\ arp s' = arp s) (fun _ => False) s.
Proof.
  intros (Hr & Hw & Hok & Hip) Hn. unfold send_frame. apply wp_bind, wp_gets. rewrite Hr, Hw. apply wp_bind, wp_ret. apply wp_bind.
  eapply wp_deref; [apply take_bytes_Some; lia|]. unfold slice. rewrite drop_0. cbn [wire]. apply wp_bind, wp_modify. apply wp_bind, wp_ret.
  apply wp_modify. destruct Hok as [A1 A2 A3 A4 A5 A6]. by split_and!.
Qed.

Lemma arp_packet_wire dst op ip tm tip s : online s -> length dst = 6%nat -> length tm = 6%nat ->
  wp (frame ← deref (arp_packet dst (mac s) op ip tm tip); send_frame frame 42)
    (fun _ s' => sent s [arp_frame dst (mac s) op ip tm tip] s' /\ arp s' = arp s) (fun _ => False) s.
Proof.
  intros Hs Hd Ht. destruct (ok_mac s ltac:(apply Hs)) as [Hm _]. apply wp_bind. eapply wp_deref; [by apply arp_packet_eq|].
  fold (arp_frame dst (mac s) op ip tm tip).
  assert (Hl : length (arp_frame dst (mac s) op ip tm tip) = 42%nat) by (unfold arp_frame; plen).
  eapply wp_mono; [apply send_frame_wire; [done|lia]| |done]. by rewrite take_ge by lia.
Qed.

Lemma mac_eq_refl m : mac_eq m m = true.
Proof. by apply bool_decide_eq_true_2. Qed.

(** An ARP frame for the station, or for all of them: the sender is learned, and
    a request for the address of the station is answered. *)
Lemma receive_arp s dst src op ip tm tip : online s -> dst = mac s \/ dst = BROADCAST -> mac_ok src -> length tm = 6%nat ->
  0 <= op < 65536 -> 0 <= ip < 4294967296 -> 0 <= tip < 4294967296 ->
  wp (k64_net_receive_frame (arp_frame dst src op ip tm tip) 42)
    (fun _ s' => exists frames, sent s frames s' /\ learned (arp s) (arp s') ip src /\
       frames = (if (op =? 1) && (tip =? ipv4 (config s)) then [arp_frame src (mac s) 2 (ipv4 (config s)) src ip] else []))
    (fun _ => False) s.
Proof.
  intros Hs Hd Hsrc Ht Hop Hip Htip. pose proof Hs as (Hr & Hw & Hok & Hmy). pose proof (ok_mac s Hok) as [Hm _].
  assert (Hdl : length dst = 6%nat) by (by destruct Hd as [->| ->]). pose proof Hsrc as [Hsl _].
  unfold k64_net_receive_frame. apply wp_bind, wp_gets. rewrite Hr. cbn [negb orb Z.ltb Z.compare Pos.compare Pos.compare_cont].
  apply wp_bind. eapply wp_deref; [by apply arp_frame_dst|].
  assert (Hfor : negb (mac_eq dst (mac s)) && negb (mac_is_broadcast dst) = false).
  { destruct Hd as [->| ->]; [by rewrite mac_eq_refl|]. by rewrite andb_false_r. }
  rewrite Hfor. apply wp_bind. eapply wp_deref; [by apply arp_frame_type|]. apply wp_bind. unfold note_frame.
  apply wp_bind, wp_modify. apply wp_modify. rewrite Z.eqb_refl. cbn [andb Z.leb Z.compare Pos.compare Pos.compare_cont].
  set (s1 := set_stats _ _). assert (Hs1 : online s1) by (by do 2 apply online_stats). unfold handle_arp.
  apply wp_bind. eapply wp_deref; [by apply arp_frame_op|]. apply wp_bind. eapply wp_deref; [by apply arp_frame_sender_ip|].
  apply wp_bind. eapply wp_deref; [by apply arp_frame_target_ip|]. apply wp_bind, wp_modify. set (s2 := set_stats _ _).
  assert (Hs2 : online s2) by (by apply online_stats). apply wp_bind. eapply wp_deref; [by apply arp_frame_sender|].
  apply wp_bind. eapply wp_mono; [by apply (arp_remember_spec ip src s2); [apply Hs2|..]| |done].
  intros _ s3 (a' & -> & Hok3 & Hl). change (arp s2) with (arp s) in Hl. set (s3 := set_arp a' s2) in *.
  assert (Hs3 : online s3) by done. apply wp_bind, wp_gets. change (ipv4 (config s3)) with (ipv4 (config s)).
  destruct ((op =? 1) && (tip =? ipv4 (config s))).
  - apply wp_bind, wp_try. unfold send_arp_reply. apply wp_bind, wp_gets.
    eapply wp_mono; [by apply (arp_packet_wire src 2 (ipv4 (config s)) src ip s3)| |done].
    intros _ s4 [Hs4 Ha]. apply wp_ret. eexists. split; [exact Hs4|]. split; [by rewrite Ha|done].
  - apply wp_ret. exists []. split; [|done]. split; [done|]. split; [done|]. split; [done|]. by rewrite app_nil_r.
Qed.

(** C30: A request and its reply, end to end, between any two machines in any state
    of their tables: the request of [a] for the address of [b] makes [b] learn where
    [a] is and send one frame; when [a] gets it, [a] sends nothing and finds [b]'s
    station under [b]'s address, and [b] finds that of [a]. *)
Theorem arp_exchange (a b : host) : online a -> online b -> exists a1 b1 a2 request reply,
  k64_net_send_arp_request (ipv4 (config b)) a = Ret tt a1 /\ device a1 = device a ++ [request] /\
  k64_net_receive_frame request 42 b = Ret tt b1 /\ device b1 = device b ++ [reply] /\
  k64_net_receive_frame reply 42 a1 = Ret tt a2 /\ device a2 = device a1 /\
  arp_lookup (ipv4 (config a)) b1 = Ret (mac a) b1 /\ arp_lookup (ipv4 (config b)) a2 = Ret (mac b) a2.
Proof.
  intros Ha Hb. pose proof Ha as (Har & Haw & Haok & Haip). pose proof Hb as (Hbr & Hbw & Hbok & Hbip).
  set (ipa := ipv4 (config a)). set (ipb := ipv4 (config b)). pose proof (ok_mac a Haok) as Hma. pose proof (ok_mac b Hbok) as Hmb.
  set (request := arp_frame BROADCAST (mac a) 1 ipa (zeros 6) ipb). set (reply := arp_frame (mac a) (mac b) 2 ipb (mac a) ipa).
  assert (H1 : wp (k64_net_send_arp_request ipb) (fun _ s' => sent a [request] s') (fun _ => False) a).
  { unfold k64_net_send_arp_request. apply wp_bind, wp_gets. rewrite Har. apply wp_bind, wp_ret.
    eapply wp_mono; [by apply (arp_packet_wire BROADCAST 1 ipa (zeros 6) ipb a)| |done]. by intros ? s' [Hs' _]. }
  apply wp_run in H1 as ([] & a1 & E1 & Ha1). pose proof Ha1 as (Hon1 & Hm1 & Hc1 & Hd1).
  assert (H2 := receive_arp b BROADCAST (mac a) 1 ipa (zeros 6) ipb Hb ltac:(by right) Hma ltac:(done) ltac:(lia) Haip Hbip).
  apply wp_run in H2 as ([] & b1 & E2 & fs & Hb1 & Hl1 & ->). rewrite !Z.eqb_refl in Hb1. cbn [andb] in Hb1.
  pose proof Hb1 as (Honb & _ & _ & Hdb1).
  assert (H3 := receive_arp a1 (mac a) (mac b) 2 ipb (mac a) ipa Hon1 ltac:(by left) Hmb ltac:(apply Hma) ltac:(lia) Hbip Haip).
  apply wp_run in H3 as ([] & a2 & E3 & fs & Ha2 & Hl2 & ->). cbn [Z.eqb Pos.eqb andb] in Ha2. destruct Ha2 as (Hona2 & _ & _ & Hda2).
  assert (Hlook : forall s ip m, online s -> knows (arp s) ip m -> arp_lookup ip s = Ret m s).
  { intros s ip m Hs Hk. pose proof (arp_lookup_spec ip s ltac:(apply Hs)) as H. unfold wp in H.
    destruct (arp_lookup ip s) as [m' s'|s'|]; [|destruct H as [-> H]|done].
    - destruct H as [-> H]. f_equal. by eapply knows_fun.
    - destruct Hk as (j & Hj & Kj & _). by destruct (H j Hj). }
  exists a1, b1, a2, request, reply. rewrite app_nil_r in Hda2. destruct Hl1 as [K1 _], Hl2 as [K2 _]. split_and!; try done; by apply Hlook.
Qed.
