(* ===== verification/NetWitness.v ===== *)
(** * The network stack at work: concrete machines and frames *)
From Stdlib Require Import ZArith Lia.
From stdpp Require Import base list.
From S2P Require Import Prelude Exec KString NetBytes Net NetUdp NetHttp NetApi NetFrames NetSafe NetRun NetTcp NetArp.

(** ** Machines *)
Definition mac_a : list Z := [2; 0; 0; 0; 0; 1].
Definition mac_b : list Z := [2; 0; 0; 0; 0; 2].

(** A machine whose driver keeps the frames it gets. *)
Definition station (m : list Z) (ip : Z) : net (D := list (list Z)) :=
  mk_net true [] m (mk_config ip 0x0A000202 0xFFFFFF00 0x0A000203) (Some wire)
    (mk_status true [] m ip 0x0A000202 0xFFFFFF00 0x0A000203 (fun _ => 0) 0 0) 1 1 40000
    (mk_dhcp 0x4B363400 0 0) (mk_arp (replicate 8 (zeros 4)) (replicate 8 (zeros 6)) 0)
    (mk_dns 1 (replicate 8 ([], 0)) 0 0 0 []) zero_http [].

Lemma mac_a_ok : mac_ok mac_a.
Proof. split; [done|]. unfold mac_a. bytes. Defined.
Lemma mac_b_ok : mac_ok mac_b.
Proof. split; [done|]. unfold mac_b. bytes. Defined.

Lemma station_ok (H : DeviceInv (list (list Z))) m ip : mac_ok m -> driver_ok m wire -> DI (D := list (list Z)) [] -> net_ok (station m ip).
Proof.
  intros Hm Hd H0. split; try done; cbn [mac arp dns http send station device].
  - by intros f [= <-].
  - split_and!; cbn [arp_ip arp_mac arp_count]; [done|apply Forall_replicate, buf_zeros|done|apply Forall_replicate, buf_zeros|lia|lia].
Qed.

Lemma station_online m ip : mac_ok m -> 0 <= ip < 4294967296 -> online (station m ip).
Proof. intros Hm Hip. split; [done|]. split; [done|]. split; [by apply station_ok|exact Hip]. Qed.

(** Two machines resolve each other. *)
Lemma arp_exchange_witness : exists a1 b1 a2 request reply,
  k64_net_send_arp_request 0x0A000002 (station mac_a 0x0A000001) = Ret tt a1 /\ device a1 = [request] /\
  k64_net_receive_frame request 42 (station mac_b 0x0A000002) = Ret tt b1 /\ device b1 = [reply] /\
  k64_net_receive_frame reply 42 a1 = Ret tt a2 /\ device a2 = device a1 /\
  arp_lookup 0x0A000001 b1 = Ret mac_a b1 /\ arp_lookup 0x0A000002 a2 = Ret mac_b a2.
Proof.
  exact (arp_exchange (station mac_a 0x0A000001) (station mac_b 0x0A000002)
    (station_online mac_a 0x0A000001 mac_a_ok ltac:(lia)) (station_online mac_b 0x0A000002 mac_b_ok ltac:(lia))).
Defined.

(** The text of 10.0.2.15. *)
Lemma format_parse_witness : k64_net_parse_ipv4 (Some (k64_net_format_ipv4 0x0A00020F 16)) = Some 0x0A00020F /\
  k64_net_format_ipv4 0x0A00020F 16 = str "10.0.2.15".
Proof. split; [apply format_parse_ipv4; lia|vm_compute; reflexivity]. Defined.

(** ** A run: a device is registered, a request for the address of the machine
    arrives, and it pings the sender *)
Definition sent_well (m : list Z) : DeviceInv (list (list Z)) := Forall (good_frame m).

Lemma wire_sent_well m : @driver_ok _ (sent_well m) m wire.
Proof. intros fr d Hf Hd. apply Forall_app. split; [exact Hd|]. by constructor. Qed.

Definition blank : net (D := list (list Z)) := station (zeros 6) 0.

Definition request_from_b : list Z := arp_frame BROADCAST mac_b 1 0x0A000203 (zeros 6) 0x0A00020F.
Definition run_ops_example : list (net_op (D := list (list Z))) :=
  [op_register None (Some mac_a) (Some wire); op_receive request_from_b 42; op_send_ping 0x0A000203 1].

Lemma run_ops_example_ok : Forall (@op_ok _ (sent_well mac_a)) run_ops_example.
Proof.
  repeat apply Forall_cons_2; [| |done|constructor].
  - intros m0 [= <-]. split; [apply mac_a_ok|]. intros f0 [= <-]. apply wire_sent_well.
  - split_and!; [|vm_compute; congruence|lia|].
    + unfold request_from_b, arp_frame, BROADCAST, mac_b. bytes.
    + intros v Hv. vm_compute in Hv. injection Hv as <-. lia.
Qed.

(** The run is safe, and two frames have been sent: the reply and the echo
    request. *)
Lemma net_stack_safe_witness :
  wp (k64_net_init ;; run_ops run_ops_example) (fun _ => @net_ok _ (sent_well mac_a)) (fun _ => False) blank /\
  match (k64_net_init ;; run_ops run_ops_example) blank with Ret _ s => map length (device s) | _ => [] end = [42%nat; 66%nat].
Proof.
  split; [|vm_compute; reflexivity].
  apply (@net_stack_safe _ (sent_well mac_a)); [constructor|apply run_ops_example_ok].
Defined.

(** ** A length that wraps *)
Section wrapped.
Context {D : Type} `{!DeviceInv D}.
Implicit Types s : net (D := D).

(** A frame of at least 34 bytes, with [frame] the memory from it on: an echo
    request to this machine in a packet that claims to have [n] bytes, so many
    that [14 + n] does not fit in 16 bits. *)
Record wrapped_echo s (frame : list Z) (len n : Z) : Prop := {
  we_bytes : bytes_ok frame;
  we_long : (42 <= length frame)%nat;
  we_len : 34 <= len;
  we_dst : take_bytes frame 0 6 = Some (mac s);
  we_type : rd16be frame 12 = Some ETH_TYPE_IPV4;
  we_first : getZ frame 14 = Some 0x45;
  we_total : rd16be frame 16 = Some n;
  we_wraps : 65522 <= n;
  we_proto : getZ frame 23 = Some IP_PROTO_ICMP;
  we_to : rd32be frame 30 = Some (ipv4 (config s));
  we_echo : getZ frame 34 = Some 8
}.

(** More than 1480 bytes cannot be copied to the reply. *)
Lemma put_long bytes : (1480 < length bytes)%nat -> put (zeros 1480) 0 bytes = None.
Proof. intros H. unfold put. rewrite decide_False; [done|]. rewrite zeros_length. lia. Qed.
Lemma echo_reply_overflows icmp n : 1480 < n -> echo_reply icmp n = None.
Proof.
  intros Hn. unfold echo_reply. destruct (take_bytes icmp 0 n) as [bytes|] eqn:E; [|done]. cbn [mbind option_bind].
  apply take_bytes_inv in E as (_ & _ & _ & E). by rewrite put_long by lia.
Qed.

(** One step of a run. *)
Lemma bind_ret {A B} (m : M (net (D := D)) A) (k : A -> M (net (D := D)) B) s a s' : m s = Ret a s' -> (m ≫= k) s = k a s'.
Proof. intros H. unfold mbind, M_bind. by rewrite H. Qed.
Ltac run_step := erewrite bind_ret by reflexivity; cbv beta zeta.

Lemma handle_icmp_overflows m ip icmp n s : 1480 < n -> getZ icmp 0 = Some 8 -> handle_icmp m ip icmp n s = Ub.
Proof.
  intros Hn He. unfold handle_icmp. rewrite (proj2 (Z.ltb_ge _ _)) by lia. rewrite He. do 2 run_step.
  change (8 =? 8) with true. cbv iota. by rewrite echo_reply_overflows by done.
Qed.

Lemma handle_ipv4_overflows frame len n s : net_ok s -> wrapped_echo s frame len n -> handle_ipv4 frame len s = Ub.
Proof.
  intros Hs [Hb Hl Hlen Hd Ht Hf Hn Hw Hp Hto He]. destruct (rd16_ok frame 16 Hb ltac:(lia) ltac:(lia)) as (n' & Hn' & Hr).
  rewrite Hn in Hn'. injection Hn' as <-. destruct (rd32_ok frame 26 Hb ltac:(lia) ltac:(lia)) as (src & Hsrc & Hrs).
  unfold handle_ipv4, mac_at. rewrite Hf, Hn, Hp, Hsrc, Hto. do 6 run_step. change (u8 (Z.land 69 15 * 4)) with 20.
  rewrite Z.eqb_refl. cbn [negb andb orb]. replace (u16 (14 + n)) with (n - 65522) by (unfold u16; dmlia).
  rewrite !(proj2 (Z.ltb_ge _ _)) by lia. cbn [orb].
  destruct (take_bytes_ok frame 6 6 Hb ltac:(lia) ltac:(lia) ltac:(lia)) as (m & -> & Hm & Hmb). run_step.
  assert (Hmo : mac_ok m) by (split; [lia|done]).
  pose proof (arp_remember_spec src m s Hs Hmo Hrs) as Harp. unfold wp in Harp.
  destruct (arp_remember src m s) as [[] s1| |] eqn:Ea; [|done..]. erewrite bind_ret by exact Ea. cbv beta. run_step.
  change (IP_PROTO_ICMP =? IP_PROTO_UDP) with false. change (IP_PROTO_ICMP =? IP_PROTO_ICMP) with true. cbv iota. run_step.
  apply handle_icmp_overflows; [unfold u16; dmlia|]. rewrite <- He. apply getZ_Some in He as [_ He].
  unfold getZ. cbn [Z.ltb Z.compare]. by rewrite lookup_drop.
Qed.

(** C23: [14 + ip_len] is computed in 16 bits.  Every echo request to the machine
    whose total length is 65522 or more, in a frame of any length from 34 bytes on,
    passes the check, and handling it is undefined behaviour: even when all the
    memory behind the frame that it claims can be read, more bytes are copied than
    the array of 1480 bytes for the reply holds. *)
Theorem wrapped_length_overflows s frame len n : net_ok s -> ready s = true -> wrapped_echo s frame len n ->
  k64_net_receive_frame frame len s = Ub /\
  (14 + n <= Z.of_nat (length frame) ->
   exists bytes, take_bytes (drop 34 frame) 0 (n - 20) = Some bytes /\ put (zeros 1480) 0 bytes = None).
Proof.
  intros Hs Hr We. pose proof We as [Hb Hl Hlen Hd Ht Hf Hn Hw Hp Hto He]. split.
  - unfold k64_net_receive_frame, mac_at. run_step. rewrite Hr, (proj2 (Z.ltb_ge _ _)) by lia. cbn [negb orb].
    rewrite Hd. run_step. unfold mac_eq. rewrite bool_decide_eq_true_2 by done. cbn [negb andb]. rewrite Ht. do 2 run_step.
    change (ETH_TYPE_IPV4 =? ETH_TYPE_ARP) with false. cbn [andb]. rewrite (proj2 (Z.leb_le 34 len)), Z.eqb_refl by lia. cbn [andb].
    rewrite Hf. run_step. change (Z.shiftr 69 4 =? 4) with true. cbv iota.
    apply (handle_ipv4_overflows frame len n); [by destruct Hs|by destruct We].
  - intros Hmem. eexists. split; [apply take_bytes_Some; [lia|lia|rewrite length_drop; lia]|].
    apply put_long. rewrite slice_length; [lia|rewrite length_drop; lia].
Qed.
End wrapped.

(** A frame of 60 bytes in the driver's array of 1600: an echo request of a
    packet that claims to have 65535 bytes. *)
Definition wrapped_request : list Z :=
  (mac_a ++ mac_b ++ be16 ETH_TYPE_IPV4 ++
   [0x45; 0] ++ be16 65535 ++ be16 1 ++ be16 0 ++ [64; 1] ++ be16 0 ++ be32 0x0A000002 ++ be32 0x0A000001 ++
   [8; 0; 0; 0; 0; 1; 0; 1]) ++ zeros 1558.

Lemma wrapped_length_overflows_witness :
  length wrapped_request = 1600%nat /\ k64_net_receive_frame wrapped_request 60 (station mac_a 0x0A000001) = Ub.
Proof.
  split; [vm_compute; reflexivity|].
  refine (proj1 (@wrapped_length_overflows _ (sent_well mac_a) (station mac_a 0x0A000001) wrapped_request 60 65535 _ eq_refl _)).
  - apply station_ok; [apply mac_a_ok|apply wire_sent_well|constructor].
  - constructor; try (vm_compute; reflexivity); try lia.
    + apply (bool_decide_unpack _). vm_compute. exact I.
    + vm_compute. repeat constructor.
Defined.

(** ** A stream in three segments: one too early, two that overlap *)
Definition stream : list Z := [72; 84; 84; 80; 47; 49].
Definition tcp_bytes (sq : Z) (data : list Z) : list Z :=
  be16 80 ++ be16 40000 ++ be32 sq ++ be32 0 ++ [0x50; TCP_FLAG_ACK] ++ zeros 6 ++ data.

Definition segments : list (Z * Z) := [(3, 3); (0, 4); (2, 4)].
Definition packets : list (list Z) := map (fun '(off, n) => tcp_bytes (1000 + off) (slice stream (Z.to_nat off) (Z.to_nat n))) segments.

Definition client : net (D := list (list Z)) :=
  set_http (mk_http HTTP_REQUEST_SENT [] [] 0x0A000002 80 40000 false 0 0 1 1000 []) (station mac_a 0x0A000001).

#[local] Instance any_device : DeviceInv (list (list Z)) := fun _ => True.

Lemma client_ok : net_ok client.
Proof.
  pose proof (station_ok any_device mac_a 0x0A000001 mac_a_ok ltac:(done) ltac:(done)) as [A1 A2 A3 A4 A5 A6]. by split.
Qed.

Lemma tcp_bytes_ok sq data : bytes_ok data -> bytes_ok (tcp_bytes sq data).
Proof. intros H. unfold tcp_bytes, TCP_FLAG_ACK. bytes. Qed.

Lemma stream_ok : bytes_ok stream.
Proof. unfold stream. bytes. Defined.

Lemma packets_ok : Forall2 (is_segment stream 1000 (http client)) packets segments.
Proof.
  unfold packets, segments. cbn [map]. repeat apply Forall2_cons_2; [..|apply Forall2_nil_2];
    exists 0x50, TCP_FLAG_ACK, 0; (split; [apply tcp_bytes_ok; auto using stream_ok with k64|vm_compute; repeat split; congruence]).
Qed.

