(* ===== verification/Elf.v ===== *)
(** * The program loader ([k64_elf.c])

    Programs are ELF files: the loader checks the header and the program headers,
    creates an address space, maps the segments, writes the arguments, the
    environment and the auxiliary vector on the stack, and starts the program.
    It is a client of the virtual memory manager.  Files, the permission check
    and the start of a program belong to other parts of the kernel: they are
    parameters.  Messages on the terminal are left out. *)
From Stdlib Require Import ZArith Lia.
From stdpp Require Import base list gmap.
From S2P Require Import Prelude Exec KString Mem Pmm PmmSpec Frames Vmm.

Definition K64_ELF64 : Z := 2.
Definition K64_ELF_LITTLE : Z := 1.
Definition K64_ELF_EXEC : Z := 2.
Definition K64_ELF_DYN : Z := 3.
Definition K64_ELF_X86_64 : Z := 62.
Definition K64_PT_LOAD : Z := 1.
Definition K64_ELF_DYN_LOAD_BIAS : Z := 0x0000000040000000.
Definition K64_ELF_MAIN_DYN_LOAD_BIAS : Z := 0x0000000000400000.
Definition K64_ELF_PAGE : Z := 4096.
Definition K64_ELF_VM_BASE : Z := 0x0000000040000000.
Definition K64_ELF_VM_STRIDE : Z := 0x0000000001000000.
Definition K64_ELF_VM_MAX_SLOTS : Z := 256.
Definition K64_ELF_PID_BASE : Z := 0x100000000.
Definition K64_ELF_USER_MIN : Z := 0x0000000000010000.
Definition K64_ELF_USER_MAX : Z := 0x0000000080000000.
Definition K64_ELF_SEGMENT_MAX : Z := 0x0000000001000000.
Definition K64_ELF_ARG_MAX : Z := 16.
Definition K64_ELF_ARG_TEXT_MAX : Z := 384.
Definition K64_ELF_CONTEXT_MAX : Z := 4.
Definition UINT64_MAX : Z := 0xFFFFFFFFFFFFFFFF.

(** ** Headers *)
Record k64_elf64_ehdr_t := mk_ehdr {
  e_ident : list Z;
  e_type : Z;
  e_machine : Z;
  e_version : Z;
  e_entry : Z;
  e_phoff : Z;
  e_shoff : Z;
  e_flags : Z;
  e_ehsize : Z;
  e_phentsize : Z;
  e_phnum : Z;
  e_shentsize : Z;
  e_shnum : Z;
  e_shstrndx : Z
}.

Record k64_elf64_phdr_t := mk_phdr {
  p_type : Z;
  p_flags : Z;
  p_offset : Z;
  p_vaddr : Z;
  p_paddr : Z;
  p_filesz : Z;
  p_memsz : Z;
  p_align : Z
}.

Definition sizeof_ehdr : Z := 64.
Definition sizeof_phdr : Z := 56.

(** The packed structures in a file. *)
Definition dec_ehdr (bs : list Z) : k64_elf64_ehdr_t :=
  let '(ident, bs) := get_raw 16 bs in
  let '(type, bs) := get_le 2 bs in
  let '(machine, bs) := get_le 2 bs in
  let '(version, bs) := get_le 4 bs in
  let '(entry, bs) := get_le 8 bs in
  let '(phoff, bs) := get_le 8 bs in
  let '(shoff, bs) := get_le 8 bs in
  let '(flags, bs) := get_le 4 bs in
  let '(ehsize, bs) := get_le 2 bs in
  let '(phentsize, bs) := get_le 2 bs in
  let '(phnum, bs) := get_le 2 bs in
  let '(shentsize, bs) := get_le 2 bs in
  let '(shnum, bs) := get_le 2 bs in
  let '(shstrndx, _) := get_le 2 bs in
  mk_ehdr ident type machine version entry phoff shoff flags ehsize phentsize phnum shentsize shnum shstrndx.

Definition dec_phdr (bs : list Z) : k64_elf64_phdr_t :=
  let '(type, bs) := get_le 4 bs in
  let '(flags, bs) := get_le 4 bs in
  let '(offset, bs) := get_le 8 bs in
  let '(vaddr, bs) := get_le 8 bs in
  let '(paddr, bs) := get_le 8 bs in
  let '(filesz, bs) := get_le 8 bs in
  let '(memsz, bs) := get_le 8 bs in
  let '(align, _) := get_le 8 bs in
  mk_phdr type flags offset vaddr paddr filesz memsz align.

Definition elf_align_up (value align : Z) : Z := Z.land (u64 (value + align - 1)) (u64 (Z.lnot (align - 1))).

Definition elf_add_overflows (a b : Z) : bool := u64 (a + b) <? a.

Definition elf_range_valid (start size min max : Z) : bool :=
  if (size =? 0) || elf_add_overflows start size then false else
  let end_ := u64 (start + size) in
  (min <=? start) && (end_ <=? max).

Definition elf_pid_for_entry (fallback_pid entry : Z) : Z :=
  if K64_ELF_VM_BASE <=? entry then
    let slot := (entry - K64_ELF_VM_BASE) / K64_ELF_VM_STRIDE in
    if slot <? K64_ELF_VM_MAX_SLOTS then K64_ELF_PID_BASE + slot else fallback_pid
  else fallback_pid.

(** The header of a file that is accepted. *)
Definition elf_header_valid (file : list Z) : option k64_elf64_ehdr_t :=
  let file_size := Z.of_nat (length file) in
  if file_size <? sizeof_ehdr then None else
  let h := dec_ehdr (take 64 file) in
  let id i := default 0 (getZ (e_ident h) i) in
  if negb (id 0 =? 0x7F) || negb (id 1 =? 69) || negb (id 2 =? 76) || negb (id 3 =? 70) ||
     negb (id 4 =? K64_ELF64) || negb (id 5 =? K64_ELF_LITTLE) ||
     (negb (e_type h =? K64_ELF_EXEC) && negb (e_type h =? K64_ELF_DYN)) || negb (e_machine h =? K64_ELF_X86_64)
  then None else
  let table := e_phnum h * sizeof_phdr in
  if negb (e_phentsize h =? sizeof_phdr) || (e_phnum h =? 0) || elf_add_overflows (e_phoff h) table ||
     (file_size <? u64 (e_phoff h + table)) then None
  else Some h.

(** [phdrs[i]], ..., [phdrs[i + n - 1]] *)
Fixpoint read_phdrs (n : nat) (file : list Z) (h : k64_elf64_ehdr_t) (i : Z) : option (list k64_elf64_phdr_t) :=
  match n with
  | O => Some []
  | S n =>
      bs ← take_bytes file (e_phoff h + i * sizeof_phdr) sizeof_phdr;
      rest ← read_phdrs n file h (i + 1);
      Some (dec_phdr bs :: rest)
  end.

Definition phdrs (file : list Z) (h : k64_elf64_ehdr_t) : option (list k64_elf64_phdr_t) :=
  read_phdrs (Z.to_nat (e_phnum h)) file h 0.

(** A program header that is not skipped. *)
Definition is_load (ph : k64_elf64_phdr_t) : bool := (p_type ph =? K64_PT_LOAD) && negb (p_memsz ph =? 0).

(** The checks of one segment, the address of which is at least [lo]. *)
Definition segment_valid (lo file_size load_bias : Z) (ph : k64_elf64_phdr_t) : bool :=
  let load_vaddr := u64 (p_vaddr ph + load_bias) in
  negb (p_memsz ph <? p_filesz ph) && negb (K64_ELF_SEGMENT_MAX <? p_memsz ph) &&
  negb (elf_add_overflows (p_offset ph) (p_filesz ph)) && negb (file_size <? u64 (p_offset ph + p_filesz ph)) &&
  elf_range_valid load_vaddr (p_memsz ph) lo K64_ELF_USER_MAX &&
  ((p_align ph =? 0) || (Z.land (p_align ph) (u64 (p_align ph - 1)) =? 0)) &&
  negb (elf_add_overflows load_vaddr (p_memsz ph)) &&
  negb (elf_add_overflows (u64 (load_vaddr + p_memsz ph)) (K64_ELF_PAGE - 1)).

(** The loop over the program headers: the range of the pages of the segments. *)
Fixpoint scan_loop (lo file_size load_bias : Z) (l : list k64_elf64_phdr_t) (min_vaddr max_vaddr : Z) : option (Z * Z) :=
  match l with
  | [] => Some (min_vaddr, max_vaddr)
  | ph :: l =>
      if is_load ph then
        if segment_valid lo file_size load_bias ph then
          let load_vaddr := u64 (p_vaddr ph + load_bias) in
          let seg_start := Z.land load_vaddr (u64 (Z.lnot (K64_ELF_PAGE - 1))) in
          let seg_end := elf_align_up (u64 (load_vaddr + p_memsz ph)) K64_ELF_PAGE in
          scan_loop lo file_size load_bias l (if seg_start <? min_vaddr then seg_start else min_vaddr)
            (if max_vaddr <? seg_end then seg_end else max_vaddr)
        else None
      else scan_loop lo file_size load_bias l min_vaddr max_vaddr
  end.

Definition elf_scan_loads (file_size : Z) (l : list k64_elf64_phdr_t) (load_bias : Z) : option (Z * Z) :=
  '(min_vaddr, max_vaddr) ← scan_loop 0 file_size load_bias l UINT64_MAX 0;
  if (min_vaddr =? UINT64_MAX) || (max_vaddr <=? min_vaddr) then None else Some (min_vaddr, max_vaddr).

Fixpoint elf_phdr_vaddr (h : k64_elf64_ehdr_t) (l : list k64_elf64_phdr_t) (load_bias : Z) : Z :=
  match l with
  | [] => u64 (load_bias + e_phoff h)
  | ph :: l =>
      if (p_type ph =? K64_PT_LOAD) && (p_offset ph <=? e_phoff h) &&
         (u64 (e_phoff h + e_phnum h * e_phentsize h) <=? u64 (p_offset ph + p_filesz ph))
      then u64 (load_bias + p_vaddr ph + (e_phoff h - p_offset ph))
      else elf_phdr_vaddr h l load_bias
  end.

(** ** Arguments *)

(** [argv] are offsets in [text]. *)
Record k64_elf_args_t := mk_args { text : list Z; argv : list Z }.
Definition argc (a : k64_elf_args_t) : Z := Z.of_nat (length (argv a)).

Definition blank_char (c : Z) : bool := (c =? 32) || (c =? 9).

(** Copying a word: the rest of the source, the text and the position. *)
Fixpoint copy_word (src text : list Z) (pos : Z) : option (list Z * list Z * Z) :=
  match src with
  | c :: rest =>
      if negb (blank_char c) && (pos + 1 <? K64_ELF_ARG_TEXT_MAX) then
        text ← setZ text pos c; copy_word rest text (pos + 1)
      else Some (src, text, pos)
  | [] => Some (src, text, pos)
  end.

Fixpoint skip_blanks (l : list Z) : list Z :=
  match l with c :: t => if blank_char c then skip_blanks t else l | [] => [] end.

(** The loop over the argument string. *)
Fixpoint args_loop (fuel : nat) (args : list Z) (pos : Z) (a : k64_elf_args_t) : option k64_elf_args_t :=
  match args with
  | [] => Some a
  | _ =>
      if (argc a <? K64_ELF_ARG_MAX) && (pos + 1 <? K64_ELF_ARG_TEXT_MAX) then
        match fuel with
        | O => None
        | S fuel =>
            match skip_blanks args with
            | [] => Some a
            | args =>
                '(args, t, pos') ← copy_word args (text a) pos;
                t ← setZ t pos' 0;
                args_loop fuel args (pos' + 1) (mk_args t (argv a ++ [pos]))
            end
        end
      else Some a
  end.

(** [t0] is the text array before the call; the first argument is the path up to
    its first blank. *)
Definition elf_parse_args (t0 : list Z) (path args : option (list Z)) : option k64_elf_args_t :=
  t ← setZ t0 0 0;
  '(_, t, pos) ← copy_word (default [] path) t 0;
  t ← setZ t pos 0;
  let args := default [] args in
  args_loop (length args) args (pos + 1) (mk_args t [0]).

(** The C string at an offset of the text. *)
Fixpoint cstr (l : list Z) : option (list Z) :=
  match l with
  | [] => None
  | c :: l => if c =? 0 then Some [] else s ← cstr l; Some (c :: s)
  end.
Definition arg_at (a : k64_elf_args_t) (off : Z) : option (list Z) :=
  if decide (0 <= off) then cstr (drop (Z.to_nat off) (text a)) else None.

(** The options of the dynamic linker that take a value. *)
Definition linker_options : list (list Z) := [str "--library-path"; str "--preload"; str "--audit"; str "--argv0"].

Fixpoint skip_word (l : list Z) : list Z :=
  match l with c :: t => if blank_char c then l else skip_word t | [] => [] end.
Fixpoint word_of (n : nat) (l : list Z) : list Z :=
  match n, l with
  | S n, c :: t => if blank_char c then [] else c :: word_of n t
  | _, _ => []
  end.

Fixpoint process_loop (fuel : nat) (p : list Z) : option (option (list Z)) :=
  match skip_blanks p with
  | [] => Some None
  | p =>
      match fuel with
      | O => None
      | S fuel =>
          let token := word_of 127 p in
          let p := drop (length token) p in
          if existsb (fun o => streq token o) linker_options then process_loop fuel (skip_word (skip_blanks p))
          else match token with
               | 45 :: 45 :: _ => process_loop fuel p
               | _ => Some (Some token)
               end
      end
  end.

(** The name of the process, in an array of [out_size] bytes. *)
Definition elf_loader_process_path (path : list Z) (args : option (list Z)) (out_size : Z) : option (list Z) :=
  match args with
  | None => Some path
  | Some args =>
      d ← k64_strncmp (path ++ [0]) (str "/compat/linux/lib64/ld-linux" ++ [0]) 28;
      if negb (d =? 0) then Some path else
      r ← process_loop (length args) args;
      Some (match r with None => path | Some token => bounded_copy out_size (Some token) end)
  end.

(** ** Segments and the initial stack *)
Section loader.
Context {P : Type} `{!FrameAllocator P}.
Abbreviation V := (M (vmm P)).

(** The loop of [elf_execute_impl_ex] that maps the segments. *)
Fixpoint load_segments (user : bool) (file : list Z) (load_bias : Z) (l : list k64_elf64_phdr_t) : V unit :=
  match l with
  | [] => mret tt
  | ph :: l =>
      let load_vaddr := u64 (p_vaddr ph + load_bias) in
      (if is_load ph then
         let data := Some (drop (Z.to_nat (p_offset ph)) file) in
         if user then k64_vmm_map_user_range load_vaddr data (p_filesz ph) (p_memsz ph)
         else k64_vmm_map_private_range load_vaddr data (p_filesz ph) (p_memsz ph)
       else mret tt) ;;
      load_segments user file load_bias l
  end.

(** The pages of a segment that no segment of the image has mapped yet;
    [mapped] is the filled part of [mapped_pages]. *)
Fixpoint map_pages (n : nat) (page : Z) (mapped : list Z) : V (list Z) :=
  match n with
  | O => mret mapped
  | S n =>
      if bool_decide (page ∈ mapped) then map_pages n (u64 (page + K64_ELF_PAGE)) mapped
      else
        check (Z.of_nat (length mapped) <? 512) ;;
        k64_vmm_map_user_anon page K64_ELF_PAGE ;;
        map_pages n (u64 (page + K64_ELF_PAGE)) (mapped ++ [page])
  end.

Fixpoint map_loads_loop (user : bool) (file : list Z) (load_bias : Z) (l : list k64_elf64_phdr_t) (mapped : list Z) : V unit :=
  match l with
  | [] => mret tt
  | ph :: l =>
      let load_vaddr := u64 (p_vaddr ph + load_bias) in
      if is_load ph then
        if user then
          let page_start := Z.land load_vaddr (u64 (Z.lnot (K64_ELF_PAGE - 1))) in
          let page_end := elf_align_up (u64 (load_vaddr + p_memsz ph)) K64_ELF_PAGE in
          mapped ← map_pages (Z.to_nat ((page_end - page_start) / K64_ELF_PAGE)) page_start mapped;
          (if p_filesz ph =? 0 then mret tt
           else k64_vmm_write_user load_vaddr (Some (drop (Z.to_nat (p_offset ph)) file)) (p_filesz ph)) ;;
          map_loads_loop user file load_bias l mapped
        else
          k64_vmm_map_private_range load_vaddr (Some (drop (Z.to_nat (p_offset ph)) file)) (p_filesz ph) (p_memsz ph) ;;
          map_loads_loop user file load_bias l mapped
      else map_loads_loop user file load_bias l mapped
  end.

Definition elf_map_loads (user : bool) (file : list Z) (l : list k64_elf64_phdr_t) (load_bias : Z) : V unit :=
  map_loads_loop user file load_bias l [].

(** [sp -= n; k64_vmm_write_user(space, sp, bytes, n)] *)
Definition push_bytes (sp : Z) (bytes : list Z) : V Z :=
  let n := Z.of_nat (length bytes) in
  let sp := u64 (sp - n) in
  k64_vmm_write_user sp (Some bytes) n ;;
  mret sp.

(** Strings, the last one first: the new stack pointer and their addresses. *)
Fixpoint push_texts (sp : Z) (l : list (list Z)) : V (Z * list Z) :=
  match l with
  | [] => mret (sp, [])
  | s :: l =>
      '(sp, addrs) ← push_texts sp l;
      sp ← push_bytes sp (s ++ [0]);
      mret (sp, sp :: addrs)
  end.

(** Words, the last one first: they end up in order from the stack pointer on. *)
Fixpoint push_words (sp : Z) (l : list Z) : V Z :=
  match l with
  | [] => mret sp
  | w :: l =>
      sp ← push_words sp l;
      push_bytes sp (le_bytes 8 w)
  end.

Definition env : list (list Z) := [str "TERM=xterm"; str "PATH=/bin:/usr/bin:/usr/games:/compat/linux/bin"; str "HOME=/"].
Definition random_bytes : list Z := map (fun i => u8 (0x5A + Z.of_nat i)) (List.seq 0 16).

(** What the program is told about itself and its user. *)
Record aux_info := mk_aux {
  aux_entry : Z;
  aux_phdr : Z;
  aux_phnum : Z;
  aux_phentsize : Z;
  aux_base : Z;
  real_uid : Z;
  effective_uid : Z;
  effective_gid : Z
}.

Definition auxv (x : aux_info) (random_user execfn : Z) : list (Z * Z) :=
  [(3, aux_phdr x); (4, aux_phentsize x); (5, aux_phnum x); (6, K64_ELF_PAGE); (7, aux_base x); (8, 0); (9, aux_entry x);
   (11, real_uid x); (12, effective_uid x); (13, effective_gid x); (14, effective_gid x); (17, 100); (23, 0);
   (25, random_user); (31, execfn); (0, 0)].

(** The table from the final stack pointer on. *)
Definition stack_table (x : aux_info) (argv_user env_user : list Z) (random_user : Z) : list Z :=
  [Z.of_nat (length argv_user)] ++ argv_user ++ [0] ++ env_user ++ [0] ++
  concat (map (fun '(a, b) => [a; b]) (auxv x random_user (default 0 (argv_user !! 0%nat)))).

Definition elf_write_initial_stack (stack_top : Z) (a : k64_elf_args_t) (x : aux_info) : V Z :=
  check (1 <=? argc a) ;;
  args ← deref (mapM (arg_at a) (argv a));
  '(sp, argv_user) ← push_texts stack_top args;
  '(sp, env_user) ← push_texts sp env;
  random_user ← push_bytes sp random_bytes;
  let sp := Z.land random_user (u64 (Z.lnot 0xF)) in
  let table_bytes := 16 * 16 + 8 + 3 * 8 + (argc a + 1) * 8 + 8 in
  let final_mod := Z.land (u64 (sp - table_bytes)) 0xF in
  let sp := u64 (sp - final_mod) in
  push_words sp (stack_table x argv_user env_user random_user).
End loader.

(** ** Execution *)

(** The static variables of [k64_elf.c] and the machine below. *)
Record elf (P : Type) := mk_elf {
  vm : vmm P;
  elf_contexts : list (k64_vm_space_t * k64_elf_args_t);
  elf_context_depth : Z;
  elf_quiet_next : bool;
  next_ephemeral_pid : Z;
  next_dynamic_pid : Z
}.
Arguments mk_elf {P}.
Arguments vm {P}.
Arguments elf_contexts {P}.
Arguments elf_context_depth {P}.
Arguments elf_quiet_next {P}.
Arguments next_ephemeral_pid {P}.
Arguments next_dynamic_pid {P}.

Section execution.
Context {P : Type} `{!FrameAllocator P}.
Abbreviation L := (M (elf P)).

(** The contents of files, as [k64_fs_read_file_raw] reads them, and of the static
    [fs_raw_buffer] it reads them into, before the call; [k64_fs_stat] and
    [k64_user_can_access] for reading and execution; the identity of the caller; the start of a program in the
    context with the given index ([k64_usermode_execute_named_ex]) and of kernel
    code ([k64_vmm_call_isolated]). *)
Context (read_file : list Z -> option (list Z)) (fs_raw_buffer : list Z) (may_execute : list Z -> bool) (ids : Z * Z * Z).
Context (run_user : Z -> Z -> Z -> list Z -> Z -> Z -> L Z) (run_kernel : isolated_call -> L Z).

Definition set_depth (d : Z) (e : elf P) : elf P :=
  mk_elf (vm e) (elf_contexts e) d (elf_quiet_next e) (next_ephemeral_pid e) (next_dynamic_pid e).
Definition set_quiet (b : bool) (e : elf P) : elf P :=
  mk_elf (vm e) (elf_contexts e) (elf_context_depth e) b (next_ephemeral_pid e) (next_dynamic_pid e).
Definition set_pids (a b : Z) (e : elf P) : elf P :=
  mk_elf (vm e) (elf_contexts e) (elf_context_depth e) (elf_quiet_next e) a b.
Definition set_vm (v : vmm P) (l : list (k64_vm_space_t * k64_elf_args_t)) (e : elf P) : elf P :=
  mk_elf v l (elf_context_depth e) (elf_quiet_next e) (next_ephemeral_pid e) (next_dynamic_pid e).

(** A call of the memory manager about [&elf_contexts[i].space]. *)
Definition on_context {A} (i : Z) (m : M (vmm P) A) : L A := fun e =>
  match getZ (elf_contexts e) i with
  | None => Ub
  | Some (sp, args) =>
      let back v := set_vm v (<[Z.to_nat i := (space v, args)]> (elf_contexts e)) e in
      match m (set_space sp (vm e)) with
      | Ret a v => Ret a (back v)
      | Err v => Err (back v)
      | Ub => Ub
      end
  end.

Definition leave : L unit := modify (fun e => set_depth (elf_context_depth e - 1) e).

(** [k64_vmm_release_service_space(&ctx->space); elf_context_depth--;] *)
Definition discard (i : Z) : L unit := on_context i k64_vmm_release_service_space ;; leave.

(** [if (!m) { release; elf_context_depth--; return false; }] *)
Definition or_discard {A} (i : Z) (m : L A) : L A :=
  r ← try m;
  match r with
  | Some a => mret a
  | None => discard i ;; fail
  end.

(** [ctx = &elf_contexts[elf_context_depth++]], when there is a free context. *)
Definition enter : L Z :=
  e ← gets (fun e => e);
  let d := elf_context_depth e in
  check (negb ((d <? 0) || (K64_ELF_CONTEXT_MAX <=? d))) ;;
  modify (set_depth (d + 1)) ;;
  mret d.

Definition set_args (i : Z) (a : k64_elf_args_t) : L unit := fun e =>
  match getZ (elf_contexts e) i with
  | None => Ub
  | Some (sp, _) => Ret tt (set_vm (vm e) (<[Z.to_nat i := (sp, a)]> (elf_contexts e)) e)
  end.

(** The arguments of the context are parsed and put on the stack. *)
Definition prepare_stack (i : Z) (path : list Z) (args : option (list Z)) (x : aux_info) : L Z :=
  c ← gets (fun e => getZ (elf_contexts e) i);
  '(sp, old) ← deref c;
  a ← deref (elf_parse_args (text old) (Some path) args);
  set_args i a ;;
  or_discard i (on_context i (elf_write_initial_stack (u64 (stack_base sp + stack_size sp - 16)) a x)).

Definition info (h : k64_elf64_ehdr_t) (l : list k64_elf64_phdr_t) (entry bias base : Z) : aux_info :=
  let '(r, u, g) := ids in mk_aux entry (elf_phdr_vaddr h l bias) (e_phnum h) (e_phentsize h) base r u g.

Definition elf_execute_impl_ex (path : option (list Z)) (user : bool) (args : option (list Z)) (parent_pid pid : Z) : L unit :=
  modify (set_quiet false) ;;
  match path with
  | None | Some [] => fail
  | Some path =>
      check (negb user || may_execute path) ;;
      match read_file path with
      | None => fail
      | Some file =>
          match elf_header_valid file with
          | None => fail
          | Some h =>
              l ← deref (phdrs file h);
              let bias := if e_type h =? K64_ELF_DYN then K64_ELF_DYN_LOAD_BIAS else 0 in
              match scan_loop K64_ELF_USER_MIN (Z.of_nat (length file)) bias l UINT64_MAX 0 with
              | None => fail
              | Some (min_vaddr, max_vaddr) =>
                  let entry := u64 (e_entry h + bias) in
                  check (negb ((min_vaddr =? UINT64_MAX) || (max_vaddr <=? min_vaddr) || (entry <? min_vaddr) ||
                    (max_vaddr <=? entry) || (entry <? K64_ELF_USER_MIN) || (K64_ELF_USER_MAX <=? entry))) ;;
                  e ← gets (fun e => e);
                  let app_pid := elf_pid_for_entry (next_ephemeral_pid e) entry in
                  modify (set_pids (u64 (next_ephemeral_pid e + 1)) (next_dynamic_pid e)) ;;
                  i ← enter;
                  made ← try (on_context i (if user then k64_vmm_alloc_user_space app_pid else k64_vmm_alloc_service_space app_pid));
                  if absent made then leave ;; fail else
                  or_discard i (on_context i (load_segments user file bias l)) ;;
                  (if user then
                     mapped ← on_context i (gets (fun v => k64_vmm_is_mapped (ram v) (space v) entry true));
                     (if mapped : bool then mret tt else discard i ;; fail) ;;
                     sp ← prepare_stack i path args (info h l entry bias 0);
                     name ← deref (elf_loader_process_path path args 128);
                     run_user i entry sp name parent_pid pid
                   else
                     call ← on_context i (gets (fun v => k64_vmm_call_isolated (kernel_cr3 v) (Some (space v)) entry 0 0 0));
                     run_kernel call) ;;
                  discard i
              end
          end
      end
  end.

Definition k64_elf_execute_path (path : option (list Z)) : L unit := elf_execute_impl_ex path false (Some []) 0 0.
Definition k64_elf_execute_user_path (path : option (list Z)) : L unit := elf_execute_impl_ex path true (Some []) 0 0.
Definition k64_elf_execute_user_path_args (path args : option (list Z)) : L unit := elf_execute_impl_ex path true args 0 0.

(** [k64_fs_read_file_raw(path, &data, &size)] at the call sites: the file is read
    over the beginning of the static buffer [fs_raw_buffer], and [data] points to
    that buffer; the size and the buffer. *)
Definition read_raw (path raw : list Z) : option (nat * list Z) :=
  file ← read_file path;
  Some (length file, file ++ drop (length file) raw).

(** [main_data] and [interp_data] are both [fs_raw_buffer]: what they point to is
    what the buffer holds after the second read. *)
Definition k64_elf_execute_linux_dynamic (main_path argv0_path args interp_path : option (list Z)) : L unit :=
  match main_path, interp_path with
  | None, _ | Some [], _ | _, None | _, Some [] => fail
  | Some main_path, Some interp_path =>
      let argv0 := match argv0_path with None | Some [] => main_path | Some p => p end in
      match read_raw main_path fs_raw_buffer with
      | None => fail
      | Some (main_size, raw) =>
      match read_raw interp_path raw with
      | None => fail
      | Some (interp_size, raw) =>
      let main := take main_size raw in
      let interp := take interp_size raw in
      match elf_header_valid main, elf_header_valid interp with
      | Some mh, Some ih =>
          check (e_type ih =? K64_ELF_DYN) ;;
          ml ← deref (phdrs main mh);
          il ← deref (phdrs interp ih);
          let main_bias := if e_type mh =? K64_ELF_DYN then K64_ELF_MAIN_DYN_LOAD_BIAS else 0 in
          let main_entry := u64 (e_entry mh + main_bias) in
          let entry := e_entry ih in
          match elf_scan_loads (Z.of_nat (length main)) ml main_bias, elf_scan_loads (Z.of_nat (length interp)) il 0 with
          | Some (main_min, main_max), Some (interp_min, interp_max) =>
              check (negb ((main_entry <? main_min) || (main_max <=? main_entry) || (entry <? interp_min) || (interp_max <=? entry))) ;;
              check ((main_max <=? interp_min) || (interp_max <=? main_min)) ;;
              i ← enter;
              e ← gets (fun e => e);
              let pid := next_dynamic_pid e in
              modify (set_pids (next_ephemeral_pid e) (u64 (pid + 1))) ;;
              made ← try (on_context i (k64_vmm_alloc_user_space pid));
              if absent made then leave ;; fail else
              or_discard i (on_context i (elf_map_loads true main ml main_bias ;; elf_map_loads true interp il 0)) ;;
              sp ← prepare_stack i argv0 args (info mh ml main_entry main_bias 0);
              run_user i entry sp main_path 0 0 ;;
              discard i
          | _, _ => fail
          end
      | _, _ => fail
      end
      end
      end
  end.

Definition k64_elf_set_quiet_next (quiet : bool) : L unit := modify (set_quiet quiet).

Definition k64_elf_spawn_user_path_args (path args : option (list Z)) : L unit :=
  match path with None | Some [] => fail | Some _ => k64_elf_execute_user_path_args path args end.
Definition k64_elf_spawn_user_path (path : option (list Z)) : L unit := k64_elf_spawn_user_path_args path (Some []).
Definition k64_elf_spawn_user_path_args_ex (path args : option (list Z)) (parent_pid pid : Z) : L unit :=
  match path with None | Some [] => fail | Some _ => elf_execute_impl_ex path true args parent_pid pid end.
End execution.
