(* ===== verification/ElfStack.v ===== *)
(** * The arguments of a program ([elf_parse_args])

    The fixed array of 384 bytes ends up with the words of the command line, each
    as a C string, as many and as much of them as fit.

    The strings of the arguments and the environment, the random bytes and the
    table of words from the stack pointer on are all in place when the program
    starts. *)
From Stdlib Require Import ZArith Lia.
From stdpp Require Import base list gmap.
From S2P Require Import Prelude Exec KString Mem Pmm PmmSpec Frames Vmm VmmWalk VmmSpec VmmMap VmmUser VmmLoad VmmView Elf.

(** ** The words of a line *)
Fixpoint first_word (l : list Z) : list Z :=
  match l with c :: t => if blank_char c then [] else c :: first_word t | [] => [] end.

Fixpoint words (l : list Z) : list (list Z) :=
  match l with
  | [] => []
  | c :: t =>
      if blank_char c then words t
      else match t with
           | d :: _ => if blank_char d then [c] :: words t
                       else match words t with w :: ws => (c :: w) :: ws | [] => [[c]] end
           | [] => [[c]]
           end
  end.

(** The words that are stored in [room] bytes, at most [n]. *)
Fixpoint fit_words (n : nat) (room : Z) (ws : list (list Z)) : list (list Z) :=
  match n, ws with
  | S n, w :: ws =>
      if room <? 2 then []
      else if Z.of_nat (length w) + 1 <=? room then w :: fit_words n (room - Z.of_nat (length w) - 1) ws
      else [take (Z.to_nat (room - 1)) w]
  | _, _ => []
  end.

(** What the array holds. *)
Definition enc_args (ss : list (list Z)) : list Z := concat (map (fun s => s ++ [0]) ss).
Fixpoint offsets (pos : Z) (ss : list (list Z)) : list Z :=
  match ss with [] => [] | s :: ss => pos :: offsets (pos + Z.of_nat (length s) + 1) ss end.

Lemma arg_words_blank l : words l = words (skip_blanks l).
Proof. induction l as [|c l IH]; [done|]. cbn [words skip_blanks]. destruct (blank_char c) eqn:E; [done|]. cbn [words]. by rewrite E. Qed.

Lemma skip_blanks_head l c t : skip_blanks l = c :: t -> blank_char c = false.
Proof. induction l as [|d l IH]; [done|]. cbn [skip_blanks]. destruct (blank_char d) eqn:E; [done|]. by intros [= <- <-]. Qed.

Lemma arg_words_split l : match l with c :: _ => blank_char c = false | [] => False end ->
  words l = first_word l :: words (drop (length (first_word l)) l).
Proof.
  induction l as [|c l IH]; [done|]. intros Hc. cbn [words first_word]. rewrite Hc. cbn [length drop]. destruct l as [|d l]; [done|].
  destruct (blank_char d) eqn:E.
  - cbn [first_word]. rewrite E. cbn [length drop]. done.
  - specialize (IH eq_refl). rewrite IH. done.
Qed.

Lemma first_word_app l : exists r, l = first_word l ++ r /\ match r with c :: _ => blank_char c = true | [] => True end.
Proof.
  induction l as [|c l (r & IH & Hr)]; [by exists []|]. cbn [first_word]. destruct (blank_char c) eqn:E; [by exists (c :: l)|].
  exists r. split; [|done]. cbn. by f_equal.
Qed.

Lemma drop_first_word l r : l = first_word l ++ r -> drop (length (first_word l)) l = r.
Proof. intros H. rewrite H at 2. by rewrite drop_app_length. Qed.

(** ** Copying a word *)
Lemma copy_word_spec src : forall pre rest, (length pre + length rest = 384)%nat -> (0 < length rest)%nat -> exists rest',
  let w := take (383 - length pre) (first_word src) in
  copy_word src (pre ++ rest) (Z.of_nat (length pre)) =
    Some (drop (length w) src, pre ++ w ++ rest', Z.of_nat (length pre + length w)) /\
  (length pre + length w + length rest' = 384)%nat /\ (0 < length rest')%nat.
Proof.
  induction src as [|c src IH]; intros pre rest Hl Hr; cbn zeta; cbn [copy_word first_word].
  { exists rest. rewrite take_nil. cbn. rewrite Nat.add_0_r. split_and!; [done|lia|lia]. }
  destruct (blank_char c) eqn:E; cbn [negb andb].
  { exists rest. rewrite take_nil. cbn. rewrite Nat.add_0_r. split_and!; [done|lia|lia]. }
  unfold K64_ELF_ARG_TEXT_MAX. destruct (Z.ltb_spec (Z.of_nat (length pre) + 1) 384).
  - destruct rest as [|x rest]; [cbn in Hr; lia|]. cbn [length] in Hl.
    rewrite setZ_is_Some by (rewrite length_app; cbn [length]; lia). cbn [mbind option_bind]. rewrite Nat2Z.id.
    rewrite insert_app_r_alt by lia. rewrite Nat.sub_diag. cbn [insert list_insert].
    destruct (IH (pre ++ [c]) rest) as (rest' & Hc & H1 & H2); [rewrite length_app; cbn [length]; lia|lia|]. cbn zeta in Hc, H1.
    exists rest'. replace (383 - length pre)%nat with (S (383 - length (pre ++ [c]))) by (rewrite length_app; cbn [length]; lia).
    cbn [take length drop]. rewrite <- app_assoc in Hc. cbn [app] in Hc.
    replace (Z.of_nat (length pre) + 1) with (Z.of_nat (length (pre ++ [c]))) by (rewrite length_app; cbn [length]; lia).
    rewrite Hc. rewrite <- app_assoc. rewrite length_app in *. cbn [length] in *. split_and!; [|lia|lia]. f_equal. f_equal. lia.
  - exists rest. replace (383 - length pre)%nat with O by lia. cbn. rewrite Nat.add_0_r. split_and!; [done|lia|lia].
Qed.

(** A word with its terminator behind the words stored so far. *)
Lemma store_word_spec src pre rest : (length pre + length rest = 384)%nat -> (0 < length rest)%nat -> exists rest',
  let w := take (383 - length pre) (first_word src) in
  ('(a, t, pos) ← copy_word src (pre ++ rest) (Z.of_nat (length pre)); t ← setZ t pos 0; Some (a, t, pos)) =
    Some (drop (length w) src, (pre ++ w ++ [0]) ++ rest', Z.of_nat (length pre + length w)) /\
  (length (pre ++ w ++ [0%Z]) + length rest' = 384)%nat.
Proof.
  intros Hl Hr. destruct (copy_word_spec src pre rest Hl Hr) as (r & Hc & H1 & H2). cbn zeta in *. destruct r as [|x r]; [cbn in H2; lia|].
  exists r. rewrite Hc. cbn [mbind option_bind]. rewrite setZ_is_Some by (rewrite !length_app; cbn [length]; lia). cbn [mbind option_bind].
  rewrite !length_app. cbn [length] in *. split; [|lia]. do 3 f_equal. rewrite Nat2Z.id. rewrite app_assoc.
  rewrite insert_app_r_alt by (rewrite length_app; lia). rewrite length_app, Nat.sub_diag. cbn [insert list_insert]. by rewrite <- !app_assoc.
Qed.

(** ** The whole array *)
Lemma length_enc_snoc ss w : length (enc_args (ss ++ [w])) = (length (enc_args ss) + length w + 1)%nat.
Proof. unfold enc_args. rewrite map_app, concat_app, !length_app. cbn. rewrite app_nil_r, length_app. cbn. lia. Qed.

Lemma enc_snoc ss w : enc_args (ss ++ [w]) = enc_args ss ++ w ++ [0].
Proof. unfold enc_args. rewrite map_app, concat_app. cbn. by rewrite app_nil_r. Qed.

Lemma offsets_snoc ss w : forall pos, offsets pos (ss ++ [w]) = offsets pos ss ++ [pos + Z.of_nat (length (enc_args ss))].
Proof.
  induction ss as [|s ss IH]; intros pos; cbn [offsets app]; [f_equal; cbn; lia|].
  rewrite IH. cbn [app]. do 3 f_equal. unfold enc_args. cbn [map concat]. rewrite !length_app. cbn [length]. lia.
Qed.

Lemma length_offsets ss : forall pos, length (offsets pos ss) = length ss.
Proof. induction ss as [|s ss IH]; intros pos; cbn; [done|]. by rewrite IH. Qed.

Lemma length_skip_blanks l : (length (skip_blanks l) <= length l)%nat.
Proof. induction l as [|c l IH]; [done|]. cbn. destruct (blank_char c); cbn; lia. Qed.

(** The state of the array: the words [ss], each terminated, and their offsets. *)
Definition stores (a : k64_elf_args_t) (ss : list (list Z)) : Prop :=
  exists rest, text a = enc_args ss ++ rest /\ length (text a) = 384%nat /\ argv a = offsets 0 ss.

Lemma args_loop_spec fuel : forall args a ss, (length args <= fuel)%nat -> stores a ss -> (1 <= length ss <= 16)%nat ->
  exists a', args_loop fuel args (Z.of_nat (length (enc_args ss))) a = Some a' /\
    stores a' (ss ++ fit_words (16 - length ss) (384 - Z.of_nat (length (enc_args ss))) (words args)).
Proof.
  induction fuel as [|fuel IH]; intros args a ss Hf Ha Hn.
  { destruct args; [|cbn in Hf; lia]. exists a. split; [done|]. destruct (16 - length ss)%nat; cbn; by rewrite app_nil_r. }
  destruct args as [|c args]; [exists a; split; [done|]; destruct (16 - length ss)%nat; cbn; by rewrite app_nil_r|].
  cbn [args_loop]. destruct Ha as (rest & Ht & Hl & Hv). unfold argc. rewrite Hv, length_offsets.
  unfold K64_ELF_ARG_MAX, K64_ELF_ARG_TEXT_MAX.
  destruct (Z.ltb_spec (Z.of_nat (length ss)) 16) as [H16|H16]; cbn [andb];
    [|exists a; split; [done|]; replace (16 - length ss)%nat with O by lia; cbn; rewrite app_nil_r; by exists rest].
  replace (16 - length ss)%nat with (S (15 - length ss)) by lia.
  set (pre := enc_args ss) in *.
  destruct (Z.ltb_spec (Z.of_nat (length pre) + 1) 384) as [Hp|Hp].
  2:{ exists a. split; [done|]. cbn [fit_words]. destruct (words _); [|rewrite (proj2 (Z.ltb_lt _ _)) by lia]; rewrite app_nil_r; by exists rest. }
  rewrite (arg_words_blank (c :: args)). destruct (skip_blanks (c :: args)) as [|d r] eqn:Es.
  { exists a. split; [done|]. cbn. rewrite app_nil_r. by exists rest. }
  assert (Hd := skip_blanks_head _ _ _ Es). assert (Hle := length_skip_blanks (c :: args)). rewrite Es in Hle.
  rewrite (arg_words_split (d :: r)) by done. set (w := first_word (d :: r)).
  assert (Hrl : (length pre + length rest = 384)%nat) by (rewrite <- Hl, Ht, length_app; done).
  destruct (store_word_spec (d :: r) pre rest) as (rest' & Hc & Hl'); [done|lia|]. cbn zeta in Hc, Hl'. fold w in Hc, Hl'.
  rewrite Ht. destruct (copy_word (d :: r) (pre ++ rest) _) as [[[a1 t1] p1]|] eqn:Ec; cbn [mbind option_bind] in Hc |- *; [|done].
  destruct (setZ t1 p1 0) as [t2|] eqn:E2; cbn [mbind option_bind] in Hc |- *; [|done].
  injection Hc as -> -> ->. set (v := take (383 - length pre) w) in *.
  assert (Hv1 : (1 <= length v)%nat). { unfold v, w. cbn [first_word]. rewrite Hd, length_take. cbn [length]. lia. }
  destruct (IH (drop (length v) (d :: r)) (mk_args ((pre ++ v ++ [0]) ++ rest') (offsets 0 ss ++ [Z.of_nat (length pre)])) (ss ++ [v])) as (a' & Hr & Hs).
  - rewrite length_drop. cbn [length] in *. lia.
  - exists rest'. cbn [text argv]. rewrite enc_snoc. fold pre. split_and!; [done|by rewrite length_app|]. by rewrite offsets_snoc.
  - rewrite length_app. cbn [length]. lia.
  - exists a'. rewrite length_enc_snoc in Hr, Hs. fold pre in Hr, Hs.
    replace (Z.of_nat (length pre + length v) + 1) with (Z.of_nat (length pre + length v + 1)) by lia.
    split; [exact Hr|]. rewrite <- app_assoc in Hs. cbn [app] in Hs. cbn [fit_words]. rewrite (proj2 (Z.ltb_ge _ _)) by lia.
    rewrite length_app in Hs. cbn [length] in Hs. replace (16 - (length ss + 1))%nat with (15 - length ss)%nat in Hs by lia.
    destruct (Z.leb_spec (Z.of_nat (length w) + 1) (384 - Z.of_nat (length pre))) as [Hw|Hw].
    + assert (Hvw : v = w) by (apply take_ge; lia). rewrite Hvw in Hs.
      replace (384 - Z.of_nat (length pre) - Z.of_nat (length w) - 1) with (384 - Z.of_nat (length pre + length w + 1)) by lia. exact Hs.
    + assert (Hvl : length v = (383 - length pre)%nat) by (unfold v; rewrite length_take; lia).
      assert (Hnil : fit_words (15 - length ss) (384 - Z.of_nat (length pre + length v + 1)) (words (drop (length v) (d :: r))) = []).
      { destruct (15 - length ss)%nat; cbn [fit_words]; [done|]. destruct (words _); [done|]. rewrite (proj2 (Z.ltb_lt _ _)) by lia. done. }
      rewrite Hnil in Hs. replace (Z.to_nat (384 - Z.of_nat (length pre) - 1)) with (383 - length pre)%nat by lia. exact Hs.
Qed.

(** ** Reading the arguments back *)
Lemma cstr_app s r : no_nul s -> cstr (s ++ 0 :: r) = Some s.
Proof. induction 1 as [|c s Hc _ IH]; [done|]. cbn [app cstr]. rewrite (proj2 (Z.eqb_neq _ _)) by lia. by rewrite IH. Qed.

Lemma mapM_step {A B} (f : A -> option B) x l : mapM f (x :: l) = (y ← f x; ys ← mapM f l; Some (y :: ys)).
Proof. done. Qed.

Lemma stored_args ss : Forall no_nul ss -> forall a pre rest, text a = pre ++ enc_args ss ++ rest ->
  mapM (arg_at a) (offsets (Z.of_nat (length pre)) ss) = Some ss.
Proof.
  induction 1 as [|s ss Hs _ IH]; intros a pre rest Ht; [done|]. cbn [offsets]. rewrite mapM_step.
  assert (Ht' : text a = pre ++ s ++ 0 :: (enc_args ss ++ rest)).
  { rewrite Ht. unfold enc_args. cbn [map concat]. by rewrite <- !app_assoc. }
  assert (H1 : arg_at a (Z.of_nat (length pre)) = Some s).
  { unfold arg_at. rewrite decide_True by lia. by rewrite Ht', Nat2Z.id, drop_app_length, cstr_app. }
  rewrite H1. cbn [mbind option_bind].
  replace (Z.of_nat (length pre) + Z.of_nat (length s) + 1) with (Z.of_nat (length (pre ++ s ++ [0]))) by (rewrite !length_app; cbn [length]; lia).
  rewrite (IH a (pre ++ s ++ [0]) rest); [done|]. rewrite Ht'. by rewrite <- !app_assoc.
Qed.

Lemma stores_args a ss : stores a ss -> Forall no_nul ss -> mapM (arg_at a) (argv a) = Some ss.
Proof. intros (rest & Ht & _ & Hv) Hs. rewrite Hv. by apply (stored_args ss Hs a [] rest). Qed.

Lemma stores_size a ss : stores a ss -> argc a = Z.of_nat (length ss) /\ (length (enc_args ss) <= 384)%nat.
Proof.
  intros (rest & Ht & Hl & Hv). unfold argc. rewrite Hv, length_offsets. split; [done|].
  rewrite Ht, length_app in Hl. lia.
Qed.

Lemma no_nul_first_word s : no_nul s -> no_nul (first_word s).
Proof. induction 1 as [|c s Hc _ IH]; cbn; [constructor|]. destruct (blank_char c); by constructor. Qed.

Lemma no_nul_words s : no_nul s -> Forall no_nul (words s).
Proof.
  induction 1 as [|c s Hc Hs IH]; [constructor|]. cbn [words]. destruct (blank_char c); [done|].
  assert (Hone : no_nul [c]) by (apply Forall_singleton; done). destruct s as [|d s]; [by constructor|].
  destruct (blank_char d); [by constructor|]. destruct (words (d :: s)); [by constructor|].
  apply Forall_cons in IH as [Hw Hws]. constructor; [by constructor|done].
Qed.

Lemma no_nul_fit n : forall room ws, Forall no_nul ws -> Forall no_nul (fit_words n room ws).
Proof.
  induction n as [|n IH]; intros room ws H; [destruct ws; constructor|]. destruct ws as [|w ws]; [constructor|].
  apply Forall_cons in H as [Hw Hws]. cbn [fit_words]. destruct (_ <? _); [constructor|]. destruct (_ <=? _); [by constructor; [|apply IH]|].
  constructor; [by apply Forall_take|constructor].
Qed.

Lemma length_fit n : forall room ws, (length (fit_words n room ws) <= n)%nat.
Proof.
  induction n as [|n IH]; intros room ws; [by destruct ws|]. destruct ws as [|w ws]; cbn; [lia|].
  destruct (_ <? _); cbn; [lia|]. destruct (_ <=? _); cbn; [|lia]. specialize (IH (room - Z.of_nat (length w) - 1) ws). lia.
Qed.

(** The arguments of a program: its name, then the words of the line. *)
Definition arguments (path args : option (list Z)) : list (list Z) :=
  let w := take 383 (first_word (default [] path)) in
  w :: fit_words 15 (383 - Z.of_nat (length w)) (words (default [] args)).

Lemma elf_parse_args_stores t0 path args : length t0 = 384%nat ->
  exists a, elf_parse_args t0 path args = Some a /\ stores a (arguments path args).
Proof.
  intros Hl. unfold elf_parse_args, arguments. rewrite setZ_is_Some by lia. cbn [mbind option_bind].
  destruct (store_word_spec (default [] path) [] (<[Z.to_nat 0 := 0]> t0)) as (r & Hc & Hr); [cbn; by rewrite length_insert|rewrite length_insert; lia|].
  cbn zeta in Hc, Hr. rewrite Nat.sub_0_r in Hc, Hr. set (w := take 383 (first_word (default [] path))) in *. cbn [app length] in Hc, Hr.
  change (Z.of_nat 0) with 0 in Hc.
  destruct (copy_word _ _ 0) as [[[a1 t1] p1]|] eqn:Ec; cbn [mbind option_bind] in Hc |- *; [|done].
  destruct (setZ t1 p1 0) as [t2|] eqn:E2; cbn [mbind option_bind] in Hc |- *; [|done]. injection Hc as -> -> ->.
  assert (He : enc_args [w] = w ++ [0]) by (unfold enc_args; cbn; by rewrite app_nil_r).
  assert (Hw : length (enc_args [w]) = (length w + 1)%nat) by (rewrite He, length_app; done).
  destruct (args_loop_spec (length (default [] args)) (default [] args) (mk_args ((w ++ [0]) ++ r) [0]) [w]) as (a & Ha & Hs); [lia| |cbn; lia|].
  - exists r. cbn [text argv]. rewrite He. split_and!; [done|by rewrite length_app|done].
  - exists a. rewrite Hw in Ha, Hs. replace (Z.of_nat (length w) + 1) with (Z.of_nat (length w + 1)) by lia. split; [exact Ha|].
    cbn [length app] in Hs. replace (383 - Z.of_nat (length w)) with (384 - Z.of_nat (length w + 1)) by lia. exact Hs.
Qed.

(** For every program name and argument line, whatever the array held before,
    [elf_parse_args] succeeds, and what a program reads through [argv] is exactly
    the first word of the name followed by the words of the line in order: at
    most 16 in all, and the last one cut where the 384 bytes end. *)
Theorem elf_parse_args_words t0 path args : length t0 = 384%nat -> no_nul (default [] path) -> no_nul (default [] args) ->
  exists a, elf_parse_args t0 path args = Some a /\ mapM (arg_at a) (argv a) = Some (arguments path args) /\
    length (text a) = 384%nat /\ 1 <= argc a <= K64_ELF_ARG_MAX /\ Z.of_nat (length (enc_args (arguments path args))) <= K64_ELF_ARG_TEXT_MAX.
Proof.
  intros Hl Hp Ha. destruct (elf_parse_args_stores t0 path args Hl) as (a & He & Hs). exists a. split; [done|].
  destruct (stores_size _ _ Hs) as [Hc Hle]. assert (Hn := length_fit 15 (383 - Z.of_nat (length (take 383 (first_word (default [] path))))) (words (default [] args))).
  rewrite Hc. unfold K64_ELF_ARG_MAX, K64_ELF_ARG_TEXT_MAX. split_and!; [|by destruct Hs as (? & _ & ? & _)|cbn [arguments length]; lia|cbn [arguments length]; lia|lia].
  apply (stores_args _ _ Hs). constructor; [by apply Forall_take, no_nul_first_word|]. by apply no_nul_fit, no_nul_words.
Qed.

(** * The initial stack of a program ([elf_write_initial_stack]) *)
(** ** Bytes of a partial map *)
Definition holds_at (u : Z -> option Z) (a : Z) (bs : list Z) : Prop :=
  forall i b, bs !! i = Some b -> u (a + Z.of_nat i) = Some b.
Definition string_at (u : Z -> option Z) (a : Z) (s : list Z) : Prop := holds_at u a (s ++ [0]).

(** [u'] differs from [u] only inside [lo, hi), and is defined where [u] is. *)
Record same_outside (lo hi : Z) (u u' : Z -> option Z) : Prop := {
  same_out va : ~ (lo <= va < hi) -> u' va = u va;
  same_defined va : u va <> None -> u' va <> None
}.

Lemma same_outside_refl a u : same_outside a a u u.
Proof. by split. Qed.

Lemma same_outside_trans lo mid hi u1 u2 u3 : lo <= mid <= hi -> same_outside mid hi u1 u2 -> same_outside lo mid u2 u3 -> same_outside lo hi u1 u3.
Proof. intros H [O1 D1] [O2 D2]. split; [|by intros va Hd; apply D2, D1]. intros va Hva. rewrite O2, O1 by lia. done. Qed.

Lemma overlay_same u a bs : same_outside a (a + Z.of_nat (length bs)) u (overlay u a bs).
Proof.
  unfold overlay. split; intros va Hva; [by rewrite decide_False|]. case_decide; [|done].
  destruct (bs !! Z.to_nat (va - a)) eqn:E; [done|]. apply lookup_ge_None in E. lia.
Qed.

Lemma overlay_holds u a bs : holds_at (overlay u a bs) a bs.
Proof.
  intros i b Hi. unfold overlay. pose proof (lookup_lt_Some _ _ _ Hi). rewrite decide_True by lia.
  by replace (Z.to_nat (a + Z.of_nat i - a)) with i by lia.
Qed.

Lemma holds_kept lo hi u u' a bs : same_outside lo hi u u' -> hi <= a \/ a + Z.of_nat (length bs) <= lo -> holds_at u a bs -> holds_at u' a bs.
Proof. intros S Ha H i b Hi. pose proof (lookup_lt_Some _ _ _ Hi). rewrite (same_out _ _ _ _ S) by lia. by apply H. Qed.

Lemma holds_app u a b1 b2 : holds_at u a b1 -> holds_at u (a + Z.of_nat (length b1)) b2 -> holds_at u a (b1 ++ b2).
Proof.
  intros H1 H2 i b [Hi|[Hge Hi]]%lookup_app_Some; [by apply H1|].
  replace (a + Z.of_nat i) with (a + Z.of_nat (length b1) + Z.of_nat (i - length b1)) by lia. by apply H2.
Qed.

(** A string of the stack between two addresses. *)
Definition string_within (lo hi : Z) (u : Z -> option Z) (a : Z) (s : list Z) : Prop :=
  lo <= a /\ a + Z.of_nat (length s) + 1 <= hi /\ string_at u a s.

Lemma string_kept lo mid hi u u' : same_outside lo mid u u' -> lo <= mid -> forall addrs l,
  Forall2 (string_within mid hi u) addrs l -> Forall2 (string_within lo hi u') addrs l.
Proof.
  intros S Hlm addrs l H. induction H as [|a s addrs l (H1 & H2 & H3) _ IH]; constructor; [|done].
  split_and!; [lia|lia|]. eapply holds_kept; [exact S|left; lia|done].
Qed.

Lemma string_mono lo hi lo' hi' u addrs l : lo' <= lo -> hi <= hi' ->
  Forall2 (string_within lo hi u) addrs l -> Forall2 (string_within lo' hi' u) addrs l.
Proof. intros H1 H2 H. eapply Forall2_impl; [exact H|]. intros a t (? & ? & ?). split_and!; [lia|lia|done]. Qed.

Definition words_bytes (l : list Z) : list Z := concat (map (le_bytes 8) l).
Lemma length_words_bytes l : Z.of_nat (length (words_bytes l)) = 8 * Z.of_nat (length l).
Proof. unfold words_bytes. induction l as [|w l IH]; [done|]. cbn [map concat]. rewrite length_app, le_bytes_length. cbn [length]. lia. Qed.

Lemma mask16 e : word e -> Z.land e (u64 (Z.lnot 0xF)) = 16 * (e / 16).
Proof.
  intros [H1 H2]. change (u64 (Z.lnot 0xF)) with (Z.ldiff (Z.ones 64) (Z.ones 4)).
  rewrite mask_div by lia. change (2 ^ 64) with 18446744073709551616. rewrite Z.mod_small by lia. done.
Qed.

Section stack.
Context {P : Type} `{!FrameAllocator P}.
Implicit Types s : vmm P.

(** The stack may be written from [lo] to [hi]. *)
Record stack_ok s (u : Z -> option Z) (lo hi : Z) : Prop := {
  stk_space : space_ok s;
  stk_view : view true s u;
  stk_range : 0 <= lo /\ hi <= VA_LIMIT;
  stk_def va : lo <= va < hi -> u va <> None
}.

(** A step that wrote below [hi] down to [mid]. *)
Definition wrote s (u : Z -> option Z) (mid hi : Z) s' (u' : Z -> option Z) : Prop :=
  advanced true s s' /\ view true s' u' /\ same_outside mid hi u u' /\ same_trans s s'.

Lemma wrote_ok s u lo top mid hi s' u' : stack_ok s u lo top -> wrote s u mid hi s' u' -> stack_ok s' u' lo top.
Proof.
  intros [S V R D] (A & V' & O & _). split; [apply A|done|done|]. intros va Hva. by apply O, D.
Qed.

Lemma wrote_trans s1 u1 s2 u2 s3 u3 lo mid hi : lo <= mid <= hi -> wrote s1 u1 mid hi s2 u2 -> wrote s2 u2 lo mid s3 u3 -> wrote s1 u1 lo hi s3 u3.
Proof.
  intros H (A1 & V1 & O1 & T1) (A2 & V2 & O2 & T2). split_and!; [by eapply advanced_trans|done|by eapply same_outside_trans|].
  intros va acc. by rewrite T2, T1.
Qed.

Lemma push_bytes_spec s u lo top sp bytes : stack_ok s u lo top -> bytes_ok bytes -> lo <= sp - Z.of_nat (length bytes) -> sp <= top ->
  wp (push_bytes sp bytes) (fun r s' => r = sp - Z.of_nat (length bytes) /\ exists u', wrote s u r sp s' u' /\ holds_at u' r bytes)
    (fun _ => False) s.
Proof.
  intros [S V [R1 R2] D] Hb Hlo Hhi. unfold push_bytes. unfold VA_LIMIT in R2. rewrite u64_small by lia. wp_step.
  eapply wp_mono; [apply (write_user_view s u (sp - Z.of_nat (length bytes)) bytes S V Hb); [lia|unfold VA_LIMIT; lia|]| |done].
  - intros i Hi. apply D. lia.
  - intros [] s' [[A V'] T]. wp_step. split; [done|]. exists (overlay u (sp - Z.of_nat (length bytes)) bytes). split; [|apply overlay_holds].
    split_and!; [done|done| |done]. pose proof (overlay_same u (sp - Z.of_nat (length bytes)) bytes) as O.
    by replace (sp - Z.of_nat (length bytes) + Z.of_nat (length bytes)) with sp in O by lia.
Qed.

Lemma push_texts_spec s u lo top sp l : stack_ok s u lo top -> Forall bytes_ok l -> lo <= sp - Z.of_nat (length (enc_args l)) -> sp <= top ->
  wp (push_texts sp l) (fun '(r, addrs) s' => r = sp - Z.of_nat (length (enc_args l)) /\
    exists u', wrote s u r sp s' u' /\ Forall2 (string_within r sp u') addrs l) (fun _ => False) s.
Proof.
  intros St Hl. induction Hl as [|t l Ht Hl IH]; intros Hlo Hhi; cbn [push_texts].
  { wp_step. cbn [enc_args map concat length]. change (Z.of_nat 0) with 0. rewrite Z.sub_0_r. split; [done|]. exists u. split; [|constructor].
    by split_and!; [apply advanced_refl, St|apply St|apply same_outside_refl|]. }
  assert (He : Z.of_nat (length (enc_args (t :: l))) = Z.of_nat (length (enc_args l)) + Z.of_nat (length (t ++ [0]))).
  { unfold enc_args. cbn [map concat]. rewrite length_app. lia. }
  rewrite He in *. wp_step. eapply wp_mono; [apply IH; lia| |done]. intros [r addrs] s1 (-> & u1 & W1 & F1). wp_step.
  eapply wp_mono; [apply (push_bytes_spec s1 u1 lo top); [by eapply wrote_ok| |lia|lia]| |done].
  { apply Forall_app_2; [done|]. apply Forall_singleton. unfold byte_ok. lia. }
  intros r s2 (-> & u2 & W2 & H2). wp_step. split; [lia|]. exists u2. split; [eapply wrote_trans; [|exact W1|exact W2]; lia|].
  rewrite length_app in *. cbn [length] in *. constructor; [split_and!; [lia|lia|exact H2]|]. eapply string_kept; [apply W2|lia|exact F1].
Qed.

Lemma push_table_spec s u lo top sp l : stack_ok s u lo top -> lo <= sp - 8 * Z.of_nat (length l) -> sp <= top ->
  wp (push_words sp l) (fun r s' => r = sp - 8 * Z.of_nat (length l) /\ exists u', wrote s u r sp s' u' /\ holds_at u' r (words_bytes l))
    (fun _ => False) s.
Proof.
  intros St. induction l as [|w l IH]; intros Hlo Hhi; cbn [push_words].
  { wp_step. cbn [length]. change (8 * Z.of_nat 0) with 0. rewrite Z.sub_0_r. split; [done|]. exists u. split; [|by intros [] b H].
    by split_and!; [apply advanced_refl, St|apply St|apply same_outside_refl|]. }
  cbn [length] in Hlo |- *. wp_step. eapply wp_mono; [apply IH; lia| |done]. intros r s1 (-> & u1 & W1 & H1).
  eapply wp_mono; [apply (push_bytes_spec s1 u1 lo top); [by eapply wrote_ok|apply le_bytes_ok|rewrite le_bytes_length; lia|lia]| |done].
  rewrite le_bytes_length. intros r s2 (-> & u2 & W2 & H2). split; [lia|]. exists u2. split; [eapply wrote_trans; [|exact W1|exact W2]; lia|].
  unfold words_bytes. cbn [map concat]. apply holds_app; [exact H2|]. rewrite le_bytes_length.
  replace (sp - 8 * Z.of_nat (length l) - Z.of_nat 8 + Z.of_nat 8) with (sp - 8 * Z.of_nat (length l)) by lia.
  eapply holds_kept; [apply W2|left; lia|exact H1].
Qed.

(** What a program finds on its stack: the table of words at [sp], and the strings
    and bytes its pointers lead to. *)
Record initial_stack (u : Z -> option Z) (sp top : Z) (args : list (list Z)) (x : aux_info) : Prop := {
  is_aligned : sp mod 16 = 0;
  is_table : exists argv_user env_user random_user,
    holds_at u sp (words_bytes (stack_table x argv_user env_user random_user)) /\
    Forall2 (string_within sp top u) argv_user args /\
    Forall2 (string_within sp top u) env_user env /\
    sp <= random_user /\ random_user + 16 <= top /\ holds_at u random_user random_bytes
}.

Lemma length_table x argv_user env_user random_user : (1 <= length argv_user)%nat -> length env_user = 3%nat ->
  Z.of_nat (length (stack_table x argv_user env_user random_user)) = 38 + Z.of_nat (length argv_user).
Proof. intros Ha He. unfold stack_table. rewrite !length_app. set (n := length (concat _)). assert (n = 32%nat) by reflexivity. cbn [length]. lia. Qed.

Lemma env_ok : Forall bytes_ok env /\ Z.of_nat (length (enc_args env)) = 66.
Proof. split; [|reflexivity]. repeat (apply List.Forall_nil || apply List.Forall_cons); vm_compute; split; congruence. Qed.

Lemma random_ok : bytes_ok random_bytes /\ length random_bytes = 16%nat.
Proof. split; [|reflexivity]. repeat (apply List.Forall_nil || apply List.Forall_cons); vm_compute; split; congruence. Qed.

(** The stack pointer below the strings, from which the table ends at a multiple
    of 16. *)
Lemma table_pointer r n : 0 <= n -> 16 * (n + 40) <= r < VA_LIMIT ->
  let sp := Z.land r (u64 (Z.lnot 0xF)) in
  let tb := 16 * 16 + 8 + 3 * 8 + (n + 1) * 8 + 8 in
  let q := u64 (sp - Z.land (u64 (sp - tb)) 0xF) in
  r - 30 <= q <= r /\ (q - 8 * (38 + n)) mod 16 = 0.
Proof.
  intros Hn Hr sp tb q. unfold VA_LIMIT in Hr. unfold q, sp. rewrite mask16 by (unfold word; lia).
  rewrite (u64_small (_ - tb)) by (unfold tb; dmlia). change 0xF with (Z.ones 4). rewrite Z.land_ones by lia. change (2 ^ 4) with 16.
  rewrite u64_small by dmlia. unfold tb. dmlia.
Qed.

Lemma elf_write_initial_stack_spec s u top a ss x : stores a ss -> Forall no_nul ss -> (1 <= length ss <= 16)%nat ->
  stack_ok s u (top - 1024) top -> 1024 <= top - 1024 ->
  wp (elf_write_initial_stack top a x) (fun sp s' => top - 1024 <= sp <= top /\
    exists u', wrote s u sp top s' u' /\ initial_stack u' sp top ss x) (fun _ => False) s.
Proof.
  intros Hs Hn Hc St Htop. pose proof (stores_size _ _ Hs) as [Ha Hle]. unfold elf_write_initial_stack. rewrite Ha.
  wp_step. apply wp_check; [intros _|rewrite (proj2 (Z.leb_le _ _)) by lia; done].
  wp_step. eapply wp_deref; [by apply stores_args|]. wp_step.
  assert (Hb : Forall bytes_ok ss). { eapply Forall_impl; [exact Hn|]. intros t Ht. eapply Forall_impl; [exact Ht|]. unfold byte_ok. cbv beta. lia. }
  destruct env_ok as [Eb El], random_ok as [Rb Rl]. pose proof (proj2 (stk_range _ _ _ _ St)) as Hlim.
  eapply wp_mono; [apply (push_texts_spec s u (top - 1024) top top ss St Hb); lia| |done]. intros [r1 argv_user] s1 (Hr1 & u1 & W1 & F1). wp_step.
  assert (St1 := wrote_ok _ _ _ _ _ _ _ _ St W1).
  eapply wp_mono; [apply (push_texts_spec s1 u1 (top - 1024) top r1 env St1 Eb); lia| |done]. intros [r2 env_user] s2 (Hr2 & u2 & W2 & F2). wp_step.
  assert (St2 := wrote_ok _ _ _ _ _ _ _ _ St1 W2).
  eapply wp_mono; [apply (push_bytes_spec s2 u2 (top - 1024) top r2 _ St2 Rb); lia| |done]. rewrite Rl. intros r3 s3 (Hr3 & u3 & W3 & H3).
  assert (St3 := wrote_ok _ _ _ _ _ _ _ _ St2 W3).
  destruct (table_pointer r3 (Z.of_nat (length ss))) as [Hq1 Hq2]; [lia|lia|]. cbv zeta in Hq1, Hq2 |- *.
  set (q := u64 _) in *. clearbody q. pose proof (Forall2_length _ _ _ F1) as L1. pose proof (Forall2_length _ _ _ F2) as L2.
  assert (HL := length_table x argv_user env_user r3 ltac:(lia) L2). rewrite L1 in HL.
  eapply wp_mono; [apply (push_table_spec s3 u3 (top - 1024) top q _ St3); rewrite ?HL; lia| |done].
  intros sp s4 (Hsp & u4 & W4 & H4). rewrite HL in Hsp. split; [lia|]. exists u4.
  assert (O4 : same_outside sp r3 u3 u4). { destruct W4 as (_ & _ & [O D] & _). split; [|done]. intros va Hva. apply O. lia. }
  split.
  - eapply (wrote_trans s u s1 u1 s4 u4 sp r1); [lia|exact W1|]. eapply (wrote_trans s1 u1 s2 u2 s4 u4 sp r2); [lia|exact W2|].
    eapply (wrote_trans s2 u2 s3 u3 s4 u4 sp r3); [lia|exact W3|]. split_and!; [apply W4|apply W4|exact O4|apply W4].
  - split; [by rewrite Hsp|]. exists argv_user, env_user, r3. split_and!; [exact H4| | |lia|lia|].
    + eapply string_kept; [exact O4|lia|]. eapply string_kept; [apply W3|lia|]. eapply string_kept; [apply W2|lia|exact F1].
    + eapply (string_mono sp r1 sp top); [lia|lia|]. eapply string_kept; [exact O4|lia|]. eapply string_kept; [apply W3|lia|exact F2].
    + eapply holds_kept; [exact O4|left; lia|exact H3].
Qed.
End stack.
