(* ===== verification/ElfLoad.v ===== *)
(** * Loading programs

    What the checks of the headers establish, and what the two loaders make of an
    accepted file: [load_segments] of [elf_execute_impl_ex] and [elf_map_loads] of
    [k64_elf_execute_linux_dynamic]. *)
From Stdlib Require Import ZArith Lia.
From stdpp Require Import base list gmap.
From S2P Require Import Prelude Exec KString Mem Pmm PmmSpec Frames Vmm VmmWalk VmmSpec VmmMap VmmUser VmmLoad VmmView Elf ElfStack.

(** ** Headers *)
Record phdr_ok (ph : k64_elf64_phdr_t) : Prop := {
  ph_vaddr : word (p_vaddr ph);
  ph_offset : word (p_offset ph);
  ph_filesz : word (p_filesz ph);
  ph_memsz : word (p_memsz ph)
}.

Lemma le_word n l : (n <= 8)%nat -> bytes_ok l -> word (le_value (take n l)).
Proof.
  intros Hn Hl. assert (H : bytes_ok (take n l)) by (by apply Forall_take). apply le_value_range in H.
  assert (256 ^ Z.of_nat (length (take n l)) <= 256 ^ 8) by (apply Z.pow_le_mono_r; [lia|rewrite length_take; lia]).
  change (256 ^ 8) with 18446744073709551616 in *. unfold word. lia.
Qed.

Lemma dec_phdr_ok bs : bytes_ok bs -> phdr_ok (dec_phdr bs).
Proof. intros H. unfold dec_phdr, get_le. split; cbn [p_vaddr p_offset p_filesz p_memsz]; apply le_word; (lia || by repeat apply Forall_drop). Qed.

Lemma dec_ehdr_ok bs : bytes_ok bs -> word (e_phoff (dec_ehdr bs)) /\ 0 <= e_phnum (dec_ehdr bs) < 65536 /\ word (e_entry (dec_ehdr bs)).
Proof.
  intros H. unfold dec_ehdr, get_le, get_raw. cbn [e_phoff e_phnum e_entry]. split_and!.
  1, 4: apply le_word; (lia || by repeat apply Forall_drop).
  all: set (l := take 2 _); assert (Hl : bytes_ok l) by (apply Forall_take; by repeat apply Forall_drop); pose proof (le_value_range l Hl);
    assert (256 ^ Z.of_nat (length l) <= 256 ^ 2) by (apply Z.pow_le_mono_r; [lia|unfold l; rewrite length_take; lia]); change (256 ^ 2) with 65536 in *; lia.
Qed.

Lemma add_fits a b : word a -> word b -> elf_add_overflows a b = false -> a + b < 18446744073709551616.
Proof.
  unfold word, elf_add_overflows, u64. intros Ha Hb H%Z.ltb_ge. destruct (decide (a + b < 18446744073709551616)); [done|exfalso].
  replace (a + b) with ((a + b - 18446744073709551616) + 1 * 18446744073709551616) in H by lia. rewrite Z.mod_add, Z.mod_small in H by lia. lia.
Qed.

(** An accepted header has its table of program headers inside the file. *)
Lemma header_valid_table file h : bytes_ok file -> elf_header_valid file = Some h ->
  0 < e_phnum h < 65536 /\ 0 <= e_phoff h /\ e_phoff h + e_phnum h * 56 <= Z.of_nat (length file) /\ word (e_entry h) /\ h = dec_ehdr (take 64 file).
Proof.
  intros Hf. unfold elf_header_valid. destruct (_ <? sizeof_ehdr); [done|]. destruct (dec_ehdr_ok (take 64 file)) as (Hp & Hn & He); [by apply Forall_take|].
  set (d := dec_ehdr (take 64 file)) in *. destruct (_ || negb (e_machine d =? K64_ELF_X86_64)); [done|].
  destruct (_ || (_ <? _)) eqn:E; [done|]. intros [= <-]. apply orb_false_iff in E as [[[_ E2%Z.eqb_neq]%orb_false_iff E3]%orb_false_iff E4%Z.ltb_ge].
  unfold sizeof_phdr in *. apply add_fits in E3; [|done|unfold word; lia]. destruct Hp. rewrite u64_small in E4 by lia. split_and!; try lia; done.
Qed.

Lemma read_phdrs_ok file h : bytes_ok file -> 0 <= e_phoff h -> forall n i, 0 <= i -> e_phoff h + (i + Z.of_nat n) * 56 <= Z.of_nat (length file) ->
  exists l, read_phdrs n file h i = Some l /\ Forall phdr_ok l.
Proof.
  intros Hf Hp. induction n as [|n IH]; intros i Hi Hle; [by exists []|]. cbn [read_phdrs]. unfold sizeof_phdr.
  rewrite take_bytes_Some by lia. cbn [mbind option_bind]. destruct (IH (i + 1)) as (l & -> & Hl); [lia|lia|]. cbn [mbind option_bind].
  eexists. split; [reflexivity|]. constructor; [|done]. by apply dec_phdr_ok, bytes_ok_slice.
Qed.

Lemma phdrs_ok file h : bytes_ok file -> elf_header_valid file = Some h -> exists l, phdrs file h = Some l /\ Forall phdr_ok l.
Proof. intros Hf Hh. destruct (header_valid_table file h Hf Hh) as (Hn & Hp & Hle & _). apply read_phdrs_ok; [done|lia|lia|lia]. Qed.

(** ** Segments *)
Definition seg_vaddr (bias : Z) (ph : k64_elf64_phdr_t) : Z := u64 (p_vaddr ph + bias).
Definition seg_data (file : list Z) (ph : k64_elf64_phdr_t) : list Z := drop (Z.to_nat (p_offset ph)) file.

(** A segment that lies in the file and in the part of the address space that is
    left to programs. *)
Record fits (lo : Z) (file : list Z) (bias : Z) (ph : k64_elf64_phdr_t) : Prop := {
  fit_size : 0 <= p_filesz ph <= p_memsz ph /\ 0 < p_memsz ph <= K64_ELF_SEGMENT_MAX;
  fit_file : 0 <= p_offset ph /\ p_offset ph + p_filesz ph <= Z.of_nat (length file);
  fit_addr : lo <= seg_vaddr bias ph /\ seg_vaddr bias ph + p_memsz ph <= K64_ELF_USER_MAX
}.

Lemma seg_vaddr_word bias ph : word (seg_vaddr bias ph).
Proof. apply u64_range. Qed.

Lemma segment_valid_fits lo file bias ph : phdr_ok ph -> is_load ph = true -> segment_valid lo (Z.of_nat (length file)) bias ph = true -> fits lo file bias ph.
Proof.
  intros [Hv Ho Hf Hm] [_ Hl%negb_true_iff%Z.eqb_neq]%andb_true_iff. unfold segment_valid. fold (seg_vaddr bias ph).
  intros H. repeat (apply andb_true_iff in H as [H ?]). repeat match goal with X : negb _ = true |- _ => apply negb_true_iff in X end.
  repeat match goal with X : (_ <? _) = false |- _ => apply Z.ltb_ge in X end. pose proof (seg_vaddr_word bias ph) as Hw.
  repeat match goal with X : elf_add_overflows (p_offset ph) _ = false |- _ => apply add_fits in X; [|done|done] end.
  destruct Ho as [Ho1 Ho2], Hf as [Hf1 Hf2], Hm as [Hm1 Hm2]. rewrite u64_small in * by lia. unfold elf_range_valid in *.
  destruct ((p_memsz ph =? 0) || elf_add_overflows (seg_vaddr bias ph) (p_memsz ph)) eqn:E; [done|].
  apply orb_false_iff in E as [_ E]. apply add_fits in E; [|done|by split].
  match goal with X : (lo <=? _) && _ = true |- _ => apply andb_true_iff in X as [X1%Z.leb_le X2%Z.leb_le] end.
  rewrite u64_small in X2 by (unfold word in *; lia). split; [lia|lia|lia].
Qed.

(** The limits of the pages of a segment. *)
Lemma align_up_page v : 0 <= v <= K64_ELF_USER_MAX -> elf_align_up v K64_ELF_PAGE = 4096 * ((v + 4095) / 4096).
Proof.
  intros H. unfold elf_align_up, K64_ELF_PAGE, K64_ELF_USER_MAX in *. replace (v + 4096 - 1) with (v + 4095) by lia.
  rewrite u64_small by lia. change (u64 (Z.lnot (4096 - 1))) with K64_PAGE_MASK. apply page_mask. unfold word. lia.
Qed.

Lemma align_down_page v : word v -> Z.land v (u64 (Z.lnot (K64_ELF_PAGE - 1))) = 4096 * (v / 4096).
Proof. apply page_mask. Qed.

(** An accepted scan: every segment fits, and its pages lie between the limits. *)
Lemma scan_loop_spec lo file bias : 0 <= lo -> forall l mn mx mn' mx', Forall phdr_ok l ->
  scan_loop lo (Z.of_nat (length file)) bias l mn mx = Some (mn', mx') -> mn' <= mn /\ mx <= mx' /\
  forall ph, ph ∈ l -> is_load ph = true -> fits lo file bias ph /\
    forall va, page_range (seg_vaddr bias ph) (p_memsz ph) va -> mn' <= va < mx'.
Proof.
  intros Hlo. induction l as [|ph l IH]; intros mn mx mn' mx' Hl; cbn [scan_loop].
  { intros [= <- <-]. split_and!; [lia|lia|]. intros ph H. by apply not_elem_of_nil in H. }
  apply Forall_cons in Hl as [Hph Hl]. destruct (is_load ph) eqn:E.
  - destruct (segment_valid _ _ _ ph) eqn:Ev; [|done]. fold (seg_vaddr bias ph). intros H.
    destruct (IH _ _ _ _ Hl H) as (H1 & H2 & H3). pose proof (segment_valid_fits lo file bias ph Hph E Ev) as F.
    pose proof F as [[F1 F2] _ F3]. pose proof (seg_vaddr_word bias ph) as [W1 W2]. unfold K64_ELF_USER_MAX in F3.
    rewrite align_down_page in H1 by done. rewrite u64_small, align_up_page in H2 by (unfold K64_ELF_USER_MAX; lia).
    assert (Hmm : mn' <= mn /\ mn' <= 4096 * (seg_vaddr bias ph / 4096)) by (destruct (Z.ltb_spec (4096 * (seg_vaddr bias ph / 4096)) mn); lia).
    assert (HMM : mx <= mx' /\ 4096 * ((seg_vaddr bias ph + p_memsz ph + 4095) / 4096) <= mx')
      by (destruct (Z.ltb_spec mx (4096 * ((seg_vaddr bias ph + p_memsz ph + 4095) / 4096))); lia).
    split_and!; [lia|lia|]. intros q [->|Hq]%elem_of_cons Hload; [|by apply H3]. split; [done|]. intros va Hva. unfold page_range in Hva. lia.
  - intros H. destruct (IH _ _ _ _ Hl H) as (H1 & H2 & H3). split_and!; [lia|lia|].
    intros q [->|Hq]%elem_of_cons Hload; [congruence|by apply H3].
Qed.

(** Segments stay below 2 GiB, where the pages of programs are. *)
Lemma fits_pages lo file bias ph va : 0 <= lo -> fits lo file bias ph -> page_range (seg_vaddr bias ph) (p_memsz ph) va -> 0 <= va < K64_ELF_USER_MAX.
Proof. intros Hlo [_ _ F] H. unfold page_range, K64_ELF_USER_MAX in *. dmlia. Qed.

(** ** The image of a program *)

(** [elf_execute_impl_ex]: each segment in turn, page by page. *)
Definition segment_image (file : list Z) (bias : Z) (u : Z -> option Z) (ph : k64_elf64_phdr_t) : Z -> option Z :=
  if is_load ph then loaded_range u (seg_vaddr bias ph) (seg_data file ph) (p_filesz ph) (p_memsz ph) else u.
Definition program_image (file : list Z) (bias : Z) (l : list k64_elf64_phdr_t) (u : Z -> option Z) : Z -> option Z :=
  fold_left (segment_image file bias) l u.

(** [elf_map_loads]: the bytes of the file, the last segment first, and zero in the
    rest of the pages. *)
Definition file_range (bias : Z) (ph : k64_elf64_phdr_t) (va : Z) : Prop := seg_vaddr bias ph <= va < seg_vaddr bias ph + p_filesz ph.
#[export] Instance file_range_dec bias ph va : Decision (file_range bias ph va).
Proof. unfold file_range. apply _. Defined.

Definition segment_byte (file : list Z) (bias va : Z) (o : option Z) (ph : k64_elf64_phdr_t) : option Z :=
  if is_load ph && bool_decide (file_range bias ph va) then seg_data file ph !! Z.to_nat (va - seg_vaddr bias ph) else o.
Definition file_byte (file : list Z) (bias : Z) (l : list k64_elf64_phdr_t) (va : Z) : option Z := fold_left (segment_byte file bias va) l None.

Definition in_segment (bias va : Z) (ph : k64_elf64_phdr_t) : bool := is_load ph && bool_decide (page_range (seg_vaddr bias ph) (p_memsz ph) va).
Definition in_image (bias : Z) (l : list k64_elf64_phdr_t) (va : Z) : bool := existsb (in_segment bias va) l.

Definition merged_image (file : list Z) (bias : Z) (l : list k64_elf64_phdr_t) (u : Z -> option Z) (va : Z) : option Z :=
  match file_byte file bias l va with
  | Some b => Some b
  | None => if in_image bias l va then Some 0 else u va
  end.

(** Addresses that programs may use are open to the user. *)
Definition open_low {P} (s : vmm P) : Prop := forall va, 0 <= va < K64_ELF_USER_MAX -> user_path (ram s) (cr3 (space s)) va.

Section load.
Context {P : Type} `{!FrameAllocator P}.
Implicit Types s : vmm P.

Lemma advanced_open acc s s' : advanced acc s s' -> (acc = true -> open_low s) -> acc = true -> open_low s'.
Proof. intros A H Ha va Hva. apply (adv_path _ _ _ A _ Ha). by apply H. Qed.

Lemma seg_data_length lo file bias ph : fits lo file bias ph -> p_filesz ph <= Z.of_nat (length (seg_data file ph)).
Proof. intros [_ [H1 H2] _]. unfold seg_data. rewrite length_drop. lia. Qed.

Lemma load_segments_spec (user : bool) file bias lo : bytes_ok file -> 0 <= lo -> forall l s u,
  (forall ph, ph ∈ l -> is_load ph = true -> fits lo file bias ph) -> space_ok s -> view user s u -> (user = true -> open_low s) ->
  wp (load_segments user file bias l) (fun _ s' => advanced user s s' /\ view user s' (program_image file bias l u))
    (fun s' => exists nt np, took nt np s s') s.
Proof.
  intros Hf Hlo. induction l as [|ph l IH]; intros s u Hfit S V Hop; cbn [load_segments].
  { wp_step. split; [by apply advanced_refl|done]. }
  wp_step. assert (Hrest : forall s1, advanced user s s1 -> view user s1 (segment_image file bias u ph) ->
    wp (load_segments user file bias l) (fun _ s' => advanced user s s' /\ view user s' (program_image file bias (ph :: l) u))
      (fun s' => exists nt np, took nt np s s') s1).
  { intros s1 A1 V1. eapply wp_mono; [apply (IH s1 (segment_image file bias u ph)); [|apply A1|done|by eapply advanced_open]| |].
    - intros q Hq. apply Hfit, elem_of_cons. by right.
    - intros [] s2 [A2 V2]. split; [by eapply advanced_trans|done].
    - intros s2 (nt & np & T). destruct (adv_took _ _ _ A1) as (nt1 & np1 & T1). exists (nt1 ++ nt), (np1 ++ np). by eapply took_trans. }
  destruct (is_load ph) eqn:E.
  - assert (F : fits lo file bias ph) by (apply Hfit; [apply elem_of_cons; by left|done]). pose proof F as [F1 F2 F3].
    fold (seg_vaddr bias ph). fold (seg_data file ph). pose proof (seg_vaddr_word bias ph) as [W1 W2].
    assert (Hd : bytes_ok (seg_data file ph)) by (by apply Forall_drop). pose proof (seg_data_length _ _ _ _ F) as Hsl.
    assert (Hstep : forall flags, (user = true -> Z.testbit flags 2 = true) ->
      wp (vmm_map_range_flags (seg_vaddr bias ph) (Some (seg_data file ph)) (p_filesz ph) (p_memsz ph) flags)
        (fun _ s1 => wp (load_segments user file bias l) (fun _ s' => advanced user s s' /\ view user s' (program_image file bias (ph :: l) u))
          (fun s' => exists nt np, took nt np s s') s1) (fun s' => exists nt np, took nt np s s') s).
    { intros flags Hfl. unfold K64_ELF_USER_MAX in F3.
      eapply wp_mono; [apply (map_range_view user s u (seg_vaddr bias ph) (Some (seg_data file ph)) (p_filesz ph) (p_memsz ph) flags); cbn [from_option id];
        try (done || lia || (unfold VA_LIMIT; lia))| |done].
      - intros Ha. split; [by apply Hfl|]. intros va Hva. apply Hop; [done|]. exact (fits_pages lo file bias ph va Hlo F Hva).
      - intros [] s1 [A1 V1]. apply Hrest; [done|]. unfold segment_image. by rewrite E. }
    destruct user; [unfold k64_vmm_map_user_range|unfold k64_vmm_map_private_range]; by apply Hstep.
  - wp_step. apply Hrest; [by apply advanced_refl|]. unfold segment_image. by rewrite E.
Qed.

(** ** [elf_map_loads] *)
Definition page_of (va : Z) : Z := 4096 * (va / 4096).

(** New pages between [lo] and [hi]. *)
Definition zeroed (u : Z -> option Z) (lo hi : Z) (mapped : list Z) (va : Z) : option Z :=
  if decide (lo <= va < hi /\ page_of va ∉ mapped) then Some 0 else u va.

Lemma map_pages_spec n : forall q mapped s u, space_ok s -> view true s u -> open_low s -> 0 <= q -> 4096 * (q + Z.of_nat n) <= K64_ELF_USER_MAX ->
  wp (map_pages n (4096 * q) mapped) (fun mapped' s' => advanced true s s' /\ view true s' (zeroed u (4096 * q) (4096 * (q + Z.of_nat n)) mapped) /\
      forall va, page_of va ∈ mapped' <-> page_of va ∈ mapped \/ 4096 * q <= va < 4096 * (q + Z.of_nat n))
    (fun s' => exists nt np, took nt np s s') s.
Proof.
  induction n as [|n IH]; intros q mapped s u SO V Hop Hq Hle; cbn [map_pages].
  { wp_step. split_and!; [by apply advanced_refl| |].
    - eapply view_mono; [exact V|]. intros va b. unfold zeroed. rewrite decide_False by lia. done.
    - intros va. split; [tauto|]. intros [H|H]; [done|lia]. }
  unfold K64_ELF_USER_MAX in Hle. unfold K64_ELF_PAGE. rewrite u64_small by lia. replace (4096 * q + 4096) with (4096 * (q + 1)) by lia.
  replace (q + Z.of_nat (S n)) with (q + 1 + Z.of_nat n) in * by lia.
  assert (Hpage : forall va, page_of va = 4096 * q <-> 4096 * q <= va < 4096 * (q + 1)) by (intros va; unfold page_of; dmlia).
  destruct (bool_decide_reflect (4096 * q ∈ mapped)) as [Hin|Hin].
  - eapply wp_mono; [apply (IH (q + 1) mapped s u SO V Hop); [lia|unfold K64_ELF_USER_MAX; lia]| |done].
    intros mapped' s' (A & V' & Hm). split_and!; [done| |].
    + eapply view_mono; [exact V'|]. intros va b. unfold zeroed. destruct (decide (4096 * (q + 1) <= va < _ /\ _)) as [Hd|Hd].
      * rewrite decide_True by (split; [lia|apply Hd]). done.
      * destruct (decide (4096 * q <= va < _ /\ _)) as [[H1 H2]|]; [|done]. exfalso. destruct (decide (4096 * (q + 1) <= va)); [apply Hd; split; [lia|done]|].
        apply H2. by rewrite (proj2 (Hpage va)) by lia.
    + intros va. rewrite Hm. split; [intros [H|H]; [by left|right; lia]|]. intros [H|H]; [by left|].
      destruct (decide (4096 * (q + 1) <= va)); [right; lia|left]. by rewrite (proj2 (Hpage va)) by lia.
  - wp_step. apply wp_check; [intros _|intros _; exists [], []; replace s with (set_ram (ram s) s) at 2 by (by destruct s); apply took_refl; apply SO].
    unfold k64_vmm_map_user_anon. wp_step.
    eapply wp_mono; [apply (map_range_view true s u (4096 * q) None 0 4096); cbn [from_option id]; try (done || lia || (unfold VA_LIMIT; lia))| |done].
    + intros _. split; [done|]. intros va Hva. apply Hop. unfold page_range, K64_ELF_USER_MAX in *. dmlia.
    + intros [] s1 [A1 V1]. eapply wp_mono; [apply (IH (q + 1) (mapped ++ [4096 * q]) s1); [apply A1|exact V1|by eapply advanced_open|lia|unfold K64_ELF_USER_MAX; lia]| |].
      2: { intros s2 (nt & np & T). destruct (adv_took _ _ _ A1) as (nt1 & np1 & T1). exists (nt1 ++ nt), (np1 ++ np). by eapply took_trans. }
      intros mapped' s' (A & V' & Hm). split_and!; [by eapply advanced_trans| |].
      * eapply view_mono; [exact V'|]. intros va b. unfold zeroed, loaded_range, image, page_range.
        assert (Hel : page_of va ∈ mapped ++ [4096 * q] <-> page_of va ∈ mapped \/ 4096 * q <= va < 4096 * (q + 1))
          by (rewrite elem_of_app, list_elem_of_singleton, Hpage; done).
        assert (Hn : 4096 * q <= va < 4096 * (q + 1) -> page_of va ∉ mapped) by (intros H; by rewrite (proj2 (Hpage va) H)).
        rewrite (decide_False (P := 4096 * q <= va < 4096 * q + 0)) by lia.
        destruct (decide (4096 * q <= va < 4096 * (q + 1))) as [H1|H1].
        -- rewrite decide_True by (split; [lia|by apply Hn]). rewrite decide_False by lia. by rewrite decide_True by dmlia.
        -- destruct (decide (4096 * q <= va < _ /\ _)) as [[H2 H3]|H2].
           ++ rewrite decide_True; [done|]. split; [lia|]. rewrite Hel. intros [H|H]; [done|lia].
           ++ rewrite decide_False; [by rewrite decide_False by dmlia|]. intros [H3 H4]. rewrite Hel in H4. apply H2. split; [lia|]. tauto.
      * intros va. rewrite Hm, elem_of_app, list_elem_of_singleton, Hpage. split.
        -- intros [[H|H]|H]; [by left|right; lia|right; lia].
        -- intros [H|H]; [tauto|]. destruct (decide (4096 * (q + 1) <= va)); [right; lia|left; right; lia].
Qed.

Lemma in_image_app bias l1 l2 va : in_image bias (l1 ++ l2) va = in_image bias l1 va || in_image bias l2 va.
Proof. apply existsb_app. Qed.

Lemma file_byte_snoc file bias l ph va : file_byte file bias (l ++ [ph]) va = segment_byte file bias va (file_byte file bias l va) ph.
Proof. unfold file_byte. by rewrite fold_left_app. Qed.

Lemma file_byte_in_image lo file bias l va : (forall ph, ph ∈ l -> is_load ph = true -> fits lo file bias ph) ->
  file_byte file bias l va <> None -> in_image bias l va = true.
Proof.
  intros Hfit. induction l as [|ph l IH] using rev_ind; [done|]. rewrite file_byte_snoc, in_image_app. unfold segment_byte.
  cbn [in_image existsb]. unfold in_segment. destruct (is_load ph) eqn:E; cbn [andb].
  - destruct (bool_decide_reflect (file_range bias ph va)) as [Hr|Hr].
    + intros _. destruct (Hfit ph) as [F1 _ _]; [apply elem_of_app; right; by apply list_elem_of_singleton|done|].
      rewrite bool_decide_eq_true_2; [by rewrite orb_true_r|]. unfold file_range, page_range in *. dmlia.
    + intros H. rewrite IH; [done| |done]. intros q Hq. apply Hfit, elem_of_app. by left.
  - intros H. rewrite IH; [done| |done]. intros q Hq. apply Hfit, elem_of_app. by left.
Qed.

(** One more segment. *)
Lemma merged_step lo file bias l ph u mapped va : 0 <= lo -> (forall q, q ∈ l ++ [ph] -> is_load q = true -> fits lo file bias q) ->
  is_load ph = true -> (page_of va ∈ mapped <-> in_image bias l va = true) ->
  overlay (zeroed (merged_image file bias l u) (4096 * (seg_vaddr bias ph / 4096)) (4096 * ((seg_vaddr bias ph + p_memsz ph + 4095) / 4096)) mapped)
    (seg_vaddr bias ph) (take (Z.to_nat (p_filesz ph)) (seg_data file ph)) va = merged_image file bias (l ++ [ph]) u va.
Proof.
  intros Hlo Hfit Hl Hm. assert (F : fits lo file bias ph) by (apply Hfit; [apply elem_of_app; right; by apply list_elem_of_singleton|done]).
  pose proof (seg_data_length _ _ _ _ F) as Hd. destruct F as [F1 _ _]. assert (Hlen : length (take (Z.to_nat (p_filesz ph)) (seg_data file ph)) = Z.to_nat (p_filesz ph)) by (rewrite length_take; lia).
  unfold merged_image at 2. rewrite file_byte_snoc, in_image_app. unfold segment_byte, overlay. rewrite Hl, Hlen. cbn [andb].
  rewrite Z2Nat.id by lia. destruct (bool_decide_reflect (file_range bias ph va)) as [Hr|Hr].
  - rewrite decide_True by exact Hr. unfold file_range in Hr. rewrite lookup_take_lt by lia.
    destruct (seg_data file ph !! Z.to_nat (va - seg_vaddr bias ph)) eqn:E; [done|]. apply lookup_ge_None in E. lia.
  - rewrite decide_False by exact Hr. unfold zeroed, merged_image. fold (page_range (seg_vaddr bias ph) (p_memsz ph) va).
    cbn [in_image existsb]. unfold in_segment. rewrite Hl. cbn [andb]. rewrite orb_false_r.
    destruct (file_byte file bias l va) as [b|] eqn:E.
    + rewrite decide_False; [done|]. intros [_ H]. apply H, Hm. eapply file_byte_in_image; [|by rewrite E]. intros q Hq. apply Hfit, elem_of_app. by left.
    + destruct (in_image bias l va) eqn:Ei; cbn [orb]; [rewrite decide_False; [done|]; intros [_ H]; by apply H, Hm|].
      destruct (bool_decide_reflect (page_range (seg_vaddr bias ph) (p_memsz ph) va)) as [Hp|Hp].
      * rewrite decide_True; [done|]. split; [done|]. rewrite Hm. congruence.
      * rewrite decide_False; [done|]. by intros [H _].
Qed.

Lemma merged_defined file bias l u va : in_image bias l va = true -> merged_image file bias l u va <> None.
Proof. intros H. unfold merged_image. destruct (file_byte file bias l va); [done|]. by rewrite H. Qed.

(** The file data of a segment, over the pages that were mapped for it. *)
Lemma write_segment_spec lo file bias ph s u : bytes_ok file -> 0 <= lo -> fits lo file bias ph -> space_ok s -> view true s u ->
  (forall va, page_range (seg_vaddr bias ph) (p_memsz ph) va -> u va <> None) ->
  wp (if p_filesz ph =? 0 then mret tt else k64_vmm_write_user (seg_vaddr bias ph) (Some (seg_data file ph)) (p_filesz ph))
    (fun _ s' => advanced true s s' /\ view true s' (overlay u (seg_vaddr bias ph) (take (Z.to_nat (p_filesz ph)) (seg_data file ph)))) (fun _ => False) s.
Proof.
  intros Hf Hlo F SO V Hdef. pose proof (seg_data_length _ _ _ _ F) as Hl. pose proof F as [F1 F2 F3]. destruct (Z.eqb_spec (p_filesz ph) 0) as [E|E].
  - rewrite E. wp_step. split; [by apply advanced_refl|]. eapply view_mono; [exact V|]. intros va b. unfold overlay. change (length (take (Z.to_nat 0) (seg_data file ph))) with O.
    rewrite decide_False by (cbn; lia). done.
  - set (src := take (Z.to_nat (p_filesz ph)) (seg_data file ph)). assert (Hsrc : Z.of_nat (length src) = p_filesz ph) by (unfold src; rewrite length_take; lia).
    unfold wp. rewrite write_user_take by lia. fold src. rewrite <- Hsrc.
    change (wp (k64_vmm_write_user (seg_vaddr bias ph) (Some src) (Z.of_nat (length src)))
      (fun _ s' => advanced true s s' /\ view true s' (overlay u (seg_vaddr bias ph) src)) (fun _ => False) s).
    eapply wp_mono; [apply write_user_view; [done|done|by apply Forall_take, Forall_drop|lia|unfold VA_LIMIT, K64_ELF_USER_MAX in *; lia|]|by intros [] s' [H _]|done].
    intros i Hi. apply Hdef. unfold page_range. dmlia.
Qed.

(** One segment of the image. *)
Lemma map_segment_spec lo file bias l ph mapped s u : bytes_ok file -> 0 <= lo ->
  (forall q, q ∈ l ++ [ph] -> is_load q = true -> fits lo file bias q) -> is_load ph = true ->
  space_ok s -> view true s (merged_image file bias l u) -> open_low s -> (forall va, page_of va ∈ mapped <-> in_image bias l va = true) ->
  let a := seg_vaddr bias ph in
  wp (mapped ← map_pages (Z.to_nat ((elf_align_up (u64 (a + p_memsz ph)) K64_ELF_PAGE - Z.land a (u64 (Z.lnot (K64_ELF_PAGE - 1)))) / K64_ELF_PAGE))
        (Z.land a (u64 (Z.lnot (K64_ELF_PAGE - 1)))) mapped;
      (if p_filesz ph =? 0 then mret tt else k64_vmm_write_user a (Some (seg_data file ph)) (p_filesz ph)) ;;
      mret mapped)
    (fun mapped' s' => advanced true s s' /\ view true s' (merged_image file bias (l ++ [ph]) u) /\
      forall va, page_of va ∈ mapped' <-> in_image bias (l ++ [ph]) va = true)
    (fun s' => exists nt np, took nt np s s') s.
Proof.
  intros Hf Hlo Hfit Hload SO V Hop Hm a. assert (F : fits lo file bias ph) by (apply Hfit; [apply elem_of_app; right; by apply list_elem_of_singleton|done]).
  pose proof F as [F1 F2 F3]. fold a in F3. unfold K64_ELF_USER_MAX in F3. assert (Ha : word a) by apply seg_vaddr_word. destruct Ha as [Ha1 Ha2].
  rewrite align_down_page, u64_small, align_up_page by (unfold word, K64_ELF_USER_MAX; lia). unfold K64_ELF_PAGE.
  set (q := a / 4096). set (e := (a + p_memsz ph + 4095) / 4096). assert (Hqe : 0 <= q < e /\ 4096 * e <= K64_ELF_USER_MAX) by (unfold q, e, K64_ELF_USER_MAX; dmlia).
  replace ((4096 * e - 4096 * q) / 4096) with (e - q) by dmlia. wp_step.
  eapply wp_mono; [apply (map_pages_spec (Z.to_nat (e - q)) q mapped s _ SO V Hop); [lia|replace (q + Z.of_nat (Z.to_nat (e - q))) with e by lia; lia]| |done].
  replace (q + Z.of_nat (Z.to_nat (e - q))) with e by lia. intros mapped' s1 (A1 & V1 & Hm1). wp_step.
  eapply wp_mono; [eapply (write_segment_spec lo file bias ph s1 _ Hf Hlo F); [apply A1|exact V1|]| |done].
  - intros va Hva. unfold zeroed. destruct (decide _) as [|Hd]; [done|]. apply merged_defined, Hm.
    destruct (decide (page_of va ∈ mapped)) as [|Hn]; [done|]. exfalso. by apply Hd.
  - intros [] s2 [A2 V2]. wp_step. split_and!; [by eapply advanced_trans| |].
    + eapply view_mono; [exact V2|]. intros va b. fold a. intros Hb. rewrite <- Hb. by apply (merged_step lo).
    + intros va. rewrite Hm1, Hm, in_image_app, orb_true_iff. cbn [in_image existsb]. unfold in_segment. rewrite Hload, orb_false_r. cbn [andb].
      rewrite bool_decide_eq_true. fold a. unfold page_range. fold q e. done.
Qed.

Lemma map_loads_loop_spec lo file bias : bytes_ok file -> 0 <= lo -> forall l l0 mapped s u,
  (forall q, q ∈ l0 ++ l -> is_load q = true -> fits lo file bias q) ->
  space_ok s -> view true s (merged_image file bias l0 u) -> open_low s -> (forall va, page_of va ∈ mapped <-> in_image bias l0 va = true) ->
  wp (map_loads_loop true file bias l mapped)
    (fun _ s' => advanced true s s' /\ view true s' (merged_image file bias (l0 ++ l) u)) (fun s' => exists nt np, took nt np s s') s.
Proof.
  intros Hf Hlo. induction l as [|ph l IH]; intros l0 mapped s u Hfit SO V Hop Hm; cbn [map_loads_loop].
  { wp_step. rewrite app_nil_r. split; [by apply advanced_refl|done]. }
  assert (Hsnoc : l0 ++ ph :: l = (l0 ++ [ph]) ++ l) by (by rewrite <- app_assoc). rewrite Hsnoc in *.
  destruct (is_load ph) eqn:E.
  - assert (Hfit1 : forall q, q ∈ l0 ++ [ph] -> is_load q = true -> fits lo file bias q) by (intros q Hq; apply Hfit, elem_of_app; by left).
    pose proof (map_segment_spec lo file bias l0 ph mapped s u Hf Hlo Hfit1 E SO V Hop Hm) as H. cbv zeta in H.
    apply wp_bind_inv in H. fold (seg_vaddr bias ph). fold (seg_data file ph). apply wp_bind. eapply wp_mono; [exact H| |done].
    cbv beta. intros mapped' s1 H1. apply wp_bind_inv in H1. apply wp_bind. eapply wp_mono; [exact H1| |done].
    cbv beta. intros [] s2 (A2 & V2 & Hm2). eapply wp_mono; [apply (IH (l0 ++ [ph]) mapped' s2 u Hfit); [apply A2|exact V2| |exact Hm2]| |].
    + by eapply (advanced_open true).
    + intros [] s3 [A3 V3]. split; [by eapply advanced_trans|done].
    + intros s3 (nt & np & T). destruct (adv_took _ _ _ A2) as (nt1 & np1 & T1). exists (nt1 ++ nt), (np1 ++ np). by eapply took_trans.
  - apply (IH (l0 ++ [ph]) mapped s u Hfit SO); [|done|].
    + eapply view_mono; [exact V|]. intros va b. unfold merged_image. rewrite file_byte_snoc, in_image_app. unfold segment_byte. rewrite E. cbn [andb in_image existsb].
      unfold in_segment. rewrite E. cbn [andb orb]. by rewrite orb_false_r.
    + intros va. rewrite Hm, in_image_app. cbn [in_image existsb]. unfold in_segment. rewrite E. cbn [andb orb]. by rewrite orb_false_r.
Qed.

Lemma elf_map_loads_spec lo file bias l s u : bytes_ok file -> 0 <= lo ->
  (forall q, q ∈ l -> is_load q = true -> fits lo file bias q) -> space_ok s -> view true s u -> open_low s ->
  wp (elf_map_loads true file l bias)
    (fun _ s' => advanced true s s' /\ view true s' (merged_image file bias l u)) (fun s' => exists nt np, took nt np s s') s.
Proof.
  intros Hf Hlo Hfit SO V Hop. apply (map_loads_loop_spec lo file bias Hf Hlo l [] [] s u); [done|done|done|done|].
  intros va. split; [intros H; by apply not_elem_of_nil in H|done].
Qed.

(** ** The two loaders *)

(** No two segments of the program have a page in common. *)
Definition pages_apart (bias : Z) (l : list k64_elf64_phdr_t) : Prop := forall i j p q va, (i < j)%nat -> l !! i = Some p -> l !! j = Some q ->
  in_segment bias va p = true -> in_segment bias va q = true -> False.

Lemma program_image_merged lo file bias l u va : 0 <= lo -> (forall q, q ∈ l -> is_load q = true -> fits lo file bias q) -> pages_apart bias l ->
  program_image file bias l u va = merged_image file bias l u va.
Proof.
  intros Hlo. induction l as [|ph l IH] using rev_ind; intros Hfit Hap; [done|].
  assert (Hfl : forall q, q ∈ l -> is_load q = true -> fits lo file bias q) by (intros q Hq; apply Hfit, elem_of_app; by left).
  assert (IH' : program_image file bias l u va = merged_image file bias l u va).
  { apply IH; [done|]. intros i j p q va' Hij Hi Hj. exact (Hap i j p q va' Hij (lookup_app_l_Some _ _ _ _ Hi) (lookup_app_l_Some _ _ _ _ Hj)). }
  unfold program_image in *. rewrite fold_left_app. cbn [fold_left]. unfold merged_image. rewrite file_byte_snoc, in_image_app.
  unfold segment_image, segment_byte. cbn [in_image existsb]. rewrite orb_false_r. destruct (is_load ph) eqn:E; cbn [andb].
  2: { unfold in_segment. rewrite E. cbn [andb]. rewrite orb_false_r. exact IH'. }
  assert (F : fits lo file bias ph) by (apply Hfit; [apply elem_of_app; right; by apply list_elem_of_singleton|done]).
  pose proof (seg_data_length _ _ _ _ F) as Hd. destruct F as [F1 _ _].
  unfold loaded_range, in_segment. rewrite E. cbn [andb]. destruct (decide (page_range (seg_vaddr bias ph) (p_memsz ph) va)) as [Hp|Hp].
  - rewrite (bool_decide_eq_true_2 _ Hp), orb_true_r. unfold image. destruct (decide (file_range bias ph va)) as [Hr|Hr].
    + rewrite decide_True by exact Hr. rewrite bool_decide_eq_true_2 by exact Hr. unfold file_range in Hr. destruct (seg_data file ph !! Z.to_nat (va - seg_vaddr bias ph)) eqn:El; [done|]. apply lookup_ge_None in El. lia.
    + rewrite decide_False by exact Hr. rewrite bool_decide_eq_false_2 by exact Hr. destruct (file_byte file bias l va) eqn:Eb; [exfalso|done].
      assert (Hin : in_image bias l va = true) by (eapply file_byte_in_image; [exact Hfl|by rewrite Eb]).
      apply existsb_exists in Hin as (p & [i Hi]%list_elem_of_In%list_elem_of_lookup & Hseg).
      apply (Hap i (length l) p ph va); [by eapply lookup_lt_Some|by apply lookup_app_l_Some|by apply list_lookup_middle|done|].
      unfold in_segment. rewrite E. cbn [andb]. by apply bool_decide_eq_true_2.
  - rewrite (bool_decide_eq_false_2 _ Hp), orb_false_r. rewrite bool_decide_eq_false_2; [exact IH'|]. unfold file_range, page_range in *. dmlia.
Qed.

(** C32: The two loaders agree.  On a program that passes the checks and no two
    segments of which share a page, the loop of [elf_execute_impl_ex], which maps
    each segment with fresh pages, and [elf_map_loads], which maps pages and then
    copies the file data, leave the same bytes for the user: those of the file, the
    last segment first, zero in the rest of the pages, and elsewhere what was there. *)
Theorem loaders_agree file h l bias mn mx s u : bytes_ok file -> elf_header_valid file = Some h -> phdrs file h = Some l ->
  scan_loop K64_ELF_USER_MIN (Z.of_nat (length file)) bias l UINT64_MAX 0 = Some (mn, mx) -> pages_apart bias l ->
  space_ok s -> view true s u -> open_low s ->
  let same s' := forall va b, merged_image file bias l u va = Some b -> user_byte s' va b in
  wp (load_segments true file bias l) (fun _ => same) (fun _ => True) s /\
  wp (elf_map_loads true file l bias) (fun _ => same) (fun _ => True) s.
Proof.
  intros Hf Hh Hl Hs Hap SO V Hop same. destruct (phdrs_ok file h Hf Hh) as (l' & El & Hok). assert (l' = l) by congruence. subst l'.
  destruct (scan_loop_spec K64_ELF_USER_MIN file bias ltac:(done) l _ _ _ _ Hok Hs) as (_ & _ & Hfit).
  assert (Hfits : forall ph, ph ∈ l -> is_load ph = true -> fits K64_ELF_USER_MIN file bias ph) by (intros ph H1 H2; by apply Hfit).
  split.
  - eapply wp_mono; [apply (load_segments_spec true file bias K64_ELF_USER_MIN Hf ltac:(done) l s u Hfits SO V (fun _ => Hop))| |done].
    intros [] s' [A V'] va b Hb. apply (view_byte s' _ va b (adv_ok _ _ _ A) V'). rewrite <- Hb. by apply (program_image_merged K64_ELF_USER_MIN).
  - eapply wp_mono; [apply (elf_map_loads_spec K64_ELF_USER_MIN file bias l s u Hf ltac:(done) Hfits SO V Hop)| |done].
    intros [] s' [A V'] va b Hb. by apply (view_byte s' _ va b (adv_ok _ _ _ A) V').
Qed.
End load.
