(* ===== verification/ElfRun.v ===== *)
(** * Executing programs

    [elf_execute_impl_ex] and [k64_elf_execute_linux_dynamic] from the check of the
    file to the release of the address space: in which state a program starts, and
    that nothing is left behind on any path. *)
From Stdlib Require Import ZArith Lia.
From stdpp Require Import base list gmap.
From S2P Require Import Prelude Exec KString Mem Pmm PmmSpec Frames Vmm VmmWalk VmmSpec VmmMap VmmUser VmmLoad VmmView VmmClone VmmAlloc Elf ElfStack ElfLoad.

(** ** The name of the process *)
Lemma word_of_length n l : (length (word_of n l) <= length l)%nat.
Proof. revert l. induction n as [|n IH]; intros l; [cbn; lia|]. destruct l as [|c l]; [done|]. cbn. destruct (blank_char c); cbn; [lia|]. specialize (IH l). lia. Qed.

Lemma length_skip_word l : (length (skip_word l) <= length l)%nat.
Proof. induction l as [|c l IH]; [done|]. cbn. destruct (blank_char c); cbn; lia. Qed.

Lemma process_loop_total fuel : forall p, (length p <= fuel)%nat -> is_Some (process_loop fuel p).
Proof.
  induction fuel as [|fuel IH]; intros p Hp; [destruct p; [cbn; eauto|cbn in Hp; lia]|]. cbn [process_loop].
  destruct (skip_blanks p) as [|c q] eqn:E; [eauto|]. pose proof (length_skip_blanks p) as Hl. rewrite E in Hl.
  assert (Hw : exists w, word_of 127 (c :: q) = c :: w) by (exists (word_of 126 q); cbn [word_of]; by rewrite (skip_blanks_head _ _ _ E)).
  destruct Hw as [w Hw]. rewrite Hw. cbn [length drop]. cbn [length] in Hl. set (r := drop (length w) q).
  assert (Hr : (length r <= fuel)%nat) by (unfold r; rewrite length_drop; lia). clearbody r.
  destruct (existsb _ _).
  - apply IH. pose proof (length_skip_word (skip_blanks r)). pose proof (length_skip_blanks r). lia.
  - repeat match goal with |- context [match ?x with _ => _ end] => is_var x; destruct x; try (by apply IH); try (by eexists) end.
Qed.

Lemma process_path_total path args n : no_nul path -> is_Some (elf_loader_process_path path args n).
Proof.
  intros Hp. destruct args as [args|]; [|by eexists]. cbn [elf_loader_process_path].
  destruct (strncmp_zero_iff path (str "/compat/linux/lib64/ld-linux") [] [] 28) as (r & Hr & _); [done| |lia|].
  { apply Forall_forall. intros c Hc. revert c Hc. apply Forall_forall. repeat (apply List.Forall_nil || apply List.Forall_cons); vm_compute; split; congruence. }
  rewrite Hr. cbn [mbind option_bind]. destruct (negb _); [by eexists|]. destruct (process_loop_total (length args) args) as [o ->]; [lia|]. by eexists.
Qed.

Section run.
Context {P : Type} `{!FrameAllocator P}.
Implicit Types e : elf P.

(** The memory manager with the space of context [i]. *)
Definition ctx_vm (i : Z) e : vmm P :=
  match getZ (elf_contexts e) i with Some (sp, _) => set_space sp (vm e) | None => vm e end.

Lemma ctx_ram i e : ram (ctx_vm i e) = ram (vm e).
Proof. unfold ctx_vm. by destruct (getZ _ i) as [[sp a]|]. Qed.

Record elf_ok e : Prop := {
  eo_len : length (elf_contexts e) = 4%nat;
  eo_kernel i : 0 <= i < 4 -> kernel_ok (ctx_vm i e);
  eo_text i sp a : elf_contexts e !! i = Some (sp, a) -> length (text a) = 384%nat;
  eo_pids : 0 < next_ephemeral_pid e /\ 0 < next_dynamic_pid e
}.

(** The kernel has no page directories where programs are loaded. *)
Definition low_clear (s : vmm P) : Prop := forall va, 0 <= va < K64_ELF_USER_MAX -> tbl (ram s) (kernel_cr3 s) va 2 = None.

(** What is left after an execution: nothing has been taken. *)
Record restored e0 e : Prop := {
  rs_resources : same_resources (vm e0) (vm e);
  rs_depth : elf_context_depth e = elf_context_depth e0;
  rs_len : length (elf_contexts e) = 4%nat;
  rs_others j : Z.of_nat j <> elf_context_depth e0 -> elf_contexts e !! j = elf_contexts e0 !! j
}.

(** Context [i] is in use and holds all that was taken since [e0]. *)
Record held (i : Z) e0 e : Prop := {
  hd_index : i = elf_context_depth e0 /\ 0 <= i < 4;
  hd_depth : elf_context_depth e = i + 1;
  hd_len : length (elf_contexts e) = 4%nat;
  hd_others j : Z.of_nat j <> i -> elf_contexts e !! j = elf_contexts e0 !! j;
  hd_text sp a : getZ (elf_contexts e) i = Some (sp, a) -> length (text a) = 384%nat;
  hd_slot : exists slot, in_slot (vm e0) (ctx_vm i e) slot;
  hd_frames : exists nt np, holds (frames (vm e0)) nt np (ctx_vm i e);
  hd_present : present (space (ctx_vm i e)) = true;
  hd_slots : length (service_slot_used (vm e0)) = 256%nat
}.

(** ... and its space holds the bytes of [u]. *)
Record live (user : bool) (i : Z) e0 e (u : Z -> option Z) : Prop := {
  lv_held : held i e0 e;
  lv_space : space_ok (ctx_vm i e);
  lv_view : view user (ctx_vm i e) u;
  lv_open : user = true -> open_low (ctx_vm i e)
}.

Lemma wp_on_context {A} i (m : M (vmm P) A) sp a Q E e : getZ (elf_contexts e) i = Some (sp, a) ->
  wp m (fun x v => Q x (set_vm v (<[Z.to_nat i := (space v, a)]> (elf_contexts e)) e))
    (fun v => E (set_vm v (<[Z.to_nat i := (space v, a)]> (elf_contexts e)) e)) (ctx_vm i e) -> wp (on_context i m) Q E e.
Proof. unfold wp, on_context, ctx_vm. intros ->. by destruct (m _). Qed.

(** The context after a call about it. *)
Lemma ctx_vm_after i a v e : 0 <= i < Z.of_nat (length (elf_contexts e)) ->
  ctx_vm i (set_vm v (<[Z.to_nat i := (space v, a)]> (elf_contexts e)) e) = v.
Proof.
  intros Hi. unfold ctx_vm. cbn [elf_contexts set_vm vm]. rewrite (proj2 (getZ_Some _ _ (space v, a))); [by destruct v|].
  split; [lia|]. apply list_lookup_insert_eq. lia.
Qed.

Lemma took_rest_fields nt np (s s' : vmm P) : took nt np s s' -> service_slot_used s' = service_slot_used s /\ root_base (space s') = root_base (space s) /\
  stack_base (space s') = stack_base (space s) /\ stack_size (space s') = stack_size (space s) /\ present (space s') = present (space s).
Proof.
  intros [_ _ _ _ _ _ B R]. unfold bare in B. injection B. intros. apply (f_equal service_slot_used) in R. by split_and!.
Qed.

(** A call that took some frames, or none. *)
Lemma held_took i e0 e a sp v nt np : held i e0 e -> getZ (elf_contexts e) i = Some (sp, a) -> took nt np (ctx_vm i e) v ->
  held i e0 (set_vm v (<[Z.to_nat i := (space v, a)]> (elf_contexts e)) e).
Proof.
  intros [I D L O T (slot & Sl) (nt0 & np0 & F) Pr Ls] Hg Tk. destruct (took_rest_fields _ _ _ _ Tk) as (R1 & R2 & R3 & R4 & R5).
  split; [done|done|cbn; by rewrite length_insert| | | | | |done]; rewrite ?ctx_vm_after by lia.
  - intros j Hj. cbn. rewrite list_lookup_insert_ne by lia. by apply O.
  - intros sp' a' H. cbn in H. apply getZ_Some in H as [_ H]. rewrite list_lookup_insert_eq in H by lia. injection H as <- <-. by eapply T.
  - exists slot. unfold in_slot in *. by rewrite R1, R2, R3, R4.
  - exists (nt0 ++ nt), (np0 ++ np). by eapply holds_took.
  - congruence.
Qed.

(** The release at the end, or on a failure. *)
Lemma discard_spec i e0 e : held i e0 e -> wp (discard i) (fun _ e' => restored e0 e') (fun _ => False) e.
Proof.
  intros [I D L O T (slot & S1 & S2 & S3 & S4 & _) (nt & np & F) Pr Ls]. unfold discard, leave. wp_step.
  destruct (getZ (elf_contexts e) i) as [[sp a]|] eqn:E.
  2: { unfold getZ in E. case_decide; [|lia]. apply lookup_ge_None in E. lia. }
  eapply wp_on_context; [exact E|].
  eapply wp_mono; [by apply (release_resources (vm e0) (ctx_vm i e) slot nt np)| |done].
  intros [] v R. wp_step. split; cbn; [done|lia|by rewrite length_insert|].
  intros j Hj. rewrite list_lookup_insert_ne by lia. apply O. lia.
Qed.

(** ** Steps of an execution *)
Abbreviation stack_of i e := (stack_base (space (ctx_vm i e))).

Lemma held_context i e0 e : held i e0 e -> exists sp a, getZ (elf_contexts e) i = Some (sp, a).
Proof.
  intros H. destruct (getZ (elf_contexts e) i) as [[sp a]|] eqn:E; [eauto|]. exfalso.
  destruct (hd_index _ _ _ H) as [_ Hi]. pose proof (hd_len _ _ _ H). unfold getZ in E. case_decide; [|lia]. apply lookup_ge_None in E. lia.
Qed.

Lemma or_discard_spec {A} i (m : M (elf P) A) Q e0 e : wp m Q (held i e0) e -> wp (or_discard i m) Q (restored e0) e.
Proof.
  intros H. unfold or_discard. wp_step. apply wp_try. eapply wp_mono; [exact H|intros a s1 H1; by wp_step|].
  intros e1 H1. wp_step. eapply wp_mono; [by apply discard_spec| |done]. intros [] e2 H2. by wp_step.
Qed.

Lemma live_step {A} (user : bool) i (m : M (vmm P) A) e0 e u (R : A -> vmm P -> (Z -> option Z) -> Prop) : live user i e0 e u ->
  wp m (fun x v => advanced user (ctx_vm i e) v /\ exists u', view user v u' /\ R x v u') (fun v => exists nt np, took nt np (ctx_vm i e) v) (ctx_vm i e) ->
  wp (on_context i m) (fun x e' => stack_of i e' = stack_of i e /\ exists u', live user i e0 e' u' /\ R x (ctx_vm i e') u') (held i e0) e.
Proof.
  intros [H SO V Op] W. destruct (held_context _ _ _ H) as (sp & a & E). destruct (hd_index _ _ _ H) as [_ Hi]. pose proof (hd_len _ _ _ H) as Hl.
  eapply wp_on_context; [exact E|]. eapply wp_mono; [exact W| |].
  - intros x v (Ad & u' & V' & HR). destruct (adv_took _ _ _ Ad) as (nt & np & T). rewrite ctx_vm_after by lia.
    split; [by destruct (took_rest_fields _ _ _ _ T) as (_ & _ & ? & _)|]. exists u'. split; [|done].
    split; [by eapply held_took|rewrite ctx_vm_after by lia; apply Ad|by rewrite ctx_vm_after by lia|].
    rewrite ctx_vm_after by lia. intros Ha. by eapply advanced_open.
  - intros v (nt & np & T). by eapply held_took.
Qed.

Lemma live_gets {A} (user : bool) i (f : vmm P -> A) e0 e u : live user i e0 e u ->
  wp (on_context i (gets f)) (fun x e' => x = f (ctx_vm i e) /\ live user i e0 e' u /\ ctx_vm i e' = ctx_vm i e) (fun _ => False) e.
Proof.
  intros [H SO V Op]. destruct (held_context _ _ _ H) as (sp & a & E). destruct (hd_index _ _ _ H) as [_ Hi]. pose proof (hd_len _ _ _ H) as Hl.
  eapply wp_on_context; [exact E|]. wp_step. rewrite ctx_vm_after by lia. split_and!; [done| |done].
  split; rewrite ?ctx_vm_after by lia; [|done..]. eapply held_took; [exact H|exact E|]. apply self_took, SO.
Qed.

(** The state between [elf_context_depth++] and the success of the allocation. *)
Record entered (i : Z) e0 e : Prop := {
  en_index : i = elf_context_depth e0 /\ 0 <= i < 4;
  en_depth : elf_context_depth e = i + 1;
  en_len : length (elf_contexts e) = 4%nat;
  en_others j : Z.of_nat j <> i -> elf_contexts e !! j = elf_contexts e0 !! j;
  en_resources : same_resources (vm e0) (vm e)
}.

Lemma leave_spec {A} i e0 e : entered i e0 e -> wp (A := A) (leave ;; fail) (fun _ _ => False) (restored e0) e.
Proof. intros [I D L O R]. unfold leave. wp_step. wp_step. wp_step. split; cbn; [done|lia|done|]. intros j Hj. apply O. lia. Qed.

Lemma low_index va : 0 <= va < K64_ELF_USER_MAX -> idx 0 va = 0.
Proof. unfold K64_ELF_USER_MAX. intros H. cbn [idx]. unfold pml4_index. rewrite index_mod by lia. change (2 ^ 39) with 549755813888. dmlia. Qed.

Lemma alloc_spec (user : bool) i pid e0 e : elf_ok e0 -> i = elf_context_depth e0 -> 0 <= i < 4 -> elf_context_depth e = i + 1 ->
  vm e = vm e0 -> elf_contexts e = elf_contexts e0 -> 0 < pid -> (user = true -> area_clear (vm e0) /\ low_clear (vm e0)) ->
  wp (on_context i (if user then k64_vmm_alloc_user_space pid else k64_vmm_alloc_service_space pid))
    (fun _ e' => live user i e0 e' (stack_bytes (stack_of i e'))) (entered i e0) e.
Proof.
  intros [L K T _] Hi Hr Hd Hv Hc Hp Hcl. assert (Hex : exists sp a, getZ (elf_contexts e) i = Some (sp, a)).
  { destruct (getZ (elf_contexts e) i) as [[sp a]|] eqn:E; [eauto|]. rewrite Hc in E. unfold getZ in E. case_decide; [|lia]. apply lookup_ge_None in E. lia. }
  destruct Hex as (sp & a & E). eapply wp_on_context; [exact E|]. specialize (K i Hr).
  assert (Ek : ctx_vm i e = ctx_vm i e0) by (unfold ctx_vm; by rewrite Hc, Hv). rewrite Ek.
  assert (Ecv : ctx_vm i e0 = set_space sp (vm e0)) by (unfold ctx_vm; rewrite <- Hc, E; done).
  assert (Ea : area_clear (ctx_vm i e0) = area_clear (vm e0)) by (by rewrite Ecv).
  assert (Hal : wp (if user then k64_vmm_alloc_user_space pid else k64_vmm_alloc_service_space pid)
    (fun _ => new_space user (ctx_vm i e0)) (same_resources (ctx_vm i e0)) (ctx_vm i e0)).
  { destruct user; apply alloc_space_spec; try done. intros _. split_and!; [done|done|]. rewrite Ea. by apply Hcl. }
  assert (Hln : 0 <= i < Z.of_nat (length (elf_contexts e))) by (rewrite Hc, L; lia).
  eapply wp_mono; [exact Hal| |].
  - intros [] v [Hs Hf [B1 B2 B3 B4 B5]]. rewrite ctx_vm_after by done.
    split; rewrite ?ctx_vm_after by done; [|done|done|].
    + split; rewrite ?ctx_vm_after by done; [done|done|cbn; by rewrite length_insert, Hc| | | | |apply B1|].
      * intros j Hj. cbn. rewrite list_lookup_insert_ne by lia. by rewrite Hc.
      * intros sp' a' H. cbn in H. apply getZ_Some in H as [_ H]. rewrite list_lookup_insert_eq in H by lia. injection H as <- <-.
        apply getZ_Some in E as [_ E]. eapply T. rewrite <- Hc. exact E.
      * rewrite Ecv in Hs. exact Hs.
      * rewrite Ecv in Hf. exact Hf.
      * destruct K as [_ _ _ _ Ks _ _]. rewrite Ecv in Ks. exact Ks.
    + intros Ha va Hva. apply B5; [done|by apply low_index|]. rewrite Ecv. by apply Hcl.
  - intros v R. split; [done|done|cbn; by rewrite length_insert, Hc| |].
    + intros j Hj. cbn. rewrite list_lookup_insert_ne by lia. by rewrite Hc.
    + rewrite Ecv in R. exact R.
Qed.

(** ** The stack *)
Lemma set_args_spec (user : bool) i e0 e u a : live user i e0 e u -> length (text a) = 384%nat ->
  wp (set_args i a) (fun _ e' => live user i e0 e' u /\ ctx_vm i e' = ctx_vm i e) (fun _ => False) e.
Proof.
  intros [H SO V Op] Ha. destruct (held_context _ _ _ H) as (sp & a0 & E). destruct (hd_index _ _ _ H) as [Hi0 Hi]. pose proof (hd_len _ _ _ H) as Hl.
  unfold wp, set_args. rewrite E. set (e' := set_vm _ _ _).
  assert (Ec : ctx_vm i e' = ctx_vm i e).
  { unfold ctx_vm at 2. rewrite E. unfold ctx_vm. unfold e'. cbn [elf_contexts set_vm vm]. rewrite (proj2 (getZ_Some _ _ (sp, a))); [done|].
    split; [lia|]. apply list_lookup_insert_eq. lia. }
  rewrite Ec. split; [|done]. destruct H as [I D L O T Sl F Pr Ls]. split; rewrite ?Ec; [|done..].
  split; rewrite ?Ec; [done|done|unfold e'; cbn; by rewrite length_insert| | |done..].
  - intros j Hj. unfold e'. cbn. rewrite list_lookup_insert_ne by lia. by apply O.
  - intros sp' a' H. unfold e' in H. cbn in H. apply getZ_Some in H as [_ H]. rewrite list_lookup_insert_eq in H by lia. by injection H as <- <-.
Qed.

(** The lowest address of the stack that the loader does not write to. *)
Definition stack_top (i : Z) e : Z := stack_of i e + 262144 - 16.

Lemma held_stack i e0 e : held i e0 e -> 0x100000000 <= stack_of i e /\ stack_of i e + 262144 <= 0x200000000 /\ stack_size (space (ctx_vm i e)) = 262144.
Proof. intros H. destruct (hd_slot _ _ _ H) as (slot & S1 & _ & _ & S4 & S5 & S6). rewrite S5, S4, S6. lia. Qed.

Lemma prepare_stack_spec i e0 e u path args x : live true i e0 e u -> no_nul path -> no_nul (default [] args) ->
  (forall va, stack_of i e <= va < stack_of i e + 262144 -> u va <> None) ->
  wp (prepare_stack i path args x) (fun sp e' => stack_of i e' = stack_of i e /\ exists u', live true i e0 e' u' /\
      same_outside (stack_top i e - 1024) (stack_top i e) u u' /\ initial_stack u' sp (stack_top i e) (arguments (Some path) args) x /\
      same_trans (ctx_vm i e) (ctx_vm i e'))
    (restored e0) e.
Proof.
  intros Lv Hp Ha Hdef. pose proof (lv_held _ _ _ _ _ Lv) as H. destruct (held_context _ _ _ H) as (sp & a0 & E).
  destruct (held_stack _ _ _ H) as (B1 & B2 & B3). unfold prepare_stack. wp_step. wp_step. wp_step. eapply wp_deref; [exact E|]. cbv beta.
  destruct (elf_parse_args_stores (text a0) (Some path) args (hd_text _ _ _ H _ _ E)) as (a & Hpa & Hst).
  wp_step. eapply wp_deref; [exact Hpa|]. wp_step. destruct Hst as (rest & Ht & Htl & Hav).
  eapply wp_mono; [apply (set_args_spec true i e0 e u a Lv Htl)| |done]. intros [] e1 [L1 Ec1].
  assert (Es1 : stack_of i e1 = stack_of i e) by (by rewrite Ec1).
  apply or_discard_spec.
  assert (Esp : space (ctx_vm i e) = sp) by (unfold ctx_vm; by rewrite E). rewrite Esp in B1, B2, B3, Es1, Hdef |- *.
  rewrite B3, u64_small by lia. replace (stack_base sp + 262144 - 16) with (stack_top i e) by (unfold stack_top; rewrite Esp; lia).
  eapply wp_mono; [apply (live_step true i _ e0 e1 u (fun r v u' => same_outside (stack_top i e - 1024) (stack_top i e) u u' /\
    initial_stack u' r (stack_top i e) (arguments (Some path) args) x /\ same_trans (ctx_vm i e1) v) L1)| |done].
  - eapply wp_mono; [apply (elf_write_initial_stack_spec (ctx_vm i e1) u (stack_top i e) a (arguments (Some path) args) x)| |done].
    + by exists rest.
    + constructor; [by apply Forall_take, no_nul_first_word|]. by apply no_nul_fit, no_nul_words.
    + cbn [arguments length]. pose proof (length_fit 15 (383 - Z.of_nat (length (take 383 (first_word (default [] (Some path)))))) (words (default [] args))). lia.
    + split; [apply L1|apply L1|unfold stack_top, VA_LIMIT; rewrite Esp; lia|]. intros va Hva. apply Hdef. unfold stack_top in Hva. rewrite Esp in Hva. lia.
    + unfold stack_top. rewrite Esp. lia.
    + intros r v (Hr & u' & (A & V & O & T) & Hi). split; [done|]. exists u'. split_and!; [done| |done|done].
      destruct O as [O1 O2]. split; [|done]. intros va Hva. apply O1. lia.
  - intros r e2 [Es2 Hu]. split; [congruence|]. destruct Hu as (u' & L2 & S2 & I2 & T2). rewrite Ec1 in T2. by exists u'.
Qed.

(** ** Programs *)
Lemma is_mapped_translate (m : mem) sp va acc : k64_vmm_is_mapped m sp va acc = true -> vmm_translate m sp va acc <> None.
Proof.
  unfold k64_vmm_is_mapped, vmm_translate. destruct (negb (present sp) || (cr3 sp =? 0)); [done|].
  destruct (permits acc (entry_at m (cr3 sp) (pml4_index va))); cbn [negb]; [|done].
  destruct (permits acc (entry_at m _ (pdpt_index va))); cbn [negb]; [|done]. destruct (is_large (entry_at m _ (pdpt_index va))); [done|].
  destruct (permits acc (entry_at m _ (pdt_index va))); cbn [negb]; [|done]. destruct (is_large (entry_at m _ (pdt_index va))); [done|].
  by destruct (permits acc (entry_at m _ (pt_index va))).
Qed.

Lemma restored_early e0 e : elf_ok e0 -> vm e = vm e0 -> elf_contexts e = elf_contexts e0 -> elf_context_depth e = elf_context_depth e0 -> restored e0 e.
Proof.
  intros [L K T _] Hv Hc Hd. split; [|done|by rewrite Hc|intros j _; by rewrite Hc]. rewrite Hv. split_and!; [|done|done].
  pose proof (ko_frames _ (K 0 ltac:(lia))) as F. unfold ctx_vm in F. by destruct (getZ _ 0) as [[sp a]|].
Qed.

Lemma program_image_at file bias l va : forall u u', u va = u' va -> program_image file bias l u va = program_image file bias l u' va.
Proof.
  induction l as [|ph l IH]; intros u u' H; [done|]. cbn. apply IH. unfold segment_image, loaded_range. by destruct (is_load ph); [case_decide|].
Qed.

Lemma program_image_high lo file bias l : 0 <= lo -> (forall ph, ph ∈ l -> is_load ph = true -> fits lo file bias ph) ->
  forall u va, K64_ELF_USER_MAX <= va -> program_image file bias l u va = u va.
Proof.
  intros Hlo. induction l as [|ph l IH]; intros Hfit u va Hva; [done|].
  change (program_image file bias (ph :: l) u va) with (program_image file bias l (segment_image file bias u ph) va). rewrite IH; [|intros q Hq; apply Hfit, elem_of_cons; by right|done].
  unfold segment_image. destruct (is_load ph) eqn:E; [|done]. unfold loaded_range. rewrite decide_False; [done|]. intros H.
  eapply fits_pages in H; [|exact Hlo|apply Hfit; [apply elem_of_cons; by left|done]]. lia.
Qed.

Lemma merged_image_at file bias l va u u' : u va = u' va -> merged_image file bias l u va = merged_image file bias l u' va.
Proof. intros H. unfold merged_image. by rewrite H. Qed.

Lemma merged_image_high lo file bias l u va : 0 <= lo -> (forall ph, ph ∈ l -> is_load ph = true -> fits lo file bias ph) ->
  K64_ELF_USER_MAX <= va -> merged_image file bias l u va = u va.
Proof.
  intros Hlo Hfit Hva. assert (Hi : in_image bias l va = false).
  { apply not_true_is_false. intros (ph & Hph & Hs)%existsb_exists. apply andb_true_iff in Hs as [Hs1 Hs2%bool_decide_eq_true].
    eapply fits_pages in Hs2; [|exact Hlo|apply Hfit; [by apply list_elem_of_In|done]]. lia. }
  unfold merged_image. destruct (file_byte file bias l va) eqn:E; [|by rewrite Hi].
  assert (H : in_image bias l va = true) by (eapply file_byte_in_image; [exact Hfit|by rewrite E]). congruence.
Qed.

(** A program with the image [img] may start at stack pointer [sp] in context [i]:
    its address space holds the image and the initial stack. *)
Definition ready (img : Z -> option Z) (args : list (list Z)) (x : aux_info) (i : Z) e0 e (sp : Z) : Prop :=
  exists u, live true i e0 e u /\ (forall va, 0 <= va < K64_ELF_USER_MAX -> u va = img va) /\ initial_stack u sp (stack_top i e) args x.

Definition load_bias (h : k64_elf64_ehdr_t) : Z := if e_type h =? K64_ELF_DYN then K64_ELF_DYN_LOAD_BIAS else 0.

(** From a loaded image to a program that is ready. *)
Lemma prepare_ready i e0 e u img path args x : live true i e0 e u -> no_nul path -> no_nul (default [] args) ->
  (forall va, 0 <= va < K64_ELF_USER_MAX -> u va = img va) -> (forall va, K64_ELF_USER_MAX <= va -> u va = stack_bytes (stack_of i e) va) ->
  wp (prepare_stack i path args x) (fun sp e' => ready img (arguments (Some path) args) x i e0 e' sp /\ same_trans (ctx_vm i e) (ctx_vm i e'))
    (restored e0) e.
Proof.
  intros Lv Hp Ha Him Hst. destruct (held_stack _ _ _ (lv_held _ _ _ _ _ Lv)) as (B1 & B2 & _).
  eapply wp_mono; [apply (prepare_stack_spec i e0 e u path args x Lv Hp Ha)| |done].
  - intros va Hva. rewrite Hst by (unfold K64_ELF_USER_MAX; lia). unfold stack_bytes. by rewrite decide_True.
  - intros sp e' (Es & u' & L' & O & I & T). split; [|done]. exists u'. split_and!; [done| |].
    + intros va Hva. rewrite (same_out _ _ _ _ O); [by apply Him|]. unfold stack_top, K64_ELF_USER_MAX in *. lia.
    + unfold stack_top in *. by rewrite Es.
Qed.

Lemma pid_positive pid entry : 0 < pid -> 0 < elf_pid_for_entry pid entry.
Proof.
  intros Hp. unfold elf_pid_for_entry. destruct (Z.leb_spec K64_ELF_VM_BASE entry); [|done]. destruct (_ <? _); [|done].
  assert (0 <= (entry - K64_ELF_VM_BASE) / K64_ELF_VM_STRIDE) by (apply Z.div_pos; [lia|done]). unfold K64_ELF_PID_BASE. lia.
Qed.
End run.

Section execute.
Context {P : Type} `{!FrameAllocator P}.
Context (read_file : list Z -> option (list Z)) (fs_raw_buffer : list Z) (may_execute : list Z -> bool) (ids : Z * Z * Z).
Context (run_user : Z -> Z -> Z -> list Z -> Z -> Z -> M (elf P) Z) (run_kernel : isolated_call -> M (elf P) Z).
Implicit Types e : elf P.
Context (files : forall p f, read_file p = Some f -> bytes_ok f).

Lemma enter_spec e : wp enter (fun i e' => i = elf_context_depth e /\ 0 <= i < 4 /\ e' = set_depth (i + 1) e) (fun e' => e' = e) e.
Proof.
  unfold enter. wp_step. wp_step. wp_step. apply wp_check; [|done]. unfold K64_ELF_CONTEXT_MAX.
  intros [H1%Z.ltb_ge H2%Z.leb_gt]%negb_true_iff%orb_false_iff. wp_step. wp_step. wp_step. split_and!; [done|lia|lia|done].
Qed.

(** The allocation, with the answer to its failure. *)
Lemma allocate_spec {A} (user : bool) pid i e0 e Q (rest : M (elf P) A) : elf_ok e0 -> i = elf_context_depth e0 -> 0 <= i < 4 ->
  elf_context_depth e = i + 1 -> vm e = vm e0 -> elf_contexts e = elf_contexts e0 -> 0 < pid -> (user = true -> area_clear (vm e0) /\ low_clear (vm e0)) ->
  (forall e', live user i e0 e' (stack_bytes (stack_base (space (ctx_vm i e')))) -> wp rest Q (restored e0) e') ->
  wp (made ← try (on_context i (if user then k64_vmm_alloc_user_space pid else k64_vmm_alloc_service_space pid));
      if absent made then leave ;; fail else rest) Q (restored e0) e.
Proof.
  intros Eo Hi Hr Hd Hv Hc Hp Hcl Hrest. wp_step. apply wp_try.
  eapply wp_mono; [apply (alloc_spec user i pid e0 e Eo Hi Hr Hd Hv Hc Hp Hcl)| |].
  - intros [] e' L. cbn [absent]. by apply Hrest.
  - intros e' En. cbn [absent]. eapply wp_mono; [apply (leave_spec i e0 e' En)|by intros ? ? []|done].
Qed.

(** The contract of the start of a program: it is called with a program that is
    ready, with an entry the program may reach when the loader has checked it, and comes back with the context still holding what was taken. *)
Definition starts_user (img : Z -> option Z) (args : list (list Z)) (x : aux_info) (checked : bool) (entry : Z) (name : option (list Z)) (parent_pid pid : Z) e0 : Prop :=
  forall i e sp n, ready img args x i e0 e sp -> (checked = true -> vmm_translate (ram (vm e)) (space (ctx_vm i e)) entry true <> None) -> name = Some n ->
    wp (run_user i entry sp n parent_pid pid) (fun _ => held i e0) (fun _ => False) e.

Lemma run_and_discard {A} i e0 (m : M (elf P) A) e : wp m (fun _ => held i e0) (fun _ => False) e ->
  wp (m ;; discard i) (fun _ => restored e0) (restored e0) e.
Proof. intros H. wp_step. eapply wp_mono; [exact H| |done]. cbv beta. intros a e' H'. eapply wp_mono; [exact (discard_spec i e0 e' H')|done|done]. Qed.

Lemma load_context (user : bool) i e0 e file bias l : bytes_ok file -> (forall ph, ph ∈ l -> is_load ph = true -> fits K64_ELF_USER_MIN file bias ph) ->
  live user i e0 e (stack_bytes (stack_base (space (ctx_vm i e)))) ->
  wp (or_discard i (on_context i (load_segments user file bias l))) (fun _ e' =>
    live user i e0 e' (program_image file bias l (stack_bytes (stack_base (space (ctx_vm i e')))))) (restored e0) e.
Proof.
  intros Hf Hfit Lv. apply or_discard_spec. pose proof Lv as [_ SO V Op].
  eapply wp_mono; [eapply (live_step user i _ e0 e _ (fun _ _ u' => u' = program_image file bias l (stack_bytes (stack_base (space (ctx_vm i e))))) Lv)| |done].
  - eapply wp_mono; [by eapply (load_segments_spec user file bias K64_ELF_USER_MIN)| |done]. intros [] v [A V']. split; [done|]. by eexists.
  - intros [] e' [Es (u' & L' & ->)]. by rewrite Es.
Qed.

(** The part of [elf_execute_impl_ex] for user programs behind the load. *)
Lemma start_user i e0 e file h l path args parent_pid pid : let bias := load_bias h in let entry := u64 (e_entry h + bias) in
  (forall ph, ph ∈ l -> is_load ph = true -> fits K64_ELF_USER_MIN file bias ph) -> no_nul path -> no_nul (default [] args) ->
  live true i e0 e (program_image file bias l (stack_bytes (stack_base (space (ctx_vm i e))))) ->
  starts_user (program_image file bias l (fun _ => None)) (arguments (Some path) args) (info ids h l entry bias 0) true entry
    (elf_loader_process_path path args 128) parent_pid pid e0 ->
  wp ((mapped ← on_context i (gets (fun v => k64_vmm_is_mapped (ram v) (space v) entry true));
       (if mapped : bool then mret tt else discard i ;; fail) ;;
       sp ← prepare_stack i path args (info ids h l entry bias 0);
       name ← deref (elf_loader_process_path path args 128);
       run_user i entry sp name parent_pid pid) ;; discard i) (fun _ => restored e0) (restored e0) e.
Proof.
  intros bias entry Hfit Hp Ha Lv Hst. set (img := program_image file bias l) in *. pose proof (lv_held _ _ _ _ _ Lv) as Hh.
  destruct (held_stack _ _ _ Hh) as (B1 & B2 & _). apply wp_bind, wp_bind.
  eapply wp_mono; [apply (live_gets true i _ e0 e _ Lv)| |done]. intros mapped e1 (Hm & L1 & Ec). wp_step. destruct mapped.
  2: { wp_step. eapply wp_mono; [exact (discard_spec i e0 e1 (lv_held _ _ _ _ _ L1))| |done]. intros [] e2 H2. by wp_step. }
  wp_step. wp_step. symmetry in Hm. apply is_mapped_translate in Hm.
  eapply wp_mono; [apply (prepare_ready i e0 e1 _ (img (fun _ => None)) path args (info ids h l entry bias 0) L1 Hp Ha)| |done].
  - intros va Hva. apply program_image_at. unfold stack_bytes. unfold K64_ELF_USER_MAX in Hva. by rewrite decide_False by lia.
  - intros va Hva. rewrite Ec. by apply (program_image_high K64_ELF_USER_MIN).
  - intros sp e2 [Hr T]. wp_step. destruct (process_path_total path args 128 Hp) as [name Hn]. eapply wp_deref; [exact Hn|].
    eapply wp_mono; [apply (Hst i e2 sp name Hr); [intros _|exact Hn]| |done].
    + specialize (T entry true). rewrite Ec in T. rewrite ctx_ram in T. rewrite T. exact Hm.
    + cbv beta. intros _ e3 H3. eapply wp_mono; [exact (discard_spec i e0 e3 H3)|done|done].
Qed.

(** C24: [elf_execute_impl_ex] for user programs.  For every file, name and argument
    line, the loader does nothing undefined.  A program is started only when it is
    ready: its address space, built from frames that were free, holds
    [program_image] and a stack with the arguments, the environment and the
    auxiliary vector.  That image is what the segments leave when they are laid
    down in the order of the file, each on pages of its own filled with zeros
    around its bytes: a segment that shares a page with an earlier one takes the
    page over, and the earlier bytes on it are gone.  On every path, success or failure, every frame and slot that was taken
    has been given back, and the contexts of the other programs are as before. *)
Theorem elf_execute_user path args parent_pid pid e0 : elf_ok e0 -> area_clear (vm e0) -> low_clear (vm e0) ->
  no_nul path -> no_nul (default [] args) ->
  (forall file h l, read_file path = Some file -> elf_header_valid file = Some h -> phdrs file h = Some l ->
     let bias := load_bias h in let entry := u64 (e_entry h + bias) in
     starts_user (program_image file bias l (fun _ => None)) (arguments (Some path) args) (info ids h l entry bias 0) true entry
       (elf_loader_process_path path args 128) parent_pid pid e0) ->
  wp (elf_execute_impl_ex read_file may_execute ids run_user run_kernel (Some path) true args parent_pid pid)
    (fun _ => restored e0) (restored e0) e0.
Proof.
  intros Eo Ac Lc Hp Ha Hst. assert (Early : forall e, vm e = vm e0 -> elf_contexts e = elf_contexts e0 -> elf_context_depth e = elf_context_depth e0 -> restored e0 e).
  { intros e. by apply restored_early. }
  unfold elf_execute_impl_ex. wp_step. wp_step. destruct path as [|c path']; [wp_step; by apply Early|]. set (path := c :: path') in *.
  wp_step. apply wp_check; [intros _|intros _; by apply Early].
  destruct (read_file path) as [file|] eqn:Er; [|wp_step; by apply Early]. pose proof (files _ _ Er) as Hf.
  destruct (elf_header_valid file) as [h|] eqn:Eh; [|wp_step; by apply Early]. destruct (phdrs_ok file h Hf Eh) as (l & El & Hl).
  wp_step. eapply wp_deref; [exact El|]. fold (load_bias h). cbv zeta.
  destruct (scan_loop _ _ _ _ _ _) as [[mn mx]|] eqn:Es; [|wp_step; by apply Early].
  destruct (scan_loop_spec K64_ELF_USER_MIN file (load_bias h) ltac:(done) l _ _ _ _ Hl Es) as (_ & _ & Hfit).
  assert (Hfits : forall ph, ph ∈ l -> is_load ph = true -> fits K64_ELF_USER_MIN file (load_bias h) ph) by (intros ph H1 H2; by apply Hfit).
  wp_step. apply wp_check; [intros _|intros _; by apply Early]. wp_step. wp_step. wp_step. wp_step. wp_step.
  eapply wp_mono; [apply enter_spec| |intros e ->; by apply Early]. intros i e (Hi & Hr & ->).
  apply (allocate_spec true _ i e0); [done|exact Hi|done|done|done|done|apply pid_positive, Eo|done|]. intros e1 L1.
  wp_step. eapply wp_mono; [apply (load_context true i e0 e1 file (load_bias h) l Hf Hfits L1)| |done]. intros [] e2 L2.
  by apply (start_user i e0 e2 file h l path args parent_pid pid Hfits Hp Ha L2), Hst.
Qed.

(** ** Programs with an interpreter *)
Definition argv0_of (main_path : list Z) (argv0_path : option (list Z)) : list Z := match argv0_path with None | Some [] => main_path | Some p => p end.

Lemma scan_loads_spec file l bias mn mx : Forall phdr_ok l -> elf_scan_loads (Z.of_nat (length file)) l bias = Some (mn, mx) ->
  forall ph, ph ∈ l -> is_load ph = true -> fits 0 file bias ph.
Proof.
  intros Hl. unfold elf_scan_loads. destruct (scan_loop _ _ _ _ _ _) as [[a b]|] eqn:E; [|done].
  destruct (scan_loop_spec 0 file bias ltac:(lia) l _ _ _ _ Hl E) as (_ & _ & H). intros _ ph H1 H2. by apply H.
Qed.

Lemma map_context i e0 e main ml mb interp il : bytes_ok main -> bytes_ok interp ->
  (forall ph, ph ∈ ml -> is_load ph = true -> fits 0 main mb ph) -> (forall ph, ph ∈ il -> is_load ph = true -> fits 0 interp 0 ph) ->
  live true i e0 e (stack_bytes (stack_base (space (ctx_vm i e)))) ->
  wp (or_discard i (on_context i (elf_map_loads true main ml mb ;; elf_map_loads true interp il 0))) (fun _ e' =>
    live true i e0 e' (merged_image interp 0 il (merged_image main mb ml (stack_bytes (stack_base (space (ctx_vm i e'))))))) (restored e0) e.
Proof.
  intros Hm Hi Fm Fi Lv. apply or_discard_spec. pose proof Lv as [_ SO V Op]. specialize (Op eq_refl).
  set (u0 := stack_bytes _) in V. eapply wp_mono; [eapply (live_step true i _ e0 e _ (fun _ _ u' => u' = merged_image interp 0 il (merged_image main mb ml u0)) Lv)| |done].
  - wp_step. eapply wp_mono; [apply (elf_map_loads_spec 0 main mb ml _ u0 Hm ltac:(lia) Fm SO V Op)| |done]. intros [] v [A1 V1].
    eapply wp_mono; [apply (elf_map_loads_spec 0 interp 0 il v _ Hi ltac:(lia) Fi (adv_ok _ _ _ A1) V1)| |].
    + by apply (advanced_open true _ _ A1).
    + intros [] v' [A2 V2]. split; [by eapply advanced_trans|]. by eexists.
    + intros v' (nt & np & T). destruct (adv_took _ _ _ A1) as (nt1 & np1 & T1). exists (nt1 ++ nt), (np1 ++ np). by eapply took_trans.
  - intros [] e' [Es (u' & L' & ->)]. unfold u0. by rewrite Es.
Qed.

(** *** One buffer for two files *)

(** What is left of the first file when the second has been read into the same
    buffer. *)
Definition left_of (main interp : list Z) : list Z := take (length main) (interp ++ drop (length interp) main).

Lemma raw_main main interp raw :
  take (length main) (interp ++ drop (length interp) (main ++ drop (length main) raw)) = left_of main interp.
Proof.
  unfold left_of. destruct (decide (length interp <= length main)%nat) as [H|H].
  - rewrite drop_app_le by done. rewrite app_assoc, (take_app_le (interp ++ _)) by (rewrite length_app, length_drop; lia). done.
  - by rewrite !take_app_le by lia.
Qed.

Lemma left_length main interp : length (left_of main interp) = length main.
Proof. unfold left_of. rewrite length_take, length_app, length_drop. lia. Qed.

Lemma left_bytes main interp : bytes_ok main -> bytes_ok interp -> bytes_ok (left_of main interp).
Proof. intros H1 H2. apply Forall_take, Forall_app. split; [done|by apply Forall_drop]. Qed.

(** As far as both files reach, it is the second file. *)
Lemma left_prefix main interp k : (k <= length main)%nat -> (k <= length interp)%nat -> take k (left_of main interp) = take k interp.
Proof. intros H1 H2. unfold left_of. rewrite take_take, Nat.min_l by done. by apply take_app_le. Qed.

Lemma prefix_slice (a b : list Z) k o n : take k a = take k b -> (o + n <= k)%nat -> take n (drop o a) = take n (drop o b).
Proof.
  intros H Hk. assert (G : forall c : list Z, take n (drop o c) = take n (drop o (take k c))).
  { intros c. rewrite !skipn_firstn_comm, take_take. f_equal. lia. }
  by rewrite G, (G b), H.
Qed.

Lemma read_phdrs_prefix a b k h : take k a = take k b -> (k <= length a)%nat -> (k <= length b)%nat -> 0 <= e_phoff h ->
  forall n i, 0 <= i -> e_phoff h + (i + Z.of_nat n) * 56 <= Z.of_nat k -> read_phdrs n a h i = read_phdrs n b h i.
Proof.
  intros Hp Ha Hb Ho. induction n as [|n IH]; intros i Hi Hk; [done|]. cbn [read_phdrs]. unfold sizeof_phdr.
  rewrite !take_bytes_Some by lia. unfold slice. rewrite (prefix_slice a b k) by (done || lia). cbn [mbind option_bind]. by rewrite IH by lia.
Qed.

Lemma header_valid_long file h : elf_header_valid file = Some h -> (64 <= length file)%nat.
Proof. unfold elf_header_valid, sizeof_ehdr. destruct (Z.ltb_spec (Z.of_nat (length file)) 64); [done|]. lia. Qed.

(** So the header and the table of the first file are those of the second. *)
Lemma left_header main interp mh ih : bytes_ok main -> bytes_ok interp -> elf_header_valid (left_of main interp) = Some mh -> elf_header_valid interp = Some ih ->
  mh = ih /\ phdrs (left_of main interp) mh = phdrs interp ih.
Proof.
  intros Bm Bi Hm Hi. pose proof (header_valid_long _ _ Hm) as Lm. pose proof (header_valid_long _ _ Hi) as Li.
  destruct (header_valid_table _ _ (left_bytes _ _ Bm Bi) Hm) as (Tn & To & Tm & _ & Em), (header_valid_table _ _ Bi Hi) as (_ & _ & Ti & _ & Ei).
  rewrite left_length in Lm, Tm. rewrite left_prefix in Em by lia. assert (mh = ih) as -> by congruence. split; [done|].
  apply (read_phdrs_prefix _ _ (Nat.min (length main) (length interp))); rewrite ?left_length; try lia. apply left_prefix; lia.
Qed.

Lemma left_image main interp bias b2 l u va : (forall ph, ph ∈ l -> is_load ph = true -> fits 0 (left_of main interp) bias ph) ->
  (forall ph, ph ∈ l -> is_load ph = true -> fits 0 interp b2 ph) ->
  merged_image (left_of main interp) bias l u va = merged_image interp bias l u va.
Proof.
  intros Fm Fi. assert (E : file_byte (left_of main interp) bias l va = file_byte interp bias l va); [|unfold merged_image; by rewrite E].
  induction l as [|ph l IH] using rev_ind; [done|]. rewrite !file_byte_snoc, IH; try (intros q Hq; first [apply Fm|apply Fi]; apply elem_of_app; by left).
  unfold segment_byte. destruct (is_load ph) eqn:E; [|done]. destruct (bool_decide_reflect (file_range bias ph va)) as [Hr|]; [|done]. cbn [andb].
  assert (Hin : ph ∈ l ++ [ph]) by (apply elem_of_app; right; by apply list_elem_of_singleton).
  destruct (Fm ph Hin E) as [_ M _], (Fi ph Hin E) as [_ I _]. rewrite left_length in M. unfold file_range in Hr. unfold seg_data. rewrite !lookup_drop.
  set (j := (Z.to_nat (p_offset ph) + Z.to_nat (va - seg_vaddr bias ph))%nat). assert (Hj : (S j <= length main)%nat /\ (S j <= length interp)%nat) by lia.
  rewrite <- (lookup_take_lt (left_of main interp) (S j)), <- (lookup_take_lt interp (S j)) by lia. by rewrite left_prefix by lia.
Qed.

(** C28: [k64_elf_execute_linux_dynamic] starts the interpreter only.  Both files
    are read into the one static buffer, so the header, the program headers and
    the segments that are taken for those of the main program are those of the
    interpreter.  For every main file, whatever it holds, a program is started
    only in an address space that has the interpreter at the addresses of its
    file and a second copy of it at the bias of main programs, with the entry and
    the program headers of that copy in the auxiliary vector.  The loader still
    does nothing undefined, and on every path all frames and slots are given
    back. *)
Theorem elf_execute_dynamic main_path argv0_path args interp_path e0 : elf_ok e0 -> area_clear (vm e0) -> low_clear (vm e0) ->
  no_nul (argv0_of main_path argv0_path) -> no_nul (default [] args) ->
  (forall interp h l, read_file interp_path = Some interp -> elf_header_valid interp = Some h -> phdrs interp h = Some l -> e_type h = K64_ELF_DYN ->
     let bias := K64_ELF_MAIN_DYN_LOAD_BIAS in
     starts_user (merged_image interp 0 l (merged_image interp bias l (fun _ => None)))
       (arguments (Some (argv0_of main_path argv0_path)) args) (info ids h l (u64 (e_entry h + bias)) bias 0) false (e_entry h)
       (Some main_path) 0 0 e0) ->
  wp (k64_elf_execute_linux_dynamic read_file fs_raw_buffer ids run_user (Some main_path) argv0_path args (Some interp_path))
    (fun _ => restored e0) (restored e0) e0.
Proof.
  intros Eo Ac Lc Hp Ha Hst. assert (Hnow : restored e0 e0) by (by apply restored_early).
  unfold k64_elf_execute_linux_dynamic. destruct main_path as [|c m']; [by wp_step|]. set (main_path := c :: m') in *.
  destruct interp_path as [|d i']; [by wp_step|]. set (interp_path := d :: i') in *. fold (argv0_of main_path argv0_path). unfold read_raw.
  destruct (read_file main_path) as [main|] eqn:Em; cbn [mbind option_bind]; [|by wp_step].
  destruct (read_file interp_path) as [interp|] eqn:Ei; cbn [mbind option_bind]; [|by wp_step].
  pose proof (files _ _ Em) as Bm. pose proof (files _ _ Ei) as Bi. cbv zeta. rewrite raw_main, take_app_length.
  pose proof (left_bytes main interp Bm Bi) as Bl.
  destruct (elf_header_valid (left_of main interp)) as [mh|] eqn:Hm; [|by wp_step]. destruct (elf_header_valid interp) as [ih|] eqn:Hi; [|by wp_step].
  destruct (left_header main interp mh ih Bm Bi Hm Hi) as [-> El]. destruct (phdrs_ok interp ih Bi Hi) as (l & Li & Fi).
  wp_step. apply wp_check; [intros Hd%Z.eqb_eq|by intros _]. rewrite Hd. change (K64_ELF_DYN =? K64_ELF_DYN) with true. cbv iota.
  wp_step. eapply wp_deref; [rewrite El; exact Li|]. wp_step. eapply wp_deref; [exact Li|].
  destruct (elf_scan_loads _ l K64_ELF_MAIN_DYN_LOAD_BIAS) as [[m1 m2]|] eqn:Sm; [|by wp_step].
  destruct (elf_scan_loads _ l 0) as [[i1 i2]|] eqn:Si; [|by wp_step].
  pose proof (scan_loads_spec (left_of main interp) l _ _ _ Fi Sm) as Vm. pose proof (scan_loads_spec interp l _ _ _ Fi Si) as Vi.
  wp_step. apply wp_check; [intros _|by intros _]. wp_step. apply wp_check; [intros _|by intros _]. wp_step.
  eapply wp_mono; [apply enter_spec| |by intros e ->]. intros i e (Hx & Hr & ->). wp_step. wp_step. wp_step. wp_step.
  apply (allocate_spec true _ i e0); [done|exact Hx|done|done|done|done|apply Eo|done|]. intros e1 L1.
  wp_step. eapply wp_mono; [apply (map_context i e0 e1 (left_of main interp) l K64_ELF_MAIN_DYN_LOAD_BIAS interp l Bl Bi Vm Vi L1)| |done]. intros [] e2 L2.
  destruct (held_stack _ _ _ (lv_held _ _ _ _ _ L2)) as (B1 & B2 & _). wp_step.
  eapply wp_mono; [apply (prepare_ready i e0 e2 _ (merged_image interp 0 l (merged_image interp K64_ELF_MAIN_DYN_LOAD_BIAS l (fun _ => None)))
    (argv0_of main_path argv0_path) args (info ids ih l (u64 (e_entry ih + K64_ELF_MAIN_DYN_LOAD_BIAS)) K64_ELF_MAIN_DYN_LOAD_BIAS 0) L2 Hp Ha)| |done].
  - intros va Hva. apply merged_image_at. rewrite (left_image _ _ _ 0) by done. apply merged_image_at. unfold stack_bytes. unfold K64_ELF_USER_MAX in Hva. by rewrite decide_False by lia.
  - intros va Hva. by rewrite (merged_image_high 0), (merged_image_high 0) by (done || lia).
  - intros sp e3 [Hrd _]. apply run_and_discard. by apply (Hst interp ih l eq_refl Hi Li Hd i e3 sp main_path Hrd).
Qed.

(** ** Kernel programs *)
Lemma elf_execute_kernel path e0 : elf_ok e0 ->
  (forall file h l i e c, read_file path = Some file -> elf_header_valid file = Some h -> phdrs file h = Some l ->
     live false i e0 e (program_image file (load_bias h) l (stack_bytes (stack_base (space (ctx_vm i e))))) ->
     c = k64_vmm_call_isolated (kernel_cr3 (vm e)) (Some (space (ctx_vm i e))) (u64 (e_entry h + load_bias h)) 0 0 0 ->
     wp (run_kernel c) (fun _ => held i e0) (fun _ => False) e) ->
  wp (k64_elf_execute_path read_file may_execute ids run_user run_kernel (Some path)) (fun _ => restored e0) (restored e0) e0.
Proof.
  intros Eo Hst. assert (Early : forall e, vm e = vm e0 -> elf_contexts e = elf_contexts e0 -> elf_context_depth e = elf_context_depth e0 -> restored e0 e).
  { intros e. by apply restored_early. }
  unfold k64_elf_execute_path, elf_execute_impl_ex. wp_step. wp_step. destruct path as [|c path']; [wp_step; by apply Early|]. set (path := c :: path') in *.
  wp_step. apply wp_check; [intros _|intros _; by apply Early].
  destruct (read_file path) as [file|] eqn:Er; [|wp_step; by apply Early]. pose proof (files _ _ Er) as Hf.
  destruct (elf_header_valid file) as [h|] eqn:Eh; [|wp_step; by apply Early]. destruct (phdrs_ok file h Hf Eh) as (l & El & Hl).
  wp_step. eapply wp_deref; [exact El|]. fold (load_bias h). cbv zeta.
  destruct (scan_loop _ _ _ _ _ _) as [[mn mx]|] eqn:Es; [|wp_step; by apply Early].
  destruct (scan_loop_spec K64_ELF_USER_MIN file (load_bias h) ltac:(done) l _ _ _ _ Hl Es) as (_ & _ & Hfit).
  assert (Hfits : forall ph, ph ∈ l -> is_load ph = true -> fits K64_ELF_USER_MIN file (load_bias h) ph) by (intros ph H1 H2; by apply Hfit).
  wp_step. apply wp_check; [intros _|intros _; by apply Early]. wp_step. wp_step. wp_step. wp_step. wp_step.
  eapply wp_mono; [apply enter_spec| |intros e ->; by apply Early]. intros i e (Hi & Hr & ->).
  apply (allocate_spec false _ i e0); [done|exact Hi|done|done|done|done|apply pid_positive, Eo|done|]. intros e1 L1.
  wp_step. eapply wp_mono; [apply (load_context false i e0 e1 file (load_bias h) l Hf Hfits L1)| |done]. intros [] e2 L2.
  apply run_and_discard. wp_step. eapply wp_mono; [apply (live_gets false i _ e0 e2 _ L2)| |done]. intros x e3 (Hx & L3 & Ec).
  apply (Hst file h l i e3 x); try done. { by rewrite Ec. } rewrite Hx. rewrite <- Ec. f_equal. unfold ctx_vm. by destruct (getZ _ i) as [[sp a]|].
Qed.
End execute.
