(* ===== verification/ElfWitness.v ===== *)
(** * The theorems on the program loader applied

    Two small programs, loaded on the machine of [VmmWitness], and what happens to
    segments that share a page. *)
From Stdlib Require Import ZArith Lia.
From stdpp Require Import base list gmap.
From S2P Require Import Prelude Exec KString Mem Pmm PmmSpec Frames Vmm VmmWalk VmmSpec VmmMap VmmUser VmmLoad VmmView VmmClone VmmAlloc VmmWitness Elf ElfStack ElfLoad ElfRun.

(** ** Files *)

(** A segment of [fs] bytes at offset [off] of the file, of [ms] bytes at [va]. *)
Definition phdr_bytes (off va fs ms : Z) : list Z :=
  le_bytes 4 1 ++ le_bytes 4 5 ++ le_bytes 8 off ++ le_bytes 8 va ++ le_bytes 8 va ++ le_bytes 8 fs ++ le_bytes 8 ms ++ le_bytes 8 4096.
Definition ehdr_bytes (type entry phnum : Z) : list Z :=
  [127; 69; 76; 70; 2; 1; 1; 0; 0; 0; 0; 0; 0; 0; 0; 0] ++ le_bytes 2 type ++ le_bytes 2 62 ++ le_bytes 4 1 ++ le_bytes 8 entry ++ le_bytes 8 64 ++
  le_bytes 8 0 ++ le_bytes 4 0 ++ le_bytes 2 64 ++ le_bytes 2 56 ++ le_bytes 2 phnum ++ le_bytes 2 0 ++ le_bytes 2 0 ++ le_bytes 2 0.

(** Two segments with pages of their own. *)
Definition two_pages : list Z :=
  ehdr_bytes 2 0x10000 2 ++ phdr_bytes 176 0x10000 4 8 ++ phdr_bytes 180 0x12ffe 3 5000 ++ [0xF4; 2; 3; 4; 5; 6; 7].
(** Two segments in one page. *)
Definition one_page : list Z :=
  ehdr_bytes 2 0x10000 2 ++ phdr_bytes 176 0x10000 4 4 ++ phdr_bytes 180 0x10800 4 4 ++ [0xF4; 2; 3; 4; 5; 6; 7; 8].

Definition header (file : list Z) : k64_elf64_ehdr_t := dec_ehdr (take 64 file).
Definition table (file : list Z) : list k64_elf64_phdr_t := default [] (phdrs file (header file)).

Lemma files_ok : bytes_ok two_pages /\ bytes_ok one_page.
Proof. split; apply (bool_decide_unpack _); vm_compute; exact I. Qed.

Lemma files_valid : (elf_header_valid two_pages = Some (header two_pages) /\ phdrs two_pages (header two_pages) = Some (table two_pages)) /\
  (elf_header_valid one_page = Some (header one_page) /\ phdrs one_page (header one_page) = Some (table one_page)).
Proof. split; split; vm_compute; reflexivity. Qed.

Lemma scans : scan_loop K64_ELF_USER_MIN (Z.of_nat (length two_pages)) 0 (table two_pages) UINT64_MAX 0 = Some (0x10000, 0x15000) /\
  scan_loop K64_ELF_USER_MIN (Z.of_nat (length one_page)) 0 (table one_page) UINT64_MAX 0 = Some (0x10000, 0x11000).
Proof. split; vm_compute; reflexivity. Qed.

Lemma two_pages_apart : pages_apart 0 (table two_pages).
Proof.
  intros i j p q va Hij Hi Hj. assert (Hl : length (table two_pages) = 2%nat) by (vm_compute; reflexivity).
  assert (i = 0%nat /\ j = 1%nat) as [-> ->] by (pose proof (lookup_lt_Some _ _ _ Hj); lia). vm_compute in Hi, Hj. injection Hi as <-. injection Hj as <-.
  unfold in_segment. intros [_ H1%bool_decide_eq_true]%andb_true_iff [_ H2%bool_decide_eq_true]%andb_true_iff.
  unfold page_range, seg_vaddr in *. cbn [p_vaddr p_memsz] in *. rewrite u64_small in H1, H2 by lia. dmlia.
Qed.

Lemma with_space_open : open_low with_space.
Proof. intros va _. apply with_space_user. Qed.

Lemma loads_return : returned (load_segments true two_pages 0 (table two_pages) with_space) = true /\
  returned (elf_map_loads true two_pages (table two_pages) 0 with_space) = true.
Proof. split; vm_compute; reflexivity. Qed.

Lemma returned_wp {S A} (m : M S A) Q E s : returned (m s) = true -> wp m Q E s -> exists a s', m s = Ret a s' /\ Q a s'.
Proof. unfold wp. destruct (m s) as [a s'| |]; [by exists a, s'|done|done]. Qed.

Lemma loaders_agree_witness :
  (exists a s', load_segments true two_pages 0 (table two_pages) with_space = Ret a s' /\ user_byte s' 0x10001 2) /\
  (exists a s', elf_map_loads true two_pages (table two_pages) 0 with_space = Ret a s' /\ user_byte s' 0x10001 2).
Proof.
  destruct (loaders_agree two_pages (header two_pages) (table two_pages) 0 0x10000 0x15000 with_space (fun _ => None) (proj1 files_ok)
    (proj1 (proj1 files_valid)) (proj2 (proj1 files_valid)) (proj1 scans) two_pages_apart with_space_ok (view_empty true with_space) with_space_open) as [H1 H2].
  split.
  - destruct (returned_wp _ _ _ _ (proj1 loads_return) H1) as (a & s' & E & H). exists a, s'. split; [exact E|]. apply H. vm_compute. reflexivity.
  - destruct (returned_wp _ _ _ _ (proj2 loads_return) H2) as (a & s' & E & H). exists a, s'. split; [exact E|]. apply H. vm_compute. reflexivity.
Defined.

(** ** Segments that share a page *)

(** [one_page] passes the checks.  [elf_map_loads] gives the user its bytes, but
    the loop of [elf_execute_impl_ex] maps the page of the second segment over that
    of the first: the program reads zero where its first instruction should be. *)
Theorem shared_page_lost (s : vmm pmm) u : space_ok s -> view true s u -> open_low s ->
  one_page !! 176%nat = Some 0xF4 /\ e_entry (header one_page) = 0x10000 /\
  elf_header_valid one_page = Some (header one_page) /\ phdrs one_page (header one_page) = Some (table one_page) /\
  wp (load_segments true one_page 0 (table one_page)) (fun _ s' => user_byte s' 0x10000 0) (fun _ => True) s /\
  wp (elf_map_loads true one_page (table one_page) 0) (fun _ s' => user_byte s' 0x10000 0xF4) (fun _ => True) s.
Proof.
  intros SO V Hop. destruct files_valid as [_ [Hh Hl]]. split_and!; [reflexivity|vm_compute; reflexivity|exact Hh|exact Hl| |].
  all: destruct (phdrs_ok one_page (header one_page) (proj2 files_ok) Hh) as (l & El & Hok); assert (l = table one_page) by congruence; subst l;
    destruct (scan_loop_spec K64_ELF_USER_MIN one_page 0 ltac:(done) (table one_page) _ _ _ _ Hok (proj2 scans)) as (_ & _ & Hfit);
    assert (Hfits : forall ph, ph ∈ table one_page -> is_load ph = true -> fits K64_ELF_USER_MIN one_page 0 ph) by (intros ph H1 H2; by apply Hfit).
  - eapply wp_mono; [apply (load_segments_spec true one_page 0 K64_ELF_USER_MIN (proj2 files_ok) ltac:(done) _ s u Hfits SO V (fun _ => Hop))| |done].
    intros ? s' [A V']. apply (view_byte s' _ _ _ (adv_ok _ _ _ A) V'). vm_compute. reflexivity.
  - eapply wp_mono; [apply (elf_map_loads_spec K64_ELF_USER_MIN one_page 0 _ s u (proj2 files_ok) ltac:(done) Hfits SO V Hop)| |done].
    intros ? s' [A V']. apply (view_byte s' _ _ _ (adv_ok _ _ _ A) V'). vm_compute. reflexivity.
Qed.

Lemma shared_page_lost_witness : exists a s', load_segments true one_page 0 (table one_page) with_space = Ret a s' /\ user_byte s' 0x10000 0.
Proof.
  destruct (shared_page_lost with_space (fun _ => None) with_space_ok (view_empty true with_space) with_space_open) as (_ & _ & _ & _ & H & _).
  assert (R : returned (load_segments true one_page 0 (table one_page) with_space) = true) by (vm_compute; reflexivity).
  exact (returned_wp _ _ _ _ R H).
Defined.

(** ** Whole executions *)

(** Four unused contexts. *)
Definition loader : elf pmm := mk_elf machine (replicate 4 (blank, mk_args (zeros 384) [])) 0 false K64_ELF_PID_BASE (K64_ELF_PID_BASE + 0x1000).

Lemma loader_ctx i : 0 <= i < 4 -> ctx_vm i loader = machine.
Proof. intros Hi. assert (i = 0 \/ i = 1 \/ i = 2 \/ i = 3) as [->|[->|[->| ->]]] by lia; reflexivity. Qed.

Lemma loader_ok : elf_ok loader.
Proof.
  split; [reflexivity| | |by vm_compute].
  - intros i Hi. rewrite loader_ctx by done. exact machine_kernel_ok.
  - intros i sp a H. apply lookup_replicate in H as [[= -> ->] _]. apply zeros_length.
Qed.

Lemma loader_low : low_clear (vm loader).
Proof. intros va _. apply (kernel_tbl va 2). Qed.

(** The files of the examples; a program that ends at once. *)
Definition example_files (path : list Z) : option (list Z) := if decide (path = str "/bin/a") then Some two_pages else None.
Definition ends_at_once (_ _ _ : Z) (_ : list Z) (_ _ : Z) : M (elf pmm) Z := mret 0.

Lemma example_bytes p f : example_files p = Some f -> bytes_ok f.
Proof. unfold example_files. case_decide; [|done]. intros [= <-]. apply files_ok. Qed.

Lemma ends_at_once_starts img args x checked entry name parent pid e0 : starts_user ends_at_once img args x checked entry name parent pid e0.
Proof. intros i e sp n (u & L & _) _ _. unfold ends_at_once. wp_step. apply L. Qed.

Lemma path_plain : no_nul (str "/bin/a") /\ no_nul (str "-v  x") /\ no_nul (str "/bin/b").
Proof. split_and!; repeat (apply List.Forall_nil || apply List.Forall_cons); vm_compute; split; congruence. Qed.

Lemma elf_parse_args_words_witness : exists a, elf_parse_args (zeros 384) (Some (str "/bin/a")) (Some (str "-v  x")) = Some a /\
  mapM (arg_at a) (argv a) = Some [str "/bin/a"; str "-v"; str "x"].
Proof.
  destruct (elf_parse_args_words (zeros 384) (Some (str "/bin/a")) (Some (str "-v  x")) (zeros_length 384) (proj1 path_plain) (proj1 (proj2 path_plain)))
    as (a & E & H & _). exists a. split; [exact E|]. rewrite H. vm_compute. reflexivity.
Defined.

Definition run_example : M (elf pmm) unit :=
  elf_execute_impl_ex example_files (fun _ => true) (0, 0, 0) ends_at_once (fun _ => mret 0) (Some (str "/bin/a")) true (Some (str "-v  x")) 0 0.
Lemma example_returns : returned (run_example loader) = true.
Proof. vm_compute. reflexivity. Qed.

Lemma elf_execute_user_witness : exists a e', run_example loader = Ret a e' /\ restored loader e'.
Proof.
  apply (returned_wp _ _ (restored loader) _ example_returns).
  exact (elf_execute_user example_files (fun _ => true) (0, 0, 0) ends_at_once (fun _ => mret 0) example_bytes (str "/bin/a") (Some (str "-v  x")) 0 0 loader
    loader_ok machine_area_clear loader_low (proj1 path_plain) (proj1 (proj2 path_plain))
    (fun file h l _ _ _ => ends_at_once_starts _ _ _ _ _ _ _ _ _)).
Defined.

(** A program and an interpreter, which ends up in both places. *)
Definition interpreter : list Z := ehdr_bytes 3 0x400000 1 ++ phdr_bytes 120 0x400000 4 4096 ++ [0xF4; 2; 3; 4].
Definition dynamic_files (path : list Z) : option (list Z) :=
  if decide (path = str "/bin/a") then Some two_pages else if decide (path = str "/bin/b") then Some interpreter else None.

Lemma dynamic_bytes p f : dynamic_files p = Some f -> bytes_ok f.
Proof.
  unfold dynamic_files. case_decide; [intros [= <-]; apply files_ok|]. case_decide; [|done]. intros [= <-]. apply (bool_decide_unpack _). vm_compute. exact I.
Qed.

Definition run_dynamic : M (elf pmm) unit :=
  k64_elf_execute_linux_dynamic dynamic_files [] (0, 0, 0) ends_at_once (Some (str "/bin/a")) None (Some (str "-v  x")) (Some (str "/bin/b")).
Lemma dynamic_returns : returned (run_dynamic loader) = true.
Proof. vm_compute. reflexivity. Qed.

Lemma elf_execute_dynamic_witness : exists a e', run_dynamic loader = Ret a e' /\ restored loader e'.
Proof.
  apply (returned_wp _ _ (restored loader) _ dynamic_returns).
  exact (elf_execute_dynamic dynamic_files [] (0, 0, 0) ends_at_once dynamic_bytes (str "/bin/a") None (Some (str "-v  x")) (str "/bin/b") loader
    loader_ok machine_area_clear loader_low (proj1 path_plain) (proj1 (proj2 path_plain))
    (fun interp h l _ _ _ _ => ends_at_once_starts _ _ _ _ _ _ _ _ _)).
Defined.
