(* ===== verification/Users.v ===== *)
(** * Users and groups ([k64_user.c])

    Accounts and groups live in two small tables that are kept in two text files.
    The commands of the [userctl] service change them; the rest of the kernel asks
    for the identity of the user who is logged in and for access decisions.

    A C string is the list of its bytes without the terminator.  [accounts] and
    [groups] are the parts of the two arrays that are in use: their lengths are
    [count] and [group_count].  A command returns the text it prints,
    without the end of line.  The file
    system is a parameter: a record of operations on a state of its own.  The
    registration of the commands with the service manager is left out. *)
From Stdlib Require Import ZArith Lia.
From stdpp Require Import base list.
From S2P Require Import Prelude KString.

Definition K64_USER_MAX_ACCOUNTS : Z := 8.
Definition K64_USER_NAME_MAX : Z := 16.
Definition K64_USER_PASS_MAX : Z := 40.
Definition K64_GROUP_MAX : Z := 16.
Definition K64_GROUP_NAME_MAX : Z := 16.
Definition K64_USER_DB_PATH : list Z := str "/etc/users.k64".
Definition K64_GROUP_DB_PATH : list Z := str "/etc/groups.k64".
Definition K64_ACCESS_EXEC : Z := 1.
Definition K64_ACCESS_WRITE : Z := 2.
Definition K64_ACCESS_READ : Z := 4.
Definition K64_SERVICE_CLASS_USER : Z := 3.

Record k64_user_account_t := mk_account {
  name : list Z;
  password : list Z;
  primary_group : list Z;
  is_root : bool;
  sudoer : bool
}.

(** [members] is the whole array. *)
Record k64_user_group_t := mk_group { g_name : list Z; members : list bool }.

Record k64_user_state_t := mk_users {
  ready : bool;
  accounts : list k64_user_account_t;
  groups : list k64_user_group_t;
  current_index : Z;
  sudo_active : bool
}.

Definition count (u : k64_user_state_t) : Z := Z.of_nat (length (accounts u)).
Definition group_count (u : k64_user_state_t) : Z := Z.of_nat (length (groups u)).
Definition set_accounts (l : list k64_user_account_t) (u : k64_user_state_t) : k64_user_state_t :=
  mk_users (ready u) l (groups u) (current_index u) (sudo_active u).
Definition set_groups (l : list k64_user_group_t) (u : k64_user_state_t) : k64_user_state_t :=
  mk_users (ready u) (accounts u) l (current_index u) (sudo_active u).
Definition set_current (i : Z) (sudo : bool) (u : k64_user_state_t) : k64_user_state_t :=
  mk_users (ready u) (accounts u) (groups u) i sudo.
Definition set_ready (b : bool) (u : k64_user_state_t) : k64_user_state_t :=
  mk_users b (accounts u) (groups u) (current_index u) (sudo_active u).

(** ** Strings *)

(** [k64_streq] on C strings. *)
Definition same (s t : list Z) : bool := bool_decide (s = t).
Definition empty (s : list Z) : bool := match s with [] => true | _ => false end.

Definition user_copy (dst_size : Z) (src : list Z) : list Z := take (Z.to_nat (dst_size - 1)) src.
Definition user_append (dst_size : Z) (dst src : list Z) : list Z := dst ++ take (Z.to_nat (dst_size - 1 - Z.of_nat (length dst))) src.

Definition is_blank (c : Z) : bool := (c =? 32) || (c =? 9).
Fixpoint user_skip_ws (s : list Z) : list Z :=
  match s with c :: t => if is_blank c then user_skip_ws t else s | [] => [] end.
Fixpoint take_token (n : nat) (s : list Z) : list Z :=
  match n, s with
  | S n, c :: t => if is_blank c then [] else c :: take_token n t
  | _, _ => []
  end.
(** The token and what is behind it. *)
Definition user_next_token (s : list Z) (token_size : Z) : list Z * list Z :=
  let s := user_skip_ws s in
  let token := take_token (Z.to_nat (token_size - 1)) s in
  (token, user_skip_ws (drop (length token) s)).

Fixpoint next_tokens (s : list Z) (sizes : list Z) : list (list Z) :=
  match sizes with
  | [] => []
  | n :: sizes => let '(token, s) := user_next_token s n in token :: next_tokens s sizes
  end.

(** ** Passwords *)
Definition user_hash_is_encoded (value : list Z) : bool := bool_decide (take 4 value = str "k64$").

(** [hash ^= c; hash *= 1099511628211] *)
Definition hash_byte (hash c : Z) : Z := u64 (Z.lxor hash c * 1099511628211).
Definition hash_bytes (hash : Z) (s : list Z) : Z := fold_left hash_byte s hash.
Definition hash_of (user_name password : list Z) : Z :=
  hash_bytes (hash_byte (hash_bytes (hash_bytes 1469598103934665603 (str "K64:userctl:v1")) user_name) 58) password.
Definition hex_digit (d : Z) : Z := if d <? 10 then 48 + d else 87 + d.
Definition hex_digits (hash : Z) : list Z := map (fun i => hex_digit (Z.land (Z.shiftr hash (60 - 4 * Z.of_nat i)) 0xF)) (List.seq 0 16).

Definition user_hash_password (user_name password : list Z) (out_size : Z) : list Z :=
  if out_size <? 5 then [] else str "k64$" ++ take (Z.to_nat (out_size - 5)) (hex_digits (hash_of user_name password)).

Definition user_store_password (dst_size : Z) (user_name password_value : list Z) (already_hashed : bool) : list Z :=
  if already_hashed && user_hash_is_encoded password_value then user_copy dst_size password_value
  else user_hash_password user_name password_value dst_size.

Definition user_password_matches (account : k64_user_account_t) (candidate : list Z) : bool :=
  if negb (user_hash_is_encoded (password account)) then same (password account) candidate
  else same (password account) (user_hash_password (name account) candidate K64_USER_PASS_MAX).

(** ** The tables *)
Fixpoint find_index {A} (p : A -> bool) (l : list A) (i : Z) : Z :=
  match l with
  | [] => -1
  | x :: l => if p x then i else find_index p l (i + 1)
  end.
Definition user_find (n : list Z) (u : k64_user_state_t) : Z := find_index (fun a => same (name a) n) (accounts u) 0.
Definition group_find (n : list Z) (u : k64_user_state_t) : Z := find_index (fun g => same (g_name g) n) (groups u) 0.

Definition no_members : list bool := replicate 8 false.

(** The return value and the new state. *)
Definition group_add_internal (n : list Z) (u : k64_user_state_t) : bool * k64_user_state_t :=
  if empty n then (false, u)
  else if 0 <=? group_find n u then (true, u)
  else if K64_GROUP_MAX <=? group_count u then (false, u)
  else (true, set_groups (groups u ++ [mk_group (user_copy K64_GROUP_NAME_MAX n) no_members]) u).

Definition in_range (i n : Z) : bool := (0 <=? i) && (i <? n).

Definition group_set_membership (group_idx user_idx : Z) (member : bool) (u : k64_user_state_t) : k64_user_state_t :=
  if in_range group_idx (group_count u) && in_range user_idx (count u) then
    set_groups (alter (fun g => mk_group (g_name g) (<[Z.to_nat user_idx := member]> (members g))) (Z.to_nat group_idx) (groups u)) u
  else u.

Definition group_is_member (group_idx user_idx : Z) (u : k64_user_state_t) : bool :=
  if in_range group_idx (group_count u) && in_range user_idx (count u) then
    match getZ (groups u) group_idx with
    | Some g => default false (getZ (members g) user_idx)
    | None => false
    end
  else false.

Definition user_add_to_group (user_name group_name : list Z) (u : k64_user_state_t) : bool * k64_user_state_t :=
  let user_idx := user_find user_name u in
  if user_idx <? 0 then (false, u) else
  let '(ok, u) := group_add_internal group_name u in
  if negb ok then (false, u) else
  let group_idx := group_find group_name u in
  if group_idx <? 0 then (false, u) else (true, group_set_membership group_idx user_idx true u).

Definition user_remove_from_group (user_name group_name : list Z) (u : k64_user_state_t) : bool * k64_user_state_t :=
  let user_idx := user_find user_name u in
  let group_idx := group_find group_name u in
  if (user_idx <? 0) || (group_idx <? 0) then (false, u) else
  match getZ (accounts u) user_idx with
  | None => (false, u)
  | Some a => if same (primary_group a) group_name then (false, u) else (true, group_set_membership group_idx user_idx false u)
  end.

(** The names of the groups of a user. *)
Definition comma_list (size : Z) (names : list (list Z)) : list Z :=
  match names with
  | [] => []
  | n :: names => fold_left (fun out n => user_append size (user_append size out (str ",")) n) names (user_append size [] n)
  end.
Definition user_collect_groups (user_idx out_size : Z) (u : k64_user_state_t) : list Z :=
  if negb (in_range user_idx (count u)) then [] else
  comma_list out_size (map (fun '(i, g) => g_name g)
    (List.filter (fun '(i, g) => group_is_member (Z.of_nat i) user_idx u) (combine (List.seq 0 (length (groups u))) (groups u)))).

Definition user_reset_state (u : k64_user_state_t) : k64_user_state_t := mk_users (ready u) [] [] (-1) false.

Definition or_name (primary n : list Z) : list Z := if empty primary then n else primary.

(** What an account is given when it is added or overwritten. *)
Definition account_of (old_name n pass : list Z) (root sudo : bool) (primary : list Z) (hashed : bool) : k64_user_account_t :=
  mk_account old_name (user_store_password K64_USER_PASS_MAX n pass hashed) (user_copy K64_GROUP_NAME_MAX (or_name primary n)) root (sudo || root).

Definition user_add_account (n pass : list Z) (root sudo : bool) (primary : list Z) (hashed : bool) (u : k64_user_state_t) : bool * k64_user_state_t :=
  if empty n || empty pass then (false, u) else
  let '(ok, u) := if empty primary then (true, u) else group_add_internal primary u in
  if negb ok then (false, u) else
  let idx := user_find n u in
  if 0 <=? idx then
    (true, set_accounts (alter (fun a => account_of (name a) n pass root sudo primary hashed) (Z.to_nat idx) (accounts u)) u)
  else if K64_USER_MAX_ACCOUNTS <=? count u then (false, u)
  else (true, set_accounts (accounts u ++ [account_of (user_copy K64_USER_NAME_MAX n) n pass root sudo primary hashed]) u).

(** [for (int i = 0; i < user_state.count; ++i)] *)
Definition for_accounts (f : Z -> k64_user_account_t -> k64_user_state_t -> k64_user_state_t) (u : k64_user_state_t) : k64_user_state_t :=
  fold_left (fun u i => match accounts u !! i with Some a => f (Z.of_nat i) a u | None => u end) (List.seq 0 (length (accounts u))) u.

Definition user_sync_role_groups (u : k64_user_state_t) : k64_user_state_t :=
  let u := snd (group_add_internal (str "root") u) in
  let u := snd (group_add_internal (str "sudo") u) in
  let root_group := group_find (str "root") u in
  let sudo_group := group_find (str "sudo") u in
  for_accounts (fun i a u =>
    group_set_membership sudo_group i (sudoer a || is_root a) (group_set_membership root_group i (is_root a) u)) u.

Definition set_primary (n : list Z) (a : k64_user_account_t) : k64_user_account_t := mk_account (name a) (password a) n (is_root a) (sudoer a).

Definition ensure_primary (i : Z) (a : k64_user_account_t) (u : k64_user_state_t) : k64_user_state_t :=
  let n := if empty (primary_group a) then user_copy K64_GROUP_NAME_MAX (name a) else primary_group a in
  let u := set_accounts (alter (set_primary n) (Z.to_nat i) (accounts u)) u in
  let u := snd (group_add_internal n u) in
  group_set_membership (group_find n u) i true u.
Definition user_ensure_primary_groups (u : k64_user_state_t) : k64_user_state_t := for_accounts ensure_primary u.

Definition user_seed_defaults (u : k64_user_state_t) : k64_user_state_t :=
  let u := user_reset_state u in
  let u := snd (group_add_internal (str "root") u) in
  let u := snd (group_add_internal (str "sudo") u) in
  let u := snd (user_add_account (str "root") (str "root") true true (str "root") false u) in
  let u := snd (user_add_account (str "guest") (str "guest") false true (str "guest") false u) in
  let u := user_ensure_primary_groups u in
  let u := user_sync_role_groups u in
  set_current (-1) false u.

(** ** Identity and access *)
Definition current (u : k64_user_state_t) : option k64_user_account_t :=
  if negb (ready u) || (current_index u <? 0) || (count u <=? current_index u) then None else getZ (accounts u) (current_index u).

Definition k64_user_is_root (u : k64_user_state_t) : bool :=
  match current u with None => false | Some a => is_root a || sudo_active u end.
Definition k64_user_is_logged_in (u : k64_user_state_t) : bool := ready u && (0 <=? current_index u) && (current_index u <? count u).
Definition k64_user_can_sudo (u : k64_user_state_t) : bool := match current u with None => false | Some a => is_root a || sudoer a end.
Definition k64_user_begin_sudo_scope (u : k64_user_state_t) : k64_user_state_t :=
  match current u with None => u | Some a => if negb (is_root a) && sudoer a then set_current (current_index u) true u else u end.
Definition k64_user_end_sudo_scope (u : k64_user_state_t) : k64_user_state_t :=
  match current u with None => u | Some a => if negb (is_root a) then set_current (current_index u) false u else u end.

(** [None] for a [NULL] service; the argument is its class. *)
Definition k64_user_can_manage_service (class_id : option Z) (u : k64_user_state_t) : bool :=
  match class_id with None => false | Some c => if k64_user_is_root u then true else c =? K64_SERVICE_CLASS_USER end.
Definition k64_user_can_manage_drivers (u : k64_user_state_t) : bool := k64_user_is_root u.

Definition k64_user_effective_name (u : k64_user_state_t) : list Z :=
  match current u with None => str "guest" | Some a => if k64_user_is_root u then str "root" else name a end.
Definition k64_user_real_name (u : k64_user_state_t) : list Z := match current u with None => str "guest" | Some a => name a end.

Definition k64_user_real_uid (u : k64_user_state_t) : Z :=
  match current u with None => 1000 | Some a => if is_root a then 0 else 1000 + current_index u end.
Definition k64_user_effective_uid (u : k64_user_state_t) : Z := if k64_user_is_root u then 0 else k64_user_real_uid u.
Definition k64_user_effective_gid (u : k64_user_state_t) : Z :=
  if k64_user_is_root u then 0 else
  match current u with
  | None => 1000
  | Some a => let group_idx := group_find (primary_group a) u in if 0 <=? group_idx then 1000 + group_idx else 1000
  end.

Definition account_uid (idx : Z) (a : k64_user_account_t) : Z := if is_root a then 0 else 1000 + idx.
Definition k64_user_name_to_uid (n : list Z) (u : k64_user_state_t) : option Z :=
  let idx := user_find n u in
  match getZ (accounts u) idx with None => None | Some a => Some (account_uid idx a) end.
Definition k64_user_group_to_gid (n : list Z) (u : k64_user_state_t) : option Z :=
  let idx := group_find n u in
  if idx <? 0 then None else Some (if same n (str "root") then 0 else 1000 + idx).

Definition k64_user_is_member_gid (gid : Z) (u : k64_user_state_t) : bool :=
  match current u with
  | None => false
  | Some _ =>
      if k64_user_is_root u then true
      else if gid =? 0 then group_is_member (group_find (str "root") u) (current_index u) u
      else if 1000 <=? gid then group_is_member (int32 (gid - 1000)) (current_index u) u
      else false
  end.

Definition mode_bits (mode shift : Z) : Z := Z.land (Z.shiftr mode shift) 7.
Definition k64_user_can_access (owner_uid owner_gid mode mask : Z) (u : k64_user_state_t) : bool :=
  if k64_user_is_root u then true else
  let bits :=
    if k64_user_effective_uid u =? owner_uid then mode_bits mode 6
    else if k64_user_is_member_gid owner_gid u then mode_bits mode 3
    else mode_bits mode 0 in
  Z.land bits mask =? mask.
Definition k64_user_can_access_uid (effective_uid effective_gid owner_uid owner_gid mode mask : Z) : bool :=
  if effective_uid =? 0 then true else
  let bits :=
    if effective_uid =? owner_uid then mode_bits mode 6
    else if effective_gid =? owner_gid then mode_bits mode 3
    else mode_bits mode 0 in
  Z.land bits mask =? mask.

(** ** The two files *)

(** The calls of [k64_fs.c] that are used here. *)
Record file_system (F : Type) := mk_fs {
  k64_fs_driver_running : F -> bool;
  k64_fs_cat : list Z -> Z -> F -> option (list Z);
  k64_fs_ls : list Z -> Z -> F -> bool;
  k64_fs_mkdir : list Z -> F -> F;
  k64_fs_touch : list Z -> F -> F;
  k64_fs_write_file : list Z -> list Z -> F -> bool * F;
  k64_fs_chmod : list Z -> Z -> F -> F;
  k64_fs_chown : list Z -> Z -> Z -> F -> F
}.
Arguments k64_fs_driver_running {F}.
Arguments k64_fs_cat {F}.
Arguments k64_fs_ls {F}.
Arguments k64_fs_mkdir {F}.
Arguments k64_fs_touch {F}.
Arguments k64_fs_write_file {F}.
Arguments k64_fs_chmod {F}.
Arguments k64_fs_chown {F}.

Definition append_all (size : Z) (parts : list (list Z)) (buf : list Z) : list Z := fold_left (user_append size) parts buf.

Definition account_line (a : k64_user_account_t) : list (list Z) :=
  [name a; str ":"; password a; str ":"; if is_root a then str "root" else str "user"; str ":"; if sudoer a then str "1" else str "0"; str ":"; primary_group a; [10]].
Definition users_text (u : k64_user_state_t) : list Z := fold_left (fun buf a => append_all 1024 (account_line a) buf) (accounts u) [].

(** The names of the members of a group, with the commas in front of all but the
    first. *)
Fixpoint member_parts (first : bool) (l : list (bool * k64_user_account_t)) : list (list Z) :=
  match l with
  | [] => []
  | (true, a) :: l => (if first then [name a] else [str ","; name a]) ++ member_parts false l
  | (false, _) :: l => member_parts first l
  end.
Definition group_line (l : list k64_user_account_t) (g : k64_user_group_t) : list (list Z) :=
  [g_name g; str ":"] ++ member_parts true (combine (members g) l) ++ [[10]].
Definition groups_text (u : k64_user_state_t) : list Z := fold_left (fun buf g => append_all 1024 (group_line (accounts u) g) buf) (groups u) [].

(** The next line of at most 159 bytes, and what is behind it. *)
Fixpoint take_line (n : nat) (s : list Z) : list Z :=
  match n, s with
  | S n, c :: t => if c =? 10 then [] else c :: take_line n t
  | _, _ => []
  end.
Definition next_line (s : list Z) : list Z * list Z :=
  let line := take_line 159 s in
  let rest := drop (length line) s in
  (line, match rest with c :: t => if c =? 10 then t else rest | [] => [] end).

(** The fields between colons. *)
Fixpoint split_colons (s : list Z) : list (list Z) :=
  match s with
  | [] => [[]]
  | c :: t =>
      if c =? 58 then [] :: split_colons t
      else match split_colons t with f :: fs => (c :: f) :: fs | [] => [[c]] end
  end.
Definition field (line : list Z) (i : nat) : list Z := take 31 (nth i (split_colons line) []).

Definition load_account (line : list Z) (u : k64_user_state_t) : k64_user_state_t :=
  if empty (field line 0) || empty (field line 1) then u else
  snd (user_add_account (field line 0) (field line 1) (same (field line 2) (str "root"))
    (bool_decide (head (field line 3) = Some 49)) (or_name (field line 4) (field line 0)) (user_hash_is_encoded (field line 1)) u).

(** [while ( *p)]: a round takes at least a byte. *)
Fixpoint load_accounts (fuel : nat) (p : list Z) (u : k64_user_state_t) : option k64_user_state_t :=
  match p with
  | [] => Some u
  | _ =>
      match fuel with
      | O => None
      | S fuel =>
          let '(line, p) := next_line p in
          load_accounts fuel p (if empty line then u else load_account line u)
      end
  end.

(** The names in the list of members. *)
Fixpoint skip_separators (s : list Z) : list Z :=
  match s with c :: t => if (c =? 44) || (c =? 32) then skip_separators t else s | [] => [] end.
Fixpoint take_member (n : nat) (s : list Z) : list Z :=
  match n, s with
  | S n, c :: t => if c =? 44 then [] else c :: take_member n t
  | _, _ => []
  end.
Fixpoint skip_member (s : list Z) : list Z :=
  match s with c :: t => if c =? 44 then t else skip_member t | [] => [] end.

Fixpoint load_members (fuel : nat) (group_name mp : list Z) (u : k64_user_state_t) : option k64_user_state_t :=
  match mp with
  | [] => Some u
  | _ =>
      match fuel with
      | O => None
      | S fuel =>
          let mp := skip_separators mp in
          let user_name := take_member 15 mp in
          let mp := skip_member (drop (length user_name) mp) in
          let user_idx := user_find user_name u in
          load_members fuel group_name mp (if 0 <=? user_idx then group_set_membership (group_find group_name u) user_idx true u else u)
      end
  end.

Fixpoint split_first_colon (s : list Z) : list Z * list Z :=
  match s with
  | [] => ([], [])
  | c :: t => if c =? 58 then ([], t) else let '(a, b) := split_first_colon t in (c :: a, b)
  end.

Definition load_group (line : list Z) (u : k64_user_state_t) : option k64_user_state_t :=
  let '(a, b) := split_first_colon line in
  let group_name := user_copy K64_GROUP_NAME_MAX a in
  let mem := user_copy 96 b in
  if empty group_name then Some u else
  let '(ok, u) := group_add_internal group_name u in
  if negb ok then Some u else load_members (length mem) group_name mem u.

Fixpoint load_groups (fuel : nat) (p : list Z) (u : k64_user_state_t) : option k64_user_state_t :=
  match p with
  | [] => Some u
  | _ =>
      match fuel with
      | O => None
      | S fuel =>
          let '(line, p) := next_line p in
          u ← (if empty line then Some u else load_group line u);
          load_groups fuel p u
      end
  end.

Section commands.
Context {F : Type} (fs : file_system F).
Abbreviation state := (k64_user_state_t * F)%type.

Definition user_save_db (s : state) : bool * state :=
  let '(u, f) := s in
  let f := k64_fs_touch fs K64_USER_DB_PATH f in
  let '(ok, f) := k64_fs_write_file fs K64_USER_DB_PATH (users_text u) f in (ok, (u, f)).
Definition user_save_groups_db (s : state) : bool * state :=
  let '(u, f) := s in
  let f := k64_fs_touch fs K64_GROUP_DB_PATH f in
  let '(ok, f) := k64_fs_write_file fs K64_GROUP_DB_PATH (groups_text u) f in (ok, (u, f)).
Definition user_save_state (s : state) : bool * state :=
  let '(ok, s) := user_save_db s in
  if ok then user_save_groups_db s else (false, s).

Definition seed_and_save (s : state) : bool * state := user_save_state (user_seed_defaults (fst s), snd s).

(** [None]: a loop did not end within its fuel. *)
Definition user_load_db (s : state) : option (bool * state) :=
  let '(u, f) := s in
  match k64_fs_cat fs K64_USER_DB_PATH 1024 f with
  | None | Some [] => Some (seed_and_save s)
  | Some buf =>
      u ← load_accounts (length buf) buf (user_reset_state u);
      Some (if count u =? 0 then seed_and_save (u, f) else (true, (u, f)))
  end.

Definition user_load_groups_db (s : state) : option (bool * state) :=
  let '(u, f) := s in
  match k64_fs_cat fs K64_GROUP_DB_PATH 1024 f with
  | None | Some [] => Some (user_save_groups_db (user_sync_role_groups (user_ensure_primary_groups u), f))
  | Some buf =>
      u ← load_groups (length buf) buf u;
      Some (true, (user_sync_role_groups (user_ensure_primary_groups u), f))
  end.

Definition user_ensure_dir (path : list Z) (s : state) : state :=
  let '(u, f) := s in if k64_fs_ls fs path 64 f then s else (u, k64_fs_mkdir fs path f).

Definition user_home_path (n : list Z) (out_size : Z) : list Z := user_append out_size (user_append out_size [] (str "/usr/")) n.

(** [k64_fs_chmod(path, mode); k64_fs_chown(path, uid, gid);] *)
Definition chmod_chown (path : list Z) (mode uid gid : Z) (s : state) : state :=
  let '(u, f) := s in (u, k64_fs_chown fs path uid gid (k64_fs_chmod fs path mode f)).

(** The home of an account. *)
Definition give_home (path : list Z) (idx : Z) (a : k64_user_account_t) (s : state) : state :=
  let group_idx := group_find (primary_group a) (fst s) in
  chmod_chown path 0x1E8 (account_uid idx a) (if group_idx <=? 0 then 0 else 1000 + group_idx) s.

Definition layout_dirs : list (list Z) :=
  [str "/bin"; str "/dev"; str "/etc"; str "/home"; str "/lib"; str "/mnt"; str "/proc"; str "/run"; str "/srv"; str "/tmp"; str "/usr"; str "/var"].

Definition user_ensure_layout (s : state) : state :=
  let s := fold_left (fun s d => user_ensure_dir d s) layout_dirs s in
  let s := (fst s, k64_fs_chmod fs (str "/tmp") 0x1FF (snd s)) in
  let s := chmod_chown K64_USER_DB_PATH 0x180 0 0 s in
  let s := chmod_chown K64_GROUP_DB_PATH 0x1A4 0 0 s in
  fold_left (fun s '(i, a) =>
    let path := user_home_path (name a) 64 in
    give_home path (Z.of_nat i) a (user_ensure_dir path s)) (combine (List.seq 0 (length (accounts (fst s)))) (accounts (fst s))) s.

(** ** Commands *)
Definition user_require_login (u : k64_user_state_t) : bool := in_range (current_index u) (count u).
Definition login_required : list Z := str "login required".
Definition root_required : list Z := str "permission denied: root privileges required".

Definition or_dash (s : list Z) : list Z := if empty s then str "-" else s.

Definition print_user (u : k64_user_state_t) (i : Z) (a : k64_user_account_t) : list Z :=
  name a ++ str "  " ++ (if is_root a then str "root" else str "user") ++ (if sudoer a && negb (is_root a) then str " sudo" else []) ++
  str " primary=" ++ primary_group a ++ str " groups=" ++ or_dash (user_collect_groups i 128 u) ++
  (if i =? current_index u then if sudo_active u then str " current(effective root)" else str " current" else []) ++ [10].
Definition user_print_users (u : k64_user_state_t) : list Z :=
  concat (map (fun '(i, a) => print_user u (Z.of_nat i) a) (combine (List.seq 0 (length (accounts u))) (accounts u))).

Definition comma_space (names : list (list Z)) : list Z :=
  match names with [] => str "-" | n :: names => n ++ concat (map (fun n => str ", " ++ n) names) end.
Definition print_group (u : k64_user_state_t) (g : k64_user_group_t) : list Z :=
  g_name g ++ str ": " ++ comma_space (map (fun '(_, a) => name a) (List.filter fst (combine (members g) (accounts u)))) ++ [10].
Definition user_print_groups (u : k64_user_state_t) : list Z := concat (map (print_group u) (groups u)).

(** A command prints a text. *)
Definition command := list Z -> state -> list Z * state.

Definition user_command_users : command := fun _ s => (user_print_users (fst s), s).
Definition user_command_groups : command := fun args s =>
  let u := fst s in
  let '(n, _) := user_next_token args K64_USER_NAME_MAX in
  if empty n then (user_print_groups u, s) else
  let idx := user_find n u in
  if idx <? 0 then (str "user not found", s)
  else (n ++ str ": " ++ or_dash (user_collect_groups idx 128 u) ++ [10], s).
Definition user_command_whoami : command := fun _ s => (k64_user_effective_name (fst s), s).
Definition user_command_id : command := fun _ s =>
  let u := fst s in
  if negb (user_require_login u) then (login_required, s) else
  match getZ (accounts u) (current_index u) with
  | None => ([], s)
  | Some a =>
      (str "real=" ++ name a ++ str " effective=" ++ k64_user_effective_name u ++ str " primary=" ++ primary_group a ++
       str " groups=" ++ or_dash (user_collect_groups (current_index u) 128 u) ++ str " home=" ++ user_home_path (name a) 64 ++ [10], s)
  end.

Definition user_command_login_like : command := fun args s =>
  let '(u, f) := s in
  match next_tokens args [K64_USER_NAME_MAX; K64_USER_PASS_MAX] with
  | [n; pass] =>
      if empty n || empty pass then (str "usage: login <user> <password>", s) else
      let idx := user_find n u in
      match getZ (accounts u) idx with
      | None => (str "authentication failed", s)
      | Some a =>
          if user_password_matches a pass then (str "logged in as " ++ name a, (set_current idx false u, f))
          else (str "authentication failed", s)
      end
  | _ => ([], s)
  end.
Definition user_command_login : command := user_command_login_like.
Definition user_command_su : command := user_command_login_like.
Definition user_command_logout : command := fun _ s => (str "logged out", (set_current (-1) false (fst s), snd s)).

Definition user_command_sudo : command := fun args s =>
  let '(u, f) := s in
  if negb (user_require_login u) then (login_required, s) else
  match getZ (accounts u) (current_index u) with
  | None => ([], s)
  | Some a =>
      let '(action, _) := user_next_token args K64_USER_PASS_MAX in
      if empty action || same action (str "on") then
        if k64_user_is_root u then (str "already root", s)
        else if negb (sudoer a) then (str "permission denied: account is not in sudo", s)
        else (str "sudo active", (set_current (current_index u) true u, f))
      else if same action (str "off") then (str "sudo inactive", (set_current (current_index u) false u, f))
      else if negb (sudoer a) then (str "permission denied: account is not in sudo", s)
      else if negb (user_password_matches a action) then (str "authentication failed", s)
      else (str "sudo active", (set_current (current_index u) true u, f))
  end.

Definition set_password (p : list Z) (a : k64_user_account_t) : k64_user_account_t := mk_account (name a) p (primary_group a) (is_root a) (sudoer a).
Definition set_role (root sudo : bool) (a : k64_user_account_t) : k64_user_account_t := mk_account (name a) (password a) (primary_group a) root sudo.

(** The name of the user who is logged in, as [passwd] checks it. *)
Definition own_name (u : k64_user_state_t) (n : list Z) : bool :=
  user_require_login u && match getZ (accounts u) (current_index u) with Some a => same (name a) n | None => false end.

Definition user_command_passwd : command := fun args s =>
  let '(u, f) := s in
  match next_tokens args [K64_USER_NAME_MAX; K64_USER_PASS_MAX] with
  | [n; pass] =>
      if empty n || empty pass then (str "usage: passwd <user> <new-password>", s) else
      let idx := user_find n u in
      match getZ (accounts u) idx with
      | None => (str "user not found", s)
      | Some a =>
          if negb (k64_user_is_root u) && negb (own_name u n) then
            ((if user_require_login u then [] else login_required ++ [10]) ++ str "permission denied", s) else
          let u := set_accounts (alter (set_password (user_store_password K64_USER_PASS_MAX (name a) pass false)) (Z.to_nat idx) (accounts u)) u in
          (str "password updated", snd (user_save_db (u, f)))
      end
  | _ => ([], s)
  end.

Definition user_command_useradd : command := fun args s =>
  let '(u, f) := s in
  if negb (k64_user_is_root u) then (root_required, s) else
  match next_tokens args [K64_USER_NAME_MAX; K64_USER_PASS_MAX; 8; K64_GROUP_NAME_MAX] with
  | [n; pass; role; primary] =>
      if empty n || empty pass then (str "usage: useradd <user> <password> [user|sudo|root] [primary-group]", s) else
      let root := same role (str "root") in
      let sudo := root || same role (str "sudo") in
      let primary := if empty primary then user_copy K64_GROUP_NAME_MAX n else primary in
      let '(ok, u) := user_add_account n pass root sudo primary false u in
      if negb ok then (str "useradd failed", (u, f)) else
      let u := user_sync_role_groups (user_ensure_primary_groups u) in
      let path := user_home_path n 64 in
      let s := user_ensure_dir path (u, f) in
      let s := match getZ (accounts u) (user_find n u) with Some a => give_home path (user_find n u) a s | None => s end in
      (str "user added", snd (user_save_state s))
  | _ => ([], s)
  end.

(** [members[i] = members[i + 1]] from [idx] on; [n] is the new number of users. *)
Definition shift_members (idx n : nat) (l : list bool) : list bool := take idx l ++ take (n - idx) (drop (S idx) l) ++ [false] ++ drop (S n) l.

Definition user_command_userdel : command := fun args s =>
  let '(u, f) := s in
  if negb (k64_user_is_root u) then (root_required, s) else
  let '(n, _) := user_next_token args K64_USER_NAME_MAX in
  if empty n then (str "usage: userdel <user>", s) else
  let idx := user_find n u in
  match getZ (accounts u) idx with
  | None => (str "user not found", s)
  | Some a =>
      if is_root a then (str "cannot delete root account", s) else
      let i := Z.to_nat idx in
      let l := delete i (accounts u) in
      let gs := map (fun g => mk_group (g_name g) (shift_members i (length l) (members g))) (groups u) in
      let '(cur, sudo) :=
        if current_index u =? idx then (-1, false)
        else if idx <? current_index u then (current_index u - 1, sudo_active u)
        else (current_index u, sudo_active u) in
      (str "user deleted", snd (user_save_state (mk_users (ready u) l gs cur sudo, f)))
  end.

Definition user_command_groupadd : command := fun args s =>
  let '(u, f) := s in
  if negb (k64_user_is_root u) then (root_required, s) else
  let '(g, _) := user_next_token args K64_GROUP_NAME_MAX in
  if empty g then (str "usage: groupadd <group>", s) else
  let '(ok, u) := group_add_internal g u in
  if negb ok then (str "groupadd failed", (u, f)) else (str "group added", snd (user_save_groups_db (u, f))).

Definition user_command_groupdel : command := fun args s =>
  let '(u, f) := s in
  if negb (k64_user_is_root u) then (root_required, s) else
  let '(g, _) := user_next_token args K64_GROUP_NAME_MAX in
  if empty g then (str "usage: groupdel <group>", s)
  else if same g (str "root") || same g (str "sudo") then (str "cannot delete essential group", s) else
  let idx := group_find g u in
  if idx <? 0 then (str "group not found", s)
  else if existsb (fun a => same (primary_group a) g) (accounts u) then (str "group is still a primary group", s)
  else (str "group deleted", snd (user_save_groups_db (set_groups (delete (Z.to_nat idx) (groups u)) u, f))).

Definition user_command_gpasswd : command := fun args s =>
  let '(u, f) := s in
  if negb (k64_user_is_root u) then (root_required, s) else
  match next_tokens args [8; K64_GROUP_NAME_MAX; K64_USER_NAME_MAX] with
  | [action; g; n] =>
      if empty action || empty g || empty n then (str "usage: gpasswd <add|del> <group> <user>", s) else
      let '(ok, u) :=
        if same action (str "add") then user_add_to_group n g u
        else if same action (str "del") then user_remove_from_group n g u
        else (false, u) in
      if negb ok then (str "gpasswd failed", (u, f)) else (str "group membership updated", snd (user_save_groups_db (u, f)))
  | _ => ([], s)
  end.

Definition usermod_usage : list Z := str "usage: usermod <role|primary|groupadd|groupdel> <user> <value>".

Definition usermod_role (idx : Z) (value : list Z) (u : k64_user_state_t) : k64_user_state_t :=
  let root := same value (str "root") in
  user_sync_role_groups (set_accounts (alter (set_role root (root || same value (str "sudo"))) (Z.to_nat idx) (accounts u)) u).
Definition usermod_primary (idx : Z) (value : list Z) (u : k64_user_state_t) : k64_user_state_t :=
  let u := set_accounts (alter (set_primary (user_copy K64_GROUP_NAME_MAX value)) (Z.to_nat idx) (accounts u)) u in
  group_set_membership (group_find value u) idx true u.

Definition user_command_usermod : command := fun args s =>
  let '(u, f) := s in
  if negb (k64_user_is_root u) then (root_required, s) else
  match next_tokens args [16; K64_USER_NAME_MAX; K64_GROUP_NAME_MAX] with
  | [action; n; value] =>
      if empty action || empty n || empty value then (usermod_usage, s) else
      let idx := user_find n u in
      if idx <? 0 then (str "user not found", s)
      else if same action (str "role") then (str "user role updated", snd (user_save_state (usermod_role idx value u, f)))
      else if same action (str "primary") then
        let '(ok, u) := group_add_internal value u in
        if negb ok then (str "primary group update failed", (u, f))
        else (str "primary group updated", snd (user_save_state (usermod_primary idx value u, f)))
      else if same action (str "groupadd") || same action (str "groupdel") then
        let '(ok, u) := if same action (str "groupadd") then user_add_to_group n value u else user_remove_from_group n value u in
        if negb ok then (str "group membership update failed", (u, f)) else (str "group membership updated", snd (user_save_groups_db (u, f)))
      else (usermod_usage, s)
  | _ => ([], s)
  end.

Definition userctl_usage : list Z :=
  str "usage: userctl <users|groups|whoami|id|login|logout|su|sudo|passwd|useradd|userdel|usermod|groupadd|groupdel|gpasswd>".
Definition subcommands : list (list Z * command) :=
  [(str "users", user_command_users); (str "groups", user_command_groups); (str "whoami", user_command_whoami); (str "id", user_command_id);
   (str "login", user_command_login); (str "logout", user_command_logout); (str "su", user_command_su); (str "sudo", user_command_sudo);
   (str "passwd", user_command_passwd); (str "useradd", user_command_useradd); (str "userdel", user_command_userdel);
   (str "usermod", user_command_usermod); (str "groupadd", user_command_groupadd); (str "groupdel", user_command_groupdel);
   (str "gpasswd", user_command_gpasswd)].
Fixpoint dispatch (l : list (list Z * command)) (subcmd args : list Z) (s : state) : list Z * state :=
  match l with
  | [] => (userctl_usage, s)
  | (n, c) :: l => if same subcmd n then c args s else dispatch l subcmd args s
  end.
Definition user_command_userctl : command := fun args s =>
  let '(subcmd, args) := user_next_token args 16 in
  if empty subcmd then (userctl_usage, s) else dispatch subcommands subcmd args s.

(** ** Calls of other parts *)
Definition k64_user_create_account (n pass : list Z) (sudo : bool) (s : state) : bool * state :=
  let '(u, f) := s in
  if negb (ready u) || empty n || empty pass then (false, s) else
  let '(ok, u) := user_add_account n pass false sudo (user_copy K64_GROUP_NAME_MAX n) false u in
  if negb ok then (false, (u, f)) else
  let u := user_sync_role_groups (user_ensure_primary_groups u) in
  let idx := user_find n u in
  let f :=
    match getZ (accounts u) idx with
    | None => f
    | Some a =>
        let group_idx := group_find (primary_group a) u in
        let path := user_home_path n 64 in
        k64_fs_chmod fs path 0x1C0 (k64_fs_chown fs path (1000 + idx) (if 0 <=? group_idx then 1000 + group_idx else 1000) f)
    end in
  user_save_state (u, f).

Definition k64_user_service_start (s : state) : option state :=
  s ← (if negb (k64_fs_driver_running fs (snd s)) then Some (user_seed_defaults (fst s), snd s)
       else
         let s := user_ensure_dir (str "/usr") (user_ensure_dir (str "/etc") s) in
         '(ok, s) ← user_load_db s;
         s ← (if ok : bool then r ← user_load_groups_db s; Some (snd r)
              else Some (snd (user_save_state (user_seed_defaults (fst s), snd s))));
         Some (user_ensure_layout s));
  Some (set_ready true (set_current (-1) false (fst s)), snd s).
Definition k64_user_service_stop (s : state) : state := (set_ready false (fst s), snd s).
End commands.
