(* ===== verification/UsersSpec.v ===== *)
(** * Users and groups: the tables

    The invariant of the tables and the identity of the user, and that every
    command keeps it. *)
From Stdlib Require Import ZArith Lia.
From stdpp Require Import base list sets.
From S2P Require Import Prelude KString Users.

(** ** Searching *)
Lemma same_spec s t : reflect (s = t) (same s t).
Proof. apply bool_decide_reflect. Qed.

Lemma find_index_spec {A} (p : A -> bool) l : forall i, 0 <= i ->
  (find_index p l i = -1 /\ Forall (fun x => p x = false) l) \/
  exists k x, find_index p l i = i + Z.of_nat k /\ l !! k = Some x /\ p x = true /\ forall j y, (j < k)%nat -> l !! j = Some y -> p y = false.
Proof.
  induction l as [|x l IH]; intros i Hi; cbn [find_index]; [left; by split|]. destruct (p x) eqn:E.
  - right. exists 0%nat, x. split_and!; [lia|done|done|lia].
  - destruct (IH (i + 1) ltac:(lia)) as [[H1 H2]|(k & y & H1 & H2 & H3 & H4)]; [left; by split; [|constructor]|].
    right. exists (S k), y. split_and!; [lia|done|done|]. intros [|j] z Hj Hz; [by injection Hz as <-|]. apply (H4 j); [lia|done].
Qed.

(** The index of a name: [-1], or the first element with that name. *)
Lemma user_find_spec n u :
  (user_find n u = -1 /\ n ∉ map name (accounts u)) \/
  exists k a, user_find n u = Z.of_nat k /\ accounts u !! k = Some a /\ name a = n.
Proof.
  destruct (find_index_spec (fun a => same (name a) n) (accounts u) 0 ltac:(lia)) as [[H1 H2]|(k & x & H1 & H2 & H3 & _)].
  - left. split; [done|]. intros (a & -> & Ha)%list_elem_of_fmap. rewrite Forall_forall in H2. specialize (H2 a Ha). by destruct (same_spec (name a) (name a)).
  - right. exists k, x. destruct (same_spec (name x) n); [|done]. split_and!; [done|done|done].
Qed.

Lemma group_find_spec n u :
  (group_find n u = -1 /\ n ∉ map g_name (groups u)) \/
  exists k g, group_find n u = Z.of_nat k /\ groups u !! k = Some g /\ g_name g = n.
Proof.
  destruct (find_index_spec (fun a => same (g_name a) n) (groups u) 0 ltac:(lia)) as [[H1 H2]|(k & x & H1 & H2 & H3 & _)].
  - left. split; [done|]. intros (a & -> & Ha)%list_elem_of_fmap. rewrite Forall_forall in H2. specialize (H2 a Ha). by destruct (same_spec (g_name a) (g_name a)).
  - right. exists k, x. destruct (same_spec (g_name x) n); [|done]. split_and!; [done|done|done].
Qed.

(** ** Tokens *)
Lemma take_token_length n s : (length (take_token n s) <= n)%nat.
Proof. revert s. induction n as [|n IH]; intros s; [done|]. destruct s as [|c s]; cbn; [lia|]. destruct (is_blank c); cbn; [lia|]. specialize (IH s). lia. Qed.

Lemma next_token_length s n : 1 <= n -> Z.of_nat (length (fst (user_next_token s n))) <= n - 1.
Proof. intros Hn. unfold user_next_token. cbn [fst]. pose proof (take_token_length (Z.to_nat (n - 1)) (user_skip_ws s)). lia. Qed.

Lemma next_tokens_ok s sizes : Forall (fun n => 1 <= n) sizes -> Forall2 (fun t n => Z.of_nat (length t) <= n - 1) (next_tokens s sizes) sizes.
Proof.
  intros H. revert s. induction H as [|n sizes Hn _ IH]; intros s; cbn [next_tokens]; [constructor|].
  pose proof (next_token_length s n Hn). destruct (user_next_token s n) as [t r]. by constructor.
Qed.

(** ** The invariant *)
Definition short (s : list Z) : Prop := s <> [] /\ (length s <= 15)%nat.

Record account_ok (u : k64_user_state_t) (a : k64_user_account_t) : Prop := {
  ac_name : short (name a);
  ac_primary : primary_group a ∈ map g_name (groups u);
  ac_sudo : is_root a = true -> sudoer a = true
}.

Record group_ok (n : nat) (g : k64_user_group_t) : Prop := {
  gr_name : short (g_name g);
  gr_length : length (members g) = 8%nat;
  (** no account that does not exist is a member *)
  gr_stale j : (n <= j)%nat -> members g !! j <> Some true
}.

(** The tables are well formed; that no two accounts have one name is known when
    [U] holds. *)
Record tables_ok (U : Prop) (u : k64_user_state_t) : Prop := {
  uo_count : (length (accounts u) <= 8)%nat;
  uo_groups : (length (groups u) <= 16)%nat;
  uo_names : U -> NoDup (map name (accounts u));
  uo_group_names : NoDup (map g_name (groups u));
  uo_account a : a ∈ accounts u -> account_ok u a;
  uo_group g : g ∈ groups u -> group_ok (length (accounts u)) g;
  uo_current : -1 <= current_index u < count u
}.

Abbreviation users_ok := (tables_ok True).

Lemma empty_spec s : empty s = true <-> s = [].
Proof. by destruct s. Qed.
Lemma user_copy_short n s : (length s < Z.to_nat n)%nat -> user_copy n s = s.
Proof. intros H. unfold user_copy. apply take_ge. lia. Qed.

Lemma members_alter {A B} (f : A -> B) (h : A -> A) (k : nat) (l : list A) : (forall x, f (h x) = f x) -> map f (alter h k l) = map f l.
Proof. intros H. revert k. induction l as [|x l IH]; intros [|k]; cbn; [done|done|by rewrite H|]. f_equal. apply IH. Qed.

Lemma alter_elem {A} (h : A -> A) (k : nat) (l : list A) (x : A) : x ∈ alter h k l -> x ∈ l \/ exists y, y ∈ l /\ x = h y.
Proof.
  revert k. induction l as [|y l IH]; intros [|k]; cbn; [by left|by left| |].
  - intros [->|H]%elem_of_cons; [right; exists y; split; [apply elem_of_cons; by left|done]|left; apply elem_of_cons; by right].
  - intros [->|H]%elem_of_cons; [left; apply elem_of_cons; by left|].
    destruct (IH k H) as [?|(z & ? & ->)]; [left; apply elem_of_cons; by right|right; exists z; split; [apply elem_of_cons; by right|done]].
Qed.

(** What an operation on groups keeps. *)
Record same_accounts (u u' : k64_user_state_t) : Prop := {
  sa_ready : ready u' = ready u;
  sa_accounts : accounts u' = accounts u;
  sa_current : current_index u' = current_index u;
  sa_sudo : sudo_active u' = sudo_active u
}.

Lemma same_accounts_refl u : same_accounts u u.
Proof. by split. Qed.
Lemma same_accounts_trans u1 u2 u3 : same_accounts u1 u2 -> same_accounts u2 u3 -> same_accounts u1 u3.
Proof. intros [? ? ? ?] [? ? ? ?]. split; congruence. Qed.

Section keep.
Context {U : Prop}.

(** The groups may grow: the invariant, and the names that are there. *)
Definition grows (u u' : k64_user_state_t) : Prop := tables_ok U u' /\ same_accounts u u' /\ forall n, n ∈ map g_name (groups u) -> n ∈ map g_name (groups u').

Lemma grows_refl u : tables_ok U u -> grows u u.
Proof. intros H. split_and!; [done|apply same_accounts_refl|done]. Qed.
Lemma grows_trans u1 u2 u3 : grows u1 u2 -> grows u2 u3 -> grows u1 u3.
Proof. intros (_ & S1 & G1) (O & S2 & G2). split_and!; [done|by eapply same_accounts_trans|]. intros n H. by apply G2, G1. Qed.

Lemma group_add_spec n u : tables_ok U u -> (length n <= 15)%nat -> let '(ok, u') := group_add_internal n u in
  grows u u' /\ (ok = true -> n ∈ map g_name (groups u')).
Proof.
  intros O Hn. unfold group_add_internal. destruct (empty n) eqn:En; [split; [by apply grows_refl|done]|].
  destruct (group_find_spec n u) as [[Hf Hnot]|(k & g & Hf & Hg & Hname)].
  - rewrite Hf. change (0 <=? -1) with false. cbv iota. unfold K64_GROUP_MAX, group_count.
    destruct (Z.leb_spec 16 (Z.of_nat (length (groups u)))); [split; [by apply grows_refl|done]|].
    assert (Hsh : short n) by (split; [by intros ->|done]). rewrite user_copy_short by (unfold K64_GROUP_NAME_MAX; lia).
    assert (Hmap : map g_name (groups u ++ [mk_group n no_members]) = map g_name (groups u) ++ [n]) by (by rewrite map_app).
    split; [|intros _; cbn [groups set_groups]; rewrite Hmap; set_solver]. destruct O as [O1 O2 O3 O4 O5 O6 O7].
    split_and!; [|done|intros m Hm; cbn [groups set_groups]; rewrite Hmap; set_solver].
    split; cbn [accounts groups set_groups current_index]; [done|rewrite length_app; cbn; lia|done| | | |done].
    + rewrite Hmap. apply NoDup_app. split_and!; [done|intros m Hm; rewrite list_elem_of_singleton; by intros ->|apply NoDup_singleton].
    + intros a Ha. destruct (O5 a Ha) as [A1 A2 A3]. split; [done|cbn [groups set_groups]; rewrite Hmap; set_solver|done].
    + intros g [Hg|Hg]%elem_of_app; [by apply O6|]. apply list_elem_of_singleton in Hg as ->. split; [done|done|].
      intros j _ Hj. unfold no_members in Hj. cbn [members] in Hj. by apply lookup_replicate in Hj as [? _].
  - rewrite Hf. rewrite (proj2 (Z.leb_le _ _)) by lia. split; [by apply grows_refl|]. intros _.
    apply list_elem_of_fmap. exists g. split; [done|]. by eapply list_elem_of_lookup_2.
Qed.

Lemma set_membership_grows g i b u : tables_ok U u -> grows u (group_set_membership g i b u).
Proof.
  intros O. unfold group_set_membership. destruct (in_range g (group_count u) && in_range i (count u)) eqn:E; [|by apply grows_refl].
  apply andb_true_iff in E as [_ [Hi1%Z.leb_le Hi2%Z.ltb_lt]%andb_true_iff]. unfold count in Hi2.
  set (h := fun g => mk_group (g_name g) (<[Z.to_nat i := b]> (members g))). pose proof (members_alter g_name h (Z.to_nat g) (groups u) ltac:(done)) as Hm.
  destruct O as [O1 O2 O3 O4 O5 O6 O7]. split_and!; [|done|by intros n; cbn [groups set_groups]; rewrite Hm].
  split; cbn [accounts groups set_groups current_index]; [done|by rewrite length_alter|done|by rewrite Hm| | |done].
  - intros a Ha. destruct (O5 a Ha) as [A1 A2 A3]. split; [done|cbn [groups set_groups]; by rewrite Hm|done].
  - intros x [Hx|(y & Hy & ->)]%alter_elem; [by apply O6|]. destruct (O6 y Hy) as [G1 G2 G3]. split; cbn; [done|by rewrite length_insert|].
    intros j Hj. rewrite list_lookup_insert_ne by lia. by apply G3.
Qed.

(** ** Loops over the accounts *)
Lemma for_accounts_ind (I : k64_user_state_t -> Prop) f u : I u ->
  (forall i a u', I u' -> accounts u' !! i = Some a -> I (f (Z.of_nat i) a u')) -> I (for_accounts f u).
Proof.
  intros H0 Hs. unfold for_accounts. generalize (List.seq 0 (length (accounts u))). intros l. revert u H0.
  induction l as [|i l IH]; intros u H0; [done|]. cbn. apply IH. destruct (accounts u !! i) eqn:E; [by apply Hs|done].
Qed.

Lemma str_short : (length (str "root") <= 15)%nat /\ (length (str "sudo") <= 15)%nat.
Proof. split; vm_compute; lia. Qed.

Lemma group_add_grows n u : tables_ok U u -> (length n <= 15)%nat -> grows u (snd (group_add_internal n u)).
Proof. intros O Hn. pose proof (group_add_spec n u O Hn) as H. destruct (group_add_internal n u). apply H. Qed.

Lemma sync_grows u : tables_ok U u -> grows u (user_sync_role_groups u).
Proof.
  intros O. unfold user_sync_role_groups. pose proof (group_add_grows (str "root") u O (proj1 str_short)) as G1.
  pose proof (group_add_grows (str "sudo") _ (proj1 G1) (proj2 str_short)) as G2. set (u2 := snd (group_add_internal (str "sudo") _)) in *.
  eapply grows_trans; [exact G1|]. apply (for_accounts_ind (fun u' => grows _ u')); [exact G2|].
  intros i a u' H _. eapply grows_trans; [exact H|]. pose proof (set_membership_grows (group_find (str "root") u2) (Z.of_nat i) (is_root a) u' (proj1 H)) as G3.
  eapply grows_trans; [exact G3|]. apply set_membership_grows, G3.
Qed.

Lemma alter_same {A} (h : A -> A) (k : nat) (l : list A) (x : A) : l !! k = Some x -> h x = x -> alter h k l = l.
Proof. revert k. induction l as [|y l IH]; intros [|k]; cbn; [done|done| |]; [intros [= ->] E; by rewrite E|]. intros H E. f_equal. by apply IH. Qed.

Lemma primary_short u a : tables_ok U u -> a ∈ accounts u -> short (primary_group a).
Proof.
  intros O Ha. destruct (uo_account _ _ O a Ha) as [_ Hp _]. apply list_elem_of_fmap in Hp as (g & -> & Hg). apply (uo_group _ _ O g Hg).
Qed.

Lemma ensure_primary_grows i a u : tables_ok U u -> accounts u !! i = Some a -> grows u (ensure_primary (Z.of_nat i) a u).
Proof.
  intros O Ha. assert (Hin : a ∈ accounts u) by (by eapply list_elem_of_lookup_2). pose proof (primary_short u a O Hin) as [P1 P2].
  unfold ensure_primary. assert (He : empty (primary_group a) = false) by (destruct (empty (primary_group a)) eqn:E; [apply empty_spec in E; done|done]).
  rewrite He, Nat2Z.id. rewrite (alter_same _ i (accounts u) a); [|done|by destruct a].
  assert (Eu : set_accounts (accounts u) u = u) by (by destruct u). rewrite Eu.
  pose proof (group_add_grows (primary_group a) u O P2) as G. eapply grows_trans; [exact G|]. apply set_membership_grows, G.
Qed.

Lemma ensure_primaries_grows u : tables_ok U u -> grows u (user_ensure_primary_groups u).
Proof.
  intros O. apply (for_accounts_ind (fun u' => grows u u')); [by apply grows_refl|].
  intros i a u' G Ha. eapply grows_trans; [exact G|]. apply ensure_primary_grows; [apply G|done].
Qed.

Lemma add_to_group_grows n g u : tables_ok U u -> (length g <= 15)%nat -> grows u (snd (user_add_to_group n g u)).
Proof.
  intros O Hg. unfold user_add_to_group. destruct (_ <? 0); [by apply grows_refl|]. pose proof (group_add_grows g u O Hg) as G.
  destruct (group_add_internal g u) as [ok u1]. cbn [snd] in G. destruct (negb ok); [done|]. destruct (_ <? 0); [done|]. cbn [snd].
  eapply grows_trans; [exact G|]. apply set_membership_grows, G.
Qed.

Lemma remove_from_group_grows n g u : tables_ok U u -> grows u (snd (user_remove_from_group n g u)).
Proof.
  intros O. unfold user_remove_from_group. destruct (_ || _); [by apply grows_refl|]. destruct (getZ _ _) as [a|]; [|by apply grows_refl].
  destruct (same _ _); [by apply grows_refl|]. by apply set_membership_grows.
Qed.

(** ** Changing accounts *)

(** One account is changed, but for its name. *)
Lemma alter_accounts_ok h k u : tables_ok U u -> (forall a, name (h a) = name a) ->
  (forall a, accounts u !! k = Some a -> account_ok u (h a)) -> tables_ok U (set_accounts (alter h k (accounts u)) u).
Proof.
  intros [O1 O2 O3 O4 O5 O6 O7] Hn Ha. split; cbn [accounts groups set_accounts current_index]; [by rewrite length_alter|done|by rewrite members_alter|done| |by rewrite length_alter|].
  - intros a [i Hi]%list_elem_of_lookup. destruct (decide (i = k)) as [->|Hne].
    + rewrite list_lookup_alter_eq in Hi. destruct (accounts u !! k) as [x|] eqn:E; [|done]. injection Hi as <-. destruct (Ha x eq_refl) as [A1 A2 A3]. by split.
    + rewrite list_lookup_alter_ne in Hi by done. destruct (O5 a) as [A1 A2 A3]; [by eapply list_elem_of_lookup_2|]. by split.
  - unfold count in *. cbn. by rewrite length_alter.
Qed.

Lemma set_password_ok p k u : tables_ok U u -> tables_ok U (set_accounts (alter (set_password p) k (accounts u)) u).
Proof.
  intros O. apply alter_accounts_ok; [done|done|]. intros a Ha. destruct (uo_account _ _ O a) as [A1 A2 A3]; [by eapply list_elem_of_lookup_2|]. by split.
Qed.

Lemma set_role_ok root sudo k u : tables_ok U u -> (root = true -> sudo = true) -> tables_ok U (set_accounts (alter (set_role root sudo) k (accounts u)) u).
Proof.
  intros O H. apply alter_accounts_ok; [done|done|]. intros a Ha. destruct (uo_account _ _ O a) as [A1 A2 A3]; [by eapply list_elem_of_lookup_2|]. by split.
Qed.

Lemma set_primary_ok p k u : tables_ok U u -> p ∈ map g_name (groups u) -> tables_ok U (set_accounts (alter (set_primary p) k (accounts u)) u).
Proof.
  intros O H. apply alter_accounts_ok; [done|done|]. intros a Ha. destruct (uo_account _ _ O a) as [A1 A2 A3]; [by eapply list_elem_of_lookup_2|]. by split.
Qed.

(** A new or overwritten account: who is logged in does not change. *)
Lemma add_account_ok n pass root sudo primary hashed u : tables_ok U u -> (U -> (length n <= 15)%nat) -> short primary ->
  let '(ok, u') := user_add_account n pass root sudo primary hashed u in
  tables_ok U u' /\ ready u' = ready u /\ current_index u' = current_index u /\ sudo_active u' = sudo_active u.
Proof.
  intros O Hn [Hp1 Hp2]. unfold user_add_account. destruct (empty n || empty pass) eqn:E; [done|].
  apply orb_false_iff in E as [En _]. assert (Hne : n <> []) by (by intros ->).
  assert (Ep : empty primary = false) by (by destruct primary). rewrite Ep.
  pose proof (group_add_spec primary u O Hp2) as G. destruct (group_add_internal primary u) as [ok u1]. destruct G as [(O1 & [R A C S] & _) Hin].
  destruct ok; cbn [negb]; [|done]. specialize (Hin eq_refl).
  assert (Hacc : forall old, short old -> account_ok u1 (account_of old n pass root sudo primary hashed)).
  { intros old Hold. split; cbn; [done| |destruct root; [by rewrite orb_true_r|done]]. unfold or_name. rewrite Ep, user_copy_short by (unfold K64_GROUP_NAME_MAX; lia). done. }
  destruct (user_find_spec n u1) as [[Hf Hnot]|(k & a & Hf & Ha & _)]; rewrite Hf.
  - change (0 <=? -1) with false. cbv iota. unfold K64_USER_MAX_ACCOUNTS, count.
    destruct (Z.leb_spec 8 (Z.of_nat (length (accounts u1)))); [done|]. split; [|done]. set (n' := user_copy K64_USER_NAME_MAX n).
    assert (Hn' : short n') by (unfold n', user_copy, K64_USER_NAME_MAX; split; [by destruct n|rewrite length_take; lia]).
    destruct O1 as [O1 O2 O3 O4 O5 O6 O7]. split; cbn [accounts groups set_accounts current_index]; [rewrite length_app; cbn; lia|done| |done| | |].
    + intros HU. assert (En' : n' = n) by (apply user_copy_short; specialize (Hn HU); unfold K64_USER_NAME_MAX; lia).
      rewrite map_app. change (map name [account_of n' n pass root sudo primary hashed]) with [n']. rewrite En'. apply NoDup_app. split_and!; [by apply O3|intros m Hm; rewrite list_elem_of_singleton; by intros ->|apply NoDup_singleton].
    + intros x [Hx|Hx]%elem_of_app; [destruct (O5 x Hx) as [A1 A2 A3]; by split|]. apply list_elem_of_singleton in Hx as ->. destruct (Hacc n') as [A1 A2 A3]; [done|]. by split.
    + intros g Hg. destruct (O6 g Hg) as [G1 G2 G3]. split; [done|done|]. intros j Hj. apply G3. rewrite length_app in Hj. cbn in Hj. lia.
    + unfold count in *. cbn. rewrite length_app. cbn. lia.
  - rewrite (proj2 (Z.leb_le _ _)), Nat2Z.id by lia. split; [|done]. apply alter_accounts_ok; [done|done|]. intros x Hx. apply Hacc.
    apply (uo_account _ _ O1 x). by eapply list_elem_of_lookup_2.
Qed.
End keep.
