(* ===== verification/UsersRun.v ===== *)
(** * Users and groups: sequences of commands

    Every command keeps the invariant, and what a session without privileges can
    do. *)
From Stdlib Require Import ZArith Lia.
From stdpp Require Import base list sets.
From S2P Require Import Prelude KString Users UsersSpec.

(** ** Deleting *)
Lemma delete_names {A B} (f : A -> B) (k : nat) (l : list A) : map f (delete k l) = delete k (map f l).
Proof. revert k. induction l as [|x l IH]; intros [|k]; cbn; [done|done|done|]. f_equal. apply IH. Qed.

Lemma delete_NoDup {A} (k : nat) (l : list A) : NoDup l -> NoDup (delete k l).
Proof. intros H. eapply sublist_NoDup; [exact H|]. apply sublist_delete. Qed.

Lemma delete_elem {A} (k : nat) (l : list A) x : x ∈ delete k l -> x ∈ l.
Proof.
  revert k. induction l as [|y l IH]; intros [|k] H; cbn in H; [done|done| |].
  - apply elem_of_cons. by right.
  - apply elem_of_cons in H as [->|H]; apply elem_of_cons; [by left|right]. by apply (IH k).
Qed.

Lemma elem_of_delete {A} (k : nat) (l : list A) x y : x ∈ l -> l !! k = Some y -> x <> y -> x ∈ delete k l.
Proof.
  revert k. induction l as [|z l IH]; intros [|k] H Hk Hne; [done|done| |]; cbn in *.
  - injection Hk as ->. by apply elem_of_cons in H as [->|H].
  - apply elem_of_cons in H as [->|H]; apply elem_of_cons; [by left|right]. by apply IH.
Qed.

Lemma shift_members_ok i n l : (i <= n)%nat -> (n < 8)%nat -> length l = 8%nat -> (forall j, (S n <= j)%nat -> l !! j <> Some true) ->
  length (shift_members i n l) = 8%nat /\ forall j, (n <= j)%nat -> shift_members i n l !! j <> Some true.
Proof.
  intros Hi Hn Hl Hs. unfold shift_members. split; [rewrite !length_app, !length_take, !length_drop; cbn [length]; lia|].
  intros j Hj. rewrite lookup_app_r by (rewrite length_take; lia). rewrite length_take, Nat.min_l by lia.
  rewrite lookup_app_r by (rewrite length_take, length_drop; lia). rewrite length_take, length_drop, Nat.min_l by lia.
  destruct (j - i - (n - i))%nat as [|m] eqn:E; [done|]. change (drop (S n) l !! m <> Some true). rewrite lookup_drop. apply Hs. lia.
Qed.

Lemma userdel_ok {U : Prop} u k cur sudo : tables_ok U u -> (k < length (accounts u))%nat -> -1 <= cur < count u - 1 ->
  let l := delete k (accounts u) in
  tables_ok U (mk_users (ready u) l (map (fun g => mk_group (g_name g) (shift_members k (length l) (members g))) (groups u)) cur sudo).
Proof.
  intros [O1 O2 O3 O4 O5 O6 O7] Hk Hc l. assert (Hl : length l = (length (accounts u) - 1)%nat) by (unfold l; rewrite length_delete; [done|by apply lookup_lt_is_Some_2]).
  assert (Hn : map g_name (map (fun g => mk_group (g_name g) (shift_members k (length l) (members g))) (groups u)) = map g_name (groups u)) by (by rewrite map_map).
  split; cbn [accounts groups current_index]; [lia|by rewrite length_map|intros HU; unfold l; rewrite delete_names; by apply delete_NoDup, O3|by rewrite Hn| | |unfold count in *; cbn; lia].
  - intros a Ha. destruct (O5 a) as [A1 A2 A3]; [by eapply delete_elem|]. split; [done|cbn [groups]; by rewrite Hn|done].
  - intros g (x & -> & Hx)%list_elem_of_fmap. destruct (O6 x Hx) as [G1 G2 G3].
    destruct (shift_members_ok k (length l) (members x)) as [S1 S2]; [lia|lia|done|intros j Hj; apply G3; lia|]. by split.
Qed.

Lemma groupdel_ok {U : Prop} u k g : tables_ok U u -> groups u !! k = Some g -> (forall a, a ∈ accounts u -> primary_group a <> g_name g) ->
  tables_ok U (set_groups (delete k (groups u)) u).
Proof.
  intros [O1 O2 O3 O4 O5 O6 O7] Hk Hp. assert (Hl : (length (delete k (groups u)) <= length (groups u))%nat) by (apply sublist_length, sublist_delete).
  split; cbn [accounts groups set_groups current_index]; [done|lia|done|rewrite delete_names; by apply delete_NoDup| | |done].
  - intros a Ha. destruct (O5 a Ha) as [A1 A2 A3]. split; [done| |done]. cbn [groups set_groups]. rewrite delete_names.
    eapply elem_of_delete; [exact A2|by rewrite list_lookup_fmap, Hk|by apply Hp].
  - intros x Hx. apply O6. by eapply delete_elem.
Qed.

Lemma set_current_ok {U : Prop} i b u : tables_ok U u -> -1 <= i < count u -> tables_ok U (set_current i b u).
Proof. intros [O1 O2 O3 O4 O5 O6 O7] Hi. split; cbn; try done. intros a Ha. destruct (O5 a Ha). by split. Qed.

Lemma set_ready_ok {U : Prop} b u : tables_ok U u -> tables_ok U (set_ready b u).
Proof. intros [O1 O2 O3 O4 O5 O6 O7]. split; cbn; try done. intros a Ha. destruct (O5 a Ha). by split. Qed.

Lemma getZ_lookup {A} (l : list A) i x : getZ l i = Some x -> 0 <= i < Z.of_nat (length l) /\ l !! Z.to_nat i = Some x.
Proof. intros [H1 H2]%getZ_Some. pose proof (lookup_lt_Some _ _ _ H2). split; [lia|done]. Qed.

(** The next token is a short text. *)
Lemma token_is s n : 1 <= n -> exists t r, user_next_token s n = (t, r) /\ Z.of_nat (length t) <= n - 1.
Proof. intros Hn. pose proof (next_token_length s n Hn). destruct (user_next_token s n) as [t r]. by exists t, r. Qed.

Ltac next_token t H :=
  cbn [next_tokens];
  let r := fresh "r" in
  match goal with |- context [user_next_token ?s ?n] => destruct (token_is s n ltac:(vm_compute; congruence)) as (t & r & -> & H) end.

Section run.
Context {F : Type} (fs : file_system F) {U : Prop}.
Abbreviation state := (k64_user_state_t * F)%type.

(** The file system does not change the tables. *)
Lemma save_db_users s : fst (snd (user_save_db fs s)) = fst s.
Proof. destruct s as [u f]. unfold user_save_db. by destruct (k64_fs_write_file _ _ _ _). Qed.
Lemma save_groups_users s : fst (snd (user_save_groups_db fs s)) = fst s.
Proof. destruct s as [u f]. unfold user_save_groups_db. by destruct (k64_fs_write_file _ _ _ _). Qed.
Lemma save_state_users s : fst (snd (user_save_state fs s)) = fst s.
Proof.
  unfold user_save_state. pose proof (save_db_users s) as H. destruct (user_save_db fs s) as [[] s1]; cbn [fst snd] in *; [|done].
  by rewrite save_groups_users.
Qed.
Lemma ensure_dir_users p s : fst (user_ensure_dir fs p s) = fst s.
Proof. destruct s as [u f]. unfold user_ensure_dir. by destruct (k64_fs_ls _ _ _ _). Qed.
Lemma give_home_users p i a s : fst (give_home fs p i a s) = fst s.
Proof. by destruct s. Qed.

Definition keeps_ok (c : command (F := F)) : Prop := forall args s, tables_ok U (fst s) -> tables_ok U (fst (snd (c args s))).

Lemma login_like_ok : keeps_ok user_command_login_like.
Proof.
  intros args [u f] O. unfold user_command_login_like. destruct (next_tokens args _) as [|n [|pass [|? ?]]]; try done.
  destruct (_ || _); [done|]. destruct (getZ _ _) as [a|] eqn:E; [|done]. destruct (user_password_matches _ _); [|done].
  apply getZ_lookup in E as [E _]. cbn. apply set_current_ok; [done|]. unfold count. lia.
Qed.

Lemma logout_ok : keeps_ok user_command_logout.
Proof. intros args [u f] O. cbn. apply set_current_ok; [done|]. pose proof (uo_current _ _ O). cbn in *. lia. Qed.

Lemma sudo_ok : keeps_ok user_command_sudo.
Proof.
  intros args [u f] O. unfold user_command_sudo. cbn [fst snd] in *. assert (Hc := uo_current _ _ O).
  destruct (negb (user_require_login u)); [done|]. destruct (getZ _ _) as [a|]; [|done]. destruct (user_next_token args K64_USER_PASS_MAX) as [t r].
  repeat match goal with |- context [if ?b then _ else _] => destruct b end; cbn; try done; by apply set_current_ok.
Qed.

Lemma passwd_ok : keeps_ok (user_command_passwd fs).
Proof.
  intros args [u f] O. unfold user_command_passwd. destruct (next_tokens args _) as [|n [|pass [|? ?]]]; try done.
  destruct (_ || _); [done|]. destruct (getZ _ _) as [a|]; [|done]. destruct (_ && _); [done|]. cbn [snd]. rewrite save_db_users. by apply set_password_ok.
Qed.

Lemma useradd_ok : keeps_ok (user_command_useradd fs).
Proof.
  intros args [u f] O. unfold user_command_useradd. destruct (negb (k64_user_is_root u)); [done|].
  next_token n Hn. next_token pass Hpass. next_token role Hr. next_token primary Hp. unfold K64_USER_NAME_MAX, K64_GROUP_NAME_MAX in Hn, Hp.
  destruct (empty n || empty pass) eqn:Ee; [done|].
  apply orb_false_iff in Ee as [En _]. set (pg := if empty primary then user_copy K64_GROUP_NAME_MAX n else primary).
  assert (Hpg : short pg).
  { unfold pg. destruct (empty primary) eqn:E; [rewrite user_copy_short by (unfold K64_GROUP_NAME_MAX; lia)|]; split; try lia; by intros ->. }
  pose proof (add_account_ok n pass (same role (str "root")) (same role (str "root") || same role (str "sudo")) pg false u O ltac:(intros _; lia) Hpg) as A.
  destruct (user_add_account _ _ _ _ _ _ u) as [ok u1]. destruct A as (O1 & _). destruct ok; cbn [negb]; [|done]. cbn [snd]. rewrite save_state_users.
  assert (G := sync_grows _ (proj1 (ensure_primaries_grows u1 O1))). destruct (getZ _ _) as [a|]; [rewrite give_home_users|]; rewrite ensure_dir_users; apply G.
Qed.

Lemma userdel_keeps : keeps_ok (user_command_userdel fs).
Proof.
  intros args [u f] O. unfold user_command_userdel. destruct (negb (k64_user_is_root u)); [done|].
  destruct (user_next_token args K64_USER_NAME_MAX) as [n r]. destruct (empty n); [done|]. destruct (getZ (accounts u) (user_find n u)) as [a|] eqn:E; [|done].
  destruct (is_root a); [done|]. apply getZ_lookup in E as [E1 E2]. assert (Hc := uo_current _ _ O). cbn [fst] in O. cbn [fst] in Hc.
  assert (Hk : (Z.to_nat (user_find n u) < length (accounts u))%nat) by lia.
  destruct (Z.eqb_spec (current_index u) (user_find n u)); [|destruct (Z.ltb_spec (user_find n u) (current_index u))]; cbn [snd];
    rewrite save_state_users; apply (userdel_ok u _ _ _ O Hk); unfold count in *; lia.
Qed.

Lemma groupadd_ok : keeps_ok (user_command_groupadd fs).
Proof.
  intros args [u f] O. unfold user_command_groupadd. destruct (negb (k64_user_is_root u)); [done|].
  pose proof (next_token_length args K64_GROUP_NAME_MAX ltac:(done)) as Hl. destruct (user_next_token args K64_GROUP_NAME_MAX) as [g r]. cbn [fst] in Hl.
  destruct (empty g); [done|]. pose proof (group_add_grows g u O ltac:(unfold K64_GROUP_NAME_MAX in Hl; lia)) as G.
  destruct (group_add_internal g u) as [ok u1]. destruct (negb ok); cbn [snd]; rewrite ?save_groups_users; apply G.
Qed.

Lemma groupdel_keeps : keeps_ok (user_command_groupdel fs).
Proof.
  intros args [u f] O. unfold user_command_groupdel. destruct (negb (k64_user_is_root u)); [done|].
  destruct (user_next_token args K64_GROUP_NAME_MAX) as [g r]. destruct (empty g); [done|]. destruct (_ || _); [done|].
  destruct (group_find_spec g u) as [[-> _]|(k & x & -> & Hx & Hn)]; [done|]. rewrite (proj2 (Z.ltb_ge _ _)) by lia.
  destruct (existsb _ _) eqn:E; [done|]. cbn [snd]. rewrite save_groups_users, Nat2Z.id. apply (groupdel_ok u k x); [done|done|].
  intros a Ha Hp. assert (H : existsb (fun a => same (primary_group a) g) (accounts u) = true); [|congruence].
  apply existsb_exists. exists a. split; [by apply list_elem_of_In|]. destruct (same_spec (primary_group a) g); [done|congruence].
Qed.

Lemma gpasswd_ok : keeps_ok (user_command_gpasswd fs).
Proof.
  intros args [u f] O. unfold user_command_gpasswd. destruct (negb (k64_user_is_root u)); [done|].
  next_token act H1. next_token g H2. next_token n H3.
  unfold K64_GROUP_NAME_MAX in H2. destruct (_ || _); [done|].
  assert (G : grows (U := U) u (snd (if same act (str "add") then user_add_to_group n g u else if same act (str "del") then user_remove_from_group n g u else (false, u)))).
  { destruct (same act (str "add")); [apply add_to_group_grows; [done|lia]|]. destruct (same act (str "del")); [by apply remove_from_group_grows|by apply grows_refl]. }
  destruct (if same act (str "add") then _ else _) as [ok u1]. destruct (negb ok); cbn [snd]; rewrite ?save_groups_users; apply G.
Qed.

Lemma usermod_ok : keeps_ok (user_command_usermod fs).
Proof.
  intros args [u f] O. unfold user_command_usermod. destruct (negb (k64_user_is_root u)); [done|].
  next_token act H1. next_token n H2. next_token v H3.
  unfold K64_GROUP_NAME_MAX in H3. destruct (_ || _ || _); [done|]. destruct (_ <? 0); [done|]. destruct (same act (str "role")).
  { cbn [snd]. rewrite save_state_users. unfold usermod_role. apply sync_grows, set_role_ok; [done|]. by intros ->. }
  destruct (same act (str "primary")).
  { pose proof (group_add_spec v u O ltac:(lia)) as G. destruct (group_add_internal v u) as [ok u1]. destruct G as [(O1 & _) Hin].
    destruct ok; cbn [negb snd]; [|done]. rewrite save_state_users. unfold usermod_primary. rewrite user_copy_short by (unfold K64_GROUP_NAME_MAX; lia).
    apply set_membership_grows, set_primary_ok; [done|by apply Hin]. }
  destruct (_ || _); [|done].
  assert (G : grows (U := U) u (snd (if same act (str "groupadd") then user_add_to_group n v u else user_remove_from_group n v u))).
  { destruct (same act (str "groupadd")); [apply add_to_group_grows; [done|lia]|by apply remove_from_group_grows]. }
  destruct (if same act (str "groupadd") then _ else _) as [ok u1]. destruct (negb ok); cbn [snd]; rewrite ?save_groups_users; apply G.
Qed.
Lemma same_users c : (forall args s, fst (snd (c args s)) = fst s) -> keeps_ok c.
Proof. intros H args s O. by rewrite H. Qed.

Lemma groups_users args (s : state) : fst (snd (user_command_groups args s)) = fst s.
Proof. unfold user_command_groups. destruct (user_next_token _ _) as [n r]. destruct (empty n); [done|]. by destruct (_ <? 0). Qed.
Lemma id_users args (s : state) : fst (snd (user_command_id args s)) = fst s.
Proof. unfold user_command_id. destruct (negb _); [done|]. by destruct (getZ _ _). Qed.

Lemma subcommands_ok : Forall (fun nc => keeps_ok (snd nc)) (subcommands fs).
Proof.
  unfold subcommands. repeat (apply List.Forall_cons; [cbn [snd]|]); [..|apply List.Forall_nil]; try (by apply same_users); first
    [apply same_users, groups_users|apply same_users, id_users|apply login_like_ok|apply logout_ok|apply sudo_ok|apply passwd_ok|apply useradd_ok
    |apply userdel_keeps|apply usermod_ok|apply groupadd_ok|apply groupdel_keeps|apply gpasswd_ok].
Qed.

(** A command that is dispatched is in the table. *)
Lemma dispatch_ind (P : list Z * state -> Prop) l subcmd args s : P (userctl_usage, s) ->
  (forall c, (subcmd, c) ∈ l -> P (c args s)) -> P (dispatch l subcmd args s).
Proof.
  intros H0. induction l as [|[n c] l IH]; intros H; cbn [dispatch]; [done|]. destruct (same_spec subcmd n) as [->|_].
  - apply H, elem_of_cons. by left.
  - apply IH. intros c' Hc. apply H, elem_of_cons. by right.
Qed.

Lemma userctl_ok : keeps_ok (user_command_userctl fs).
Proof.
  intros args s O. unfold user_command_userctl. destruct (user_next_token args 16) as [sub rest]. destruct (empty sub); [done|].
  apply (dispatch_ind (fun r => tables_ok U (fst (snd r)))); [done|]. intros c Hc.
  pose proof subcommands_ok as HF. rewrite Forall_forall in HF. by apply (HF _ Hc).
Qed.

Lemma create_account_ok n pass sudo s : tables_ok U (fst s) -> (U -> (length n <= 15)%nat) -> tables_ok U (fst (snd (k64_user_create_account fs n pass sudo s))).
Proof.
  intros O Hn. destruct s as [u f]. unfold k64_user_create_account. destruct (negb (ready u) || empty n || empty pass) eqn:E; [done|].
  apply orb_false_iff in E as [[_ En]%orb_false_iff _]. set (pg := user_copy K64_GROUP_NAME_MAX n).
  assert (Hpg : short pg) by (unfold pg, user_copy, K64_GROUP_NAME_MAX; split; [by destruct n|rewrite length_take; lia]).
  pose proof (add_account_ok n pass false sudo pg false u O Hn Hpg) as A.
  destruct (user_add_account _ _ _ _ _ _ u) as [ok u1]. destruct A as (O1 & _). destruct ok; cbn [negb]; [|done]. rewrite save_state_users. cbn [fst].
  apply sync_grows, ensure_primaries_grows, O1.
Qed.
End run.

(** ** Runs *)
Lemma sudo_scope_ok {U : Prop} u : tables_ok U u -> tables_ok U (k64_user_begin_sudo_scope u) /\ tables_ok U (k64_user_end_sudo_scope u).
Proof.
  intros O. unfold k64_user_begin_sudo_scope, k64_user_end_sudo_scope. pose proof (uo_current _ _ O). destruct (current u) as [a|]; [|done].
  split; [destruct (_ && _)|destruct (negb _)]; try done; by apply set_current_ok.
Qed.

Lemma seed_ok {U : Prop} u : tables_ok U (user_seed_defaults u).
Proof.
  unfold user_seed_defaults. set (u0 := user_reset_state u).
  assert (O0 : tables_ok U u0) by (split; cbn; try lia; first [by intros ? ?%not_elem_of_nil|intros; apply NoDup_nil_2|vm_compute; split; congruence]).
  pose proof (proj1 (group_add_grows (str "root") _ O0 (proj1 str_short))) as O1.
  pose proof (proj1 (group_add_grows (str "sudo") _ O1 (proj2 str_short))) as O2. set (u2 := snd (group_add_internal (str "sudo") _)) in *.
  pose proof (add_account_ok (str "root") (str "root") true true (str "root") false u2 O2 (fun _ => proj1 str_short) ltac:(split; [done|apply str_short])) as A.
  destruct (user_add_account (str "root") _ _ _ _ _ u2) as [ok3 u3]. destruct A as (O3 & _). cbn [snd].
  pose proof (add_account_ok (str "guest") (str "guest") false true (str "guest") false u3 O3 ltac:(intros _; vm_compute; lia) ltac:(split; [done|vm_compute; lia])) as A.
  destruct (user_add_account (str "guest") _ _ _ _ _ u3) as [ok4 u4]. destruct A as (O4 & _). cbn [snd].
  apply set_current_ok; [apply sync_grows, ensure_primaries_grows, O4|]. unfold count. lia.
Qed.

(** What other parts of the kernel ask of the service, in the order in which they do. *)
Inductive user_op :=
| Userctl (args : list Z)
| CreateAccount (n pass : list Z) (sudo : bool)
| BeginSudo
| EndSudo
| ServiceStop.

Definition user_step {F} (fs : file_system F) (o : user_op) (s : k64_user_state_t * F) : k64_user_state_t * F :=
  match o with
  | Userctl args => snd (user_command_userctl fs args s)
  | CreateAccount n pass sudo => snd (k64_user_create_account fs n pass sudo s)
  | BeginSudo => (k64_user_begin_sudo_scope (fst s), snd s)
  | EndSudo => (k64_user_end_sudo_scope (fst s), snd s)
  | ServiceStop => k64_user_service_stop s
  end.
Definition user_run {F} (fs : file_system F) (ops : list user_op) (s : k64_user_state_t * F) : k64_user_state_t * F :=
  fold_left (fun s o => user_step fs o s) ops s.

(** The name of an account that is created for another part fits its field; nothing
    checks it there, and a longer one is stored cut. *)
Definition name_fits (o : user_op) : Prop := match o with CreateAccount n _ _ => (length n <= 15)%nat | _ => True end.

Lemma user_step_ok {F} (fs : file_system F) {U : Prop} o s : tables_ok U (fst s) -> (U -> name_fits o) -> tables_ok U (fst (user_step fs o s)).
Proof.
  intros O Ho. destruct o as [args|n pass sudo| | |]; cbn [user_step].
  - by apply userctl_ok.
  - by apply create_account_ok.
  - by apply sudo_scope_ok.
  - by apply sudo_scope_ok.
  - by apply set_ready_ok.
Qed.

Lemma user_run_ok {F} (fs : file_system F) {U : Prop} ops : (U -> Forall name_fits ops) -> forall s, tables_ok U (fst s) -> tables_ok U (fst (user_run fs ops s)).
Proof.
  unfold user_run. induction ops as [|o ops IH]; intros H s O; [done|]. cbn. apply IH.
  - intros HU. by apply Forall_cons in H as [_ ?].
  - apply user_step_ok; [done|]. intros HU. by apply Forall_cons in H as [? _].
Qed.

(** C16: whatever command lines the users give to the user service and whatever the
    other parts of the kernel ask of it, starting from the default accounts, the
    tables stay well formed: at most eight accounts and sixteen groups, no name
    that is empty or does not fit its field, no two groups with one name, every
    primary group exists, root accounts are sudoers, no group has a member that
    is not an account, and the user who is logged in is an account.  No two accounts
    have one name as long as the other parts create accounts only with names of at
    most 15 bytes. *)
Theorem users_invariant {F} (fs : file_system F) ops u (f : F) :
  let u' := fst (user_run fs ops (user_seed_defaults u, f)) in
  tables_ok False u' /\ (Forall name_fits ops -> NoDup (map name (accounts u'))).
Proof.
  split.
  - apply user_run_ok; [done|apply seed_ok].
  - intros H. assert (O : users_ok (fst (user_run fs ops (user_seed_defaults u, f)))) by (apply user_run_ok; [done|apply seed_ok]).
    by apply O.
Qed.
