(* ===== verification/UsersSession.v ===== *)
(** * Users and groups: what a session can do

    A session without privileges stays without them, a password that is set is
    the one that logs in, and the access decision follows the mode bits. *)
From Stdlib Require Import ZArith Lia.
From stdpp Require Import base list sets.
From S2P Require Import Prelude KString Users UsersSpec UsersRun.

(** ** Confinement *)
Definition privileged (a : k64_user_account_t) : bool := is_root a || sudoer a.
(** What an ordinary session must not change: all of a privileged account, and
    all but the password of another. *)
Definition shadow (a : k64_user_account_t) : k64_user_account_t := if privileged a then a else set_password [] a.

Lemma shadow_name a : name (shadow a) = name a.
Proof. unfold shadow. by destruct (privileged a). Qed.
Lemma shadow_privileged a : privileged (shadow a) = privileged a.
Proof. unfold shadow. by destruct (privileged a) eqn:E. Qed.

Record confined (u0 u : k64_user_state_t) : Prop := {
  cf_ready : ready u = ready u0;
  cf_groups : groups u = groups u0;
  cf_accounts : map shadow (accounts u) = map shadow (accounts u0);
  cf_sudo : sudo_active u = false;
  cf_current a : getZ (accounts u) (current_index u) = Some a -> privileged a = false
}.

Lemma shadow_names l : map name (map shadow l) = map name l.
Proof. rewrite map_map. apply map_ext. apply shadow_name. Qed.

Lemma confined_names u0 u : confined u0 u -> map name (accounts u) = map name (accounts u0).
Proof. intros C. by rewrite <- shadow_names, (cf_accounts _ _ C), shadow_names. Qed.

(** A privileged account is one of the beginning. *)
Lemma confined_privileged u0 u a : confined u0 u -> a ∈ accounts u -> privileged a = true -> a ∈ accounts u0.
Proof.
  intros C Ha Hp. assert (H : a ∈ map shadow (accounts u0)).
  { rewrite <- (cf_accounts _ _ C). apply list_elem_of_fmap. exists a. split; [|done]. unfold shadow. by rewrite Hp. }
  apply list_elem_of_fmap in H as (x & E & Hx). assert (Hpx : privileged x = true) by (by rewrite <- shadow_privileged, <- E).
  unfold shadow in E. rewrite Hpx in E. by subst.
Qed.

Lemma confined_account u0 u a : confined u0 u -> current u = Some a -> privileged a = false.
Proof. intros C H. unfold current in H. destruct (_ || _); [done|]. by apply (cf_current _ _ C). Qed.

Lemma confined_not_root u0 u : confined u0 u -> k64_user_is_root u = false.
Proof.
  intros C. unfold k64_user_is_root. destruct (current u) as [a|] eqn:E; [|done]. pose proof (confined_account _ _ _ C E) as H.
  apply orb_false_iff in H as [-> _]. by rewrite (cf_sudo _ _ C).
Qed.

Lemma confined_set_current u0 u i : confined u0 u -> (forall a, getZ (accounts u) i = Some a -> privileged a = false) -> confined u0 (set_current i false u).
Proof. intros [? ? ? ? ?] H. by split. Qed.

(** Two accounts with one name are one account. *)
Lemma name_unique (u : k64_user_state_t) i j a b : NoDup (map name (accounts u)) -> accounts u !! i = Some a -> accounts u !! j = Some b -> name a = name b -> i = j.
Proof. intros H Hi Hj E. eapply (NoDup_lookup _ _ _ (name a) H); rewrite list_lookup_fmap; [by rewrite Hi|rewrite Hj; cbn; by rewrite E]. Qed.

Lemma getZ_of_nat {A} (l : list A) k : getZ l (Z.of_nat k) = l !! k.
Proof. unfold getZ. rewrite Nat2Z.id. by rewrite decide_True by lia. Qed.

Lemma map_alter_same {A B} (g : A -> B) h k (l : list A) : (forall a, l !! k = Some a -> g (h a) = g a) -> map g (alter h k l) = map g l.
Proof. revert k. induction l as [|x l IH]; intros [|k] H; cbn; [done|done| |]; f_equal; [by apply H|]. by apply IH. Qed.

(** A password that is tried for a name. *)
Definition login_guess (args : list Z) : option (list Z * list Z) :=
  let '(subcmd, args) := user_next_token args 16 in
  if same subcmd (str "login") || same subcmd (str "su") then
    match next_tokens args [K64_USER_NAME_MAX; K64_USER_PASS_MAX] with
    | [n; pass] => Some (n, pass)
    | _ => None
    end
  else None.
(** It is not the password of a privileged account. *)
Definition wrong_guess (l : list k64_user_account_t) (n pass : list Z) : bool :=
  forallb (fun a => negb (privileged a && same (name a) n && user_password_matches a pass)) l.
Definition ordinary_op (u0 : k64_user_state_t) (o : user_op) : bool :=
  match o with
  | Userctl args => match login_guess args with Some (n, pass) => wrong_guess (accounts u0) n pass | None => true end
  | BeginSudo | EndSudo => true
  | CreateAccount _ _ _ | ServiceStop => false
  end.

Section session.
Context {F : Type} (fs : file_system F) (u0 : k64_user_state_t).
Hypothesis Hnames : NoDup (map name (accounts u0)).

Abbreviation stays r := (confined u0 (fst (snd r))).

Lemma login_confined args (s : k64_user_state_t * F) : confined u0 (fst s) ->
  (forall n pass, next_tokens args [K64_USER_NAME_MAX; K64_USER_PASS_MAX] = [n; pass] -> wrong_guess (accounts u0) n pass = true) ->
  stays (user_command_login_like args s).
Proof.
  destruct s as [u f]. cbn [fst]. intros C G. unfold user_command_login_like. destruct (next_tokens args _) as [|n [|pass [|? ?]]]; try done.
  destruct (_ || _); [done|]. destruct (user_find_spec n u) as [[-> _]|(k & a & -> & Ha & Hn)]; [done|]. rewrite getZ_of_nat, Ha.
  destruct (user_password_matches a pass) eqn:M; [|done]. cbn. apply confined_set_current; [done|]. intros x. rewrite getZ_of_nat, Ha. intros [= <-].
  destruct (privileged a) eqn:P; [|done]. specialize (G n pass eq_refl). unfold wrong_guess in G. rewrite forallb_forall in G.
  specialize (G a). rewrite <- list_elem_of_In in G. specialize (G (confined_privileged _ _ _ C (list_elem_of_lookup_2 _ _ _ Ha) P)).
  rewrite P, M in G. by destruct (same_spec (name a) n).
Qed.

Lemma sudo_confined args (s : k64_user_state_t * F) : confined u0 (fst s) -> stays (user_command_sudo args s).
Proof.
  destruct s as [u f]. cbn [fst]. intros C. unfold user_command_sudo. destruct (negb _); [done|]. destruct (getZ _ _) as [a|] eqn:E; [|done].
  pose proof (cf_current _ _ C a E) as [_ P]%orb_false_iff. destruct (user_next_token args K64_USER_PASS_MAX) as [t r].
  rewrite (confined_not_root _ _ C), P. cbn [negb]. destruct (_ || _); [done|]. destruct (same t _); [|done]. cbn. apply confined_set_current; [done|].
  apply (cf_current _ _ C).
Qed.

Lemma passwd_confined args (s : k64_user_state_t * F) : confined u0 (fst s) -> stays (user_command_passwd fs args s).
Proof.
  destruct s as [u f]. cbn [fst]. intros C. unfold user_command_passwd. destruct (next_tokens args _) as [|n [|pass [|? ?]]]; try done.
  destruct (_ || _); [done|]. destruct (user_find_spec n u) as [[-> _]|(k & a & -> & Ha & Hn)]; [done|]. rewrite getZ_of_nat, Ha, (confined_not_root _ _ C).
  unfold own_name. destruct (user_require_login u); [|done]. destruct (getZ (accounts u) (current_index u)) as [b|] eqn:E; [|done]. cbn [negb andb].
  destruct (same_spec (name b) n) as [Hb|_]; [|done]. cbn [negb snd]. rewrite save_db_users, Nat2Z.id. cbn [fst].
  assert (Hk : accounts u !! k = Some b).
  { apply getZ_lookup in E as [_ E']. rewrite <- (name_unique u (Z.to_nat (current_index u)) k b a); [done| |done|done|congruence]. by rewrite (confined_names _ _ C). }
  pose proof (cf_current _ _ C b E) as P. destruct C as [C1 C2 C3 C4 C5].
  set (p := user_store_password _ _ _ _). assert (Hs : map shadow (alter (set_password p) k (accounts u)) = map shadow (accounts u)).
  { apply map_alter_same. intros x. rewrite Hk. intros [= <-]. unfold shadow. change (privileged (set_password p b)) with (privileged b). by rewrite P. }
  split; cbn [set_accounts ready groups accounts sudo_active current_index]; [done|done|congruence|done|].
  intros x [_ Hx]%getZ_lookup. apply getZ_lookup in E as [_ E].
  rewrite (name_unique u (Z.to_nat (current_index u)) k b b) in Hx; [|by rewrite <- shadow_names, C3, shadow_names|done|done|done].
  rewrite list_lookup_alter_eq, Hk in Hx. injection Hx as <-. exact P.
Qed.

Lemma userctl_confined args (s : k64_user_state_t * F) : confined u0 (fst s) -> ordinary_op u0 (Userctl args) = true -> stays (user_command_userctl fs args s).
Proof.
  intros C G. pose proof (confined_not_root _ _ C) as R. unfold user_command_userctl. unfold ordinary_op, login_guess in G. destruct (user_next_token args 16) as [sub rest].
  destruct (empty sub); [done|]. apply (dispatch_ind (fun r => stays r)); [done|]. intros c Hc. unfold subcommands in Hc.
  destruct s as [u f]. cbn [fst] in C, R.
  assert (L : sub = str "login" \/ sub = str "su" -> stays (user_command_login_like rest (u, f))).
  { intros HL. apply login_confined; [done|]. intros n pass E. rewrite E in G. by destruct HL as [->| ->]. }
  repeat (apply elem_of_cons in Hc as [[= -> ->]|Hc]; [first
    [exact C|rewrite groups_users; exact C|rewrite id_users; exact C|apply L; by left|apply L; by right|apply sudo_confined; exact C|apply passwd_confined; exact C
    |unfold user_command_useradd, user_command_userdel, user_command_usermod, user_command_groupadd, user_command_groupdel, user_command_gpasswd; rewrite R; exact C
    |apply confined_set_current; [exact C|done]]|]).
  by apply not_elem_of_nil in Hc.
Qed.

Lemma step_confined o s : confined u0 (fst s) -> ordinary_op u0 o = true -> confined u0 (fst (user_step fs o s)).
Proof.
  intros C G. destruct o as [args|n pass sudo| | |]; try done; cbn [user_step fst].
  - by apply userctl_confined.
  - unfold k64_user_begin_sudo_scope. destruct (current (fst s)) as [a|] eqn:E; [|done].
    pose proof (confined_account _ _ _ C E) as [_ ->]%orb_false_iff. by rewrite andb_false_r.
  - unfold k64_user_end_sudo_scope. destruct (current (fst s)) as [a|] eqn:E; [|done]. destruct (negb _); [|done].
    apply confined_set_current; [done|]. apply (cf_current _ _ C).
Qed.
End session.

Lemma run_confined {F} (fs : file_system F) u0 ops : NoDup (map name (accounts u0)) -> forallb (ordinary_op u0) ops = true ->
  forall s, confined u0 (fst s) -> confined u0 (fst (user_run fs ops s)).
Proof.
  intros N. unfold user_run. induction ops as [|o ops IH]; intros G s C; [done|]. cbn in G |- *. apply andb_true_iff in G as [G1 G2].
  apply IH; [done|]. by apply step_confined.
Qed.

(** ** Access *)

(** The class of the user for a file: owner, group or other. *)
Definition access_shift (owner_uid owner_gid : Z) (u : k64_user_state_t) : Z :=
  if k64_user_effective_uid u =? owner_uid then 6 else if k64_user_is_member_gid owner_gid u then 3 else 0.

Lemma mode_bits_testbit mode shift b : 0 <= shift -> 0 <= b -> Z.testbit (mode_bits mode shift) b = Z.testbit mode (b + shift) && (b <? 3).
Proof.
  intros Hs Hb. unfold mode_bits. rewrite Z.land_spec, Z.shiftr_spec by done. f_equal. change 7 with (Z.ones 3). destruct (Z.ltb_spec b 3).
  - by apply Z.ones_spec_low.
  - by apply Z.ones_spec_high.
Qed.

Lemma land_subset bits mask : Z.land bits mask = mask <-> forall b, 0 <= b -> Z.testbit mask b = true -> Z.testbit bits b = true.
Proof.
  split.
  - intros E b _ H. rewrite <- E, Z.land_spec in H. by apply andb_true_iff in H as [? _].
  - intros H. apply Z.bits_inj'. intros b Hb. rewrite Z.land_spec. destruct (Z.testbit mask b) eqn:E; [|by rewrite andb_false_r]. by rewrite (H b).
Qed.

(** Every bit of the mask is one of the three bits of the class. *)
Lemma can_access_spec owner_uid owner_gid mode mask u :
  k64_user_can_access owner_uid owner_gid mode mask u = true <->
  k64_user_is_root u = true \/
  forall b, 0 <= b -> Z.testbit mask b = true -> b < 3 /\ Z.testbit mode (b + access_shift owner_uid owner_gid u) = true.
Proof.
  unfold k64_user_can_access. destruct (k64_user_is_root u); [split; [by left|done]|].
  set (bits := if _ =? _ then _ else _). assert (E : bits = mode_bits mode (access_shift owner_uid owner_gid u)).
  { unfold bits, access_shift. destruct (_ =? _); [done|]. by destruct (k64_user_is_member_gid _ _). }
  assert (Hs : 0 <= access_shift owner_uid owner_gid u) by (unfold access_shift; destruct (_ =? _); [lia|]; destruct (k64_user_is_member_gid _ _); lia).
  rewrite E, Z.eqb_eq, land_subset. split.
  - intros H. right. intros b Hb Hm. specialize (H b Hb Hm). rewrite mode_bits_testbit in H by done. apply andb_true_iff in H as [? ?%Z.ltb_lt]. done.
  - intros [?|H]; [done|]. intros b Hb Hm. destruct (H b Hb Hm) as [H1 H2]. rewrite mode_bits_testbit by done. by rewrite H2, (proj2 (Z.ltb_lt _ _)).
Qed.

Lemma confined_uid u0 u : confined u0 u -> -1 <= current_index u -> 1000 <= k64_user_effective_uid u.
Proof.
  intros C Hc. unfold k64_user_effective_uid. rewrite (confined_not_root _ _ C). unfold k64_user_real_uid.
  destruct (current u) as [a|] eqn:E; [|lia]. pose proof (confined_account _ _ _ C E) as [-> _]%orb_false_iff.
  unfold current in E. destruct (_ || _) eqn:E'; [done|]. apply getZ_lookup in E as [E _]. lia.
Qed.

(** A file of root without bits for others. *)
Lemma confined_no_access u0 u mode mask : confined u0 u -> -1 <= current_index u -> Z.land mode 0x3F = 0 -> 0 < mask ->
  k64_user_can_access 0 0 mode mask u = false.
Proof.
  intros C Hc Hm Hk. destruct (k64_user_can_access 0 0 mode mask u) eqn:E; [|done]. apply can_access_spec in E as [E|E]; [by rewrite (confined_not_root _ _ C) in E|].
  destruct (E (Z.log2 mask)) as [Hb Ht]; [apply Z.log2_nonneg|by apply Z.bit_log2|].
  assert (Hs : access_shift 0 0 u = 3 \/ access_shift 0 0 u = 0).
  { unfold access_shift. pose proof (confined_uid _ _ C Hc). rewrite (proj2 (Z.eqb_neq _ _)) by lia. destruct (k64_user_is_member_gid _ _); [by left|by right]. }
  assert (Hz : Z.testbit (Z.land mode 0x3F) (Z.log2 mask + access_shift 0 0 u) = false) by (rewrite Hm; apply Z.testbit_0_l).
  pose proof (Z.log2_nonneg mask). rewrite Z.land_spec, Ht in Hz. change 0x3F with (Z.ones 6) in Hz. by rewrite Z.ones_spec_low in Hz by lia.
Qed.

(** C33: a session without privileges stays one.  If nobody is logged in, or a user who is
    neither root nor a sudoer, then after any sequence of command lines and
    sudo scopes in which no login attempt is the password of a privileged
    account, the session is not root, the groups and roles are what they were,
    only passwords of accounts without privileges have changed, and files of root
    without bits for group and others, such as the user database, stay closed. *)
Theorem ordinary_session_confined {F} (fs : file_system F) ops u (f : F) :
  users_ok u -> sudo_active u = false ->
  (forall a, getZ (accounts u) (current_index u) = Some a -> privileged a = false) ->
  forallb (ordinary_op u) ops = true ->
  let u' := fst (user_run fs ops (u, f)) in
  k64_user_is_root u' = false /\ 1000 <= k64_user_effective_uid u' /\
  groups u' = groups u /\ map shadow (accounts u') = map shadow (accounts u) /\
  forall mode mask, Z.land mode 0x3F = 0 -> 0 < mask -> k64_user_can_access 0 0 mode mask u' = false.
Proof.
  intros O Hs Ha G u'. assert (C : confined u u') by (apply run_confined; [exact (uo_names _ _ O I)|done|by split]).
  assert (O' : users_ok u').
  { apply user_run_ok; [|done]. intros _. apply List.Forall_forall. intros o Ho. rewrite forallb_forall in G. specialize (G o Ho). by destruct o. }
  pose proof (uo_current _ _ O') as [Hc _]. split_and!; [by eapply confined_not_root|by eapply confined_uid|apply C|apply C|].
  intros mode mask. by eapply confined_no_access.
Qed.

(** ** Passwords *)

(** What is one token of a command line. *)
Definition word (n : Z) (s : list Z) : Prop := s <> [] /\ Z.of_nat (length s) < n /\ Forall (fun c => is_blank c = false) s.

Lemma skip_word n s t : word n s -> user_skip_ws (s ++ t) = s ++ t.
Proof. intros (H & _ & HF). destruct s as [|c s]; [done|]. apply List.Forall_inv in HF. cbn. by rewrite HF. Qed.

Lemma take_token_word s t n : (length s <= n)%nat -> Forall (fun c => is_blank c = false) s -> (t = [] \/ exists t', t = 32 :: t') -> take_token n (s ++ t) = s.
Proof.
  revert n. induction s as [|c s IH]; intros n Hn HF Ht.
  - destruct Ht as [->|[t' ->]]; by destruct n.
  - destruct n as [|n]; [cbn in Hn; lia|]. apply Forall_cons in HF as [Hc HF]. cbn. rewrite Hc. f_equal. apply IH; [cbn in Hn; lia|done|done].
Qed.

Lemma next_token_word n s t m r : word n s -> word m r -> user_next_token (s ++ 32 :: r ++ t) n = (s, r ++ t).
Proof.
  intros Hs Hr. unfold user_next_token. rewrite (skip_word n) by done. destruct Hs as (_ & H1 & H2).
  rewrite take_token_word; [|lia|done|right; by eexists]. f_equal. rewrite drop_app_length. cbn [user_skip_ws]. change (is_blank 32) with true. cbv iota.
  by apply (skip_word m).
Qed.

Lemma next_token_last n s : word n s -> user_next_token s n = (s, []).
Proof.
  intros Hs. rewrite <- (app_nil_r s) at 1. unfold user_next_token. rewrite (skip_word n) by done. destruct Hs as (_ & H1 & H2).
  rewrite take_token_word; [|lia|done|by left]. f_equal. by rewrite drop_app_length.
Qed.

Definition command_line (w1 w2 w3 : list Z) : list Z := w1 ++ 32 :: w2 ++ 32 :: w3.

Lemma command_line_tokens c n p : word 16 c -> word K64_USER_NAME_MAX n -> word K64_USER_PASS_MAX p ->
  exists rest, user_next_token (command_line c n p) 16 = (c, rest) /\ next_tokens rest [K64_USER_NAME_MAX; K64_USER_PASS_MAX] = [n; p].
Proof.
  intros Hc Hn Hp. exists (n ++ 32 :: p). split; [by eapply next_token_word|]. cbn [next_tokens].
  rewrite <- (app_nil_r p) at 1. rewrite (next_token_word _ _ _ K64_USER_PASS_MAX) by done. rewrite app_nil_r, next_token_last by done. done.
Qed.

Lemma hex_digit_inj x y : 0 <= x < 16 -> 0 <= y < 16 -> hex_digit x = hex_digit y -> x = y.
Proof. intros Hx Hy. unfold hex_digit. destruct (Z.ltb_spec x 10), (Z.ltb_spec y 10); lia. Qed.

Lemma nibble_range z : 0 <= Z.land z 0xF < 16.
Proof. change 0xF with (Z.ones 4). rewrite Z.land_ones by lia. by apply Z.mod_pos_bound. Qed.

Lemma nibble_bit z i : 0 <= i < 4 -> Z.testbit (Z.land z 0xF) i = Z.testbit z i.
Proof. intros Hi. change 0xF with (Z.ones 4). by rewrite Z.land_spec, Z.ones_spec_low, andb_true_r by lia. Qed.

Lemma hex_digits_inj x y : 0 <= x < 2 ^ 64 -> 0 <= y < 2 ^ 64 -> hex_digits x = hex_digits y -> x = y.
Proof.
  intros Hx Hy E. assert (H : forall i, (i < 16)%nat -> Z.land (Z.shiftr x (60 - 4 * Z.of_nat i)) 0xF = Z.land (Z.shiftr y (60 - 4 * Z.of_nat i)) 0xF).
  { intros i Hi. apply hex_digit_inj; [apply nibble_range|apply nibble_range|]. unfold hex_digits in E.
    apply (proj1 (List.map_ext_in_iff) E), List.in_seq. lia. }
  apply Z.bits_inj'. intros b Hb. destruct (Z.ltb_spec b 64) as [Hb64|Hb64].
  - assert (Hd : 0 <= b / 4 < 16) by (split; [apply Z.div_pos|apply Z.div_lt_upper_bound]; lia).
    specialize (H (Z.to_nat (15 - b / 4)) ltac:(lia)). rewrite Z2Nat.id in H by lia.
    apply (f_equal (fun z => Z.testbit z (b mod 4))) in H.
    pose proof (Z.mod_pos_bound b 4 ltac:(lia)) as Hm. rewrite !nibble_bit, !Z.shiftr_spec in H by lia.
    pose proof (Z.div_mod b 4 ltac:(lia)). replace (b mod 4 + (60 - 4 * (15 - b / 4))) with b in H by lia. done.
  - assert (T : forall z, 0 <= z < 2 ^ 64 -> Z.testbit z b = false); [|by rewrite !T].
    intros z Hz. rewrite <- (Z.mod_small z (2 ^ 64)) by lia. apply Z.mod_pow2_bits_high. lia.
Qed.

Lemma hash_of_range n p : 0 <= hash_of n p < 2 ^ 64.
Proof.
  unfold hash_of. set (h := hash_byte _ 58). assert (Hh : 0 <= h < 2 ^ 64) by (unfold h, hash_byte, u64; apply Z.mod_pos_bound; lia). revert Hh. generalize h. clear h.
  unfold hash_bytes. induction p as [|c p IH]; intros h Hh; [done|]. cbn. apply IH. unfold hash_byte, u64. apply Z.mod_pos_bound. lia.
Qed.

Lemma hash_password_is n p : user_hash_password n p K64_USER_PASS_MAX = str "k64$" ++ hex_digits (hash_of n p).
Proof. reflexivity. Qed.

(** A password that was stored in the account matches what has its hash. *)
Lemma stored_matches a n p q : name a = n ->
  user_password_matches (set_password (user_store_password K64_USER_PASS_MAX n p false) a) q = bool_decide (hash_of n q = hash_of n p).
Proof.
  intros <-. unfold user_password_matches, user_store_password. cbn [andb password set_password name]. rewrite !hash_password_is.
  change (user_hash_is_encoded (str "k64$" ++ hex_digits (hash_of (name a) p))) with true. cbn [negb]. unfold same. apply bool_decide_ext. split.
  - intros E%app_inv_head. symmetry. eapply hex_digits_inj; [apply hash_of_range|apply hash_of_range|done].
  - by intros ->.
Qed.

Lemma find_name n u u' : map name (accounts u') = map name (accounts u) -> user_find n u' = user_find n u.
Proof.
  unfold user_find. generalize 0, (accounts u'), (accounts u). intros i l' l. revert i l'.
  induction l as [|a l IH]; intros i [|b l'] E; try done. cbn in *. injection E as E1 E2. rewrite E1. destruct (same _ _); [done|]. by apply IH.
Qed.

Lemma word_const n s : 0 < Z.of_nat (length s) < n -> forallb (fun c => negb (is_blank c)) s = true -> word n s.
Proof.
  intros H HF. split_and!; [intros ->; cbn in H; lia|lia|]. apply List.Forall_forall. intros c Hc. rewrite forallb_forall in HF. specialize (HF c Hc). by destruct (is_blank c).
Qed.

(** [userctl login] and [userctl passwd] reach their commands with both words. *)
Lemma userctl_login {F} (fs : file_system F) n p u f : word K64_USER_NAME_MAX n -> word K64_USER_PASS_MAX p ->
  user_command_userctl fs (command_line (str "login") n p) (u, f) =
  match getZ (accounts u) (user_find n u) with
  | Some a => if user_password_matches a p then (str "logged in as " ++ name a, (set_current (user_find n u) false u, f)) else (str "authentication failed", (u, f))
  | None => (str "authentication failed", (u, f))
  end.
Proof.
  intros Hn Hp. unfold user_command_userctl. destruct (command_line_tokens (str "login") n p) as (rest & -> & E); [by apply word_const|done|done|].
  change (empty (str "login")) with false. cbv iota.
  assert (D : dispatch (subcommands fs) (str "login") rest (u, f) = user_command_login_like rest (u, f)) by reflexivity. rewrite D.
  unfold user_command_login_like. rewrite E. destruct Hn as [Hn _], Hp as [Hp _]. destruct n; [done|]. by destruct p.
Qed.

Lemma userctl_passwd {F} (fs : file_system F) n p u f : word K64_USER_NAME_MAX n -> word K64_USER_PASS_MAX p ->
  exists rest, user_command_userctl fs (command_line (str "passwd") n p) (u, f) = user_command_passwd fs rest (u, f) /\
    next_tokens rest [K64_USER_NAME_MAX; K64_USER_PASS_MAX] = [n; p].
Proof.
  intros Hn Hp. unfold user_command_userctl. destruct (command_line_tokens (str "passwd") n p) as (rest & -> & E); [by apply word_const|done|done|]. by exists rest.
Qed.

(** C35: a user who changes the own password, or root who changes one, sets what [login]
    asks for: afterwards a login with any word succeeds exactly when the word has
    the hash of the new password, and then the session is that user's, without
    [sudo]; a login that fails changes nothing. *)
Theorem passwd_then_login {F} (fs : file_system F) u (f : F) n p q :
  word K64_USER_NAME_MAX n -> word K64_USER_PASS_MAX p -> word K64_USER_PASS_MAX q ->
  n ∈ map name (accounts u) -> k64_user_is_root u = true \/ own_name u n = true ->
  let s1 := user_command_userctl fs (command_line (str "passwd") n p) (u, f) in
  let s2 := user_command_userctl fs (command_line (str "login") n q) (snd s1) in
  fst s1 = str "password updated" /\ map name (accounts (fst (snd s1))) = map name (accounts u) /\
  if decide (hash_of n q = hash_of n p)
  then fst (snd s2) = set_current (user_find n u) false (fst (snd s1)) /\ snd (snd s2) = snd (snd s1)
  else s2 = (str "authentication failed", snd s1).
Proof.
  intros Hn Hp Hq Hin Hr s1 s2. destruct (userctl_passwd fs n p u f Hn Hp) as (rest & E1 & Et).
  destruct (user_find_spec n u) as [[_ Hno]|(k & a & Hf & Ha & Hna)]; [done|].
  set (u1 := set_accounts (alter (set_password (user_store_password K64_USER_PASS_MAX n p false)) k (accounts u)) u).
  assert (H1 : s1 = (str "password updated", snd (user_save_db fs (u1, f)))).
  { unfold s1. rewrite E1. unfold user_command_passwd. rewrite Et. destruct Hn as [Hn _], Hp as [Hp _]. destruct n as [|c n]; [done|]. destruct p as [|d p]; [done|].
    cbn [empty orb]. rewrite Hf, getZ_of_nat, Ha, Hna, Nat2Z.id. by destruct Hr as [->| ->]; [|rewrite andb_false_r]. }
  assert (Hu : fst (snd s1) = u1) by (rewrite H1; cbn [snd]; by rewrite save_db_users).
  assert (Hm : map name (accounts u1) = map name (accounts u)) by (by apply members_alter).
  split_and!; [by rewrite H1|by rewrite Hu|]. unfold s2. destruct (snd s1) as [v g] eqn:Es. cbn [fst snd] in *. subst v.
  rewrite userctl_login by done. rewrite (find_name _ _ _ Hm), Hf, getZ_of_nat. cbn [u1 set_accounts accounts]. rewrite list_lookup_alter_eq, Ha. cbn [fmap option_fmap option_map].
  rewrite (stored_matches a n p q Hna). case_decide; [by rewrite bool_decide_eq_true_2|by rewrite bool_decide_eq_false_2].
Qed.
