(* ===== verification/UsersDb.v ===== *)
(** * Users and groups: the databases

    What a restart of the service reads back from the files it wrote, and that
    the loops over the files end.

    A file system in memory, and the theorems of the component at concrete
    command lines. *)
From Stdlib Require Import ZArith Lia.
From stdpp Require Import base list sets.
From S2P Require Import Prelude KString Users UsersSpec UsersRun UsersSession.

(** ** The loops end *)
Lemma next_line_shorter c s : (length (snd (next_line (c :: s))) < length (c :: s))%nat.
Proof.
  unfold next_line. cbn [snd]. destruct (Z.eqb_spec c 10) as [->|Hc]; [cbn; lia|].
  assert (E : exists t, take_line 159 (c :: s) = c :: t) by (cbn [take_line]; rewrite (proj2 (Z.eqb_neq _ _)) by done; by eexists).
  destruct E as [t ->]. cbn [length]. set (r := drop (S (length t)) (c :: s)). assert (Hr : (length r <= length s)%nat) by (unfold r; rewrite length_drop; cbn; lia).
  destruct r as [|d r]; [cbn; lia|]. destruct (d =? 10); cbn in *; lia.
Qed.

Lemma load_accounts_total fuel p u : (length p <= fuel)%nat -> exists u', load_accounts fuel p u = Some u'.
Proof.
  revert p u. induction fuel as [|fuel IH]; intros [|c p] u Hp; cbn [load_accounts]; [by eexists|cbn in Hp; lia|by eexists|].
  pose proof (next_line_shorter c p) as H. destruct (next_line (c :: p)) as [line r]. cbn [snd] in H. apply IH. cbn in *. lia.
Qed.

Lemma skip_member_length s : (length (skip_member s) <= length s)%nat.
Proof. induction s as [|c s IH]; cbn; [lia|]. destruct (c =? 44); lia. Qed.
Lemma skip_separators_length s : (length (skip_separators s) <= length s)%nat.
Proof. induction s as [|c s IH]; cbn; [lia|]. destruct (_ || _); cbn; lia. Qed.

Lemma load_members_total fuel g mp u : (length mp <= fuel)%nat -> exists u', load_members fuel g mp u = Some u'.
Proof.
  revert mp u. induction fuel as [|fuel IH]; intros [|c mp] u Hp; cbn [load_members]; [by eexists|cbn in Hp; lia|by eexists|].
  apply IH. set (r := skip_separators (c :: mp)). pose proof (skip_member_length (drop (length (take_member 15 r)) r)) as H1. rewrite length_drop in H1.
  assert (H2 : (length r <= S (length mp))%nat) by apply (skip_separators_length (c :: mp)). cbn in Hp.
  assert (Er : r = skip_separators (c :: mp)) by done. clearbody r. destruct r as [|d r]; [cbn in *; lia|]. symmetry in Er. destruct (Z.eqb_spec d 44) as [->|Hd].
  - exfalso. clear -Er. revert Er. generalize (c :: mp). intros l. induction l as [|e l IH]; [done|]. cbn. destruct (_ || _) eqn:E; [done|]. intros [= -> _]. done.
  - cbn [take_member] in H1 |- *. rewrite (proj2 (Z.eqb_neq _ _)) in H1 |- * by done. cbn [length] in *. lia.
Qed.

Lemma load_group_total line u : exists u', load_group line u = Some u'.
Proof.
  unfold load_group. destruct (split_first_colon line) as [a b]. destruct (empty _); [by eexists|]. destruct (group_add_internal _ u) as [ok u1].
  destruct (negb ok); [by eexists|]. by apply load_members_total.
Qed.

Lemma load_groups_total fuel p u : (length p <= fuel)%nat -> exists u', load_groups fuel p u = Some u'.
Proof.
  revert p u. induction fuel as [|fuel IH]; intros [|c p] u Hp; cbn [load_groups]; [by eexists|cbn in Hp; lia|by eexists|].
  pose proof (next_line_shorter c p) as H. destruct (next_line (c :: p)) as [line r]. cbn [snd] in H.
  assert (E : exists u1, (if empty line then Some u else load_group line u) = Some u1) by (destruct (empty line); [by eexists|apply load_group_total]).
  destruct E as [u1 ->]. cbn. apply IH. cbn in *. lia.
Qed.

(** ** Accounts are not changed by the groups *)
Lemma load_members_same fuel g mp u u' : load_members fuel g mp u = Some u' -> accounts u' = accounts u.
Proof.
  revert mp u. induction fuel as [|fuel IH]; intros [|c mp] u; cbn [load_members]; [congruence|done|congruence|]. intros H%IH. rewrite H.
  destruct (0 <=? _); [|done]. unfold group_set_membership. by destruct (_ && _).
Qed.

Lemma group_add_accounts g u : accounts (snd (group_add_internal g u)) = accounts u.
Proof. unfold group_add_internal. destruct (empty g); [done|]. destruct (0 <=? _); [done|]. by destruct (_ <=? _). Qed.

Lemma set_membership_accounts g i b u : accounts (group_set_membership g i b u) = accounts u.
Proof. unfold group_set_membership. by destruct (_ && _). Qed.

Lemma load_group_same line u u' : load_group line u = Some u' -> accounts u' = accounts u.
Proof.
  unfold load_group. destruct (split_first_colon line) as [a b]. destruct (empty _); [congruence|].
  pose proof (group_add_accounts (user_copy K64_GROUP_NAME_MAX a) u) as E. destruct (group_add_internal _ u) as [ok u1]. cbn [snd] in E.
  destruct (negb ok); [congruence|]. intros H%load_members_same. congruence.
Qed.

Lemma load_groups_same fuel p u u' : load_groups fuel p u = Some u' -> accounts u' = accounts u.
Proof.
  revert p u. induction fuel as [|fuel IH]; intros [|c p] u; cbn [load_groups]; [congruence|done|congruence|]. destruct (next_line (c :: p)) as [line r].
  destruct (empty line); [apply IH|]. destruct (load_group line u) as [u1|] eqn:E; [|done]. cbn. intros H%IH. apply load_group_same in E. congruence.
Qed.

Lemma ensure_primaries_accounts u : Forall (fun a => primary_group a <> []) (accounts u) -> accounts (user_ensure_primary_groups u) = accounts u.
Proof.
  intros H. apply (for_accounts_ind (fun v => accounts v = accounts u)); [done|]. intros i a v E Ha. unfold ensure_primary.
  rewrite set_membership_accounts, group_add_accounts. cbn [set_accounts accounts]. rewrite Nat2Z.id, <- E. apply (alter_same _ i _ a); [done|].
  assert (Hp : primary_group a <> []) by (rewrite Forall_forall in H; apply H; rewrite <- E; by eapply list_elem_of_lookup_2).
  destruct a as [n w g r s]. cbn in *. by destruct g.
Qed.

Lemma sync_accounts u : accounts (user_sync_role_groups u) = accounts u.
Proof.
  unfold user_sync_role_groups. apply (for_accounts_ind (fun v => accounts v = accounts u)); [by rewrite !group_add_accounts|].
  intros i a v E _. by rewrite !set_membership_accounts.
Qed.

(** ** Writing and reading accounts *)

(** A field of a line. *)
Definition plain (s : list Z) : Prop := Forall (fun c => c <> 58 /\ c <> 10) s.

Record stored (a : k64_user_account_t) : Prop := {
  st_name : short (name a) /\ plain (name a);
  st_password : user_hash_is_encoded (password a) = true /\ (length (password a) <= 31)%nat /\ plain (password a);
  st_primary : short (primary_group a) /\ plain (primary_group a);
  st_sudo : is_root a = true -> sudoer a = true
}.

Definition account_text (a : k64_user_account_t) : list Z :=
  name a ++ 58 :: password a ++ 58 :: (if is_root a then str "root" else str "user") ++ 58 :: (if sudoer a then str "1" else str "0") ++ 58 :: primary_group a.

Lemma append_all_fits size parts buf : Z.of_nat (length (buf ++ concat parts)) < size -> append_all size parts buf = buf ++ concat parts.
Proof.
  unfold append_all. revert buf. induction parts as [|p parts IH]; intros buf H; cbn [concat fold_left] in *; [by rewrite app_nil_r|].
  rewrite app_assoc in H. assert (E : user_append size buf p = buf ++ p).
  { unfold user_append. rewrite take_ge; [done|]. rewrite !length_app in H. lia. }
  rewrite E, IH by done. by rewrite app_assoc.
Qed.

Lemma account_line_text a : concat (account_line a) = account_text a ++ [10].
Proof.
  unfold account_line, account_text. cbn [concat]. change (str ":") with [58]. rewrite app_nil_r. rewrite <- !app_assoc. cbn [app]. rewrite <- !app_assoc. cbn [app].
  rewrite <- !app_assoc. cbn [app]. by rewrite <- !app_assoc.
Qed.

Lemma account_text_length a : stored a -> (length (account_text a) <= 70)%nat.
Proof.
  intros [[[_ N] _] (_ & W & _) [[_ P] _] _]. unfold account_text. rewrite !length_app. cbn [length]. rewrite !length_app. cbn [length]. rewrite !length_app. cbn [length].
  rewrite !length_app. cbn [length]. assert (R : length (if is_root a then str "root" else str "user") = 4%nat) by (by destruct (is_root a)).
  assert (S1 : length (if sudoer a then str "1" else str "0") = 1%nat) by (by destruct (sudoer a)). lia.
Qed.

Lemma accounts_text_length l : Forall stored l -> (length (concat (map (fun a => account_text a ++ [10%Z]) l)) <= 71 * length l)%nat.
Proof.
  induction 1 as [|a l Ha _ IH]; [cbn; lia|]. cbn [map concat length]. rewrite !length_app. pose proof (account_text_length a Ha). cbn [length]. lia.
Qed.

Lemma users_text_is u : Forall stored (accounts u) -> (length (accounts u) <= 8)%nat -> users_text u = concat (map (fun a => account_text a ++ [10]) (accounts u)).
Proof.
  intros H Hl. unfold users_text. assert (G : forall l buf, (length (buf ++ concat (map (fun a => account_text a ++ [10%Z]) l)) <= 1000)%nat ->
    fold_left (fun buf a => append_all 1024 (account_line a) buf) l buf = buf ++ concat (map (fun a => account_text a ++ [10]) l)).
  { induction l as [|a l IH]; intros buf Hb; cbn [fold_left map concat] in *; [by rewrite app_nil_r|]. rewrite app_assoc in Hb.
    rewrite append_all_fits by (rewrite account_line_text, !length_app; rewrite !length_app in Hb; lia). rewrite account_line_text, IH by exact Hb. by rewrite <- !app_assoc. }
  apply (G _ []). pose proof (accounts_text_length _ H). cbn [app]. lia.
Qed.

Lemma take_line_plain n s t : Forall (fun c => c <> 10) s -> (length s < n)%nat -> take_line n (s ++ 10 :: t) = s.
Proof.
  revert n. induction s as [|c s IH]; intros n H Hn; (destruct n as [|n]; [cbn in Hn; lia|]); [done|]. apply Forall_cons in H as [Hc H]. cbn.
  rewrite (proj2 (Z.eqb_neq _ _)) by done. f_equal. apply IH; [done|cbn in Hn; lia].
Qed.

Lemma next_line_plain s t : Forall (fun c => c <> 10) s -> (length s < 159)%nat -> next_line ((s ++ [10]) ++ t) = (s, t).
Proof. intros H Hn. rewrite <- app_assoc. cbn [app]. unfold next_line. rewrite take_line_plain by done. by rewrite drop_app_length. Qed.

Lemma split_colons_field s t : plain s -> split_colons (s ++ 58 :: t) = s :: split_colons t.
Proof. induction 1 as [|c s [Hc _] _ IH]; [done|]. cbn. rewrite (proj2 (Z.eqb_neq _ _)) by done. by rewrite IH. Qed.
Lemma split_colons_last s : plain s -> split_colons s = [s].
Proof. induction 1 as [|c s [Hc _] _ IH]; [done|]. cbn. rewrite (proj2 (Z.eqb_neq _ _)) by done. by rewrite IH. Qed.

Lemma plain_const s : forallb (fun c => negb (c =? 58) && negb (c =? 10)) s = true -> plain s.
Proof.
  intros H. apply List.Forall_forall. intros c Hc. rewrite forallb_forall in H. specialize (H c Hc). apply andb_true_iff in H as [H1 H2].
  split; [destruct (Z.eqb_spec c 58)|destruct (Z.eqb_spec c 10)]; done.
Qed.

Lemma account_fields a : stored a ->
  split_colons (account_text a) = [name a; password a; if is_root a then str "root" else str "user"; if sudoer a then str "1" else str "0"; primary_group a].
Proof.
  intros [[_ N] (_ & _ & W) [_ P] _]. unfold account_text. rewrite (split_colons_field (name a)), (split_colons_field (password a)) by done.
  rewrite split_colons_field by (by destruct (is_root a); apply plain_const). rewrite split_colons_field by (by destruct (sudoer a); apply plain_const).
  by rewrite split_colons_last.
Qed.

(** Reading a line is adding the account. *)
Lemma load_account_text a u : stored a ->
  load_account (account_text a) u = snd (user_add_account (name a) (password a) (is_root a) (sudoer a) (primary_group a) true u).
Proof.
  intros St. unfold load_account, field. rewrite account_fields by done. destruct St as [[[N1 N2] _] (W1 & W2 & _) [[P1 P2] _] _]. cbn [nth].
  rewrite (take_ge (name a)), (take_ge (password a)), (take_ge (primary_group a)) by lia. unfold or_name.
  assert (Ew : empty (password a) = false) by (destruct (password a); done). rewrite Ew.
  assert (Ee : empty (name a) = false) by (destruct (name a); done). rewrite Ee. assert (Ep : empty (primary_group a) = false) by (destruct (primary_group a); done). rewrite Ep.
  cbn [orb]. rewrite W1. by destruct (is_root a), (sudoer a).
Qed.

Lemma account_of_same a : stored a -> account_of (user_copy K64_USER_NAME_MAX (name a)) (name a) (password a) (is_root a) (sudoer a) (primary_group a) true = a.
Proof.
  intros [[[N1 N2] _] (W1 & W2 & _) [[P1 P2] _] S]. unfold account_of, or_name, user_store_password. rewrite W1. cbn [andb].
  assert (Ep : empty (primary_group a) = false) by (destruct (primary_group a); done). rewrite Ep.
  rewrite !user_copy_short by (unfold K64_USER_NAME_MAX, K64_USER_PASS_MAX, K64_GROUP_NAME_MAX; lia). destruct a as [n w g r s]. cbn in *.
  f_equal. destruct r; [by rewrite S|by rewrite orb_false_r].
Qed.

Lemma group_add_room g u : g <> [] -> (length (groups u) < 16)%nat ->
  exists u', group_add_internal g u = (true, u') /\ same_accounts u u' /\ (length (groups u') <= S (length (groups u)))%nat.
Proof.
  intros Hg Hl. unfold group_add_internal. destruct (empty g) eqn:E; [by apply empty_spec in E|]. destruct (0 <=? _).
  - exists u. split_and!; [done|apply same_accounts_refl|lia].
  - unfold K64_GROUP_MAX, group_count. rewrite (proj2 (Z.leb_gt _ _)) by lia. eexists. split_and!; [done|by split|]. cbn. rewrite length_app. cbn. lia.
Qed.

Lemma add_stored a u : stored a -> name a ∉ map name (accounts u) -> (length (accounts u) < 8)%nat -> (length (groups u) < 16)%nat ->
  exists u', user_add_account (name a) (password a) (is_root a) (sudoer a) (primary_group a) true u = (true, u') /\
    accounts u' = accounts u ++ [a] /\ (length (groups u') <= S (length (groups u)))%nat /\ current_index u' = current_index u /\ sudo_active u' = sudo_active u.
Proof.
  intros St Hn Hl Hg. pose proof (account_of_same a St) as Eacc. destruct St as [[[N1 N2] _] (W1 & _) [[P1 P2] _] _]. unfold user_add_account.
  assert (Ew : empty (password a) = false) by (destruct (password a); done). rewrite Ew.
  assert (Ee : empty (name a) = false) by (destruct (name a); done). rewrite Ee. assert (Ep : empty (primary_group a) = false) by (destruct (primary_group a); done). rewrite Ep.
  cbn [orb]. destruct (group_add_room (primary_group a) u P1 Hg) as (u1 & -> & [_ A1 C1 S1] & G1). cbn [negb].
  destruct (user_find_spec (name a) u1) as [[-> _]|(k & b & _ & Hb & Hbn)].
  - change (0 <=? -1) with false. cbv iota. unfold K64_USER_MAX_ACCOUNTS, count. rewrite A1, (proj2 (Z.leb_gt _ _)) by lia. eexists. split; [done|]. rewrite Eacc.
    cbn. done.
  - exfalso. apply Hn. rewrite <- Hbn, <- A1. apply list_elem_of_fmap. exists b. split; [done|]. by eapply list_elem_of_lookup_2.
Qed.

Lemma load_accounts_text l : Forall stored l -> forall u fuel, NoDup (map name (accounts u ++ l)) -> (length (accounts u ++ l) <= 8)%nat ->
  (length (groups u) <= length (accounts u))%nat -> (length (concat (map (fun a => account_text a ++ [10%Z]) l)) <= fuel)%nat ->
  exists u', load_accounts fuel (concat (map (fun a => account_text a ++ [10]) l)) u = Some u' /\
    accounts u' = accounts u ++ l /\ current_index u' = current_index u /\ sudo_active u' = sudo_active u.
Proof.
  induction 1 as [|a l Ha Hl IH]; intros u fuel Hn Hc Hg Hf.
  - exists u. split_and!; [by destruct fuel|by rewrite app_nil_r|done|done].
  - cbn [map concat] in *. destruct fuel as [|fuel]; [rewrite !length_app in Hf; cbn in Hf; lia|].
    assert (Hplain : Forall (fun c => c <> 10) (account_text a)).
    { destruct Ha as [[_ N] (_ & _ & W) [_ P] _]. unfold account_text. assert (Hp : forall s, plain s -> Forall (fun c => c <> 10) s) by (intros s; apply List.Forall_impl; tauto).
      repeat (apply Forall_app; split; [auto|apply Forall_cons; split; [lia|]]); [| |by apply Hp]; apply Hp.
      - by destruct (is_root a); apply plain_const.
      - by destruct (sudoer a); apply plain_const. }
    pose proof (account_text_length a Ha) as Hlen. set (rest := concat _) in *.
    assert (Ene : exists c t, (account_text a ++ [10]) ++ rest = c :: t).
    { destruct Ha as [[[N _] _] _ _ _]. unfold account_text. destruct (name a); [done|]. cbn. by eexists _, _. }
    destruct Ene as (c & t & Ect). rewrite Ect. cbn [load_accounts]. rewrite <- Ect, next_line_plain by (done || lia).
    assert (Ee : empty (account_text a) = false) by (destruct Ha as [[[N _] _] _ _ _]; unfold account_text; by destruct (name a)). rewrite Ee, load_account_text by done.
    rewrite length_app in Hc. cbn [length] in Hc.
    destruct (add_stored a u) as (u1 & -> & A1 & G1 & C1 & S1); [done| |lia|lia|].
    { rewrite map_app in Hn. apply NoDup_app in Hn as (_ & Hd & _). intros Hin. apply (Hd _ Hin). cbn. set_solver. }
    cbn [snd]. destruct (IH u1 fuel) as (u' & E & A' & C' & S'); [by rewrite A1, <- app_assoc|rewrite A1, <- app_assoc; cbn; rewrite length_app; cbn; lia|rewrite A1, length_app; cbn; lia|rewrite !length_app in Hf; cbn in Hf; lia|].
    exists u'. split_and!; [done|by rewrite A', A1, <- app_assoc|congruence|congruence].
Qed.

(** ** A restart *)

(** What the service relies on of the file system, for the two files it keeps:
    the account file is read back whole when writing it succeeded, and neither
    writing the groups file nor making a directory changes it. *)
Class FileLaws {F} (fs : file_system F) := {
  fl_write t f f' : k64_fs_write_file fs K64_USER_DB_PATH t f = (true, f') -> Z.of_nat (length t) < 1024 -> k64_fs_cat fs K64_USER_DB_PATH 1024 f' = Some t;
  fl_write_groups t f : k64_fs_cat fs K64_USER_DB_PATH 1024 (snd (k64_fs_write_file fs K64_GROUP_DB_PATH t f)) = k64_fs_cat fs K64_USER_DB_PATH 1024 f;
  fl_touch_groups f : k64_fs_cat fs K64_USER_DB_PATH 1024 (k64_fs_touch fs K64_GROUP_DB_PATH f) = k64_fs_cat fs K64_USER_DB_PATH 1024 f;
  fl_mkdir p f t : k64_fs_cat fs K64_USER_DB_PATH 1024 f = Some t -> k64_fs_cat fs K64_USER_DB_PATH 1024 (k64_fs_mkdir fs p f) = Some t
}.

Section restart.
Context {F : Type} (fs : file_system F) `{!FileLaws fs}.

Lemma saved_text u f f' : Forall stored (accounts u) -> (length (accounts u) <= 8)%nat -> user_save_state fs (u, f) = (true, (u, f')) ->
  k64_fs_cat fs K64_USER_DB_PATH 1024 f' = Some (users_text u).
Proof.
  intros H Hl. unfold user_save_state, user_save_db. destruct (k64_fs_write_file fs K64_USER_DB_PATH _ _) as [ok f1] eqn:E1. destruct ok; [|done].
  unfold user_save_groups_db. destruct (k64_fs_write_file fs K64_GROUP_DB_PATH _ _) as [ok f2] eqn:E2. intros [= -> <-].
  apply (f_equal snd) in E2. cbn [snd] in E2. rewrite <- E2, fl_write_groups, fl_touch_groups. eapply fl_write; [exact E1|].
  rewrite users_text_is by done. pose proof (accounts_text_length _ H). lia.
Qed.

Lemma ensure_dir_cat p t s : k64_fs_cat fs K64_USER_DB_PATH 1024 (snd s) = Some t -> k64_fs_cat fs K64_USER_DB_PATH 1024 (snd (user_ensure_dir fs p s)) = Some t.
Proof. destruct s as [v f]. cbn [snd]. intros H. unfold user_ensure_dir. destruct (k64_fs_ls _ _ _ _); [done|]. by apply fl_mkdir. Qed.

Lemma load_db_text u s : Forall stored (accounts u) -> NoDup (map name (accounts u)) -> (length (accounts u) <= 8)%nat -> accounts u <> [] ->
  k64_fs_cat fs K64_USER_DB_PATH 1024 (snd s) = Some (users_text u) ->
  exists v, user_load_db fs s = Some (true, (v, snd s)) /\ accounts v = accounts u.
Proof.
  intros H Hn Hl He E. destruct s as [w f]. cbn [snd] in *. unfold user_load_db. rewrite E, users_text_is by done.
  destruct (load_accounts_text (accounts u) H (user_reset_state w) (length (concat (map (fun a => account_text a ++ [10]) (accounts u))))) as (v & El & A & _); [done|done|cbn; lia|done|].
  destruct (concat _) as [|c t] eqn:Et.
  { destruct H as [|a l Ha _]; [done|]. cbn in Et. apply app_eq_nil in Et as [Et _]. by destruct (account_text a). }
  rewrite El. cbn. unfold count. rewrite A. cbn [user_reset_state accounts app]. exists v. split; [|done].
  destruct (accounts u) as [|a l]; [done|]. cbn [length]. by rewrite (proj2 (Z.eqb_neq _ _)) by lia.
Qed.

Lemma load_groups_db_same s : Forall (fun a => primary_group a <> []) (accounts (fst s)) -> exists ok v, user_load_groups_db fs s = Some (ok, v) /\ accounts (fst v) = accounts (fst s).
Proof.
  destruct s as [u f]. cbn [fst]. intros H. unfold user_load_groups_db.
  assert (Hs : forall v, accounts v = accounts u -> accounts (user_sync_role_groups (user_ensure_primary_groups v)) = accounts u).
  { intros v Ev. rewrite sync_accounts, ensure_primaries_accounts; [done|by rewrite Ev]. }
  assert (Hn : exists ok v, Some (user_save_groups_db fs (user_sync_role_groups (user_ensure_primary_groups u), f)) = Some (ok, v) /\ accounts (fst v) = accounts u).
  { pose proof (save_groups_users fs (user_sync_role_groups (user_ensure_primary_groups u), f)) as Eu.
    destruct (user_save_groups_db fs _) as [ok v]. exists ok, v. split; [done|]. cbn [snd] in Eu. rewrite Eu. by apply Hs. }
  destruct (k64_fs_cat _ _ _ _) as [[|c t]|]; [done| |done]. destruct (load_groups_total (length (c :: t)) (c :: t) u) as [u1 E1]; [done|]. rewrite E1.
  eexists true, _. split; [done|]. cbn [fst]. apply Hs. by eapply load_groups_same.
Qed.

Lemma fold_users {A} (g : k64_user_state_t * F -> A -> k64_user_state_t * F) l s : (forall s x, fst (g s x) = fst s) -> fst (fold_left g l s) = fst s.
Proof. intros H. revert s. induction l as [|x l IH]; intros s; [done|]. cbn. by rewrite IH, H. Qed.

Lemma ensure_layout_users s : fst (user_ensure_layout fs s) = fst s.
Proof.
  unfold user_ensure_layout. rewrite fold_users; [|by intros s0 [i a]; rewrite give_home_users, ensure_dir_users].
  assert (Hc : forall p m x y s, fst (chmod_chown fs p m x y s) = fst s) by (by intros p m x y []). rewrite !Hc. cbn [fst].
  apply fold_users. intros s0 x. apply ensure_dir_users.
Qed.

(** C36: a saved account file is read back by a restart. Let the state have
    been saved while every account was [stored]: a name and primary group of 1
    to 15 characters, none of them a colon or a line break, an encoded password
    of at most 31 such characters, and sudo for root. Then on every later file
    system that still has the account file, whatever its groups file and its
    other files hold, and from any state of the kernel, the service starts: it
    ends its loops, has the same accounts with the same passwords, groups and
    roles in the same order, nobody is logged in and no sudo is left. *)
Theorem accounts_survive_restart u f f' f2 v :
  users_ok u -> Forall stored (accounts u) -> accounts u <> [] ->
  user_save_state fs (u, f) = (true, (u, f')) ->
  k64_fs_driver_running fs f2 = true -> k64_fs_cat fs K64_USER_DB_PATH 1024 f2 = k64_fs_cat fs K64_USER_DB_PATH 1024 f' ->
  exists s, k64_user_service_start fs (v, f2) = Some s /\ ready (fst s) = true /\ accounts (fst s) = accounts u /\
    current_index (fst s) = -1 /\ sudo_active (fst s) = false.
Proof.
  intros O H He Hs Hr Hcat. rewrite (saved_text u f f' H (uo_count _ _ O) Hs) in Hcat. unfold k64_user_service_start. cbn [snd fst]. rewrite Hr. cbn [negb].
  set (s1 := user_ensure_dir fs (str "/usr") _). assert (Hcat1 : k64_fs_cat fs K64_USER_DB_PATH 1024 (snd s1) = Some (users_text u)) by (by do 2 apply ensure_dir_cat).
  destruct (load_db_text u s1 H (uo_names _ _ O I) (uo_count _ _ O) He Hcat1) as (w & -> & Aw). cbn [mbind option_bind].
  assert (Hp : Forall (fun a => primary_group a <> []) (accounts (fst (w, snd s1)))).
  { cbn [fst]. rewrite Aw. apply (List.Forall_impl _ (P := stored)); [|done]. intros a Ha. apply (st_primary _ Ha). }
  destruct (load_groups_db_same (w, snd s1) Hp) as (ok & x & -> & Ax). cbn. eexists. split; [done|]. cbn. rewrite ensure_layout_users, Ax. by rewrite <- Aw.
Qed.
End restart.

(** * Users and groups: concrete runs *)
(** Files with their contents, the newest first. *)
Definition mem_files := list (list Z * list Z).
Fixpoint mem_read (p : list Z) (f : mem_files) : option (list Z) :=
  match f with [] => None | (q, t) :: f => if same q p then Some t else mem_read p f end.
Definition mem_fs : file_system mem_files := mk_fs mem_files
  (fun _ => true)
  (fun p size f => match mem_read p f with Some t => Some (take (Z.to_nat (size - 1)) t) | None => None end)
  (fun p _ f => match mem_read p f with Some _ => true | None => false end)
  (fun p f => match mem_read p f with Some _ => f | None => (p, []) :: f end)
  (fun p f => match mem_read p f with Some _ => f | None => (p, []) :: f end)
  (fun p t f => (true, (p, t) :: f))
  (fun _ _ f => f)
  (fun _ _ _ f => f).

Lemma mem_read_new p t f : mem_read p ((p, t) :: f) = Some t.
Proof. cbn. by destruct (same_spec p p). Qed.
Lemma mem_read_other p q t f : p <> q -> mem_read q ((p, t) :: f) = mem_read q f.
Proof. intros H. cbn. by destruct (same_spec p q). Qed.

#[export] Instance mem_fs_laws : FileLaws mem_fs.
Proof.
  split.
  - intros t f f' [= <-] Hs. cbn [k64_fs_cat mem_fs]. rewrite mem_read_new, take_ge by lia. done.
  - intros t f. cbn [k64_fs_write_file k64_fs_cat mem_fs snd]. by rewrite mem_read_other.
  - intros f. cbn [k64_fs_touch k64_fs_cat mem_fs]. destruct (mem_read K64_GROUP_DB_PATH f); [done|]. by rewrite mem_read_other.
  - intros p f t. cbn [k64_fs_mkdir k64_fs_cat mem_fs]. destruct (mem_read p f) eqn:E; [done|]. destruct (decide (p = K64_USER_DB_PATH)) as [->|H]; [by rewrite E|by rewrite mem_read_other].
Qed.

(** The state of a service that was just started. *)
Definition fresh : k64_user_state_t := set_ready true (user_seed_defaults (mk_users false [] [] 0 false)).
Definition userctl (s : list Z) : user_op := Userctl s.

(** Root makes an ordinary user and leaves. *)
Definition setup : list user_op :=
  [userctl (str "login root root"); userctl (str "useradd alice secret"); userctl (str "groupadd staff"); userctl (str "gpasswd add staff alice"); userctl (str "logout")].
Definition with_alice : k64_user_state_t := fst (user_run mem_fs setup (fresh, [])).

Lemma fresh_run_ok ops : Forall name_fits ops -> users_ok (fst (user_run mem_fs ops (fresh, []))).
Proof. intros H. apply user_run_ok; [done|]. apply set_ready_ok, seed_ok. Qed.

Lemma with_alice_ok : users_ok with_alice.
Proof. apply fresh_run_ok. repeat constructor. Qed.

Definition root_session : list user_op := [userctl (str "login root root"); CreateAccount (str "bob") (str "pw") true; userctl (str "userdel guest")].

Lemma users_invariant_witness : NoDup (map name (accounts (fst (user_run mem_fs root_session (user_seed_defaults fresh, []))))).
Proof. apply (proj2 (users_invariant mem_fs root_session fresh [])). repeat constructor; vm_compute; lia. Defined.

(** Alice looks around: a wrong password for root, her own password, [sudo],
    commands of root. *)
Definition alice_session : list user_op :=
  [userctl (str "login root guess"); userctl (str "login alice secret"); userctl (str "passwd alice better"); userctl (str "passwd root mine"); userctl (str "sudo on"); BeginSudo;
   userctl (str "useradd eve pw root"); userctl (str "usermod role alice root"); userctl (str "gpasswd add sudo alice"); userctl (str "su alice better"); EndSudo].

Lemma ordinary_session_witness :
  let u' := fst (user_run mem_fs alice_session (with_alice, [])) in
  k64_user_is_root u' = false /\ 1000 <= k64_user_effective_uid u' /\
  groups u' = groups with_alice /\ map shadow (accounts u') = map shadow (accounts with_alice) /\
  forall mode mask, Z.land mode 0x3F = 0 -> 0 < mask -> k64_user_can_access 0 0 mode mask u' = false.
Proof.
  apply (ordinary_session_confined mem_fs alice_session with_alice []).
  - exact with_alice_ok.
  - reflexivity.
  - intros a. replace (current_index with_alice) with (-1) by (vm_compute; reflexivity). discriminate.
  - vm_compute. reflexivity.
Defined.

Lemma passwd_then_login_witness :
  let u := fst (user_run mem_fs [userctl (str "login root root")] (with_alice, [])) in
  let s1 := user_command_userctl mem_fs (command_line (str "passwd") (str "alice") (str "better")) (u, []) in
  let s2 := user_command_userctl mem_fs (command_line (str "login") (str "alice") (str "better")) (snd s1) in
  fst s1 = str "password updated" /\ map name (accounts (fst (snd s1))) = map name (accounts u) /\
  if decide (hash_of (str "alice") (str "better") = hash_of (str "alice") (str "better"))
  then fst (snd s2) = set_current (user_find (str "alice") u) false (fst (snd s1)) /\ snd (snd s2) = snd (snd s1)
  else s2 = (str "authentication failed", snd s1).
Proof.
  apply (passwd_then_login mem_fs (fst (user_run mem_fs [userctl (str "login root root")] (with_alice, []))) [] (str "alice") (str "better") (str "better")).
  - apply word_const; [vm_compute; split; congruence|reflexivity].
  - apply word_const; [vm_compute; split; congruence|reflexivity].
  - apply word_const; [vm_compute; split; congruence|reflexivity].
  - apply (bool_decide_unpack _). vm_compute. exact I.
  - left. vm_compute. reflexivity.
Defined.

(** A field of a line, decided. *)
Definition storedb (a : k64_user_account_t) : bool :=
  let plainb := forallb (fun c => negb (c =? 58) && negb (c =? 10)) in
  let shortb := fun s => negb (empty s) && (length s <=? 15)%nat in
  shortb (name a) && plainb (name a) && user_hash_is_encoded (password a) && (length (password a) <=? 31)%nat && plainb (password a) &&
  shortb (primary_group a) && plainb (primary_group a) && (negb (is_root a) || sudoer a).

Lemma storedb_stored a : storedb a = true -> stored a.
Proof.
  unfold storedb. rewrite !andb_true_iff. intros (((((((H1 & H2) & H3) & H4) & H5) & H6) & H7) & H8). destruct H1 as [E1 L1], H6 as [E2 L2].
  apply Nat.leb_le in L1, L2, H4. split.
  - split; [split; [by intros E; rewrite E in E1|done]|by apply plain_const].
  - split_and!; [done|done|by apply plain_const].
  - split; [split; [by intros E; rewrite E in E2|done]|by apply plain_const].
  - intros E. by rewrite E in H8.
Qed.

(** The groups file was changed after the state was saved. *)
Lemma accounts_survive_witness :
  let f2 := snd (k64_fs_write_file mem_fs K64_GROUP_DB_PATH (str "sudo:nobody,,alice") (snd (snd (user_save_state mem_fs (with_alice, []))))) in
  exists s, k64_user_service_start mem_fs (fresh, f2) = Some s /\ ready (fst s) = true /\ accounts (fst s) = accounts with_alice /\
    current_index (fst s) = -1 /\ sudo_active (fst s) = false.
Proof.
  apply (accounts_survive_restart mem_fs with_alice [] (snd (snd (user_save_state mem_fs (with_alice, []))))).
  - exact with_alice_ok.
  - apply List.Forall_forall. intros a Ha. apply storedb_stored. revert a Ha. apply (proj1 (forallb_forall _ _)). vm_compute. reflexivity.
  - vm_compute. discriminate.
  - vm_compute. reflexivity.
  - reflexivity.
  - vm_compute. reflexivity.
Defined.

(** A name that does not fit is stored cut, hashed in full: its owner cannot log
    in. *)
Lemma long_name_locked_out :
  let s := snd (k64_user_create_account mem_fs (str "averylongaccountname") (str "pw") false (fresh, [])) in
  map name (accounts (fst s)) = [str "root"; str "guest"; str "averylongaccoun"] /\
  fst (user_command_userctl mem_fs (command_line (str "login") (str "averylongaccoun") (str "pw")) s) = str "authentication failed" /\
  fst (user_command_userctl mem_fs (command_line (str "login") (str "averylongaccountname") (str "pw")) s) = str "authentication failed".
Proof. vm_compute. done. Qed.
