(* ===== verification/Proc.v ===== *)
(** * Processes, descriptors and pipes ([k64_usermode.c])

    The table of user processes with their descriptors, the table of pipes, the
    queue of spawned children, and the handlers of the service calls [proc.*] and
    [io.*] that work on them.

    The pointer of a file descriptor always points to the start of the one buffer
    [fs_raw_buffer] of the file system, so a descriptor has its size and offset
    only and the buffer is a field of the state.  A request points into a buffer
    of the kernel that is longer than the request: [rq_in] is all of the buffer
    from the request on, and reading behind it is [None].  What runs in user mode
    is a parameter.  Indices into the process table are results of searches in
    it, or -1.

    What the processor does in user mode and the loader of programs are
    parameters: functions on the state of the kernel, since a program makes
    system calls while it runs. *)
From Stdlib Require Import ZArith Lia.
From stdpp Require Import base list.
From S2P Require Import Prelude KString Users.

Definition K64_OK : Z := 0.
Definition K64_ERR_INVAL : Z := -1.
Definition K64_ERR_NOENT : Z := -2.
Definition K64_ERR_ACCESS : Z := -3.
Definition K64_ERR_NOMEM : Z := -4.
Definition K64_ERR_FAULT : Z := -5.
Definition K64_ERR_AGAIN : Z := -6.
Definition K64_ERR_NOTCHILD : Z := -7.
Definition K64_ERR_OVERFLOW : Z := -9.
Definition K64_ERR_FULL : Z := -10.
Definition K64_ERR_BADFD : Z := -11.
Definition K64_ERR_PIPE : Z := -12.
Definition K64_ERR_BUSY : Z := -13.

Definition K64_USER_PROCESS_MAX : nat := 64.
Definition K64_USER_PROCESS_PATH_MAX : Z := 96.
Definition K64_USER_SPAWN_MAX : nat := 8.
Definition K64_USER_SPAWN_ARGS_MAX : Z := 256.
Definition K64_USER_FD_MAX : nat := 16.
Definition K64_USER_PIPE_MAX : nat := 16.
Definition K64_USER_PIPE_BUFFER_SIZE : Z := 4096.
Definition K64_WAIT_BLOCK : Z := 0.
Definition K64_WAIT_NOHANG : Z := 1.
Definition K64_PERSONALITY_NATIVE : Z := 0.
Definition K64_PERSONALITY_LINUX_X86_64 : Z := 1.
Definition K64_LINUX_BRK_BASE : Z := 0x4B80000.

(** A 64-bit word as a signed number. *)
Definition int64 (z : Z) : Z := let z := u64 z in if z <? 9223372036854775808 then z else z - 18446744073709551616.

Inductive k64_user_process_state_t := P_EMPTY | P_RUNNING | P_EXITED | P_FAULTED | P_ZOMBIE | P_REAPED.
Inductive k64_user_fd_kind_t := FD_EMPTY | FD_FILE | FD_PIPE_READ | FD_PIPE_WRITE.
#[export] Instance process_state_eq : EqDecision k64_user_process_state_t.
Proof. solve_decision. Defined.
#[export] Instance fd_kind_eq : EqDecision k64_user_fd_kind_t.
Proof. solve_decision. Defined.

Record k64_user_fd_t := mk_fd { fd_used : bool; fd_kind : k64_user_fd_kind_t; fd_size : Z; fd_offset : Z; fd_pipe : Z }.
Definition fd_clear : k64_user_fd_t := mk_fd false FD_EMPTY 0 0 (-1).
Definition no_fds : list k64_user_fd_t := replicate K64_USER_FD_MAX fd_clear.

Record creds := mk_creds { real_uid : Z; effective_uid : Z; real_gid : Z; effective_gid : Z }.

Record k64_user_process_t := mk_process {
  p_used : bool;
  p_pid : Z;
  p_parent : Z;
  p_task : Z;
  p_state : k64_user_process_state_t;
  p_exit : Z;
  p_entry : Z;
  p_cr3 : Z;
  p_start : Z;
  p_end : Z;
  p_fault_vector : Z;
  p_fault_rip : Z;
  p_creds : creds;
  p_personality : Z;
  p_brk : Z;
  p_mmap_next : Z;
  p_fs_base : Z;
  p_path : list Z;
  p_fds : list k64_user_fd_t;
  p_wait : option Z;
  p_wait_target : Z
}.
Definition empty_process : k64_user_process_t :=
  mk_process false 0 0 0 P_EMPTY 0 0 0 0 0 0 0 (mk_creds 0 0 0 0) 0 0 0 0 [] no_fds None 0.

Definition set_fds (l : list k64_user_fd_t) (p : k64_user_process_t) : k64_user_process_t :=
  mk_process (p_used p) (p_pid p) (p_parent p) (p_task p) (p_state p) (p_exit p) (p_entry p) (p_cr3 p) (p_start p) (p_end p) (p_fault_vector p)
    (p_fault_rip p) (p_creds p) (p_personality p) (p_brk p) (p_mmap_next p) (p_fs_base p) (p_path p) l (p_wait p) (p_wait_target p).
Definition set_finished (st : k64_user_process_state_t) (code now : Z) (p : k64_user_process_t) : k64_user_process_t :=
  mk_process (p_used p) (p_pid p) (p_parent p) (p_task p) st code (p_entry p) (p_cr3 p) (p_start p) now (p_fault_vector p)
    (p_fault_rip p) (p_creds p) (p_personality p) (p_brk p) (p_mmap_next p) (p_fs_base p) (p_path p) (p_fds p) (p_wait p) (p_wait_target p).
Definition set_wait (t : option Z) (target : Z) (p : k64_user_process_t) : k64_user_process_t :=
  mk_process (p_used p) (p_pid p) (p_parent p) (p_task p) (p_state p) (p_exit p) (p_entry p) (p_cr3 p) (p_start p) (p_end p) (p_fault_vector p)
    (p_fault_rip p) (p_creds p) (p_personality p) (p_brk p) (p_mmap_next p) (p_fs_base p) (p_path p) (p_fds p) t target.
Definition set_task (t : Z) (p : k64_user_process_t) : k64_user_process_t :=
  mk_process (p_used p) (p_pid p) (p_parent p) t (p_state p) (p_exit p) (p_entry p) (p_cr3 p) (p_start p) (p_end p) (p_fault_vector p)
    (p_fault_rip p) (p_creds p) (p_personality p) (p_brk p) (p_mmap_next p) (p_fs_base p) (p_path p) (p_fds p) (p_wait p) (p_wait_target p).
Definition set_personality (x : Z) (p : k64_user_process_t) : k64_user_process_t :=
  mk_process (p_used p) (p_pid p) (p_parent p) (p_task p) (p_state p) (p_exit p) (p_entry p) (p_cr3 p) (p_start p) (p_end p) (p_fault_vector p)
    (p_fault_rip p) (p_creds p) x (p_brk p) (p_mmap_next p) (p_fs_base p) (p_path p) (p_fds p) (p_wait p) (p_wait_target p).
Definition set_brk (x : Z) (p : k64_user_process_t) : k64_user_process_t :=
  mk_process (p_used p) (p_pid p) (p_parent p) (p_task p) (p_state p) (p_exit p) (p_entry p) (p_cr3 p) (p_start p) (p_end p) (p_fault_vector p)
    (p_fault_rip p) (p_creds p) (p_personality p) x (p_mmap_next p) (p_fs_base p) (p_path p) (p_fds p) (p_wait p) (p_wait_target p).
Definition set_fault (vec rip : Z) (p : k64_user_process_t) : k64_user_process_t :=
  mk_process (p_used p) (p_pid p) (p_parent p) (p_task p) (p_state p) (p_exit p) (p_entry p) (p_cr3 p) (p_start p) (p_end p) vec
    rip (p_creds p) (p_personality p) (p_brk p) (p_mmap_next p) (p_fs_base p) (p_path p) (p_fds p) (p_wait p) (p_wait_target p).
(** [process_reap]: the slot is free, its descriptors are marked unused. *)
Definition set_reaped (p : k64_user_process_t) : k64_user_process_t :=
  mk_process false (p_pid p) (p_parent p) 0 P_REAPED (p_exit p) (p_entry p) (p_cr3 p) (p_start p) (p_end p) (p_fault_vector p)
    (p_fault_rip p) (p_creds p) (p_personality p) (p_brk p) (p_mmap_next p) (p_fs_base p) (p_path p)
    (map (fun d => mk_fd false FD_EMPTY (fd_size d) (fd_offset d) (fd_pipe d)) (p_fds p)) None 0.

Record k64_user_pipe_t := mk_pipe {
  pi_used : bool; pi_data : list Z; pi_read_pos : Z; pi_write_pos : Z; pi_size : Z; pi_read_refs : Z; pi_write_refs : Z
}.
Definition empty_pipe : k64_user_pipe_t := mk_pipe false (zeros 4096) 0 0 0 0 0.

Record k64_user_spawn_ctx_t := mk_spawn { s_used : bool; s_pid : Z; s_parent : Z; s_path : list Z; s_args : list Z }.
Definition empty_spawn : k64_user_spawn_ctx_t := mk_spawn false 0 0 [] [].

(** [active_ctx]; [c_space] is the address space, by its root. *)
Record k64_user_exec_context_t := mk_ctx {
  c_result : Z; c_active : bool; c_unlocked : bool; c_index : Z; c_space : option Z; c_fds : list k64_user_fd_t
}.
Definition ctx_clear : k64_user_exec_context_t := mk_ctx K64_ERR_INVAL false false (-1) None no_fds.

Record um := mk_um {
  process_table : list k64_user_process_t;
  pipe_table : list k64_user_pipe_t;
  spawn_ctx : list k64_user_spawn_ctx_t;
  next_user_pid : Z;
  next_process_personality : Z;
  active_ctx : k64_user_exec_context_t;
  fs_raw_buffer : list Z;
  (** what was written to the terminal, and the tasks that were woken *)
  term : list Z;
  woken : list Z
}.
Definition set_procs (l : list k64_user_process_t) (s : um) : um :=
  mk_um l (pipe_table s) (spawn_ctx s) (next_user_pid s) (next_process_personality s) (active_ctx s) (fs_raw_buffer s) (term s) (woken s).
Definition set_pipes (l : list k64_user_pipe_t) (s : um) : um :=
  mk_um (process_table s) l (spawn_ctx s) (next_user_pid s) (next_process_personality s) (active_ctx s) (fs_raw_buffer s) (term s) (woken s).
Definition set_spawns (l : list k64_user_spawn_ctx_t) (s : um) : um :=
  mk_um (process_table s) (pipe_table s) l (next_user_pid s) (next_process_personality s) (active_ctx s) (fs_raw_buffer s) (term s) (woken s).
Definition set_next_pid (n : Z) (s : um) : um :=
  mk_um (process_table s) (pipe_table s) (spawn_ctx s) n (next_process_personality s) (active_ctx s) (fs_raw_buffer s) (term s) (woken s).
Definition set_next_personality (n : Z) (s : um) : um :=
  mk_um (process_table s) (pipe_table s) (spawn_ctx s) (next_user_pid s) n (active_ctx s) (fs_raw_buffer s) (term s) (woken s).
Definition set_ctx (c : k64_user_exec_context_t) (s : um) : um :=
  mk_um (process_table s) (pipe_table s) (spawn_ctx s) (next_user_pid s) (next_process_personality s) c (fs_raw_buffer s) (term s) (woken s).
Definition set_raw (b : list Z) (s : um) : um :=
  mk_um (process_table s) (pipe_table s) (spawn_ctx s) (next_user_pid s) (next_process_personality s) (active_ctx s) b (term s) (woken s).
Definition add_term (t : list Z) (s : um) : um :=
  mk_um (process_table s) (pipe_table s) (spawn_ctx s) (next_user_pid s) (next_process_personality s) (active_ctx s) (fs_raw_buffer s) (term s ++ t) (woken s).
Definition add_woken (t : list Z) (s : um) : um :=
  mk_um (process_table s) (pipe_table s) (spawn_ctx s) (next_user_pid s) (next_process_personality s) (active_ctx s) (fs_raw_buffer s) (term s) (woken s ++ t).

Definition um_init : um :=
  mk_um (replicate K64_USER_PROCESS_MAX empty_process) (replicate K64_USER_PIPE_MAX empty_pipe) (replicate K64_USER_SPAWN_MAX empty_spawn)
    5000 K64_PERSONALITY_NATIVE ctx_clear [] [] [].

Definition proc (s : um) (i : Z) : k64_user_process_t := nth (Z.to_nat i) (process_table s) empty_process.
Definition pipe (s : um) (i : Z) : k64_user_pipe_t := nth (Z.to_nat i) (pipe_table s) empty_pipe.
Definition upd_proc (i : Z) (f : k64_user_process_t -> k64_user_process_t) (s : um) : um := set_procs (alter f (Z.to_nat i) (process_table s)) s.
Definition upd_pipe (i : Z) (f : k64_user_pipe_t -> k64_user_pipe_t) (s : um) : um := set_pipes (alter f (Z.to_nat i) (pipe_table s)) s.

(** What the calls ask of the rest of the kernel. *)
Record file_stat := mk_stat { st_uid : Z; st_gid : Z; st_mode : Z }.
Record world := mk_world {
  (** [k64_pit_get_ticks], the identifier of [k64_sched_current_task] *)
  w_ticks : Z;
  w_task : option Z;
  (** the users *)
  w_users : k64_user_state_t;
  (** [k64_fs_stat] and [k64_fs_read_file_raw]: the size, and the buffer afterwards *)
  w_stat : list Z -> option file_stat;
  w_read_raw : list Z -> list Z -> option Z * list Z;
  (** the characters a read of standard input returns *)
  w_stdin : Z -> list Z
}.

(** ** Requests *)
Record k64_service_call_request_t := mk_request {
  rq_caller : Z;
  rq_flags : Z;
  rq_in : option (list Z);
  rq_in_len : Z;
  rq_out : bool;
  rq_out_len : Z
}.
(** The result, the bytes stored at the start of the response buffer and
    [actual_out_len]. *)
Record reply := mk_reply { rp_rc : Z; rp_bytes : list Z; rp_actual : Z }.
Definition error (rc : Z) : reply := mk_reply rc [] 0.
Definition answer (rc : Z) (bytes : list Z) : reply := mk_reply rc bytes (Z.of_nat (length bytes)).
Definition answer_int64 (v : Z) : reply := answer K64_OK (le_bytes 8 (u64 v)).
(** The word at an offset of the request. *)
Definition word_at (off : nat) (b : list Z) : option Z := if (off + 8 <=? length b)%nat then Some (le_value (take 8 (drop off b))) else None.

(** [!req->in || req->in_len < size] *)
Definition in_short (size : Z) (r : k64_service_call_request_t) : bool := match rq_in r with None => true | Some _ => rq_in_len r <? size end.
(** [!req->out || req->out_len < size] *)
Definition out_short (size : Z) (r : k64_service_call_request_t) : bool := negb (rq_out r) || (rq_out_len r <? size).
Definition in_bytes (r : k64_service_call_request_t) : list Z := default [] (rq_in r).

Definition handler := k64_service_call_request_t -> um -> option (reply * um).

(** ** Processes *)
Definition process_copy_path (src : list Z) : list Z := take (Z.to_nat (K64_USER_PROCESS_PATH_MAX - 1)) (if empty src then str "<user-elf>" else src).

(** The value and the state afterwards. *)
Definition k64_usermode_next_pid (s : um) : Z * um := (next_user_pid s, set_next_pid (u64 (next_user_pid s + 1)) s).

Definition is_pid (pid : Z) (p : k64_user_process_t) : bool := p_used p && (p_pid p =? pid).
Definition find_pid (pid : Z) (s : um) : Z := find_index (is_pid pid) (process_table s) 0.
Definition process_find_pid (pid : Z) (s : um) : Z :=
  if (pid =? 0) && (0 <=? c_index (active_ctx s)) then c_index (active_ctx s) else find_pid pid s.

Section calls.
Context (w : world).

Definition current_session_creds : creds :=
  let u := w_users w in
  mk_creds (k64_user_real_uid u) (k64_user_effective_uid u) (k64_user_effective_gid u) (k64_user_effective_gid u).
Definition inherit_process_creds (parent_pid : Z) (s : um) : creds :=
  if parent_pid =? 0 then current_session_creds
  else
    let i := find_pid parent_pid s in
    if i <? 0 then current_session_creds else p_creds (proc s i).

(** The slot of the process that is replaced, or a free one, or -1. *)
Definition free_slot (pid : Z) (s : um) : Z :=
  let i := if pid =? 0 then -1 else find_pid pid s in
  if 0 <=? i then i else find_index (fun p => negb (p_used p)) (process_table s) 0.

Definition fresh_process (path : list Z) (entry cr3 parent_pid pid : Z) (c : creds) (personality : Z) (old : k64_user_process_t) : k64_user_process_t :=
  mk_process true pid parent_pid
    (match w_task w with Some t => if p_task old =? 0 then t else p_task old | None => p_task old end)
    P_RUNNING K64_ERR_INVAL entry cr3 (w_ticks w) 0 0 0 c personality 0x70000000 0x60000000 0 (process_copy_path path) no_fds None 0.

Definition process_alloc (path : list Z) (entry cr3 parent_pid pid : Z) (s : um) : Z * um :=
  let slot := free_slot pid s in
  if slot <? 0 then (-1, s) else
  let old := proc s slot in
  let replacing := p_used old in
  let c := if replacing then p_creds old else inherit_process_creds parent_pid s in
  let '(pid, s) := if pid =? 0 then k64_usermode_next_pid s else (pid, s) in
  let s := if next_user_pid s <=? pid then set_next_pid (u64 (pid + 1)) s else s in
  let personality := if replacing then p_personality old else next_process_personality s in
  let s := set_next_personality K64_PERSONALITY_NATIVE s in
  (slot, upd_proc slot (fresh_process path entry cr3 parent_pid pid c personality) s).

Definition process_reserve (path : list Z) (parent_pid pid task_id : Z) (s : um) : Z * um :=
  let '(i, s) := process_alloc path 0 0 parent_pid pid s in
  if i <? 0 then (i, s) else (i, upd_proc i (set_task task_id) s).

Definition process_state_name (st : k64_user_process_state_t) : list Z :=
  match st with
  | P_RUNNING => str "RUNNING" | P_EXITED => str "EXITED" | P_FAULTED => str "FAULTED" | P_ZOMBIE => str "ZOMBIE" | P_REAPED => str "REAPED" | P_EMPTY => str "EMPTY"
  end.

Definition live_index (i : Z) (s : um) : bool := (0 <=? i) && (i <? 64) && p_used (proc s i).

(** A process that waits for the one that has finished. *)
Definition waits_for (pid : Z) (p : k64_user_process_t) : bool := p_used p && match p_wait p with Some _ => p_wait_target p =? pid | None => false end.
Definition process_finish (i : Z) (st : k64_user_process_state_t) (exit_code : Z) (s : um) : um :=
  if negb (live_index i s) then s else
  let s := upd_proc i (set_finished st exit_code (w_ticks w)) s in
  let pid := p_pid (proc s i) in
  let waiting := List.filter (waits_for pid) (process_table s) in
  add_woken (omap p_wait waiting) (set_procs (map (fun p => if waits_for pid p then set_wait None 0 p else p) (process_table s)) s).

Definition process_reap (i : Z) (s : um) : um := if negb (live_index i s) then s else upd_proc i set_reaped s.

Definition current_live (s : um) : bool := live_index (c_index (active_ctx s)) s.
Definition current_process_pid (s : um) : Z := if current_live s then p_pid (proc s (c_index (active_ctx s))) else 0.
Definition current_process_image_path (s : um) : list Z := if current_live s then p_path (proc s (c_index (active_ctx s))) else [].
Definition k64_usermode_current_real_uid (s : um) : Z :=
  if current_live s then real_uid (p_creds (proc s (c_index (active_ctx s)))) else k64_user_real_uid (w_users w).
Definition k64_usermode_current_effective_uid (s : um) : Z :=
  if current_live s then effective_uid (p_creds (proc s (c_index (active_ctx s)))) else k64_user_effective_uid (w_users w).
Definition k64_usermode_current_effective_gid (s : um) : Z :=
  if current_live s then effective_gid (p_creds (proc s (c_index (active_ctx s)))) else k64_user_effective_gid (w_users w).
Definition k64_usermode_set_process_personality (pid personality : Z) (s : um) : bool * um :=
  let i := process_find_pid pid s in
  if i <? 0 then (false, s) else (true, upd_proc i (set_personality personality) s).
Definition k64_usermode_set_next_personality (personality : Z) (s : um) : um := set_next_personality personality s.
Definition k64_usermode_current_path (out_size : Z) (s : um) : option (list Z) :=
  if out_size =? 0 then None else if current_live s then Some (take (Z.to_nat (out_size - 1)) (p_path (proc s (c_index (active_ctx s))))) else None.

Definition state_number (st : k64_user_process_state_t) : Z :=
  match st with P_EMPTY => 0 | P_RUNNING => 1 | P_EXITED => 2 | P_FAULTED => 3 | P_ZOMBIE => 4 | P_REAPED => 5 end.
(** The bytes of a [k64_proc_info_t]: ten words and the path. *)
Definition info_words (p : k64_user_process_t) : list Z :=
  [p_pid p; p_parent p; p_task p; state_number (p_state p); u64 (p_exit p); p_start p; p_end p;
   u64 ((if p_end p =? 0 then w_ticks w else p_end p) - p_start p); p_fault_vector p; p_fault_rip p].
Definition process_fill_info (i : Z) (s : um) : list Z :=
  if negb (live_index i s) then zeros 176 else
  let p := proc s i in
  let path := process_copy_path (p_path p) in
  concat (map (le_bytes 8) (info_words p)) ++ path ++ zeros (96 - length path).

(** [k64_user_can_access_uid] for the current process. *)
Definition process_can_access (st : file_stat) (mask : Z) (s : um) : bool :=
  k64_user_can_access_uid (k64_usermode_current_effective_uid s) (k64_usermode_current_effective_gid s) (st_uid st) (st_gid st) (st_mode st) mask.

Definition proc_info_service_call : handler := fun r s =>
  if in_short 8 r || out_short 176 r then Some (error K64_ERR_INVAL, s) else
  pid ← word_at 0 (in_bytes r);
  let i := process_find_pid pid s in
  Some (if i <? 0 then (error K64_ERR_NOENT, s)
        else if negb (rq_caller r =? 0) && negb (p_pid (proc s i) =? rq_caller r) && negb (p_parent (proc s i) =? rq_caller r) then (error K64_ERR_ACCESS, s)
        else (answer K64_OK (process_fill_info i s), s)).

(** ** Descriptors *)
Definition current_fds (s : um) : list k64_user_fd_t :=
  if current_live s then p_fds (proc s (c_index (active_ctx s))) else c_fds (active_ctx s).
Definition set_current_fds (l : list k64_user_fd_t) (s : um) : um :=
  if current_live s then upd_proc (c_index (active_ctx s)) (set_fds l) s
  else let c := active_ctx s in set_ctx (mk_ctx (c_result c) (c_active c) (c_unlocked c) (c_index c) (c_space c) l) s.

(** The first free descriptor is taken; its number or -1. *)
Definition alloc_fd (d : k64_user_fd_t) (s : um) : Z * um :=
  let fds := current_fds s in
  let i := find_index (fun d => negb (fd_used d)) fds 0 in
  if i <? 0 then (-1, s) else (i + 3, set_current_fds (<[Z.to_nat i := d]> fds) s).
Definition alloc_fd_file (size : Z) (s : um) : Z * um := alloc_fd (mk_fd true FD_FILE size 0 (-1)) s.
Definition alloc_fd_pipe (pipe_index : Z) (kind : k64_user_fd_kind_t) (s : um) : Z * um := alloc_fd (mk_fd true kind 0 0 pipe_index) s.

(** The index of a descriptor that is in use, and the descriptor. *)
Definition get_fd (fd : Z) (s : um) : option (nat * k64_user_fd_t) :=
  if fd <? 3 then None else if 16 <=? fd - 3 then None else
  match current_fds s !! Z.to_nat (fd - 3) with
  | Some d => if fd_used d then Some (Z.to_nat (fd - 3), d) else None
  | None => None
  end.

(** ** Pipes *)
Definition pipe_alloc (s : um) : Z * um :=
  let i := find_index (fun p => negb (pi_used p)) (pipe_table s) 0 in
  if i <? 0 then (-1, s) else (i, upd_pipe i (fun p => mk_pipe true (pi_data p) 0 0 0 1 1) s).

Definition pipe_ok_index (i : Z) (s : um) : bool := (0 <=? i) && (i <? 16) && pi_used (pipe s i).
Definition drop_ref (kind : k64_user_fd_kind_t) (p : k64_user_pipe_t) : k64_user_pipe_t :=
  let '(r, n) :=
    if bool_decide (kind = FD_PIPE_READ) && (0 <? pi_read_refs p) then (pi_read_refs p - 1, pi_write_refs p)
    else if bool_decide (kind = FD_PIPE_WRITE) && (0 <? pi_write_refs p) then (pi_read_refs p, pi_write_refs p - 1)
    else (pi_read_refs p, pi_write_refs p) in
  if (r =? 0) && (n =? 0) then mk_pipe false (pi_data p) 0 0 0 r n
  else mk_pipe (pi_used p) (pi_data p) (pi_read_pos p) (pi_write_pos p) (pi_size p) r n.
Definition pipe_drop_ref (i : Z) (kind : k64_user_fd_kind_t) (s : um) : um := if pipe_ok_index i s then upd_pipe i (drop_ref kind) s else s.

(** The two copy loops. *)
Fixpoint pipe_put (bytes : list Z) (p : k64_user_pipe_t) : k64_user_pipe_t :=
  match bytes with
  | [] => p
  | b :: bytes =>
      pipe_put bytes (mk_pipe (pi_used p) (<[Z.to_nat (pi_write_pos p) := b]> (pi_data p)) (pi_read_pos p)
        ((pi_write_pos p + 1) mod K64_USER_PIPE_BUFFER_SIZE) (pi_size p) (pi_read_refs p) (pi_write_refs p))
  end.
Fixpoint pipe_get (n : nat) (p : k64_user_pipe_t) : list Z * k64_user_pipe_t :=
  match n with
  | O => ([], p)
  | S n =>
      let b := nth (Z.to_nat (pi_read_pos p)) (pi_data p) 0 in
      let '(l, p) := pipe_get n (mk_pipe (pi_used p) (pi_data p) ((pi_read_pos p + 1) mod K64_USER_PIPE_BUFFER_SIZE) (pi_write_pos p) (pi_size p)
                                   (pi_read_refs p) (pi_write_refs p)) in
      (b :: l, p)
  end.
Definition add_size (n : Z) (p : k64_user_pipe_t) : k64_user_pipe_t :=
  mk_pipe (pi_used p) (pi_data p) (pi_read_pos p) (pi_write_pos p) (pi_size p + n) (pi_read_refs p) (pi_write_refs p).

(** [write_text]: the text up to its length or its end; [None] when it runs out of
    the buffer. *)
Fixpoint write_text (n : nat) (text : list Z) : option (list Z) :=
  match n with
  | O => Some []
  | S n =>
      match text with
      | [] => None
      | c :: text => if c =? 0 then Some [] else t ← write_text n text; Some (c :: t)
      end
  end.

(** The number of bytes, or the error, and the state. *)
Definition write_pipe (i : Z) (len : Z) (bytes : list Z) (s : um) : option (Z * um) :=
  if negb (pipe_ok_index i s) then Some (K64_ERR_PIPE, s) else
  let p := pipe s i in
  if pi_read_refs p =? 0 then Some (K64_ERR_PIPE, s)
  else if pi_size p =? K64_USER_PIPE_BUFFER_SIZE then Some (K64_ERR_AGAIN, s)
  else
    let count := Z.min len (K64_USER_PIPE_BUFFER_SIZE - pi_size p) in
    if Z.of_nat (length bytes) <? count then None
    else Some (count, upd_pipe i (fun p => add_size count (pipe_put (take (Z.to_nat count) bytes) p)) s).

Definition io_write_service_call : handler := fun r s =>
  if in_short 16 r || out_short 8 r then Some (error K64_ERR_INVAL, s) else
  fd ← word_at 0 (in_bytes r);
  len ← word_at 8 (in_bytes r);
  if rq_in_len r <? u64 (16 + len) then Some (error K64_ERR_INVAL, s) else
  let bytes := drop 16 (in_bytes r) in
  let fd := int64 fd in
  if (fd =? 1) || (fd =? 2) then
    t ← write_text (Z.to_nat (Z.min len (Z.of_nat (length bytes) + 1))) bytes;
    Some (answer_int64 len, add_term t s)
  else
    match get_fd (u64 fd) s with
    | None => Some (answer_int64 K64_ERR_BADFD, s)
    | Some (_, d) =>
        if bool_decide (fd_kind d = FD_PIPE_WRITE) then
          '(result, s) ← write_pipe (fd_pipe d) len bytes s;
          Some (answer_int64 result, s)
        else Some (answer_int64 K64_ERR_BADFD, s)
    end.

(** A path in a request: the bytes up to the first zero, which must be there. *)
Fixpoint c_string (b : list Z) : option (list Z) :=
  match b with [] => None | c :: b => if c =? 0 then Some [] else t ← c_string b; Some (c :: t) end.
Definition bad_path (r : k64_service_call_request_t) : bool :=
  (nth 0 (in_bytes r) 0 =? 0) || negb (nth (Z.to_nat (rq_in_len r - 1)) (in_bytes r) 0 =? 0).

Definition io_open_service_call : handler := fun r s =>
  if in_short 1 r || (256 <? rq_in_len r) || out_short 8 r then Some (error K64_ERR_INVAL, s)
  else if bad_path r then Some (error K64_ERR_INVAL, s) else
  path ← c_string (in_bytes r);
  Some (match w_stat w path with
        | None => (answer_int64 K64_ERR_NOENT, s)
        | Some st =>
            if negb (process_can_access st K64_ACCESS_READ s) then (answer_int64 K64_ERR_ACCESS, s) else
            let '(size, raw) := w_read_raw w path (fs_raw_buffer s) in
            let s := set_raw raw s in
            match size with
            | None => (answer_int64 K64_ERR_NOENT, s)
            | Some size => let '(fd, s) := alloc_fd_file size s in (answer_int64 (if 0 <=? fd then fd else K64_ERR_FULL), s)
            end
        end).

Definition set_offset (n : Z) (d : k64_user_fd_t) : k64_user_fd_t := mk_fd (fd_used d) (fd_kind d) (fd_size d) n (fd_pipe d).
Definition read_pipe (i len : Z) (s : um) : reply * um :=
  if negb (pipe_ok_index i s) then (error K64_ERR_PIPE, s) else
  let p := pipe s i in
  if pi_size p =? 0 then (error (if pi_write_refs p =? 0 then 0 else K64_ERR_AGAIN), s) else
  let count := Z.min len (pi_size p) in
  let '(bytes, _) := pipe_get (Z.to_nat count) p in
  (mk_reply count bytes count, upd_pipe i (fun p => add_size (- count) (snd (pipe_get (Z.to_nat count) p))) s).

Definition io_read_service_call : handler := fun r s =>
  if in_short 16 r || out_short 1 r then Some (error K64_ERR_INVAL, s) else
  fd ← word_at 0 (in_bytes r);
  len ← word_at 8 (in_bytes r);
  if rq_out_len r <? len then Some (error K64_ERR_INVAL, s) else
  let fd := int64 fd in
  if fd =? 0 then
    let bytes := w_stdin w len in
    Some (answer (Z.of_nat (length bytes)) bytes, s)
  else
    match get_fd (u64 fd) s with
    | None => Some (error K64_ERR_BADFD, s)
    | Some (i, d) =>
        match fd_kind d with
        | FD_PIPE_READ => Some (read_pipe (fd_pipe d) len s)
        | FD_FILE =>
            let count := Z.min len (fd_size d - fd_offset d) in
            bytes ← take_bytes (fs_raw_buffer s) (fd_offset d) count;
            Some (mk_reply count bytes count, set_current_fds (<[i := set_offset (fd_offset d + count) d]> (current_fds s)) s)
        | _ => Some (error K64_ERR_BADFD, s)
        end
    end.

Definition io_close_service_call : handler := fun r s =>
  if in_short 8 r then Some (error K64_ERR_INVAL, s) else
  fd ← word_at 0 (in_bytes r);
  let fd := int64 fd in
  if fd <? 3 then Some (error K64_ERR_BADFD, s) else
  Some (match get_fd fd s with
        | None => (error K64_ERR_BADFD, s)
        | Some (i, d) =>
            let s := if bool_decide (fd_kind d = FD_PIPE_READ) || bool_decide (fd_kind d = FD_PIPE_WRITE) then pipe_drop_ref (fd_pipe d) (fd_kind d) s else s in
            (error K64_OK, set_current_fds (<[i := fd_clear]> (current_fds s)) s)
        end).

Definition io_pipe_service_call : handler := fun r s =>
  if out_short 8 r then Some (error K64_ERR_INVAL, s) else
  let '(i, s) := pipe_alloc s in
  if i <? 0 then Some (error K64_ERR_FULL, s) else
  let '(read_fd, s) := alloc_fd_pipe i FD_PIPE_READ s in
  let '(write_fd, s) := alloc_fd_pipe i FD_PIPE_WRITE s in
  if (read_fd <? 0) || (write_fd <? 0) then
    Some (error K64_ERR_FULL, upd_pipe i (fun p => mk_pipe false (pi_data p) (pi_read_pos p) (pi_write_pos p) (pi_size p) (pi_read_refs p) (pi_write_refs p)) s)
  else Some (answer K64_OK (le_bytes 4 read_fd ++ le_bytes 4 write_fd), s).
End calls.

(** * Children, the end of processes and the system call gate ([k64_usermode.c]) *)
Section children.
Context (w : world).
(** [k64_elf_spawn_user_path_args_ex(path, args, parent_pid, pid)] *)
Context (spawn_path : list Z -> list Z -> Z -> Z -> um -> bool * um).

Definition copy_bounded (dst_size : Z) (src : list Z) : list Z := take (Z.to_nat (dst_size - 1)) src.

Definition queue_spawn (path args : list Z) (s : um) : Z * um :=
  let i := find_index (fun c => negb (s_used c)) (spawn_ctx s) 0 in
  if i <? 0 then (K64_ERR_FULL, s) else
  let '(pid, s) := k64_usermode_next_pid s in
  let parent := current_process_pid s in
  let ctx := mk_spawn true pid parent (copy_bounded 256 path) (copy_bounded K64_USER_SPAWN_ARGS_MAX args) in
  let s := set_spawns (<[Z.to_nat i := ctx]> (spawn_ctx s)) s in
  let '(index, s) := process_reserve w path parent pid 0 s in
  if index <? 0 then
    (K64_ERR_FULL, set_spawns (<[Z.to_nat i := mk_spawn false pid parent (s_path ctx) (s_args ctx)]> (spawn_ctx s)) s)
  else (int64 pid, s).

Definition is_spawn (pid : Z) (c : k64_user_spawn_ctx_t) : bool := s_used c && (s_pid c =? pid).
Definition find_spawn_ctx (pid : Z) (s : um) : Z := find_index (is_spawn pid) (spawn_ctx s) 0.
Definition clear_spawn_ctx (pid : Z) (s : um) : um :=
  let i := find_spawn_ctx pid s in
  if i <? 0 then s else set_spawns (<[Z.to_nat i := empty_spawn]> (spawn_ctx s)) s.

Definition unlock_off (c : k64_user_exec_context_t) : k64_user_exec_context_t := mk_ctx (c_result c) (c_active c) false (c_index c) (c_space c) (c_fds c).

(** The child runs with a context of its own; that of the parent is put back. *)
Definition run_reserved_child (pid parent_pid : Z) (s : um) : Z * um :=
  let i := find_spawn_ctx pid s in
  let ctx := nth (Z.to_nat i) (spawn_ctx s) empty_spawn in
  if (i <? 0) || negb (s_parent ctx =? parent_pid) then (K64_ERR_AGAIN, s) else
  let saved_ctx := active_ctx s in
  let '(ok, s) := spawn_path (copy_bounded 256 (s_path ctx)) (copy_bounded K64_USER_SPAWN_ARGS_MAX (s_args ctx)) parent_pid pid s in
  let s := set_ctx (unlock_off saved_ctx) s in
  let index := process_find_pid pid s in
  if index <? 0 then (K64_ERR_NOENT, clear_spawn_ctx pid s) else
  let running := fun s => bool_decide (p_state (proc s index) = P_RUNNING) in
  let s := if negb ok && running s then process_finish w index P_FAULTED K64_ERR_NOENT s else s in
  if running s then (K64_ERR_AGAIN, s) else (K64_OK, clear_spawn_ctx pid s).

Definition run_ready_child_for_parent (parent_pid : Z) (s : um) : bool * um :=
  let i := find_index (fun c => s_used c && ((parent_pid =? 0) || (s_parent c =? parent_pid))) (spawn_ctx s) 0 in
  if i <? 0 then (false, s) else
  let c := nth (Z.to_nat i) (spawn_ctx s) empty_spawn in
  (true, snd (run_reserved_child (s_pid c) (s_parent c) s)).

Definition k64_usermode_poll_background (s : um) : um := if c_active (active_ctx s) then s else snd (run_ready_child_for_parent 0 s).

Definition k64_usermode_execute_nested_path_args (path args : list Z) (s : um) : bool * um :=
  if empty path then (false, s) else
  let saved_ctx := active_ctx s in
  let '(ok, s) := spawn_path path args 0 0 s in
  (ok, set_ctx (unlock_off saved_ctx) s).

(** A path field of 256 bytes in a request. *)
Definition proc_spawn_service_call : handler := fun r s =>
  if in_short 512 r || out_short 8 r then Some (error K64_ERR_INVAL, s) else
  if nth 0 (in_bytes r) 0 =? 0 then Some (error K64_ERR_INVAL, s) else
  path ← c_string (in_bytes r);
  args ← write_text 256 (drop 256 (in_bytes r));
  Some (match w_stat w path with
        | None => (error K64_ERR_NOENT, s)
        | Some st =>
            if negb (process_can_access w st (Z.lor K64_ACCESS_EXEC K64_ACCESS_READ) s) then (error K64_ERR_ACCESS, s) else
            let '(pid, s) := queue_spawn path args s in
            if pid <? 0 then (error pid, s) else (answer_int64 pid, s)
        end).

Definition proc_wait_service_call : handler := fun r s =>
  if in_short 16 r || out_short 8 r then Some (error K64_ERR_INVAL, s) else
  pid ← word_at 0 (in_bytes r);
  flags ← word_at 8 (in_bytes r);
  if negb (flags =? K64_WAIT_BLOCK) && negb (flags =? K64_WAIT_NOHANG) then Some (error K64_ERR_INVAL, s) else
  let index := process_find_pid pid s in
  if index <? 0 then Some (error K64_ERR_NOENT, s)
  else if negb (p_parent (proc s index) =? rq_caller r) then Some (error K64_ERR_NOTCHILD, s) else
  let finish index s := Some (answer_int64 (p_exit (proc s index)), process_reap index s) in
  if bool_decide (p_state (proc s index) = P_RUNNING) then
    if flags =? K64_WAIT_NOHANG then Some (error K64_ERR_AGAIN, s) else
    let '(rc, s) := run_reserved_child (p_pid (proc s index)) (rq_caller r) s in
    if negb (rc =? K64_OK) then Some (error rc, s) else
    let index := process_find_pid pid s in
    if index <? 0 then Some (error K64_ERR_NOENT, s)
    else if bool_decide (p_state (proc s index) = P_RUNNING) then Some (error K64_ERR_AGAIN, s)
    else finish index s
  else finish index s.

Definition end_active (result : Z) (s : um) : um :=
  let c := active_ctx s in set_ctx (mk_ctx result false (c_unlocked c) (c_index c) (c_space c) (c_fds c)) s.
Definition proc_exit_service_call : handler := fun r s =>
  if in_short 8 r then Some (error K64_ERR_INVAL, s) else
  code ← word_at 0 (in_bytes r);
  let s := end_active (int64 code) s in
  Some (error K64_OK, process_finish w (c_index (active_ctx s)) P_ZOMBIE (int64 code) s).
Definition proc_getpid_service_call : handler := fun r s =>
  Some (if out_short 8 r then (error K64_ERR_INVAL, s)
        else if negb (current_live s) then (error K64_ERR_NOENT, s)
        else (answer_int64 (p_pid (proc s (c_index (active_ctx s)))), s)).

(** Yielding and sleeping let a child run.  What other tasks do while this one waits
    is not part of the call; the context is put back afterwards. *)
Definition sched_yield_service_call : handler := fun _ s =>
  let '(_, s) := run_ready_child_for_parent (current_process_pid s) s in
  Some (error K64_OK, set_ctx (unlock_off (active_ctx s)) s).
Definition sched_sleep_service_call : handler := fun r s =>
  if in_short 8 r then Some (error K64_ERR_INVAL, s) else
  _ ← word_at 0 (in_bytes r);
  let '(_, s) := run_ready_child_for_parent (current_process_pid s) s in
  Some (error K64_OK, match w_task w with
                      | Some t => if t =? 0 then s else set_ctx (unlock_off (active_ctx s)) s
                      | None => s
                      end).
End children.

Section execution.
Context (w : world).

Definition usermode_emergency_exit (code : Z) (s : um) : um :=
  let s := end_active code s in process_finish w (c_index (active_ctx s)) P_ZOMBIE code s.

Definition k64_usermode_handle_fault (vec rip : Z) (s : um) : um :=
  let s := end_active K64_ERR_FAULT s in
  let i := c_index (active_ctx s) in
  let s := if live_index i s then upd_proc i (set_fault vec rip) s else s in
  process_finish w i P_FAULTED K64_ERR_FAULT s.

(** [k64_user_enter_asm]: the program runs and makes system calls until it ends;
    [map_heap]: whether the heap of a Linux program could be mapped. *)
Context (enter : um -> Z * um) (map_heap : bool).

Definition service_image (path : list Z) : bool := same path (str "/ex/servicehost.elf") || same path (str "/ex/demosvc.elf").
Definition set_result (r : Z) (s : um) : um :=
  let c := active_ctx s in set_ctx (mk_ctx r (c_active c) (c_unlocked c) (c_index c) (c_space c) (c_fds c)) s.

(** [space] is the root of the address space; 0 when it is not present. *)
Definition k64_usermode_execute_named_ex (space entry user_stack_top : Z) (path : list Z) (parent_pid pid : Z) (s : um) : Z * um :=
  if (space =? 0) || (entry =? 0) || (user_stack_top =? 0) then (K64_ERR_INVAL, s) else
  let '(i, s) := process_alloc w path entry space parent_pid pid s in
  if i <? 0 then (K64_ERR_FULL, add_term (str "User process table is full" ++ [10]) s) else
  let s := set_ctx (mk_ctx K64_ERR_INVAL true false i (Some space) no_fds) s in
  let linux := p_personality (proc s i) =? K64_PERSONALITY_LINUX_X86_64 in
  let s := if linux then upd_proc i (set_brk K64_LINUX_BRK_BASE) s else s in
  if linux && negb map_heap then (K64_ERR_NOMEM, set_ctx ctx_clear (process_finish w i P_FAULTED K64_ERR_NOMEM s)) else
  let '(result, s) := enter s in
  let s := set_result result s in
  let s := if bool_decide (p_state (proc s i) = P_RUNNING) then process_finish w i P_ZOMBIE result s else s in
  let s := if (parent_pid =? 0) && (pid =? 0) && service_image path then process_reap i s else s in
  (result, s).
Definition k64_usermode_execute_named (space entry user_stack_top : Z) (path : list Z) (s : um) : Z * um :=
  k64_usermode_execute_named_ex space entry user_stack_top path 0 0 s.
Definition k64_usermode_is_active (s : um) : bool := c_active (active_ctx s) && negb (c_unlocked (active_ctx s)).
End execution.
