(* ===== verification/ProcInv.v ===== *)
(** * Pipes are queues of bytes

    The ring buffer of a pipe holds a queue, writing appends to it and reading
    takes from its front.

    What every operation on the tables of processes, descriptors and pipes
    keeps. *)
From Stdlib Require Import ZArith Lia.
From stdpp Require Import base list.
From S2P Require Import Prelude KString Users UsersSpec UsersRun UsersSession Proc.

Record pipe_ok (p : k64_user_pipe_t) : Prop := {
  po_data : length (pi_data p) = 4096%nat;
  po_read : 0 <= pi_read_pos p < 4096;
  po_size : 0 <= pi_size p <= 4096;
  po_write : pi_write_pos p = (pi_read_pos p + pi_size p) mod 4096;
  po_refs : 0 <= pi_read_refs p /\ 0 <= pi_write_refs p
}.

(** The byte at a distance from the front. *)
Definition ring_at (p : k64_user_pipe_t) (k : nat) : Z := nth (Z.to_nat ((pi_read_pos p + Z.of_nat k) mod 4096)) (pi_data p) 0.
Definition content (p : k64_user_pipe_t) : list Z := map (ring_at p) (List.seq 0 (Z.to_nat (pi_size p))).

Lemma content_length p : length (content p) = Z.to_nat (pi_size p).
Proof. unfold content. by rewrite length_map, length_seq. Qed.

Lemma mod_ne a b : 0 <= a -> 0 < b < 4096 -> (a + b) mod 4096 <> a mod 4096.
Proof. intros Ha Hb. dmlia. Qed.

(** ** Writing *)
Definition put1 (b : Z) (p : k64_user_pipe_t) : k64_user_pipe_t :=
  mk_pipe (pi_used p) (<[Z.to_nat (pi_write_pos p) := b]> (pi_data p)) (pi_read_pos p)
    ((pi_write_pos p + 1) mod K64_USER_PIPE_BUFFER_SIZE) (pi_size p + 1) (pi_read_refs p) (pi_write_refs p).

Lemma put1_ok b p : pipe_ok p -> pi_size p < 4096 -> pipe_ok (put1 b p) /\ content (put1 b p) = content p ++ [b].
Proof.
  intros [D R S W F] Hs. split.
  - split; cbn; [by rewrite length_insert|done|lia| |done]. rewrite W. unfold K64_USER_PIPE_BUFFER_SIZE. rewrite Zplus_mod_idemp_l. f_equal. lia.
  - unfold content. cbn [put1 pi_size]. replace (Z.to_nat (pi_size p + 1)) with (Datatypes.S (Z.to_nat (pi_size p))) by lia.
    rewrite List.seq_S, map_app. cbn [map]. f_equal.
    + apply map_ext_in. intros k Hk%List.in_seq. unfold ring_at. cbn [put1 pi_read_pos pi_data].
      assert (Hne : Z.to_nat (pi_write_pos p) <> Z.to_nat ((pi_read_pos p + Z.of_nat k) mod 4096)).
      { rewrite W. intros E. apply Z2Nat.inj in E; [|apply Z.mod_pos_bound; lia|apply Z.mod_pos_bound; lia].
        apply (mod_ne (pi_read_pos p + Z.of_nat k) (pi_size p - Z.of_nat k)); [lia|lia|]. rewrite <- E. f_equal. lia. }
      assert (E : forall i j (l : list Z) x, i <> j -> nth j (<[i := x]> l) 0 = nth j l 0); [|by apply E].
      intros i j l x Hij. rewrite !nth_lookup. by rewrite list_lookup_insert_ne.
    + unfold ring_at. cbn [put1 pi_read_pos pi_data Nat.add]. rewrite W, Z2Nat.id by lia. rewrite nth_lookup, list_lookup_insert_eq; [done|].
      pose proof (Z.mod_pos_bound (pi_read_pos p + pi_size p) 4096 ltac:(lia)). lia.
Qed.

Lemma pipe_put_size bytes : forall p, pi_size (pipe_put bytes p) = pi_size p.
Proof. induction bytes as [|b bytes IH]; intros p; [done|]. cbn. by rewrite IH. Qed.

Lemma pipe_put_add bytes : forall n p, add_size n (pipe_put bytes p) = pipe_put bytes (add_size n p).
Proof. induction bytes as [|b bytes IH]; intros n p; [done|]. cbn. by rewrite IH. Qed.

Lemma add_size_add m n p : add_size m (add_size n p) = add_size (n + m) p.
Proof. unfold add_size. cbn. f_equal. lia. Qed.

Lemma add_size_0 p : add_size 0 p = p.
Proof. destruct p. unfold add_size. cbn. f_equal. lia. Qed.

Lemma put_spec bytes : forall p, pipe_ok p -> pi_size p + Z.of_nat (length bytes) <= 4096 ->
  pipe_ok (add_size (Z.of_nat (length bytes)) (pipe_put bytes p)) /\
  content (add_size (Z.of_nat (length bytes)) (pipe_put bytes p)) = content p ++ bytes.
Proof.
  induction bytes as [|b bytes IH]; intros p O Hs.
  - cbn [pipe_put length]. change (Z.of_nat 0) with 0. rewrite add_size_0, app_nil_r. done.
  - cbn [length] in *. destruct (put1_ok b p O ltac:(lia)) as [O1 C1]. destruct (IH (put1 b p) O1) as [O2 C2]; [cbn; lia|].
    cbn [pipe_put]. assert (E : add_size (Z.of_nat (Datatypes.S (length bytes))) (pipe_put bytes (add_size (-1) (put1 b p))) = add_size (Z.of_nat (length bytes)) (pipe_put bytes (put1 b p))).
    { rewrite <- pipe_put_add, add_size_add. f_equal. lia. }
    assert (E1 : add_size (-1) (put1 b p) = mk_pipe (pi_used p) (<[Z.to_nat (pi_write_pos p) := b]> (pi_data p)) (pi_read_pos p)
      ((pi_write_pos p + 1) mod K64_USER_PIPE_BUFFER_SIZE) (pi_size p) (pi_read_refs p) (pi_write_refs p)) by (unfold add_size; cbn; f_equal; lia).
    rewrite E1 in E. rewrite E, C2, C1, <- app_assoc. done.
Qed.

(** ** Reading *)
Definition get1 (p : k64_user_pipe_t) : k64_user_pipe_t :=
  mk_pipe (pi_used p) (pi_data p) ((pi_read_pos p + 1) mod K64_USER_PIPE_BUFFER_SIZE) (pi_write_pos p) (pi_size p - 1) (pi_read_refs p) (pi_write_refs p).

Lemma get1_ok p : pipe_ok p -> 0 < pi_size p -> pipe_ok (get1 p) /\ content p = nth (Z.to_nat (pi_read_pos p)) (pi_data p) 0 :: content (get1 p).
Proof.
  intros [D R S W F] Hs. split.
  - split; cbn; [done|apply Z.mod_pos_bound; lia|lia| |done]. rewrite W. unfold K64_USER_PIPE_BUFFER_SIZE. rewrite Zplus_mod_idemp_l. f_equal. lia.
  - unfold content. cbn [get1 pi_size]. replace (Z.to_nat (pi_size p)) with (Datatypes.S (Z.to_nat (pi_size p - 1))) by lia. cbn [List.seq map]. f_equal.
    + unfold ring_at. rewrite Z.add_0_r, Z.mod_small by lia. done.
    + rewrite <- List.seq_shift, map_map. apply map_ext. intros k. unfold ring_at. cbn [get1 pi_read_pos pi_data]. unfold K64_USER_PIPE_BUFFER_SIZE.
      rewrite Zplus_mod_idemp_l. do 3 f_equal. lia.
Qed.

Lemma pipe_get_add n : forall m p, pipe_get n (add_size m p) = (fst (pipe_get n p), add_size m (snd (pipe_get n p))).
Proof.
  induction n as [|n IH]; intros m p; [done|]. cbn [pipe_get]. 
  change (mk_pipe (pi_used (add_size m p)) (pi_data (add_size m p)) ((pi_read_pos (add_size m p) + 1) mod K64_USER_PIPE_BUFFER_SIZE) (pi_write_pos (add_size m p))
    (pi_size (add_size m p)) (pi_read_refs (add_size m p)) (pi_write_refs (add_size m p)))
    with (add_size m (mk_pipe (pi_used p) (pi_data p) ((pi_read_pos p + 1) mod K64_USER_PIPE_BUFFER_SIZE) (pi_write_pos p) (pi_size p) (pi_read_refs p) (pi_write_refs p))).
  rewrite IH. destruct (pipe_get n _) as [l q]. done.
Qed.

Lemma get_spec n : forall p, pipe_ok p -> Z.of_nat n <= pi_size p ->
  fst (pipe_get n p) = take n (content p) /\
  pipe_ok (add_size (- Z.of_nat n) (snd (pipe_get n p))) /\ content (add_size (- Z.of_nat n) (snd (pipe_get n p))) = drop n (content p).
Proof.
  induction n as [|n IH]; intros p O Hs.
  - cbn [pipe_get fst snd take drop]. change (- Z.of_nat 0) with 0. by rewrite add_size_0.
  - destruct (get1_ok p O ltac:(lia)) as [O1 C1]. destruct (IH (get1 p) O1) as (H1 & H2 & H3); [cbn; lia|].
    cbn [pipe_get]. assert (E : mk_pipe (pi_used p) (pi_data p) ((pi_read_pos p + 1) mod K64_USER_PIPE_BUFFER_SIZE) (pi_write_pos p) (pi_size p) (pi_read_refs p) (pi_write_refs p)
      = add_size 1 (get1 p)) by (unfold add_size; cbn; f_equal; lia). rewrite E, pipe_get_add.
    destruct (pipe_get n (get1 p)) as [l q] eqn:Eg. cbn [fst snd] in *. rewrite add_size_add.
    replace (1 + - Z.of_nat (Datatypes.S n)) with (- Z.of_nat n) by lia. rewrite C1. cbn [take drop]. by rewrite H1.
Qed.

(** * Processes and pipes: the invariant *)
(** ** The invariant *)

(** A descriptor of a file stays inside the buffer. *)
Definition fd_ok (n : nat) (d : k64_user_fd_t) : Prop := fd_kind d = FD_FILE -> 0 <= fd_offset d <= fd_size d /\ fd_size d <= Z.of_nat n.
Definition fds_ok (n : nat) (l : list k64_user_fd_t) : Prop := length l = 16%nat /\ Forall (fd_ok n) l.

Record um_ok (s : um) : Prop := {
  uk_procs : length (process_table s) = 64%nat;
  uk_pipes : length (pipe_table s) = 16%nat;
  uk_spawns : length (spawn_ctx s) = 8%nat;
  uk_fds : Forall (fun p => fds_ok (length (fs_raw_buffer s)) (p_fds p)) (process_table s);
  uk_cfds : fds_ok (length (fs_raw_buffer s)) (c_fds (active_ctx s));
  uk_unique i j p q : process_table s !! i = Some p -> process_table s !! j = Some q -> p_used p = true -> p_used q = true -> p_pid p = p_pid q -> i = j;
  uk_pid p : p ∈ process_table s -> p_used p = true -> 0 < p_pid p < next_user_pid s;
  uk_next : 0 < next_user_pid s;
  uk_index : -1 <= c_index (active_ctx s) < 64;
  uk_pipe : Forall pipe_ok (pipe_table s);
  uk_spawn c : c ∈ spawn_ctx s -> s_used c = true -> s_pid c < next_user_pid s
}.

(** What is asked of the file system: the buffer keeps its length, and a file that
    was read fits. *)
Definition world_ok (w : world) : Prop :=
  forall path raw, let '(size, raw') := w_read_raw w path raw in
    length raw' = length raw /\ match size with Some n => 0 <= n <= Z.of_nat (length raw) | None => True end.

Lemma proc_lookup s i : um_ok s -> 0 <= i < 64 -> process_table s !! Z.to_nat i = Some (proc s i).
Proof. intros O Hi. unfold proc. rewrite nth_lookup. destruct (process_table s !! Z.to_nat i) eqn:E; [done|]. apply lookup_ge_None in E. rewrite (uk_procs _ O) in E. lia. Qed.
Lemma pipe_lookup s i : um_ok s -> 0 <= i < 16 -> pipe_table s !! Z.to_nat i = Some (pipe s i).
Proof. intros O Hi. unfold pipe. rewrite nth_lookup. destruct (pipe_table s !! Z.to_nat i) eqn:E; [done|]. apply lookup_ge_None in E. rewrite (uk_pipes _ O) in E. lia. Qed.

Lemma pipe_is_ok s i : um_ok s -> 0 <= i < 16 -> pipe_ok (pipe s i).
Proof. intros O Hi. pose proof (uk_pipe _ O) as H. rewrite Forall_forall in H. apply H. eapply list_elem_of_lookup_2. by apply pipe_lookup. Qed.

Lemma live_index_true i s : live_index i s = true -> 0 <= i < 64 /\ p_used (proc s i) = true.
Proof. unfold live_index. rewrite !andb_true_iff, Z.leb_le, Z.ltb_lt. tauto. Qed.

(** ** Updates *)
Lemma Forall_alter' {A} (P : A -> Prop) f k l : Forall P l -> (forall x, P x -> P (f x)) -> Forall P (alter f k l).
Proof. intros H Hf. apply Forall_alter; [done|]. intros x _. apply Hf. Qed.

(** A process that keeps its identity. *)
Lemma upd_proc_ok i f s : um_ok s ->
  (forall p, p_used (f p) = true -> p_used p = true /\ p_pid (f p) = p_pid p) ->
  (forall p, fds_ok (length (fs_raw_buffer s)) (p_fds p) -> fds_ok (length (fs_raw_buffer s)) (p_fds (f p))) -> um_ok (upd_proc i f s).
Proof.
  intros [O1 O2 O3 O4 O5 O6 O7 O8 O9 O10 O11] Hid Hf. split; cbn [upd_proc set_procs process_table pipe_table spawn_ctx fs_raw_buffer active_ctx next_user_pid]; try done.
  - by rewrite length_alter.
  - by apply Forall_alter'.
  - assert (Hb : forall k p, alter f (Z.to_nat i) (process_table s) !! k = Some p -> p_used p = true ->
      exists p0, process_table s !! k = Some p0 /\ p_used p0 = true /\ p_pid p = p_pid p0).
    { intros k p Hk Hu. destruct (decide (k = Z.to_nat i)) as [->|Hne].
      - rewrite list_lookup_alter_eq in Hk. destruct (process_table s !! Z.to_nat i) as [p0|]; [|done]. injection Hk as <-. exists p0. destruct (Hid p0 Hu). done.
      - rewrite list_lookup_alter_ne in Hk by done. by exists p. }
    intros a b p q Ha Hq Hp1 Hq1 E. destruct (Hb a p Ha Hp1) as (p0 & A1 & A2 & A3), (Hb b q Hq Hq1) as (q0 & B1 & B2 & B3).
    apply (O6 a b p0 q0); congruence.
  - intros p Hp Hu. apply alter_elem in Hp as [Hp|(y & Hy & ->)]; [by apply O7|]. destruct (Hid y Hu) as [H1 H2]. rewrite H2. by apply O7.
Qed.

Lemma upd_pipe_ok i f s : um_ok s -> (forall p, pipe_table s !! Z.to_nat i = Some p -> pipe_ok (f p)) -> um_ok (upd_pipe i f s).
Proof.
  intros [O1 O2 O3 O4 O5 O6 O7 O8 O9 O10 O11] Hf. split; cbn [upd_pipe set_pipes process_table pipe_table spawn_ctx fs_raw_buffer active_ctx next_user_pid]; try done.
  - by rewrite length_alter.
  - apply Forall_alter; [done|]. intros x Hx _. by apply Hf.
Qed.

Lemma set_ctx_ok c s : um_ok s -> -1 <= c_index c < 64 -> fds_ok (length (fs_raw_buffer s)) (c_fds c) -> um_ok (set_ctx c s).
Proof. intros [O1 O2 O3 O4 O5 O6 O7 O8 O9 O10 O11] Hi Hf. by split. Qed.

Lemma set_spawn_ok k c s : um_ok s -> (s_used c = true -> s_pid c < next_user_pid s) -> um_ok (set_spawns (<[k := c]> (spawn_ctx s)) s).
Proof.
  intros [O1 O2 O3 O4 O5 O6 O7 O8 O9 O10 O11] Hc. split; cbn; try done; [by rewrite length_insert|].
  intros x [i Hi]%list_elem_of_lookup Hu. apply list_lookup_insert_Some in Hi as [(_ & <- & _)|[_ Hi]]; [by apply Hc|]. apply O11; [by eapply list_elem_of_lookup_2|done].
Qed.

Lemma set_raw_ok b s : um_ok s -> length b = length (fs_raw_buffer s) -> um_ok (set_raw b s).
Proof. intros [O1 O2 O3 O4 O5 O6 O7 O8 O9 O10 O11] Hl. split; cbn; rewrite ?Hl; done. Qed.

Lemma add_term_ok t s : um_ok s -> um_ok (add_term t s).
Proof. intros [O1 O2 O3 O4 O5 O6 O7 O8 O9 O10 O11]. by split. Qed.

Lemma set_current_fds_ok l s : um_ok s -> fds_ok (length (fs_raw_buffer s)) l -> um_ok (set_current_fds l s).
Proof.
  intros O Hl. unfold set_current_fds. destruct (current_live s).
  - apply upd_proc_ok; [done|by intros p|by intros p _].
  - apply set_ctx_ok; [done|apply O|done].
Qed.

Lemma current_fds_ok s : um_ok s -> fds_ok (length (fs_raw_buffer s)) (current_fds s).
Proof.
  intros O. unfold current_fds, current_live. destruct (live_index _ s) eqn:E; [|apply O]. apply live_index_true in E as [Hi _].
  pose proof (uk_fds _ O) as H. rewrite Forall_forall in H. apply H. eapply list_elem_of_lookup_2. by apply proc_lookup.
Qed.

Lemma no_fds_ok n : fds_ok n no_fds.
Proof. split; [done|]. apply Forall_replicate. by intros ?. Qed.

(** ** Operations on processes *)
Lemma finish_ok w i st code s : um_ok s -> um_ok (process_finish w i st code s).
Proof.
  intros O. unfold process_finish. destruct (negb _); [done|].
  assert (O1 : um_ok (upd_proc i (set_finished st code (w_ticks w)) s)) by (apply upd_proc_ok; [done|by intros p|by intros p]).
  set (s1 := upd_proc i _ s) in *. set (pid := p_pid (proc s1 i)). destruct O1 as [A1 A2 A3 A4 A5 A6 A7 A8 A9 A10 A11].
  set (g := fun p => if waits_for pid p then set_wait None 0 p else p).
  assert (G : forall p, p_used (g p) = p_used p /\ p_pid (g p) = p_pid p /\ p_fds (g p) = p_fds p) by (intros p; unfold g; by destruct (waits_for pid p)).
  split; cbn [add_woken set_procs process_table pipe_table spawn_ctx fs_raw_buffer active_ctx next_user_pid]; try done.
  - by rewrite length_map.
  - apply List.Forall_map. revert A4. apply List.Forall_impl. intros p. by destruct (G p) as (_ & _ & ->).
  - intros a b p q Ha Hb. rewrite list_lookup_fmap in Ha, Hb. destruct (process_table s1 !! a) as [p0|] eqn:Ea; [|done]. destruct (process_table s1 !! b) as [q0|] eqn:Eb; [|done].
    injection Ha as <-. injection Hb as <-. destruct (G p0) as (-> & -> & _), (G q0) as (-> & -> & _). by apply A6.
  - intros p (x & -> & Hx)%list_elem_of_fmap. destruct (G x) as (-> & -> & _). by apply A7.
Qed.

Lemma reap_ok i s : um_ok s -> um_ok (process_reap i s).
Proof.
  intros O. unfold process_reap. destruct (negb _); [done|]. apply upd_proc_ok; [done|done|]. intros p [H1 H2]. split; cbn [set_reaped p_fds]; [by rewrite length_map|].
  apply List.Forall_map. revert H2. apply List.Forall_impl. by intros d _ ?.
Qed.

Lemma find_pid_spec pid s : um_ok s ->
  (find_pid pid s = -1 /\ forall p, p ∈ process_table s -> p_used p = true -> p_pid p <> pid) \/
  (0 <= find_pid pid s < 64 /\ p_used (proc s (find_pid pid s)) = true /\ p_pid (proc s (find_pid pid s)) = pid).
Proof.
  intros O. unfold find_pid. destruct (find_index_spec (is_pid pid) (process_table s) 0 ltac:(lia)) as [[-> H]|(k & p & -> & Hk & Hp & _)].
  - left. split; [done|]. intros p Hp Hu E. rewrite Forall_forall in H. specialize (H p Hp). unfold is_pid in H. rewrite Hu, E in H. cbn in H. lia.
  - right. pose proof (lookup_lt_Some _ _ _ Hk) as Hl. rewrite (uk_procs _ O) in Hl. rewrite Z.add_0_l. unfold proc. rewrite Nat2Z.id, nth_lookup, Hk. cbn.
    unfold is_pid in Hp. apply andb_true_iff in Hp as [Hu He%Z.eqb_eq]. split_and!; [lia|lia|done|done].
Qed.

(** A slot for a process: that of the process with this identifier, or a free one. *)
Lemma free_slot_spec pid s : um_ok s ->
  free_slot pid s = -1 \/
  0 <= free_slot pid s < 64 /\
  ((p_used (proc s (free_slot pid s)) = true /\ pid <> 0 /\ p_pid (proc s (free_slot pid s)) = pid) \/
   (p_used (proc s (free_slot pid s)) = false /\ (pid <> 0 -> forall p, p ∈ process_table s -> p_used p = true -> p_pid p <> pid))).
Proof.
  intros O. unfold free_slot. set (i := if pid =? 0 then -1 else find_pid pid s).
  assert (Hi : (i = -1 /\ (pid <> 0 -> forall p, p ∈ process_table s -> p_used p = true -> p_pid p <> pid)) \/
    (pid <> 0 /\ 0 <= i < 64 /\ p_used (proc s i) = true /\ p_pid (proc s i) = pid)).
  { unfold i. destruct (Z.eqb_spec pid 0) as [->|Hne]; [by left|]. destruct (find_pid_spec pid s O) as [[-> H]|H]; [by left|by right]. }
  clearbody i. destruct Hi as [[-> Hn]|(Hne & Hr & Hu & Hp)].
  - change (0 <=? -1) with false. cbv iota. destruct (find_index_spec (fun p => negb (p_used p)) (process_table s) 0 ltac:(lia)) as [[-> _]|(k & p & -> & Hk & Hp & _)]; [by left|].
    right. pose proof (lookup_lt_Some _ _ _ Hk) as Hl. rewrite (uk_procs _ O) in Hl. split; [lia|]. right. split; [|done].
    rewrite Z.add_0_l. unfold proc. rewrite Nat2Z.id, nth_lookup, Hk. cbn. by destruct (p_used p).
  - rewrite (proj2 (Z.leb_le 0 i)) by lia. right. split; [lia|]. left. done.
Qed.

(** A process with an identifier of its own is put into a slot. *)
Lemma put_proc_ok i f n x s : um_ok s -> next_user_pid s <= n ->
  (forall p, fds_ok (length (fs_raw_buffer s)) (p_fds (f p))) ->
  (forall p, 0 < p_pid (f p) < n) ->
  (forall j p q, j <> Z.to_nat i -> process_table s !! j = Some q -> p_used q = true -> p_pid q <> p_pid (f p)) ->
  um_ok (upd_proc i f (set_next_personality x (set_next_pid n s))).
Proof.
  intros [O1 O2 O3 O4 O5 O6 O7 O8 O9 O10 O11] Hn Hf Hp Hu.
  split; cbn [upd_proc set_next_personality set_next_pid set_procs process_table pipe_table spawn_ctx fs_raw_buffer active_ctx next_user_pid]; try done; try lia.
  - by rewrite length_alter.
  - apply Forall_alter; [done|]. intros p _ _. apply Hf.
  - intros a b p q. destruct (decide (a = Z.to_nat i)) as [->|Ha], (decide (b = Z.to_nat i)) as [->|Hb]; [done| | |].
    + rewrite list_lookup_alter_eq, list_lookup_alter_ne by done. destruct (process_table s !! Z.to_nat i) as [p0|]; [|done]. intros [= <-] Hq Hp1 Hq1 E. exfalso. by apply (Hu b p0 q).
    + rewrite list_lookup_alter_ne, list_lookup_alter_eq by done. destruct (process_table s !! Z.to_nat i) as [q0|]; [|done]. intros Hp1 [= <-] Hu1 Hu2 E. exfalso. by apply (Hu a q0 p).
    + rewrite !list_lookup_alter_ne by done. apply O6.
  - intros p Hin Hpu. apply alter_elem in Hin as [Hin|(y & Hy & ->)]; [pose proof (O7 p Hin Hpu); lia|apply Hp].
  - intros c Hc Hcu. specialize (O11 c Hc Hcu). lia.
Qed.

Definition pid_bound : Z := 2 ^ 63.

(** The state of [process_alloc] before the slot is written. *)
Lemma alloc_shape w path entry cr3 parent pid s : um_ok s -> 0 <= pid < pid_bound -> next_user_pid s < pid_bound -> 0 <= free_slot pid s ->
  let slot := free_slot pid s in
  let pid' := if pid =? 0 then next_user_pid s else pid in
  let n := Z.max (next_user_pid s) (pid' + 1) in
  exists c x, process_alloc w path entry cr3 parent pid s =
    (slot, upd_proc slot (fresh_process w path entry cr3 parent pid' c x) (set_next_personality K64_PERSONALITY_NATIVE (set_next_pid n s))) /\
    c = (if p_used (proc s slot) then p_creds (proc s slot) else inherit_process_creds w parent s) /\
    x = (if p_used (proc s slot) then p_personality (proc s slot) else next_process_personality s).
Proof.
  intros O Hpid Hnext Hs slot pid' n. unfold process_alloc. fold slot. rewrite (proj2 (Z.ltb_ge _ _)) by done.
  unfold pid_bound in *. pose proof (uk_next _ O). eexists _, _. split; [|split; reflexivity].
  unfold k64_usermode_next_pid. subst pid' n. destruct (Z.eqb_spec pid 0) as [->|Hne].
  - cbn [set_next_pid next_user_pid next_process_personality]. rewrite u64_small by lia. rewrite (proj2 (Z.leb_gt _ _)) by lia. rewrite Z.max_r by lia. done.
  - destruct (Z.leb_spec (next_user_pid s) pid).
    + rewrite u64_small by lia. rewrite Z.max_r by lia. done.
    + rewrite Z.max_l by lia. by destruct s.
Qed.

Lemma alloc_ok w path entry cr3 parent pid s : um_ok s -> 0 <= pid < pid_bound -> next_user_pid s < pid_bound ->
  um_ok (snd (process_alloc w path entry cr3 parent pid s)).
Proof.
  intros O Hpid Hnext. destruct (Z.leb_spec 0 (free_slot pid s)) as [Hs|Hs].
  - destruct (alloc_shape w path entry cr3 parent pid s O Hpid Hnext Hs) as (c & x & -> & _). cbn [snd]. set (slot := free_slot pid s) in *.
    assert (Hsl : 0 <= slot < 64) by (destruct (free_slot_spec pid s O) as [E|[E _]]; subst slot; lia).
    pose proof (uk_next _ O). apply put_proc_ok; [done|lia|intros p; apply no_fds_ok|intros p; cbn; destruct (Z.eqb_spec pid 0); lia|].
    intros j p q Hj Hq Hu. cbn [fresh_process p_pid]. destruct (Z.eqb_spec pid 0) as [->|Hne].
    + pose proof (uk_pid _ O q ltac:(by eapply list_elem_of_lookup_2) Hu). lia.
    + intros E. destruct (free_slot_spec pid s O) as [E0|[_ [(Hu0 & _ & Hp0)|(_ & Hno)]]]; [subst slot; lia| |].
      * apply Hj. eapply (uk_unique _ O j (Z.to_nat slot) q); [done|by apply proc_lookup|done|done|unfold slot; congruence].
      * by apply (Hno Hne q); [eapply list_elem_of_lookup_2|..].
  - unfold process_alloc. rewrite (proj2 (Z.ltb_lt _ _)) by done. done.
Qed.

Lemma reserve_ok w path parent pid t s : um_ok s -> 0 <= pid < pid_bound -> next_user_pid s < pid_bound -> um_ok (snd (process_reserve w path parent pid t s)).
Proof.
  intros O Hp Hn. unfold process_reserve. pose proof (alloc_ok w path 0 0 parent pid s O Hp Hn) as O1. destruct (process_alloc _ _ _ _ _ _ s) as [i s1]. cbn [snd] in O1.
  destruct (i <? 0); [done|]. apply upd_proc_ok; [done|by intros p|by intros p].
Qed.
