(* ===== verification/PipeRun.v ===== *)
(** * Runs of processes over pipes

    Sequences of service calls of any number of processes, with processes being
    started, switched, finished and removed in between: the invariant holds, and
    what the calls return is what queues of bytes would give. *)
From Stdlib Require Import ZArith Lia.
From stdpp Require Import base list.
From S2P Require Import Prelude KString Users UsersSpec UsersRun UsersSession Proc ProcInv.

(** ** The queues *)
Abbreviation queues := (list (option (list Z))).
Definition abs_pipe (p : k64_user_pipe_t) : option (list Z) := if pi_used p then Some (content p) else None.
Definition abs (s : um) : queues := map abs_pipe (pipe_table s).

Inductive pipe_event :=
| Created (i : nat)
| Wrote (i : nat) (bytes : list Z)
| Took (i : nat) (bytes : list Z)
| Freed (i : nat).

(** A queue is created empty, bytes are appended as long as there are at most 4096,
    and taken from the front. *)
Definition replay1 (e : pipe_event) (a : queues) : option queues :=
  match e with
  | Created i => match a !! i with Some None => Some (<[i := Some []]> a) | _ => None end
  | Wrote i b => match a !! i with Some (Some q) => if (length (q ++ b) <=? 4096)%nat then Some (<[i := Some (q ++ b)]> a) else None | _ => None end
  | Took i b => match a !! i with Some (Some q) => if bool_decide (take (length b) q = b) then Some (<[i := Some (drop (length b) q)]> a) else None | _ => None end
  | Freed i => match a !! i with Some (Some _) => Some (<[i := None]> a) | _ => None end
  end.
Fixpoint replay (l : list pipe_event) (a : queues) : option queues :=
  match l with [] => Some a | e :: l => a ← replay1 e a; replay l a end.

Lemma replay_app l1 l2 a b : replay l1 a = Some b -> replay (l1 ++ l2) a = replay l2 b.
Proof. revert a. induction l1 as [|e l1 IH]; intros a; cbn; [congruence|]. destruct (replay1 e a) as [a1|]; [apply IH|done]. Qed.

Lemma abs_lookup s i : um_ok s -> 0 <= i < 16 -> abs s !! Z.to_nat i = Some (abs_pipe (pipe s i)).
Proof. intros O Hi. unfold abs. rewrite list_lookup_fmap, (pipe_lookup s i) by done. done. Qed.

Lemma abs_upd i f s : um_ok s -> 0 <= i < 16 -> abs (upd_pipe i f s) = <[Z.to_nat i := abs_pipe (f (pipe s i))]> (abs s).
Proof.
  intros O Hi. unfold abs. cbn [upd_pipe set_pipes pipe_table]. pose proof (pipe_lookup s i O Hi) as E. revert E. generalize (Z.to_nat i) (pipe_table s). intros k l. revert k.
  induction l as [|x l IH]; intros [|k] E; try done; cbn in *; [injection E as ->; done|]. f_equal. by apply IH.
Qed.

Lemma insert_same {A} (l : list A) k x : l !! k = Some x -> <[k := x]> l = l.
Proof. apply list_insert_id. Qed.

(** ** Calls *)
Inductive io_call := IoWrite | IoRead | IoOpen | IoClose | IoPipe | ProcInfo | ProcGetpid | ProcExit.
Definition io_handler (w : world) (c : io_call) : handler :=
  match c with
  | IoWrite => io_write_service_call
  | IoRead => io_read_service_call w
  | IoOpen => io_open_service_call w
  | IoClose => io_close_service_call
  | IoPipe => io_pipe_service_call
  | ProcInfo => proc_info_service_call w
  | ProcGetpid => proc_getpid_service_call
  | ProcExit => proc_exit_service_call w
  end.

(** The descriptor a request is about. *)
Definition request_fd (r : k64_service_call_request_t) (s : um) : option k64_user_fd_t :=
  match word_at 0 (in_bytes r) with
  | Some fd => match get_fd fd s with Some (_, d) => Some d | None => None end
  | None => None
  end.
(** What a call did to a pipe, read off its request and its answer. *)
Definition events_of (c : io_call) (r : k64_service_call_request_t) (rep : reply) (s s' : um) : list pipe_event :=
  match c, request_fd r s with
  | IoWrite, Some d =>
      let n := int64 (le_value (rp_bytes rep)) in
      if bool_decide (fd_kind d = FD_PIPE_WRITE) && (rp_rc rep =? K64_OK) && (0 <=? n) then [Wrote (Z.to_nat (fd_pipe d)) (take (Z.to_nat n) (drop 16 (in_bytes r)))] else []
  | IoRead, Some d => if bool_decide (fd_kind d = FD_PIPE_READ) && (0 <? rp_rc rep) then [Took (Z.to_nat (fd_pipe d)) (rp_bytes rep)] else []
  | IoPipe, _ => if rp_rc rep =? K64_OK then [Created (Z.to_nat (find_index (fun p => negb (pi_used p)) (pipe_table s) 0))] else []
  | IoClose, Some d =>
      let i := fd_pipe d in
      if (rp_rc rep =? K64_OK) && pipe_ok_index i s && negb (pi_used (pipe s' i)) && (bool_decide (fd_kind d = FD_PIPE_READ) || bool_decide (fd_kind d = FD_PIPE_WRITE))
      then [Freed (Z.to_nat i)] else []
  | _, _ => []
  end.

Lemma int64_le v : - 2 ^ 63 <= v < 2 ^ 63 -> int64 (le_value (le_bytes 8 (u64 v))) = v.
Proof.
  intros H. rewrite le_value_bytes by (pose proof (u64_range v); cbn; lia). unfold int64. unfold u64. rewrite Z.mod_mod by lia.
  destruct (Z.ltb_spec (v mod 18446744073709551616) 9223372036854775808); dmlia.
Qed.

Lemma pipe_ok_index_true i s : pipe_ok_index i s = true -> 0 <= i < 16 /\ pi_used (pipe s i) = true.
Proof. unfold pipe_ok_index. rewrite !andb_true_iff, Z.leb_le, Z.ltb_lt. tauto. Qed.

Lemma put_used bytes : forall n p, pi_used (add_size n (pipe_put bytes p)) = pi_used p.
Proof. induction bytes as [|b bytes IH]; intros n p; [done|]. cbn [pipe_put]. by rewrite IH. Qed.
Lemma get_used n : forall m p, pi_used (add_size m (snd (pipe_get n p))) = pi_used p.
Proof. induction n as [|n IH]; intros m p; [done|]. cbn [pipe_get]. destruct (pipe_get n _) as [l q] eqn:E. cbn [snd]. change q with (snd (l, q)). rewrite <- E. by rewrite IH. Qed.

Lemma write_pipe_spec i len bytes s res s' : um_ok s -> 0 <= len -> write_pipe i len bytes s = Some (res, s') ->
  (res < 0 /\ - 2 ^ 63 <= res /\ s' = s) \/
  (0 <= i < 16 /\ 0 <= res <= 4096 /\ um_ok s' /\ replay1 (Wrote (Z.to_nat i) (take (Z.to_nat res) bytes)) (abs s) = Some (abs s')).
Proof.
  intros O Hl. unfold write_pipe. destruct (pipe_ok_index i s) eqn:E; cbn [negb]; [|intros [= <- <-]; left; unfold K64_ERR_PIPE; split_and!; [lia|lia|done]].
  apply pipe_ok_index_true in E as [Hi Hu]. destruct (_ =? 0); [intros [= <- <-]; left; unfold K64_ERR_PIPE; split_and!; [lia|lia|done]|].
  destruct (_ =? _) eqn:Es; [intros [= <- <-]; left; unfold K64_ERR_AGAIN; split_and!; [lia|lia|done]|]. apply Z.eqb_neq in Es. unfold K64_USER_PIPE_BUFFER_SIZE in *.
  set (count := Z.min len (4096 - pi_size (pipe s i))). destruct (Z.ltb_spec (Z.of_nat (length bytes)) count); [done|]. intros [= <- <-].
  pose proof (pipe_is_ok s i O Hi) as Op. pose proof (po_size _ Op). assert (Hc : 0 <= count <= 4096 - pi_size (pipe s i)) by lia. clearbody count. right.
  assert (Hlen : length (take (Z.to_nat count) bytes) = Z.to_nat count) by (rewrite length_take; lia).
  pose proof (put_spec (take (Z.to_nat count) bytes) (pipe s i) Op) as P. rewrite Hlen, Z2Nat.id in P by lia. specialize (P ltac:(lia)) as [P1 P2].
  split_and!; [lia|lia|lia|lia| |].
  - apply upd_pipe_ok; [done|]. intros p Hp. rewrite (pipe_lookup s i O Hi) in Hp. by injection Hp as <-.
  - cbn [replay1]. rewrite (abs_lookup s i O Hi). rewrite abs_upd by done. unfold abs_pipe. rewrite put_used, Hu, P2.
    destruct (Nat.leb_spec (length (content (pipe s i) ++ take (Z.to_nat count) bytes)) 4096); [done|]. rewrite length_app, content_length, Hlen in *. lia.
Qed.

Lemma read_pipe_spec i len s rep s' : um_ok s -> 0 <= len -> read_pipe i len s = (rep, s') ->
  (rp_rc rep <= 0 /\ um_ok s' /\ abs s' = abs s) \/
  (0 <= i < 16 /\ 0 < rp_rc rep /\ um_ok s' /\ replay1 (Took (Z.to_nat i) (rp_bytes rep)) (abs s) = Some (abs s')).
Proof.
  intros O Hl. unfold read_pipe. destruct (pipe_ok_index i s) eqn:E; cbn [negb]; [|intros [= <- <-]; left; unfold K64_ERR_PIPE; cbn; split_and!; [lia|done|done]].
  apply pipe_ok_index_true in E as [Hi Hu]. destruct (Z.eqb_spec (pi_size (pipe s i)) 0) as [Es|Es].
  { intros [= <- <-]. left. split; [|done]. cbn. destruct (_ =? 0); unfold K64_ERR_AGAIN; lia. }
  set (count := Z.min len (pi_size (pipe s i))). pose proof (pipe_is_ok s i O Hi) as Op. pose proof (po_size _ Op).
  assert (Hc : 0 <= count <= pi_size (pipe s i)) by lia. clearbody count.
  pose proof (get_spec (Z.to_nat count) (pipe s i) Op) as G. rewrite Z2Nat.id in G by lia. specialize (G ltac:(lia)) as (G1 & G2 & G3).
  destruct (pipe_get (Z.to_nat count) (pipe s i)) as [bytes q] eqn:Eg. cbn [fst snd] in *. intros [= <- <-]. cbn [rp_rc rp_bytes].
  assert (Ou : um_ok (upd_pipe i (fun p => add_size (- count) (snd (pipe_get (Z.to_nat count) p))) s)).
  { apply upd_pipe_ok; [done|]. intros p Hp. rewrite (pipe_lookup s i O Hi) in Hp. injection Hp as <-. by rewrite Eg. }
  assert (Hlen : length bytes = Z.to_nat count) by (rewrite G1, length_take, content_length; lia).
  assert (Eabs : abs (upd_pipe i (fun p => add_size (- count) (snd (pipe_get (Z.to_nat count) p))) s) = <[Z.to_nat i := Some (drop (Z.to_nat count) (content (pipe s i)))]> (abs s)).
  { rewrite abs_upd by done. unfold abs_pipe. rewrite get_used, Hu, Eg. cbn [snd]. by rewrite G3. }
  destruct (Z.eq_dec count 0) as [->|Hne].
  - left. split_and!; [lia|done|]. rewrite Eabs. cbn [Z.to_nat drop]. apply insert_same. rewrite (abs_lookup s i O Hi). unfold abs_pipe. by rewrite Hu.
  - right. split_and!; [lia|lia|lia|done|]. cbn [replay1]. rewrite (abs_lookup s i O Hi). unfold abs_pipe. rewrite Hu, Eabs, Hlen, <- G1. by rewrite bool_decide_eq_true_2.
Qed.

(** ** Words of a request *)
Lemma word_at_range off b v : bytes_ok b -> word_at off b = Some v -> 0 <= v < 2 ^ 64.
Proof.
  intros Hb. unfold word_at. destruct (Nat.leb_spec (off + 8) (length b)) as [Hl|]; [|done]. intros [= <-].
  pose proof (le_value_range (take 8 (drop off b))) as H. rewrite length_take, length_drop, Nat.min_l in H by lia. apply H. apply Forall_take, Forall_drop. exact Hb.
Qed.
(** A request that starts with two words. *)
Lemma request_words a b rest : 0 <= a < 2 ^ 64 -> 0 <= b < 2 ^ 64 -> let r := le_bytes 8 a ++ le_bytes 8 b ++ rest in
  word_at 0 r = Some a /\ word_at 8 r = Some b /\ drop 16 r = rest.
Proof.
  intros Ha Hb r. assert (Hl : length r = (16 + length rest)%nat) by (unfold r; rewrite !length_app, !le_bytes_length; lia). unfold word_at. rewrite Hl.
  rewrite (proj2 (Nat.leb_le (0 + 8) _)), (proj2 (Nat.leb_le (8 + 8) _)) by lia. unfold r. split_and!.
  - rewrite drop_0, take_app_le, take_ge, le_value_bytes by (rewrite ?le_bytes_length; cbn; lia). done.
  - rewrite drop_app_le, drop_ge by (rewrite le_bytes_length; lia). cbn [app]. rewrite take_app_le, take_ge, le_value_bytes by (rewrite ?le_bytes_length; cbn; lia). done.
  - rewrite app_assoc. apply drop_app_length'. by rewrite length_app, !le_bytes_length.
Qed.
Lemma u64_int64 v : 0 <= v < 2 ^ 64 -> u64 (int64 v) = v.
Proof. intros H. unfold int64, u64. rewrite (Z.mod_small v) by lia. destruct (Z.ltb_spec v 9223372036854775808); [apply Z.mod_small; lia|]. dmlia. Qed.
Lemma int64_pos v : 0 <= v < 2 ^ 64 -> 0 <= int64 v -> int64 v = v.
Proof. intros H. unfold int64, u64. rewrite Z.mod_small by lia. destruct (Z.ltb_spec v 9223372036854775808); lia. Qed.

Lemma request_fd_is r s fd : word_at 0 (in_bytes r) = Some fd -> request_fd r s = match get_fd fd s with Some (_, d) => Some d | None => None end.
Proof. intros E. unfold request_fd. by rewrite E. Qed.

Lemma get_fd_lookup fd s i d : get_fd fd s = Some (i, d) -> current_fds s !! i = Some d.
Proof.
  unfold get_fd. destruct (_ <? _); [done|]. destruct (_ <=? _); [done|]. destruct (current_fds s !! Z.to_nat (fd - 3)) eqn:E; [|done]. destruct (fd_used _); [|done].
  by intros [= <- <-].
Qed.

(** What a call that leaves the pipes alone keeps. *)
Definition same_pipes (s s' : um) : Prop := um_ok s' /\ pipe_table s' = pipe_table s.
Lemma same_pipes_refl s : um_ok s -> same_pipes s s.
Proof. by split. Qed.
Lemma same_pipes_replay s s' : same_pipes s s' -> um_ok s' /\ replay [] (abs s) = Some (abs s').
Proof. intros [O E]. split; [done|]. cbn. unfold abs. by rewrite E. Qed.

Lemma set_current_fds_pipes l s : pipe_table (set_current_fds l s) = pipe_table s.
Proof. unfold set_current_fds. by destruct (current_live s). Qed.
Lemma set_current_fds_raw l s : fs_raw_buffer (set_current_fds l s) = fs_raw_buffer s.
Proof. unfold set_current_fds. by destruct (current_live s). Qed.

Lemma insert_fds_ok n i d l : fds_ok n l -> fd_ok n d -> fds_ok n (<[i := d]> l).
Proof. intros [H1 H2] Hd. split; [by rewrite length_insert|]. by apply Forall_insert. Qed.

Lemma alloc_fd_ok d s : um_ok s -> fd_ok (length (fs_raw_buffer s)) d -> same_pipes s (snd (alloc_fd d s)) /\ fs_raw_buffer (snd (alloc_fd d s)) = fs_raw_buffer s.
Proof.
  intros O Hd. unfold alloc_fd. destruct (_ <? 0); [by split; [apply same_pipes_refl|]|]. cbn [snd]. split; [|apply set_current_fds_raw].
  split; [|apply set_current_fds_pipes]. apply set_current_fds_ok; [done|]. apply insert_fds_ok; [by apply current_fds_ok|done].
Qed.

Section steps.
Context (w : world) (Hw : world_ok w).

Abbreviation step_ok c r s rep s' := (um_ok s' /\ replay (events_of c r rep s s') (abs s) = Some (abs s')).

Lemma no_event c r s rep s' : same_pipes s s' -> events_of c r rep s s' = [] -> step_ok c r s rep s'.
Proof. intros H ->. by apply same_pipes_replay. Qed.

Lemma write_step r s rep s' : um_ok s -> bytes_ok (in_bytes r) -> io_write_service_call r s = Some (rep, s') -> step_ok IoWrite r s rep s'.
Proof.
  intros O Hb. unfold io_write_service_call.
  assert (Herr : forall rc, rc <> K64_OK -> events_of IoWrite r (error rc) s s = []).
  { intros rc Hrc. unfold events_of. destruct (request_fd r s); [|done]. cbn [error rp_rc]. rewrite (proj2 (Z.eqb_neq rc K64_OK)) by done. by rewrite andb_false_r. }
  destruct (_ || _); [intros [= <- <-]; apply no_event; [by apply same_pipes_refl|apply Herr; vm_compute; discriminate]|].
  destruct (word_at 0 (in_bytes r)) as [fd|] eqn:Ef; [|done]. destruct (word_at 8 (in_bytes r)) as [len|] eqn:El; [|done]. cbn [mbind option_bind].
  pose proof (word_at_range _ _ _ Hb Ef) as Hfd. pose proof (word_at_range _ _ _ Hb El) as Hlen. destruct (_ <? _); [intros [= <- <-]; apply no_event; [by apply same_pipes_refl|apply Herr; vm_compute; discriminate]|].
  assert (Hneg : forall v, - 2 ^ 63 <= v < 0 -> events_of IoWrite r (answer_int64 v) s s = []).
  { intros v Hv. unfold events_of. destruct (request_fd r s); [|done]. cbn [answer_int64 answer rp_rc rp_bytes]. rewrite int64_le by lia. rewrite (proj2 (Z.leb_gt 0 v)) by lia. by rewrite andb_false_r. }
  destruct ((int64 fd =? 1) || (int64 fd =? 2)) eqn:E12.
  { destruct (write_text _ _) as [t|]; [|done]. intros [= <- <-]. apply no_event; [split; [by apply add_term_ok|done]|].
    unfold events_of. rewrite (request_fd_is _ _ _ Ef). unfold get_fd. assert (Hs : fd <? 3 = true); [|by rewrite Hs].
    apply orb_true_iff in E12 as [E%Z.eqb_eq|E%Z.eqb_eq]; rewrite int64_pos in E by lia; lia. }
  rewrite u64_int64 by done. pose proof (request_fd_is r s fd Ef) as Er. destruct (get_fd fd s) as [[i d]|] eqn:Eg.
  2:{ intros [= <- <-]. apply no_event; [by apply same_pipes_refl|]. apply Hneg. unfold K64_ERR_BADFD. lia. }
  destruct (bool_decide_reflect (fd_kind d = FD_PIPE_WRITE)) as [Hk|Hk].
  - destruct (write_pipe _ _ _ s) as [[res s1]|] eqn:Ew; [|done]. cbn [mbind option_bind]. intros [= <- <-].
    apply write_pipe_spec in Ew as [(H1 & H2 & ->)|(Hi & Hr & O1 & R)]; [| |done|lia].
    + apply no_event; [by apply same_pipes_refl|]. apply Hneg. lia.
    + split; [done|]. unfold events_of. rewrite Er. cbn [answer_int64 answer rp_rc rp_bytes]. rewrite int64_le by lia.
      rewrite bool_decide_eq_true_2, (proj2 (Z.leb_le 0 res)) by (done || lia). cbn [andb Z.eqb K64_OK]. cbn [replay]. by rewrite R.
  - intros [= <- <-]. apply no_event; [by apply same_pipes_refl|]. apply Hneg. unfold K64_ERR_BADFD. lia.
Qed.

Lemma read_step r s rep s' : um_ok s -> bytes_ok (in_bytes r) -> io_read_service_call w r s = Some (rep, s') -> step_ok IoRead r s rep s'.
Proof.
  intros O Hb. unfold io_read_service_call.
  assert (Herr : forall rc, rc <= 0 -> events_of IoRead r (error rc) s s = []).
  { intros rc Hrc. unfold events_of. destruct (request_fd r s); [|done]. cbn [error rp_rc]. rewrite (proj2 (Z.ltb_ge 0 rc)) by done. by rewrite andb_false_r. }
  destruct (_ || _); [intros [= <- <-]; apply no_event; [by apply same_pipes_refl|apply Herr; vm_compute; discriminate]|].
  destruct (word_at 0 (in_bytes r)) as [fd|] eqn:Ef; [|done]. destruct (word_at 8 (in_bytes r)) as [len|] eqn:El; [|done]. cbn [mbind option_bind].
  pose proof (word_at_range _ _ _ Hb Ef) as Hfd. pose proof (word_at_range _ _ _ Hb El) as Hlen. destruct (_ <? _); [intros [= <- <-]; apply no_event; [by apply same_pipes_refl|apply Herr; vm_compute; discriminate]|].
  pose proof (request_fd_is r s fd Ef) as Er. destruct (Z.eqb_spec (int64 fd) 0) as [E0|_].
  { intros [= <- <-]. apply no_event; [by apply same_pipes_refl|]. unfold events_of. rewrite Er. unfold get_fd. rewrite int64_pos in E0 by lia. by subst. }
  rewrite u64_int64 by done. destruct (get_fd fd s) as [[i d]|] eqn:Eg; [|intros [= <- <-]; apply no_event; [by apply same_pipes_refl|apply Herr; vm_compute; discriminate]].
  destruct (fd_kind d) eqn:Hk; try (intros [= <- <-]; apply no_event; [by apply same_pipes_refl|apply Herr; vm_compute; discriminate]).
  - destruct (take_bytes _ _ _) as [bytes|] eqn:Et; [|done]. cbn [mbind option_bind]. intros [= <- <-]. apply get_fd_lookup in Eg.
    assert (Hd : fd_ok (length (fs_raw_buffer s)) d) by (pose proof (current_fds_ok s O) as [_ H]; rewrite Forall_forall in H; apply H; by eapply list_elem_of_lookup_2).
    apply no_event; [|unfold events_of; rewrite Er; by rewrite Hk]. split; [|apply set_current_fds_pipes]. apply set_current_fds_ok; [done|].
    apply insert_fds_ok; [by apply current_fds_ok|]. intros _. specialize (Hd Hk). cbn. lia.
  - intros [= Hr]. apply read_pipe_spec in Hr as [(H1 & O1 & Ea)|(Hi & H1 & O1 & R)]; [| |done|lia].
    + split; [done|]. unfold events_of. rewrite Er, (proj2 (Z.ltb_ge 0 _)) by done. rewrite andb_false_r. cbn. congruence.
    + split; [done|]. unfold events_of. rewrite Er, (proj2 (Z.ltb_lt 0 _)), bool_decide_eq_true_2 by done. cbn [andb replay]. by rewrite R.
Qed.

Lemma open_step r s rep s' : um_ok s -> io_open_service_call w r s = Some (rep, s') -> step_ok IoOpen r s rep s'.
Proof.
  intros O H. apply no_event; [|unfold events_of; by destruct (request_fd r s)]. revert H. unfold io_open_service_call.
  destruct (_ || _); [intros [= <- <-]; by apply same_pipes_refl|]. destruct (bad_path r); [intros [= <- <-]; by apply same_pipes_refl|]. destruct (c_string _) as [path|]; [|done]. cbn [mbind option_bind].
  destruct (w_stat w path) as [st|]; [|intros [= <- <-]; by apply same_pipes_refl]. destruct (negb _); [intros [= <- <-]; by apply same_pipes_refl|]. specialize (Hw path (fs_raw_buffer s)).
  destruct (w_read_raw w path (fs_raw_buffer s)) as [size raw]. destruct Hw as [Hl Hs]. assert (O1 : um_ok (set_raw raw s)) by (by apply set_raw_ok).
  destruct size as [size|]; [|by intros [= <- <-]]. unfold alloc_fd_file.
  pose proof (alloc_fd_ok (mk_fd true FD_FILE size 0 (-1)) (set_raw raw s) O1 ltac:(intros _; cbn; lia)) as [[O2 E2] _].
  destruct (alloc_fd _ _) as [fd s2]. intros [= <- <-]. by split.
Qed.

Lemma drop_ref_ok kind p : pipe_ok p -> pipe_ok (drop_ref kind p).
Proof.
  intros [D R Z1 W F]. unfold drop_ref. set (rn := if _ && (0 <? pi_read_refs p) then _ else _).
  assert (Hrn : 0 <= fst rn /\ 0 <= snd rn).
  { unfold rn. destruct (bool_decide (kind = FD_PIPE_READ)), (bool_decide (kind = FD_PIPE_WRITE)), (Z.ltb_spec 0 (pi_read_refs p)), (Z.ltb_spec 0 (pi_write_refs p)); cbn; lia. }
  destruct rn as [x y]. cbn [fst snd] in Hrn. destruct (_ && _); split; cbn; try done; try lia.
Qed.

Lemma close_step r s rep s' : um_ok s -> bytes_ok (in_bytes r) -> io_close_service_call r s = Some (rep, s') -> step_ok IoClose r s rep s'.
Proof.
  intros O Hb. unfold io_close_service_call.
  assert (Herr : forall rc, rc <> K64_OK -> events_of IoClose r (error rc) s s = []).
  { intros rc Hrc. unfold events_of. destruct (request_fd r s); [|done]. cbn [error rp_rc]. by rewrite (proj2 (Z.eqb_neq rc K64_OK)). }
  destruct (in_short 8 r); [intros [= <- <-]; apply no_event; [by apply same_pipes_refl|apply Herr; vm_compute; discriminate]|]. destruct (word_at 0 (in_bytes r)) as [fd|] eqn:Ef; [|done]. cbn [mbind option_bind].
  pose proof (word_at_range _ _ _ Hb Ef) as Hfd. destruct (Z.ltb_spec (int64 fd) 3) as [H3|H3]; [intros [= <- <-]; apply no_event; [by apply same_pipes_refl|apply Herr; vm_compute; discriminate]|].
  rewrite int64_pos by lia. pose proof (request_fd_is r s fd Ef) as Er. destruct (get_fd fd s) as [[i d]|]; [|intros [= <- <-]; apply no_event; [by apply same_pipes_refl|apply Herr; vm_compute; discriminate]].
  set (isp := bool_decide _ || bool_decide _). set (s1 := if isp then _ else s).
  assert (H1 : um_ok s1 /\ fs_raw_buffer s1 = fs_raw_buffer s /\ abs s1 = (if isp && pipe_ok_index (fd_pipe d) s && negb (pi_used (pipe s1 (fd_pipe d))) then <[Z.to_nat (fd_pipe d) := None]> (abs s) else abs s)).
  { unfold s1. destruct isp; [|done]. unfold pipe_drop_ref. destruct (pipe_ok_index (fd_pipe d) s) eqn:Ep; [|done]. apply pipe_ok_index_true in Ep as [Hi Hu].
    assert (Ou : um_ok (upd_pipe (fd_pipe d) (drop_ref (fd_kind d)) s)) by (apply upd_pipe_ok; [done|]; intros p Hp; rewrite (pipe_lookup s _ O Hi) in Hp; injection Hp as <-; by apply drop_ref_ok, pipe_is_ok).
    split_and!; [done|done|]. rewrite abs_upd by done.
    assert (Epp : pipe (upd_pipe (fd_pipe d) (drop_ref (fd_kind d)) s) (fd_pipe d) = drop_ref (fd_kind d) (pipe s (fd_pipe d))).
    { unfold pipe at 1. cbn [upd_pipe set_pipes pipe_table]. rewrite nth_lookup, list_lookup_alter_eq, (pipe_lookup s _ O Hi). done. }
    rewrite Epp. cbn [andb]. unfold abs_pipe. assert (Ec : pi_used (drop_ref (fd_kind d) (pipe s (fd_pipe d))) = true -> content (drop_ref (fd_kind d) (pipe s (fd_pipe d))) = content (pipe s (fd_pipe d))).
    { unfold drop_ref. set (rn := if _ && (0 <? _) then _ else _). destruct rn as [x y]. by destruct (_ && _). }
    destruct (pi_used (drop_ref _ _)) eqn:Eu; cbn [negb]; [|done]. rewrite Ec by done. apply insert_same. rewrite (abs_lookup s _ O Hi). unfold abs_pipe. by rewrite Hu. }
  destruct H1 as (O1 & Eraw & Eabs). intros [= <- <-].
  assert (O2 : um_ok (set_current_fds (<[i := fd_clear]> (current_fds s1)) s1)) by (apply set_current_fds_ok; [done|]; apply insert_fds_ok; [by apply current_fds_ok|done]).
  split; [done|]. unfold events_of. rewrite Er. assert (Epipe : forall j, pipe (set_current_fds (<[i := fd_clear]> (current_fds s1)) s1) j = pipe s1 j) by (intros j; unfold pipe; by rewrite set_current_fds_pipes).
  assert (Ea2 : abs (set_current_fds (<[i := fd_clear]> (current_fds s1)) s1) = abs s1) by (unfold abs; by rewrite set_current_fds_pipes).
  rewrite Epipe, Ea2, Eabs. fold isp. cbn [error rp_rc K64_OK Z.eqb andb].
  destruct isp; cbn [andb]; [|by rewrite !andb_false_r]. rewrite andb_true_r. destruct (pipe_ok_index (fd_pipe d) s && negb (pi_used (pipe s1 (fd_pipe d)))) eqn:Ec; [|done].
  apply andb_true_iff in Ec as [[Hi Hu]%pipe_ok_index_true _]. cbn. rewrite (abs_lookup s _ O Hi). unfold abs_pipe. by rewrite Hu.
Qed.

Lemma find_free_pipe s : um_ok s -> let i := find_index (fun p => negb (pi_used p)) (pipe_table s) 0 in
  i = -1 \/ (0 <= i < 16 /\ pi_used (pipe s i) = false).
Proof.
  intros O. destruct (find_index_spec (fun p => negb (pi_used p)) (pipe_table s) 0 ltac:(lia)) as [[-> _]|(k & p & -> & Hk & Hp & _)]; [by left|].
  right. pose proof (lookup_lt_Some _ _ _ Hk) as Hl. rewrite (uk_pipes _ O) in Hl. rewrite Z.add_0_l. split; [lia|]. unfold pipe. rewrite Nat2Z.id, nth_lookup, Hk. cbn.
  by destruct (pi_used p).
Qed.

Lemma pipe_upd_same i f s : um_ok s -> 0 <= i < 16 -> pipe (upd_pipe i f s) i = f (pipe s i).
Proof. intros O Hi. unfold pipe at 1. cbn [upd_pipe set_pipes pipe_table]. by rewrite nth_lookup, list_lookup_alter_eq, (pipe_lookup s i O Hi). Qed.

Lemma pipe_step r s rep s' : um_ok s -> io_pipe_service_call r s = Some (rep, s') -> step_ok IoPipe r s rep s'.
Proof.
  intros O. unfold io_pipe_service_call.
  assert (Herr : forall rc s', rc <> K64_OK -> events_of IoPipe r (error rc) s s' = []).
  { intros rc s2 Hrc. unfold events_of. cbn [error rp_rc]. rewrite (proj2 (Z.eqb_neq rc K64_OK)) by done. by destruct (request_fd r s). }
  destruct (out_short 8 r); [intros [= <- <-]; apply no_event; [by apply same_pipes_refl|apply Herr; discriminate]|].
  unfold pipe_alloc. pose proof (find_free_pipe s O) as Hf. cbv zeta in Hf. set (i := find_index _ (pipe_table s) 0) in *. destruct Hf as [Hf|[Hi Hu]].
  { rewrite Hf. change (-1 <? 0) with true. cbv iota. change (-1 <? 0) with true. cbv iota. intros [= <- <-]. apply no_event; [by apply same_pipes_refl|apply Herr; discriminate]. }
  rewrite (proj2 (Z.ltb_ge i 0)) by lia. rewrite (proj2 (Z.ltb_ge i 0)) by lia. set (fresh := fun p => mk_pipe true (pi_data p) 0 0 0 1 1). set (s1 := upd_pipe i fresh s).
  pose proof (pipe_is_ok s i O Hi) as [D _ _ _ _].
  assert (O1 : um_ok s1) by (apply upd_pipe_ok; [done|]; intros p Hp; rewrite (pipe_lookup s i O Hi) in Hp; injection Hp as <-; split; cbn; done).
  pose proof (alloc_fd_ok (mk_fd true FD_PIPE_READ 0 0 i) s1 O1 ltac:(done)) as [[O2 E2] _]. unfold alloc_fd_pipe. destruct (alloc_fd _ s1) as [fd1 s2]. cbn [snd] in *.
  pose proof (alloc_fd_ok (mk_fd true FD_PIPE_WRITE 0 0 i) s2 O2 ltac:(done)) as [[O3 E3] _]. destruct (alloc_fd _ s2) as [fd2 s3]. cbn [snd] in *.
  assert (Ea : abs s3 = <[Z.to_nat i := Some []]> (abs s)) by (unfold abs at 1; rewrite E3, E2; fold (abs s1); unfold s1; by rewrite abs_upd).
  assert (Ep : pipe s3 i = fresh (pipe s i)) by (unfold pipe at 1; rewrite E3, E2; fold (pipe s1 i); by apply pipe_upd_same).
  assert (Eabs : abs s !! Z.to_nat i = Some None) by (rewrite (abs_lookup s i O Hi); unfold abs_pipe; by rewrite Hu).
  destruct (_ || _).
  - intros [= <- <-]. rewrite Herr by discriminate. split.
    + apply upd_pipe_ok; [done|]. intros p Hp. rewrite (pipe_lookup s3 i O3 Hi) in Hp. injection Hp as <-. rewrite Ep. by split; cbn.
    + rewrite abs_upd by done. cbn. rewrite Ea, list_insert_insert_eq. by rewrite insert_same.
  - intros [= <- <-]. split; [done|].
    assert (Ev : forall b, events_of IoPipe r (answer K64_OK b) s s3 = [Created (Z.to_nat i)]) by (intros b; unfold events_of; fold i; by destruct (request_fd r s)).
    rewrite Ev. cbn [replay replay1]. rewrite Eabs. cbn. by rewrite Ea.
Qed.

Lemma finish_pipes i st code s : pipe_table (process_finish w i st code s) = pipe_table s.
Proof. unfold process_finish. by destruct (negb _). Qed.

Lemma call_step c r s rep s' : um_ok s -> bytes_ok (in_bytes r) -> io_handler w c r s = Some (rep, s') -> step_ok c r s rep s'.
Proof.
  intros O Hb. destruct c; cbn [io_handler].
  - by apply write_step.
  - by apply read_step.
  - by apply open_step.
  - by apply close_step.
  - by apply pipe_step.
  - intros H. apply no_event; [|by unfold events_of; destruct (request_fd r s)]. revert H. unfold proc_info_service_call. destruct (_ || _); [intros [= <- <-]; by apply same_pipes_refl|].
    destruct (word_at _ _); [|done]. cbn [mbind option_bind]. destruct (_ <? 0); [intros [= <- <-]; by apply same_pipes_refl|]. destruct (_ && _); intros [= <- <-]; by apply same_pipes_refl.
  - intros H. apply no_event; [|by unfold events_of; destruct (request_fd r s)]. revert H. unfold proc_getpid_service_call. destruct (out_short 8 r); [intros [= <- <-]; by apply same_pipes_refl|].
    destruct (negb _); intros [= <- <-]; by apply same_pipes_refl.
  - intros H. apply no_event; [|by unfold events_of; destruct (request_fd r s)]. revert H. unfold proc_exit_service_call. destruct (in_short 8 r); [intros [= <- <-]; by apply same_pipes_refl|].
    destruct (word_at _ _); [|done]. cbn [mbind option_bind]. intros [= <- <-]. split; [|by rewrite finish_pipes]. apply finish_ok, set_ctx_ok; [done|apply O|apply O].
Qed.
End steps.

(** ** Runs *)

(** One step of the kernel: a call of the active process, the start of a process,
    the queueing of a child, a return to the context of another process, the end, a
    fault and the removal of a process. *)
Inductive kstep : um -> list pipe_event -> um -> Prop :=
| step_call w c r s rep s' : world_ok w -> bytes_ok (in_bytes r) -> io_handler w c r s = Some (rep, s') -> kstep s (events_of c r rep s s') s'
| step_start w path entry space parent pid s i s' : 0 <= pid < pid_bound -> next_user_pid s < pid_bound ->
    process_alloc w path entry space parent pid s = (i, s') -> 0 <= i -> kstep s [] (set_ctx (mk_ctx K64_ERR_INVAL true false i (Some space) no_fds) s')
| step_spawn w path args s : next_user_pid s + 1 < pid_bound -> kstep s [] (snd (queue_spawn w path args s))
| step_switch c s : -1 <= c_index c < 64 -> fds_ok (length (fs_raw_buffer s)) (c_fds c) -> kstep s [] (set_ctx c s)
| step_brk i x s : kstep s [] (upd_proc i (set_brk x) s)
| step_finish w i st code s : kstep s [] (process_finish w i st code s)
| step_fault w vec rip s : kstep s [] (k64_usermode_handle_fault w vec rip s)
| step_reap i s : kstep s [] (process_reap i s)
| step_clear pid s : kstep s [] (clear_spawn_ctx pid s)
| step_print t s : kstep s [] (add_term t s).

Inductive ksteps : um -> list pipe_event -> um -> Prop :=
| ksteps_nil s : ksteps s [] s
| ksteps_cons s1 e s2 l s3 : kstep s1 e s2 -> ksteps s2 l s3 -> ksteps s1 (e ++ l) s3.

Lemma ksteps_app s1 l1 s2 l2 s3 : ksteps s1 l1 s2 -> ksteps s2 l2 s3 -> ksteps s1 (l1 ++ l2) s3.
Proof. induction 1 as [s|s1 e s2 l s4 H _ IH]; intros H2; [done|]. rewrite <- app_assoc. econstructor; [exact H|]. by apply IH. Qed.
Lemma ksteps_one s e s' : kstep s e s' -> ksteps s e s'.
Proof. intros H. rewrite <- (app_nil_r e). econstructor; [exact H|constructor]. Qed.

Lemma alloc_pipes w path entry cr3 parent pid s : pipe_table (snd (process_alloc w path entry cr3 parent pid s)) = pipe_table s.
Proof. unfold process_alloc. destruct (_ <? 0); [done|]. unfold k64_usermode_next_pid. destruct (pid =? 0); cbn [snd]; by destruct (_ <=? _). Qed.
Lemma alloc_raw w path entry cr3 parent pid s : fs_raw_buffer (snd (process_alloc w path entry cr3 parent pid s)) = fs_raw_buffer s.
Proof. unfold process_alloc. destruct (_ <? 0); [done|]. unfold k64_usermode_next_pid. destruct (pid =? 0); cbn [snd]; by destruct (_ <=? _). Qed.
Lemma alloc_index w path entry cr3 parent pid s : um_ok s -> fst (process_alloc w path entry cr3 parent pid s) = free_slot pid s.
Proof.
  intros O. unfold process_alloc. destruct (Z.ltb_spec (free_slot pid s) 0).
  - destruct (free_slot_spec pid s O) as [E|[E _]]; [by rewrite E|lia].
  - destruct (if pid =? 0 then _ else _) as [pid' s1]. done.
Qed.

Lemma queue_spawn_ok w path args s : um_ok s -> next_user_pid s + 1 < pid_bound -> same_pipes s (snd (queue_spawn w path args s)).
Proof.
  intros O Hn. unfold queue_spawn. destruct (_ <? 0); [by apply same_pipes_refl|]. unfold k64_usermode_next_pid.
  pose proof (uk_next _ O) as Hp. unfold pid_bound in *. rewrite u64_small by lia.
  assert (O1 : um_ok (set_next_pid (next_user_pid s + 1) s)).
  { destruct O as [A1 A2 A3 A4 A5 A6 A7 A8 A9 A10 A11]. split; cbn; try done; [|lia|]; [intros p H1 H2; specialize (A7 p H1 H2); lia|intros c H1 H2; specialize (A11 c H1 H2); lia]. }
  set (s1 := set_next_pid _ s) in *. set (ctx := mk_spawn true _ _ _ _). set (k := Z.to_nat _).
  assert (O2 : um_ok (set_spawns (<[k := ctx]> (spawn_ctx s1)) s1)) by (apply set_spawn_ok; [done|]; cbn; lia). set (s2 := set_spawns _ s1) in *.
  pose proof (reserve_ok w path (current_process_pid s1) (next_user_pid s) 0 s2 O2 ltac:(unfold pid_bound; lia) ltac:(unfold pid_bound; cbn; lia)) as O3.
  assert (E3 : pipe_table (snd (process_reserve w path (current_process_pid s1) (next_user_pid s) 0 s2)) = pipe_table s).
  { unfold process_reserve. pose proof (alloc_pipes w path 0 0 (current_process_pid s1) (next_user_pid s) s2) as E. destruct (process_alloc _ _ _ _ _ _ s2) as [i s3]. cbn [snd] in E. by destruct (i <? 0). }
  destruct (process_reserve _ _ _ _ _ s2) as [i s3]. cbn [snd] in *. destruct (i <? 0); [|by split]. split; [|done]. by apply set_spawn_ok.
Qed.

Lemma clear_spawn_ok pid s : um_ok s -> same_pipes s (clear_spawn_ctx pid s).
Proof. intros O. unfold clear_spawn_ctx. destruct (_ <? 0); [by apply same_pipes_refl|]. split; [|done]. by apply set_spawn_ok. Qed.

Lemma fault_ok w vec rip s : um_ok s -> same_pipes s (k64_usermode_handle_fault w vec rip s).
Proof.
  intros O. unfold k64_usermode_handle_fault. set (s1 := end_active _ s). assert (O1 : um_ok s1) by (apply set_ctx_ok; [done|apply O|apply O]).
  split; [apply finish_ok; destruct (live_index _ s1); [apply upd_proc_ok; [done|by intros p|by intros p]|done]|]. rewrite finish_pipes. by destruct (live_index _ s1).
Qed.

Lemma kstep_ok s e s' : um_ok s -> kstep s e s' -> um_ok s' /\ replay e (abs s) = Some (abs s').
Proof.
  intros O H. destruct H as [w c r s rep s' Hw Hb Hc|w path entry space parent pid s i s' Hp Hn Ha Hi|w path args s Hn|c s Hi Hf|i x s|w i st code s|w vec rip s|i s|pid s|t s].
  - by eapply call_step.
  - apply same_pipes_replay. pose proof (alloc_ok w path entry space parent pid s O Hp Hn) as O1. pose proof (alloc_pipes w path entry space parent pid s) as E1.
    pose proof (alloc_index w path entry space parent pid s O) as E2. rewrite Ha in O1, E1, E2. cbn [fst snd] in *. subst i. split; [|done].
    apply set_ctx_ok; [done| |apply no_fds_ok]. cbn. destruct (free_slot_spec pid s O) as [E|[E _]]; lia.
  - apply same_pipes_replay. by apply queue_spawn_ok.
  - apply same_pipes_replay. split; [by apply set_ctx_ok|done].
  - apply same_pipes_replay. split; [|done]. apply upd_proc_ok; [done|by intros p|by intros p].
  - apply same_pipes_replay. split; [by apply finish_ok|by rewrite finish_pipes].
  - apply same_pipes_replay. by apply fault_ok.
  - apply same_pipes_replay. split; [by apply reap_ok|]. unfold process_reap. by destruct (negb _).
  - apply same_pipes_replay. by apply clear_spawn_ok.
  - apply same_pipes_replay. split; [by apply add_term_ok|done].
Qed.

Lemma ksteps_ok s l s' : um_ok s -> ksteps s l s' -> um_ok s' /\ replay l (abs s) = Some (abs s').
Proof.
  intros O H. revert O. induction H as [s|s1 e s2 l s3 H1 H2 IH]; intros O; [done|]. destruct (kstep_ok s1 e s2 O H1) as [O2 R]. destruct (IH O2) as [O3 R3]. split; [done|].
  rewrite (replay_app e l _ _ R). done.
Qed.

(** The bytes written to a pipe and taken from it. *)
Definition written (i : nat) (l : list pipe_event) : list Z := concat (map (fun e => match e with Wrote j b => if decide (j = i) then b else [] | _ => [] end) l).
Definition taken (i : nat) (l : list pipe_event) : list Z := concat (map (fun e => match e with Took j b => if decide (j = i) then b else [] | _ => [] end) l).

Lemma replay_stream l : forall a b i q, replay l a = Some b -> a !! i = Some (Some q) -> Freed i ∉ l ->
  exists q', b !! i = Some (Some q') /\ q ++ written i l = taken i l ++ q' /\ (length q <= 4096 -> length q' <= 4096)%nat.
Proof.
  induction l as [|e l IH]; intros a b i q; cbn [replay].
  - intros [= <-] Hq _. exists q. split_and!; [done|by rewrite app_nil_r|done].
  - destruct (replay1 e a) as [a1|] eqn:E; [|done]. cbn [mbind option_bind]. intros H Hq Hf. assert (Hf' : Freed i ∉ l) by (intros Hin; apply Hf, elem_of_cons; by right).
    assert (Hne : forall j, e = Freed j -> j <> i) by (intros j -> ->; apply Hf, elem_of_cons; by left). unfold written, taken. cbn [map concat].
    assert (Hlt := lookup_lt_Some _ _ _ Hq). destruct e as [j|j bs|j bs|j]; cbn [replay1] in E; destruct (a !! j) as [[qj|]|] eqn:Ej; try done.
    + injection E as <-. assert (j <> i) by (intros ->; congruence). eapply IH in H as (q' & H1 & H2 & H3); [by exists q'|by rewrite list_lookup_insert_ne|done].
    + destruct (Nat.leb_spec (length (qj ++ bs)) 4096) as [Hl|]; [|done]. injection E as <-. destruct (decide (j = i)) as [->|Hj].
      * assert (qj = q) as -> by congruence. eapply IH in H as (q' & H1 & H2 & H3); [|by rewrite list_lookup_insert_eq|done]. exists q'. split_and!; [done| |by intros; apply H3]. rewrite app_assoc. exact H2.
      * eapply IH in H as (q' & H1 & H2 & H3); [by exists q'|by rewrite list_lookup_insert_ne|done].
    + destruct (bool_decide_reflect (take (length bs) qj = bs)) as [Ht|]; [|done]. injection E as <-. destruct (decide (j = i)) as [->|Hj].
      * assert (qj = q) as -> by congruence. eapply IH in H as (q' & H1 & H2 & H3); [|by rewrite list_lookup_insert_eq|done]. exists q'. split_and!; [done| |].
        -- fold (written i l) in *. fold (taken i l) in *. assert (Eq : q = bs ++ drop (length bs) q) by (rewrite <- (take_drop (length bs) q) at 1; by rewrite Ht).
           change ([] ++ written i l) with (written i l). rewrite Eq, <- !app_assoc, <- H2. done.
        -- intros Hl. apply H3. rewrite length_drop. lia.
      * eapply IH in H as (q' & H1 & H2 & H3); [by exists q'|by rewrite list_lookup_insert_ne|done].
    + injection E as <-. assert (j <> i) by (by apply Hne). eapply IH in H as (q' & H1 & H2 & H3); [by exists q'|by rewrite list_lookup_insert_ne|done].
Qed.

(** C8: pipes are first-in-first-out queues of bytes.  Whatever service calls any
    number of processes make, in whatever order processes are started, switched,
    finished and removed in between, what the calls accept and return is a run of
    bounded queues, one per pipe, so that from the moment a pipe is empty until it
    is freed the bytes that were written are exactly the bytes that were read
    followed by the at most 4096 bytes that are still in it; and the tables stay
    well formed: process identifiers are unique and below the next one, ring
    positions and file offsets inside their buffers. *)
Theorem pipes_are_queues s l s' : um_ok s -> ksteps s l s' ->
  um_ok s' /\ replay l (abs s) = Some (abs s') /\
  forall i, abs s !! i = Some (Some []) -> Freed i ∉ l ->
    exists q, abs s' !! i = Some (Some q) /\ written i l = taken i l ++ q /\ (length q <= 4096)%nat.
Proof.
  intros O H. destruct (ksteps_ok s l s' O H) as [O' R]. split_and!; [done|done|]. intros i Hi Hf.
  destruct (replay_stream l _ _ i [] R Hi Hf) as (q & H1 & H2 & H3). exists q. split_and!; [done|done|]. apply H3. cbn. lia.
Qed.
