(* ===== verification/ProcLife.v ===== *)
(** * The life of a process

    Executing a program, running a child and waiting for it are made of the steps
    of [PipeRun.v], whatever the programs do; a parent that spawns a child and
    waits for it gets the code the child ended with. *)
From Stdlib Require Import ZArith Lia.
From stdpp Require Import base list.
From S2P Require Import Prelude KString Users UsersSpec UsersRun UsersSession Proc ProcInv PipeRun.

(** ** Whole operations are sequences of steps *)
Lemma finish_raw w i st code s : fs_raw_buffer (process_finish w i st code s) = fs_raw_buffer s.
Proof. unfold process_finish. by destruct (negb _). Qed.

Lemma alloc_fd_raw d s : fs_raw_buffer (snd (alloc_fd d s)) = fs_raw_buffer s.
Proof. unfold alloc_fd. destruct (_ <? 0); [done|]. apply set_current_fds_raw. Qed.

Lemma pipe_call_raw r s rep s' : io_pipe_service_call r s = Some (rep, s') -> fs_raw_buffer s' = fs_raw_buffer s.
Proof.
  unfold io_pipe_service_call. destruct (out_short 8 r); [by intros [= <- <-]|]. unfold pipe_alloc. destruct (find_index _ _ 0 <? 0) eqn:E; [by intros [= <- <-]|].
  rewrite E. unfold alloc_fd_pipe. set (s1 := upd_pipe _ _ s). pose proof (alloc_fd_raw (mk_fd true FD_PIPE_READ 0 0 (find_index (fun p => negb (pi_used p)) (pipe_table s) 0)) s1) as E1.
  destruct (alloc_fd _ s1) as [fd1 s2]. cbn [snd] in E1. pose proof (alloc_fd_raw (mk_fd true FD_PIPE_WRITE 0 0 (find_index (fun p => negb (pi_used p)) (pipe_table s) 0)) s2) as E2.
  destruct (alloc_fd _ s2) as [fd2 s3]. cbn [snd] in E2. destruct (_ || _); intros [= <- <-]; cbn [upd_pipe set_pipes fs_raw_buffer]; by rewrite E2, E1.
Qed.

Lemma handler_raw w c r s rep s' : world_ok w -> io_handler w c r s = Some (rep, s') -> length (fs_raw_buffer s') = length (fs_raw_buffer s).
Proof.
  intros Hw. destruct c; cbn [io_handler].
  - unfold io_write_service_call. destruct (_ || _); [by intros [= <- <-]|]. destruct (word_at 0 _) as [fd|]; [|done]. destruct (word_at 8 _) as [len|]; [|done]. cbn [mbind option_bind].
    destruct (_ <? _); [by intros [= <- <-]|]. destruct (_ || _); [destruct (write_text _ _); [|done]; by intros [= <- <-]|]. destruct (get_fd _ s) as [[i d]|]; [|by intros [= <- <-]].
    destruct (bool_decide _); [|by intros [= <- <-]]. destruct (write_pipe _ _ _ s) as [[res s1]|] eqn:E; [|done]. intros [= <- <-]. revert E. unfold write_pipe.
    repeat match goal with |- context [if ?b then _ else _] => destruct b end; try done; by intros [= <- <-].
  - unfold io_read_service_call. destruct (_ || _); [by intros [= <- <-]|]. destruct (word_at 0 _) as [fd|]; [|done]. destruct (word_at 8 _) as [len|]; [|done]. cbn [mbind option_bind].
    destruct (_ <? _); [by intros [= <- <-]|]. destruct (_ =? 0); [by intros [= <- <-]|]. destruct (get_fd _ s) as [[i d]|]; [|by intros [= <- <-]].
    destruct (fd_kind d); try by intros [= <- <-].
    + destruct (take_bytes _ _ _); [|done]. intros [= <- <-]. by rewrite set_current_fds_raw.
    + intros [= E]. revert E. unfold read_pipe. destruct (negb _); [by intros [= <- <-]|]. destruct (_ =? 0); [by intros [= <- <-]|]. destruct (pipe_get _ _). by intros [= <- <-].
  - unfold io_open_service_call. destruct (_ || _); [by intros [= <- <-]|]. destruct (bad_path r); [by intros [= <- <-]|]. destruct (c_string _) as [path|]; [|done]. cbn [mbind option_bind].
    destruct (w_stat w path); [|by intros [= <- <-]]. destruct (negb _); [by intros [= <- <-]|]. specialize (Hw path (fs_raw_buffer s)). destruct (w_read_raw w path _) as [size raw]. destruct Hw as [Hl _].
    destruct size as [size|]; [|by intros [= <- <-]]. unfold alloc_fd_file. pose proof (alloc_fd_raw (mk_fd true FD_FILE size 0 (-1)) (set_raw raw s)) as E. destruct (alloc_fd _ _) as [fd s1].
    intros [= <- <-]. cbn [snd] in E. rewrite E. done.
  - unfold io_close_service_call. destruct (in_short 8 r); [by intros [= <- <-]|]. destruct (word_at 0 _) as [fd|]; [|done]. cbn [mbind option_bind]. destruct (_ <? 3); [by intros [= <- <-]|].
    destruct (get_fd _ s) as [[i d]|]; [|by intros [= <- <-]]. intros [= <- <-]. rewrite set_current_fds_raw. destruct (_ || _); [|done]. unfold pipe_drop_ref. by destruct (pipe_ok_index _ s).
  - intros H. by rewrite (pipe_call_raw _ _ _ _ H).
  - unfold proc_info_service_call. destruct (_ || _); [by intros [= <- <-]|]. destruct (word_at 0 _); [|done]. cbn [mbind option_bind]. destruct (_ <? 0); [by intros [= <- <-]|].
    by destruct (_ && _); intros [= <- <-].
  - unfold proc_getpid_service_call. destruct (out_short 8 r); [by intros [= <- <-]|]. by destruct (negb _); intros [= <- <-].
  - unfold proc_exit_service_call. destruct (in_short 8 r); [by intros [= <- <-]|]. destruct (word_at 0 _); [|done]. intros [= <- <-]. by rewrite finish_raw.
Qed.

Lemma queue_spawn_raw w path args s : fs_raw_buffer (snd (queue_spawn w path args s)) = fs_raw_buffer s.
Proof.
  unfold queue_spawn. destruct (_ <? 0); [done|]. unfold k64_usermode_next_pid, process_reserve. set (s1 := set_spawns _ _). set (x := current_process_pid _).
  pose proof (alloc_raw w path 0 0 x (next_user_pid s) s1) as E. destruct (process_alloc _ _ _ _ _ _ s1) as [i s2]. cbn [snd] in E. destruct (i <? 0) eqn:Ei; rewrite Ei; cbn [snd set_spawns upd_proc set_procs fs_raw_buffer]; by rewrite E.
Qed.

Lemma kstep_raw s e s' : kstep s e s' -> length (fs_raw_buffer s') = length (fs_raw_buffer s).
Proof.
  intros H. destruct H as [w c r s rep s' Hw Hb Hc|w path entry space parent pid s i s' Hp Hn Ha Hi|w path args s Hn|c s Hi Hf|i x s|w i st code s|w vec rip s|i s|pid s|t s]; try done.
  - by eapply handler_raw.
  - cbn. pose proof (alloc_raw w path entry space parent pid s) as E. rewrite Ha in E. cbn in E. by rewrite E.
  - by rewrite queue_spawn_raw.
  - by rewrite finish_raw.
  - unfold k64_usermode_handle_fault. rewrite finish_raw. by destruct (live_index _ _).
  - unfold process_reap. by destruct (negb _).
  - unfold clear_spawn_ctx. by destruct (_ <? 0).
Qed.
Lemma ksteps_raw s l s' : ksteps s l s' -> length (fs_raw_buffer s') = length (fs_raw_buffer s).
Proof. induction 1 as [|s1 e s2 l s3 H _ IH]; [done|]. by rewrite IH, (kstep_raw _ _ _ H). Qed.

(** A function on the state that is a sequence of steps. *)
Definition stepwise (f : um -> um) : Prop := forall s, um_ok s -> exists l, ksteps s l (f s).

Section compose.
Context (w : world) (spawn_path : list Z -> list Z -> Z -> Z -> um -> bool * um).
Hypothesis Hspawn : forall path args parent pid, stepwise (fun s => snd (spawn_path path args parent pid s)).

Lemma then_step s l s1 e s2 : ksteps s l s1 -> kstep s1 e s2 -> exists l', ksteps s l' s2.
Proof. intros H1 H2. eexists. eapply ksteps_app; [exact H1|]. by apply ksteps_one. Qed.

(** The context of the caller fits the state after a run. *)
Lemma restore_step s l s1 : um_ok s -> ksteps s l s1 -> kstep s1 [] (set_ctx (unlock_off (active_ctx s)) s1).
Proof. intros O H. apply step_switch; cbn; [apply O|]. rewrite (ksteps_raw _ _ _ H). apply O. Qed.

Lemma run_child_stepwise pid parent : stepwise (fun s => snd (run_reserved_child w spawn_path pid parent s)).
Proof.
  intros s O. unfold run_reserved_child. destruct (_ || _); [by exists []; constructor|]. set (ctx := nth _ (spawn_ctx s) empty_spawn).
  pose proof (Hspawn (copy_bounded 256 (s_path ctx)) (copy_bounded K64_USER_SPAWN_ARGS_MAX (s_args ctx)) parent pid s O) as [l1 H1].
  destruct (spawn_path _ _ parent pid s) as [ok s1]. cbn [snd] in H1. destruct (then_step _ _ _ _ _ H1 (restore_step s l1 s1 O H1)) as [l2 H2]. set (s2 := set_ctx _ s1) in *.
  destruct (_ <? 0); [eapply then_step; [exact H2|apply step_clear]|]. set (i := process_find_pid pid s2). set (s3 := if negb ok && _ then _ else s2).
  assert (H3 : exists l3, ksteps s l3 s3) by (unfold s3; destruct (negb ok && _); [eapply then_step; [exact H2|apply step_finish]|by exists l2]). destruct H3 as [l3 H3].
  destruct (bool_decide (p_state (proc s3 i) = P_RUNNING)); [by exists l3|]. eapply then_step; [exact H3|apply step_clear].
Qed.

Lemma ready_child_stepwise parent : stepwise (fun s => snd (run_ready_child_for_parent w spawn_path parent s)).
Proof. intros s O. unfold run_ready_child_for_parent. destruct (_ <? 0); [by exists []; constructor|]. by apply run_child_stepwise. Qed.

Lemma nested_stepwise path args : stepwise (fun s => snd (k64_usermode_execute_nested_path_args spawn_path path args s)).
Proof.
  intros s O. unfold k64_usermode_execute_nested_path_args. destruct (empty path); [by exists []; constructor|]. pose proof (Hspawn path args 0 0 s O) as [l1 H1].
  destruct (spawn_path path args 0 0 s) as [ok s1]. cbn [snd] in *. eapply then_step; [exact H1|]. by eapply restore_step.
Qed.

(** Waiting, with the run of the child inside. *)
Lemma wait_steps r s rep s' : um_ok s -> proc_wait_service_call w spawn_path r s = Some (rep, s') -> exists l, ksteps s l s'.
Proof.
  intros O. unfold proc_wait_service_call. assert (Hnil : exists l, ksteps s l s) by (exists []; constructor).
  destruct (_ || _); [by intros [= <- <-]; apply Hnil|]. destruct (word_at 0 _) as [pid|]; [|done]. destruct (word_at 8 _) as [flags|]; [|done]. cbn [mbind option_bind].
  destruct (_ && _); [by intros [= <- <-]; apply Hnil|]. destruct (_ <? 0); [by intros [= <- <-]; apply Hnil|]. destruct (negb _); [by intros [= <- <-]; apply Hnil|].
  destruct (bool_decide _).
  - destruct (_ =? K64_WAIT_NOHANG); [by intros [= <- <-]; apply Hnil|]. set (i := process_find_pid pid s).
    destruct (run_child_stepwise (p_pid (proc s i)) (rq_caller r) s O) as [l1 H1]. destruct (run_reserved_child _ _ _ _ s) as [rc s1]. cbn [snd] in H1.
    destruct (negb _); [by intros [= <- <-]; exists l1|]. destruct (_ <? 0); [by intros [= <- <-]; exists l1|]. destruct (bool_decide _); [by intros [= <- <-]; exists l1|].
    intros [= <- <-]. eapply then_step; [exact H1|apply step_reap].
  - intros [= <- <-]. exists []. apply ksteps_one, step_reap.
Qed.
End compose.

(** The execution of a program whose system calls are steps. *)
Lemma execute_steps w enter heap space entry top path parent pid s : um_ok s -> 0 <= pid < pid_bound -> next_user_pid s < pid_bound ->
  stepwise (fun s => snd (enter s)) -> exists l, ksteps s l (snd (k64_usermode_execute_named_ex w enter heap space entry top path parent pid s)).
Proof.
  intros O Hp Hn He. unfold k64_usermode_execute_named_ex. destruct (_ || _ || _); [by exists []; constructor|].
  destruct (process_alloc w path entry space parent pid s) as [i s1] eqn:Ea. destruct (Z.ltb_spec i 0) as [Hi|Hi].
  { pose proof (alloc_index w path entry space parent pid s O) as E. rewrite Ea in E. cbn in E. unfold process_alloc in Ea. rewrite <- E in Ea. rewrite (proj2 (Z.ltb_lt i 0)) in Ea by done.
    injection Ea as _ <-. exists []. apply ksteps_one, step_print. }
  pose proof (step_start w path entry space parent pid s i s1 Hp Hn Ea Hi) as H1. set (s2 := set_ctx _ s1) in *. set (linux := _ =? K64_PERSONALITY_LINUX_X86_64).
  set (s3 := if linux then upd_proc i (set_brk K64_LINUX_BRK_BASE) s2 else s2).
  assert (H3 : exists l3, ksteps s l3 s3) by (unfold s3; destruct linux; [eapply then_step; [by apply ksteps_one; exact H1|apply step_brk]|eexists; by apply ksteps_one]).
  destruct H3 as [l3 H3]. destruct (ksteps_ok _ _ _ O H3) as [O3 _]. destruct (linux && negb heap).
  { destruct (then_step _ _ _ _ _ H3 (step_finish w i P_FAULTED K64_ERR_NOMEM s3)) as [l4 H4]. eapply then_step; [exact H4|]. apply step_switch; [done|apply no_fds_ok]. }
  destruct (He s3 O3) as [l4 H4]. destruct (enter s3) as [result s4]. cbn [snd] in H4. pose proof (ksteps_app _ _ _ _ _ H3 H4) as H5. destruct (ksteps_ok _ _ _ O H5) as [O4 _].
  assert (H6 : exists l, ksteps s l (set_result result s4)) by (eapply then_step; [exact H5|apply step_switch; cbn; apply O4]). destruct H6 as [l6 H6]. set (s5 := set_result result s4) in *.
  set (s6 := if bool_decide _ then process_finish w i P_ZOMBIE result s5 else s5).
  assert (H7 : exists l, ksteps s l s6) by (unfold s6; destruct (bool_decide _); [eapply then_step; [exact H6|apply step_finish]|by exists l6]). destruct H7 as [l7 H7].
  destruct (_ && _ && _); [|by exists l7]. eapply then_step; [exact H7|apply step_reap].
Qed.

(** ** Spawning and waiting *)
Lemma find_pid_at s k p : um_ok s -> process_table s !! k = Some p -> p_used p = true -> find_pid (p_pid p) s = Z.of_nat k.
Proof.
  intros O Hk Hu. destruct (find_pid_spec (p_pid p) s O) as [[_ H]|(Hi & Hu' & Hp)].
  - exfalso. by apply (H p); [eapply list_elem_of_lookup_2|..].
  - pose proof (uk_unique _ O k (Z.to_nat (find_pid (p_pid p) s)) p _ Hk (proc_lookup _ _ O Hi) Hu Hu' (eq_sym Hp)). lia.
Qed.

Lemma proc_of_nat s k p : process_table s !! k = Some p -> proc s (Z.of_nat k) = p.
Proof. intros H. unfold proc. by rewrite Nat2Z.id, nth_lookup, H. Qed.

Lemma find_spawn_spec pid s : (find_spawn_ctx pid s = -1 /\ forall c, c ∈ spawn_ctx s -> s_used c = true -> s_pid c <> pid) \/
  exists k c, find_spawn_ctx pid s = Z.of_nat k /\ spawn_ctx s !! k = Some c /\ s_used c = true /\ s_pid c = pid.
Proof.
  unfold find_spawn_ctx. destruct (find_index_spec (is_spawn pid) (spawn_ctx s) 0 ltac:(lia)) as [[-> H]|(k & c & -> & Hk & Hc & _)].
  - left. split; [done|]. intros c Hc Hu E. rewrite Forall_forall in H. specialize (H c Hc). unfold is_spawn in H. rewrite Hu, E in H. cbn in H. lia.
  - right. exists k, c. unfold is_spawn in Hc. apply andb_true_iff in Hc as [Hu E%Z.eqb_eq]. split_and!; [lia|done|done|done].
Qed.

(** The reserved slot and the queue after a spawn. *)
Lemma queue_spawn_spec w path args s pid s1 : um_ok s -> next_user_pid s + 1 < pid_bound -> queue_spawn w path args s = (pid, s1) -> 0 <= pid ->
  pid = next_user_pid s /\ um_ok s1 /\ active_ctx s1 = active_ctx s /\
  (exists k p, process_table s1 !! k = Some p /\ p_used p = true /\ p_pid p = pid /\ p_parent p = current_process_pid s /\ p_state p = P_RUNNING /\
     p_creds p = inherit_process_creds w (current_process_pid s) s) /\
  find_spawn_ctx pid s1 <> -1 /\ (forall c, c ∈ spawn_ctx s1 -> s_used c = true -> s_pid c = pid -> c = mk_spawn true pid (current_process_pid s) (copy_bounded 256 path) (copy_bounded 256 args)).
Proof.
  intros O Hn H Hpid. pose proof (queue_spawn_ok w path args s O Hn) as [O1 _]. rewrite H in O1. cbn [snd] in O1. revert H. unfold queue_spawn.
  pose proof (find_index_spec (fun c => negb (s_used c)) (spawn_ctx s) 0 ltac:(lia)) as Hfree. set (i := find_index _ (spawn_ctx s) 0) in *.
  destruct (Z.ltb_spec i 0) as [|Hi]; [intros [= <- _]; unfold K64_ERR_FULL in Hpid; lia|].
  destruct Hfree as [[E _]|(kf & cf & Ekf & Hkf & _)]; [lia|]. unfold k64_usermode_next_pid. pose proof (uk_next _ O) as Hp0. unfold pid_bound in *. rewrite u64_small by lia.
  set (s0 := set_next_pid (next_user_pid s + 1) s). change (current_process_pid s0) with (current_process_pid s). set (P := current_process_pid s).
  set (ctx := mk_spawn true (next_user_pid s) P _ _). set (sq := set_spawns _ s0).
  assert (Oq : um_ok sq).
  { apply set_spawn_ok; [|cbn; lia]. destruct O as [A1 A2 A3 A4 A5 A6 A7 A8 A9 A10 A11]. split; cbn; try done; [|lia|]; [intros p H1 H2; specialize (A7 p H1 H2); lia|intros c H1 H2; specialize (A11 c H1 H2); lia]. }
  assert (Hslot : 0 <= free_slot (next_user_pid s) sq -> proc sq (free_slot (next_user_pid s) sq) = proc s (free_slot (next_user_pid s) sq) /\ p_used (proc sq (free_slot (next_user_pid s) sq)) = false /\ free_slot (next_user_pid s) sq < 64).
  { intros Hs. destruct (free_slot_spec (next_user_pid s) sq Oq) as [E|[Hr [(Hu & _ & E)|[Hu _]]]]; [lia| |by split_and!; [| |lia]].
    exfalso. pose proof (uk_pid _ O (proc s (free_slot (next_user_pid s) sq)) ltac:(eapply list_elem_of_lookup_2; by apply proc_lookup)) as Hlt.
    change (proc sq ?i) with (proc s i) in Hu, E. specialize (Hlt Hu). lia. }
  unfold process_reserve. destruct (process_alloc w path 0 0 P (next_user_pid s) sq) as [j s2] eqn:Ea. pose proof (alloc_index w path 0 0 P (next_user_pid s) sq Oq) as Ej. rewrite Ea in Ej. cbn [fst] in Ej.
  destruct (Z.ltb_spec j 0) as [|Hj]; [rewrite (proj2 (Z.ltb_lt j 0)) by done; intros [= <- _]; unfold K64_ERR_FULL in Hpid; lia|].
  rewrite (proj2 (Z.ltb_ge j 0)) by done. intros [= <- <-]. destruct (alloc_shape w path 0 0 P (next_user_pid s) sq Oq ltac:(unfold pid_bound; lia) ltac:(unfold pid_bound; cbn; lia) ltac:(lia)) as (c & x & Ea' & Ec & _).
  rewrite Ea in Ea'. injection Ea' as Ej' Es2. rewrite <- Ej in Hslot, Ec. destruct (Hslot Hj) as (_ & Hfree & Hj64). rewrite Hfree in Ec.
  rewrite (proj2 (Z.eqb_neq (next_user_pid s) 0)) in Es2 by lia. assert (Ei : int64 (next_user_pid s) = next_user_pid s) by (unfold int64; rewrite u64_small by lia; by rewrite (proj2 (Z.ltb_lt _ _)) by lia).
  assert (Esp : spawn_ctx (upd_proc j (set_task 0) s2) = <[Z.to_nat i := ctx]> (spawn_ctx s)) by (by rewrite Es2).
  split_and!; [done|done|by rewrite Es2| | |].
  - exists (Z.to_nat j), (set_task 0 (fresh_process w path 0 0 P (next_user_pid s) c x (proc sq j))). split_and!; try done.
    cbn [upd_proc set_procs process_table]. rewrite list_lookup_alter_eq, Es2. cbn [upd_proc set_procs process_table set_next_personality set_next_pid]. rewrite <- Ej.
    rewrite list_lookup_alter_eq. change (process_table (set_next_personality _ (set_next_pid _ sq))) with (process_table sq). rewrite (proc_lookup sq j Oq) by lia. done.
  - destruct (find_spawn_spec (int64 (next_user_pid s)) (upd_proc j (set_task 0) s2)) as [[_ Hno]|(k & c' & -> & _)]; [|lia]. exfalso. apply (Hno ctx); [|done|by rewrite Ei].
    rewrite Esp. eapply (list_elem_of_lookup_2 _ (Z.to_nat i)). apply list_lookup_insert_eq. rewrite Ekf. replace (Z.to_nat (0 + Z.of_nat kf)) with kf by lia. by eapply lookup_lt_Some.
  - intros c' Hc' Hu' Ep. rewrite Esp in Hc'. apply list_elem_of_lookup in Hc' as [m Hm]. apply list_lookup_insert_Some in Hm as [(_ & <- & _)|[_ Hm]]; [by rewrite Ei|].
    exfalso. pose proof (uk_spawn _ O c' ltac:(by eapply list_elem_of_lookup_2) Hu'). lia.
Qed.

(** The request of [proc.wait]. *)
Definition wait_request (caller pid flags : Z) : k64_service_call_request_t := mk_request caller 0 (Some (le_bytes 8 pid ++ le_bytes 8 flags)) 16 true 8.

(** What the run of a child leaves behind. *)
Record child_ended (pid parent code : Z) (s : um) : Prop := {
  ce_ok : um_ok s;
  ce_process : exists k p, process_table s !! k = Some p /\ p_used p = true /\ p_pid p = pid /\ p_parent p = parent /\ p_state p <> P_RUNNING /\ p_exit p = code
}.

Lemma reaped_gone pid s k p : um_ok s -> process_table s !! k = Some p -> p_used p = true -> p_pid p = pid -> (k < 64)%nat -> 
  forall q, q ∈ process_table (process_reap (Z.of_nat k) s) -> p_used q = true -> p_pid q <> pid.
Proof.
  intros O Hk Hu Hp Hl q Hq Hqu E. unfold process_reap in Hq. assert (Hlive : live_index (Z.of_nat k) s = true).
  { unfold live_index. rewrite (proc_of_nat s k p Hk), Hu, (proj2 (Z.leb_le _ _)), (proj2 (Z.ltb_lt _ _)) by lia. done. }
  rewrite Hlive in Hq. cbn [negb upd_proc set_procs process_table] in Hq. rewrite Nat2Z.id in Hq. apply list_elem_of_lookup in Hq as [j Hj]. destruct (decide (j = k)) as [->|Hne].
  - rewrite list_lookup_alter_eq, Hk in Hj. injection Hj as <-. done.
  - rewrite list_lookup_alter_ne in Hj by done. apply Hne. by eapply (uk_unique _ O j k q p); [..|congruence].
Qed.

(** C17: a process that spawns a child and waits for it.  The spawn returns an identifier no
    process had; the child has the parent's credentials; whatever the child does
    until it has ended, the wait runs it once with the path and the arguments of
    the spawn, returns the code it ended with, removes it from the table, and the
    parent continues in its own context. *)
Theorem spawn_then_wait w spawn_path path args s pid s1 code :
  um_ok s -> next_user_pid s + 1 < pid_bound -> current_process_pid s <> 0 ->
  queue_spawn w path args s = (pid, s1) -> 0 <= pid ->
  child_ended pid (current_process_pid s) code
    (snd (spawn_path (copy_bounded 256 (copy_bounded 256 path)) (copy_bounded 256 (copy_bounded 256 args)) (current_process_pid s) pid s1)) ->
  length (fs_raw_buffer (snd (spawn_path (copy_bounded 256 (copy_bounded 256 path)) (copy_bounded 256 (copy_bounded 256 args)) (current_process_pid s) pid s1))) = length (fs_raw_buffer s1) ->
  (forall p, p ∈ process_table s -> p_used p = true -> p_pid p <> pid) /\
  (exists p, p ∈ process_table s1 /\ p_used p = true /\ p_pid p = pid /\ p_creds p = p_creds (proc s (c_index (active_ctx s)))) /\
  exists s2, proc_wait_service_call w spawn_path (wait_request (current_process_pid s) pid K64_WAIT_BLOCK) s1 = Some (answer_int64 code, s2) /\
    (forall p, p ∈ process_table s2 -> p_used p = true -> p_pid p <> pid) /\
    active_ctx s2 = unlock_off (active_ctx s).
Proof.
  intros O Hn HP Hq Hpid [O2 (k2 & p2 & Hk2 & Hu2 & Hp2 & Hpar2 & Hst2 & Hex2)] Hraw. set (P := current_process_pid s) in *. pose proof (uk_next _ O) as Hnext.
  destruct (queue_spawn_spec w path args s pid s1 O Hn Hq Hpid) as (-> & O1 & Ec1 & (k & p & Hk & Hu & Hp & Hpar & Hst & Hcr) & Hfs & Huniq). set (pid := next_user_pid s) in *.
  split; [intros q Hin Hqu; pose proof (uk_pid _ O q Hin Hqu); unfold pid; lia|]. split.
  { exists p. split_and!; [by eapply list_elem_of_lookup_2|done|done|]. rewrite Hcr. fold P. unfold inherit_process_creds. rewrite (proj2 (Z.eqb_neq P 0)) by done.
    unfold P, current_process_pid in *. destruct (current_live s) eqn:El; [|done]. apply live_index_true in El as [Hi Hul].
    rewrite (find_pid_at s _ _ O (proc_lookup s _ O Hi) Hul), Z2Nat.id by lia. by rewrite (proj2 (Z.ltb_ge _ _)) by lia. }
  assert (Hfind : process_find_pid pid s1 = Z.of_nat k).
  { unfold process_find_pid. rewrite (proj2 (Z.eqb_neq pid 0)) by (unfold pid; lia). cbn [andb]. rewrite <- Hp. by apply find_pid_at. }
  destruct (find_spawn_spec pid s1) as [[E _]|(ks & c & Eks & Hks & Hcu & Hcp)]; [done|].
  assert (Ec : c = mk_spawn true pid P (copy_bounded 256 path) (copy_bounded 256 args)) by (apply Huniq; [by eapply list_elem_of_lookup_2|done|done]).
  set (sp := spawn_path _ _ P pid s1) in *. set (s2 := set_ctx (unlock_off (active_ctx s1)) (snd sp)).
  assert (O2' : um_ok s2) by (apply set_ctx_ok; [done|apply O1|]; cbn; rewrite Hraw; apply O1).
  assert (Hfind2 : forall l, process_find_pid pid (set_spawns l s2) = Z.of_nat k2).
  { intros l. unfold process_find_pid. rewrite (proj2 (Z.eqb_neq pid 0)) by (unfold pid; lia). cbn [andb]. change (find_pid pid (set_spawns l s2)) with (find_pid pid s2). rewrite <- Hp2. by apply find_pid_at. }
  assert (Hrun : run_reserved_child w spawn_path pid P s1 = (K64_OK, clear_spawn_ctx pid s2)).
  { unfold run_reserved_child. rewrite Eks, (proj2 (Z.ltb_ge _ _)) by lia. rewrite Nat2Z.id, nth_lookup, Hks. cbn [default from_option id]. rewrite Ec. cbn [s_parent s_path s_args orb]. rewrite Z.eqb_refl. cbn [negb].
    change K64_USER_SPAWN_ARGS_MAX with 256. fold sp. rewrite (surjective_pairing sp). cbv zeta. fold s2.
    assert (Hf : process_find_pid pid s2 = Z.of_nat k2) by (specialize (Hfind2 (spawn_ctx s2)); by destruct s2). rewrite Hf, (proj2 (Z.ltb_ge _ _)) by lia.
    assert (Es : proc s2 (Z.of_nat k2) = p2) by (by apply proc_of_nat). rewrite Es, (bool_decide_eq_false_2 _ Hst2), andb_false_r. by rewrite Es, (bool_decide_eq_false_2 _ Hst2). }
  assert (Ecl : exists l, clear_spawn_ctx pid s2 = set_spawns l s2) by (unfold clear_spawn_ctx; destruct (_ <? 0); [exists (spawn_ctx s2); by destruct s2|by eexists]). destruct Ecl as [l Ecl].
  assert (Hes : proc (set_spawns l s2) (Z.of_nat k2) = p2) by (by apply proc_of_nat).
  eexists. split; [|split].
  - unfold proc_wait_service_call, wait_request. unfold pid_bound in *.
    destruct (request_words pid K64_WAIT_BLOCK []) as (W1 & W2 & _); [unfold pid; lia|unfold K64_WAIT_BLOCK; lia|]. rewrite app_nil_r in W1, W2.
    change (in_short 16 _ || out_short 8 _) with false. cbv iota. cbn [in_bytes rq_in default from_option id rq_caller]. rewrite W1, W2. cbn [mbind option_bind].
    change (negb (K64_WAIT_BLOCK =? K64_WAIT_BLOCK) && _) with false. cbv iota. rewrite Hfind, (proj2 (Z.ltb_ge _ _)) by lia. rewrite (proc_of_nat s1 k p Hk), Hpar, Z.eqb_refl. cbn [negb].
    rewrite (bool_decide_eq_true_2 _ Hst). change (K64_WAIT_BLOCK =? K64_WAIT_NOHANG) with false. cbv iota. rewrite Hp, Hrun. change (negb (K64_OK =? K64_OK)) with false. cbv iota.
    rewrite Ecl, Hfind2, (proj2 (Z.ltb_ge _ _)) by lia. rewrite Hes, (bool_decide_eq_false_2 _ Hst2), Hex2. done.
  - assert (Ho : um_ok (set_spawns l s2)).
    { rewrite <- Ecl. apply (clear_spawn_ok pid s2 O2'). }
    intros q. apply (reaped_gone pid (set_spawns l s2) k2 p2); [done|done|done|done|]. pose proof (lookup_lt_Some _ _ _ Hk2). rewrite (uk_procs _ O2) in *. done.
  - unfold process_reap. by destruct (negb _); cbn; rewrite Ec1.
Qed.
