(* ===== verification/ProcScenario.v ===== *)
(** * Processes: concrete runs

    Runs of several processes that show what the theorems leave open, and the
    theorems at concrete inputs. *)
From Stdlib Require Import ZArith Lia.
From stdpp Require Import base list.
From S2P Require Import Prelude KString Users UsersSpec UsersRun UsersSession Proc ProcInv PipeRun ProcLife.

(** Two files that everybody may read, a buffer of 64 bytes. *)
Definition file_a : list Z := str "first file".
Definition file_b : list Z := str "other data".
Definition demo_stat (path : list Z) : option file_stat := if same path (str "/a") || same path (str "/b") then Some (mk_stat 0 0 0x1A4) else None.
Definition demo_raw (path raw : list Z) : option Z * list Z :=
  let data := if same path (str "/a") then file_a else file_b in
  if (length data <=? length raw)%nat then (Some (Z.of_nat (length data)), data ++ drop (length data) raw) else (None, raw).
Definition demo_users : k64_user_state_t := mk_users true [] [] (-1) false.
Definition demo_world : world := mk_world 7 None demo_users demo_stat demo_raw (fun _ => []).

Definition boot : um := set_raw (zeros 64) um_init.

Lemma demo_world_ok : world_ok demo_world.
Proof.
  intros path raw. cbn [demo_world w_read_raw]. unfold demo_raw. set (data := if same path (str "/a") then file_a else file_b). destruct (Nat.leb_spec (length data) (length raw)); [|done].
  split; [rewrite length_app, length_drop; lia|lia].
Qed.

Lemma boot_ok : um_ok boot.
Proof.
  split; try (vm_compute; reflexivity); try (vm_compute; split; congruence).
  - apply Forall_replicate. apply no_fds_ok.
  - apply no_fds_ok.
  - intros i j p q Hi _ Hu. change (replicate K64_USER_PROCESS_MAX empty_process !! i = Some p) in Hi. apply lookup_replicate in Hi as [-> _]. done.
  - intros p Hp Hu. change (p ∈ replicate K64_USER_PROCESS_MAX empty_process) in Hp. apply elem_of_replicate in Hp as [-> _]. done.
  - apply Forall_replicate. split; cbn; try done; lia.
  - intros c Hc Hu. change (c ∈ replicate K64_USER_SPAWN_MAX empty_spawn) in Hc. apply elem_of_replicate in Hc as [-> _]. done.
Qed.

(** Requests of 16 bytes and a payload. *)
Definition io_request (a b : Z) (payload : list Z) (out_len : Z) : k64_service_call_request_t :=
  mk_request 0 0 (Some (le_bytes 8 a ++ le_bytes 8 b ++ payload)) (16 + Z.of_nat (length payload)) true out_len.
Definition write_to (fd : Z) (bytes : list Z) : k64_service_call_request_t := io_request fd (Z.of_nat (length bytes)) bytes 8.
Definition read_from (fd n : Z) : k64_service_call_request_t := io_request fd n [] n.
Definition open_path (path : list Z) : k64_service_call_request_t := mk_request 0 0 (Some (path ++ [0])) (Z.of_nat (length path) + 1) true 8.
Definition make_pipe : k64_service_call_request_t := mk_request 0 0 None 0 true 8.

(** Actions of a run: a process starts and becomes active, or the process in a slot
    becomes active, or the active one makes a call or ends. *)
Inductive action := Begin (path : list Z) | Resume (i : Z) | Do (c : io_call) (r : k64_service_call_request_t) | Exit (code : Z) | Remove (i : Z).
Definition demo_ctx (i : Z) : k64_user_exec_context_t := mk_ctx K64_ERR_INVAL true false i (Some 4096) no_fds.
Definition act (a : action) (s : um) : option (reply * um) :=
  match a with
  | Begin path => let '(i, s) := process_alloc demo_world path 4194304 4096 0 0 s in if i <? 0 then None else Some (error i, set_ctx (demo_ctx i) s)
  | Resume i => Some (error 0, set_ctx (demo_ctx i) s)
  | Do c r => io_handler demo_world c r s
  | Exit code => Some (error 0, process_finish demo_world (c_index (active_ctx s)) P_ZOMBIE code s)
  | Remove i => Some (error 0, process_reap i s)
  end.
(** The answers of a run. *)
Fixpoint acts (l : list action) (s : um) : option (list reply * um) :=
  match l with
  | [] => Some ([], s)
  | a :: l => '(r, s) ← act a s; '(rs, s) ← acts l s; Some (r :: rs, s)
  end.
Definition answers (l : list action) : option (list (Z * list Z)) := r ← acts l boot; Some (map (fun rep => (rp_rc rep, rp_bytes rep)) (fst r)).

(** ** Defects *)

(** The file a descriptor was opened for is replaced by the file that is opened
    next. *)
Lemma open_replaces_file :
  answers [Begin (str "/bin/p"); Do IoOpen (open_path (str "/a")); Do IoRead (read_from 3 5); Do IoOpen (open_path (str "/b")); Do IoRead (read_from 3 5)] =
  Some [(0, []); (0, le_bytes 8 3); (5, str "first"); (0, le_bytes 8 4); (5, str " data")].
Proof. vm_compute. reflexivity. Qed.

(** A process that ends without closing its pipe keeps it: after sixteen such
    processes, all removed, nobody can have a pipe. *)
Lemma pipes_leak :
  option_map (fun l => last l) (answers (concat (replicate 16 [Begin (str "/bin/p"); Do IoPipe make_pipe; Exit 0; Remove 0]) ++ [Begin (str "/bin/q"); Do IoPipe make_pipe])) =
  Some (Some (K64_ERR_FULL, [])).
Proof. vm_compute. reflexivity. Qed.

(** A program that was run from the shell stays in the table when it has ended. *)
Definition run_program (s : um) : um := snd (k64_usermode_execute_named demo_world (fun s => (0, s)) true 4096 4194304 8388608 (str "/ex/hello.elf") s).
Lemma ended_programs_fill_table :
  Forall (fun p => p_used p = true /\ p_state p = P_ZOMBIE) (process_table (Nat.iter 64 run_program boot)) /\
  fst (k64_usermode_execute_named demo_world (fun s => (0, s)) true 4096 4194304 8388608 (str "/ex/hello.elf") (Nat.iter 64 run_program boot)) = K64_ERR_FULL.
Proof. split; [apply (bool_decide_unpack _); vm_compute; exact I|vm_compute; reflexivity]. Qed.

(** A call for a pipe that fails for want of a descriptor leaves the read end of
    the freed pipe open: the next process that makes a pipe gets the same one, and
    the first process reads what it writes. *)
Theorem failed_pipe_reads_others :
  answers ([Begin (str "/bin/spy")] ++ replicate 15 (Do IoOpen (open_path (str "/a"))) ++ [Do IoPipe make_pipe;
    Begin (str "/bin/victim"); Do IoPipe make_pipe; Do IoWrite (write_to 4 (str "secret"));
    Resume 0; Do IoRead (read_from 18 6)]) =
  Some ([(0, [])] ++ map (fun k => (0, le_bytes 8 (Z.of_nat k))) (List.seq 3 15) ++ [(K64_ERR_FULL, []);
    (1, []); (0, le_bytes 4 3 ++ le_bytes 4 4); (0, le_bytes 8 6); (0, []); (6, str "secret")]).
Proof. vm_compute. reflexivity. Qed.

(** C40: the length of a write request is checked with wrap-around: a request of sixteen
    bytes without any payload that claims a length of 2^64 - 16 is accepted for
    every empty pipe that has a reader, and 4096 bytes of whatever lies behind the
    request in the kernel's buffer, where requests of other processes were, go into
    the pipe. *)
Theorem write_length_wraps s caller fd i d rest :
  um_ok s -> 0 <= fd < 2 ^ 63 -> get_fd fd s = Some (i, d) -> fd_kind d = FD_PIPE_WRITE -> pipe_ok_index (fd_pipe d) s = true ->
  pi_read_refs (pipe s (fd_pipe d)) <> 0 -> pi_size (pipe s (fd_pipe d)) = 0 -> (4096 <= length rest)%nat ->
  exists s', io_write_service_call (mk_request caller 0 (Some (le_bytes 8 fd ++ le_bytes 8 (2 ^ 64 - 16) ++ rest)) 16 true 8) s = Some (answer_int64 4096, s') /\
    abs s' !! Z.to_nat (fd_pipe d) = Some (Some (take 4096 rest)).
Proof.
  intros O Hfd Hg Hk Hp Hr Hz Hl. set (b := le_bytes 8 fd ++ le_bytes 8 (2 ^ 64 - 16) ++ rest). apply pipe_ok_index_true in Hp as Hp'. destruct Hp' as [Hi Hu].
  assert (Hw := request_words fd (2 ^ 64 - 16) rest ltac:(lia) ltac:(lia)). cbv zeta in Hw. fold b in Hw.
  destruct Hw as (W1 & W2 & W3). unfold io_write_service_call. change (in_short 16 _ || out_short 8 _) with false. cbv iota. cbn [in_bytes rq_in default from_option id rq_in_len]. fold b. rewrite W1, W2, W3. cbn [mbind option_bind].
  change (16 <? u64 (16 + (2 ^ 64 - 16))) with false. cbv iota. assert (Hint : int64 fd = fd) by (unfold int64; rewrite u64_small by lia; by rewrite (proj2 (Z.ltb_lt _ _)) by lia). rewrite Hint.
  assert (H3 : 3 <= fd) by (unfold get_fd in Hg; destruct (Z.ltb_spec fd 3); [done|lia]). rewrite (proj2 (Z.eqb_neq fd 1)), (proj2 (Z.eqb_neq fd 2)) by lia. cbn [orb]. rewrite u64_small by lia. rewrite Hg.
  rewrite (bool_decide_eq_true_2 _ Hk).
  assert (Ew : exists s', write_pipe (fd_pipe d) (2 ^ 64 - 16) rest s = Some (4096, s')).
  { unfold write_pipe. rewrite Hp. cbn [negb]. rewrite (proj2 (Z.eqb_neq _ 0)) by done. rewrite Hz. change (0 =? K64_USER_PIPE_BUFFER_SIZE) with false. cbv iota.
    change (Z.min (2 ^ 64 - 16) (K64_USER_PIPE_BUFFER_SIZE - 0)) with 4096. rewrite (proj2 (Z.ltb_ge _ _)) by lia. by eexists. }
  destruct Ew as [s' Ew]. rewrite Ew. exists s'. split; [done|]. destruct (write_pipe_spec (fd_pipe d) (2 ^ 64 - 16) rest s 4096 s' O ltac:(lia) Ew) as [(H & _)|(_ & _ & _ & R)]; [lia|].
  cbn [replay1] in R. rewrite (abs_lookup s _ O Hi) in R. unfold abs_pipe in R. rewrite Hu in R. assert (Ec : content (pipe s (fd_pipe d)) = []) by (unfold content; by rewrite Hz). rewrite Ec in R. cbn [app] in R.
  destruct (_ <=? _)%nat; [|done]. injection R as <-. apply list_lookup_insert_eq. apply (lookup_lt_Some _ _ (abs_pipe (pipe s (fd_pipe d)))). by apply abs_lookup.
Qed.

(** ** The theorems at concrete inputs *)
Definition after (l : list action) : um := match acts l boot with Some (_, s) => s | None => boot end.

Definition piped : list action := [Begin (str "/bin/p"); Do IoPipe make_pipe].
Definition wrote_abc : list action := piped ++ [Do IoWrite (write_to 4 (str "abc"))].
Definition took_ab : list action := wrote_abc ++ [Do IoRead (read_from 3 2)].

Lemma demo_call l c r rep s' : bytes_ok (in_bytes r) -> io_handler demo_world c r (after l) = Some (rep, s') -> kstep (after l) (events_of c r rep (after l) s') s'.
Proof. intros Hb H. eapply step_call; [apply demo_world_ok|exact Hb|exact H]. Qed.

Lemma write_to_bytes fd b : bytes_ok b -> bytes_ok (in_bytes (write_to fd b)).
Proof. intros H. cbn [write_to io_request in_bytes rq_in default from_option id]. apply Forall_app. split; [apply le_bytes_ok|]. apply Forall_app. split; [apply le_bytes_ok|done]. Qed.
Lemma read_from_bytes fd n : bytes_ok (in_bytes (read_from fd n)).
Proof. apply (write_to_bytes fd []) || (cbn [read_from io_request in_bytes rq_in default from_option id]; apply Forall_app; split; [apply le_bytes_ok|]; apply Forall_app; split; [apply le_bytes_ok|constructor]). Qed.

Lemma started_ok : um_ok (after piped).
Proof.
  assert (H1 : kstep boot [] (after [Begin (str "/bin/p")])).
  { replace (after [Begin (str "/bin/p")]) with (set_ctx (mk_ctx K64_ERR_INVAL true false 0 (Some 4096) no_fds) (snd (process_alloc demo_world (str "/bin/p") 4194304 4096 0 0 boot))) by (vm_compute; reflexivity).
    eapply (step_start demo_world (str "/bin/p") 4194304 4096 0 0 boot 0); [vm_compute; split; congruence|vm_compute; reflexivity|vm_compute; reflexivity|lia]. }
  destruct (kstep_ok _ _ _ boot_ok H1) as [O1 _].
  assert (H2 : kstep (after [Begin (str "/bin/p")]) (events_of IoPipe make_pipe (answer K64_OK (le_bytes 4 3 ++ le_bytes 4 4)) (after [Begin (str "/bin/p")]) (after piped)) (after piped))
    by (apply demo_call; [constructor|vm_compute; reflexivity]).
  apply (kstep_ok _ _ _ O1 H2).
Qed.

Lemma pipe_run : ksteps (after piped) [Wrote 0 (str "abc"); Took 0 (str "ab")] (after took_ab).
Proof.
  assert (H1 : kstep (after piped) [Wrote 0 (str "abc")] (after wrote_abc)).
  { replace [Wrote 0 (str "abc")] with (events_of IoWrite (write_to 4 (str "abc")) (answer_int64 3) (after piped) (after wrote_abc)) by (vm_compute; reflexivity).
    apply demo_call; [apply write_to_bytes; repeat (apply List.Forall_nil || apply List.Forall_cons); vm_compute; split; congruence|vm_compute; reflexivity]. }
  assert (H2 : kstep (after wrote_abc) [Took 0 (str "ab")] (after took_ab)).
  { replace [Took 0 (str "ab")] with (events_of IoRead (read_from 3 2) (mk_reply 2 (str "ab") 2) (after wrote_abc) (after took_ab)) by (vm_compute; reflexivity).
    apply demo_call; [apply read_from_bytes|vm_compute; reflexivity]. }
  exact (ksteps_cons _ [Wrote 0 (str "abc")] _ _ _ H1 (ksteps_one _ _ _ H2)).
Qed.

Lemma pipes_are_queues_witness :
  um_ok (after took_ab) /\ replay [Wrote 0 (str "abc"); Took 0 (str "ab")] (abs (after piped)) = Some (abs (after took_ab)) /\
  exists q, abs (after took_ab) !! 0%nat = Some (Some q) /\ str "abc" = str "ab" ++ q /\ (length q <= 4096)%nat.
Proof.
  destruct (pipes_are_queues (after piped) [Wrote 0 (str "abc"); Took 0 (str "ab")] (after took_ab) started_ok pipe_run) as (H1 & H2 & H3). split; [exact H1|]. split; [exact H2|].
  apply (H3 0%nat); [vm_compute; reflexivity|]. intros [[=]|[[=]|[]%not_elem_of_nil]%elem_of_cons]%elem_of_cons.
Defined.

Lemma write_length_wraps_witness :
  exists s', io_write_service_call (mk_request 5000 0 (Some (le_bytes 8 4 ++ le_bytes 8 (2 ^ 64 - 16) ++ replicate 4096 88)) 16 true 8) (after piped) = Some (answer_int64 4096, s') /\
    abs s' !! 0%nat = Some (Some (take 4096 (replicate 4096 88))).
Proof.
  apply (write_length_wraps (after piped) 5000 4 1 (mk_fd true FD_PIPE_WRITE 0 0 0) (replicate 4096 88)).
  - exact started_ok.
  - lia.
  - vm_compute. reflexivity.
  - reflexivity.
  - vm_compute. reflexivity.
  - vm_compute. discriminate.
  - vm_compute. reflexivity.
  - rewrite length_replicate. lia.
Defined.

(** A child that ends with the code 7 at once. *)
Definition demo_spawn (path args : list Z) (parent pid : Z) (s : um) : bool * um :=
  let '(r, s) := k64_usermode_execute_named_ex demo_world (fun s => (7, s)) true 8192 4194304 8388608 path parent pid s in (true, s).

Definition spawned : Z * um := queue_spawn demo_world (str "/bin/child") (str "x") (after piped).
Abbreviation child_done := (snd (demo_spawn (str "/bin/child") (str "x") 5000 5001 (snd spawned))).

Lemma spawned_ok : um_ok (snd spawned).
Proof. apply (queue_spawn_ok demo_world (str "/bin/child") (str "x") (after piped) started_ok). vm_compute. reflexivity. Qed.

Lemma child_done_ok : um_ok child_done.
Proof.
  unfold demo_spawn. destruct (execute_steps demo_world (fun s => (7, s)) true 8192 4194304 8388608 (str "/bin/child") 5000 5001 (snd spawned) spawned_ok) as [l H].
  - vm_compute. split; congruence.
  - vm_compute. reflexivity.
  - intros s _. exists []. constructor.
  - destruct (k64_usermode_execute_named_ex _ _ _ _ _ _ _ _ _ _) as [r s]. cbn [snd] in *. apply (ksteps_ok _ _ _ spawned_ok H).
Qed.

Lemma spawn_then_wait_witness :
  (forall p, p ∈ process_table (after piped) -> p_used p = true -> p_pid p <> 5001) /\
  (exists p, p ∈ process_table (snd spawned) /\ p_used p = true /\ p_pid p = 5001 /\ p_creds p = p_creds (proc (after piped) (c_index (active_ctx (after piped))))) /\
  exists s2, proc_wait_service_call demo_world demo_spawn (wait_request (current_process_pid (after piped)) 5001 K64_WAIT_BLOCK) (snd spawned) = Some (answer_int64 7, s2) /\
    (forall p, p ∈ process_table s2 -> p_used p = true -> p_pid p <> 5001) /\
    active_ctx s2 = unlock_off (active_ctx (after piped)).
Proof.
  assert (EP : current_process_pid (after piped) = 5000) by (vm_compute; reflexivity).
  assert (Ep : copy_bounded 256 (copy_bounded 256 (str "/bin/child")) = str "/bin/child") by (vm_compute; reflexivity).
  assert (Ea : copy_bounded 256 (copy_bounded 256 (str "x")) = str "x") by (vm_compute; reflexivity).
  apply (spawn_then_wait demo_world demo_spawn (str "/bin/child") (str "x") (after piped) 5001 (snd spawned) 7).
  - exact started_ok.
  - vm_compute. reflexivity.
  - vm_compute. discriminate.
  - vm_compute. reflexivity.
  - lia.
  - rewrite EP, Ep, Ea. split; [exact child_done_ok|]. eexists 1%nat, _. split; [vm_compute; reflexivity|]. vm_compute. split_and!; try reflexivity. discriminate.
  - rewrite EP, Ep, Ea. vm_compute. reflexivity.
Defined.
