(* ===== verification/Svc.v ===== *)
(** * Services, service calls and messages ([k64_system.c], the system call gate of
    [k64_usermode.c])

    Services are registered, started and stopped; they own commands and calls.  A
    call is checked against the state of its owner and the rights of the caller and
    then goes to a handler of the kernel or, as a message, to a program of the
    service.  System calls reach the dispatcher through buffers of the kernel.

    Function pointers are numbers; what they do, what runs in user mode and user
    memory are parameters.  Log output is left out.  [managed_pid] of a service is
    always its [pid]. *)
From Stdlib Require Import ZArith Lia.
From stdpp Require Import base list.
From S2P Require Import Prelude KString Users Proc.

Definition K64_MAX_SERVICES : Z := 32.
Definition K64_MAX_SERVICE_COMMANDS : nat := 96.
Definition K64_MAX_SERVICE_CALLS : nat := 128.
Definition K64_MAX_SERVICE_MESSAGES : nat := 8.
Definition K64_SERVICE_CALL_NAME_MAX : Z := 32.
Definition K64_SERVICE_CALL_OWNER_MAX : Z := 32.
Definition K64_SERVICE_CALL_PAYLOAD_MAX : Z := 65536.
Definition K64_SERVICE_MSG_DATA_MAX : Z := 65400.
Definition K64_SERVICE_FLAG_AUTOSTART : Z := 2.
Definition K64_SERVICE_FLAG_ESSENTIAL : Z := 4.
Definition K64_SERVICE_FLAG_RING3_REQUIRED : Z := 8.
Definition K64_SERVICE_CALL_FLAG_PUBLIC : Z := 1.
Definition K64_SERVICE_CALL_FLAG_KERNEL_ONLY : Z := 2.
Definition K64_SERVICE_CALL_FLAG_ROOT_ONLY : Z := 4.
Definition K64_SERVICE_CALL_FLAG_USER_ALLOWED : Z := 8.
Definition K64_SERVICE_CALLER_KERNEL : Z := 1.
Definition K64_SERVICE_CALLER_ROOT : Z := 2.

Inductive k64_service_class_t := CLASS_KERNEL | CLASS_SYSTEM | CLASS_ROOT | CLASS_USER.
#[export] Instance service_class_eq : EqDecision k64_service_class_t.
Proof. solve_decision. Defined.
Inductive k64_service_result_t :=
| SERVICE_OK | SERVICE_ERR_NOT_FOUND | SERVICE_ERR_ALREADY_RUNNING | SERVICE_ERR_ALREADY_STOPPED | SERVICE_ERR_ESSENTIAL | SERVICE_ERR_UNMANAGED | SERVICE_ERR_START_FAILED.
Inductive k64_service_msg_state_t := MSG_EMPTY | MSG_PENDING | MSG_ACTIVE | MSG_DONE.
#[export] Instance msg_state_eq : EqDecision k64_service_msg_state_t.
Proof. solve_decision. Defined.
Inductive k64_service_call_backend_t := BACKEND_KERNEL | BACKEND_RING3_MESSAGE.

Record k64_service_t := mk_service {
  sv_pid : Z; sv_name : list Z; sv_source : list Z; sv_class : k64_service_class_t; sv_running : bool; sv_flags : Z; sv_priority : Z; sv_interval : Z;
  sv_starts : Z; sv_stops : Z; sv_last_start : Z; sv_last_poll : Z; sv_user_pid : Z; sv_controllable : bool; sv_ring3_required : bool; sv_ring3_verified : bool;
  sv_entry_path : list Z; sv_start : nat; sv_stop : nat; sv_space : bool
}.
Definition set_verified (b : bool) (v : k64_service_t) : k64_service_t :=
  mk_service (sv_pid v) (sv_name v) (sv_source v) (sv_class v) (sv_running v) (sv_flags v) (sv_priority v) (sv_interval v) (sv_starts v) (sv_stops v)
    (sv_last_start v) (sv_last_poll v) (sv_user_pid v) (sv_controllable v) (sv_ring3_required v) b (sv_entry_path v) (sv_start v) (sv_stop v) (sv_space v).
Definition set_space (b : bool) (v : k64_service_t) : k64_service_t :=
  mk_service (sv_pid v) (sv_name v) (sv_source v) (sv_class v) (sv_running v) (sv_flags v) (sv_priority v) (sv_interval v) (sv_starts v) (sv_stops v)
    (sv_last_start v) (sv_last_poll v) (sv_user_pid v) (sv_controllable v) (sv_ring3_required v) (sv_ring3_verified v) (sv_entry_path v) (sv_start v) (sv_stop v) b.
Definition set_started (now : Z) (v : k64_service_t) : k64_service_t :=
  mk_service (sv_pid v) (sv_name v) (sv_source v) (sv_class v) true (sv_flags v) (sv_priority v) (sv_interval v) (u64 (sv_starts v + 1)) (sv_stops v)
    now now (sv_user_pid v) (sv_controllable v) (sv_ring3_required v) (sv_ring3_verified v) (sv_entry_path v) (sv_start v) (sv_stop v) (sv_space v).
Definition set_stopped (v : k64_service_t) : k64_service_t :=
  mk_service (sv_pid v) (sv_name v) (sv_source v) (sv_class v) false (sv_flags v) (sv_priority v) (sv_interval v) (sv_starts v) (u64 (sv_stops v + 1))
    (sv_last_start v) 0 (sv_user_pid v) (sv_controllable v) (sv_ring3_required v) (sv_ring3_verified v) (sv_entry_path v) (sv_start v) (sv_stop v) (sv_space v).
Definition set_released (v : k64_service_t) : k64_service_t :=
  mk_service (sv_pid v) (sv_name v) (sv_source v) (sv_class v) (sv_running v) (sv_flags v) (sv_priority v) (sv_interval v) (sv_starts v) (sv_stops v)
    (sv_last_start v) (sv_last_poll v) 0 (sv_controllable v) (sv_ring3_required v) false (sv_entry_path v) (sv_start v) (sv_stop v) false.
Definition set_halted (v : k64_service_t) : k64_service_t :=
  mk_service (sv_pid v) (sv_name v) (sv_source v) (sv_class v) false (sv_flags v) (sv_priority v) (sv_interval v) (sv_starts v) (sv_stops v)
    (sv_last_start v) (sv_last_poll v) (sv_user_pid v) (sv_controllable v) (sv_ring3_required v) (sv_ring3_verified v) (sv_entry_path v) (sv_start v) (sv_stop v) (sv_space v).

(** The handler of a command or call is [None] for [NULL]. *)
Record k64_service_command_t := mk_command { cm_name : list Z; cm_owner : list Z; cm_handler : option nat; cm_active : bool }.
Definition no_command : k64_service_command_t := mk_command [] [] None false.
Record k64_service_call_t := mk_call { cl_owner : list Z; cl_name : list Z; cl_flags : Z; cl_backend : k64_service_call_backend_t; cl_handler : option nat; cl_active : bool }.
Definition no_call : k64_service_call_t := mk_call [] [] 0 BACKEND_KERNEL None false.

Record k64_service_msg_t := mk_msg {
  ms_state : k64_service_msg_state_t; ms_id : Z; ms_caller : Z; ms_uid : Z; ms_flags : Z; ms_service_pid : Z; ms_service : list Z; ms_method : list Z;
  ms_request : list Z; ms_response : list Z; ms_capacity : Z; ms_status : Z
}.
Definition service_msg_clear : k64_service_msg_t := mk_msg MSG_EMPTY 0 0 0 0 0 [] [] [] [] 0 K64_ERR_BUSY.

Record svc := mk_svc {
  services : list k64_service_t;
  service_commands : list k64_service_command_t;
  service_calls : list k64_service_call_t;
  service_msgs : list k64_service_msg_t;
  next_request_id : Z;
  next_system_pid : Z;
  next_root_pid : Z;
  next_service_user_pid : Z
}.
Definition set_services (l : list k64_service_t) (v : svc) : svc :=
  mk_svc l (service_commands v) (service_calls v) (service_msgs v) (next_request_id v) (next_system_pid v) (next_root_pid v) (next_service_user_pid v).
Definition set_commands (l : list k64_service_command_t) (v : svc) : svc :=
  mk_svc (services v) l (service_calls v) (service_msgs v) (next_request_id v) (next_system_pid v) (next_root_pid v) (next_service_user_pid v).
Definition set_calls (l : list k64_service_call_t) (v : svc) : svc :=
  mk_svc (services v) (service_commands v) l (service_msgs v) (next_request_id v) (next_system_pid v) (next_root_pid v) (next_service_user_pid v).
Definition set_msgs (l : list k64_service_msg_t) (n : Z) (v : svc) : svc :=
  mk_svc (services v) (service_commands v) (service_calls v) l n (next_system_pid v) (next_root_pid v) (next_service_user_pid v).
Definition upd_service (i : Z) (f : k64_service_t -> k64_service_t) (v : svc) : svc := set_services (alter f (Z.to_nat i) (services v)) v.

Definition k64_system_registry_init : svc :=
  mk_svc [] (replicate K64_MAX_SERVICE_COMMANDS no_command) (replicate K64_MAX_SERVICE_CALLS no_call) (replicate K64_MAX_SERVICE_MESSAGES service_msg_clear) 1 1000 2000 3000.

(** ** Names *)
Definition name_char (c : Z) : bool :=
  ((97 <=? c) && (c <=? 122)) || ((65 <=? c) && (c <=? 90)) || ((48 <=? c) && (c <=? 57)) || (c =? 95) || (c =? 45) || (c =? 46).
Definition name_valid (name : list Z) (max_len : Z) : bool := negb (empty name) && (Z.of_nat (length name) <? max_len) && forallb name_char name.
Definition copy_name (size : Z) (s : list Z) : list Z := take (Z.to_nat (size - 1)) s.

Fixpoint starts_with (text prefix : list Z) : bool :=
  match prefix, text with
  | [], _ => true
  | p :: prefix, c :: text => (c =? p) && starts_with text prefix
  | _ :: _, [] => false
  end.
Fixpoint path_has_traversal (path : list Z) : bool :=
  match path with
  | 46 :: rest => match rest with 46 :: _ => true | _ => path_has_traversal rest end
  | _ :: rest => path_has_traversal rest
  | [] => false
  end.
Definition has_suffix (text suffix : list Z) : bool :=
  if (length text <? length suffix)%nat then false else same (drop (length text - length suffix) text) suffix.

(** Up to a full stop, then up to a blank; [None] for [false]. *)
Fixpoint split_at (stop : Z -> bool) (s : list Z) : list Z * list Z :=
  match s with
  | [] => ([], [])
  | c :: t => if stop c then ([], s) else let '(a, b) := split_at stop t in (c :: a, b)
  end.
Definition split_service_method (text : list Z) (service_size method_size : Z) : option (list Z * list Z) :=
  let '(service, rest) := split_at (fun c => c =? 46) text in
  match rest with
  | [] => None
  | _ :: rest =>
      if service_size <=? Z.of_nat (length service) then None else
      let '(method, _) := split_at is_blank rest in
      if method_size <=? Z.of_nat (length method) then None
      else if empty service || empty method then None else Some (service, method)
  end.

(** ** Services *)
Definition k64_system_find_service (pid : Z) (v : svc) : Z := find_index (fun s => sv_pid s =? pid) (services v) 0.
Definition k64_system_find_service_by_name (name : list Z) (v : svc) : Z := find_index (fun s => same (sv_name s) name) (services v) 0.
Definition service_at (i : Z) (v : svc) : option k64_service_t := getZ (services v) i.
Definition service_named (name : list Z) (v : svc) : option k64_service_t := service_at (k64_system_find_service_by_name name v) v.
Definition k64_system_service_count (v : svc) : Z := Z.of_nat (length (services v)).
Definition service_is_ring0_kernel (class_id : k64_service_class_t) (name : list Z) : bool := bool_decide (class_id = CLASS_KERNEL) && same name (str "kernel").

Definition allocate_pid (class_id : k64_service_class_t) (v : svc) : Z * svc :=
  let next a b c := mk_svc (services v) (service_commands v) (service_calls v) (service_msgs v) (next_request_id v) a b c in
  match class_id with
  | CLASS_KERNEL => (0, v)
  | CLASS_ROOT => (next_root_pid v, next (next_system_pid v) (u64 (next_root_pid v + 1)) (next_service_user_pid v))
  | CLASS_USER => (next_service_user_pid v, next (next_system_pid v) (next_root_pid v) (u64 (next_service_user_pid v + 1)))
  | CLASS_SYSTEM => (next_system_pid v, next (u64 (next_system_pid v + 1)) (next_root_pid v) (next_service_user_pid v))
  end.

(** The index of the new service, or [None] for [NULL]. *)
Definition k64_system_register_service (name source : list Z) (class_id : k64_service_class_t) (flags priority interval : Z) (controllable : bool) (start stop : nat) (v : svc) : option Z * svc :=
  if K64_MAX_SERVICES <=? k64_system_service_count v then (None, v) else
  let class_id := if bool_decide (class_id = CLASS_KERNEL) && negb (same name (str "kernel")) then CLASS_SYSTEM else class_id in
  let i := k64_system_service_count v in
  let '(pid, v) := allocate_pid class_id v in
  let stored := copy_name 32 name in
  let kernel := service_is_ring0_kernel class_id stored in
  let s := mk_service pid stored (copy_name 48 source) class_id false (if kernel then flags else Z.lor flags K64_SERVICE_FLAG_RING3_REQUIRED) priority interval 0 0 0 0 0
             controllable (negb kernel) kernel (if kernel then [] else str "/ex/servicehost.elf") start stop false in
  (Some i, set_services (services v ++ [s]) v).

Definition k64_system_register_command (owner command : list Z) (handler : option nat) (v : svc) : bool * svc :=
  let i := find_index (fun c => negb (cm_active c)) (service_commands v) 0 in
  if i <? 0 then (false, v) else (true, set_commands (<[Z.to_nat i := mk_command (copy_name 16 command) (copy_name 32 owner) handler true]> (service_commands v)) v).
Definition k64_system_unregister_commands (owner : list Z) (v : svc) : svc :=
  set_commands (map (fun c => if cm_active c && same (cm_owner c) owner then no_command else c) (service_commands v)) v.

Definition is_call (owner name : list Z) (c : k64_service_call_t) : bool := cl_active c && same (cl_owner c) owner && same (cl_name c) name.
Definition backend_ok (backend : k64_service_call_backend_t) (handler : option nat) : bool := match backend, handler with BACKEND_KERNEL, None => false | _, _ => true end.
Definition k64_system_register_call_backend (owner name : list Z) (flags : Z) (backend : k64_service_call_backend_t) (handler : option nat) (v : svc) : bool * svc :=
  if negb (name_valid owner K64_SERVICE_CALL_OWNER_MAX) || negb (name_valid name K64_SERVICE_CALL_NAME_MAX) || negb (backend_ok backend handler) then (false, v)
  else if existsb (is_call owner name) (service_calls v) then (false, v) else
  let i := find_index (fun c => negb (cl_active c)) (service_calls v) 0 in
  if i <? 0 then (false, v)
  else (true, set_calls (<[Z.to_nat i := mk_call (copy_name K64_SERVICE_CALL_OWNER_MAX owner) (copy_name K64_SERVICE_CALL_NAME_MAX name) flags backend handler true]> (service_calls v)) v).
Definition k64_system_register_call (owner name : list Z) (flags : Z) (handler : option nat) (v : svc) : bool * svc :=
  k64_system_register_call_backend owner name flags BACKEND_KERNEL handler v.
Definition k64_system_unregister_calls (owner : list Z) (v : svc) : svc :=
  set_calls (map (fun c => if cl_active c && same (cl_owner c) owner then no_call else c) (service_calls v)) v.
Definition k64_system_call_exists (owner name : list Z) (v : svc) : bool := existsb (is_call owner name) (service_calls v).
Definition k64_system_is_service_running (name : list Z) (v : svc) : bool := match service_named name v with Some s => sv_running s | None => false end.
Definition k64_system_control_plane_online (v : svc) : bool := k64_system_is_service_running (str "servicectl") v.

(** ** Starting and stopping *)

(** The buffers of system calls, and the state of the kernel as the calls see it. *)
Record k64_user_service_scratch_t := mk_scratch { sc_used : bool; sc_owner : Z; sc_in : list Z; sc_out : list Z }.
Record kernel := mk_kernel { k_svc : svc; k_um : um; k_scratch : list k64_user_service_scratch_t }.
Definition put_svc (v : svc) (k : kernel) : kernel := mk_kernel v (k_um k) (k_scratch k).
Definition put_um (s : um) (k : kernel) : kernel := mk_kernel (k_svc k) s (k_scratch k).
Definition put_scratch (l : list k64_user_service_scratch_t) (k : kernel) : kernel := mk_kernel (k_svc k) (k_um k) l.
Definition svc_map (f : svc -> svc) (k : kernel) : kernel := put_svc (f (k_svc k)) k.

(** What function pointers do, programs and memory. *)
Record outside := mk_outside {
  o_world : world;
  (** the start and stop functions of services, the handlers of commands and of calls *)
  o_start : nat -> kernel -> bool * kernel;
  o_stop : nat -> kernel -> kernel;
  o_command : nat -> list Z -> kernel -> bool * kernel;
  o_handler : nat -> k64_service_call_request_t -> kernel -> option (reply * kernel);
  (** [k64_elf_spawn_user_path_args_ex] with its process identifiers 0, and
      [k64_elf_execute_user_path_args] *)
  o_spawn : list Z -> list Z -> kernel -> bool * kernel;
  o_execute : list Z -> list Z -> kernel -> bool * kernel;
  (** [k64_vmm_alloc_service_space] *)
  o_space : kernel -> bool;
  (** [k64_vmm_read_user] and [k64_vmm_write_user] on an address space *)
  o_read : Z -> Z -> Z -> kernel -> option (list Z);
  o_write : Z -> Z -> list Z -> kernel -> bool * kernel
}.

Section system.
Context (o : outside).
(** The number of [rootfs_service_start], which makes a space of its own. *)
Context (rootfs_service_start : nat).

Definition service_verify_ring3_host (i : Z) (k : kernel) : bool * kernel :=
  match service_at i (k_svc k) with
  | None => (false, k)
  | Some s =>
      if sv_ring3_verified s then (true, k)
      else if service_is_ring0_kernel (sv_class s) (sv_name s) then (true, svc_map (upd_service i (set_verified true)) k) else
      let entry := if empty (sv_entry_path s) then str "/ex/servicehost.elf" else sv_entry_path s in
      let args := copy_name 64 (if empty (sv_name s) then str "service" else sv_name s) in
      let '(ok, k) := o_execute o entry args k in
      if negb ok then (false, k) else (true, svc_map (upd_service i (set_verified true)) k)
  end.

Definition perform_start (i : Z) (k : kernel) : bool * kernel :=
  match service_at i (k_svc k) with
  | None => (false, k)
  | Some s =>
      let need := negb (sv_space s) && negb (sv_start s =? rootfs_service_start)%nat in
      if need && negb (o_space o k) then (false, k) else
      let k := if need then svc_map (upd_service i (set_space true)) k else k in
      let k := svc_map (upd_service i (set_verified false)) k in
      let '(ok, k) := o_start o (sv_start s) k in
      if negb ok then (false, svc_map (upd_service i (set_space false)) k) else
      let '(ok, k) := if sv_ring3_required s then service_verify_ring3_host i k else (true, k) in
      if negb ok then
        (false, svc_map (fun v => upd_service i (set_space false) (k64_system_unregister_calls (sv_name s) (k64_system_unregister_commands (sv_name s) v))) k)
      else (true, svc_map (upd_service i (set_started (w_ticks (o_world o)))) k)
  end.

Definition perform_stop (i : Z) (k : kernel) : kernel :=
  match service_at i (k_svc k) with
  | None => k
  | Some s =>
      let k := o_stop o (sv_stop s) k in
      let k := svc_map (upd_service i set_stopped) k in
      svc_map (fun v => upd_service i set_released (k64_system_unregister_calls (sv_name s) (k64_system_unregister_commands (sv_name s) v))) k
  end.

Definition k64_system_start_service (pid : Z) (k : kernel) : k64_service_result_t * kernel :=
  let i := k64_system_find_service pid (k_svc k) in
  match service_at i (k_svc k) with
  | None => (SERVICE_ERR_NOT_FOUND, k)
  | Some s =>
      if sv_running s then (SERVICE_ERR_ALREADY_RUNNING, k)
      else if negb (sv_controllable s) then (SERVICE_ERR_UNMANAGED, k) else
      let '(ok, k) := perform_start i k in
      (if ok then SERVICE_OK else SERVICE_ERR_START_FAILED, k)
  end.
Definition k64_system_start_service_by_name (name : list Z) (k : kernel) : k64_service_result_t * kernel :=
  match service_named name (k_svc k) with
  | None => (SERVICE_ERR_NOT_FOUND, k)
  | Some s => k64_system_start_service (sv_pid s) k
  end.
Definition k64_system_stop_service (pid : Z) (k : kernel) : k64_service_result_t * kernel :=
  let i := k64_system_find_service pid (k_svc k) in
  match service_at i (k_svc k) with
  | None => (SERVICE_ERR_NOT_FOUND, k)
  | Some s =>
      if negb (sv_running s) then (SERVICE_ERR_ALREADY_STOPPED, k)
      else if negb (Z.land (sv_flags s) K64_SERVICE_FLAG_ESSENTIAL =? 0) then (SERVICE_ERR_ESSENTIAL, k)
      else if negb (sv_controllable s) then (SERVICE_ERR_UNMANAGED, k)
      else (SERVICE_OK, perform_stop i k)
  end.
Definition k64_system_restart_service (pid : Z) (k : kernel) : k64_service_result_t * kernel :=
  let '(result, k) := k64_system_stop_service pid k in
  match result with SERVICE_OK => k64_system_start_service pid k | _ => (result, k) end.

Definition k64_system_result_string (r : k64_service_result_t) : list Z :=
  match r with
  | SERVICE_OK => str "ok" | SERVICE_ERR_NOT_FOUND => str "service not found" | SERVICE_ERR_ALREADY_RUNNING => str "service already running"
  | SERVICE_ERR_ALREADY_STOPPED => str "service already stopped" | SERVICE_ERR_ESSENTIAL => str "essential service cannot be stopped"
  | SERVICE_ERR_UNMANAGED => str "service cannot be controlled" | SERVICE_ERR_START_FAILED => str "service start failed"
  end.

(** [for (size_t i = 0; i < service_count; ++i)] *)
Definition for_services (f : Z -> k64_service_t -> kernel -> kernel) (k : kernel) : kernel :=
  fold_left (fun k i => match service_at (Z.of_nat i) (k_svc k) with Some s => f (Z.of_nat i) s k | None => k end) (List.seq 0 (length (services (k_svc k)))) k.

Definition k64_system_verify_ring3_services (k : kernel) : kernel :=
  for_services (fun i s k =>
    if negb (sv_running s) || negb (sv_ring3_required s) || sv_ring3_verified s then k else
    let '(ok, k) := service_verify_ring3_host i k in
    if ok then k
    else svc_map (fun v => k64_system_unregister_calls (sv_name s) (k64_system_unregister_commands (sv_name s) (upd_service i set_halted v))) k) k.

Definition k64_system_bootstrap (k : kernel) : kernel :=
  let k := for_services (fun i s k =>
    if negb (Z.land (sv_flags s) K64_SERVICE_FLAG_AUTOSTART =? 0) && negb (sv_running s) then snd (perform_start i k) else k) k in
  let i := k64_system_find_service_by_name (str "init") (k_svc k) in
  if i <? 0 then k else
  let '(ok, k) := perform_start i k in
  if ok then perform_stop i k else k.

(** ** Commands *)
Definition may_serve (s : k64_service_t) : bool := bool_decide (sv_class s = CLASS_KERNEL) || (sv_ring3_required s && sv_ring3_verified s).
Definition k64_system_dispatch_command (command args : list Z) (k : kernel) : bool * kernel :=
  let v := k_svc k in
  let i := find_index (fun c => cm_active c && negb (bool_decide (cm_handler c = None)) && same (cm_name c) command) (service_commands v) 0 in
  match getZ (service_commands v) i with
  | Some (mk_command _ owner (Some h) _) =>
      match service_named owner v with
      | Some s => if negb (sv_running s) || negb (may_serve s) then (false, k) else o_command o h args k
      | None => (false, k)
      end
  | _ => (false, k)
  end.

(** ** Messages *)
Definition msg_empty (m : k64_service_msg_t) : bool := bool_decide (ms_state m = MSG_EMPTY).
Definition msg_at (i : Z) (v : svc) : k64_service_msg_t := nth (Z.to_nat i) (service_msgs v) service_msg_clear.
Definition upd_msg (i : Z) (m : k64_service_msg_t) (v : svc) : svc := set_msgs (<[Z.to_nat i := m]> (service_msgs v)) (next_request_id v) v.

Definition service_msg_alloc (v : svc) : Z * svc :=
  let i := find_index msg_empty (service_msgs v) 0 in
  if i <? 0 then (i, v) else
  let next := u64 (next_request_id v + 1) in
  let next := if next =? 0 then 1 else next in
  (i, set_msgs (<[Z.to_nat i := mk_msg MSG_PENDING (next_request_id v) 0 0 0 0 [] [] [] [] 0 K64_ERR_BUSY]> (service_msgs v)) next v).
Definition service_msg_find (id : Z) (v : svc) : Z :=
  if id =? 0 then -1 else find_index (fun m => negb (msg_empty m) && (ms_id m =? id)) (service_msgs v) 0.

Definition has_flag (flags bit : Z) : bool := negb (Z.land flags bit =? 0).
Definition caller_uid (caller_flags : Z) (k : kernel) : Z :=
  if has_flag caller_flags K64_SERVICE_CALLER_KERNEL then 0 else k64_usermode_current_effective_uid (o_world o) (k_um k).

(** [k64_usermode_execute_nested_path_args] *)
Definition execute_nested (path args : list Z) (k : kernel) : bool * kernel :=
  if empty path then (false, k) else
  let saved := active_ctx (k_um k) in
  let '(ok, k) := o_spawn o path args k in
  (ok, put_um (set_ctx (unlock_off saved) (k_um k)) k).

(** [in] is the request, [None] for [NULL]; a length without a buffer, which would
    send the bytes of an earlier request, has no result. *)
Definition dispatch_ring3_message_call (owner : k64_service_t) (call : k64_service_call_t) (input : option (list Z)) (in_len : Z) (out : bool) (out_len caller_pid caller_flags : Z) (k : kernel) : option (reply * kernel) :=
  if K64_SERVICE_MSG_DATA_MAX <? in_len then Some (error K64_ERR_INVAL, k)
  else if empty (sv_entry_path owner) then Some (error K64_ERR_NOENT, k) else
  let '(i, v) := service_msg_alloc (k_svc k) in
  if i <? 0 then Some (error K64_ERR_BUSY, k) else
  request ← (match input with Some b => take_bytes b 0 in_len | None => if in_len =? 0 then Some [] else None end);
  let msg := mk_msg MSG_PENDING (ms_id (msg_at i v)) caller_pid (caller_uid caller_flags k) caller_flags 0 (copy_name K64_SERVICE_CALL_OWNER_MAX (cl_owner call))
               (copy_name K64_SERVICE_CALL_NAME_MAX (cl_name call)) request [] (Z.min out_len K64_SERVICE_MSG_DATA_MAX) K64_ERR_BUSY in
  let '(ran, k) := execute_nested (sv_entry_path owner) (sv_name owner) (put_svc (upd_msg i msg v) k) in
  let m := msg_at i (k_svc k) in
  let k' := svc_map (upd_msg i service_msg_clear) k in
  if negb ran || negb (bool_decide (ms_state m = MSG_DONE)) then Some (error K64_ERR_BUSY, k') else
  let len := Z.of_nat (length (ms_response m)) in
  if (0 <=? ms_status m) && (out_len <? len) then Some (mk_reply K64_ERR_OVERFLOW [] len, k')
  else if (0 <=? ms_status m) && out then Some (mk_reply (ms_status m) (ms_response m) len, k')
  else Some (mk_reply (ms_status m) [] len, k').

Definition pad (n : nat) (s : list Z) : list Z := s ++ zeros (n - length s).
Definition header_bytes (m : k64_service_msg_t) : list Z :=
  concat (map (le_bytes 8) [ms_id m; ms_caller m; ms_uid m; Z.of_nat (length (ms_request m)); ms_capacity m; ms_flags m]) ++ pad 32 (ms_service m) ++ pad 32 (ms_method m).

Definition current_process_is_service_host (s : k64_service_t) (k : kernel) : bool :=
  negb (empty (sv_entry_path s)) && match k64_usermode_current_path 96 (k_um k) with Some p => same p (sv_entry_path s) | None => false end.

Definition set_active (pid : Z) (m : k64_service_msg_t) : k64_service_msg_t :=
  mk_msg MSG_ACTIVE (ms_id m) (ms_caller m) (ms_uid m) (ms_flags m) pid (ms_service m) (ms_method m) (ms_request m) (ms_response m) (ms_capacity m) (ms_status m).
Definition set_done (status : Z) (response : list Z) (m : k64_service_msg_t) : k64_service_msg_t :=
  mk_msg MSG_DONE (ms_id m) (ms_caller m) (ms_uid m) (ms_flags m) (ms_service_pid m) (ms_service m) (ms_method m) (ms_request m) response (ms_capacity m) status.

Definition kernel_handler := k64_service_call_request_t -> kernel -> option (reply * kernel).

Definition svc_recv_call : kernel_handler := fun r k =>
  if in_short 1 r || (K64_SERVICE_CALL_OWNER_MAX <? rq_in_len r) || out_short 112 r then Some (error K64_ERR_INVAL, k)
  else if bad_path r then Some (error K64_ERR_INVAL, k) else
  name ← c_string (in_bytes r);
  if negb (name_valid name K64_SERVICE_CALL_OWNER_MAX) then Some (error K64_ERR_INVAL, k) else
  match service_named name (k_svc k) with
  | None => Some (error K64_ERR_NOENT, k)
  | Some s =>
      if negb (sv_running s) then Some (error K64_ERR_NOENT, k)
      else if negb (current_process_is_service_host s k) then Some (error K64_ERR_ACCESS, k) else
      let i := find_index (fun m => bool_decide (ms_state m = MSG_PENDING) && same (ms_service m) name) (service_msgs (k_svc k)) 0 in
      if i <? 0 then Some (error K64_ERR_AGAIN, k) else
      let m := msg_at i (k_svc k) in
      Some (answer K64_OK (header_bytes m ++ ms_request m), svc_map (upd_msg i (set_active (rq_caller r) m)) k)
  end.

Definition svc_reply_call : kernel_handler := fun r k =>
  if in_short 24 r then Some (error K64_ERR_INVAL, k) else
  id ← word_at 0 (in_bytes r);
  status ← word_at 8 (in_bytes r);
  len ← word_at 16 (in_bytes r);
  if (K64_SERVICE_MSG_DATA_MAX <? len) || (rq_in_len r <? 24 + len) then Some (error K64_ERR_OVERFLOW, k) else
  let i := service_msg_find id (k_svc k) in
  let m := msg_at i (k_svc k) in
  if (i <? 0) || negb (bool_decide (ms_state m = MSG_ACTIVE)) then Some (error K64_ERR_NOENT, k)
  else if negb (ms_service_pid m =? rq_caller r) then Some (error K64_ERR_ACCESS, k) else
  data ← take_bytes (in_bytes r) 24 len;
  let m := if ms_capacity m <? len then set_done K64_ERR_OVERFLOW [] m else set_done (int64 status) data m in
  Some (error K64_OK, svc_map (upd_msg i m) k).

(** ** The dispatcher *)

(** The rights of the caller. *)
Definition call_refused (flags caller_flags : Z) : bool :=
  (has_flag flags K64_SERVICE_CALL_FLAG_KERNEL_ONLY && negb (has_flag caller_flags K64_SERVICE_CALLER_KERNEL)) ||
  (has_flag flags K64_SERVICE_CALL_FLAG_ROOT_ONLY && negb (has_flag caller_flags (Z.lor K64_SERVICE_CALLER_ROOT K64_SERVICE_CALLER_KERNEL))) ||
  (negb (has_flag caller_flags K64_SERVICE_CALLER_KERNEL) && negb (has_flag flags (Z.lor K64_SERVICE_CALL_FLAG_PUBLIC K64_SERVICE_CALL_FLAG_USER_ALLOWED))).

Definition k64_system_dispatch_call (service method : list Z) (input : option (list Z)) (in_len : Z) (out : bool) (out_len caller_pid caller_flags : Z) (k : kernel) : option (reply * kernel) :=
  if negb (name_valid service K64_SERVICE_CALL_OWNER_MAX) || negb (name_valid method K64_SERVICE_CALL_NAME_MAX) ||
     (K64_SERVICE_CALL_PAYLOAD_MAX <? in_len) || (K64_SERVICE_CALL_PAYLOAD_MAX <? out_len) then Some (error K64_ERR_INVAL, k) else
  match getZ (service_calls (k_svc k)) (find_index (is_call service method) (service_calls (k_svc k)) 0) with
  | None => Some (error K64_ERR_NOENT, k)
  | Some call =>
      match service_named (cl_owner call) (k_svc k) with
      | None => Some (error K64_ERR_NOENT, k)
      | Some owner =>
          if negb (sv_running owner) then Some (error K64_ERR_NOENT, k)
          else if negb (may_serve owner) then Some (error K64_ERR_ACCESS, k)
          else if call_refused (cl_flags call) caller_flags then Some (error K64_ERR_ACCESS, k)
          else match cl_backend call, cl_handler call with
               | BACKEND_RING3_MESSAGE, _ => dispatch_ring3_message_call owner call input in_len out out_len caller_pid caller_flags k
               | BACKEND_KERNEL, None => Some (error K64_ERR_NOENT, k)
               | BACKEND_KERNEL, Some h => o_handler o h (mk_request caller_pid caller_flags input in_len out out_len) k
               end
      end
  end.

(** ** The gate *)
Definition user_read (ptr n : Z) (k : kernel) : option (list Z) :=
  if n =? 0 then Some [] else match c_space (active_ctx (k_um k)) with Some sp => o_read o sp ptr n k | None => None end.
Definition user_write (ptr : Z) (data : list Z) (k : kernel) : bool * kernel :=
  if empty data then (true, k) else match c_space (active_ctx (k_um k)) with Some sp => o_write o sp ptr data k | None => (false, k) end.

(** [n] bytes may still be read. *)
Fixpoint read_name (n : nat) (ptr : Z) (k : kernel) : Z * list Z :=
  match n with
  | O => (K64_ERR_INVAL, [])
  | S n =>
      match user_read ptr 1 k with
      | Some [c] => if c =? 0 then (K64_OK, []) else let '(rc, s) := read_name n (u64 (ptr + 1)) k in (rc, c :: s)
      | _ => (K64_ERR_FAULT, [])
      end
  end.
Definition copy_user_service_name (ptr out_size : Z) (k : kernel) : Z * list Z :=
  if ptr =? 0 then (K64_ERR_FAULT, []) else
  let '(rc, s) := read_name (Z.to_nat (out_size - 1)) ptr k in
  if rc =? K64_OK then (if name_valid s out_size then K64_OK else K64_ERR_INVAL, s) else (rc, s).

Definition service_scratch_acquire (owner : Z) (k : kernel) : Z * kernel :=
  let i := find_index (fun c => negb (sc_used c)) (k_scratch k) 0 in
  if i <? 0 then (i, k) else (i, put_scratch (alter (fun c => mk_scratch true owner (sc_in c) (sc_out c)) (Z.to_nat i) (k_scratch k)) k).
Definition service_scratch_release (i : Z) (k : kernel) : kernel :=
  put_scratch (alter (fun c => mk_scratch false 0 (sc_in c) (sc_out c)) (Z.to_nat i) (k_scratch k)) k.
Definition scratch_at (i : Z) (k : kernel) : k64_user_service_scratch_t := nth (Z.to_nat i) (k_scratch k) (mk_scratch false 0 [] []).

(** The call block: seven words. *)
Definition block_word (b : list Z) (i : nat) : Z := le_value (take 8 (drop (8 * i) b)).

(** The result, and whether the process has ended. *)
Definition syscall_service_call (user_call_ptr : Z) (k : kernel) : option (Z * bool * kernel) :=
  let fail rc k := Some (rc, false, k) in
  if user_call_ptr =? 0 then fail K64_ERR_FAULT k else
  match user_read user_call_ptr 56 k with
  | None => fail K64_ERR_FAULT k
  | Some b =>
      let '(rc, service) := copy_user_service_name (block_word b 0) K64_SERVICE_CALL_OWNER_MAX k in
      if negb (rc =? K64_OK) then fail rc k else
      let '(rc, method) := copy_user_service_name (block_word b 1) K64_SERVICE_CALL_NAME_MAX k in
      if negb (rc =? K64_OK) then fail rc k else
      let request := block_word b 2 in
      let request_len := block_word b 3 in
      let response := block_word b 4 in
      let response_len := block_word b 5 in
      if (K64_SERVICE_CALL_PAYLOAD_MAX <? request_len) || (K64_SERVICE_CALL_PAYLOAD_MAX <? response_len) then fail K64_ERR_OVERFLOW k
      else if (negb (request_len =? 0) && (request =? 0)) || (negb (response_len =? 0) && (response =? 0)) then fail K64_ERR_FAULT k else
      let caller := current_process_pid (k_um k) in
      let '(i, k) := service_scratch_acquire caller k in
      if i <? 0 then fail K64_ERR_BUSY k else
      match user_read request request_len k with
      | None => fail K64_ERR_FAULT (service_scratch_release i k)
      | Some req =>
          let in_buf := splice (sc_in (scratch_at i k)) 0 req in
          let out_buf := splice (sc_out (scratch_at i k)) 0 (zeros (Z.to_nat response_len)) in
          let k := put_scratch (alter (fun c => mk_scratch (sc_used c) (sc_owner c) in_buf out_buf) (Z.to_nat i) (k_scratch k)) k in
          '(rep, k) ← k64_system_dispatch_call service method (if request_len =? 0 then None else Some in_buf) request_len (negb (response_len =? 0)) response_len caller 0 k;
          let out_buf := splice out_buf 0 (rp_bytes rep) in
          let k := put_scratch (alter (fun c => mk_scratch (sc_used c) (sc_owner c) (sc_in c) out_buf) (Z.to_nat i) (k_scratch k)) k in
          let rc := rp_rc rep in
          let rc := if (0 <=? rc) && (response_len <? rp_actual rep) then K64_ERR_OVERFLOW else rc in
          let '(rc, k) :=
            if (0 <=? rc) && negb (response_len =? 0) && negb (rp_actual rep =? 0) then
              let '(ok, k) := user_write response (take (Z.to_nat (rp_actual rep)) out_buf) k in (if ok then rc else K64_ERR_FAULT, k)
            else (rc, k) in
          Some (rc, (rc =? K64_OK) && same service (str "proc") && same method (str "exit"), service_scratch_release i k)
      end
  end.

(** What [k64_user_return_asm] ends is [true]: the program does not go on. *)
Definition K64_SYSCALL_EXIT : Z := 0.
Definition K64_SYSCALL_SERVICE_CALL : Z := 25.
Definition K64_ERR_NOSYS : Z := -8.
Definition k64_usermode_syscall_handler (rax rdi : Z) (k : kernel) : option (Z * bool * kernel) :=
  if negb (c_active (active_ctx (k_um k))) then Some (K64_ERR_INVAL, false, k)
  else if rax =? K64_SYSCALL_EXIT then Some (int64 rdi, true, put_um (usermode_emergency_exit (o_world o) (int64 rdi) (k_um k)) k)
  else if rax =? K64_SYSCALL_SERVICE_CALL then syscall_service_call rdi k
  else Some (K64_ERR_NOSYS, false, k).

End system.

(** ** Programs of services *)

(** The process identifier it returns is 0 always; [execute] is
    [k64_elf_execute_user_path_args]. *)
Definition k64_service_spawn_helper (execute : list Z -> list Z -> kernel -> bool * kernel) (owner path args : list Z) (k : kernel) : Z * kernel :=
  if empty path || path_has_traversal path then (K64_ERR_INVAL, k)
  else if negb (k64_system_is_service_running owner (k_svc k)) then (K64_ERR_NOENT, k)
  else if negb (starts_with path (str "/ex/")) && negb (starts_with path (str "/k64s/")) && negb (starts_with path (str "/svc/")) then (K64_ERR_ACCESS, k)
  else let '(ok, k) := execute path args k in (if ok then K64_OK else K64_ERR_NOENT, k).
Definition svc_demo_run_call (execute : list Z -> list Z -> kernel -> bool * kernel) : kernel_handler := fun r k =>
  if negb (has_flag (rq_flags r) K64_SERVICE_CALLER_KERNEL) then Some (error K64_ERR_ACCESS, k) else
  let '(rc, k) := k64_service_spawn_helper execute (str "svc") (str "/ex/childexit.elf") [] k in
  if negb (rc =? K64_OK) then Some (error rc, k)
  else if rq_out r && (8 <=? rq_out_len r) then Some (answer K64_OK (le_bytes 8 0), k) else Some (error K64_OK, k).
