(* ===== verification/SvcSpec.v ===== *)
(** * Services: the registry and the gate

    The table of calls implements a finite map of bounded size; what a user program
    does through the gate does not depend on the calls that are closed to it; a
    service that was stopped serves nothing. *)
From Stdlib Require Import ZArith Lia.
From stdpp Require Import base list gmap.
From S2P Require Import Prelude KString Users UsersSpec UsersRun UsersSession Proc Svc.

(** ** The calls as a map *)
Definition call_key : Type := list Z * list Z.
Abbreviation call_map := (gmap call_key k64_service_call_t).
Definition key (c : k64_service_call_t) : call_key := (cl_owner c, cl_name c).
Definition active (l : list k64_service_call_t) : list k64_service_call_t := List.filter cl_active l.
Definition keyed (l : list k64_service_call_t) : list (call_key * k64_service_call_t) := map (fun c => (key c, c)) l.

(** The operations of the registry. *)
Inductive registration :=
| Register (owner name : list Z) (flags : Z) (backend : k64_service_call_backend_t) (handler : option nat)
| Unregister (owner : list Z).
Definition register_one (g : registration) (v : svc) : bool * svc :=
  match g with
  | Register owner name flags backend handler => k64_system_register_call_backend owner name flags backend handler v
  | Unregister owner => (true, k64_system_unregister_calls owner v)
  end.
(** What they promise: a map that holds at most [K64_MAX_SERVICE_CALLS] calls. *)
Definition register_spec (g : registration) (m : call_map) : bool * call_map :=
  match g with
  | Register owner name flags backend handler =>
      if name_valid owner K64_SERVICE_CALL_OWNER_MAX && name_valid name K64_SERVICE_CALL_NAME_MAX && backend_ok backend handler &&
         bool_decide (m !! (owner, name) = None) && (size m <? K64_MAX_SERVICE_CALLS)%nat
      then (true, <[(owner, name) := mk_call owner name flags backend handler true]> m) else (false, m)
  | Unregister owner => (true, base.filter (fun e => e.1.1 <> owner) m)
  end.
Fixpoint registrations (l : list registration) (v : svc) : list bool * svc :=
  match l with [] => ([], v) | g :: l => let '(b, v) := register_one g v in let '(bs, v) := registrations l v in (b :: bs, v) end.
Fixpoint registrations_spec (l : list registration) (m : call_map) : list bool * call_map :=
  match l with [] => ([], m) | g :: l => let '(b, m) := register_spec g m in let '(bs, m) := registrations_spec l m in (b :: bs, m) end.
(** What the dispatcher finds. *)
Definition find_call (owner name : list Z) (v : svc) : option k64_service_call_t :=
  getZ (service_calls v) (find_index (is_call owner name) (service_calls v) 0).

Record represents (v : svc) (m : call_map) : Prop := {
  rep_keys : NoDup (keyed (active (service_calls v))).*1;
  rep_map : m = list_to_map (keyed (active (service_calls v)));
  rep_length : length (service_calls v) = K64_MAX_SERVICE_CALLS
}.

Lemma is_call_spec owner name c : is_call owner name c = true <-> cl_active c = true /\ key c = (owner, name).
Proof.
  unfold is_call, key. rewrite !andb_true_iff. destruct (same_spec (cl_owner c) owner), (same_spec (cl_name c) name); split; intros H; destruct_and?; simplify_eq; try done.
Qed.

Lemma elem_active c l : c ∈ active l <-> c ∈ l /\ cl_active c = true.
Proof. unfold active. rewrite !list_elem_of_In. apply filter_In. Qed.
Lemma elem_keyed p l : p ∈ keyed l <-> p.1 = key p.2 /\ p.2 ∈ l.
Proof.
  unfold keyed. rewrite list_elem_of_fmap. split; [by intros (c & -> & Hc)|]. destruct p as [q c]. cbn. intros [-> Hc]. by exists c.
Qed.

Lemma find_call_map v m owner name : represents v m -> find_call owner name v = m !! (owner, name).
Proof.
  intros [Hnd -> _]. unfold find_call. destruct (find_index_spec (is_call owner name) (service_calls v) 0 ltac:(lia)) as [[-> HF]|(k & c & -> & Hk & Hc & _)].
  - symmetry. apply not_elem_of_list_to_map_1. intros ((q & c) & Hqq & [Hq [Hc Ha]%elem_active]%elem_keyed)%list_elem_of_fmap. rewrite Forall_forall in HF. specialize (HF c Hc).
    cbn in *. assert (is_call owner name c = true) by (apply is_call_spec; split; [done|congruence]). congruence.
  - rewrite Z.add_0_l, getZ_of_nat, Hk. symmetry. apply is_call_spec in Hc as [Ha Hkey]. apply elem_of_list_to_map_1; [done|]. apply elem_keyed. split; [symmetry; exact Hkey|].
    apply elem_active. split; [|done]. by eapply list_elem_of_lookup_2.
Qed.

Lemma call_exists_map v m owner name : represents v m -> existsb (is_call owner name) (service_calls v) = bool_decide (is_Some (m !! (owner, name))).
Proof.
  intros H. rewrite <- (find_call_map v m owner name H). unfold find_call. destruct (find_index_spec (is_call owner name) (service_calls v) 0 ltac:(lia)) as [[-> HF]|(k & c & -> & Hk & Hc & _)].
  - rewrite bool_decide_eq_false_2 by (intros [? ?]; done). apply not_true_is_false. intros (c & Hc & Hi)%existsb_exists. rewrite Forall_forall in HF. rewrite HF in Hi; [done|]. by apply list_elem_of_In.
  - rewrite Z.add_0_l, getZ_of_nat, Hk. rewrite bool_decide_eq_true_2 by done. apply existsb_exists. exists c. split; [|done]. apply list_elem_of_In. by eapply list_elem_of_lookup_2.
Qed.

Lemma active_insert l i c d : l !! i = Some d -> cl_active d = false -> cl_active c = true -> active (<[i := c]> l) ≡ₚ c :: active l.
Proof.
  intros Hi Hd Hc. rewrite insert_take_drop by by eapply lookup_lt_Some. rewrite <- (take_drop_middle l i d Hi) at 3. unfold active. rewrite !List.filter_app. cbn [List.filter]. rewrite Hc, Hd.
  by rewrite Permutation_middle.
Qed.

Lemma represents_size v m : represents v m -> size m = length (active (service_calls v)).
Proof. intros [Hnd -> _]. rewrite map_size_list_to_map by done. unfold keyed. by rewrite length_map. Qed.

Lemma active_full l : Forall (fun c => negb (cl_active c) = false) l -> active l = l.
Proof. induction 1 as [|c l Hc _ IH]; [done|]. unfold active in *. cbn. destruct (cl_active c); [by rewrite IH|done]. Qed.

Lemma active_short l i d : l !! i = Some d -> cl_active d = false -> (length (active l) < length l)%nat.
Proof.
  intros Hi Hd. rewrite <- (take_drop_middle l i d Hi). unfold active. rewrite List.filter_app, !length_app. cbn [List.filter]. rewrite Hd. cbn [length].
  pose proof (filter_length_le cl_active (take i l)). pose proof (filter_length_le cl_active (drop (S i) l)). lia.
Qed.

Lemma copy_valid n s : name_valid s n = true -> copy_name n s = s.
Proof. unfold name_valid, copy_name. intros [[_ H%Z.ltb_lt]%andb_true_iff _]%andb_true_iff. apply take_ge. lia. Qed.

Lemma register_represents owner name flags backend handler v m : represents v m ->
  let g := Register owner name flags backend handler in
  fst (register_one g v) = fst (register_spec g m) /\ represents (snd (register_one g v)) (snd (register_spec g m)).
Proof.
  intros HR. cbn [register_one register_spec]. unfold k64_system_register_call_backend. rewrite (call_exists_map v m) by done.
  destruct (name_valid owner _) eqn:E1; [|done]. destruct (name_valid name _) eqn:E2; [|done]. destruct (backend_ok backend handler); [|done]. cbn [negb orb andb].
  destruct (m !! (owner, name)) as [c|] eqn:Em; [by rewrite bool_decide_eq_true_2|]. rewrite bool_decide_eq_false_2 by (intros [? ?]; done).
  rewrite bool_decide_eq_true_2 by done. cbn [andb]. rewrite (represents_size v m HR). destruct HR as [Hnd Hm Hlen].
  destruct (find_index_spec (fun c => negb (cl_active c)) (service_calls v) 0 ltac:(lia)) as [[-> HF]|(k & d & -> & Hk & Hd%negb_true_iff & _)].
  - rewrite (active_full _ HF), Hlen. by rewrite Nat.ltb_irrefl.
  - rewrite (proj2 (Z.ltb_ge _ _)) by lia. pose proof (active_short _ _ _ Hk Hd) as Hs. rewrite Hlen in Hs. rewrite (proj2 (Nat.ltb_lt _ _)) by done. split; [done|]. rewrite !copy_valid by done.
    cbn [snd]. set (c := mk_call _ _ _ _ _ _). assert (Hperm : keyed (active (<[Z.to_nat (0 + Z.of_nat k) := c]> (service_calls v))) ≡ₚ ((owner, name), c) :: keyed (active (service_calls v))).
    { rewrite Z.add_0_l, Nat2Z.id. unfold keyed. by rewrite (active_insert _ _ c d Hk Hd). }
    assert (Hnd' : NoDup (((owner, name), c) :: keyed (active (service_calls v))).*1).
    { cbn. apply NoDup_cons. split; [|done]. rewrite Hm in Em. by apply not_elem_of_list_to_map_2 in Em. }
    split; cbn [service_calls set_calls].
    + by rewrite Hperm.
    + rewrite (list_to_map_proper _ (((owner, name), c) :: keyed (active (service_calls v)))) by (rewrite ?Hperm; done). cbn. by rewrite Hm.
    + by rewrite length_insert.
Qed.

Lemma active_unregister owner l :
  active (map (fun c => if cl_active c && same (cl_owner c) owner then no_call else c) l) = List.filter (fun c => negb (same (cl_owner c) owner)) (active l).
Proof.
  induction l as [|c l IH]; [done|]. unfold active in *. cbn. destruct (cl_active c) eqn:E; cbn; [|by rewrite E, IH]. destruct (same (cl_owner c) owner) eqn:F; cbn; [done|]. by rewrite E, IH.
Qed.

Lemma keyed_filter owner l : NoDup (keyed l).*1 ->
  NoDup (keyed (List.filter (fun c => negb (same (cl_owner c) owner)) l)).*1 /\
  (list_to_map (keyed (List.filter (fun c => negb (same (cl_owner c) owner)) l)) : call_map) = base.filter (fun e => e.1.1 <> owner) (list_to_map (keyed l) : call_map).
Proof.
  induction l as [|c l IH]; [by cbn; rewrite (map_filter_empty (M := gmap call_key))|]. cbn. intros [Hn Hnd]%NoDup_cons. destruct (IH Hnd) as [IH1 IH2]. rewrite map_filter_insert. destruct (same_spec (cl_owner c) owner) as [E|E]; cbn.
  - rewrite decide_False by (cbn; tauto). split; [done|]. rewrite delete_id; [done|]. by apply not_elem_of_list_to_map_1.
  - rewrite decide_True by done. split; [|by apply (f_equal (insert _ _))]. apply NoDup_cons. split; [|done]. intros ((q & d) & Hq & [Hkey Hd]%elem_keyed)%list_elem_of_fmap. apply Hn.
    apply list_elem_of_fmap. exists (q, d). split; [done|]. apply elem_keyed. split; [done|]. cbn in *. rewrite list_elem_of_In in *. by apply filter_In in Hd as [Hd _].
Qed.

Lemma registration_represents g v m : represents v m ->
  fst (register_one g v) = fst (register_spec g m) /\ represents (snd (register_one g v)) (snd (register_spec g m)).
Proof.
  intros HR. destruct g as [owner name flags backend handler|owner]; [by apply register_represents|]. split; [done|]. destruct HR as [Hnd Hm Hlen].
  destruct (keyed_filter owner _ Hnd) as [H1 H2]. split; cbn [register_one register_spec snd k64_system_unregister_calls set_calls service_calls].
  - by rewrite active_unregister.
  - by rewrite active_unregister, Hm, H2.
  - by rewrite length_map.
Qed.

Lemma registrations_represent l : forall v m, represents v m ->
  fst (registrations l v) = fst (registrations_spec l m) /\ represents (snd (registrations l v)) (snd (registrations_spec l m)).
Proof.
  induction l as [|g l IH]; intros v m HR; [done|]. destruct (registration_represents g v m HR) as [H1 H2]. cbn [registrations registrations_spec].
  destruct (register_one g v) as [b v'], (register_spec g m) as [b' m']. cbn [fst snd] in *. subst b'. destruct (IH v' m' H2) as [H3 H4].
  destruct (registrations l v') as [bs w], (registrations_spec l m') as [bs' w']. cbn [fst snd] in *. by subst bs'.
Qed.

Lemma init_represents : represents k64_system_registry_init ∅.
Proof. split; vm_compute; [constructor|reflexivity|reflexivity]. Qed.

(** C25: the table of service calls implements a finite map from a service and a
    method to a call, of at most 128 calls.  After any registrations and removals
    since the start, every one of them had the result the map gives (a registration
    is refused exactly when a name is not valid, the call has no handler where it
    needs one, the call exists or the map is full), and the dispatcher finds in the
    table what is in the map. *)
Theorem calls_refine_map l :
  let '(results, v) := registrations l k64_system_registry_init in
  let '(promised, m) := registrations_spec l ∅ in
  results = promised /\
  forall owner name, find_call owner name v = m !! (owner, name) /\ k64_system_call_exists owner name v = bool_decide (is_Some (m !! (owner, name))).
Proof.
  destruct (registrations_represent l _ _ init_represents) as [H1 H2]. destruct (registrations l _) as [bs v], (registrations_spec l ∅) as [bs' m]. cbn [fst snd] in *.
  split; [done|]. intros owner name. split; [by apply find_call_map|]. unfold k64_system_call_exists. by apply call_exists_map.
Qed.

(** ** The gate *)

(** The bits of a call that users may make: public or allowed to users, and neither
    for the kernel nor for root only. *)
Definition open_flags (flags : Z) : bool := (Z.testbit flags 0 || Z.testbit flags 3) && negb (Z.testbit flags 1) && negb (Z.testbit flags 2).

Lemma has_flag_bit flags n : 0 <= n -> has_flag flags (2 ^ n) = Z.testbit flags n.
Proof.
  intros Hn. unfold has_flag. destruct (Z.testbit flags n) eqn:E.
  - destruct (Z.eqb_spec (Z.land flags (2 ^ n)) 0) as [H|H]; [|done]. exfalso. apply (f_equal (fun z => Z.testbit z n)) in H. rewrite Z.land_spec, E, Z.pow2_bits_true, Z.bits_0 in H by done. done.
  - rewrite (proj2 (Z.eqb_eq _ _)); [done|]. apply Z.bits_inj'. intros i Hi. rewrite Z.land_spec, Z.bits_0. destruct (Z.eq_dec n i) as [<-|Hne]; [by rewrite E|].
    rewrite Z.pow2_bits_false by done. by rewrite andb_false_r.
Qed.
Lemma has_flag_or flags a b : has_flag flags (Z.lor a b) = has_flag flags a || has_flag flags b.
Proof.
  unfold has_flag. rewrite Z.land_lor_distr_r. destruct (Z.eqb_spec (Z.land flags a) 0) as [->|Ha]; [by rewrite Z.lor_0_l|].
  rewrite (proj2 (Z.eqb_neq _ _)); [done|]. intros [? _]%Z.lor_eq_0_iff. done.
Qed.

(** The policy for callers without rights. *)
Lemma call_refused_user flags : call_refused flags 0 = negb (open_flags flags).
Proof.
  unfold call_refused, open_flags. rewrite !has_flag_or. change (has_flag 0 _) with false.
  rewrite (has_flag_bit flags 0 ltac:(lia) : has_flag flags K64_SERVICE_CALL_FLAG_PUBLIC = _), (has_flag_bit flags 1 ltac:(lia) : has_flag flags K64_SERVICE_CALL_FLAG_KERNEL_ONLY = _),
    (has_flag_bit flags 2 ltac:(lia) : has_flag flags K64_SERVICE_CALL_FLAG_ROOT_ONLY = _), (has_flag_bit flags 3 ltac:(lia) : has_flag flags K64_SERVICE_CALL_FLAG_USER_ALLOWED = _).
  by destruct (Z.testbit flags 0), (Z.testbit flags 1), (Z.testbit flags 2), (Z.testbit flags 3).
Qed.

(** The handlers that a user program can reach: of a registered call with open flags
    whose service runs and has passed the check of its program. *)
Definition reachable (h : nat) (v : svc) : Prop := exists c s,
  c ∈ service_calls v /\ cl_active c = true /\ cl_handler c = Some h /\ open_flags (cl_flags c) = true /\
  service_named (cl_owner c) v = Some s /\ sv_running s = true /\ (sv_class s = CLASS_KERNEL \/ sv_ring3_verified s = true).

(** The same system with another kernel side: other handlers, commands and services. *)
Definition with_kernel (o : outside) start stop command handlers execute space : outside :=
  mk_outside (o_world o) start stop command handlers (o_spawn o) execute space (o_read o) (o_write o).

Section gate.
Context (o : outside).
Context (start : nat -> kernel -> bool * kernel) (stop : nat -> kernel -> kernel) (command : nat -> list Z -> kernel -> bool * kernel).
Context (handlers : nat -> k64_service_call_request_t -> kernel -> option (reply * kernel)) (execute : list Z -> list Z -> kernel -> bool * kernel) (space : kernel -> bool).
Abbreviation o' := (with_kernel o start stop command handlers execute space).

Lemma find_call_elem owner name v c : find_call owner name v = Some c -> c ∈ service_calls v /\ cl_active c = true.
Proof.
  unfold find_call. destruct (find_index_spec (is_call owner name) (service_calls v) 0 ltac:(lia)) as [[-> _]|(k & d & -> & Hk & Hd & _)]; [done|].
  rewrite Z.add_0_l, getZ_of_nat, Hk. intros [= <-]. apply is_call_spec in Hd as [Hd _]. split; [by eapply list_elem_of_lookup_2|done].
Qed.

Lemma dispatch_confined service method input in_len out out_len pid k : (forall h, reachable h (k_svc k) -> handlers h = o_handler o h) ->
  k64_system_dispatch_call o' service method input in_len out out_len pid 0 k = k64_system_dispatch_call o service method input in_len out out_len pid 0 k.
Proof.
  intros HR. unfold k64_system_dispatch_call. destruct (_ || _) eqn:E0; [done|]. change (getZ (service_calls (k_svc k)) _) with (find_call service method (k_svc k)).
  destruct (find_call service method (k_svc k)) as [c|] eqn:Ec; [|done]. destruct (service_named (cl_owner c) (k_svc k)) as [s|] eqn:Es; [|done].
  destruct (sv_running s) eqn:Er; [|done]. destruct (may_serve s) eqn:Em; [|done]. rewrite call_refused_user. destruct (open_flags (cl_flags c)) eqn:Ef; [|done]. cbn [negb].
  destruct (cl_backend c); [|done]. destruct (cl_handler c) as [h|] eqn:Eh; [|done]. cbn [o_handler with_kernel]. rewrite HR; [done|].
  destruct (find_call_elem _ _ _ _ Ec). exists c, s. split_and!; try done. unfold may_serve in Em. rewrite orb_true_iff, bool_decide_eq_true, andb_true_iff in Em. tauto.
Qed.

(** C29: no right is gained at the gate.  Whatever system call a user program makes,
    its result and the state it leaves do not depend on the handlers of calls that
    are for the kernel or root only or not open to users, of services that are
    stopped or not checked, nor on commands or the start and stop functions: with
    all of them replaced, the gate does the same.  (Programs that run as the host of
    a service are the same in both.) *)
Theorem gate_confined rax rdi k : (forall h, reachable h (k_svc k) -> handlers h = o_handler o h) ->
  k64_usermode_syscall_handler o' rax rdi k = k64_usermode_syscall_handler o rax rdi k.
Proof.
  intros HR. unfold k64_usermode_syscall_handler. destruct (negb _); [done|]. destruct (rax =? K64_SYSCALL_EXIT); [done|]. destruct (rax =? K64_SYSCALL_SERVICE_CALL); [|done].
  unfold syscall_service_call. change (user_read o') with (user_read o). change (user_write o') with (user_write o). change (copy_user_service_name o') with (copy_user_service_name o).
  destruct (rdi =? 0); [done|]. destruct (user_read o rdi 56 k) as [b|]; [|done]. destruct (copy_user_service_name o (block_word b 0) _ k) as [rc service]. destruct (negb (rc =? K64_OK)); [done|].
  destruct (copy_user_service_name o (block_word b 1) _ k) as [rc' method]. destruct (negb (rc' =? K64_OK)); [done|]. destruct (_ || _); [done|]. destruct (_ || _); [done|].
  destruct (service_scratch_acquire _ k) as [i k1] eqn:Ea. assert (Hk : k_svc k1 = k_svc k) by (unfold service_scratch_acquire in Ea; destruct (_ <? 0); by injection Ea as <- <-).
  destruct (i <? 0); [done|]. destruct (user_read o (block_word b 2) (block_word b 3) k1); [|done]. rewrite dispatch_confined; [done|]. intros h Hh. apply HR. by rewrite <- Hk.
Qed.
End gate.
