(* ===== verification/SvcMsg.v ===== *)
(** * Services: messages to the program of a service ([k64_system.c],
    [userland/bin/demosvc.c], [userland/lib/k64libc.c])

    A call with the message backend is stored, the program of the service is run,
    takes the message and answers it, and the answer is the result of the call. *)
From Stdlib Require Import ZArith Lia.
From stdpp Require Import base list.
From S2P Require Import Prelude KString Users UsersSpec UsersRun UsersSession Proc ProcInv PipeRun Svc SvcSpec.

(** ** The program of a service *)

(** [upper_copy] *)
Definition upper_copy (s : list Z) : list Z := map (fun c => if (97 <=? c) && (c <=? 122) then c - 97 + 65 else c) s.
(** What [main] of [demosvc.c] answers: the status and the bytes. *)
Definition demosvc_answer (pid : Z) (method data : list Z) : Z * list Z :=
  if same method (str "echo") then (K64_OK, data)
  else if same method (str "upper") then (K64_OK, upper_copy data)
  else if same method (str "pid") then (K64_OK, le_bytes 8 (u64 pid))
  else (K64_ERR_NOENT, []).

(** [k64_service_recv] and [k64_service_reply]: the requests they make. *)
Definition recv_request (pid : Z) (service : list Z) : k64_service_call_request_t :=
  mk_request pid 0 (Some (service ++ [0])) (Z.of_nat (length service) + 1) true (112 + K64_SERVICE_MSG_DATA_MAX).
Definition reply_request (pid id status : Z) (data : list Z) : k64_service_call_request_t :=
  mk_request pid 0 (Some (le_bytes 8 id ++ le_bytes 8 (u64 status) ++ le_bytes 8 (Z.of_nat (length data)) ++ data)) (24 + Z.of_nat (length data)) false 0.

(** A program that takes one message and answers it with [f]: [main] of
    [demosvc.c] with [demosvc_answer]. *)
Definition host_main (f : list Z -> list Z -> Z * list Z) (pid : Z) (service : list Z) (k : kernel) : option kernel :=
  '(got, k) ← svc_recv_call (recv_request pid service) k;
  if negb (rp_rc got =? K64_OK) then Some k else
  let msg := rp_bytes got in
  method ← c_string (drop 80 msg);
  let '(status, data) := f method (take (Z.to_nat (block_word msg 3)) (drop 112 msg)) in
  if K64_SERVICE_MSG_DATA_MAX <? Z.of_nat (length data) then Some k else
  '(_, k) ← svc_reply_call (reply_request pid (block_word msg 0) status data) k;
  Some k.

(** ** Searching and copying *)
Lemma find_index_only {A} (p : A -> bool) l i x : l !! i = Some x -> p x = true -> (forall j y, j <> i -> l !! j = Some y -> p y = false) -> find_index p l 0 = Z.of_nat i.
Proof.
  intros Hi Hx Ho. destruct (find_index_spec p l 0 ltac:(lia)) as [[_ HF]|(k & y & -> & Hk & Hy & _)].
  - rewrite Forall_forall in HF. specialize (HF x (list_elem_of_lookup_2 _ _ _ Hi)). congruence.
  - destruct (decide (k = i)) as [->|Hne]; [lia|]. rewrite (Ho k y Hne Hk) in Hy. done.
Qed.

Lemma c_string_app s t : Forall (fun c => c <> 0) s -> c_string (s ++ 0 :: t) = Some s.
Proof. induction 1 as [|c s Hc _ IH]; cbn; [done|]. rewrite (proj2 (Z.eqb_neq _ _)) by done. by rewrite IH. Qed.

Lemma name_chars s n : name_valid s n = true -> s <> [] /\ Z.of_nat (length s) < n /\ Forall (fun c => c <> 0) s.
Proof.
  unfold name_valid. rewrite !andb_true_iff, negb_true_iff, Z.ltb_lt. intros [[H1 H2] H3]. split_and!; [by destruct s|done|]. rewrite forallb_forall in H3.
  apply Forall_forall. intros c Hc ->. specialize (H3 0 (proj1 (list_elem_of_In _ _) Hc)). done.
Qed.

Lemma block_word_app i ws rest w : (forall j x, ws !! j = Some x -> 0 <= x < 2 ^ 64) -> ws !! i = Some w -> block_word (concat (map (le_bytes 8) ws) ++ rest) i = w.
Proof.
  revert i. induction ws as [|x ws IH]; intros i Hr Hw; [done|]. destruct i as [|i]; unfold block_word; cbn [map concat].
  - injection Hw as ->. change (8 * 0)%nat with 0%nat. rewrite drop_0, <- app_assoc, take_app_le, take_ge by (rewrite le_bytes_length; lia). apply le_value_bytes. specialize (Hr 0%nat w eq_refl). cbn. lia.
  - rewrite <- app_assoc. replace (8 * S i)%nat with (length (le_bytes 8 x) + 8 * i)%nat by (rewrite le_bytes_length; lia). rewrite drop_app_add. apply (IH i); [|done]. intros j y Hj. by apply (Hr (S j)).
Qed.

Lemma reply_words id status data : 0 <= id < 2 ^ 64 -> 0 <= status < 2 ^ 64 -> Z.of_nat (length data) < 2 ^ 64 ->
  let b := le_bytes 8 id ++ le_bytes 8 status ++ le_bytes 8 (Z.of_nat (length data)) ++ data in
  word_at 0 b = Some id /\ word_at 8 b = Some status /\ word_at 16 b = Some (Z.of_nat (length data)) /\ take_bytes b 24 (Z.of_nat (length data)) = Some data.
Proof.
  intros H1 H2 H3 b. assert (Hb : b = concat (map (le_bytes 8) [id; status; Z.of_nat (length data)]) ++ data) by (cbn [map concat]; rewrite app_nil_r, <- !app_assoc; done).
  assert (Hl : length b = (24 + length data)%nat) by (unfold b; rewrite !length_app, !le_bytes_length; lia).
  assert (Hr : forall j x, [id; status; Z.of_nat (length data)] !! j = Some x -> 0 <= x < 2 ^ 64) by (intros [|[|[|?]]] x; [intros [= <-]; lia..|done]).
  assert (HW : forall i w, [id; status; Z.of_nat (length data)] !! i = Some w -> word_at (8 * i) b = Some w).
  { intros i w Hi. pose proof (lookup_lt_Some _ _ _ Hi) as Hlt. cbn in Hlt. unfold word_at. rewrite (proj2 (Nat.leb_le _ _)) by lia. f_equal. change (block_word b i = w). rewrite Hb. by apply block_word_app. }
  split_and!; [by apply (HW 0%nat)|by apply (HW 1%nat)|by apply (HW 2%nat)|]. unfold take_bytes. rewrite decide_True by lia. f_equal. unfold slice. rewrite Nat2Z.id.
  rewrite Hb. change (Z.to_nat 24) with 24%nat. rewrite drop_app_length' by done. apply take_ge. lia.
Qed.

(** ** Receiving and replying *)

(** [m] is the message in slot [i] and the only one that [p] holds of. *)
Definition only (p : k64_service_msg_t -> bool) (i : nat) (m : k64_service_msg_t) (l : list k64_service_msg_t) : Prop :=
  l !! i = Some m /\ p m = true /\ forall j x, j <> i -> l !! j = Some x -> p x = false.
Definition pending_for (name : list Z) (m : k64_service_msg_t) : bool := bool_decide (ms_state m = MSG_PENDING) && same (ms_service m) name.
Definition has_id (id : Z) (m : k64_service_msg_t) : bool := negb (msg_empty m) && (ms_id m =? id).

Lemma only_find p i m l : only p i m l -> find_index p l 0 = Z.of_nat i.
Proof. intros (H1 & H2 & H3). by eapply find_index_only. Qed.
Lemma msg_at_lookup v i m : service_msgs v !! i = Some m -> msg_at (Z.of_nat i) v = m.
Proof. intros H. unfold msg_at. rewrite Nat2Z.id. by rewrite nth_lookup, H. Qed.

Lemma svc_map_upd_twice i a b k : svc_map (upd_msg i b) (svc_map (upd_msg i a) k) = svc_map (upd_msg i b) k.
Proof. unfold svc_map, put_svc, upd_msg, set_msgs. cbn. by rewrite list_insert_insert_eq. Qed.

Lemma svc_recv_gets pid name s i m k : name_valid name K64_SERVICE_CALL_OWNER_MAX = true ->
  service_named name (k_svc k) = Some s -> sv_running s = true -> current_process_is_service_host s k = true ->
  only (pending_for name) i m (service_msgs (k_svc k)) ->
  svc_recv_call (recv_request pid name) k = Some (answer K64_OK (header_bytes m ++ ms_request m), svc_map (upd_msg (Z.of_nat i) (set_active pid m)) k).
Proof.
  intros Hn Hs Hrun Hhost Ho. destruct (name_chars _ _ Hn) as (Hne & Hlen & Hch). unfold K64_SERVICE_CALL_OWNER_MAX in Hlen. unfold svc_recv_call, recv_request, in_short, out_short, bad_path, in_bytes.
  cbn [rq_in rq_in_len rq_out rq_out_len rq_caller default from_option id]. rewrite (proj2 (Z.ltb_ge _ 1)), (proj2 (Z.ltb_ge K64_SERVICE_CALL_OWNER_MAX _)) by (unfold K64_SERVICE_CALL_OWNER_MAX; lia).
  change (112 + K64_SERVICE_MSG_DATA_MAX <? 112) with false. cbn [negb orb]. replace (Z.to_nat (Z.of_nat (length name) + 1 - 1)) with (length name) by lia.
  rewrite (app_nth2 name [0] 0 (n := length name)), Nat.sub_diag by lia. cbn [nth Z.eqb negb]. destruct name as [|c name]; [done|]. pose proof (Forall_inv Hch) as Hc. cbn [app nth]. rewrite (proj2 (Z.eqb_neq c 0)) by done. cbn [orb].
  change (c :: name ++ [0]) with ((c :: name) ++ [0]). rewrite c_string_app by done. cbn [mbind option_bind]. rewrite Hn, Hs, Hrun, Hhost. cbn [negb].
  change (fun m0 => bool_decide (ms_state m0 = MSG_PENDING) && same (ms_service m0) (c :: name)) with (pending_for (c :: name)). rewrite (only_find _ _ _ _ Ho). rewrite (proj2 (Z.ltb_ge _ _)) by lia.
  by rewrite (msg_at_lookup _ i m) by apply Ho.
Qed.

(** The message with its answer. *)
Definition answered (status : Z) (data : list Z) (m : k64_service_msg_t) : k64_service_msg_t :=
  if ms_capacity m <? Z.of_nat (length data) then set_done K64_ERR_OVERFLOW [] m else set_done status data m.

Lemma svc_reply_answers pid status data i m k : 0 < ms_id m < 2 ^ 64 -> - 2 ^ 63 <= status < 2 ^ 63 -> Z.of_nat (length data) <= K64_SERVICE_MSG_DATA_MAX ->
  only (has_id (ms_id m)) i m (service_msgs (k_svc k)) -> ms_state m = MSG_ACTIVE -> ms_service_pid m = pid ->
  svc_reply_call (reply_request pid (ms_id m) status data) k = Some (error K64_OK, svc_map (upd_msg (Z.of_nat i) (answered status data m)) k).
Proof.
  intros Hid Hst Hlen Ho Hact Hpid. unfold svc_reply_call, reply_request, in_short, in_bytes. cbn [rq_in rq_in_len rq_caller default from_option id]. rewrite (proj2 (Z.ltb_ge _ 24)) by lia.
  unfold K64_SERVICE_MSG_DATA_MAX in *. pose proof (u64_range status) as Hu. destruct (reply_words (ms_id m) (u64 status) data ltac:(lia) ltac:(lia) ltac:(lia)) as (-> & -> & -> & Htake). cbn [mbind option_bind].
  rewrite (proj2 (Z.ltb_ge 65400 _)), (proj2 (Z.ltb_ge _ _)) by lia. cbn [orb]. unfold service_msg_find. rewrite (proj2 (Z.eqb_neq (ms_id m) 0)) by lia.
  change (fun m0 => negb (msg_empty m0) && (ms_id m0 =? ms_id m)) with (has_id (ms_id m)). rewrite (only_find _ _ _ _ Ho). rewrite (msg_at_lookup _ i m) by apply Ho.
  rewrite (proj2 (Z.ltb_ge (Z.of_nat i) 0)), (bool_decide_eq_true_2 _ Hact), (proj2 (Z.eqb_eq _ _) Hpid) by lia. cbn [orb negb]. rewrite Htake. cbn [mbind option_bind].
  assert (Hs : int64 (u64 status) = status) by (rewrite <- (int64_le status Hst) at 2; f_equal; symmetry; apply le_value_bytes; cbn; lia). by rewrite Hs.
Qed.

(** The program reads back what the kernel wrote. *)
Record msg_fits (m : k64_service_msg_t) : Prop := {
  mf_words : Forall (fun x => 0 <= x < 2 ^ 64) [ms_id m; ms_caller m; ms_uid m; Z.of_nat (length (ms_request m)); ms_capacity m; ms_flags m];
  mf_service : (length (ms_service m) <= 31)%nat;
  mf_method : (length (ms_method m) <= 31)%nat;
  mf_chars : Forall (fun c => c <> 0) (ms_method m)
}.

Lemma pad_length n s : (length s <= n)%nat -> length (pad n s) = n.
Proof. intros H. unfold pad. rewrite length_app, zeros_length. lia. Qed.

Lemma header_parsed m : msg_fits m -> let msg := header_bytes m ++ ms_request m in
  c_string (drop 80 msg) = Some (ms_method m) /\ block_word msg 0 = ms_id m /\ take (Z.to_nat (block_word msg 3)) (drop 112 msg) = ms_request m.
Proof.
  intros [Hw Hs Hm Hch] msg. set (ws := [ms_id m; ms_caller m; ms_uid m; Z.of_nat (length (ms_request m)); ms_capacity m; ms_flags m]) in *.
  assert (Hmsg : msg = concat (map (le_bytes 8) ws) ++ pad 32 (ms_service m) ++ pad 32 (ms_method m) ++ ms_request m) by (unfold msg, header_bytes; by rewrite <- !app_assoc).
  assert (HW : forall i w, ws !! i = Some w -> block_word msg i = w).
  { intros i w Hi. rewrite Hmsg. apply block_word_app; [|done]. intros j x Hj. rewrite Forall_lookup in Hw. by apply (Hw j). }
  assert (Hl : length (concat (map (le_bytes 8) ws)) = 48%nat) by (unfold ws; cbn [map concat]; rewrite !length_app, !le_bytes_length; done). split_and!.
  - rewrite Hmsg, app_assoc, drop_app_length' by (rewrite length_app, Hl, pad_length by lia; done). unfold pad. destruct (32 - length (ms_method m))%nat as [|n] eqn:E; [lia|].
    change (zeros (S n)) with (0 :: zeros n). rewrite <- app_assoc. cbn [app]. by apply c_string_app.
  - by apply (HW 0%nat).
  - rewrite (HW 3%nat (Z.of_nat (length (ms_request m))) eq_refl), Nat2Z.id, Hmsg, !app_assoc. rewrite drop_app_length' by (rewrite !length_app, Hl, !pad_length by lia; done). by apply take_ge.
Qed.

(** ** A call from end to end *)

(** Identifiers of messages are below the next one; no wrap is near. *)
Definition is_word (x : Z) : Prop := 0 <= x < 2 ^ 64.
Definition msgs_ok (v : svc) : Prop := 0 < next_request_id v < 2 ^ 64 - 1 /\ Forall (fun m => msg_empty m = false -> 0 < ms_id m < next_request_id v) (service_msgs v).

(** The program of the service is [host_main f]: the process becomes active, runs
    and ends. *)
Definition runs_host (o : outside) (f : list Z -> list Z -> Z * list Z) (pid : Z) (enter leave : um -> um) (owner : k64_service_t) : Prop := forall k k',
  host_main f pid (sv_name owner) (put_um (enter (k_um k)) k) = Some k' -> o_spawn o (sv_entry_path owner) (sv_name owner) k = (true, put_um (leave (k_um k')) k').

(** The call of [owner] can be made: it runs and is the service of its name, its
    program is known, a slot is free and none waits for the service. *)
Record can_call (owner : k64_service_t) (call : k64_service_call_t) (enter : um -> um) (k : kernel) : Prop := {
  cc_msgs : msgs_ok (k_svc k);
  cc_free : Exists (fun m => msg_empty m = true) (service_msgs (k_svc k));
  cc_idle : Forall (fun m => pending_for (sv_name owner) m = false) (service_msgs (k_svc k));
  cc_owner : service_named (sv_name owner) (k_svc k) = Some owner;
  cc_running : sv_running owner = true;
  cc_name : name_valid (sv_name owner) K64_SERVICE_CALL_OWNER_MAX = true;
  cc_entry : sv_entry_path owner <> [];
  cc_current : k64_usermode_current_path 96 (enter (k_um k)) = Some (sv_entry_path owner);
  cc_call_owner : cl_owner call = sv_name owner;
  cc_call_name : name_valid (cl_name call) K64_SERVICE_CALL_NAME_MAX = true
}.

(** What the caller gets: nothing but an error when the answer is longer than its
    buffer, the status when it is an error, the status and all bytes otherwise. *)
Definition exchange_result (out_len status : Z) (data : list Z) : reply :=
  if Z.min out_len K64_SERVICE_MSG_DATA_MAX <? Z.of_nat (length data) then error K64_ERR_OVERFLOW
  else if status <? 0 then mk_reply status [] (Z.of_nat (length data)) else answer status data.

Lemma host_answers f pid s i m k : let name := sv_name s in let '(status, data) := f (ms_method m) (ms_request m) in
  name_valid name K64_SERVICE_CALL_OWNER_MAX = true -> service_named name (k_svc k) = Some s -> sv_running s = true -> current_process_is_service_host s k = true ->
  msg_fits m -> only (pending_for name) i m (service_msgs (k_svc k)) -> only (has_id (ms_id m)) i m (service_msgs (k_svc k)) ->
  0 < ms_id m -> - 2 ^ 63 <= status < 2 ^ 63 -> Z.of_nat (length data) <= K64_SERVICE_MSG_DATA_MAX ->
  host_main f pid name k = Some (svc_map (upd_msg (Z.of_nat i) (answered status data (set_active pid m))) k).
Proof.
  cbn zeta. destruct (f (ms_method m) (ms_request m)) as [status data] eqn:Ef. intros Hn Hs Hrun Hhost Hfit Ho Hid Hpos Hst Hlen. unfold host_main.
  rewrite (svc_recv_gets pid _ s i m k Hn Hs Hrun Hhost Ho). cbn [mbind option_bind]. change (rp_rc (answer K64_OK _) =? K64_OK) with true. cbn [negb answer rp_bytes].
  destruct (header_parsed m Hfit) as (H1 & H2 & H3). rewrite H1. cbn [mbind option_bind]. rewrite H2, H3, Ef. rewrite (proj2 (Z.ltb_ge _ _)) by lia.
  pose proof (Forall_inv (mf_words m Hfit)) as Hw. change (ms_id m) with (ms_id (set_active pid m)) at 1. rewrite (svc_reply_answers pid status data i (set_active pid m)); try done.
  - cbn [mbind option_bind]. by rewrite svc_map_upd_twice.
  - cbn [ms_id set_active]. cbn beta in Hw. lia.
  - destruct Hid as (Hi & _ & Hid). cbn [svc_map put_svc k_svc upd_msg set_msgs service_msgs ms_id set_active]. rewrite Nat2Z.id. split_and!.
    + apply list_lookup_insert_eq. by eapply lookup_lt_Some.
    + unfold has_id. cbn. by rewrite Z.eqb_refl.
    + intros j x Hj. rewrite list_lookup_insert_ne by done. by apply Hid.
Qed.

(** The message of a call, as the program finds it. *)
Definition call_msg (o : outside) (call : k64_service_call_t) (request : list Z) (out_len caller flags : Z) (k : kernel) : k64_service_msg_t :=
  mk_msg MSG_PENDING (next_request_id (k_svc k)) caller (caller_uid o flags k) flags 0 (cl_owner call) (cl_name call) request [] (Z.min out_len K64_SERVICE_MSG_DATA_MAX) K64_ERR_BUSY.

Lemma msg_alloc_spec v : msgs_ok v -> Exists (fun m => msg_empty m = true) (service_msgs v) -> exists i old, service_msgs v !! i = Some old /\ msg_empty old = true /\
  service_msg_alloc v = (Z.of_nat i, set_msgs (<[i := mk_msg MSG_PENDING (next_request_id v) 0 0 0 0 [] [] [] [] 0 K64_ERR_BUSY]> (service_msgs v)) (next_request_id v + 1) v).
Proof.
  intros [Hr _] HE. unfold service_msg_alloc. destruct (find_index_spec msg_empty (service_msgs v) 0 ltac:(lia)) as [[_ HF]|(i & old & -> & Hi & He & _)].
  - exfalso. apply Exists_exists in HE as (m & Hm & He). rewrite Forall_forall in HF. rewrite HF in He; done.
  - exists i, old. split_and!; try done. rewrite (proj2 (Z.ltb_ge _ _)), Z.add_0_l, Nat2Z.id by lia. rewrite u64_small by lia. by rewrite (proj2 (Z.eqb_neq _ _)) by lia.
Qed.

Lemma only_insert p i m l : (i < length l)%nat -> p m = true -> (forall j x, j <> i -> l !! j = Some x -> p x = false) -> only p i m (<[i := m]> l).
Proof. intros Hi Hm Ho. split_and!; [by apply list_lookup_insert_eq|done|]. intros j x Hj. rewrite list_lookup_insert_ne by done. by apply Ho. Qed.

Lemma call_msg_fits o call request out_len caller flags k : name_valid (cl_owner call) K64_SERVICE_CALL_OWNER_MAX = true -> name_valid (cl_name call) K64_SERVICE_CALL_NAME_MAX = true ->
  msgs_ok (k_svc k) -> Z.of_nat (length request) <= K64_SERVICE_MSG_DATA_MAX -> 0 <= out_len -> is_word caller -> is_word flags -> is_word (caller_uid o flags k) ->
  msg_fits (call_msg o call request out_len caller flags k).
Proof.
  intros H1 H2 [H3 _] H4 H5 H6 H7 H8. destruct (name_chars _ _ H1) as (_ & L1 & _), (name_chars _ _ H2) as (_ & L2 & C2). unfold K64_SERVICE_CALL_OWNER_MAX, K64_SERVICE_CALL_NAME_MAX, K64_SERVICE_MSG_DATA_MAX, is_word in *.
  split; cbn [call_msg ms_id ms_caller ms_uid ms_request ms_capacity ms_flags ms_service ms_method]; [|lia|lia|done]. repeat (apply Forall_cons; split; [unfold K64_SERVICE_MSG_DATA_MAX; lia|]). constructor.
Qed.

(** The program, run on a free slot with the message of the call. *)
Lemma host_runs f pid owner call enter i m k : let '(status, data) := f (ms_method m) (ms_request m) in
  can_call owner call enter k -> (i < length (service_msgs (k_svc k)))%nat -> msg_fits m -> ms_state m = MSG_PENDING -> ms_service m = sv_name owner -> ms_id m = next_request_id (k_svc k) ->
  - 2 ^ 63 <= status < 2 ^ 63 -> Z.of_nat (length data) <= K64_SERVICE_MSG_DATA_MAX ->
  let k1 := put_um (enter (k_um k)) (put_svc (set_msgs (<[i := m]> (service_msgs (k_svc k))) (next_request_id (k_svc k) + 1) (k_svc k)) k) in
  host_main f pid (sv_name owner) k1 = Some (svc_map (upd_msg (Z.of_nat i) (answered status data (set_active pid m))) k1).
Proof.
  pose proof (host_answers f pid owner i m) as HH. cbn zeta in HH. destruct (f (ms_method m) (ms_request m)) as [status data]. intros [Hmsgs Hfree Hidle Hown Hrun Hn He Hcur Hco Hcn] Hlt Hfit Hps Hserv Hid Hst Hlen k1.
  apply HH; clear HH; try done.
  - unfold current_process_is_service_host. cbn [k1 k_um put_um]. rewrite Hcur. destruct (same_spec (sv_entry_path owner) (sv_entry_path owner)); [|done]. by destruct (sv_entry_path owner).
  - apply only_insert; [done| |].
    + unfold pending_for. rewrite Hps, Hserv. cbn. by destruct (same_spec (sv_name owner) (sv_name owner)).
    + intros j x _ Hx. rewrite Forall_lookup in Hidle. by eapply Hidle.
  - apply only_insert; [done| |].
    + unfold has_id, msg_empty. rewrite Hps. cbn. by rewrite Z.eqb_refl.
    + intros j x _ Hx. destruct Hmsgs as [_ HF]. rewrite Forall_lookup in HF. specialize (HF j x Hx). unfold has_id. destruct (msg_empty x); [done|]. cbn. apply Z.eqb_neq. specialize (HF eq_refl). lia.
  - destruct Hmsgs as [? _]. lia.
Qed.

(** C10: a call to the program of a service is answered.  When the service runs, its
    program is one that takes a message and answers it with [f], a slot is free and
    no message waits for the service, then the caller gets the status and the bytes
    that [f] gives for the method and exactly the bytes of the request (an error when
    the answer is too long for its buffer), and afterwards the slot is empty, all
    other messages, services, calls and commands are as before, and the caller goes
    on in its own context. *)
Theorem message_answered o f pid enter leave owner call request out_len caller flags k : let '(status, data) := f (cl_name call) request in
  runs_host o f pid enter leave owner -> can_call owner call enter k ->
  Z.of_nat (length request) <= K64_SERVICE_MSG_DATA_MAX -> 0 <= out_len -> is_word caller -> is_word flags -> is_word (caller_uid o flags k) ->
  - 2 ^ 63 <= status < 2 ^ 63 -> Z.of_nat (length data) <= K64_SERVICE_MSG_DATA_MAX ->
  exists i old, service_msgs (k_svc k) !! i = Some old /\ msg_empty old = true /\
    dispatch_ring3_message_call o owner call (Some request) (Z.of_nat (length request)) true out_len caller flags k =
    Some (exchange_result out_len status data,
          mk_kernel (set_msgs (<[i := service_msg_clear]> (service_msgs (k_svc k))) (next_request_id (k_svc k) + 1) (k_svc k))
            (set_ctx (unlock_off (active_ctx (k_um k))) (leave (enter (k_um k)))) (k_scratch k)).
Proof.
  destruct (f (cl_name call) request) as [status data] eqn:Ef. intros Hhost Hcan Hreq Hout Hca Hfl Huid Hst Hlen.
  pose proof Hcan as [Hmsgs Hfree _ _ _ Hn He _ Hco Hcn]. destruct (msg_alloc_spec _ Hmsgs Hfree) as (i & old & Hi & Hold & Halloc). exists i, old. split_and!; [done..|]. pose proof (lookup_lt_Some _ _ _ Hi) as Hlt.
  set (m := call_msg o call request out_len caller flags k). assert (Hfit : msg_fits m) by (apply call_msg_fits; rewrite ?Hco; done).
  unfold dispatch_ring3_message_call. rewrite (proj2 (Z.ltb_ge _ _)) by lia. destruct (sv_entry_path owner) as [|c entry] eqn:Ee; [done|]. cbn [empty]. rewrite <- Ee in *. rewrite Halloc.
  rewrite (proj2 (Z.ltb_ge _ _)) by lia. unfold take_bytes. rewrite decide_True by lia. cbn [mbind option_bind]. change (slice request (Z.to_nat 0) ?n) with (take n request). rewrite Nat2Z.id, firstn_all.
  rewrite (msg_at_lookup _ i (mk_msg MSG_PENDING (next_request_id (k_svc k)) 0 0 0 0 [] [] [] [] 0 K64_ERR_BUSY)) by (cbn; by apply list_lookup_insert_eq). cbn [ms_id].
  rewrite !copy_valid by (rewrite ?Hco; done). fold (call_msg o call request out_len caller flags k). fold m.
  set (v1 := upd_msg (Z.of_nat i) m _). assert (Hv1 : v1 = set_msgs (<[i := m]> (service_msgs (k_svc k))) (next_request_id (k_svc k) + 1) (k_svc k)).
  { unfold v1, upd_msg, set_msgs. cbn. by rewrite Nat2Z.id, list_insert_insert_eq. }
  pose proof (host_runs f pid owner call enter i m k) as Hrunhost. change (ms_method m) with (cl_name call) in Hrunhost. change (ms_request m) with request in Hrunhost. rewrite Ef, <- Hv1 in Hrunhost.
  specialize (Hrunhost ltac:(done) Hlt Hfit eq_refl Hco eq_refl Hst Hlen). unfold execute_nested. rewrite Ee. cbn [empty]. rewrite <- Ee. rewrite (Hhost _ _ Hrunhost).
  rewrite Hv1. clear v1 Hv1 Hrunhost. set (d := answered status data (set_active pid m)). cbn [svc_map put_svc put_um k_svc k_um k_scratch upd_msg set_msgs service_msgs next_request_id].
  rewrite (msg_at_lookup _ i d) by (cbn; rewrite Nat2Z.id; apply list_lookup_insert_eq; by rewrite length_insert). cbn [negb orb].
  match goal with |- context [svc_map (upd_msg (Z.of_nat i) service_msg_clear) ?K] => replace (svc_map (upd_msg (Z.of_nat i) service_msg_clear) K)
    with (mk_kernel (set_msgs (<[i := service_msg_clear]> (service_msgs (k_svc k))) (next_request_id (k_svc k) + 1) (k_svc k)) (set_ctx (unlock_off (active_ctx (k_um k))) (leave (enter (k_um k)))) (k_scratch k))
  end; [|unfold svc_map, put_svc, put_um, upd_msg, set_msgs; cbn; by rewrite !Nat2Z.id, !list_insert_insert_eq].
  unfold exchange_result, d, answered. change (ms_capacity (set_active pid m)) with (Z.min out_len K64_SERVICE_MSG_DATA_MAX).
  destruct (Z.ltb_spec (Z.min out_len K64_SERVICE_MSG_DATA_MAX) (Z.of_nat (length data))) as [Hlong|Hshort]; [done|]. cbn [set_done ms_state ms_status ms_response].
  change (bool_decide (MSG_DONE = MSG_DONE)) with true. cbn [negb]. destruct (Z.ltb_spec status 0).
  - rewrite (proj2 (Z.leb_gt 0 status)) by lia. done.
  - rewrite (proj2 (Z.leb_le 0 status)), (proj2 (Z.ltb_ge out_len _)) by lia. done.
Qed.
