(* ===== verification/SvcCore.v ===== *)
(** * Core services ([k64_system.c], [k64_usermode.c])

    The services and calls the kernel registers at the start, the calls of the
    services [kernel] and [fs], and which handler each call has.

    What a user program changes through the service [fs] was checked against the
    rights of its user. *)
From Stdlib Require Import ZArith Lia.
From stdpp Require Import base list.
From S2P Require Import Prelude KString Users UsersSpec Proc Svc.

(** ** The service kernel *)
Definition copy_response (data : list Z) (r : k64_service_call_request_t) : reply :=
  mk_reply K64_OK (if negb (rq_out r) || (rq_out_len r =? 0) then [] else take (Z.to_nat (rq_out_len r)) data) (Z.of_nat (length data)).
(** The version is a text that the build makes. *)
Definition kernel_version_call (version : list Z) : kernel_handler := fun r k => Some (copy_response (version ++ [0]) r, k).
Definition kernel_uptime_call (w : world) : kernel_handler := fun r k => Some (copy_response (le_bytes 8 (w_ticks w)) r, k).
Definition kernel_uname_call : kernel_handler := fun r k => Some (copy_response (str "K64" ++ [0]) r, k).

(** ** The service fs *)

(** The files: their state and what [k64_fs.c] does with it. *)
Record k64_fs_stat_t := mk_fstat { is_dir : bool; f_size : Z; f_perm : file_stat; created_tick : Z; modified_tick : Z; generation : Z }.
Record files (F : Type) := mk_files {
  k64_fs_stat : list Z -> F -> option k64_fs_stat_t;
  (** the listing, cut to the size of the buffer; [None] for [false] *)
  k64_fs_ls : list Z -> Z -> F -> option (list Z);
  k64_fs_write_file_raw : list Z -> list Z -> F -> bool * F;
  k64_fs_chown : list Z -> Z -> Z -> F -> bool * F;
  k64_fs_move : list Z -> list Z -> F -> bool * F
}.
Arguments mk_files {F}. Arguments k64_fs_stat {F}. Arguments k64_fs_ls {F}. Arguments k64_fs_write_file_raw {F}. Arguments k64_fs_chown {F}. Arguments k64_fs_move {F}.

Section fs.
Context {F : Type} (fo : files F) (w : world).
(** The bytes at a pointer of the kernel. *)
Context (kernel_memory : Z -> Z -> option (list Z)).

Definition fs_handler := k64_service_call_request_t -> um -> F -> option (reply * F).

Definition fs_call_can_access_path (path : list Z) (mask : Z) (s : um) (f : F) : bool :=
  if empty path then false else match k64_fs_stat fo path f with Some st => process_can_access w (f_perm st) mask s | None => false end.

(** On the path read backwards: without slashes at its end, but one character
    stays; without its last component. *)
Fixpoint strip_slashes (r : list Z) : list Z :=
  match r with
  | c :: (_ :: _) as t => if c =? 47 then strip_slashes t else r
  | _ => r
  end.
Fixpoint strip_component (r : list Z) : list Z :=
  match r with [] => [] | c :: t => if c =? 47 then r else strip_component t end.
Definition parent_path (path : list Z) : list Z :=
  match strip_component (strip_slashes (rev (copy_name 256 path))) with
  | [] => str "."
  | [c] => [c]
  | _ :: t => rev t
  end.
Definition fs_call_can_create_path (path : list Z) (s : um) (f : F) : bool :=
  if empty path then false else fs_call_can_access_path (parent_path path) (Z.lor K64_ACCESS_WRITE K64_ACCESS_EXEC) s f.

Definition stat_bytes (st : k64_fs_stat_t) : list Z :=
  concat (map (le_bytes 8) [if is_dir st then 1 else 2; f_size st; 0; st_mode (f_perm st); st_uid (f_perm st); st_gid (f_perm st); created_tick st; modified_tick st; generation st]).
Definition fs_stat_call : fs_handler := fun r s f =>
  if in_short 1 r || (256 <? rq_in_len r) || out_short 72 r then Some (error K64_ERR_INVAL, f)
  else if bad_path r then Some (error K64_ERR_INVAL, f) else
  path ← c_string (in_bytes r);
  Some (match k64_fs_stat fo path f with
        | None => error K64_ERR_NOENT
        | Some st => if negb (process_can_access w (f_perm st) K64_ACCESS_READ s) then error K64_ERR_ACCESS else copy_response (stat_bytes st) r
        end, f).

Definition fs_list_dir_call : fs_handler := fun r s f =>
  if in_short 1 r || (256 <? rq_in_len r) || out_short 1 r then Some (error K64_ERR_INVAL, f)
  else if bad_path r then Some (error K64_ERR_INVAL, f) else
  path ← c_string (in_bytes r);
  Some (if negb (fs_call_can_access_path path (Z.lor K64_ACCESS_READ K64_ACCESS_EXEC) s f) then error K64_ERR_ACCESS else
        match k64_fs_ls fo path (rq_out_len r) f with
        | None => mk_reply K64_ERR_NOENT (zeros (Z.to_nat (rq_out_len r))) 0
        | Some l => answer K64_OK (l ++ [0])
        end, f).

Definition write_as_kernel (r : k64_service_call_request_t) (f : F) : option (reply * F) :=
  if rq_in_len r <? 272 then Some (error K64_ERR_INVAL, f) else
  ptr ← word_at 256 (in_bytes r);
  len ← word_at 264 (in_bytes r);
  if (nth 0 (in_bytes r) 0 =? 0) || ((ptr =? 0) && negb (len =? 0)) then Some (error K64_ERR_INVAL, f) else
  path ← c_string (in_bytes r);
  data ← (if len =? 0 then Some [] else kernel_memory ptr len);
  let '(ok, f) := k64_fs_write_file_raw fo path data f in
  Some (error (if ok then K64_OK else K64_ERR_ACCESS), f).
Definition fs_write_file_call : fs_handler := fun r s f =>
  match rq_in r with
  | None => Some (error K64_ERR_INVAL, f)
  | Some input =>
      if has_flag (rq_flags r) K64_SERVICE_CALLER_KERNEL then write_as_kernel r f
      else if rq_in_len r <? 16 then Some (error K64_ERR_INVAL, f) else
      path_len ← word_at 0 input;
      data_len ← word_at 8 input;
      if (path_len =? 0) || (256 <? path_len) || (K64_SERVICE_CALL_PAYLOAD_MAX <? data_len) || (rq_in_len r <? 16 + path_len + data_len) then Some (error K64_ERR_INVAL, f)
      else if negb (nth (Z.to_nat (16 + path_len - 1)) input 0 =? 0) then Some (error K64_ERR_INVAL, f) else
      path ← c_string (drop 16 input);
      let allowed := match k64_fs_stat fo path f with Some _ => fs_call_can_access_path path K64_ACCESS_WRITE s f | None => fs_call_can_create_path path s f end in
      if negb allowed then Some (error K64_ERR_ACCESS, f) else
      data ← take_bytes input (16 + path_len) data_len;
      let '(ok, f) := k64_fs_write_file_raw fo path data f in
      if negb ok then Some (error K64_ERR_ACCESS, f)
      else Some (error K64_OK, snd (k64_fs_chown fo path (k64_usermode_current_effective_uid w s) (k64_usermode_current_effective_gid w s) f))
  end.

Definition fs_move_call : fs_handler := fun r s f =>
  if in_short 4 r || (512 <? rq_in_len r) then Some (error K64_ERR_INVAL, f) else
  src ← c_string (in_bytes r);
  let src_len := Z.of_nat (length src) + 1 in
  if (src_len <=? 1) || (rq_in_len r <=? src_len) then Some (error K64_ERR_INVAL, f) else
  let rest := drop (Z.to_nat src_len) (in_bytes r) in
  if (nth 0 rest 0 =? 0) || negb (nth (Z.to_nat (rq_in_len r - 1)) (in_bytes r) 0 =? 0) then Some (error K64_ERR_INVAL, f) else
  dst ← c_string rest;
  if negb (fs_call_can_access_path src K64_ACCESS_WRITE s f) || negb (fs_call_can_create_path dst s f) then Some (error K64_ERR_ACCESS, f) else
  let '(ok, f) := k64_fs_move fo src dst f in
  Some (error (if ok then K64_OK else K64_ERR_NOENT), f).
End fs.

(** ** Registration *)
Definition K64_SERVICE_CALL_FLAG_CAN_SPAWN : Z := 16.
Definition K64_SERVICE_CALL_FLAG_CAN_WRITE_FS : Z := 32.
Definition user_flags : Z := Z.lor K64_SERVICE_CALL_FLAG_PUBLIC K64_SERVICE_CALL_FLAG_USER_ALLOWED.

(** The handlers: [default_start] and [default_stop] are function 0. *)
Inductive core_call :=
| KERNEL_VERSION | KERNEL_UPTIME | KERNEL_UNAME | FS_STAT | FS_LIST_DIR | FS_WRITE_FILE | FS_MOVE | SVC_DEMO_RUN | SVC_RECV | SVC_REPLY
| PROC_EXIT | PROC_GETPID | PROC_INFO | PROC_SPAWN | PROC_WAIT | SCHED_YIELD | SCHED_SLEEP | IO_WRITE | IO_OPEN | IO_READ | IO_CLOSE | IO_PIPE
| TERM_CLEAR | TERM_READ_KEY | TERM_READ_KEY_NONBLOCK | TERM_SET_CURSOR | TERM_SIZE | TERM_FB_INFO | TERM_FB_BLIT.
#[export] Instance core_call_eq : EqDecision core_call.
Proof. solve_decision. Defined.
Definition core_calls : list core_call :=
  [KERNEL_VERSION; KERNEL_UPTIME; KERNEL_UNAME; FS_STAT; FS_LIST_DIR; FS_WRITE_FILE; FS_MOVE; SVC_DEMO_RUN; SVC_RECV; SVC_REPLY;
   PROC_EXIT; PROC_GETPID; PROC_INFO; PROC_SPAWN; PROC_WAIT; SCHED_YIELD; SCHED_SLEEP; IO_WRITE; IO_OPEN; IO_READ; IO_CLOSE; IO_PIPE;
   TERM_CLEAR; TERM_READ_KEY; TERM_READ_KEY_NONBLOCK; TERM_SET_CURSOR; TERM_SIZE; TERM_FB_INFO; TERM_FB_BLIT].
Definition number (c : core_call) : nat := Z.to_nat (find_index (fun d => bool_decide (c = d)) core_calls 0).

Definition set_core (entry : option (list Z)) (v : k64_service_t) : k64_service_t :=
  mk_service (sv_pid v) (sv_name v) (sv_source v) (sv_class v) true (sv_flags v) (sv_priority v) (sv_interval v) 1 (sv_stops v)
    (sv_last_start v) (sv_last_poll v) (sv_user_pid v) (sv_controllable v) (sv_ring3_required v) (sv_ring3_verified v)
    (match entry with Some e => copy_name 96 e | None => sv_entry_path v end) (sv_start v) (sv_stop v) true.
Definition call_entry (owner : list Z) (e : list Z * Z * core_call) (v : svc) : svc :=
  let '(name, flags, c) := e in snd (k64_system_register_call owner name flags (Some (number c)) v).
Definition calls_of (owner : list Z) (l : list (list Z * Z * core_call)) (v : svc) : svc := fold_left (fun v e => call_entry owner e v) l v.
(** [if (service) { ... }] *)
Definition core_service (name source : list Z) (class_id : k64_service_class_t) (flags : Z) (controllable : bool) (entry : option (list Z)) (rest : svc -> svc) (v : svc) : svc :=
  match k64_system_register_service name source class_id flags 0 0 controllable 0 0 v with
  | (Some i, v) => rest (upd_service i (set_core entry) v)
  | (None, v) => v
  end.

Definition essential : Z := K64_SERVICE_FLAG_ESSENTIAL.
Definition register_kernel_service : svc -> svc :=
  core_service (str "kernel") (str "k64/kernel") CLASS_KERNEL essential false None (fun v =>
    let v := snd (k64_system_register_command (str "kernel") (str "calls") (Some 0%nat) v) in
    let v := snd (k64_system_register_command (str "kernel") (str "call") (Some 1%nat) v) in
    calls_of (str "kernel") [(str "version", user_flags, KERNEL_VERSION); (str "uptime", user_flags, KERNEL_UPTIME); (str "uname", user_flags, KERNEL_UNAME)] v).
Definition register_fs_service : svc -> svc :=
  core_service (str "fs") (str "k64/fs") CLASS_SYSTEM essential false None
    (calls_of (str "fs") [(str "stat", user_flags, FS_STAT); (str "list_dir", user_flags, FS_LIST_DIR);
       (str "write_file", Z.lor user_flags K64_SERVICE_CALL_FLAG_CAN_WRITE_FS, FS_WRITE_FILE); (str "move", Z.lor user_flags K64_SERVICE_CALL_FLAG_CAN_WRITE_FS, FS_MOVE)]).
Definition register_plain_service (name source : list Z) : svc -> svc := core_service name source CLASS_SYSTEM essential false None (fun v => v).
Definition register_svc_service : svc -> svc :=
  core_service (str "svc") (str "k64/svc") CLASS_SYSTEM essential false None
    (calls_of (str "svc") [(str "demo_run", Z.lor K64_SERVICE_CALL_FLAG_KERNEL_ONLY K64_SERVICE_CALL_FLAG_CAN_SPAWN, SVC_DEMO_RUN);
       (str "recv", user_flags, SVC_RECV); (str "reply", user_flags, SVC_REPLY)]).
Definition register_demo_service : svc -> svc :=
  core_service (str "demo") (str "/ex/demosvc.elf") CLASS_SYSTEM 0 true (Some (str "/ex/demosvc.elf"))
    (fun v => fold_left (fun v name => snd (k64_system_register_call_backend (str "demo") name user_flags BACKEND_RING3_MESSAGE None v)) [str "echo"; str "upper"; str "pid"] v).
Definition k64_system_register_core_services (v : svc) : svc :=
  let v := register_kernel_service v in
  let v := register_fs_service v in
  let v := register_plain_service (str "proc") (str "k64/proc") v in
  let v := register_plain_service (str "io") (str "k64/io") v in
  let v := register_plain_service (str "sched") (str "k64/sched") v in
  let v := register_plain_service (str "term") (str "k64/term") v in
  register_demo_service (register_svc_service v).

Definition k64_usermode_register_service_calls (v : svc) : svc :=
  let v := calls_of (str "proc") [(str "exit", user_flags, PROC_EXIT); (str "getpid", user_flags, PROC_GETPID); (str "info", user_flags, PROC_INFO);
             (str "spawn", Z.lor user_flags K64_SERVICE_CALL_FLAG_CAN_SPAWN, PROC_SPAWN); (str "wait", user_flags, PROC_WAIT)] v in
  let v := calls_of (str "sched") [(str "yield", user_flags, SCHED_YIELD); (str "sleep", user_flags, SCHED_SLEEP)] v in
  let v := calls_of (str "io") [(str "write", user_flags, IO_WRITE); (str "open", user_flags, IO_OPEN); (str "read", user_flags, IO_READ); (str "close", user_flags, IO_CLOSE); (str "pipe", user_flags, IO_PIPE)] v in
  calls_of (str "term") [(str "clear", user_flags, TERM_CLEAR); (str "read_key", user_flags, TERM_READ_KEY); (str "read_key_nonblock", user_flags, TERM_READ_KEY_NONBLOCK);
    (str "set_cursor", user_flags, TERM_SET_CURSOR); (str "size", user_flags, TERM_SIZE); (str "fb_info", user_flags, TERM_FB_INFO); (str "fb_blit", user_flags, TERM_FB_BLIT)] v.

(** ** The handlers *)

(** The handlers of the processes, on the state of the kernel. *)
Definition on_um (h : handler) : kernel_handler := fun r k => '(rep, s) ← h r (k_um k); Some (rep, put_um s k).

Section handlers.
(** The version, the programs, [k64_elf_spawn_user_path_args_ex], and the handlers
    of files and the terminal. *)
Context (version : list Z) (w : world) (execute : list Z -> list Z -> kernel -> bool * kernel) (spawn : list Z -> list Z -> Z -> Z -> um -> bool * um) (other : core_call -> kernel_handler).

Definition handler_of (c : core_call) : kernel_handler :=
  match c with
  | KERNEL_VERSION => kernel_version_call version
  | KERNEL_UPTIME => kernel_uptime_call w
  | KERNEL_UNAME => kernel_uname_call
  | SVC_DEMO_RUN => svc_demo_run_call execute
  | SVC_RECV => svc_recv_call
  | SVC_REPLY => svc_reply_call
  | PROC_EXIT => on_um (proc_exit_service_call w)
  | PROC_GETPID => on_um proc_getpid_service_call
  | PROC_INFO => on_um (proc_info_service_call w)
  | PROC_SPAWN => on_um (proc_spawn_service_call w)
  | PROC_WAIT => on_um (proc_wait_service_call w spawn)
  | SCHED_YIELD => on_um (sched_yield_service_call w spawn)
  | SCHED_SLEEP => on_um (sched_sleep_service_call w spawn)
  | IO_WRITE => on_um io_write_service_call
  | IO_OPEN => on_um (io_open_service_call w)
  | IO_READ => on_um (io_read_service_call w)
  | IO_CLOSE => on_um io_close_service_call
  | IO_PIPE => on_um io_pipe_service_call
  | c => other c
  end.
Definition core_handler (n : nat) : kernel_handler := fun r k => c ← core_calls !! n; handler_of c r k.
End handlers.

(** * File calls of user programs *)
(** ** The directory of a path *)
Definition no_slash (s : list Z) : Prop := Forall (fun c => c <> 47) s.

Lemma strip_slashes_id c r : c <> 47 -> strip_slashes (c :: r) = c :: r.
Proof. intros Hc. cbn. destruct r; [done|]. by rewrite (proj2 (Z.eqb_neq _ _)) by done. Qed.
Lemma strip_component_app s r : no_slash s -> strip_component (s ++ r) = strip_component r.
Proof. induction 1 as [|c s Hc _ IH]; [done|]. cbn. by rewrite (proj2 (Z.eqb_neq _ _)) by done. Qed.

Lemma parent_path_child prefix name : name <> [] -> no_slash name -> (length (prefix ++ name) <= 255)%nat ->
  parent_path (prefix ++ name) = match strip_component (rev prefix) with [] => str "." | [c] => [c] | _ :: t => rev t end.
Proof.
  intros Hne Hn Hl. unfold parent_path, copy_name. rewrite take_ge by (cbn; lia). rewrite rev_app_distr. destruct (rev name) as [|c r] eqn:Er; [by apply (f_equal (@rev Z)) in Er; rewrite rev_involutive in Er|].
  assert (Hr : no_slash (c :: r)) by (rewrite <- Er; unfold no_slash; apply Forall_forall; intros x Hx; rewrite list_elem_of_In, <- in_rev, <- list_elem_of_In in Hx; by apply (proj1 (Forall_forall _ _) Hn)).
  pose proof (Forall_inv Hr) as Hc. cbn [app]. rewrite strip_slashes_id by done. change (c :: r ++ rev prefix) with ((c :: r) ++ rev prefix). by rewrite strip_component_app.
Qed.

(** The directory that is checked for a new file is the one before its last slash,
    the root directory, or the current one. *)
Lemma parent_path_spec dir name : name <> [] -> no_slash name -> (length dir + length name < 255)%nat ->
  parent_path (dir ++ 47 :: name) = (if empty dir then str "/" else dir) /\ parent_path name = str ".".
Proof.
  intros Hne Hn Hl. split.
  - change (47 :: name) with ([47] ++ name). rewrite app_assoc, parent_path_child by (rewrite ?length_app; cbn; done || lia). rewrite rev_app_distr. cbn. destruct dir as [|d dir]; [done|].
    destruct (rev (d :: dir)) as [|c r] eqn:Er; [by apply (f_equal (@rev Z)) in Er; rewrite rev_involutive in Er|]. rewrite <- Er. apply rev_involutive.
  - apply (parent_path_child [] name); [done|done|cbn; lia].
Qed.

(** ** What calls of user programs may change *)
Section checked.
Context {F : Type} (fo : files F) (w : world) (kernel_memory : Z -> Z -> option (list Z)).

Definition has_right (path : list Z) (mask : Z) (s : um) (f : F) : Prop := exists st, k64_fs_stat fo path f = Some st /\ process_can_access w (f_perm st) mask s = true.
Definition may_create (path : list Z) (s : um) (f : F) : Prop := has_right (parent_path path) (Z.lor K64_ACCESS_WRITE K64_ACCESS_EXEC) s f.
Definition may_write (path : list Z) (s : um) (f : F) : Prop := has_right path K64_ACCESS_WRITE s f \/ (k64_fs_stat fo path f = None /\ may_create path s f).

Inductive checked (s : um) (f : F) : F -> Prop :=
| Unchanged : checked s f f
| WriteFailed path data f' : may_write path s f -> k64_fs_write_file_raw fo path data f = (false, f') -> checked s f f'
| Written path data f1 b f' : may_write path s f -> k64_fs_write_file_raw fo path data f = (true, f1) ->
    k64_fs_chown fo path (k64_usermode_current_effective_uid w s) (k64_usermode_current_effective_gid w s) f1 = (b, f') -> checked s f f'
| Moved src dst b f' : has_right src K64_ACCESS_WRITE s f -> may_create dst s f -> k64_fs_move fo src dst f = (b, f') -> checked s f f'.

Lemma access_right path mask s f : fs_call_can_access_path fo w path mask s f = true -> has_right path mask s f.
Proof. unfold fs_call_can_access_path. destruct (empty path); [done|]. destruct (k64_fs_stat fo path f) as [st|] eqn:E; [|done]. intros H. by exists st. Qed.
Lemma create_right path s f : fs_call_can_create_path fo w path s f = true -> may_create path s f.
Proof. unfold fs_call_can_create_path. destruct (empty path); [done|]. apply access_right. Qed.

Inductive fs_call := FsStat | FsListDir | FsWriteFile | FsMove.
Definition fs_handler_of (c : fs_call) : k64_service_call_request_t -> um -> F -> option (reply * F) :=
  match c with FsStat => fs_stat_call fo w | FsListDir => fs_list_dir_call fo w | FsWriteFile => fs_write_file_call fo w kernel_memory | FsMove => fs_move_call fo w end.

Ltac bind_some H := match type of H with (?e ≫= _) = Some _ => destruct e eqn:?; [cbn [mbind option_bind] in H|discriminate H] end.

Lemma write_checked r s f rep f' : has_flag (rq_flags r) K64_SERVICE_CALLER_KERNEL = false -> fs_write_file_call fo w kernel_memory r s f = Some (rep, f') -> checked s f f'.
Proof.
  intros Hu H. unfold fs_write_file_call in H. destruct (rq_in r) as [input|]; [|injection H as _ <-; constructor]. rewrite Hu in H. destruct (_ <? 16); [injection H as _ <-; constructor|].
  do 2 bind_some H. destruct (_ || _ || _ || _); [injection H as _ <-; constructor|]. destruct (negb (_ =? 0)); [injection H as _ <-; constructor|]. bind_some H.
  destruct (negb _) eqn:Ea in H; [injection H as _ <-; constructor|]. apply negb_false_iff in Ea. bind_some H.
  assert (Hm : may_write l s f) by (destruct (k64_fs_stat fo l f) eqn:Es; [left; by apply access_right|right; split; [done|by apply create_right]]).
  destruct (k64_fs_write_file_raw fo l l0 f) as [ok f1] eqn:Ew. destruct ok; cbn [negb] in H; [|injection H as _ <-; by eapply WriteFailed].
  destruct (k64_fs_chown fo l _ _ f1) as [b f2] eqn:Ec. injection H as _ <-. by eapply Written.
Qed.

Lemma move_checked r s f rep f' : fs_move_call fo w r s f = Some (rep, f') -> checked s f f'.
Proof.
  intros H. unfold fs_move_call in H. destruct (_ || _) in H; [injection H as _ <-; constructor|]. bind_some H. destruct (_ || _) in H; [injection H as _ <-; constructor|].
  destruct (_ || _) in H; [injection H as _ <-; constructor|]. bind_some H. destruct (_ || _) eqn:Ea in H; [injection H as _ <-; constructor|].
  apply orb_false_iff in Ea as [E1%negb_false_iff E2%negb_false_iff]. destruct (k64_fs_move fo l l0 f) as [b f1] eqn:Em. injection H as _ <-. eapply Moved; [by apply access_right|by apply create_right|done].
Qed.

(** C39: whatever a user program asks of the service for files, the files change in
    one of these ways only: not at all; a file is written that exists and that the
    user of the program may write, or that does not exist and whose directory the
    user may write and search, and then belongs to that user; or a file the user may
    write is moved to a directory the user may write and search. *)
Theorem file_changes_checked c r s f rep f' : has_flag (rq_flags r) K64_SERVICE_CALLER_KERNEL = false -> fs_handler_of c r s f = Some (rep, f') -> checked s f f'.
Proof.
  intros Hu H. destruct c; cbn [fs_handler_of] in H.
  - unfold fs_stat_call in H. repeat (destruct (_ || _) in H; [injection H as _ <-; constructor|]). destruct (bad_path r); [injection H as _ <-; constructor|]. bind_some H. injection H as _ <-. constructor.
  - unfold fs_list_dir_call in H. repeat (destruct (_ || _) in H; [injection H as _ <-; constructor|]). destruct (bad_path r); [injection H as _ <-; constructor|]. bind_some H. injection H as _ <-. constructor.
  - by eapply write_checked.
  - by eapply move_checked.
Qed.
End checked.
