(* ===== verification/SvcScenario.v ===== *)
(** * Services: concrete runs

    The system after the registration of the core services, system calls of programs
    from user memory through the gate to the handlers and the programs of services,
    and the theorems at concrete inputs. *)
From Stdlib Require Import ZArith Lia.
From stdpp Require Import base list gmap.
From S2P Require Import Prelude KString Users UsersSpec UsersRun UsersSession Proc ProcInv PipeRun ProcLife ProcScenario Svc SvcSpec SvcMsg SvcCore.

(** ** The system *)

(** Memory of programs: pieces with their addresses. *)
Fixpoint read_piece (mem : list (Z * list Z)) (ptr n : Z) : option (list Z) :=
  match mem with
  | [] => None
  | (a, b) :: mem => if (a <=? ptr) && (ptr + n <=? a + Z.of_nat (length b)) then Some (take (Z.to_nat n) (drop (Z.to_nat (ptr - a)) b)) else read_piece mem ptr n
  end.

Definition host_enter (path : list Z) (s : um) : um := let '(i, s) := process_alloc demo_world path 4194304 8192 0 0 s in set_ctx (mk_ctx K64_ERR_INVAL true false i (Some 8192) no_fds) s.
Definition host_leave (s : um) : um := process_reap (c_index (active_ctx s)) s.
Definition demo_run (pid : Z) (path args : list Z) (k : kernel) : bool * kernel :=
  match host_main (demosvc_answer pid) pid args (put_um (host_enter path (k_um k)) k) with Some k' => (true, put_um (host_leave (k_um k')) k') | None => (false, k) end.
Definition quiet : core_call -> kernel_handler := fun _ _ k => Some (error K64_ERR_INVAL, k).
Definition demo_handlers : nat -> kernel_handler := core_handler (str "0.3.1") demo_world (fun _ _ k => (true, k)) demo_spawn quiet.
Definition demo_system (mem : list (Z * list Z)) (pid : Z) : outside :=
  mk_outside demo_world (fun _ k => (true, k)) (fun _ k => k) (fun _ _ k => (true, k)) demo_handlers (demo_run pid) (fun _ _ k => (true, k)) (fun _ => true)
    (fun _ ptr n _ => read_piece mem ptr n) (fun _ _ _ k => (true, k)).

Definition core_svc : svc := k64_usermode_register_service_calls (k64_system_register_core_services k64_system_registry_init).
Definition buffers : list k64_user_service_scratch_t := replicate 4 (mk_scratch false 0 (zeros 65536) (zeros 65536)).
(** A program runs, and has a pipe. *)
Definition booted : kernel := k64_system_verify_ring3_services (demo_system [] 0) (mk_kernel core_svc (after piped) buffers).

(** The call block and what it points to. *)
Definition block_at (service method request : list Z) (response_len : Z) : list (Z * list Z) :=
  [(4096, concat (map (le_bytes 8) [8192; 8256; if empty request then 0 else 12288; Z.of_nat (length request); if response_len =? 0 then 0 else 16384; response_len; 0]));
   (8192, service ++ [0]); (8256, method ++ [0]); (12288, request)].
Definition sys_call (service method request : list Z) (response_len : Z) (k : kernel) : option (Z * bool * kernel) :=
  k64_usermode_syscall_handler (demo_system (block_at service method request response_len) (next_user_pid (k_um k))) K64_SYSCALL_SERVICE_CALL 4096 k.
(** The result and the first bytes of the response. *)
Definition outcome (n : nat) (r : option (Z * bool * kernel)) : option (Z * list Z) :=
  match r with Some (rc, _, k) => Some (rc, take n (sc_out (scratch_at 0 k))) | None => None end.

(** Every core call is registered and open to users but one. *)
Lemma core_calls_registered :
  length (active (service_calls core_svc)) = 32%nat /\
  map key (List.filter (fun c => negb (open_flags (cl_flags c))) (active (service_calls core_svc))) = [(str "svc", str "demo_run")].
Proof. split; vm_compute; reflexivity. Qed.

(** Calls of a program from end to end. *)
Lemma calls_through_gate :
  outcome 4 (sys_call (str "demo") (str "upper") (str "k64" ++ [0]) 64 booted) = Some (K64_OK, str "K64" ++ [0]) /\
  outcome 3 (sys_call (str "demo") (str "echo") (str "abc") 2 booted) = Some (K64_ERR_OVERFLOW, [0; 0; 0]) /\
  outcome 4 (sys_call (str "kernel") (str "uname") [] 16 booted) = Some (K64_OK, str "K64" ++ [0]) /\
  outcome 8 (sys_call (str "proc") (str "getpid") [] 8 booted) = Some (K64_OK, le_bytes 8 5000) /\
  outcome 1 (sys_call (str "svc") (str "demo_run") [] 8 booted) = Some (K64_ERR_ACCESS, [0]) /\
  outcome 1 (sys_call (str "svc") (str "recv") (str "demo" ++ [0]) 65512 booted) = Some (K64_ERR_ACCESS, [0]).
Proof. split_and!; vm_compute; reflexivity. Qed.

(** Calls one after the other, the outcome of the last. *)
Fixpoint sys_calls (l : list (list Z * list Z * list Z * Z)) (k : kernel) : option (Z * bool * kernel) :=
  match l with
  | [] => Some (0, false, k)
  | (service, method, request, n) :: l => '(rc, e, k') ← sys_call service method request n k; match l with [] => Some (rc, e, k') | _ => sys_calls l k' end
  end.

(** ** Defects *)

(** A program writes private bytes to a descriptor that is not open; they stay in the
    buffer of the gate.  Another program asks for a write of 2^64 - 16 bytes to its
    own pipe, without any bytes, and reads the private bytes out of the pipe. *)
Definition two_programs : kernel := k64_system_verify_ring3_services (demo_system [] 0) (mk_kernel core_svc (after (piped ++ [Begin (str "/bin/q")])) buffers).
Lemma scratch_leaks :
  let secret := str "private data" in
  (r ← sys_call (str "io") (str "write") (le_bytes 8 9 ++ le_bytes 8 12 ++ secret) 8 two_programs;
   let k := snd r in
   outcome 12 (sys_calls [(str "io", str "write", le_bytes 8 4 ++ le_bytes 8 (2 ^ 64 - 16), 8);
                          (str "io", str "read", le_bytes 8 3 ++ le_bytes 8 12, 12)] (put_um (set_ctx (demo_ctx 0) (k_um k)) k))) = Some (12, secret).
Proof. vm_compute. reflexivity. Qed.

(** Files with an owner: one file, [/shared], that everybody may write. *)
Definition shared_files : files (Z * Z * list Z) := mk_files
  (fun path '(uid, gid, data) => if same path (str "/shared") then Some (mk_fstat false (Z.of_nat (length data)) (mk_stat uid gid 438) 0 0 0) else None)
  (fun _ _ _ => None)
  (fun path data '(uid, gid, old) => if same path (str "/shared") then (true, (uid, gid, data)) else (false, (uid, gid, old)))
  (fun path uid gid '(u, g, data) => if same path (str "/shared") then (true, (uid, gid, data)) else (false, (u, g, data)))
  (fun _ _ f => (false, f)).
Definition ordinary_process (s : um) : um :=
  upd_proc 0 (fun p => mk_process (p_used p) (p_pid p) (p_parent p) (p_task p) (p_state p) (p_exit p) (p_entry p) (p_cr3 p) (p_start p) (p_end p) (p_fault_vector p)
    (p_fault_rip p) (mk_creds 1000 1000 1000 1000) (p_personality p) (p_brk p) (p_mmap_next p) (p_fs_base p) (p_path p) (p_fds p) (p_wait p) (p_wait_target p)) s.
Definition write_shared : k64_service_call_request_t :=
  mk_request 5000 0 (Some (le_bytes 8 8 ++ le_bytes 8 3 ++ str "/shared" ++ [0] ++ str "abc")) 27 false 0.

(** A user who may write a file of root becomes its owner by writing it. *)
Lemma write_takes_file :
  fs_write_file_call shared_files demo_world (fun _ _ => None) write_shared (ordinary_process (after piped)) (0, 0, str "old") = Some (error K64_OK, (1000, 1000, str "abc")).
Proof. vm_compute. reflexivity. Qed.

(** ** The theorems at concrete inputs *)
Lemma file_changes_checked_witness :
  checked shared_files demo_world (ordinary_process (after piped)) (0, 0, str "old") (1000, 1000, str "abc").
Proof. apply (file_changes_checked shared_files demo_world (fun _ _ => None) FsWriteFile write_shared _ _ (error K64_OK)); vm_compute; reflexivity. Defined.

(** The call for the kernel only does nothing but to fail, whatever its handler is. *)
Definition trap_handlers (n : nat) : kernel_handler := if (n =? number SVC_DEMO_RUN)%nat then fun _ _ => None else demo_handlers n.
Definition run_block : list (Z * list Z) := block_at (str "svc") (str "demo_run") [] 8.
Lemma only_open_reachable : forall h, reachable h (k_svc booted) -> trap_handlers h = demo_handlers h.
Proof.
  intros h (c & s & Hc & Ha & Hh & Ho & _).
  assert (HF : Forall (fun c => cl_active c = true -> open_flags (cl_flags c) = true -> cl_handler c <> Some (number SVC_DEMO_RUN)) (service_calls (k_svc booted)))
    by (apply (bool_decide_unpack _); vm_compute; exact I).
  rewrite Forall_forall in HF. specialize (HF c Hc Ha Ho). unfold trap_handlers. destruct (Nat.eqb_spec h (number SVC_DEMO_RUN)) as [->|]; [done|reflexivity].
Qed.
Lemma gate_confined_witness :
  k64_usermode_syscall_handler (with_kernel (demo_system run_block 0) (fun _ k => (false, k)) (fun _ k => k) (fun _ _ k => (false, k)) trap_handlers (fun _ _ k => (false, k)) (fun _ => false))
    K64_SYSCALL_SERVICE_CALL 4096 booted = k64_usermode_syscall_handler (demo_system run_block 0) K64_SYSCALL_SERVICE_CALL 4096 booted.
Proof. apply (gate_confined (demo_system run_block 0)). exact only_open_reachable. Defined.

(** The service [demo] and its call. *)
Definition demo_service : k64_service_t :=
  mk_service 1006 (str "demo") (str "/ex/demosvc.elf") CLASS_SYSTEM true 8 0 0 1 0 0 0 0 true true true (str "/ex/demosvc.elf") 0 0 true.
Definition upper_call : k64_service_call_t := mk_call (str "demo") (str "upper") user_flags BACKEND_RING3_MESSAGE None true.
Lemma demo_can_call : can_call demo_service upper_call (host_enter (str "/ex/demosvc.elf")) booted.
Proof.
  split; try (vm_compute; reflexivity).
  - split; [vm_compute; split; reflexivity|]. apply (bool_decide_unpack _). vm_compute. exact I.
  - apply (bool_decide_unpack _). vm_compute. exact I.
  - apply (bool_decide_unpack _). vm_compute. exact I.
  - discriminate.
Qed.
Lemma message_answered_witness : exists i old, service_msgs (k_svc booted) !! i = Some old /\ msg_empty old = true /\
  dispatch_ring3_message_call (demo_system [] 5001) demo_service upper_call (Some (str "k64")) 3 true 64 5000 0 booted =
  Some (answer K64_OK (str "K64"),
        mk_kernel (set_msgs (<[i := service_msg_clear]> (service_msgs (k_svc booted))) (next_request_id (k_svc booted) + 1) (k_svc booted))
          (set_ctx (unlock_off (active_ctx (k_um booted))) (host_leave (host_enter (str "/ex/demosvc.elf") (k_um booted)))) (k_scratch booted)).
Proof.
  apply (message_answered (demo_system [] 5001) (demosvc_answer 5001) 5001 (host_enter (str "/ex/demosvc.elf")) host_leave demo_service upper_call (str "k64") 64 5000 0 booted).
  - intros k k' Hk. cbn [o_spawn demo_system]. unfold demo_run. cbn [sv_name sv_entry_path demo_service] in *. by rewrite Hk.
  - exact demo_can_call.
  - vm_compute. discriminate.
  - lia.
  - split; lia.
  - split; lia.
  - vm_compute. split; congruence.
  - vm_compute. split; congruence.
  - vm_compute. discriminate.
Defined.
